(* ===== verification/_CoqProject ===== *)
-Q . S2P
Prelude.v
Limits.v
Messages.v
Lease.v
Route.v
Framing.v
IpcAuth.v
BridgeAuth.v
BridgeQueue.v
Validation.v
Webrtc.v
PeerSession.v
PlatformInput.v
Proxy.v
Broker.v
Helper.v
Rpc.v
Client.v
Connector.v
BridgeRuntime.v
Crypto.v
Containers.v
Transcript.v
GrantStore.v
Authorization.v
SessionAuth.v
Identity.v
Wordlist.v
PairingCrypto.v
Signaling.v
Pairing.v
Sessions.v
Service.v
Revocation.v
RemoteSession.v
Coordinator.v
Engine.v
LocalRuntime.v
RemoteRuntime.v
