(* ===== verification/Prelude.v ===== *)
(** Roammand: a verification development of the Rust core.

    * The program

    Roammand is remote control of one's own machines.  The Host agent (crates/host-agent) keeps
    the device identity and the grants of paired controllers, authenticates a controller over
    the signaling service and opens a WebRTC session (crates/host-webrtc) whose input reaches
    the desktop through a session-scoped sink (crates/host-platform).  Where the desktop is
    not reachable from the user's process (locked or secure desktop), the session runs behind
    the privileged bridge (crates/privileged-bridge): the Host talks to a broker, which leases the
    interactive session to it and forwards authorized commands to a helper in that session.
    Local processes frame and authenticate their messages with crates/ipc; the messages, their
    limits and their validation are gen/rust.

<<
      Host agent -> HostPeerSession -> PlatformInputSink -> desktop
         |                |
         |                +--> proxy -> client wire -> RPC -> transport -> broker -> helper
         +--> HostService (grants, sessions, pairing) <- local interface
         +--> RemoteSessionCoordinator <- signaling frames, peer events
>>

    * The files

    - Prelude: bytes, text, UTF-8, machine integers, the [result] type, the state-and-error
      monad [M S E A] (a Rust method with [&mut self]: the state is kept when it fails), [zoom]
      for a method of a field, the step lemmas of the monad, and [keeps], "every outcome of this
      method preserves the invariant", with its hint database.
    - Limits, Messages, Validation (gen/rust): constants, messages and the validation of what
      comes off the wire.  [decode]/[encode_to_vec] belong to the prost library: the class
      [Message].
    - Lease, Route, Broker: the broker's lease, its route machine, and the session that joins
      them in front of the helper.
    - Framing, BridgeQueue, IpcAuth, BridgeAuth: length-prefixed frames, bounded queues,
      challenge-response and the replay cache.  HMAC-SHA-256 is the class [Hmac].
    - Webrtc, PeerSession: the interfaces of the WebRTC crate and the session state machine.
    - PlatformInput: the sink that tracks what is pressed.
    - Proxy, Client, Rpc, Connector: the Host's side of the bridge, from the session's backends
      down to the transport, each against the interface of the next ([BridgeWire], [BridgeRpc],
      [LocalBridgeTransport], [BridgeRpcConnector]).
    - Helper: the session helper over its native backend.
    - BridgeRuntime: the broker and helper processes: authentication of peers, registration,
      one Host connection, the loops.
    - Crypto, Containers: SHA-256, Ed25519, X25519, HKDF and AES-256-GCM as classes with the
      laws the code relies on; ordered maps and the small containers of the Host agent.
    - Transcript (gen/rust): canonical transcripts and device identifiers.
    - GrantStore, Authorization, SessionAuth, Identity: the grant file and registry, the offer
      verifier with its replay cache, the signing key of the device.
    - Wordlist, PairingCrypto, Signaling, Pairing: the short authentication string, the pairing
      handshake, the client of the signaling service, the pairing coordinator.
    - Sessions, Service, Revocation: the session registry; [HostService], the state the local
      interface, the pairing and the remote sessions share; its critical sections interleaved.
    - RemoteSession, Coordinator, Engine: the remote session engine (remote_session.rs with
      remote_reconnect.rs and remote_session_state.rs), the lemmas on it, and the theorems on
      its runs.  [RemoteSessionCoordinator] owns the peer session ([PeerSession]) over parts of a
      [RemoteSessionFactory] and calls the shared service ([on_service]).
    - LocalRuntime (runtime.rs): the start of the agent, its listener, and one local connection.
    - RemoteRuntime (remote_runtime.rs, signaling/transport.rs): the configuration of the remote
      sessions, the backoff, one registered connection to the signaling service, and the loop
      that connects again.  An async task is the list of the [select!] branches it takes: a turn
      is one branch, and the theorems hold for every list of turns, that is for every schedule.

    * What the theorems show

    - Authority: what reaches the helper is accepted by a monitor that only knows the grants
      (Broker), and a served Host connection is such a run (BridgeRuntime); leases end, are
      bounded and count commands without gaps (Lease); peers and brokers are trusted only after
      their proof, and connecting is all or nothing (IpcAuth, BridgeAuth, Connector,
      BridgeRuntime).
    - Remote sessions: a session exists only by a verified offer of a granted controller, with
      exactly its rights; one at a time; a lost connection freezes it until a fixed deadline; a
      revocation or an emergency stop ends it, in every interleaving (Engine, Revocation,
      Service, SessionAuth); an accepted offer does start one and is answered under the Host's
      key (Engine, Service).
    - The process: a local client is served only after its proof, one answer for each frame,
      and the agent starts well formed or says why not (LocalRuntime); the loop of the remote
      sessions only runs the operations of the engine, a stranger cannot disconnect the Host,
      an unreachable service does not extend a session, and the end of the task leaves none
      (RemoteRuntime).
    - Grants and pairing: the registry's operations are exact and survive restarts; pairing
      grants only a peer that was verified and confirmed (Authorization, Pairing, PairingCrypto,
      Identity, Signaling).
    - Input safety: nothing stays pressed outside the connected state unless a cleanup is
      outstanding, for a session over the platform sink and over the bridge proxy (PeerSession,
      PlatformInput, Proxy); input needs the session, the permission and the next sequence.
    - Protocol refinement: route log, wire discipline, helper contract, wire frames, stream
      framing, replay window, session log are each accepted by a declarative specification.
    - Exactness and errors: validation accepts exactly the declared messages; the operations'
      results and failures are characterised; failures that close a session are proved.
    - Termination and bounds: the waiting loops return (Rpc, BridgeRuntime), pixel coordinates
      stay in range (PlatformInput).

    * Bounds and fuel

    Machine integers are [Z] with the width's operation written out (wrapping, saturating or
    checked as in the source).  [call_loop] runs with the number of frames the transport can
    still deliver, [remaining], plus one; the process loops run with the number of readings of
    the shutdown flag before it is set, [until_shutdown], plus one; that both suffice is proved.

    * Not modelled

    Operating system I/O (sockets, pipes, files, key stores, native input, capture, WebRTC
    itself), the scheduler and the clocks of the async runtime (what they decide is an argument:
    the branch taken, the time read), the choice and the set-up of a session factory
    ([prepare_remote_sessions]), the signals of the operating system, the generated encoders, the
    Flutter application and the Go signaling service.  The manifest lists each part with its reason. *)
From Stdlib Require Export Strings.Byte.
From stdpp Require Export base tactics decidable option list numbers gmap sets strings sorting relations.

#[export] Set Default Goal Selector "!".

(** * Bytes

    A Rust [u8] is a [Byte.byte], a [&[u8]], [Vec<u8>] or [[u8; n]] is a list of
    bytes (an array carries its length as a side condition where it matters). *)

Abbreviation bytes := (list Byte.byte).

#[export] Instance byte_eq_dec : EqDecision Byte.byte := Byte.byte_eq_dec.

#[export] Program Instance byte_countable : Countable Byte.byte :=
  inj_countable Byte.to_N Byte.of_N _.
Next Obligation. intros b. apply Byte.of_to_N. Qed.

Definition byte_val (b : Byte.byte) : Z := Z.of_N (Byte.to_N b).

(** [z as u8]: truncation to the low eight bits. *)
Definition byte_of (z : Z) : Byte.byte :=
  default x00 (Byte.of_N (Z.to_N (z `mod` 256))).

(** The length of a slice as the [usize] the code compares. *)
Definition len {A} (l : list A) : Z := Z.of_nat (length l).

(** [n]-byte big-endian encoding ([to_be_bytes]) and its inverse ([from_be_bytes]). *)
Fixpoint be_bytes (n : nat) (v : Z) : bytes :=
  match n with
  | O => []
  | S n' => be_bytes n' (v `div` 256) ++ [byte_of v]
  end.

#[global] Arguments be_bytes : simpl never.

Definition be_val (bs : bytes) : Z :=
  foldl (λ acc b, acc * 256 + byte_val b)%Z 0%Z bs.

(** [<&[u8] as TryInto<[u8; n]>>::try_into]: a slice of exactly [n] bytes. *)
Definition array_of (n : Z) (bs : bytes) : option bytes :=
  if decide (len bs = n) then Some bs else None.

(** Lexicographic order of byte slices ([Ord for [u8]]). *)
Fixpoint bytes_leb (x y : bytes) : bool :=
  match x, y with
  | [], _ => true
  | _ :: _, [] => false
  | a :: x', b :: y' =>
      if decide (a = b) then bytes_leb x' y' else (byte_val a <? byte_val b)%Z
  end.

Definition bytes_le (x y : bytes) : Prop := bytes_leb x y = true.

#[export] Instance bytes_le_dec : RelDecision bytes_le := λ x y, bool_eq_dec (bytes_leb x y) true.

(** * Strings

    A Rust [str] is the list of its Unicode scalar values; [text_len] is [str::len],
    the number of bytes of the UTF-8 encoding. *)

Abbreviation text := (list Z).

Definition utf8_width (c : Z) : Z :=
  if (c <? 128)%Z then 1
  else if (c <? 2048)%Z then 2
  else if (c <? 65536)%Z then 3
  else 4.

Definition text_len (s : text) : Z := foldr (λ c n, utf8_width c + n)%Z 0%Z s.

(** The UTF-8 encoding of a scalar value and of a string ([str::as_bytes]). *)
Definition utf8_char (c : Z) : bytes :=
  if (c <? 128)%Z then [byte_of c]
  else if (c <? 2048)%Z then [byte_of (192 + c `div` 64); byte_of (128 + c `mod` 64)]
  else if (c <? 65536)%Z then
    [byte_of (224 + c `div` 4096); byte_of (128 + (c `div` 64) `mod` 64);
     byte_of (128 + c `mod` 64)]
  else
    [byte_of (240 + c `div` 262144); byte_of (128 + (c `div` 4096) `mod` 64);
     byte_of (128 + (c `div` 64) `mod` 64); byte_of (128 + c `mod` 64)].

Definition as_bytes (s : text) : bytes := s ≫= utf8_char.

(** [char::is_control]: the general category Cc. *)
Definition is_control (c : Z) : bool :=
  ((0 <=? c) && (c <=? 31) || (127 <=? c) && (c <=? 159))%Z.

(** [char::to_ascii_lowercase] and [str::eq_ignore_ascii_case]. *)
Definition to_ascii_lowercase (c : Z) : Z :=
  if ((65 <=? c) && (c <=? 90))%Z then (c + 32)%Z else c.

Definition eq_ignore_ascii_case (a b : text) : bool :=
  bool_decide (to_ascii_lowercase <$> a = to_ascii_lowercase <$> b).

(** A string literal of the source. *)
Definition lit (s : string) : text :=
  (λ a, Z.of_N (Ascii.N_of_ascii a)) <$> String.list_ascii_of_string s.

(** * Machine integers: the checked and saturating operations of [u64] and [u32]. *)

Definition U64_MAX : Z := 18446744073709551615.
Definition U32_MAX : Z := 4294967295.

Definition is_u64 (z : Z) : Prop := (0 <= z <= U64_MAX)%Z.
Definition is_u32 (z : Z) : Prop := (0 <= z <= U32_MAX)%Z.

Definition checked_add (max a b : Z) : option Z :=
  if (a + b <=? max)%Z then Some (a + b)%Z else None.

Definition saturating_add (max a b : Z) : Z := Z.min (a + b) max.

Definition checked_sub (a b : Z) : option Z :=
  if (b <=? a)%Z then Some (a - b)%Z else None.

Definition saturating_sub (a b : Z) : Z := Z.max 0 (a - b).

(** * Fallible computations

    [result E A] is [Result<A, E>].  [M S E A] is a method on [&mut S] that returns
    [Result<A, E>]: as in Rust, the mutations made before an early return stay. *)

Inductive result (E A : Type) : Type :=
| Ok (a : A)
| Err (e : E).
Arguments Ok {E A} a.
Arguments Err {E A} e.

#[export] Instance result_eq_dec `{EqDecision E, EqDecision A} : EqDecision (result E A).
Proof. solve_decision. Defined.

#[export] Instance result_ret {E} : MRet (result E) := λ A, Ok.
#[export] Instance result_bind {E} : MBind (result E) := λ A B f r,
  match r with Ok a => f a | Err e => Err e end.
#[export] Instance result_fmap {E} : FMap (result E) := λ A B f r,
  match r with Ok a => Ok (f a) | Err e => Err e end.
#[export] Instance result_throw {E} : MThrow E (result E) := λ A, Err.

Definition M (S E A : Type) : Type := S → result E A * S.

#[export] Instance M_ret {S E} : MRet (M S E) := λ A a s, (Ok a, s).
#[export] Instance M_bind {S E} : MBind (M S E) := λ A B f m s,
  match m s with
  | (Ok a, s') => f a s'
  | (Err e, s') => (Err e, s')
  end.
#[export] Instance M_throw {S E} : MThrow E (M S E) := λ A e s, (Err e, s).

Definition get {S E} : M S E S := λ s, (Ok s, s).
Definition gets {S E A} (f : S → A) : M S E A := λ s, (Ok (f s), s).
Definition put {S E} (s' : S) : M S E unit := λ _, (Ok (), s').
Definition modify {S E} (f : S → S) : M S E unit := λ s, (Ok (), f s).

(** [if c { return Err(e); }] *)
Definition fail_if {F : Type → Type} {E} `{MThrow E F, MRet F} (c : bool) (e : E) : F unit :=
  if c then mthrow e else mret ().

(** [o.ok_or(e)?] *)
Definition ok_or {F : Type → Type} {E A} `{MThrow E F, MRet F} (o : option A) (e : E) : F A :=
  match o with Some a => mret a | None => mthrow e end.

(** A pure [Result] used inside a method. *)
Definition lift {S E A} (r : result E A) : M S E A := λ s, (r, s).

(** [r.map_err(f)] on a value, and on a method call. *)
Definition map_err {E E' A} (f : E → E') (r : result E A) : result E' A :=
  match r with Ok a => Ok a | Err e => Err (f e) end.

Definition map_err_m {S E E' A} (f : E → E') (m : M S E A) : M S E' A := λ s,
  let '(r, s') := m s in (map_err f r, s').

(** A call whose [Result] the caller inspects itself ([match m() {..}], [let _ = m()]). *)
Definition try {S E E' A} (m : M S E A) : M S E' (result E A) := λ s,
  let '(r, s') := m s in (Ok r, s').

(** A method of the field [proj s], written back with [upd]. *)
Definition zoom {S T E A} (proj : S → T) (upd : T → S → S) (m : M T E A) : M S E A := λ s,
  let '(r, t) := m (proj s) in (r, upd t s).

(** [for x in l { body(x)?; }] *)
Fixpoint for_each {S E A} (l : list A) (body : A → M S E unit) : M S E unit :=
  match l with
  | [] => mret ()
  | x :: l' => body x ≫= λ _, for_each l' body
  end.

Definition is_ok {E A} (r : result E A) : bool :=
  match r with Ok _ => true | Err _ => false end.

Definition is_some {A} (o : option A) : bool :=
  match o with Some _ => true | None => false end.

(** * Lemmas on bytes *)

Create HintDb rust discriminated.
Create Rewrite HintDb rust.

Lemma byte_val_bound b : (0 <= byte_val b < 256)%Z.
Proof. unfold byte_val. pose proof (Byte.to_N_bounded b). lia. Qed.

Lemma byte_of_val b : byte_of (byte_val b) = b.
Proof.
  unfold byte_of. rewrite Z.mod_small by apply byte_val_bound.
  unfold byte_val. rewrite N2Z.id. by rewrite Byte.of_to_N.
Qed.

Lemma byte_val_of z : byte_val (byte_of z) = (z `mod` 256)%Z.
Proof.
  unfold byte_of, byte_val.
  pose proof (Z.mod_pos_bound z 256 ltac:(lia)) as Hb.
  destruct (Byte.of_N (Z.to_N (z `mod` 256))) as [b|] eqn:Hb'; simpl.
  - apply Byte.to_of_N in Hb'. rewrite Hb'. lia.
  - apply Byte.of_N_None_iff in Hb'. lia.
Qed.

#[export] Instance byte_val_inj : Inj (=) (=) byte_val.
Proof. intros a b Hab. by rewrite <- (byte_of_val a), Hab, byte_of_val. Qed.

Lemma length_be_bytes n v : length (be_bytes n v) = n.
Proof. revert v. induction n; intros v; [done|].
  change (be_bytes (S n) v) with (be_bytes n (v `div` 256) ++ [byte_of v]). rewrite length_app, IHn. simpl; lia. Qed.

Lemma len_be_bytes n v : len (be_bytes n v) = Z.of_nat n.
Proof. unfold len. by rewrite length_be_bytes. Qed.

Lemma be_val_snoc bs b : be_val (bs ++ [b]) = (be_val bs * 256 + byte_val b)%Z.
Proof. unfold be_val. by rewrite foldl_app. Qed.

Lemma be_val_bound bs : (0 <= be_val bs < 256 ^ len bs)%Z.
Proof.
  induction bs as [|b bs IH] using rev_ind; [done|].
  rewrite be_val_snoc. unfold len in *. rewrite length_app. simpl length.
  rewrite Nat2Z.inj_add, Z.pow_add_r by lia. change (256 ^ Z.of_nat 1)%Z with 256%Z.
  pose proof (byte_val_bound b). nia.
Qed.

Lemma be_val_be_bytes n v : (0 <= v < 256 ^ Z.of_nat n)%Z → be_val (be_bytes n v) = v.
Proof.
  revert v. induction n as [|n IH]; intros v Hv.
  - simpl in Hv. unfold be_val. simpl. lia.
  - change (be_bytes (S n) v) with (be_bytes n (v `div` 256) ++ [byte_of v]).
    rewrite be_val_snoc, byte_val_of.
    rewrite Nat2Z.inj_succ, Z.pow_succ_r in Hv by lia.
    rewrite IH.
    + pose proof (Z.div_mod v 256). lia.
    + split; [apply Z.div_pos; lia | apply Z.div_lt_upper_bound; lia].
Qed.

Lemma be_bytes_be_val bs : be_bytes (length bs) (be_val bs) = bs.
Proof.
  induction bs as [|b bs IH] using rev_ind; [done|].
  rewrite length_app, Nat.add_1_r.
  change (be_bytes (S ?n) ?v) with (be_bytes n (v `div` 256) ++ [byte_of v]).
  rewrite be_val_snoc.
  pose proof (byte_val_bound b).
  rewrite Z.div_add_l, Z.div_small, Z.add_0_r, IH by lia. f_equal.
  rewrite <- (byte_of_val b) at 2. unfold byte_of.
  by rewrite Z.add_comm, Z_mod_plus_full.
Qed.

Lemma be_bytes_inj n v w :
  (0 <= v < 256 ^ Z.of_nat n)%Z → (0 <= w < 256 ^ Z.of_nat n)%Z →
  be_bytes n v = be_bytes n w → v = w.
Proof. intros Hv Hw H. by rewrite <- (be_val_be_bytes n v), H, be_val_be_bytes. Qed.

Lemma array_of_Some n bs a : array_of n bs = Some a ↔ a = bs ∧ len bs = n.
Proof. unfold array_of. case_decide; naive_solver. Qed.

Lemma array_of_None n bs : array_of n bs = None ↔ len bs ≠ n.
Proof. unfold array_of. case_decide; naive_solver. Qed.

(** * Lemmas on list lengths *)

Lemma len_nil {A} : len (@nil A) = 0%Z.
Proof. done. Qed.

Lemma len_cons {A} (x : A) l : len (x :: l) = (1 + len l)%Z.
Proof. unfold len. simpl length. lia. Qed.

Lemma len_app {A} (k l : list A) : len (k ++ l) = (len k + len l)%Z.
Proof. unfold len. rewrite length_app. lia. Qed.

Lemma len_nonneg {A} (l : list A) : (0 <= len l)%Z.
Proof. unfold len. lia. Qed.

Lemma len_0 {A} (l : list A) : len l = 0%Z ↔ l = [].
Proof. unfold len. destruct l; simpl; split; (done || lia). Qed.

#[export] Hint Rewrite @len_nil @len_cons @len_app len_be_bytes : rust.
#[export] Hint Resolve len_nonneg byte_val_bound : rust.

(** A common prefix of equal length can be cancelled. *)
Lemma app_inj_len {A} (k1 k2 l1 l2 : list A) :
  len k1 = len k2 → k1 ++ l1 = k2 ++ l2 → k1 = k2 ∧ l1 = l2.
Proof. unfold len. intros Hl. apply app_inj_1. lia. Qed.

(** The order of byte slices is a total order. *)
Lemma bytes_leb_refl x : bytes_leb x x = true.
Proof. induction x; simpl; [done|]. by rewrite decide_True. Qed.

#[export] Instance bytes_le_total : Total bytes_le.
Proof.
  intros x. induction x as [|a x IH]; intros [|b y]; [by left|by left|by right|].
  unfold bytes_le in *; simpl.
  case_decide as Hab; [subst; rewrite decide_True by done; apply IH|].
  rewrite decide_False by done. rewrite !Z.ltb_lt.
  destruct (Z.lt_trichotomy (byte_val a) (byte_val b)) as [?|[He|?]]; [by left| |by right].
  by apply (inj byte_val) in He.
Qed.

#[export] Instance bytes_le_trans : Transitive bytes_le.
Proof.
  intros x. unfold bytes_le.
  induction x as [|a x IH]; intros [|b y] [|c z]; simpl; try done.
  repeat case_decide; subst; rewrite ?Z.ltb_lt; intros; try done.
  - eauto.
  - lia.
  - lia.
Qed.

#[export] Instance bytes_le_antisym : AntiSymm (=) bytes_le.
Proof.
  intros x. unfold bytes_le. induction x as [|a x IH]; intros [|b y]; simpl; try done.
  case_decide; subst.
  - rewrite decide_True by done. intros. f_equal. by apply IH.
  - rewrite decide_False by done. rewrite !Z.ltb_lt. lia.
Qed.

(** * Lemmas on computations *)

Lemma result_bind_Ok {E A B} (r : result E A) (f : A → result E B) b :
  (r ≫= f) = Ok b ↔ ∃ a, r = Ok a ∧ f a = Ok b.
Proof. destruct r; simpl; naive_solver. Qed.

(** The same for the ways a fallible function is written. *)
Lemma res_seq {E B} (m : result E unit) (k : result E B) b :
  (m;; k) = Ok b ↔ m = Ok () ∧ k = Ok b.
Proof. destruct m as [[]|]; naive_solver. Qed.

Lemma res_fail_if {E} (c : bool) (e : E) : (fail_if c e : result E unit) = Ok () ↔ c = false.
Proof. by destruct c. Qed.

Lemma res_ok_or {E A B} (o : option A) (e : E) (k : A → result E B) b :
  (ok_or o e ≫= k) = Ok b ↔ ∃ a, o = Some a ∧ k a = Ok b.
Proof. destruct o; naive_solver. Qed.

Lemma res_ret {E A} (a b : A) : (mret a : result E A) = Ok b ↔ a = b.
Proof. unfold mret, result_ret. naive_solver. Qed.

Lemma M_bind_Ok {S E A B} (m : M S E A) (f : A → M S E B) s b s' :
  (m ≫= f) s = (Ok b, s') ↔ ∃ a s1, m s = (Ok a, s1) ∧ f a s1 = (Ok b, s').
Proof.
  unfold mbind, M_bind. destruct (m s) as [[a|e] s1]; naive_solver.
Qed.

Lemma M_bind_Err {S E A B} (m : M S E A) (f : A → M S E B) s e s' :
  (m ≫= f) s = (Err e, s') ↔
  m s = (Err e, s') ∨ ∃ a s1, m s = (Ok a, s1) ∧ f a s1 = (Err e, s').
Proof.
  unfold mbind, M_bind. destruct (m s) as [[a|e'] s1]; naive_solver.
Qed.

(** Stepping over the first call of a method. *)
Lemma bind_some {S E A B} (a : A) (e : E) (k : A → M S E B) s : (ok_or (Some a) e ≫= k) s = k a s.
Proof. done. Qed.

Lemma bind_none {S E A B} (e : E) (k : A → M S E B) s : (ok_or None e ≫= k) s = (Err e, s).
Proof. done. Qed.

Lemma bind_get {S E B} (k : S → M S E B) s : (get ≫= k) s = k s s.
Proof. done. Qed.

Lemma bind_fail_if {S E B} (c : bool) (e : E) (k : unit → M S E B) s :
  (fail_if c e ≫= k) s = if c then (Err e, s) else k () s.
Proof. by destruct c. Qed.

Lemma bind_lift {S E A B} (r : result E A) (k : A → M S E B) s :
  (lift r ≫= k) s = match r with Ok a => k a s | Err e => (Err e, s) end.
Proof. by destruct r. Qed.

Lemma bind_run {S E A B} (m : M S E A) (k : A → M S E B) s :
  (m ≫= k) s = match m s with (Ok a, s') => k a s' | (Err e, s') => (Err e, s') end.
Proof. done. Qed.

Lemma bind_zoom {S T E A B} (proj : S → T) upd (m : M T E A) (k : A → M S E B) s :
  (zoom proj upd m ≫= k) s =
  match m (proj s) with (Ok a, t) => k a (upd t s) | (Err e, t) => (Err e, upd t s) end.
Proof. rewrite bind_run. unfold zoom. by destruct (m (proj s)) as [[]]. Qed.

Lemma bind_map_err {S E E' A B} (f : E → E') (m : M S E A) (k : A → M S E' B) s :
  (map_err_m f m ≫= k) s =
  match m s with (Ok a, s') => k a s' | (Err e, s') => (Err (f e), s') end.
Proof. rewrite bind_run. unfold map_err_m. by destruct (m s) as [[]]. Qed.

Lemma bind_map_err_zoom {S T E E' A B} (f : E → E') (proj : S → T) upd (m : M T E A)
    (k : A → M S E' B) s :
  (map_err_m f (zoom proj upd m) ≫= k) s =
  match m (proj s) with (Ok a, t) => k a (upd t s) | (Err e, t) => (Err (f e), upd t s) end.
Proof. rewrite bind_map_err. unfold zoom. by destruct (m (proj s)) as [[]]. Qed.

Lemma bind_try {S E E' A B} (m : M S E A) (k : result E A → M S E' B) s :
  (try m ≫= k) s = k (m s).1 (m s).2.
Proof. rewrite bind_run. unfold try. by destruct (m s). Qed.

(** A method that keeps an invariant of its state whatever it returns. *)
Definition keeps {S E A} (I : S → Prop) (m : M S E A) : Prop := ∀ s, I s → I (m s).2.

Section keeps.
Context {S E : Type} (I : S → Prop).

Lemma keeps_pure {A} (r : result E A) : keeps I (lift r).
Proof. by intros s ?. Qed.

Lemma keeps_ret {A} (a : A) : keeps I (mret a : M S E A).
Proof. by intros s ?. Qed.

Lemma keeps_throw {A} (e : E) : keeps I (mthrow e : M S E A).
Proof. by intros s ?. Qed.

Lemma keeps_fail_if (c : bool) (e : E) : keeps I (fail_if c e : M S E unit).
Proof. by intros s ?; destruct c. Qed.

Lemma keeps_ok_or {A} (o : option A) (e : E) : keeps I (ok_or o e : M S E A).
Proof. by intros s ?; destruct o. Qed.

Lemma keeps_modify (f : S → S) : (∀ s, I s → I (f s)) → keeps I (modify f : M S E unit).
Proof. intros Hf s Hs. by apply Hf. Qed.

Lemma keeps_bind {A B} (m : M S E A) (k : A → M S E B) :
  keeps I m → (∀ a, keeps I (k a)) → keeps I (m ≫= k).
Proof.
  intros Hm Hk s Hs. rewrite bind_run. specialize (Hm s Hs).
  destruct (m s) as [[a|e] s1]; [by apply Hk|done].
Qed.

Lemma keeps_get {B} (k : S → M S E B) :
  (∀ s, I s → keeps I (k s)) → keeps I (get ≫= k).
Proof. intros Hk s Hs. rewrite bind_get. by apply Hk. Qed.

Lemma keeps_lift {A B} (r : result E A) (k : A → M S E B) :
  (∀ a, r = Ok a → keeps I (k a)) → keeps I (lift r ≫= k).
Proof. intros Hk s Hs. rewrite bind_lift. destruct r; [by apply Hk|done]. Qed.

Lemma keeps_some {A B} (o : option A) (e : E) (k : A → M S E B) :
  (∀ a, o = Some a → keeps I (k a)) → keeps I (ok_or o e ≫= k).
Proof. intros Hk s Hs. destruct o; [by apply Hk|done]. Qed.

Lemma keeps_try {E' A} (m : M S E' A) : keeps I m → keeps I (try m : M S E (result E' A)).
Proof. intros Hm s Hs. unfold try. specialize (Hm s Hs). by destruct (m s). Qed.

Lemma keeps_zoom {T A} (proj : S → T) upd (m : M T E A) :
  (∀ s, I s → I (upd (m (proj s)).2 s)) → keeps I (zoom proj upd m).
Proof. intros Hm s Hs. unfold zoom. specialize (Hm s Hs). by destruct (m (proj s)). Qed.

Lemma keeps_map_err {E' A} (f : E' → E) (m : M S E' A) : keeps I m → keeps I (map_err_m f m).
Proof. intros Hm s Hs. unfold map_err_m. specialize (Hm s Hs). by destruct (m s). Qed.
End keeps.

(** [keeps] splits a method into its calls; the calls known to keep [I] are hints. *)
Create HintDb keeps discriminated.
#[export] Hint Resolve keeps_pure keeps_ret keeps_throw keeps_fail_if keeps_ok_or : keeps.

Ltac keeps :=
  repeat lazymatch goal with
  | |- keeps _ (@mbind _ _ _ _ _ (@get _ _)) => apply keeps_get; intros ? ?
  | |- keeps _ (@mbind _ _ _ _ _ (lift _)) => apply keeps_lift; intros ? ?
  | |- keeps _ (@mbind _ _ _ _ _ (ok_or _ _)) => apply keeps_some; intros ? ?
  | |- keeps _ (@mbind _ _ _ _ _ _) => apply keeps_bind; [|intros ?]
  | |- keeps _ (match ?x with _ => _ end) => destruct x eqn:?
  | |- keeps _ (try _) => apply keeps_try
  | |- keeps _ (map_err_m _ _) => apply keeps_map_err
  | |- keeps _ _ => solve [eauto with keeps]
  end.

(** ** Postconditions

    [wp m Q s]: running [m] in [s] ends in a result and a state that satisfy [Q].  [wp_step]
    follows the first call of a method and leaves one goal per branch. *)
Definition wp {S E A} (m : M S E A) (Q : result E A → S → Prop) (s : S) : Prop :=
  Q (m s).1 (m s).2.

Section wp.
Context {S E : Type}.

Lemma wp_bind {A B} (m : M S E A) (k : A → M S E B) Q s :
  wp m (λ r s', match r with Ok a => wp (k a) Q s' | Err e => Q (Err e) s' end) s →
  wp (m ≫= k) Q s.
Proof. unfold wp. rewrite bind_run. by destruct (m s) as [[a|e] s']. Qed.

Lemma wp_mono {A} (m : M S E A) (Q Q' : result E A → S → Prop) s :
  wp m Q s → (∀ r s', Q r s' → Q' r s') → wp m Q' s.
Proof. unfold wp. auto. Qed.

Lemma wp_run {A} (m : M S E A) Q s r s' : m s = (r, s') → wp m Q s → Q r s'.
Proof. unfold wp. by intros ->. Qed.

Lemma wp_of_run {A} (m : M S E A) (Q : result E A → S → Prop) s :
  (∀ r s', m s = (r, s') → Q r s') → wp m Q s.
Proof. unfold wp. destruct (m s). eauto. Qed.

Lemma wp_get {B} (k : S → M S E B) Q s : wp (k s) Q s → wp (get ≫= k) Q s.
Proof. done. Qed.

Lemma wp_modify {B} (f : S → S) (k : unit → M S E B) Q s :
  wp (k ()) Q (f s) → wp (modify f ≫= k) Q s.
Proof. done. Qed.

Lemma wp_fail_if {B} (c : bool) (e : E) (k : unit → M S E B) Q s :
  (c = true → Q (Err e) s) → (c = false → wp (k ()) Q s) → wp (fail_if c e ≫= k) Q s.
Proof. intros Ht Hf. destruct c; [by apply Ht|by apply Hf]. Qed.

Lemma wp_ok_or {A B} (o : option A) (e : E) (k : A → M S E B) Q s :
  (o = None → Q (Err e) s) → (∀ a, o = Some a → wp (k a) Q s) → wp (ok_or o e ≫= k) Q s.
Proof. intros Hn Hs. destruct o; [by apply Hs|by apply Hn]. Qed.

Lemma wp_lift {A B} (r : result E A) (k : A → M S E B) Q s :
  (∀ e, r = Err e → Q (Err e) s) → (∀ a, r = Ok a → wp (k a) Q s) → wp (lift r ≫= k) Q s.
Proof. destruct r; intros H1 H2; [by apply H2|by apply H1]. Qed.

Lemma wp_ret {A} (a : A) (Q : result E A → S → Prop) s : Q (Ok a) s → wp (mret a) Q s.
Proof. done. Qed.

Lemma wp_throw {A} (e : E) (Q : result E A → S → Prop) s : Q (Err e) s → wp (mthrow e) Q s.
Proof. done. Qed.

Lemma wp_zoom {T A} (proj : S → T) upd (m : M T E A) Q s :
  wp m (λ r t, Q r (upd t s)) (proj s) → wp (zoom proj upd m) Q s.
Proof. unfold wp, zoom. by destruct (m (proj s)). Qed.

Lemma wp_map_err {E' A} (f : E' → E) (m : M S E' A) Q s :
  wp m (λ r s', Q (map_err f r) s') s → wp (map_err_m f m) Q s.
Proof. unfold wp, map_err_m. by destruct (m s). Qed.

Lemma wp_try {E' A} (m : M S E' A) (Q : result E (result E' A) → S → Prop) s :
  wp m (λ r s', Q (Ok r) s') s → wp (try m) Q s.
Proof. unfold wp, try. by destruct (m s). Qed.
End wp.

Ltac wp_step :=
  lazymatch goal with
  | |- wp (@mbind _ _ _ _ _ (@get _ _)) _ _ => apply wp_get; cbv beta
  | |- wp (@mbind _ _ _ _ _ (modify _)) _ _ => apply wp_modify; cbv beta
  | |- wp (@mbind _ _ _ _ _ (fail_if _ _)) _ _ => apply wp_fail_if; intros ?; cbv beta
  | |- wp (@mbind _ _ _ _ _ (ok_or _ _)) _ _ => apply wp_ok_or; [intros ?|intros ? ?]; cbv beta
  | |- wp (@mbind _ _ _ _ _ (lift _)) _ _ => apply wp_lift; intros ? ?; cbv beta
  | |- wp (@mbind _ _ _ _ _ (@mret _ _ _ _)) _ _ => apply wp_bind, wp_ret; cbv beta iota
  | |- wp (@mbind _ _ _ _ _ (match ?x with _ => _ end)) _ _ => apply wp_bind; destruct x eqn:?; cbv beta iota
  | |- wp (@mbind _ _ _ _ _ _) _ _ => apply wp_bind
  | |- wp (mret _) _ _ => apply wp_ret; cbv beta
  | |- wp (mthrow _) _ _ => apply wp_throw; cbv beta
  | |- wp (modify _) _ _ => unfold wp, modify; cbn [fst snd]
  | |- wp (zoom _ _ _) _ _ => apply wp_zoom
  | |- wp (map_err_m _ _) _ _ => apply wp_map_err
  | |- wp (try _) _ _ => apply wp_try
  | |- wp (match ?x with _ => _ end) _ _ => destruct x eqn:?
  end.

(** A loop preserves what every iteration preserves. *)
Lemma for_each_inv {S E A} (P : S → Prop) (l : list A) (body : A → M S E unit) s r s' :
  (∀ x s1 r1 s1', x ∈ l → body x s1 = (r1, s1') → P s1 → P s1') →
  for_each l body s = (r, s') → P s → P s'.
Proof.
  revert s. induction l as [|x l IH]; intros s Hb Hr Hs; simpl in Hr.
  { unfold mret, M_ret in Hr. by simplify_eq. }
  unfold mbind, M_bind in Hr. destruct (body x s) as [[[]|e] s1] eqn:Hx; simplify_eq.
  - apply (IH s1); [|done|]; [set_solver|]. eapply Hb; [|done|done]. set_solver.
  - eapply Hb; [|done|done]. set_solver.
Qed.

(** * Tactics

    [unmonad] exposes the control flow of a modelled method; [run H] also splits every
    branch of the run recorded in [H] and closes the impossible ones. *)

Ltac unmonad :=
  unfold fail_if, ok_or, get, gets, put, modify, lift, try, zoom, map_err_m, map_err,
    mret, mbind, mthrow, fmap, M_ret, M_bind, M_throw, result_ret, result_bind,
    result_throw, result_fmap, checked_add, checked_sub, is_some, is_ok in *; simpl in *.

Ltac boolsimpl :=
  repeat match goal with
  | H : (_ && _) = true |- _ => apply andb_true_iff in H as [??]
  | H : (_ || _) = false |- _ => apply orb_false_iff in H as [??]
  | H : (_ && _) = false |- _ => apply andb_false_iff in H as [?|?]
  | H : (_ || _) = true |- _ => apply orb_true_iff in H as [?|?]
  | H : negb _ = true |- _ => apply negb_true_iff in H
  | H : negb _ = false |- _ => apply negb_false_iff in H
  | H : bool_decide _ = true |- _ => apply bool_decide_eq_true in H
  | H : bool_decide _ = false |- _ => apply bool_decide_eq_false in H
  | H : (_ =? _)%Z = true |- _ => apply Z.eqb_eq in H
  | H : (_ =? _)%Z = false |- _ => apply Z.eqb_neq in H
  | H : (_ <=? _)%Z = true |- _ => apply Z.leb_le in H
  | H : (_ <=? _)%Z = false |- _ => apply Z.leb_gt in H
  | H : (_ <? _)%Z = true |- _ => apply Z.ltb_lt in H
  | H : (_ <? _)%Z = false |- _ => apply Z.ltb_ge in H
  end.

Ltac run H :=
  unmonad; repeat (first [case_match | progress simplify_eq/=]);
  repeat match goal with u : unit |- _ => destruct u end; try done; boolsimpl.

(** * Reachability *)

(** A property of the initial states that every step preserves holds in every reachable
    state (rule induction on the reflexive transitive closure). *)
Lemma rtc_invariant {St} (step : relation St) (P : St → Prop) s s' :
  (∀ x y, step x y → P x → P y) → rtc step s s' → P s → P s'.
Proof. intros Hstep Hrtc. induction Hrtc; eauto. Qed.
