(* ===== verification/Limits.v ===== *)
(** The limits of protocol version 1, gen/rust/src/protocol_limits.rs: lengths in bytes,
    counts and lifetimes in milliseconds. *)
From S2P Require Import Prelude.

Definition PROTOCOL_MAJOR_VERSION : Z := 1.
Definition MINIMUM_PROTOCOL_MINOR_VERSION : Z := 0.
Definition PAIRING_RENDEZVOUS_LIFETIME_MS : Z := 120000.
Definition MAX_SIGNALING_ENVELOPE_BYTES : Z := 262144.
Definition MAX_OPAQUE_SIGNALING_ENVELOPE_BYTES : Z := 262144.
Definition MAX_SIGNALING_SERVICE_FRAME_BYTES : Z := 263168.
Definition MAX_RELIABLE_INPUT_ENVELOPE_BYTES : Z := 16384.
Definition MAX_POINTER_FAST_ENVELOPE_BYTES : Z := 256.
Definition MAX_LOCAL_IPC_FRAME_BYTES : Z := 65536.
Definition MAX_PRIVILEGED_BRIDGE_FRAME_BYTES : Z := 262144.
Definition MAX_HOST_AUTHORIZATION_SNAPSHOT_BYTES : Z := 1048576.
Definition MAX_CONTROLLER_GRANTS : Z := 256.
Definition MAX_TRUSTED_HOSTS : Z := 256.
Definition MAX_TRUSTED_HOST_SNAPSHOT_BYTES : Z := 1048576.
Definition MAX_PAIRING_CIPHERTEXT_BYTES : Z := 65536.
Definition MAX_PRIVILEGED_ICE_SERVERS : Z := 8.
Definition MAX_PRIVILEGED_ICE_URLS_PER_SERVER : Z := 16.
Definition MAX_DEVICE_NAME_UTF8_BYTES : Z := 128.
Definition MAX_REQUEST_ID_UTF8_BYTES : Z := 64.
Definition MAX_MESSAGE_KEY_UTF8_BYTES : Z := 128.
Definition MAX_SIGNALING_ENDPOINT_UTF8_BYTES : Z := 2048.
Definition MAX_SDP_UTF8_BYTES : Z := 131072.
Definition MAX_ICE_CANDIDATE_UTF8_BYTES : Z := 4096.
Definition MAX_SDP_MID_UTF8_BYTES : Z := 64.
Definition MAX_TEXT_INPUT_UTF8_BYTES : Z := 4096.
Definition MAX_ERROR_DETAIL_UTF8_BYTES : Z := 256.
Definition DEVICE_ID_BYTES : Z := 32.
Definition PUBLIC_KEY_BYTES : Z := 32.
Definition RENDEZVOUS_ID_BYTES : Z := 16.
Definition SESSION_ID_BYTES : Z := 16.
Definition NONCE_OR_HASH_BYTES : Z := 32.
Definition SIGNATURE_BYTES : Z := 64.
Definition DESKTOP_PAIRING_CODE_BYTES : Z := 8.
Definition LOCAL_IPC_TOKEN_BYTES : Z := 32.
Definition AGENT_INSTANCE_ID_BYTES : Z := 16.
Definition PRIVILEGED_BRIDGE_INSTANCE_ID_BYTES : Z := 16.
Definition PRIVILEGED_BRIDGE_NONCE_BYTES : Z := 32.
Definition PRIVILEGED_BRIDGE_PROOF_BYTES : Z := 32.
Definition PRIVILEGED_LEASE_ID_BYTES : Z := 16.
Definition EXECUTABLE_SHA256_BYTES : Z := 32.
Definition PAIRING_SAS_WORD_COUNT : Z := 4.
