(* ===== verification/Messages.v ===== *)
(** The protocol messages of version 1, gen/rust/src/generated/roammand.v1.rs.

    A message is a Record with the fields of the Rust struct, prefixed by the message's name;
    a oneof is an Inductive; an open enumeration field is the [i32] of the wire, and the
    closed enumeration is an Inductive with its conversions ([ProtoEnum]).  Encoding and
    decoding of whole messages belong to the prost library and are operations of the class
    [Message]. *)
From S2P Require Import Prelude.

Local Open Scope Z_scope.

(** * The interfaces of the generated code *)

(** [Into<i32>] and [TryFrom<i32>] of an enumeration. *)
Class ProtoEnum (E : Type) := {
  to_i32 : E → Z;
  try_from : Z → option E;
  try_from_to_i32 e : try_from (to_i32 e) = Some e;
  to_i32_try_from z e : try_from z = Some e → to_i32 e = z
}.

(** [prost::Message]: the wire encoding of a message. *)
Class Message (A : Type) := {
  encode_to_vec : A → bytes;
  decode : bytes → option A
}.

(** What a decoder promises about the encoder's output. *)
Class MessageLaws (A : Type) `{Message A} : Prop := {
  decode_encode a : decode (encode_to_vec a) = Some a
}.

Lemma to_i32_inj `{ProtoEnum E} e1 e2 : to_i32 e1 = to_i32 e2 → e1 = e2.
Proof. intros He. apply (inj Some). by rewrite <- !try_from_to_i32, He. Qed.

Lemma try_from_iff `{ProtoEnum E} z e : try_from z = Some e ↔ z = to_i32 e.
Proof.
  split; [intros He; symmetry; by apply to_i32_try_from|intros ->; apply try_from_to_i32].
Qed.

(** The law of [try_from] by cases on the wire value. *)
Ltac enum_law f := intros z e; unfold f; repeat case_match; by intros; simplify_eq.

(** * Enumerations *)

Inductive DevicePlatform :=
| DevicePlatform_Unspecified
| DevicePlatform_Ios
| DevicePlatform_Android
| DevicePlatform_Windows
| DevicePlatform_Macos.
#[export] Instance DevicePlatform_eq_dec : EqDecision DevicePlatform.
Proof. solve_decision. Defined.

Definition DevicePlatform_to_i32 (e : DevicePlatform) : Z :=
  match e with
  | DevicePlatform_Unspecified => 0
  | DevicePlatform_Ios => 1
  | DevicePlatform_Android => 2
  | DevicePlatform_Windows => 3
  | DevicePlatform_Macos => 4
  end.

Definition DevicePlatform_try_from (z : Z) : option DevicePlatform :=
  match z with
  | 0 => Some DevicePlatform_Unspecified
  | 1 => Some DevicePlatform_Ios
  | 2 => Some DevicePlatform_Android
  | 3 => Some DevicePlatform_Windows
  | 4 => Some DevicePlatform_Macos
  | _ => None
  end.

#[export] Instance DevicePlatform_enum : ProtoEnum DevicePlatform :=
  {| to_i32 := DevicePlatform_to_i32; try_from := DevicePlatform_try_from;
     try_from_to_i32 := ltac:(by intros []);
     to_i32_try_from := ltac:(enum_law DevicePlatform_try_from) |}.

Inductive PublicKeyAlgorithm :=
| PublicKeyAlgorithm_Unspecified
| PublicKeyAlgorithm_Ed25519.
#[export] Instance PublicKeyAlgorithm_eq_dec : EqDecision PublicKeyAlgorithm.
Proof. solve_decision. Defined.

Definition PublicKeyAlgorithm_to_i32 (e : PublicKeyAlgorithm) : Z :=
  match e with
  | PublicKeyAlgorithm_Unspecified => 0
  | PublicKeyAlgorithm_Ed25519 => 1
  end.

Definition PublicKeyAlgorithm_try_from (z : Z) : option PublicKeyAlgorithm :=
  match z with
  | 0 => Some PublicKeyAlgorithm_Unspecified
  | 1 => Some PublicKeyAlgorithm_Ed25519
  | _ => None
  end.

#[export] Instance PublicKeyAlgorithm_enum : ProtoEnum PublicKeyAlgorithm :=
  {| to_i32 := PublicKeyAlgorithm_to_i32; try_from := PublicKeyAlgorithm_try_from;
     try_from_to_i32 := ltac:(by intros []);
     to_i32_try_from := ltac:(enum_law PublicKeyAlgorithm_try_from) |}.

Inductive SessionPermission :=
| SessionPermission_Unspecified
| SessionPermission_ViewScreen
| SessionPermission_ControlInput.
#[export] Instance SessionPermission_eq_dec : EqDecision SessionPermission.
Proof. solve_decision. Defined.

Definition SessionPermission_to_i32 (e : SessionPermission) : Z :=
  match e with
  | SessionPermission_Unspecified => 0
  | SessionPermission_ViewScreen => 1
  | SessionPermission_ControlInput => 2
  end.

Definition SessionPermission_try_from (z : Z) : option SessionPermission :=
  match z with
  | 0 => Some SessionPermission_Unspecified
  | 1 => Some SessionPermission_ViewScreen
  | 2 => Some SessionPermission_ControlInput
  | _ => None
  end.

#[export] Instance SessionPermission_enum : ProtoEnum SessionPermission :=
  {| to_i32 := SessionPermission_to_i32; try_from := SessionPermission_try_from;
     try_from_to_i32 := ltac:(by intros []);
     to_i32_try_from := ltac:(enum_law SessionPermission_try_from) |}.

Inductive GrantRevocationReason :=
| GrantRevocationReason_Unspecified
| GrantRevocationReason_UserRequested
| GrantRevocationReason_IdentityReset
| GrantRevocationReason_SecurityResponse.
#[export] Instance GrantRevocationReason_eq_dec : EqDecision GrantRevocationReason.
Proof. solve_decision. Defined.

Definition GrantRevocationReason_to_i32 (e : GrantRevocationReason) : Z :=
  match e with
  | GrantRevocationReason_Unspecified => 0
  | GrantRevocationReason_UserRequested => 1
  | GrantRevocationReason_IdentityReset => 2
  | GrantRevocationReason_SecurityResponse => 3
  end.

Definition GrantRevocationReason_try_from (z : Z) : option GrantRevocationReason :=
  match z with
  | 0 => Some GrantRevocationReason_Unspecified
  | 1 => Some GrantRevocationReason_UserRequested
  | 2 => Some GrantRevocationReason_IdentityReset
  | 3 => Some GrantRevocationReason_SecurityResponse
  | _ => None
  end.

#[export] Instance GrantRevocationReason_enum : ProtoEnum GrantRevocationReason :=
  {| to_i32 := GrantRevocationReason_to_i32; try_from := GrantRevocationReason_try_from;
     try_from_to_i32 := ltac:(by intros []);
     to_i32_try_from := ltac:(enum_law GrantRevocationReason_try_from) |}.

Inductive ErrorCode :=
| ErrorCode_Unspecified
| ErrorCode_PairingCodeExpired
| ErrorCode_PairingRateLimited
| ErrorCode_PairingRejected
| ErrorCode_DeviceOffline
| ErrorCode_DeviceBusy
| ErrorCode_AuthInvalid
| ErrorCode_AuthRevoked
| ErrorCode_SessionReplayed
| ErrorCode_IceFailed
| ErrorCode_TurnUnavailable
| ErrorCode_CodecNegotiationFailed
| ErrorCode_CapturePermissionRequired
| ErrorCode_InputPermissionRequired
| ErrorCode_CaptureFailed
| ErrorCode_InputInjectionFailed
| ErrorCode_AppMovedToBackground
| ErrorCode_InvalidRequest
| ErrorCode_ProtocolUnsupported
| ErrorCode_MessageTooLarge
| ErrorCode_ServerUnavailable
| ErrorCode_PrivilegedBridgeUnavailable
| ErrorCode_PrivilegedClientUntrusted
| ErrorCode_PrivilegedLeaseExpired
| ErrorCode_SecureAttentionUnavailable
| ErrorCode_LocalEmergencyStop.
#[export] Instance ErrorCode_eq_dec : EqDecision ErrorCode.
Proof. solve_decision. Defined.

Definition ErrorCode_to_i32 (e : ErrorCode) : Z :=
  match e with
  | ErrorCode_Unspecified => 0
  | ErrorCode_PairingCodeExpired => 1
  | ErrorCode_PairingRateLimited => 2
  | ErrorCode_PairingRejected => 3
  | ErrorCode_DeviceOffline => 4
  | ErrorCode_DeviceBusy => 5
  | ErrorCode_AuthInvalid => 6
  | ErrorCode_AuthRevoked => 7
  | ErrorCode_SessionReplayed => 8
  | ErrorCode_IceFailed => 9
  | ErrorCode_TurnUnavailable => 10
  | ErrorCode_CodecNegotiationFailed => 11
  | ErrorCode_CapturePermissionRequired => 12
  | ErrorCode_InputPermissionRequired => 13
  | ErrorCode_CaptureFailed => 14
  | ErrorCode_InputInjectionFailed => 15
  | ErrorCode_AppMovedToBackground => 16
  | ErrorCode_InvalidRequest => 17
  | ErrorCode_ProtocolUnsupported => 18
  | ErrorCode_MessageTooLarge => 19
  | ErrorCode_ServerUnavailable => 20
  | ErrorCode_PrivilegedBridgeUnavailable => 21
  | ErrorCode_PrivilegedClientUntrusted => 22
  | ErrorCode_PrivilegedLeaseExpired => 23
  | ErrorCode_SecureAttentionUnavailable => 24
  | ErrorCode_LocalEmergencyStop => 25
  end.

Definition ErrorCode_try_from (z : Z) : option ErrorCode :=
  match z with
  | 0 => Some ErrorCode_Unspecified
  | 1 => Some ErrorCode_PairingCodeExpired
  | 2 => Some ErrorCode_PairingRateLimited
  | 3 => Some ErrorCode_PairingRejected
  | 4 => Some ErrorCode_DeviceOffline
  | 5 => Some ErrorCode_DeviceBusy
  | 6 => Some ErrorCode_AuthInvalid
  | 7 => Some ErrorCode_AuthRevoked
  | 8 => Some ErrorCode_SessionReplayed
  | 9 => Some ErrorCode_IceFailed
  | 10 => Some ErrorCode_TurnUnavailable
  | 11 => Some ErrorCode_CodecNegotiationFailed
  | 12 => Some ErrorCode_CapturePermissionRequired
  | 13 => Some ErrorCode_InputPermissionRequired
  | 14 => Some ErrorCode_CaptureFailed
  | 15 => Some ErrorCode_InputInjectionFailed
  | 16 => Some ErrorCode_AppMovedToBackground
  | 17 => Some ErrorCode_InvalidRequest
  | 18 => Some ErrorCode_ProtocolUnsupported
  | 19 => Some ErrorCode_MessageTooLarge
  | 20 => Some ErrorCode_ServerUnavailable
  | 21 => Some ErrorCode_PrivilegedBridgeUnavailable
  | 22 => Some ErrorCode_PrivilegedClientUntrusted
  | 23 => Some ErrorCode_PrivilegedLeaseExpired
  | 24 => Some ErrorCode_SecureAttentionUnavailable
  | 25 => Some ErrorCode_LocalEmergencyStop
  | _ => None
  end.

#[export] Instance ErrorCode_enum : ProtoEnum ErrorCode :=
  {| to_i32 := ErrorCode_to_i32; try_from := ErrorCode_try_from;
     try_from_to_i32 := ltac:(by intros []);
     to_i32_try_from := ltac:(enum_law ErrorCode_try_from) |}.

Inductive Capability :=
| Capability_Unspecified
| Capability_QrPairing
| Capability_DesktopCodePairing
| Capability_PairingSas
| Capability_SessionAuthEd25519
| Capability_WebrtcH264
| Capability_WebrtcVp8
| Capability_IceRestart
| Capability_InputReliable
| Capability_PointerFast.
#[export] Instance Capability_eq_dec : EqDecision Capability.
Proof. solve_decision. Defined.

Definition Capability_to_i32 (e : Capability) : Z :=
  match e with
  | Capability_Unspecified => 0
  | Capability_QrPairing => 1
  | Capability_DesktopCodePairing => 2
  | Capability_PairingSas => 3
  | Capability_SessionAuthEd25519 => 4
  | Capability_WebrtcH264 => 5
  | Capability_WebrtcVp8 => 6
  | Capability_IceRestart => 7
  | Capability_InputReliable => 8
  | Capability_PointerFast => 9
  end.

Definition Capability_try_from (z : Z) : option Capability :=
  match z with
  | 0 => Some Capability_Unspecified
  | 1 => Some Capability_QrPairing
  | 2 => Some Capability_DesktopCodePairing
  | 3 => Some Capability_PairingSas
  | 4 => Some Capability_SessionAuthEd25519
  | 5 => Some Capability_WebrtcH264
  | 6 => Some Capability_WebrtcVp8
  | 7 => Some Capability_IceRestart
  | 8 => Some Capability_InputReliable
  | 9 => Some Capability_PointerFast
  | _ => None
  end.

#[export] Instance Capability_enum : ProtoEnum Capability :=
  {| to_i32 := Capability_to_i32; try_from := Capability_try_from;
     try_from_to_i32 := ltac:(by intros []);
     to_i32_try_from := ltac:(enum_law Capability_try_from) |}.

Inductive PointerButton :=
| PointerButton_Unspecified
| PointerButton_Left
| PointerButton_Right
| PointerButton_Middle.
#[export] Instance PointerButton_eq_dec : EqDecision PointerButton.
Proof. solve_decision. Defined.

Definition PointerButton_to_i32 (e : PointerButton) : Z :=
  match e with
  | PointerButton_Unspecified => 0
  | PointerButton_Left => 1
  | PointerButton_Right => 2
  | PointerButton_Middle => 3
  end.

Definition PointerButton_try_from (z : Z) : option PointerButton :=
  match z with
  | 0 => Some PointerButton_Unspecified
  | 1 => Some PointerButton_Left
  | 2 => Some PointerButton_Right
  | 3 => Some PointerButton_Middle
  | _ => None
  end.

#[export] Instance PointerButton_enum : ProtoEnum PointerButton :=
  {| to_i32 := PointerButton_to_i32; try_from := PointerButton_try_from;
     try_from_to_i32 := ltac:(by intros []);
     to_i32_try_from := ltac:(enum_law PointerButton_try_from) |}.

Inductive ButtonAction :=
| ButtonAction_Unspecified
| ButtonAction_Down
| ButtonAction_Up
| ButtonAction_Click
| ButtonAction_DoubleClick.
#[export] Instance ButtonAction_eq_dec : EqDecision ButtonAction.
Proof. solve_decision. Defined.

Definition ButtonAction_to_i32 (e : ButtonAction) : Z :=
  match e with
  | ButtonAction_Unspecified => 0
  | ButtonAction_Down => 1
  | ButtonAction_Up => 2
  | ButtonAction_Click => 3
  | ButtonAction_DoubleClick => 4
  end.

Definition ButtonAction_try_from (z : Z) : option ButtonAction :=
  match z with
  | 0 => Some ButtonAction_Unspecified
  | 1 => Some ButtonAction_Down
  | 2 => Some ButtonAction_Up
  | 3 => Some ButtonAction_Click
  | 4 => Some ButtonAction_DoubleClick
  | _ => None
  end.

#[export] Instance ButtonAction_enum : ProtoEnum ButtonAction :=
  {| to_i32 := ButtonAction_to_i32; try_from := ButtonAction_try_from;
     try_from_to_i32 := ltac:(by intros []);
     to_i32_try_from := ltac:(enum_law ButtonAction_try_from) |}.

Inductive KeyboardAction :=
| KeyboardAction_Unspecified
| KeyboardAction_Down
| KeyboardAction_Up.
#[export] Instance KeyboardAction_eq_dec : EqDecision KeyboardAction.
Proof. solve_decision. Defined.

Definition KeyboardAction_to_i32 (e : KeyboardAction) : Z :=
  match e with
  | KeyboardAction_Unspecified => 0
  | KeyboardAction_Down => 1
  | KeyboardAction_Up => 2
  end.

Definition KeyboardAction_try_from (z : Z) : option KeyboardAction :=
  match z with
  | 0 => Some KeyboardAction_Unspecified
  | 1 => Some KeyboardAction_Down
  | 2 => Some KeyboardAction_Up
  | _ => None
  end.

#[export] Instance KeyboardAction_enum : ProtoEnum KeyboardAction :=
  {| to_i32 := KeyboardAction_to_i32; try_from := KeyboardAction_try_from;
     try_from_to_i32 := ltac:(by intros []);
     to_i32_try_from := ltac:(enum_law KeyboardAction_try_from) |}.

Inductive SessionControlAction :=
| SessionControlAction_Unspecified
| SessionControlAction_Close
| SessionControlAction_EmergencyStop.
#[export] Instance SessionControlAction_eq_dec : EqDecision SessionControlAction.
Proof. solve_decision. Defined.

Definition SessionControlAction_to_i32 (e : SessionControlAction) : Z :=
  match e with
  | SessionControlAction_Unspecified => 0
  | SessionControlAction_Close => 1
  | SessionControlAction_EmergencyStop => 2
  end.

Definition SessionControlAction_try_from (z : Z) : option SessionControlAction :=
  match z with
  | 0 => Some SessionControlAction_Unspecified
  | 1 => Some SessionControlAction_Close
  | 2 => Some SessionControlAction_EmergencyStop
  | _ => None
  end.

#[export] Instance SessionControlAction_enum : ProtoEnum SessionControlAction :=
  {| to_i32 := SessionControlAction_to_i32; try_from := SessionControlAction_try_from;
     try_from_to_i32 := ltac:(by intros []);
     to_i32_try_from := ltac:(enum_law SessionControlAction_try_from) |}.

Inductive PairingDecisionStatus :=
| PairingDecisionStatus_Unspecified
| PairingDecisionStatus_Pending
| PairingDecisionStatus_Accepted
| PairingDecisionStatus_Rejected
| PairingDecisionStatus_Expired.
#[export] Instance PairingDecisionStatus_eq_dec : EqDecision PairingDecisionStatus.
Proof. solve_decision. Defined.

Definition PairingDecisionStatus_to_i32 (e : PairingDecisionStatus) : Z :=
  match e with
  | PairingDecisionStatus_Unspecified => 0
  | PairingDecisionStatus_Pending => 1
  | PairingDecisionStatus_Accepted => 2
  | PairingDecisionStatus_Rejected => 3
  | PairingDecisionStatus_Expired => 4
  end.

Definition PairingDecisionStatus_try_from (z : Z) : option PairingDecisionStatus :=
  match z with
  | 0 => Some PairingDecisionStatus_Unspecified
  | 1 => Some PairingDecisionStatus_Pending
  | 2 => Some PairingDecisionStatus_Accepted
  | 3 => Some PairingDecisionStatus_Rejected
  | 4 => Some PairingDecisionStatus_Expired
  | _ => None
  end.

#[export] Instance PairingDecisionStatus_enum : ProtoEnum PairingDecisionStatus :=
  {| to_i32 := PairingDecisionStatus_to_i32; try_from := PairingDecisionStatus_try_from;
     try_from_to_i32 := ltac:(by intros []);
     to_i32_try_from := ltac:(enum_law PairingDecisionStatus_try_from) |}.

Inductive PairingDirection :=
| PairingDirection_Unspecified
| PairingDirection_ControllerToHost
| PairingDirection_HostToController.
#[export] Instance PairingDirection_eq_dec : EqDecision PairingDirection.
Proof. solve_decision. Defined.

Definition PairingDirection_to_i32 (e : PairingDirection) : Z :=
  match e with
  | PairingDirection_Unspecified => 0
  | PairingDirection_ControllerToHost => 1
  | PairingDirection_HostToController => 2
  end.

Definition PairingDirection_try_from (z : Z) : option PairingDirection :=
  match z with
  | 0 => Some PairingDirection_Unspecified
  | 1 => Some PairingDirection_ControllerToHost
  | 2 => Some PairingDirection_HostToController
  | _ => None
  end.

#[export] Instance PairingDirection_enum : ProtoEnum PairingDirection :=
  {| to_i32 := PairingDirection_to_i32; try_from := PairingDirection_try_from;
     try_from_to_i32 := ltac:(by intros []);
     to_i32_try_from := ltac:(enum_law PairingDirection_try_from) |}.

Inductive PairingIdentityRole :=
| PairingIdentityRole_Unspecified
| PairingIdentityRole_Controller
| PairingIdentityRole_Host.
#[export] Instance PairingIdentityRole_eq_dec : EqDecision PairingIdentityRole.
Proof. solve_decision. Defined.

Definition PairingIdentityRole_to_i32 (e : PairingIdentityRole) : Z :=
  match e with
  | PairingIdentityRole_Unspecified => 0
  | PairingIdentityRole_Controller => 1
  | PairingIdentityRole_Host => 2
  end.

Definition PairingIdentityRole_try_from (z : Z) : option PairingIdentityRole :=
  match z with
  | 0 => Some PairingIdentityRole_Unspecified
  | 1 => Some PairingIdentityRole_Controller
  | 2 => Some PairingIdentityRole_Host
  | _ => None
  end.

#[export] Instance PairingIdentityRole_enum : ProtoEnum PairingIdentityRole :=
  {| to_i32 := PairingIdentityRole_to_i32; try_from := PairingIdentityRole_try_from;
     try_from_to_i32 := ltac:(by intros []);
     to_i32_try_from := ltac:(enum_law PairingIdentityRole_try_from) |}.

Inductive PairingInvitationKind :=
| PairingInvitationKind_Unspecified
| PairingInvitationKind_Qr
| PairingInvitationKind_DesktopCode.
#[export] Instance PairingInvitationKind_eq_dec : EqDecision PairingInvitationKind.
Proof. solve_decision. Defined.

Definition PairingInvitationKind_to_i32 (e : PairingInvitationKind) : Z :=
  match e with
  | PairingInvitationKind_Unspecified => 0
  | PairingInvitationKind_Qr => 1
  | PairingInvitationKind_DesktopCode => 2
  end.

Definition PairingInvitationKind_try_from (z : Z) : option PairingInvitationKind :=
  match z with
  | 0 => Some PairingInvitationKind_Unspecified
  | 1 => Some PairingInvitationKind_Qr
  | 2 => Some PairingInvitationKind_DesktopCode
  | _ => None
  end.

#[export] Instance PairingInvitationKind_enum : ProtoEnum PairingInvitationKind :=
  {| to_i32 := PairingInvitationKind_to_i32; try_from := PairingInvitationKind_try_from;
     try_from_to_i32 := ltac:(by intros []);
     to_i32_try_from := ltac:(enum_law PairingInvitationKind_try_from) |}.

Inductive HostPairingState :=
| HostPairingState_Unspecified
| HostPairingState_Idle
| HostPairingState_Creating
| HostPairingState_Inviting
| HostPairingState_VerifyingController
| HostPairingState_WaitingLocalDecision
| HostPairingState_Accepted
| HostPairingState_Rejected
| HostPairingState_Expired
| HostPairingState_Cancelled
| HostPairingState_Failed.
#[export] Instance HostPairingState_eq_dec : EqDecision HostPairingState.
Proof. solve_decision. Defined.

Definition HostPairingState_to_i32 (e : HostPairingState) : Z :=
  match e with
  | HostPairingState_Unspecified => 0
  | HostPairingState_Idle => 1
  | HostPairingState_Creating => 2
  | HostPairingState_Inviting => 3
  | HostPairingState_VerifyingController => 4
  | HostPairingState_WaitingLocalDecision => 5
  | HostPairingState_Accepted => 6
  | HostPairingState_Rejected => 7
  | HostPairingState_Expired => 8
  | HostPairingState_Cancelled => 9
  | HostPairingState_Failed => 10
  end.

Definition HostPairingState_try_from (z : Z) : option HostPairingState :=
  match z with
  | 0 => Some HostPairingState_Unspecified
  | 1 => Some HostPairingState_Idle
  | 2 => Some HostPairingState_Creating
  | 3 => Some HostPairingState_Inviting
  | 4 => Some HostPairingState_VerifyingController
  | 5 => Some HostPairingState_WaitingLocalDecision
  | 6 => Some HostPairingState_Accepted
  | 7 => Some HostPairingState_Rejected
  | 8 => Some HostPairingState_Expired
  | 9 => Some HostPairingState_Cancelled
  | 10 => Some HostPairingState_Failed
  | _ => None
  end.

#[export] Instance HostPairingState_enum : ProtoEnum HostPairingState :=
  {| to_i32 := HostPairingState_to_i32; try_from := HostPairingState_try_from;
     try_from_to_i32 := ltac:(by intros []);
     to_i32_try_from := ltac:(enum_law HostPairingState_try_from) |}.

Inductive SessionDescriptionType :=
| SessionDescriptionType_Unspecified
| SessionDescriptionType_Offer
| SessionDescriptionType_Answer.
#[export] Instance SessionDescriptionType_eq_dec : EqDecision SessionDescriptionType.
Proof. solve_decision. Defined.

Definition SessionDescriptionType_to_i32 (e : SessionDescriptionType) : Z :=
  match e with
  | SessionDescriptionType_Unspecified => 0
  | SessionDescriptionType_Offer => 1
  | SessionDescriptionType_Answer => 2
  end.

Definition SessionDescriptionType_try_from (z : Z) : option SessionDescriptionType :=
  match z with
  | 0 => Some SessionDescriptionType_Unspecified
  | 1 => Some SessionDescriptionType_Offer
  | 2 => Some SessionDescriptionType_Answer
  | _ => None
  end.

#[export] Instance SessionDescriptionType_enum : ProtoEnum SessionDescriptionType :=
  {| to_i32 := SessionDescriptionType_to_i32; try_from := SessionDescriptionType_try_from;
     try_from_to_i32 := ltac:(by intros []);
     to_i32_try_from := ltac:(enum_law SessionDescriptionType_try_from) |}.

Inductive PrivilegedBridgeState :=
| PrivilegedBridgeState_Unspecified
| PrivilegedBridgeState_NotInstalled
| PrivilegedBridgeState_ApprovalRequired
| PrivilegedBridgeState_PermissionRequired
| PrivilegedBridgeState_UserSessionOnly
| PrivilegedBridgeState_Ready
| PrivilegedBridgeState_Transitioning
| PrivilegedBridgeState_Controlled
| PrivilegedBridgeState_Failed.
#[export] Instance PrivilegedBridgeState_eq_dec : EqDecision PrivilegedBridgeState.
Proof. solve_decision. Defined.

Definition PrivilegedBridgeState_to_i32 (e : PrivilegedBridgeState) : Z :=
  match e with
  | PrivilegedBridgeState_Unspecified => 0
  | PrivilegedBridgeState_NotInstalled => 1
  | PrivilegedBridgeState_ApprovalRequired => 2
  | PrivilegedBridgeState_PermissionRequired => 3
  | PrivilegedBridgeState_UserSessionOnly => 4
  | PrivilegedBridgeState_Ready => 5
  | PrivilegedBridgeState_Transitioning => 6
  | PrivilegedBridgeState_Controlled => 7
  | PrivilegedBridgeState_Failed => 8
  end.

Definition PrivilegedBridgeState_try_from (z : Z) : option PrivilegedBridgeState :=
  match z with
  | 0 => Some PrivilegedBridgeState_Unspecified
  | 1 => Some PrivilegedBridgeState_NotInstalled
  | 2 => Some PrivilegedBridgeState_ApprovalRequired
  | 3 => Some PrivilegedBridgeState_PermissionRequired
  | 4 => Some PrivilegedBridgeState_UserSessionOnly
  | 5 => Some PrivilegedBridgeState_Ready
  | 6 => Some PrivilegedBridgeState_Transitioning
  | 7 => Some PrivilegedBridgeState_Controlled
  | 8 => Some PrivilegedBridgeState_Failed
  | _ => None
  end.

#[export] Instance PrivilegedBridgeState_enum : ProtoEnum PrivilegedBridgeState :=
  {| to_i32 := PrivilegedBridgeState_to_i32; try_from := PrivilegedBridgeState_try_from;
     try_from_to_i32 := ltac:(by intros []);
     to_i32_try_from := ltac:(enum_law PrivilegedBridgeState_try_from) |}.

Inductive InteractiveDesktopKind :=
| InteractiveDesktopKind_Unspecified
| InteractiveDesktopKind_Normal
| InteractiveDesktopKind_LockedLogin
| InteractiveDesktopKind_Secure
| InteractiveDesktopKind_Unavailable.
#[export] Instance InteractiveDesktopKind_eq_dec : EqDecision InteractiveDesktopKind.
Proof. solve_decision. Defined.

Definition InteractiveDesktopKind_to_i32 (e : InteractiveDesktopKind) : Z :=
  match e with
  | InteractiveDesktopKind_Unspecified => 0
  | InteractiveDesktopKind_Normal => 1
  | InteractiveDesktopKind_LockedLogin => 2
  | InteractiveDesktopKind_Secure => 3
  | InteractiveDesktopKind_Unavailable => 4
  end.

Definition InteractiveDesktopKind_try_from (z : Z) : option InteractiveDesktopKind :=
  match z with
  | 0 => Some InteractiveDesktopKind_Unspecified
  | 1 => Some InteractiveDesktopKind_Normal
  | 2 => Some InteractiveDesktopKind_LockedLogin
  | 3 => Some InteractiveDesktopKind_Secure
  | 4 => Some InteractiveDesktopKind_Unavailable
  | _ => None
  end.

#[export] Instance InteractiveDesktopKind_enum : ProtoEnum InteractiveDesktopKind :=
  {| to_i32 := InteractiveDesktopKind_to_i32; try_from := InteractiveDesktopKind_try_from;
     try_from_to_i32 := ltac:(by intros []);
     to_i32_try_from := ltac:(enum_law InteractiveDesktopKind_try_from) |}.

Inductive PrivilegedBridgeRole :=
| PrivilegedBridgeRole_Unspecified
| PrivilegedBridgeRole_HostAgent
| PrivilegedBridgeRole_SessionHelper.
#[export] Instance PrivilegedBridgeRole_eq_dec : EqDecision PrivilegedBridgeRole.
Proof. solve_decision. Defined.

Definition PrivilegedBridgeRole_to_i32 (e : PrivilegedBridgeRole) : Z :=
  match e with
  | PrivilegedBridgeRole_Unspecified => 0
  | PrivilegedBridgeRole_HostAgent => 1
  | PrivilegedBridgeRole_SessionHelper => 2
  end.

Definition PrivilegedBridgeRole_try_from (z : Z) : option PrivilegedBridgeRole :=
  match z with
  | 0 => Some PrivilegedBridgeRole_Unspecified
  | 1 => Some PrivilegedBridgeRole_HostAgent
  | 2 => Some PrivilegedBridgeRole_SessionHelper
  | _ => None
  end.

#[export] Instance PrivilegedBridgeRole_enum : ProtoEnum PrivilegedBridgeRole :=
  {| to_i32 := PrivilegedBridgeRole_to_i32; try_from := PrivilegedBridgeRole_try_from;
     try_from_to_i32 := ltac:(by intros []);
     to_i32_try_from := ltac:(enum_law PrivilegedBridgeRole_try_from) |}.

Inductive PrivilegedIceTransportPolicy :=
| PrivilegedIceTransportPolicy_Unspecified
| PrivilegedIceTransportPolicy_All
| PrivilegedIceTransportPolicy_Relay.
#[export] Instance PrivilegedIceTransportPolicy_eq_dec : EqDecision PrivilegedIceTransportPolicy.
Proof. solve_decision. Defined.

Definition PrivilegedIceTransportPolicy_to_i32 (e : PrivilegedIceTransportPolicy) : Z :=
  match e with
  | PrivilegedIceTransportPolicy_Unspecified => 0
  | PrivilegedIceTransportPolicy_All => 1
  | PrivilegedIceTransportPolicy_Relay => 2
  end.

Definition PrivilegedIceTransportPolicy_try_from (z : Z) : option PrivilegedIceTransportPolicy :=
  match z with
  | 0 => Some PrivilegedIceTransportPolicy_Unspecified
  | 1 => Some PrivilegedIceTransportPolicy_All
  | 2 => Some PrivilegedIceTransportPolicy_Relay
  | _ => None
  end.

#[export] Instance PrivilegedIceTransportPolicy_enum : ProtoEnum PrivilegedIceTransportPolicy :=
  {| to_i32 := PrivilegedIceTransportPolicy_to_i32; try_from := PrivilegedIceTransportPolicy_try_from;
     try_from_to_i32 := ltac:(by intros []);
     to_i32_try_from := ltac:(enum_law PrivilegedIceTransportPolicy_try_from) |}.

Inductive PrivilegedPeerState :=
| PrivilegedPeerState_Unspecified
| PrivilegedPeerState_New
| PrivilegedPeerState_Negotiating
| PrivilegedPeerState_Connected
| PrivilegedPeerState_Disconnected
| PrivilegedPeerState_Failed
| PrivilegedPeerState_Closed.
#[export] Instance PrivilegedPeerState_eq_dec : EqDecision PrivilegedPeerState.
Proof. solve_decision. Defined.

Definition PrivilegedPeerState_to_i32 (e : PrivilegedPeerState) : Z :=
  match e with
  | PrivilegedPeerState_Unspecified => 0
  | PrivilegedPeerState_New => 1
  | PrivilegedPeerState_Negotiating => 2
  | PrivilegedPeerState_Connected => 3
  | PrivilegedPeerState_Disconnected => 4
  | PrivilegedPeerState_Failed => 5
  | PrivilegedPeerState_Closed => 6
  end.

Definition PrivilegedPeerState_try_from (z : Z) : option PrivilegedPeerState :=
  match z with
  | 0 => Some PrivilegedPeerState_Unspecified
  | 1 => Some PrivilegedPeerState_New
  | 2 => Some PrivilegedPeerState_Negotiating
  | 3 => Some PrivilegedPeerState_Connected
  | 4 => Some PrivilegedPeerState_Disconnected
  | 5 => Some PrivilegedPeerState_Failed
  | 6 => Some PrivilegedPeerState_Closed
  | _ => None
  end.

#[export] Instance PrivilegedPeerState_enum : ProtoEnum PrivilegedPeerState :=
  {| to_i32 := PrivilegedPeerState_to_i32; try_from := PrivilegedPeerState_try_from;
     try_from_to_i32 := ltac:(by intros []);
     to_i32_try_from := ltac:(enum_law PrivilegedPeerState_try_from) |}.

Inductive SessionState :=
| SessionState_Unspecified
| SessionState_Idle
| SessionState_Signaling
| SessionState_Authenticating
| SessionState_Connecting
| SessionState_Connected
| SessionState_Reconnecting
| SessionState_Failed
| SessionState_Closing.
#[export] Instance SessionState_eq_dec : EqDecision SessionState.
Proof. solve_decision. Defined.

Definition SessionState_to_i32 (e : SessionState) : Z :=
  match e with
  | SessionState_Unspecified => 0
  | SessionState_Idle => 1
  | SessionState_Signaling => 2
  | SessionState_Authenticating => 3
  | SessionState_Connecting => 4
  | SessionState_Connected => 5
  | SessionState_Reconnecting => 6
  | SessionState_Failed => 7
  | SessionState_Closing => 8
  end.

Definition SessionState_try_from (z : Z) : option SessionState :=
  match z with
  | 0 => Some SessionState_Unspecified
  | 1 => Some SessionState_Idle
  | 2 => Some SessionState_Signaling
  | 3 => Some SessionState_Authenticating
  | 4 => Some SessionState_Connecting
  | 5 => Some SessionState_Connected
  | 6 => Some SessionState_Reconnecting
  | 7 => Some SessionState_Failed
  | 8 => Some SessionState_Closing
  | _ => None
  end.

#[export] Instance SessionState_enum : ProtoEnum SessionState :=
  {| to_i32 := SessionState_to_i32; try_from := SessionState_try_from;
     try_from_to_i32 := ltac:(by intros []);
     to_i32_try_from := ltac:(enum_law SessionState_try_from) |}.

Inductive PairingRendezvousKind :=
| PairingRendezvousKind_Unspecified
| PairingRendezvousKind_Qr
| PairingRendezvousKind_DesktopCode.
#[export] Instance PairingRendezvousKind_eq_dec : EqDecision PairingRendezvousKind.
Proof. solve_decision. Defined.

Definition PairingRendezvousKind_to_i32 (e : PairingRendezvousKind) : Z :=
  match e with
  | PairingRendezvousKind_Unspecified => 0
  | PairingRendezvousKind_Qr => 1
  | PairingRendezvousKind_DesktopCode => 2
  end.

Definition PairingRendezvousKind_try_from (z : Z) : option PairingRendezvousKind :=
  match z with
  | 0 => Some PairingRendezvousKind_Unspecified
  | 1 => Some PairingRendezvousKind_Qr
  | 2 => Some PairingRendezvousKind_DesktopCode
  | _ => None
  end.

#[export] Instance PairingRendezvousKind_enum : ProtoEnum PairingRendezvousKind :=
  {| to_i32 := PairingRendezvousKind_to_i32; try_from := PairingRendezvousKind_try_from;
     try_from_to_i32 := ltac:(by intros []);
     to_i32_try_from := ltac:(enum_law PairingRendezvousKind_try_from) |}.

Inductive PairingRendezvousCompletion :=
| PairingRendezvousCompletion_Unspecified
| PairingRendezvousCompletion_Succeeded
| PairingRendezvousCompletion_Rejected
| PairingRendezvousCompletion_Expired
| PairingRendezvousCompletion_Disconnected.
#[export] Instance PairingRendezvousCompletion_eq_dec : EqDecision PairingRendezvousCompletion.
Proof. solve_decision. Defined.

Definition PairingRendezvousCompletion_to_i32 (e : PairingRendezvousCompletion) : Z :=
  match e with
  | PairingRendezvousCompletion_Unspecified => 0
  | PairingRendezvousCompletion_Succeeded => 1
  | PairingRendezvousCompletion_Rejected => 2
  | PairingRendezvousCompletion_Expired => 3
  | PairingRendezvousCompletion_Disconnected => 4
  end.

Definition PairingRendezvousCompletion_try_from (z : Z) : option PairingRendezvousCompletion :=
  match z with
  | 0 => Some PairingRendezvousCompletion_Unspecified
  | 1 => Some PairingRendezvousCompletion_Succeeded
  | 2 => Some PairingRendezvousCompletion_Rejected
  | 3 => Some PairingRendezvousCompletion_Expired
  | 4 => Some PairingRendezvousCompletion_Disconnected
  | _ => None
  end.

#[export] Instance PairingRendezvousCompletion_enum : ProtoEnum PairingRendezvousCompletion :=
  {| to_i32 := PairingRendezvousCompletion_to_i32; try_from := PairingRendezvousCompletion_try_from;
     try_from_to_i32 := ltac:(by intros []);
     to_i32_try_from := ltac:(enum_law PairingRendezvousCompletion_try_from) |}.

(** * Messages *)

Record DeviceIdentity := {
  DeviceIdentity_device_id : bytes;
  DeviceIdentity_public_key_algorithm : Z;
  DeviceIdentity_public_key : bytes;
  DeviceIdentity_display_name : text;
  DeviceIdentity_platform : Z
}.
#[export] Instance DeviceIdentity_eq_dec : EqDecision DeviceIdentity.
Proof. solve_decision. Defined.

Record SessionOfferAuthentication := {
  SessionOfferAuthentication_controller_device_id : bytes;
  SessionOfferAuthentication_host_device_id : bytes;
  SessionOfferAuthentication_session_id : bytes;
  SessionOfferAuthentication_nonce : bytes;
  SessionOfferAuthentication_issued_at_unix_ms : Z;
  SessionOfferAuthentication_expires_at_unix_ms : Z;
  SessionOfferAuthentication_requested_permissions : list Z;
  SessionOfferAuthentication_offer_sha256 : bytes;
  SessionOfferAuthentication_controller_dtls_fingerprint_sha256 : bytes;
  SessionOfferAuthentication_signature : bytes
}.
#[export] Instance SessionOfferAuthentication_eq_dec : EqDecision SessionOfferAuthentication.
Proof. solve_decision. Defined.

Record SessionAnswerAuthentication := {
  SessionAnswerAuthentication_controller_device_id : bytes;
  SessionAnswerAuthentication_host_device_id : bytes;
  SessionAnswerAuthentication_session_id : bytes;
  SessionAnswerAuthentication_nonce : bytes;
  SessionAnswerAuthentication_issued_at_unix_ms : Z;
  SessionAnswerAuthentication_expires_at_unix_ms : Z;
  SessionAnswerAuthentication_requested_permissions : list Z;
  SessionAnswerAuthentication_offer_sha256 : bytes;
  SessionAnswerAuthentication_controller_dtls_fingerprint_sha256 : bytes;
  SessionAnswerAuthentication_answer_sha256 : bytes;
  SessionAnswerAuthentication_host_dtls_fingerprint_sha256 : bytes;
  SessionAnswerAuthentication_signature : bytes
}.
#[export] Instance SessionAnswerAuthentication_eq_dec : EqDecision SessionAnswerAuthentication.
Proof. solve_decision. Defined.

Record SessionReconnectAuthentication := {
  SessionReconnectAuthentication_controller_device_id : bytes;
  SessionReconnectAuthentication_host_device_id : bytes;
  SessionReconnectAuthentication_session_id : bytes;
  SessionReconnectAuthentication_nonce : bytes;
  SessionReconnectAuthentication_issued_at_unix_ms : Z;
  SessionReconnectAuthentication_expires_at_unix_ms : Z;
  SessionReconnectAuthentication_requested_permissions : list Z;
  SessionReconnectAuthentication_offer_sha256 : bytes;
  SessionReconnectAuthentication_controller_dtls_fingerprint_sha256 : bytes;
  SessionReconnectAuthentication_answer_sha256 : bytes;
  SessionReconnectAuthentication_host_dtls_fingerprint_sha256 : bytes;
  SessionReconnectAuthentication_reconnect_generation : Z;
  SessionReconnectAuthentication_signature : bytes
}.
#[export] Instance SessionReconnectAuthentication_eq_dec : EqDecision SessionReconnectAuthentication.
Proof. solve_decision. Defined.

Inductive SessionAuthentication_Payload :=
| SessionAuthentication_Payload_Offer (value : SessionOfferAuthentication)
| SessionAuthentication_Payload_Answer (value : SessionAnswerAuthentication)
| SessionAuthentication_Payload_Reconnect (value : SessionReconnectAuthentication).
#[export] Instance SessionAuthentication_Payload_eq_dec : EqDecision SessionAuthentication_Payload.
Proof. solve_decision. Defined.

Record SessionAuthentication := {
  SessionAuthentication_payload : option SessionAuthentication_Payload
}.
#[export] Instance SessionAuthentication_eq_dec : EqDecision SessionAuthentication.
Proof. solve_decision. Defined.

Record ControllerGrant := {
  ControllerGrant_grant_id : bytes;
  ControllerGrant_host_device_id : bytes;
  ControllerGrant_controller : option DeviceIdentity;
  ControllerGrant_created_at_unix_ms : Z;
  ControllerGrant_permissions : list Z
}.
#[export] Instance ControllerGrant_eq_dec : EqDecision ControllerGrant.
Proof. solve_decision. Defined.

Record GrantRevocation := {
  GrantRevocation_grant_id : bytes;
  GrantRevocation_revoked_at_unix_ms : Z;
  GrantRevocation_reason : Z
}.
#[export] Instance GrantRevocation_eq_dec : EqDecision GrantRevocation.
Proof. solve_decision. Defined.

Record RetryAfterDetails := {
  RetryAfterDetails_retry_after_ms : Z
}.
#[export] Instance RetryAfterDetails_eq_dec : EqDecision RetryAfterDetails.
Proof. solve_decision. Defined.

Record PermissionDetails := {
  PermissionDetails_permission : text
}.
#[export] Instance PermissionDetails_eq_dec : EqDecision PermissionDetails.
Proof. solve_decision. Defined.

Record CodecDetails := {
  CodecDetails_supported_codecs : list text
}.
#[export] Instance CodecDetails_eq_dec : EqDecision CodecDetails.
Proof. solve_decision. Defined.

Record TransportDetails := {
  TransportDetails_transport : text
}.
#[export] Instance TransportDetails_eq_dec : EqDecision TransportDetails.
Proof. solve_decision. Defined.

Inductive UnifiedError_Details :=
| UnifiedError_Details_RetryAfter (value : RetryAfterDetails)
| UnifiedError_Details_Permission (value : PermissionDetails)
| UnifiedError_Details_Codec (value : CodecDetails)
| UnifiedError_Details_Transport (value : TransportDetails).
#[export] Instance UnifiedError_Details_eq_dec : EqDecision UnifiedError_Details.
Proof. solve_decision. Defined.

Record UnifiedError := {
  UnifiedError_code : Z;
  UnifiedError_message_key : text;
  UnifiedError_retryable : bool;
  UnifiedError_request_id : text;
  UnifiedError_details : option UnifiedError_Details
}.
#[export] Instance UnifiedError_eq_dec : EqDecision UnifiedError.
Proof. solve_decision. Defined.

Record ProtocolVersion := {
  ProtocolVersion_major : Z;
  ProtocolVersion_minor : Z
}.
#[export] Instance ProtocolVersion_eq_dec : EqDecision ProtocolVersion.
Proof. solve_decision. Defined.

Record CapabilityNegotiation := {
  CapabilityNegotiation_protocol_version : option ProtocolVersion;
  CapabilityNegotiation_required_capabilities : list Z;
  CapabilityNegotiation_optional_capabilities : list Z
}.
#[export] Instance CapabilityNegotiation_eq_dec : EqDecision CapabilityNegotiation.
Proof. solve_decision. Defined.

Record PointerButtonEvent := {
  PointerButtonEvent_button : Z;
  PointerButtonEvent_action : Z;
  PointerButtonEvent_x : Z;
  PointerButtonEvent_y : Z
}.
#[export] Instance PointerButtonEvent_eq_dec : EqDecision PointerButtonEvent.
Proof. solve_decision. Defined.

Record KeyboardEvent := {
  KeyboardEvent_action : Z;
  KeyboardEvent_usb_hid_usage : Z;
  KeyboardEvent_modifier_bits : Z
}.
#[export] Instance KeyboardEvent_eq_dec : EqDecision KeyboardEvent.
Proof. solve_decision. Defined.

Record TextInputEvent := {
  TextInputEvent_text : text
}.
#[export] Instance TextInputEvent_eq_dec : EqDecision TextInputEvent.
Proof. solve_decision. Defined.

Record SessionControlEvent := {
  SessionControlEvent_action : Z
}.
#[export] Instance SessionControlEvent_eq_dec : EqDecision SessionControlEvent.
Proof. solve_decision. Defined.

Inductive ReleaseAllInput := Build_ReleaseAllInput.
#[export] Instance ReleaseAllInput_eq_dec : EqDecision ReleaseAllInput.
Proof. solve_decision. Defined.

Record PointerMoveEvent := {
  PointerMoveEvent_x : Z;
  PointerMoveEvent_y : Z;
  PointerMoveEvent_pressed_button_bits : Z
}.
#[export] Instance PointerMoveEvent_eq_dec : EqDecision PointerMoveEvent.
Proof. solve_decision. Defined.

Record PointerScrollEvent := {
  PointerScrollEvent_delta_x : Z;
  PointerScrollEvent_delta_y : Z
}.
#[export] Instance PointerScrollEvent_eq_dec : EqDecision PointerScrollEvent.
Proof. solve_decision. Defined.

Inductive ReliableInputEnvelope_Event :=
| ReliableInputEnvelope_Event_PointerButton (value : PointerButtonEvent)
| ReliableInputEnvelope_Event_Keyboard (value : KeyboardEvent)
| ReliableInputEnvelope_Event_Text (value : TextInputEvent)
| ReliableInputEnvelope_Event_SessionControl (value : SessionControlEvent)
| ReliableInputEnvelope_Event_ReleaseAllInput (value : ReleaseAllInput).
#[export] Instance ReliableInputEnvelope_Event_eq_dec : EqDecision ReliableInputEnvelope_Event.
Proof. solve_decision. Defined.

Record ReliableInputEnvelope := {
  ReliableInputEnvelope_protocol_version : option ProtocolVersion;
  ReliableInputEnvelope_session_id : bytes;
  ReliableInputEnvelope_sequence : Z;
  ReliableInputEnvelope_event : option ReliableInputEnvelope_Event
}.
#[export] Instance ReliableInputEnvelope_eq_dec : EqDecision ReliableInputEnvelope.
Proof. solve_decision. Defined.

Inductive PointerFastEnvelope_Event :=
| PointerFastEnvelope_Event_Move (value : PointerMoveEvent)
| PointerFastEnvelope_Event_Scroll (value : PointerScrollEvent).
#[export] Instance PointerFastEnvelope_Event_eq_dec : EqDecision PointerFastEnvelope_Event.
Proof. solve_decision. Defined.

Record PointerFastEnvelope := {
  PointerFastEnvelope_protocol_version : option ProtocolVersion;
  PointerFastEnvelope_session_id : bytes;
  PointerFastEnvelope_sequence : Z;
  PointerFastEnvelope_event : option PointerFastEnvelope_Event
}.
#[export] Instance PointerFastEnvelope_eq_dec : EqDecision PointerFastEnvelope.
Proof. solve_decision. Defined.

Record QrPairingRendezvous := {
  QrPairingRendezvous_rendezvous_id : bytes;
  QrPairingRendezvous_host_identity : option DeviceIdentity;
  QrPairingRendezvous_host_public_key_fingerprint_sha256 : bytes;
  QrPairingRendezvous_host_ephemeral_public_key : bytes;
  QrPairingRendezvous_signaling_endpoint : text;
  QrPairingRendezvous_issued_at_unix_ms : Z;
  QrPairingRendezvous_expires_at_unix_ms : Z
}.
#[export] Instance QrPairingRendezvous_eq_dec : EqDecision QrPairingRendezvous.
Proof. solve_decision. Defined.

Record DesktopPairingRendezvous := {
  DesktopPairingRendezvous_rendezvous_id : bytes;
  DesktopPairingRendezvous_pairing_code : text;
  DesktopPairingRendezvous_host_identity : option DeviceIdentity;
  DesktopPairingRendezvous_host_ephemeral_public_key : bytes;
  DesktopPairingRendezvous_issued_at_unix_ms : Z;
  DesktopPairingRendezvous_expires_at_unix_ms : Z
}.
#[export] Instance DesktopPairingRendezvous_eq_dec : EqDecision DesktopPairingRendezvous.
Proof. solve_decision. Defined.

Record PairingHello := {
  PairingHello_rendezvous_id : bytes;
  PairingHello_identity : option DeviceIdentity;
  PairingHello_ephemeral_public_key : bytes
}.
#[export] Instance PairingHello_eq_dec : EqDecision PairingHello.
Proof. solve_decision. Defined.

Record PairingConfirmationData := {
  PairingConfirmationData_controller_device_id : bytes;
  PairingConfirmationData_host_device_id : bytes;
  PairingConfirmationData_rendezvous_id : bytes;
  PairingConfirmationData_controller_identity_public_key : bytes;
  PairingConfirmationData_host_identity_public_key : bytes;
  PairingConfirmationData_controller_ephemeral_public_key : bytes;
  PairingConfirmationData_host_ephemeral_public_key : bytes;
  PairingConfirmationData_transcript_sha256 : bytes
}.
#[export] Instance PairingConfirmationData_eq_dec : EqDecision PairingConfirmationData.
Proof. solve_decision. Defined.

Record PairingDecision := {
  PairingDecision_status : Z;
  PairingDecision_controller : option DeviceIdentity;
  PairingDecision_confirmation : option PairingConfirmationData;
  PairingDecision_grant : option ControllerGrant
}.
#[export] Instance PairingDecision_eq_dec : EqDecision PairingDecision.
Proof. solve_decision. Defined.

Record HostPairingInvitation := {
  HostPairingInvitation_protocol_version : option ProtocolVersion;
  HostPairingInvitation_kind : Z;
  HostPairingInvitation_rendezvous_id : bytes;
  HostPairingInvitation_host_identity : option DeviceIdentity;
  HostPairingInvitation_host_public_key_fingerprint_sha256 : bytes;
  HostPairingInvitation_host_ephemeral_public_key : bytes;
  HostPairingInvitation_signaling_endpoint : text;
  HostPairingInvitation_pairing_code : text;
  HostPairingInvitation_issued_at_unix_ms : Z;
  HostPairingInvitation_expires_at_unix_ms : Z
}.
#[export] Instance HostPairingInvitation_eq_dec : EqDecision HostPairingInvitation.
Proof. solve_decision. Defined.

Record ControllerPairingHello := {
  ControllerPairingHello_rendezvous_id : bytes;
  ControllerPairingHello_identity : option DeviceIdentity;
  ControllerPairingHello_ephemeral_public_key : bytes;
  ControllerPairingHello_transcript_sha256 : bytes;
  ControllerPairingHello_signature : bytes
}.
#[export] Instance ControllerPairingHello_eq_dec : EqDecision ControllerPairingHello.
Proof. solve_decision. Defined.

Record HostPairingProof := {
  HostPairingProof_confirmation : option PairingConfirmationData;
  HostPairingProof_host_signature : bytes;
  HostPairingProof_expires_at_unix_ms : Z
}.
#[export] Instance HostPairingProof_eq_dec : EqDecision HostPairingProof.
Proof. solve_decision. Defined.

Record ControllerPairingReady := {
  ControllerPairingReady_transcript_sha256 : bytes
}.
#[export] Instance ControllerPairingReady_eq_dec : EqDecision ControllerPairingReady.
Proof. solve_decision. Defined.

Record PairingFinalDecision := {
  PairingFinalDecision_status : Z;
  PairingFinalDecision_transcript_sha256 : bytes;
  PairingFinalDecision_grant : option ControllerGrant
}.
#[export] Instance PairingFinalDecision_eq_dec : EqDecision PairingFinalDecision.
Proof. solve_decision. Defined.

Inductive PairingPlaintext_Payload :=
| PairingPlaintext_Payload_HostProof (value : HostPairingProof)
| PairingPlaintext_Payload_ControllerReady (value : ControllerPairingReady)
| PairingPlaintext_Payload_FinalDecision (value : PairingFinalDecision).
#[export] Instance PairingPlaintext_Payload_eq_dec : EqDecision PairingPlaintext_Payload.
Proof. solve_decision. Defined.

Record PairingPlaintext := {
  PairingPlaintext_payload : option PairingPlaintext_Payload
}.
#[export] Instance PairingPlaintext_eq_dec : EqDecision PairingPlaintext.
Proof. solve_decision. Defined.

Record EncryptedPairingEnvelope := {
  EncryptedPairingEnvelope_protocol_version : option ProtocolVersion;
  EncryptedPairingEnvelope_rendezvous_id : bytes;
  EncryptedPairingEnvelope_direction : Z;
  EncryptedPairingEnvelope_sequence : Z;
  EncryptedPairingEnvelope_ciphertext : bytes
}.
#[export] Instance EncryptedPairingEnvelope_eq_dec : EqDecision EncryptedPairingEnvelope.
Proof. solve_decision. Defined.

Record TrustedHostBinding := {
  TrustedHostBinding_host_identity : option DeviceIdentity;
  TrustedHostBinding_signaling_endpoint : text;
  TrustedHostBinding_paired_at_unix_ms : Z;
  TrustedHostBinding_last_successful_connection_at_unix_ms : Z;
  TrustedHostBinding_display_order : Z;
  TrustedHostBinding_local_alias : text
}.
#[export] Instance TrustedHostBinding_eq_dec : EqDecision TrustedHostBinding.
Proof. solve_decision. Defined.

Record TrustedHostSnapshot := {
  TrustedHostSnapshot_protocol_version : option ProtocolVersion;
  TrustedHostSnapshot_bindings : list TrustedHostBinding
}.
#[export] Instance TrustedHostSnapshot_eq_dec : EqDecision TrustedHostSnapshot.
Proof. solve_decision. Defined.

Record HostPairingStatusSnapshot := {
  HostPairingStatusSnapshot_state : Z;
  HostPairingStatusSnapshot_revision : Z;
  HostPairingStatusSnapshot_invitation : option HostPairingInvitation;
  HostPairingStatusSnapshot_pending_controller : option DeviceIdentity;
  HostPairingStatusSnapshot_pending_controller_fingerprint_sha256 : bytes;
  HostPairingStatusSnapshot_sas_words : list text;
  HostPairingStatusSnapshot_expires_at_unix_ms : Z;
  HostPairingStatusSnapshot_error : option UnifiedError
}.
#[export] Instance HostPairingStatusSnapshot_eq_dec : EqDecision HostPairingStatusSnapshot.
Proof. solve_decision. Defined.

Inductive PairingMessage_Payload :=
| PairingMessage_Payload_QrRendezvous (value : QrPairingRendezvous)
| PairingMessage_Payload_DesktopRendezvous (value : DesktopPairingRendezvous)
| PairingMessage_Payload_Hello (value : PairingHello)
| PairingMessage_Payload_Confirmation (value : PairingConfirmationData)
| PairingMessage_Payload_Decision (value : PairingDecision)
| PairingMessage_Payload_HostInvitation (value : HostPairingInvitation)
| PairingMessage_Payload_ControllerHello (value : ControllerPairingHello)
| PairingMessage_Payload_EncryptedEnvelope (value : EncryptedPairingEnvelope).
#[export] Instance PairingMessage_Payload_eq_dec : EqDecision PairingMessage_Payload.
Proof. solve_decision. Defined.

Record PairingMessage := {
  PairingMessage_payload : option PairingMessage_Payload
}.
#[export] Instance PairingMessage_eq_dec : EqDecision PairingMessage.
Proof. solve_decision. Defined.

Record WebRtcSessionDescription := {
  WebRtcSessionDescription_type : Z;
  WebRtcSessionDescription_sdp : text;
  WebRtcSessionDescription_dtls_fingerprint_sha256 : bytes
}.
#[export] Instance WebRtcSessionDescription_eq_dec : EqDecision WebRtcSessionDescription.
Proof. solve_decision. Defined.

Record IceCandidate := {
  IceCandidate_candidate : text;
  IceCandidate_sdp_mid : text;
  IceCandidate_sdp_m_line_index : Z
}.
#[export] Instance IceCandidate_eq_dec : EqDecision IceCandidate.
Proof. solve_decision. Defined.

Inductive EndOfCandidates := Build_EndOfCandidates.
#[export] Instance EndOfCandidates_eq_dec : EqDecision EndOfCandidates.
Proof. solve_decision. Defined.

Inductive WebRtcNegotiation_Payload :=
| WebRtcNegotiation_Payload_Description (value : WebRtcSessionDescription)
| WebRtcNegotiation_Payload_IceCandidate (value : IceCandidate)
| WebRtcNegotiation_Payload_EndOfCandidates (value : EndOfCandidates).
#[export] Instance WebRtcNegotiation_Payload_eq_dec : EqDecision WebRtcNegotiation_Payload.
Proof. solve_decision. Defined.

Record WebRtcNegotiation := {
  WebRtcNegotiation_session_id : bytes;
  WebRtcNegotiation_payload : option WebRtcNegotiation_Payload
}.
#[export] Instance WebRtcNegotiation_eq_dec : EqDecision WebRtcNegotiation.
Proof. solve_decision. Defined.

Record PrivilegedSessionDescriptor := {
  PrivilegedSessionDescriptor_platform : Z;
  PrivilegedSessionDescriptor_os_session_id : Z;
  PrivilegedSessionDescriptor_desktop_kind : Z;
  PrivilegedSessionDescriptor_generation : Z
}.
#[export] Instance PrivilegedSessionDescriptor_eq_dec : EqDecision PrivilegedSessionDescriptor.
Proof. solve_decision. Defined.

Record PrivilegedBridgeStatusSnapshot := {
  PrivilegedBridgeStatusSnapshot_state : Z;
  PrivilegedBridgeStatusSnapshot_interactive_session : option PrivilegedSessionDescriptor;
  PrivilegedBridgeStatusSnapshot_helper_connected : bool;
  PrivilegedBridgeStatusSnapshot_active_controller_display_name : text;
  PrivilegedBridgeStatusSnapshot_error : option UnifiedError
}.
#[export] Instance PrivilegedBridgeStatusSnapshot_eq_dec : EqDecision PrivilegedBridgeStatusSnapshot.
Proof. solve_decision. Defined.

Record PrivilegedBridgeChallenge := {
  PrivilegedBridgeChallenge_broker_instance_id : bytes;
  PrivilegedBridgeChallenge_server_nonce : bytes
}.
#[export] Instance PrivilegedBridgeChallenge_eq_dec : EqDecision PrivilegedBridgeChallenge.
Proof. solve_decision. Defined.

Record PrivilegedBridgeAuthenticate := {
  PrivilegedBridgeAuthenticate_role : Z;
  PrivilegedBridgeAuthenticate_client_nonce : bytes;
  PrivilegedBridgeAuthenticate_client_proof : bytes;
  PrivilegedBridgeAuthenticate_executable_sha256 : bytes;
  PrivilegedBridgeAuthenticate_os_session_id : Z
}.
#[export] Instance PrivilegedBridgeAuthenticate_eq_dec : EqDecision PrivilegedBridgeAuthenticate.
Proof. solve_decision. Defined.

Record PrivilegedBridgeAuthenticated := {
  PrivilegedBridgeAuthenticated_server_proof : bytes
}.
#[export] Instance PrivilegedBridgeAuthenticated_eq_dec : EqDecision PrivilegedBridgeAuthenticated.
Proof. solve_decision. Defined.

Record PrivilegedLease := {
  PrivilegedLease_lease_id : bytes;
  PrivilegedLease_generation : Z;
  PrivilegedLease_issued_at_unix_ms : Z;
  PrivilegedLease_expires_at_unix_ms : Z;
  PrivilegedLease_session_id : bytes;
  PrivilegedLease_permissions : list Z;
  PrivilegedLease_controller_display_name : text
}.
#[export] Instance PrivilegedLease_eq_dec : EqDecision PrivilegedLease.
Proof. solve_decision. Defined.

Record AcquirePrivilegedLeaseRequest := {
  AcquirePrivilegedLeaseRequest_session_id : bytes;
  AcquirePrivilegedLeaseRequest_generation : Z;
  AcquirePrivilegedLeaseRequest_permissions : list Z;
  AcquirePrivilegedLeaseRequest_controller_display_name : text
}.
#[export] Instance AcquirePrivilegedLeaseRequest_eq_dec : EqDecision AcquirePrivilegedLeaseRequest.
Proof. solve_decision. Defined.

Record RenewPrivilegedLeaseRequest := {
  RenewPrivilegedLeaseRequest_lease_id : bytes;
  RenewPrivilegedLeaseRequest_generation : Z
}.
#[export] Instance RenewPrivilegedLeaseRequest_eq_dec : EqDecision RenewPrivilegedLeaseRequest.
Proof. solve_decision. Defined.

Record ReleasePrivilegedLeaseRequest := {
  ReleasePrivilegedLeaseRequest_lease_id : bytes;
  ReleasePrivilegedLeaseRequest_generation : Z
}.
#[export] Instance ReleasePrivilegedLeaseRequest_eq_dec : EqDecision ReleasePrivilegedLeaseRequest.
Proof. solve_decision. Defined.

Record PrivilegedIceServer := {
  PrivilegedIceServer_urls : list text;
  PrivilegedIceServer_username : text;
  PrivilegedIceServer_credential : text
}.
#[export] Instance PrivilegedIceServer_eq_dec : EqDecision PrivilegedIceServer.
Proof. solve_decision. Defined.

Record PrivilegedPeerConfiguration := {
  PrivilegedPeerConfiguration_ice_transport_policy : Z;
  PrivilegedPeerConfiguration_ice_servers : list PrivilegedIceServer
}.
#[export] Instance PrivilegedPeerConfiguration_eq_dec : EqDecision PrivilegedPeerConfiguration.
Proof. solve_decision. Defined.

Record StartPrivilegedPeerRequest := {
  StartPrivilegedPeerRequest_lease_id : bytes;
  StartPrivilegedPeerRequest_generation : Z;
  StartPrivilegedPeerRequest_configuration : option PrivilegedPeerConfiguration;
  StartPrivilegedPeerRequest_offer : option WebRtcSessionDescription;
  StartPrivilegedPeerRequest_controller_display_name : text
}.
#[export] Instance StartPrivilegedPeerRequest_eq_dec : EqDecision StartPrivilegedPeerRequest.
Proof. solve_decision. Defined.

Record RestartPrivilegedPeerRequest := {
  RestartPrivilegedPeerRequest_lease_id : bytes;
  RestartPrivilegedPeerRequest_generation : Z;
  RestartPrivilegedPeerRequest_configuration : option PrivilegedPeerConfiguration;
  RestartPrivilegedPeerRequest_offer : option WebRtcSessionDescription;
  RestartPrivilegedPeerRequest_controller_display_name : text
}.
#[export] Instance RestartPrivilegedPeerRequest_eq_dec : EqDecision RestartPrivilegedPeerRequest.
Proof. solve_decision. Defined.

Record AddPrivilegedIceCandidateRequest := {
  AddPrivilegedIceCandidateRequest_lease_id : bytes;
  AddPrivilegedIceCandidateRequest_generation : Z;
  AddPrivilegedIceCandidateRequest_candidate : option IceCandidate
}.
#[export] Instance AddPrivilegedIceCandidateRequest_eq_dec : EqDecision AddPrivilegedIceCandidateRequest.
Proof. solve_decision. Defined.

Record ClosePrivilegedPeerRequest := {
  ClosePrivilegedPeerRequest_lease_id : bytes;
  ClosePrivilegedPeerRequest_generation : Z
}.
#[export] Instance ClosePrivilegedPeerRequest_eq_dec : EqDecision ClosePrivilegedPeerRequest.
Proof. solve_decision. Defined.

Record PrivilegedReliableInputEvent := {
  PrivilegedReliableInputEvent_lease_id : bytes;
  PrivilegedReliableInputEvent_generation : Z;
  PrivilegedReliableInputEvent_encoded_envelope : bytes
}.
#[export] Instance PrivilegedReliableInputEvent_eq_dec : EqDecision PrivilegedReliableInputEvent.
Proof. solve_decision. Defined.

Record PrivilegedFastPointerEvent := {
  PrivilegedFastPointerEvent_lease_id : bytes;
  PrivilegedFastPointerEvent_generation : Z;
  PrivilegedFastPointerEvent_encoded_envelope : bytes
}.
#[export] Instance PrivilegedFastPointerEvent_eq_dec : EqDecision PrivilegedFastPointerEvent.
Proof. solve_decision. Defined.

Inductive PrivilegedInputCommand_Input :=
| PrivilegedInputCommand_Input_PointerButton (value : PointerButtonEvent)
| PrivilegedInputCommand_Input_Keyboard (value : KeyboardEvent)
| PrivilegedInputCommand_Input_Text (value : TextInputEvent)
| PrivilegedInputCommand_Input_PointerMove (value : PointerMoveEvent)
| PrivilegedInputCommand_Input_PointerScroll (value : PointerScrollEvent)
| PrivilegedInputCommand_Input_ReleaseAll (value : ReleaseAllInput).
#[export] Instance PrivilegedInputCommand_Input_eq_dec : EqDecision PrivilegedInputCommand_Input.
Proof. solve_decision. Defined.

Record PrivilegedInputCommand := {
  PrivilegedInputCommand_lease_id : bytes;
  PrivilegedInputCommand_generation : Z;
  PrivilegedInputCommand_input : option PrivilegedInputCommand_Input
}.
#[export] Instance PrivilegedInputCommand_eq_dec : EqDecision PrivilegedInputCommand.
Proof. solve_decision. Defined.

Record SendSecureAttentionRequest := {
  SendSecureAttentionRequest_lease_id : bytes;
  SendSecureAttentionRequest_generation : Z
}.
#[export] Instance SendSecureAttentionRequest_eq_dec : EqDecision SendSecureAttentionRequest.
Proof. solve_decision. Defined.

Record RegisterPrivilegedHelperRequest := {
  RegisterPrivilegedHelperRequest_session : option PrivilegedSessionDescriptor
}.
#[export] Instance RegisterPrivilegedHelperRequest_eq_dec : EqDecision RegisterPrivilegedHelperRequest.
Proof. solve_decision. Defined.

Record PrivilegedHelperRegistered := {
  PrivilegedHelperRegistered_session : option PrivilegedSessionDescriptor
}.
#[export] Instance PrivilegedHelperRegistered_eq_dec : EqDecision PrivilegedHelperRegistered.
Proof. solve_decision. Defined.

Record PrivilegedPeerStateChanged := {
  PrivilegedPeerStateChanged_lease_id : bytes;
  PrivilegedPeerStateChanged_generation : Z;
  PrivilegedPeerStateChanged_state : Z
}.
#[export] Instance PrivilegedPeerStateChanged_eq_dec : EqDecision PrivilegedPeerStateChanged.
Proof. solve_decision. Defined.

Record PrivilegedPeerAnswer := {
  PrivilegedPeerAnswer_lease_id : bytes;
  PrivilegedPeerAnswer_generation : Z;
  PrivilegedPeerAnswer_answer : option WebRtcSessionDescription
}.
#[export] Instance PrivilegedPeerAnswer_eq_dec : EqDecision PrivilegedPeerAnswer.
Proof. solve_decision. Defined.

Record PrivilegedLocalIceCandidate := {
  PrivilegedLocalIceCandidate_lease_id : bytes;
  PrivilegedLocalIceCandidate_generation : Z;
  PrivilegedLocalIceCandidate_candidate : option IceCandidate
}.
#[export] Instance PrivilegedLocalIceCandidate_eq_dec : EqDecision PrivilegedLocalIceCandidate.
Proof. solve_decision. Defined.

Record PrivilegedCommandAccepted := {
  PrivilegedCommandAccepted_lease_id : bytes;
  PrivilegedCommandAccepted_generation : Z
}.
#[export] Instance PrivilegedCommandAccepted_eq_dec : EqDecision PrivilegedCommandAccepted.
Proof. solve_decision. Defined.

Inductive PrivilegedBridgeClientFrame_Payload :=
| PrivilegedBridgeClientFrame_Payload_Authenticate (value : PrivilegedBridgeAuthenticate)
| PrivilegedBridgeClientFrame_Payload_RegisterHelper (value : RegisterPrivilegedHelperRequest)
| PrivilegedBridgeClientFrame_Payload_AcquireLease (value : AcquirePrivilegedLeaseRequest)
| PrivilegedBridgeClientFrame_Payload_RenewLease (value : RenewPrivilegedLeaseRequest)
| PrivilegedBridgeClientFrame_Payload_ReleaseLease (value : ReleasePrivilegedLeaseRequest)
| PrivilegedBridgeClientFrame_Payload_StartPeer (value : StartPrivilegedPeerRequest)
| PrivilegedBridgeClientFrame_Payload_RestartPeer (value : RestartPrivilegedPeerRequest)
| PrivilegedBridgeClientFrame_Payload_AddIceCandidate (value : AddPrivilegedIceCandidateRequest)
| PrivilegedBridgeClientFrame_Payload_SendSecureAttention (value : SendSecureAttentionRequest)
| PrivilegedBridgeClientFrame_Payload_InputCommand (value : PrivilegedInputCommand)
| PrivilegedBridgeClientFrame_Payload_ClosePeer (value : ClosePrivilegedPeerRequest).
#[export] Instance PrivilegedBridgeClientFrame_Payload_eq_dec : EqDecision PrivilegedBridgeClientFrame_Payload.
Proof. solve_decision. Defined.

Record PrivilegedBridgeClientFrame := {
  PrivilegedBridgeClientFrame_protocol_version : option ProtocolVersion;
  PrivilegedBridgeClientFrame_request_id : text;
  PrivilegedBridgeClientFrame_sequence : Z;
  PrivilegedBridgeClientFrame_payload : option PrivilegedBridgeClientFrame_Payload
}.
#[export] Instance PrivilegedBridgeClientFrame_eq_dec : EqDecision PrivilegedBridgeClientFrame.
Proof. solve_decision. Defined.

Inductive PrivilegedBridgeServerFrame_Payload :=
| PrivilegedBridgeServerFrame_Payload_Challenge (value : PrivilegedBridgeChallenge)
| PrivilegedBridgeServerFrame_Payload_Authenticated (value : PrivilegedBridgeAuthenticated)
| PrivilegedBridgeServerFrame_Payload_HelperRegistered (value : PrivilegedHelperRegistered)
| PrivilegedBridgeServerFrame_Payload_Status (value : PrivilegedBridgeStatusSnapshot)
| PrivilegedBridgeServerFrame_Payload_Lease (value : PrivilegedLease)
| PrivilegedBridgeServerFrame_Payload_PeerAnswer (value : PrivilegedPeerAnswer)
| PrivilegedBridgeServerFrame_Payload_LocalIceCandidate (value : PrivilegedLocalIceCandidate)
| PrivilegedBridgeServerFrame_Payload_PeerStateChanged (value : PrivilegedPeerStateChanged)
| PrivilegedBridgeServerFrame_Payload_ReliableInput (value : PrivilegedReliableInputEvent)
| PrivilegedBridgeServerFrame_Payload_FastPointer (value : PrivilegedFastPointerEvent)
| PrivilegedBridgeServerFrame_Payload_CommandAccepted (value : PrivilegedCommandAccepted)
| PrivilegedBridgeServerFrame_Payload_Error (value : UnifiedError).
#[export] Instance PrivilegedBridgeServerFrame_Payload_eq_dec : EqDecision PrivilegedBridgeServerFrame_Payload.
Proof. solve_decision. Defined.

Record PrivilegedBridgeServerFrame := {
  PrivilegedBridgeServerFrame_protocol_version : option ProtocolVersion;
  PrivilegedBridgeServerFrame_request_id : text;
  PrivilegedBridgeServerFrame_sequence : Z;
  PrivilegedBridgeServerFrame_payload : option PrivilegedBridgeServerFrame_Payload
}.
#[export] Instance PrivilegedBridgeServerFrame_eq_dec : EqDecision PrivilegedBridgeServerFrame.
Proof. solve_decision. Defined.

Record SessionStatus := {
  SessionStatus_session_id : bytes;
  SessionStatus_state : Z;
  SessionStatus_error : option UnifiedError
}.
#[export] Instance SessionStatus_eq_dec : EqDecision SessionStatus.
Proof. solve_decision. Defined.

Record LocalIpcChallenge := {
  LocalIpcChallenge_agent_instance_id : bytes;
  LocalIpcChallenge_server_nonce : bytes
}.
#[export] Instance LocalIpcChallenge_eq_dec : EqDecision LocalIpcChallenge.
Proof. solve_decision. Defined.

Record LocalIpcAuthenticate := {
  LocalIpcAuthenticate_client_nonce : bytes;
  LocalIpcAuthenticate_client_proof : bytes
}.
#[export] Instance LocalIpcAuthenticate_eq_dec : EqDecision LocalIpcAuthenticate.
Proof. solve_decision. Defined.

Record LocalIpcAuthenticated := {
  LocalIpcAuthenticated_server_proof : bytes
}.
#[export] Instance LocalIpcAuthenticated_eq_dec : EqDecision LocalIpcAuthenticated.
Proof. solve_decision. Defined.

Inductive GetHostStatusRequest := Build_GetHostStatusRequest.
#[export] Instance GetHostStatusRequest_eq_dec : EqDecision GetHostStatusRequest.
Proof. solve_decision. Defined.

Record HostStatus := {
  HostStatus_identity : option DeviceIdentity;
  HostStatus_agent_instance_id : bytes;
  HostStatus_agent_started_at_unix_ms : Z;
  HostStatus_controller_grant_count : Z;
  HostStatus_privileged_bridge : option PrivilegedBridgeStatusSnapshot
}.
#[export] Instance HostStatus_eq_dec : EqDecision HostStatus.
Proof. solve_decision. Defined.

Record ControllerGrantView := {
  ControllerGrantView_grant : option ControllerGrant;
  ControllerGrantView_last_successful_connection_at_unix_ms : Z
}.
#[export] Instance ControllerGrantView_eq_dec : EqDecision ControllerGrantView.
Proof. solve_decision. Defined.

Inductive ListControllerGrantsRequest := Build_ListControllerGrantsRequest.
#[export] Instance ListControllerGrantsRequest_eq_dec : EqDecision ListControllerGrantsRequest.
Proof. solve_decision. Defined.

Record ControllerGrantList := {
  ControllerGrantList_grants : list ControllerGrantView
}.
#[export] Instance ControllerGrantList_eq_dec : EqDecision ControllerGrantList.
Proof. solve_decision. Defined.

Record CreateControllerGrantRequest := {
  CreateControllerGrantRequest_controller : option DeviceIdentity;
  CreateControllerGrantRequest_permissions : list Z
}.
#[export] Instance CreateControllerGrantRequest_eq_dec : EqDecision CreateControllerGrantRequest.
Proof. solve_decision. Defined.

Record ControllerGrantCreated := {
  ControllerGrantCreated_grant : option ControllerGrantView
}.
#[export] Instance ControllerGrantCreated_eq_dec : EqDecision ControllerGrantCreated.
Proof. solve_decision. Defined.

Record SignCanonicalTranscriptRequest := {
  SignCanonicalTranscriptRequest_canonical_transcript : bytes
}.
#[export] Instance SignCanonicalTranscriptRequest_eq_dec : EqDecision SignCanonicalTranscriptRequest.
Proof. solve_decision. Defined.

Record CanonicalTranscriptSignature := {
  CanonicalTranscriptSignature_host_device_id : bytes;
  CanonicalTranscriptSignature_host_public_key : bytes;
  CanonicalTranscriptSignature_signature : bytes;
  CanonicalTranscriptSignature_transcript_sha256 : bytes
}.
#[export] Instance CanonicalTranscriptSignature_eq_dec : EqDecision CanonicalTranscriptSignature.
Proof. solve_decision. Defined.

Record SignSessionOfferRequest := {
  SignSessionOfferRequest_canonical_transcript : bytes
}.
#[export] Instance SignSessionOfferRequest_eq_dec : EqDecision SignSessionOfferRequest.
Proof. solve_decision. Defined.

Record SessionOfferSignature := {
  SessionOfferSignature_controller_device_id : bytes;
  SessionOfferSignature_controller_public_key : bytes;
  SessionOfferSignature_signature : bytes;
  SessionOfferSignature_transcript_sha256 : bytes
}.
#[export] Instance SessionOfferSignature_eq_dec : EqDecision SessionOfferSignature.
Proof. solve_decision. Defined.

Inductive GetRemoteSessionStatusRequest := Build_GetRemoteSessionStatusRequest.
#[export] Instance GetRemoteSessionStatusRequest_eq_dec : EqDecision GetRemoteSessionStatusRequest.
Proof. solve_decision. Defined.

Record RemoteSessionStatusSnapshot := {
  RemoteSessionStatusSnapshot_session_status : option SessionStatus;
  RemoteSessionStatusSnapshot_controller_device_id : bytes
}.
#[export] Instance RemoteSessionStatusSnapshot_eq_dec : EqDecision RemoteSessionStatusSnapshot.
Proof. solve_decision. Defined.

Record StartHostQrPairingRequest := {
  StartHostQrPairingRequest_signaling_endpoint : text
}.
#[export] Instance StartHostQrPairingRequest_eq_dec : EqDecision StartHostQrPairingRequest.
Proof. solve_decision. Defined.

Record StartHostDesktopCodePairingRequest := {
  StartHostDesktopCodePairingRequest_signaling_endpoint : text
}.
#[export] Instance StartHostDesktopCodePairingRequest_eq_dec : EqDecision StartHostDesktopCodePairingRequest.
Proof. solve_decision. Defined.

Record CancelHostPairingRequest := {
  CancelHostPairingRequest_rendezvous_id : bytes
}.
#[export] Instance CancelHostPairingRequest_eq_dec : EqDecision CancelHostPairingRequest.
Proof. solve_decision. Defined.

Inductive GetHostPairingStatusRequest := Build_GetHostPairingStatusRequest.
#[export] Instance GetHostPairingStatusRequest_eq_dec : EqDecision GetHostPairingStatusRequest.
Proof. solve_decision. Defined.

Record AcceptHostPairingRequest := {
  AcceptHostPairingRequest_rendezvous_id : bytes;
  AcceptHostPairingRequest_controller_device_id : bytes
}.
#[export] Instance AcceptHostPairingRequest_eq_dec : EqDecision AcceptHostPairingRequest.
Proof. solve_decision. Defined.

Record RejectHostPairingRequest := {
  RejectHostPairingRequest_rendezvous_id : bytes;
  RejectHostPairingRequest_controller_device_id : bytes
}.
#[export] Instance RejectHostPairingRequest_eq_dec : EqDecision RejectHostPairingRequest.
Proof. solve_decision. Defined.

Record SignPairingTranscriptRequest := {
  SignPairingTranscriptRequest_canonical_transcript : bytes;
  SignPairingTranscriptRequest_role : Z
}.
#[export] Instance SignPairingTranscriptRequest_eq_dec : EqDecision SignPairingTranscriptRequest.
Proof. solve_decision. Defined.

Record PairingTranscriptSignature := {
  PairingTranscriptSignature_role : Z;
  PairingTranscriptSignature_signer_device_id : bytes;
  PairingTranscriptSignature_signer_public_key : bytes;
  PairingTranscriptSignature_signature : bytes;
  PairingTranscriptSignature_transcript_sha256 : bytes
}.
#[export] Instance PairingTranscriptSignature_eq_dec : EqDecision PairingTranscriptSignature.
Proof. solve_decision. Defined.

Record HostPairingStateChangedEvent := {
  HostPairingStateChangedEvent_status : option HostPairingStatusSnapshot
}.
#[export] Instance HostPairingStateChangedEvent_eq_dec : EqDecision HostPairingStateChangedEvent.
Proof. solve_decision. Defined.

Record RevokeControllerGrantRequest := {
  RevokeControllerGrantRequest_grant_id : bytes
}.
#[export] Instance RevokeControllerGrantRequest_eq_dec : EqDecision RevokeControllerGrantRequest.
Proof. solve_decision. Defined.

Record ControllerGrantRevoked := {
  ControllerGrantRevoked_grant_id : bytes;
  ControllerGrantRevoked_terminated_session_count : Z
}.
#[export] Instance ControllerGrantRevoked_eq_dec : EqDecision ControllerGrantRevoked.
Proof. solve_decision. Defined.

Record SessionTerminatedEvent := {
  SessionTerminatedEvent_session_id : bytes;
  SessionTerminatedEvent_controller_device_id : bytes;
  SessionTerminatedEvent_reason : Z
}.
#[export] Instance SessionTerminatedEvent_eq_dec : EqDecision SessionTerminatedEvent.
Proof. solve_decision. Defined.

Record HostAuthorizationSnapshot := {
  HostAuthorizationSnapshot_host_device_id : bytes;
  HostAuthorizationSnapshot_grants : list ControllerGrantView
}.
#[export] Instance HostAuthorizationSnapshot_eq_dec : EqDecision HostAuthorizationSnapshot.
Proof. solve_decision. Defined.

Inductive EmergencyStopRemoteSessionRequest := Build_EmergencyStopRemoteSessionRequest.
#[export] Instance EmergencyStopRemoteSessionRequest_eq_dec : EqDecision EmergencyStopRemoteSessionRequest.
Proof. solve_decision. Defined.

Record EmergencyStopRemoteSessionResult := {
  EmergencyStopRemoteSessionResult_terminated_session_count : Z
}.
#[export] Instance EmergencyStopRemoteSessionResult_eq_dec : EqDecision EmergencyStopRemoteSessionResult.
Proof. solve_decision. Defined.

Inductive LocalIpcClientFrame_Payload :=
| LocalIpcClientFrame_Payload_Authenticate (value : LocalIpcAuthenticate)
| LocalIpcClientFrame_Payload_GetHostStatus (value : GetHostStatusRequest)
| LocalIpcClientFrame_Payload_ListControllerGrants (value : ListControllerGrantsRequest)
| LocalIpcClientFrame_Payload_CreateControllerGrant (value : CreateControllerGrantRequest)
| LocalIpcClientFrame_Payload_SignCanonicalTranscript (value : SignCanonicalTranscriptRequest)
| LocalIpcClientFrame_Payload_RevokeControllerGrant (value : RevokeControllerGrantRequest)
| LocalIpcClientFrame_Payload_SignSessionOffer (value : SignSessionOfferRequest)
| LocalIpcClientFrame_Payload_GetRemoteSessionStatus (value : GetRemoteSessionStatusRequest)
| LocalIpcClientFrame_Payload_StartHostQrPairing (value : StartHostQrPairingRequest)
| LocalIpcClientFrame_Payload_StartHostDesktopCodePairing (value : StartHostDesktopCodePairingRequest)
| LocalIpcClientFrame_Payload_CancelHostPairing (value : CancelHostPairingRequest)
| LocalIpcClientFrame_Payload_GetHostPairingStatus (value : GetHostPairingStatusRequest)
| LocalIpcClientFrame_Payload_AcceptHostPairing (value : AcceptHostPairingRequest)
| LocalIpcClientFrame_Payload_RejectHostPairing (value : RejectHostPairingRequest)
| LocalIpcClientFrame_Payload_SignPairingTranscript (value : SignPairingTranscriptRequest)
| LocalIpcClientFrame_Payload_EmergencyStopRemoteSession (value : EmergencyStopRemoteSessionRequest).
#[export] Instance LocalIpcClientFrame_Payload_eq_dec : EqDecision LocalIpcClientFrame_Payload.
Proof. solve_decision. Defined.

Record LocalIpcClientFrame := {
  LocalIpcClientFrame_protocol_version : option ProtocolVersion;
  LocalIpcClientFrame_request_id : text;
  LocalIpcClientFrame_payload : option LocalIpcClientFrame_Payload
}.
#[export] Instance LocalIpcClientFrame_eq_dec : EqDecision LocalIpcClientFrame.
Proof. solve_decision. Defined.

Inductive LocalIpcServerFrame_Payload :=
| LocalIpcServerFrame_Payload_Challenge (value : LocalIpcChallenge)
| LocalIpcServerFrame_Payload_Authenticated (value : LocalIpcAuthenticated)
| LocalIpcServerFrame_Payload_HostStatus (value : HostStatus)
| LocalIpcServerFrame_Payload_ControllerGrantList (value : ControllerGrantList)
| LocalIpcServerFrame_Payload_ControllerGrantCreated (value : ControllerGrantCreated)
| LocalIpcServerFrame_Payload_CanonicalTranscriptSignature (value : CanonicalTranscriptSignature)
| LocalIpcServerFrame_Payload_ControllerGrantRevoked (value : ControllerGrantRevoked)
| LocalIpcServerFrame_Payload_SessionOfferSignature (value : SessionOfferSignature)
| LocalIpcServerFrame_Payload_RemoteSessionStatus (value : RemoteSessionStatusSnapshot)
| LocalIpcServerFrame_Payload_SessionTerminated (value : SessionTerminatedEvent)
| LocalIpcServerFrame_Payload_Error (value : UnifiedError)
| LocalIpcServerFrame_Payload_HostPairingStatus (value : HostPairingStatusSnapshot)
| LocalIpcServerFrame_Payload_PairingTranscriptSignature (value : PairingTranscriptSignature)
| LocalIpcServerFrame_Payload_HostPairingStateChanged (value : HostPairingStateChangedEvent)
| LocalIpcServerFrame_Payload_EmergencyStopRemoteSessionResult (value : EmergencyStopRemoteSessionResult).
#[export] Instance LocalIpcServerFrame_Payload_eq_dec : EqDecision LocalIpcServerFrame_Payload.
Proof. solve_decision. Defined.

Record LocalIpcServerFrame := {
  LocalIpcServerFrame_protocol_version : option ProtocolVersion;
  LocalIpcServerFrame_request_id : text;
  LocalIpcServerFrame_payload : option LocalIpcServerFrame_Payload
}.
#[export] Instance LocalIpcServerFrame_eq_dec : EqDecision LocalIpcServerFrame.
Proof. solve_decision. Defined.

Inductive SignalingEnvelope_Payload :=
| SignalingEnvelope_Payload_CapabilityNegotiation (value : CapabilityNegotiation)
| SignalingEnvelope_Payload_Pairing (value : PairingMessage)
| SignalingEnvelope_Payload_SessionAuthentication (value : SessionAuthentication)
| SignalingEnvelope_Payload_WebrtcNegotiation (value : WebRtcNegotiation)
| SignalingEnvelope_Payload_SessionStatus (value : SessionStatus)
| SignalingEnvelope_Payload_Error (value : UnifiedError).
#[export] Instance SignalingEnvelope_Payload_eq_dec : EqDecision SignalingEnvelope_Payload.
Proof. solve_decision. Defined.

Record SignalingEnvelope := {
  SignalingEnvelope_protocol_version : option ProtocolVersion;
  SignalingEnvelope_sender_device_id : bytes;
  SignalingEnvelope_recipient_device_id : bytes;
  SignalingEnvelope_request_id : text;
  SignalingEnvelope_sent_at_unix_ms : Z;
  SignalingEnvelope_payload : option SignalingEnvelope_Payload
}.
#[export] Instance SignalingEnvelope_eq_dec : EqDecision SignalingEnvelope.
Proof. solve_decision. Defined.

Record RegisterDevice := {
  RegisterDevice_device_id : bytes
}.
#[export] Instance RegisterDevice_eq_dec : EqDecision RegisterDevice.
Proof. solve_decision. Defined.

Record RegistrationAccepted := {
  RegistrationAccepted_device_id : bytes;
  RegistrationAccepted_presence_expires_at_unix_ms : Z
}.
#[export] Instance RegistrationAccepted_eq_dec : EqDecision RegistrationAccepted.
Proof. solve_decision. Defined.

Inductive Heartbeat := Build_Heartbeat.
#[export] Instance Heartbeat_eq_dec : EqDecision Heartbeat.
Proof. solve_decision. Defined.

Record HeartbeatAcknowledged := {
  HeartbeatAcknowledged_server_time_unix_ms : Z;
  HeartbeatAcknowledged_presence_expires_at_unix_ms : Z
}.
#[export] Instance HeartbeatAcknowledged_eq_dec : EqDecision HeartbeatAcknowledged.
Proof. solve_decision. Defined.

Record PresenceQuery := {
  PresenceQuery_device_id : bytes
}.
#[export] Instance PresenceQuery_eq_dec : EqDecision PresenceQuery.
Proof. solve_decision. Defined.

Record PresenceResult := {
  PresenceResult_device_id : bytes;
  PresenceResult_online : bool
}.
#[export] Instance PresenceResult_eq_dec : EqDecision PresenceResult.
Proof. solve_decision. Defined.

Record CreatePairingRendezvous := {
  CreatePairingRendezvous_rendezvous_id : bytes;
  CreatePairingRendezvous_kind : Z;
  CreatePairingRendezvous_pairing_code : text
}.
#[export] Instance CreatePairingRendezvous_eq_dec : EqDecision CreatePairingRendezvous.
Proof. solve_decision. Defined.

Record PairingRendezvousCreated := {
  PairingRendezvousCreated_rendezvous_id : bytes;
  PairingRendezvousCreated_kind : Z;
  PairingRendezvousCreated_expires_at_unix_ms : Z
}.
#[export] Instance PairingRendezvousCreated_eq_dec : EqDecision PairingRendezvousCreated.
Proof. solve_decision. Defined.

Inductive JoinPairingRendezvous_Lookup :=
| JoinPairingRendezvous_Lookup_RendezvousId (value : bytes)
| JoinPairingRendezvous_Lookup_PairingCode (value : text).
#[export] Instance JoinPairingRendezvous_Lookup_eq_dec : EqDecision JoinPairingRendezvous_Lookup.
Proof. solve_decision. Defined.

Record JoinPairingRendezvous := {
  JoinPairingRendezvous_lookup : option JoinPairingRendezvous_Lookup
}.
#[export] Instance JoinPairingRendezvous_eq_dec : EqDecision JoinPairingRendezvous.
Proof. solve_decision. Defined.

Record PairingRendezvousJoined := {
  PairingRendezvousJoined_rendezvous_id : bytes;
  PairingRendezvousJoined_peer_device_id : bytes;
  PairingRendezvousJoined_expires_at_unix_ms : Z
}.
#[export] Instance PairingRendezvousJoined_eq_dec : EqDecision PairingRendezvousJoined.
Proof. solve_decision. Defined.

Record RelayPairingEnvelope := {
  RelayPairingEnvelope_rendezvous_id : bytes;
  RelayPairingEnvelope_opaque_envelope : bytes
}.
#[export] Instance RelayPairingEnvelope_eq_dec : EqDecision RelayPairingEnvelope.
Proof. solve_decision. Defined.

Record RoutedPairingEnvelope := {
  RoutedPairingEnvelope_rendezvous_id : bytes;
  RoutedPairingEnvelope_sender_device_id : bytes;
  RoutedPairingEnvelope_opaque_envelope : bytes
}.
#[export] Instance RoutedPairingEnvelope_eq_dec : EqDecision RoutedPairingEnvelope.
Proof. solve_decision. Defined.

Record CompletePairingRendezvous := {
  CompletePairingRendezvous_rendezvous_id : bytes;
  CompletePairingRendezvous_completion : Z
}.
#[export] Instance CompletePairingRendezvous_eq_dec : EqDecision CompletePairingRendezvous.
Proof. solve_decision. Defined.

Record PairingRendezvousClosed := {
  PairingRendezvousClosed_rendezvous_id : bytes;
  PairingRendezvousClosed_completion : Z
}.
#[export] Instance PairingRendezvousClosed_eq_dec : EqDecision PairingRendezvousClosed.
Proof. solve_decision. Defined.

Record RelaySessionEnvelope := {
  RelaySessionEnvelope_recipient_device_id : bytes;
  RelaySessionEnvelope_opaque_envelope : bytes
}.
#[export] Instance RelaySessionEnvelope_eq_dec : EqDecision RelaySessionEnvelope.
Proof. solve_decision. Defined.

Record RoutedSessionEnvelope := {
  RoutedSessionEnvelope_sender_device_id : bytes;
  RoutedSessionEnvelope_opaque_envelope : bytes
}.
#[export] Instance RoutedSessionEnvelope_eq_dec : EqDecision RoutedSessionEnvelope.
Proof. solve_decision. Defined.

Inductive SignalingClientFrame_Payload :=
| SignalingClientFrame_Payload_Register (value : RegisterDevice)
| SignalingClientFrame_Payload_Heartbeat (value : Heartbeat)
| SignalingClientFrame_Payload_PresenceQuery (value : PresenceQuery)
| SignalingClientFrame_Payload_CreateRendezvous (value : CreatePairingRendezvous)
| SignalingClientFrame_Payload_JoinRendezvous (value : JoinPairingRendezvous)
| SignalingClientFrame_Payload_RelayPairing (value : RelayPairingEnvelope)
| SignalingClientFrame_Payload_CompleteRendezvous (value : CompletePairingRendezvous)
| SignalingClientFrame_Payload_RelaySession (value : RelaySessionEnvelope).
#[export] Instance SignalingClientFrame_Payload_eq_dec : EqDecision SignalingClientFrame_Payload.
Proof. solve_decision. Defined.

Record SignalingClientFrame := {
  SignalingClientFrame_protocol_version : option ProtocolVersion;
  SignalingClientFrame_request_id : text;
  SignalingClientFrame_payload : option SignalingClientFrame_Payload
}.
#[export] Instance SignalingClientFrame_eq_dec : EqDecision SignalingClientFrame.
Proof. solve_decision. Defined.

Inductive SignalingServerFrame_Payload :=
| SignalingServerFrame_Payload_Registered (value : RegistrationAccepted)
| SignalingServerFrame_Payload_HeartbeatAcknowledged (value : HeartbeatAcknowledged)
| SignalingServerFrame_Payload_PresenceResult (value : PresenceResult)
| SignalingServerFrame_Payload_RendezvousCreated (value : PairingRendezvousCreated)
| SignalingServerFrame_Payload_RendezvousJoined (value : PairingRendezvousJoined)
| SignalingServerFrame_Payload_RoutedPairing (value : RoutedPairingEnvelope)
| SignalingServerFrame_Payload_RendezvousClosed (value : PairingRendezvousClosed)
| SignalingServerFrame_Payload_RoutedSession (value : RoutedSessionEnvelope)
| SignalingServerFrame_Payload_Error (value : UnifiedError).
#[export] Instance SignalingServerFrame_Payload_eq_dec : EqDecision SignalingServerFrame_Payload.
Proof. solve_decision. Defined.

Record SignalingServerFrame := {
  SignalingServerFrame_protocol_version : option ProtocolVersion;
  SignalingServerFrame_request_id : text;
  SignalingServerFrame_payload : option SignalingServerFrame_Payload
}.
#[export] Instance SignalingServerFrame_eq_dec : EqDecision SignalingServerFrame.
Proof. solve_decision. Defined.

