(* ===== verification/Lease.v ===== *)
(** The ephemeral lease of the privileged bridge, crates/privileged-bridge/src/lease.rs.

    [LeaseManager] is the broker's record of the one connected Host and of the one active
    lease; the methods below are the whole public interface that changes it.  The random
    lease identifiers come from the trait [LeaseIdSource]. *)
From S2P Require Import Prelude.

Local Open Scope Z_scope.

(** * Data *)

Definition RENEW_INTERVAL_MS : Z := 5000.
Definition LEASE_DURATION_MS : Z := 15000.
Definition MAX_CONTROLLER_NAME_BYTES : Z := 128.

(** [LeaseId] and [SessionId] wrap a [[u8; 16]]. *)
Abbreviation LeaseId := bytes.
Abbreviation SessionId := bytes.

Record AcquireLease := {
  al_session_id : SessionId;
  al_generation : Z;
  al_controller_display_name : text;
  al_may_control_input : bool
}.

Record Lease := {
  lease_id : LeaseId;
  lease_session_id : SessionId;
  lease_generation : Z;
  issued_at_ms : Z;
  expires_at_ms : Z;
  last_renewed_at_ms : Z;
  last_command_sequence : Z;
  lease_controller_display_name : text;
  may_control_input : bool
}.

Inductive LeaseError :=
| HostDisconnected | HostAlreadyConnected | LeaseAlreadyActive | LeaseNotActive
| LeaseExpired | LE_StaleGeneration | LeaseIdMismatch | InvalidLeaseId
| RandomUnavailable | RenewedTooSoon | InvalidSequence | LE_InvalidControllerName
| TimestampOverflow.

Record LeaseManager := {
  broker_instance_id : bytes;
  host_generation : option Z;
  active : option Lease;
  last_released : option (LeaseId * Z)
}.

#[export] Instance Lease_eq_dec : EqDecision Lease.
Proof. solve_decision. Defined.
#[export] Instance LeaseError_eq_dec : EqDecision LeaseError.
Proof. solve_decision. Defined.
#[export] Instance LeaseManager_eq_dec : EqDecision LeaseManager.
Proof. solve_decision. Defined.

Class LeaseIdSource (Ids : Type) := {
  next_lease_id : M Ids LeaseError LeaseId
}.

(** Field updates. *)
Definition set_active (l : option Lease) (s : LeaseManager) : LeaseManager :=
  {| broker_instance_id := broker_instance_id s; host_generation := host_generation s;
     active := l; last_released := last_released s |}.

Definition set_host_generation (g : option Z) (s : LeaseManager) : LeaseManager :=
  {| broker_instance_id := broker_instance_id s; host_generation := g;
     active := active s; last_released := last_released s |}.

Definition set_last_released (r : option (LeaseId * Z)) (s : LeaseManager) : LeaseManager :=
  {| broker_instance_id := broker_instance_id s; host_generation := host_generation s;
     active := active s; last_released := r |}.

Definition set_renewal (renewed expires : Z) (l : Lease) : Lease :=
  {| lease_id := lease_id l; lease_session_id := lease_session_id l;
     lease_generation := lease_generation l; issued_at_ms := issued_at_ms l;
     expires_at_ms := expires; last_renewed_at_ms := renewed;
     last_command_sequence := last_command_sequence l;
     lease_controller_display_name := lease_controller_display_name l;
     may_control_input := may_control_input l |}.

Definition set_command_sequence (n : Z) (l : Lease) : Lease :=
  {| lease_id := lease_id l; lease_session_id := lease_session_id l;
     lease_generation := lease_generation l; issued_at_ms := issued_at_ms l;
     expires_at_ms := expires_at_ms l; last_renewed_at_ms := last_renewed_at_ms l;
     last_command_sequence := n;
     lease_controller_display_name := lease_controller_display_name l;
     may_control_input := may_control_input l |}.

(** * Operations *)

Definition validate_active_ref (lease : Lease) (id : LeaseId) (generation : Z)
    : result LeaseError unit :=
  if negb (generation =? lease_generation lease) then Err LE_StaleGeneration
  else if negb (bool_decide (id = lease_id lease)) then Err LeaseIdMismatch
  else Ok ().

Definition validate_controller_name (value : text) : result LeaseError unit :=
  if bool_decide (value = []) || (MAX_CONTROLLER_NAME_BYTES <? text_len value)
     || existsb is_control value
  then Err LE_InvalidControllerName
  else Ok ().

Definition LeaseManager_new (instance_id : bytes) : LeaseManager :=
  {| broker_instance_id := instance_id; host_generation := None; active := None;
     last_released := None |}.

Definition freeze_active : M LeaseManager LeaseError bool :=
  self ← get;
  match active self with
  | None => mret false
  | Some lease =>
      put (set_last_released (Some (lease_id lease, lease_generation lease))
             (set_active None self));;
      mret true
  end.

Definition LeaseManager_connect_host (generation : Z) : M LeaseManager LeaseError unit :=
  self ← get;
  fail_if (is_some (host_generation self)) HostAlreadyConnected;;
  fail_if (generation =? 0) LE_StaleGeneration;;
  put (set_host_generation (Some generation) self).

Definition LeaseManager_disconnect_host : M LeaseManager LeaseError bool :=
  modify (set_host_generation None);;
  freeze_active.

Section ids.
Context {Ids : Type} `{LeaseIdSource Ids}.

Definition LeaseManager_acquire (request : AcquireLease) (now_ms : Z)
    : M (LeaseManager * Ids) LeaseError Lease :=
  self ← gets fst;
  generation ← ok_or (host_generation self) HostDisconnected;
  fail_if (is_some (active self)) LeaseAlreadyActive;;
  fail_if (negb (al_generation request =? generation)) LE_StaleGeneration;;
  lift (validate_controller_name (al_controller_display_name request));;
  id ← zoom snd (λ i s, (s.1, i)) next_lease_id;
  fail_if (bool_decide (id = replicate 16 x00)) InvalidLeaseId;;
  expires ← ok_or (checked_add U64_MAX now_ms LEASE_DURATION_MS) TimestampOverflow;
  let lease :=
    {| lease_id := id; lease_session_id := al_session_id request;
       lease_generation := al_generation request; issued_at_ms := now_ms;
       expires_at_ms := expires; last_renewed_at_ms := now_ms;
       last_command_sequence := 0;
       lease_controller_display_name := al_controller_display_name request;
       may_control_input := al_may_control_input request |} in
  modify (λ s, (set_last_released None (set_active (Some lease) s.1), s.2));;
  mret lease.
End ids.

Definition LeaseManager_renew (id : LeaseId) (generation now_ms : Z)
    : M LeaseManager LeaseError Lease :=
  self ← get;
  lease ← ok_or (active self) LeaseNotActive;
  lift (validate_active_ref lease id generation);;
  if expires_at_ms lease <=? now_ms then freeze_active;; mthrow LeaseExpired else
  next_renewal ← ok_or (checked_add U64_MAX (last_renewed_at_ms lease) RENEW_INTERVAL_MS)
                       TimestampOverflow;
  fail_if (now_ms <? next_renewal) RenewedTooSoon;;
  put (set_active (Some (set_renewal now_ms (expires_at_ms lease) lease)) self);;
  expires ← ok_or (checked_add U64_MAX now_ms LEASE_DURATION_MS) TimestampOverflow;
  let lease := set_renewal now_ms expires lease in
  put (set_active (Some lease) self);;
  mret lease.

Definition LeaseManager_authorize_command (id : LeaseId) (generation sequence now_ms : Z)
    : M LeaseManager LeaseError unit :=
  self ← get;
  lease ← ok_or (active self) LeaseNotActive;
  lift (validate_active_ref lease id generation);;
  if expires_at_ms lease <=? now_ms then freeze_active;; mthrow LeaseExpired else
  expected ← ok_or (checked_add U64_MAX (last_command_sequence lease) 1) InvalidSequence;
  fail_if (negb (sequence =? expected)) InvalidSequence;;
  put (set_active (Some (set_command_sequence sequence lease)) self).

Definition LeaseManager_release_or_close (id : LeaseId) (generation : Z)
    : M LeaseManager LeaseError bool :=
  self ← get;
  match active self with
  | Some lease =>
      lift (validate_active_ref lease id generation);;
      freeze_active;;
      mret true
  | None =>
      if bool_decide (last_released self = Some (id, generation)) then mret false
      else mthrow LeaseNotActive
  end.

Definition LeaseManager_release := LeaseManager_release_or_close.
Definition LeaseManager_close := LeaseManager_release_or_close.

Definition LeaseManager_expire (now_ms : Z) : M LeaseManager LeaseError (option LeaseId) :=
  self ← get;
  match active self with
  | Some lease =>
      if expires_at_ms lease <=? now_ms then freeze_active;; mret (Some (lease_id lease))
      else mret None
  | None => mret None
  end.

Definition LeaseManager_input_may_be_enabled (self : LeaseManager) : bool :=
  match active self with Some lease => may_control_input lease | None => false end.

(** * Runs of the manager

    One call of a method of the manager, what the caller sees of it, and a run of calls. *)
Inductive LeaseOp :=
| OpConnect (generation : Z)
| OpDisconnect
| OpAcquire (request : AcquireLease) (now_ms : Z)
| OpRenew (id : LeaseId) (generation now_ms : Z)
| OpAuthorize (id : LeaseId) (generation sequence now_ms : Z)
| OpRelease (id : LeaseId) (generation : Z)
| OpClose (id : LeaseId) (generation : Z)
| OpExpire (now_ms : Z).

Inductive LeaseEvent :=
| EvAcquired (lease : Lease)
| EvRenewed (lease : Lease)
| EvAuthorized (sequence : Z)
| EvOther.

Section runs.
Context {Ids : Type} `{LeaseIdSource Ids}.

(** The manager together with its identifier source. *)
Definition on_manager {A} (ev : A → LeaseEvent) (m : M LeaseManager LeaseError A)
    (s : LeaseManager * Ids) : LeaseEvent * (LeaseManager * Ids) :=
  let '(r, s') := m s.1 in
  (match r with Ok a => ev a | Err _ => EvOther end, (s', s.2)).

Definition lease_exec (op : LeaseOp) (s : LeaseManager * Ids)
    : LeaseEvent * (LeaseManager * Ids) :=
  match op with
  | OpConnect g => on_manager (λ _, EvOther) (LeaseManager_connect_host g) s
  | OpDisconnect => on_manager (λ _, EvOther) LeaseManager_disconnect_host s
  | OpAcquire request now =>
      let '(r, s') := LeaseManager_acquire request now s in
      (match r with Ok l => EvAcquired l | Err _ => EvOther end, s')
  | OpRenew id g now => on_manager EvRenewed (LeaseManager_renew id g now) s
  | OpAuthorize id g n now =>
      on_manager (λ _, EvAuthorized n) (LeaseManager_authorize_command id g n now) s
  | OpRelease id g => on_manager (λ _, EvOther) (LeaseManager_release id g) s
  | OpClose id g => on_manager (λ _, EvOther) (LeaseManager_close id g) s
  | OpExpire now => on_manager (λ _, EvOther) (LeaseManager_expire now) s
  end.

Fixpoint lease_run (ops : list LeaseOp) (s : LeaseManager * Ids)
    : list LeaseEvent * (LeaseManager * Ids) :=
  match ops with
  | [] => ([], s)
  | op :: ops' =>
      let '(ev, s') := lease_exec op s in
      let '(evs, s'') := lease_run ops' s' in
      (ev :: evs, s'')
  end.
End runs.

(** The command sequences authorized since the latest acquisition. *)
Definition accept_event (acc : list Z) (ev : LeaseEvent) : list Z :=
  match ev with
  | EvAcquired _ => []
  | EvAuthorized n => acc ++ [n]
  | _ => acc
  end.

Definition accepted_since_acquire (evs : list LeaseEvent) : list Z :=
  foldl accept_event [] evs.

Definition is_acquire (op : LeaseOp) : bool :=
  match op with OpAcquire _ _ => true | _ => false end.

Definition grants_authority (ev : LeaseEvent) : bool :=
  match ev with EvRenewed _ | EvAuthorized _ | EvAcquired _ => true | EvOther => false end.

(** Well-formedness of a lease and of the manager. *)
Record Lease_wf (l : Lease) : Prop := {
  wf_id : lease_id l ≠ replicate 16 x00;
  wf_name : validate_controller_name (lease_controller_display_name l) = Ok ();
  wf_issued : issued_at_ms l <= last_renewed_at_ms l;
  wf_live : last_renewed_at_ms l < expires_at_ms l;
  wf_bound : expires_at_ms l <= last_renewed_at_ms l + LEASE_DURATION_MS;
  wf_u64 : expires_at_ms l <= U64_MAX;
  wf_sequence : 0 <= last_command_sequence l <= U64_MAX
}.

Record LeaseManager_wf (s : LeaseManager) : Prop := {
  wf_host : host_generation s ≠ Some 0;
  wf_active : ∀ l, active s = Some l →
    Lease_wf l ∧ host_generation s = Some (lease_generation l) ∧ last_released s = None
}.

(** * Lemmas *)

Lemma LeaseManager_new_wf id : LeaseManager_wf (LeaseManager_new id).
Proof. by split. Qed.

Lemma freeze_active_spec s :
  freeze_active s =
  (Ok (is_some (active s)),
   match active s with
   | Some l => set_last_released (Some (lease_id l, lease_generation l)) (set_active None s)
   | None => s
   end).
Proof. unfold freeze_active. unmonad. by destruct (active s). Qed.

Lemma freeze_active_inactive s r s' : freeze_active s = (r, s') → active s' = None.
Proof. rewrite freeze_active_spec. intros [= <- <-]. by destruct (active s) eqn:?. Qed.

Lemma freeze_active_wf s r s' :
  freeze_active s = (r, s') → LeaseManager_wf s → LeaseManager_wf s'.
Proof.
  intros Hf Hwf. pose proof (freeze_active_inactive _ _ _ Hf).
  rewrite freeze_active_spec in Hf. simplify_eq.
  split; [|naive_solver]. destruct Hwf. by destruct (active s).
Qed.

#[export] Hint Resolve freeze_active_inactive freeze_active_wf : rust.

Lemma connect_host_wf g s r s' :
  LeaseManager_connect_host g s = (r, s') → LeaseManager_wf s → LeaseManager_wf s'.
Proof.
  unfold LeaseManager_connect_host. intros Hr Hwf. run Hr. destruct Hwf as [Hh Ha].
  split; simpl; [naive_solver|]. intros l Hl. destruct (Ha l Hl) as (?&?&?). congruence.
Qed.

Lemma disconnect_host_inactive s r s' :
  LeaseManager_disconnect_host s = (r, s') → active s' = None.
Proof.
  unfold LeaseManager_disconnect_host. unmonad. apply freeze_active_inactive.
Qed.

Lemma disconnect_host_wf s r s' :
  LeaseManager_disconnect_host s = (r, s') → LeaseManager_wf s → LeaseManager_wf s'.
Proof.
  intros Hr Hwf. pose proof (disconnect_host_inactive _ _ _ Hr).
  split; [|naive_solver]. unfold LeaseManager_disconnect_host in Hr. unmonad.
  rewrite freeze_active_spec in Hr. simplify_eq/=. by destruct (active s).
Qed.

(** The branches of [LeaseManager_acquire] that change the manager. *)
Lemma acquire_inv `{LeaseIdSource Ids} request now s ids r s' ids' :
  LeaseManager_acquire request now (s, ids) = (r, (s', ids')) →
  (∃ l, r = Ok l ∧ active s = None ∧ host_generation s = Some (al_generation request) ∧
     s' = set_last_released None (set_active (Some l) s) ∧
     lease_id l ≠ replicate 16 x00 ∧
     validate_controller_name (al_controller_display_name request) = Ok () ∧
     l = {| lease_id := lease_id l; lease_session_id := al_session_id request;
            lease_generation := al_generation request; issued_at_ms := now;
            expires_at_ms := now + LEASE_DURATION_MS; last_renewed_at_ms := now;
            last_command_sequence := 0;
            lease_controller_display_name := al_controller_display_name request;
            may_control_input := al_may_control_input request |} ∧
     now + LEASE_DURATION_MS <= U64_MAX) ∨
  (∃ e, r = Err e ∧ s' = s).
Proof.
  unfold LeaseManager_acquire. intros Hr. run Hr; try solve [right; eexists; split; reflexivity].
  left. eexists. repeat split; eauto; simpl; try congruence.
Qed.

Lemma acquire_wf `{LeaseIdSource Ids} request now s ids r s' ids' :
  LeaseManager_acquire request now (s, ids) = (r, (s', ids')) →
  LeaseManager_wf s → LeaseManager_wf s'.
Proof.
  intros Hr Hwf. apply acquire_inv in Hr as [(l&->&Ha&Hg&->&?&?&Hl&?)|(e&->&->)]; [|done].
  destruct Hwf as [Hh _]. split; simpl; [done|]. intros ? [= <-].
  rewrite Hl. unfold LEASE_DURATION_MS, U64_MAX in *. split_and!; [|done..].
  split; simpl; try done; lia.
Qed.

Lemma validate_active_ref_Ok l id g :
  validate_active_ref l id g = Ok () ↔ g = lease_generation l ∧ id = lease_id l.
Proof.
  unfold validate_active_ref.
  destruct (g =? lease_generation l) eqn:Hg; simpl; boolsimpl; [|naive_solver].
  destruct (bool_decide (id = lease_id l)) eqn:Hid; simpl; boolsimpl; naive_solver.
Qed.

(** After [run], what is left of the two helpers of every lease method. *)
Ltac lease_branches :=
  repeat match goal with
  | H : validate_active_ref _ _ _ = Ok _ |- _ => apply validate_active_ref_Ok in H as [-> ->]
  | H : freeze_active ?s = _, H' : active ?s = _ |- _ =>
      rewrite freeze_active_spec, H' in H; simplify_eq/=
  end.

(** The branches of [LeaseManager_renew]. *)
Lemma renew_inv id g now s r s' :
  LeaseManager_renew id g now s = (r, s') →
  (∃ l, active s = Some l ∧ id = lease_id l ∧ g = lease_generation l ∧
     now < expires_at_ms l ∧ last_renewed_at_ms l + RENEW_INTERVAL_MS <= now ∧
     let l' := set_renewal now (now + LEASE_DURATION_MS) l in
     (now + LEASE_DURATION_MS <= U64_MAX ∧ r = Ok l' ∧ s' = set_active (Some l') s ∨
      U64_MAX < now + LEASE_DURATION_MS ∧ r = Err TimestampOverflow ∧
      s' = set_active (Some (set_renewal now (expires_at_ms l) l)) s)) ∨
  (∃ e, r = Err e ∧ (s' = s ∨ e = LeaseExpired ∧ (freeze_active s).2 = s')).
Proof.
  unfold LeaseManager_renew. rewrite freeze_active_spec. intros Hr.
  run Hr; lease_branches;
    first [right; eexists; split; [reflexivity|]; by auto
          |left; eexists; split_and!; try done; first [lia | by auto]].
Qed.

(** The branches of [LeaseManager_authorize_command]. *)
Lemma authorize_inv id g n now s r s' :
  LeaseManager_authorize_command id g n now s = (r, s') →
  (∃ l, r = Ok () ∧ active s = Some l ∧ id = lease_id l ∧ g = lease_generation l ∧
     now < expires_at_ms l ∧ n = last_command_sequence l + 1 ∧ n <= U64_MAX ∧
     s' = set_active (Some (set_command_sequence n l)) s) ∨
  (∃ e, r = Err e ∧ (s' = s ∨ e = LeaseExpired ∧ (freeze_active s).2 = s')).
Proof.
  unfold LeaseManager_authorize_command. rewrite freeze_active_spec. intros Hr.
  run Hr; lease_branches;
    first [right; eexists; split; [reflexivity|]; by auto
          |left; eexists; split_and!; try done; first [lia | by auto]].
Qed.

(** The branches of [LeaseManager_release] and [LeaseManager_close]. *)
Lemma release_inv id g s r s' :
  LeaseManager_release_or_close id g s = (r, s') →
  (∃ l, r = Ok true ∧ active s = Some l ∧ id = lease_id l ∧ g = lease_generation l ∧
     s' = set_last_released (Some (id, g)) (set_active None s)) ∨
  (r = Ok false ∧ active s = None ∧ last_released s = Some (id, g) ∧ s' = s) ∨
  (∃ e, r = Err e ∧ s' = s).
Proof.
  unfold LeaseManager_release_or_close. intros Hr.
  run Hr; lease_branches; naive_solver.
Qed.

Lemma release_wf id g s r s' :
  LeaseManager_release_or_close id g s = (r, s') → LeaseManager_wf s → LeaseManager_wf s'.
Proof.
  intros [(l&->&Ha&->&->&->)|[(->&_&_&->)|(e&->&->)]]%release_inv [Hh Hw]; by split.
Qed.

Lemma release_matching_inactive id g s r s' :
  (∀ l, active s = Some l → id = lease_id l ∧ g = lease_generation l) →
  LeaseManager_release_or_close id g s = (r, s') → active s' = None.
Proof.
  intros Hm Hr. destruct (active s) as [l|] eqn:Hl.
  - destruct (Hm l eq_refl) as [-> ->].
    unfold LeaseManager_release_or_close, validate_active_ref in Hr. unmonad.
    rewrite Hl, Z.eqb_refl, bool_decide_eq_true_2, freeze_active_spec, Hl in Hr by done.
    by simplify_eq/=.
  - apply release_inv in Hr as [(?&_&?&_)|[(_&_&_&->)|(_&_&->)]]; congruence.
Qed.

Lemma expire_inv now s r s' :
  LeaseManager_expire now s = (r, s') →
  (∃ l, r = Ok (Some (lease_id l)) ∧ active s = Some l ∧ expires_at_ms l <= now ∧
     (freeze_active s).2 = s') ∨
  (r = Ok None ∧ s' = s ∧ ∀ l, active s = Some l → now < expires_at_ms l).
Proof.
  unfold LeaseManager_expire. rewrite freeze_active_spec. intros Hr.
  run Hr; lease_branches; naive_solver.
Qed.

Lemma freeze_snd_wf s s' : (freeze_active s).2 = s' → LeaseManager_wf s → LeaseManager_wf s'.
Proof. destruct (freeze_active s) as [r ?] eqn:Hf. intros <-. eauto with rust. Qed.

Lemma freeze_snd_inactive s s' : (freeze_active s).2 = s' → active s' = None.
Proof. destruct (freeze_active s) as [r ?] eqn:Hf. intros <-. eauto with rust. Qed.

#[export] Hint Resolve connect_host_wf disconnect_host_wf disconnect_host_inactive
  acquire_wf release_wf freeze_snd_wf freeze_snd_inactive : rust.

Lemma renew_wf id g now s r s' :
  LeaseManager_renew id g now s = (r, s') → LeaseManager_wf s → LeaseManager_wf s'.
Proof.
  intros [(l&Ha&->&->&?&?&Hcase)|(e&_&[->|[_ ?]])]%renew_inv Hwf; [|done|eauto with rust].
  destruct Hwf as [Hh Hw]. destruct (Hw l Ha) as ([]&?&?).
  destruct Hcase as [(?&_&->)|(?&_&->)]; split; simpl; try done; intros ? [= <-]; simpl;
    (split_and!; [|done..]); split; simpl; unfold RENEW_INTERVAL_MS, LEASE_DURATION_MS in *;
    done || lia.
Qed.

Lemma authorize_wf id g n now s r s' :
  LeaseManager_authorize_command id g n now s = (r, s') → LeaseManager_wf s → LeaseManager_wf s'.
Proof.
  intros [(l&->&Ha&->&->&?&->&?&->)|(e&_&[->|[_ ?]])]%authorize_inv Hwf;
    [|done|eauto with rust].
  destruct Hwf as [Hh Hw]. destruct (Hw l Ha) as ([]&?&?).
  split; simpl; [done|]. intros ? [= <-]; simpl.
  split_and!; [|done..]; split; simpl; done || lia.
Qed.

#[export] Hint Resolve renew_wf authorize_wf : rust.

Section run_lemmas.
Context {Ids : Type} `{LeaseIdSource Ids}.

Lemma on_manager_wf {A} (ev : A → LeaseEvent) m (s : LeaseManager * Ids) e s' :
  (∀ r t', m s.1 = (r, t') → LeaseManager_wf s.1 → LeaseManager_wf t') →
  on_manager ev m s = (e, s') → LeaseManager_wf s.1 → LeaseManager_wf s'.1.
Proof. unfold on_manager. destruct (m s.1). naive_solver. Qed.

Lemma lease_exec_wf op (s : LeaseManager * Ids) ev s' :
  lease_exec op s = (ev, s') → LeaseManager_wf s.1 → LeaseManager_wf s'.1.
Proof.
  destruct op; simpl; try (apply on_manager_wf; intros; eauto with rust; fail).
  - destruct s as [t i], (LeaseManager_acquire _ _ _) as [r [t' i']] eqn:Ha.
    intros [= <- <-]. eauto with rust.
  - apply on_manager_wf. intros r t' [(?&?&?&?&?)|(?&->&?)]%expire_inv; eauto with rust.
Qed.

Lemma lease_run_wf ops (s : LeaseManager * Ids) evs s' :
  lease_run ops s = (evs, s') → LeaseManager_wf s.1 → LeaseManager_wf s'.1.
Proof.
  revert s evs. induction ops as [|op ops IH]; intros s evs; simpl; [naive_solver|].
  destruct (lease_exec op s) as [ev s1] eqn:He, (lease_run ops s1) as [evs' s2] eqn:Hrun.
  intros [= <- <-] ?. eauto using lease_exec_wf.
Qed.

(** The ghost log of the sequences agrees with the counter of the active lease. *)
Definition log_inv (log : list Z) (s : LeaseManager) : Prop :=
  log = seqZ 1 (len log) ∧ ∀ l, active s = Some l → last_command_sequence l = len log.

Lemma log_inv_keep log s s' :
  (∀ l, active s' = Some l → ∃ l0, active s = Some l0 ∧
     last_command_sequence l = last_command_sequence l0) →
  log_inv log s → log_inv log s'.
Proof. intros Hk [? Hc]. split; [done|]. intros l Hl. destruct (Hk l Hl) as (?&?&->); eauto. Qed.

Lemma seqZ_snoc n : 0 <= n → seqZ 1 n ++ [n + 1] = seqZ 1 (n + 1).
Proof. intros. rewrite seqZ_app by lia. by rewrite (Z.add_comm 1). Qed.

Lemma log_inv_snoc log s l :
  active s = Some l → log_inv log s →
  log_inv (log ++ [last_command_sequence l + 1])
    (set_active (Some (set_command_sequence (last_command_sequence l + 1) l)) s).
Proof.
  intros Ha [Hlog Hc]. rewrite (Hc l Ha). unfold log_inv.
  rewrite len_app. change (len [len log + 1]) with 1. split.
  - rewrite Hlog at 1. apply seqZ_snoc, len_nonneg.
  - intros ? [= <-]. done.
Qed.
End run_lemmas.

Section properties.
Context {Ids : Type} `{LeaseIdSource Ids}.

Lemma lease_exec_log op (s : LeaseManager * Ids) ev s' log :
  lease_exec op s = (ev, s') → log_inv log s.1 → log_inv (accept_event log ev) s'.1.
Proof.
  destruct s as [t i]. destruct op; simpl; unfold on_manager; simpl; intros Hex Hlog.
  - destruct (LeaseManager_connect_host _ _) as [r t'] eqn:Hr. simplify_eq.
    destruct r; simpl; unfold LeaseManager_connect_host in Hr; run Hr;
      (eapply log_inv_keep; [|done]); simpl; eauto.
  - destruct (LeaseManager_disconnect_host _) as [r t'] eqn:Hr. simplify_eq.
    apply disconnect_host_inactive in Hr.
    destruct r; simpl; (eapply log_inv_keep; [|done]); intros; congruence.
  - destruct (LeaseManager_acquire _ _ _) as [r [t' i']] eqn:Hr. simplify_eq.
    apply acquire_inv in Hr as [(l&->&_&_&->&_&_&->&_)|(e&->&->)]; [|done].
    split; [done|]. intros ? [= <-]. done.
  - destruct (LeaseManager_renew _ _ _ _) as [r t'] eqn:Hr. simplify_eq.
    apply renew_inv in Hr as [(l&Ha&_&_&_&_&[(_&->&->)|(_&->&->)])|(e&->&[->|[_ Hf]])];
      simpl; try done; (eapply log_inv_keep; [|done]); simpl; [naive_solver..|].
    apply freeze_snd_inactive in Hf. congruence.
  - destruct (LeaseManager_authorize_command _ _ _ _ _) as [r t'] eqn:Hr. simplify_eq.
    apply authorize_inv in Hr as [(l&->&Ha&_&_&_&->&_&->)|(e&->&[->|[_ Hf]])];
      simpl; [by apply log_inv_snoc|done|].
    apply freeze_snd_inactive in Hf. eapply log_inv_keep; [|done]. congruence.
  - destruct (LeaseManager_release _ _ _) as [r t'] eqn:Hr. simplify_eq.
    apply release_inv in Hr as [(l&->&_&_&_&->)|[(->&_&_&->)|(e&->&->)]]; try done.
    eapply log_inv_keep; [|done]. done.
  - destruct (LeaseManager_close _ _ _) as [r t'] eqn:Hr. simplify_eq.
    apply release_inv in Hr as [(l&->&_&_&_&->)|[(->&_&_&->)|(e&->&->)]]; try done.
    eapply log_inv_keep; [|done]. done.
  - destruct (LeaseManager_expire _ _) as [r t'] eqn:Hr. simplify_eq.
    apply expire_inv in Hr as [(l&->&_&_&Hf)|(->&->&_)]; simpl; [|done].
    apply freeze_snd_inactive in Hf. eapply log_inv_keep; [|done]. congruence.
Qed.

Lemma lease_run_log ops (s : LeaseManager * Ids) evs s' log :
  lease_run ops s = (evs, s') → log_inv log s.1 →
  log_inv (foldl accept_event log evs) s'.1.
Proof.
  revert s evs log. induction ops as [|op ops IH]; intros s evs log; simpl; [naive_solver|].
  destruct (lease_exec op s) as [ev s1] eqn:He, (lease_run ops s1) as [evs' s2] eqn:Hrun.
  intros [= <- <-] ?. simpl. eauto using lease_exec_log.
Qed.

(** Without an active lease a call other than [acquire] confers nothing. *)
Lemma lease_exec_inactive op (s : LeaseManager * Ids) ev s' :
  lease_exec op s = (ev, s') → active s.1 = None → is_acquire op = false →
  grants_authority ev = false ∧ active s'.1 = None.
Proof.
  destruct s as [t i]. destruct op; simpl; unfold on_manager; simpl; intros Hex Ha Hop; try done.
  - destruct (LeaseManager_connect_host _ _) as [r t'] eqn:Hr. simplify_eq.
    unfold LeaseManager_connect_host in Hr. by run Hr.
  - destruct (LeaseManager_disconnect_host _) as [r t'] eqn:Hr. simplify_eq.
    apply disconnect_host_inactive in Hr. by destruct r.
  - destruct (LeaseManager_renew _ _ _ _) as [r t'] eqn:Hr. simplify_eq.
    apply renew_inv in Hr as [(l&?&_)|(e&->&[->|[_ Hf]])]; eauto using freeze_snd_inactive.
    congruence.
  - destruct (LeaseManager_authorize_command _ _ _ _ _) as [r t'] eqn:Hr. simplify_eq.
    apply authorize_inv in Hr as [(l&_&?&_)|(e&->&[->|[_ Hf]])]; eauto using freeze_snd_inactive.
    congruence.
  - destruct (LeaseManager_release _ _ _) as [r t'] eqn:Hr. simplify_eq.
    apply release_inv in Hr as [(l&->&_&_&_&->)|[(->&_&_&->)|(e&->&->)]]; done.
  - destruct (LeaseManager_close _ _ _) as [r t'] eqn:Hr. simplify_eq.
    apply release_inv in Hr as [(l&->&_&_&_&->)|[(->&_&_&->)|(e&->&->)]]; done.
  - destruct (LeaseManager_expire _ _) as [r t'] eqn:Hr. simplify_eq.
    apply expire_inv in Hr as [(l&->&_&_&Hf)|(->&->&_)]; eauto using freeze_snd_inactive.
Qed.

Lemma lease_run_inactive ops (s : LeaseManager * Ids) evs s' :
  lease_run ops s = (evs, s') → active s.1 = None → Forall (λ op, is_acquire op = false) ops →
  Forall (λ ev, grants_authority ev = false) evs.
Proof.
  revert s evs. induction ops as [|op ops IH]; intros s evs; simpl; [naive_solver|].
  destruct (lease_exec op s) as [ev s1] eqn:He, (lease_run ops s1) as [evs' s2] eqn:Hrun.
  intros [= <- <-] Ha [Hop Hops]%Forall_cons.
  destruct (lease_exec_inactive _ _ _ _ He Ha Hop). constructor; eauto.
Qed.

(** The calls that end the active lease, whatever else they do. *)
Definition ends_lease (op : LeaseOp) (s : LeaseManager) : Prop :=
  match op with
  | OpDisconnect => True
  | OpRelease id g | OpClose id g =>
      ∀ l, active s = Some l → id = lease_id l ∧ g = lease_generation l
  | OpExpire now => ∀ l, active s = Some l → expires_at_ms l <= now
  | _ => False
  end.

Lemma ends_lease_inactive op (s : LeaseManager * Ids) ev s' :
  ends_lease op s.1 → lease_exec op s = (ev, s') → active s'.1 = None.
Proof.
  destruct s as [t i]. destruct op; simpl; unfold on_manager; simpl; intros Hop Hex; try done.
  - destruct (LeaseManager_disconnect_host _) as [r t'] eqn:Hr. simplify_eq.
    by apply disconnect_host_inactive in Hr.
  - destruct (LeaseManager_release _ _ _) as [r t'] eqn:Hr. simplify_eq/=.
    eauto using release_matching_inactive.
  - destruct (LeaseManager_close _ _ _) as [r t'] eqn:Hr. simplify_eq/=.
    eauto using release_matching_inactive.
  - destruct (LeaseManager_expire _ _) as [r t'] eqn:Hr. simplify_eq.
    apply expire_inv in Hr as [(l&->&_&_&Hf)|(->&->&Hl)]; eauto using freeze_snd_inactive.
    simpl. destruct (active t) as [l|]; [|done].
    specialize (Hop l eq_refl). specialize (Hl l eq_refl). lia.
Qed.
End properties.

(** * Theorems *)

(** In every run of calls from a fresh manager, with any clock values: a Host
    generation is never zero, and an active lease belongs to the connected Host, carries a
    nonzero identifier and a valid controller name, was renewed less than one lease duration
    before it expires, and its command counter stays a [u64]. *)
Theorem LeaseManager_reachable_wf `{LeaseIdSource Ids} (instance_id : bytes)
    (ids : Ids) (ops : list LeaseOp) :
  LeaseManager_wf (lease_run ops (LeaseManager_new instance_id, ids)).2.1.
Proof.
  destruct (lease_run _ _) as [evs s'] eqn:Hr.
  eapply lease_run_wf; [exact Hr|]. apply LeaseManager_new_wf.
Qed.

(** A command is authorized exactly when its lease is the active one (same identifier,
    same generation), the lease has not expired and the sequence is the next one; the only
    effect is to advance the counter. *)
Theorem authorize_command_exact (s s' : LeaseManager) (id : LeaseId) (g n now : Z) :
  LeaseManager_authorize_command id g n now s = (Ok (), s') ↔
  ∃ l, active s = Some l ∧ id = lease_id l ∧ g = lease_generation l ∧
    now < expires_at_ms l ∧ n = last_command_sequence l + 1 ∧ n <= U64_MAX ∧
    s' = set_active (Some (set_command_sequence n l)) s.
Proof.
  split.
  - intros [(l&_&?)|(?&?&_)]%authorize_inv; naive_solver.
  - intros (l&Ha&->&->&Hnow&->&Hmax&->).
    unfold LeaseManager_authorize_command, validate_active_ref. unmonad.
    rewrite Ha, Z.eqb_refl, bool_decide_eq_true_2 by done. simpl.
    rewrite (proj2 (Z.leb_gt _ _) Hnow), (proj2 (Z.leb_le _ _) Hmax), Z.eqb_refl. done.
Qed.

(** Whatever calls are made, the command sequences authorized since the latest
    acquisition are exactly 1, 2, 3, ...: none is skipped, repeated or reordered. *)
Theorem lease_commands_gapless `{LeaseIdSource Ids} (instance_id : bytes)
    (ids : Ids) (ops : list LeaseOp) :
  let log := accepted_since_acquire (lease_run ops (LeaseManager_new instance_id, ids)).1 in
  log = seqZ 1 (len log).
Proof.
  destruct (lease_run _ _) as [evs s'] eqn:Hr. simpl.
  eapply (lease_run_log _ _ _ _ []) in Hr; [by destruct Hr|].
  split; [done|]. simpl. congruence.
Qed.

(** Fail closed: once the Host disconnects, the lease is released or closed by its
    holder, or it expires, no later call renews it or authorizes a command until a new lease
    is acquired. *)
Theorem lease_fail_closed `{LeaseIdSource Ids} (s : LeaseManager * Ids)
    (op : LeaseOp) (ops : list LeaseOp) :
  ends_lease op s.1 → Forall (λ o, is_acquire o = false) ops →
  Forall (λ ev, grants_authority ev = false) (lease_run ops (lease_exec op s).2).1.
Proof.
  intros Hend Hops. destruct (lease_exec op s) as [ev s1] eqn:Hex. simpl.
  destruct (lease_run ops s1) as [evs s2] eqn:Hr. simpl.
  eapply lease_run_inactive; eauto using ends_lease_inactive.
Qed.

(** A concrete identifier source and a run that reaches a controlled lease. *)
#[export] Instance counter_ids : LeaseIdSource Z := {
  next_lease_id := λ n, (Ok (be_bytes 16 (n + 1)), n + 1)
}.

Definition example_request : AcquireLease :=
  {| al_session_id := be_bytes 16 7; al_generation := 3;
     al_controller_display_name := lit "phone"; al_may_control_input := true |}.

Definition example_controlled : LeaseManager * Z :=
  (lease_run [OpConnect 3; OpAcquire example_request 1000;
              OpAuthorize (be_bytes 16 1) 3 1 1500]
     (LeaseManager_new (be_bytes 16 9), 0)).2.

Lemma lease_fail_closed_witness :
  Forall (λ ev, grants_authority ev = false)
    (lease_run [OpRenew (be_bytes 16 1) 3 7000; OpAuthorize (be_bytes 16 1) 3 2 7001]
       (lease_exec (OpRelease (be_bytes 16 1) 3) example_controlled).2).1.
Proof.
  apply lease_fail_closed.
  - intros l Hl. vm_compute in Hl. injection Hl as <-. split; reflexivity.
  - repeat constructor.
Defined.
