(* ===== verification/Route.v ===== *)
(** The graphical-session route of the broker, crates/privileged-bridge/src/session.rs.

    [SessionStateMachine] follows the operating system's session: it accepts observations
    with consecutive generations, publishes the current route and orders the effects that
    take input away when the route changes. *)
From S2P Require Import Prelude.

Local Open Scope Z_scope.

(** * Data *)

Inductive Platform := Platform_Windows | Platform_Macos.
Inductive DesktopKind := Normal | LockedLogin | Secure.

Record RouteSession := {
  platform : Platform;
  os_session_id : Z;
  desktop : DesktopKind;
  route_generation : Z
}.

Inductive RouteEvent :=
| SessionAvailable (next : RouteSession)
| RouteLost (generation : Z)
| HelperCrashed (generation : Z)
| BrokerRestarted (generation : Z)
| RE_HostDisconnected (generation : Z)
| LoggedOut (generation : Z).

Inductive SessionAction :=
| FreezeInput | ReleaseAllInput | PeerDisconnected | ClearRoute
| PublishRoute (route : RouteSession).

Inductive SessionError :=
| SE_StaleGeneration | GenerationGap | ConflictingDuplicate | UnexpectedOsSession
| RouteUnavailable.

Record SessionStateMachine := {
  generation : Z;
  current : option RouteSession;
  controlled_lease : bool;
  input_enabled : bool
}.

#[export] Instance Platform_eq_dec : EqDecision Platform.
Proof. solve_decision. Defined.
#[export] Instance DesktopKind_eq_dec : EqDecision DesktopKind.
Proof. solve_decision. Defined.
#[export] Instance RouteSession_eq_dec : EqDecision RouteSession.
Proof. solve_decision. Defined.
#[export] Instance SessionAction_eq_dec : EqDecision SessionAction.
Proof. solve_decision. Defined.
#[export] Instance SessionError_eq_dec : EqDecision SessionError.
Proof. solve_decision. Defined.

Definition set_route (g : Z) (r : option RouteSession) (s : SessionStateMachine)
    : SessionStateMachine :=
  {| generation := g; current := r; controlled_lease := controlled_lease s;
     input_enabled := input_enabled s |}.

Definition set_control (c i : bool) (s : SessionStateMachine) : SessionStateMachine :=
  {| generation := generation s; current := current s; controlled_lease := c;
     input_enabled := i |}.

(** * Operations *)

Definition SessionStateMachine_new : SessionStateMachine :=
  {| generation := 0; current := None; controlled_lease := false; input_enabled := false |}.

Definition freeze_actions (clear_route : bool)
    : M SessionStateMachine SessionError (list SessionAction) :=
  self ← get;
  let frozen := if controlled_lease self || input_enabled self
                then [FreezeInput; ReleaseAllInput; PeerDisconnected] else [] in
  put (set_control false false self);;
  mret (frozen ++ (if clear_route && is_some (current self) then [ClearRoute] else [])).

Definition apply_available (next : RouteSession)
    : M SessionStateMachine SessionError (list SessionAction) :=
  self ← get;
  fail_if (os_session_id next =? 0) UnexpectedOsSession;;
  fail_if (route_generation next <? generation self) SE_StaleGeneration;;
  if route_generation next =? generation self then
    if bool_decide (current self = Some next) then mret [] else mthrow ConflictingDuplicate
  else
  fail_if (negb (generation self =? 0) && negb (route_generation next =? generation self + 1))
          GenerationGap;;
  fail_if (match current self with
           | Some cur => negb (os_session_id next =? os_session_id cur)
           | None => false
           end) UnexpectedOsSession;;
  actions ← freeze_actions false;
  modify (set_route (route_generation next) (Some next));;
  mret (actions ++ [PublishRoute next]).

Definition apply_unavailable (g : Z)
    : M SessionStateMachine SessionError (list SessionAction) :=
  self ← get;
  fail_if (g <? generation self) SE_StaleGeneration;;
  if g =? generation self then
    if is_some (current self) then mthrow ConflictingDuplicate else mret []
  else
  fail_if (negb (generation self =? 0) && negb (g =? generation self + 1)) GenerationGap;;
  actions ← freeze_actions true;
  modify (set_route g None);;
  mret actions.

Definition SessionStateMachine_apply (event : RouteEvent)
    : M SessionStateMachine SessionError (list SessionAction) :=
  match event with
  | SessionAvailable next => apply_available next
  | RouteLost g | HelperCrashed g | BrokerRestarted g | RE_HostDisconnected g | LoggedOut g =>
      apply_unavailable g
  end.

Definition SessionStateMachine_begin_control (g : Z)
    : M SessionStateMachine SessionError unit :=
  self ← get;
  route ← ok_or (current self) RouteUnavailable;
  fail_if (negb (g =? generation self) || negb (g =? route_generation route))
          RouteUnavailable;;
  put (set_control true true self).

(** * Runs

    A run interleaves observations and control requests; its log holds the published
    actions and the control grants in order. *)
Inductive RouteOp :=
| Observe (event : RouteEvent)
| BeginControl (g : Z).

Inductive RouteLog :=
| Acted (action : SessionAction)
| Began (g : Z).

Definition route_exec (op : RouteOp) (s : SessionStateMachine)
    : list RouteLog * SessionStateMachine :=
  match op with
  | Observe event =>
      let '(r, s') := SessionStateMachine_apply event s in
      (match r with Ok actions => Acted <$> actions | Err _ => [] end, s')
  | BeginControl g =>
      let '(r, s') := SessionStateMachine_begin_control g s in
      (match r with Ok _ => [Began g] | Err _ => [] end, s')
  end.

Fixpoint route_run (ops : list RouteOp) (s : SessionStateMachine)
    : list RouteLog * SessionStateMachine :=
  match ops with
  | [] => ([], s)
  | op :: ops' =>
      let '(l, s1) := route_exec op s in
      let '(l', s2) := route_run ops' s1 in (l ++ l', s2)
  end.

(** The protocol a consumer of the log relies on: input is taken away in the order freeze,
    release, disconnect before the route changes, a route is cleared only when one is
    published, and control begins only on the route last published. *)
Inductive Phase := Idle | Controlled | Frozen | Released.

Record Consumer := { seen_route : option RouteSession; phase : Phase }.

Definition consume (v : Consumer) (e : RouteLog) : option Consumer :=
  match e, phase v, seen_route v with
  | Acted FreezeInput, Controlled, r => Some {| seen_route := r; phase := Frozen |}
  | Acted ReleaseAllInput, Frozen, r => Some {| seen_route := r; phase := Released |}
  | Acted PeerDisconnected, Released, r => Some {| seen_route := r; phase := Idle |}
  | Acted ClearRoute, Idle, Some _ => Some {| seen_route := None; phase := Idle |}
  | Acted (PublishRoute r), Idle, _ => Some {| seen_route := Some r; phase := Idle |}
  | Began g, (Idle | Controlled), Some r =>
      if g =? route_generation r then Some {| seen_route := Some r; phase := Controlled |}
      else None
  | _, _, _ => None
  end.

Fixpoint consume_all (v : Consumer) (log : list RouteLog) : option Consumer :=
  match log with
  | [] => Some v
  | e :: log' => match consume v e with Some v' => consume_all v' log' | None => None end
  end.

(** What the machine's state means to the consumer. *)
Definition consumer_of (s : SessionStateMachine) : Consumer :=
  {| seen_route := current s;
     phase := if controlled_lease s then Controlled else Idle |}.

Definition published (e : RouteLog) : list Z :=
  match e with Acted (PublishRoute r) => [route_generation r] | _ => [] end.

(** The generation an observation announces. *)
Definition event_generation (event : RouteEvent) : Z :=
  match event with
  | SessionAvailable next => route_generation next
  | RouteLost g | HelperCrashed g | BrokerRestarted g | RE_HostDisconnected g | LoggedOut g => g
  end.

Definition event_route (event : RouteEvent) : option RouteSession :=
  match event with SessionAvailable next => Some next | _ => None end.

Record SessionStateMachine_wf (s : SessionStateMachine) : Prop := {
  wf_route : ∀ r, current s = Some r →
    route_generation r = generation s ∧ os_session_id r ≠ 0;
  wf_control : controlled_lease s = input_enabled s;
  wf_controlled : controlled_lease s = true → is_Some (current s)
}.

(** * Lemmas *)

Definition frozen_prefix (s : SessionStateMachine) : list SessionAction :=
  if controlled_lease s || input_enabled s
  then [FreezeInput; ReleaseAllInput; PeerDisconnected] else [].

(** What an accepted observation does. *)
Lemma apply_inv event s r s' :
  SessionStateMachine_apply event s = (r, s') →
  (∃ e, r = Err e ∧ s' = s) ∨
  (r = Ok [] ∧ s' = s ∧ event_generation event = generation s ∧
     event_route event = current s) ∨
  (generation s < event_generation event ∧
   (generation s = 0 ∨ event_generation event = generation s + 1) ∧
   s' = set_control false false (set_route (event_generation event) (event_route event) s) ∧
   r = Ok (frozen_prefix s ++
           match event_route event with
           | Some next => [PublishRoute next]
           | None => if is_some (current s) then [ClearRoute] else []
           end) ∧
   ∀ next, event_route event = Some next → os_session_id next ≠ 0 ∧
     ∀ cur, current s = Some cur → os_session_id next = os_session_id cur).
Proof.
  unfold frozen_prefix. destruct s as [gen cur ctl inp]. simpl.
  destruct event as [next|g|g|g|g|g]; simpl; intros Hr.
  1: unfold apply_available, freeze_actions in Hr.
  2-6: unfold apply_unavailable, freeze_actions in Hr.
  all: destruct (ctl || inp) eqn:?.
  all: run Hr; first [by left; eexists | by right; left | idtac].
  all: right; right; split_and!; (done || lia || naive_solver).
Qed.

Lemma begin_control_inv g s r s' :
  SessionStateMachine_begin_control g s = (r, s') →
  (r = Err RouteUnavailable ∧ s' = s) ∨
  (∃ route, r = Ok () ∧ current s = Some route ∧ g = generation s ∧
     g = route_generation route ∧ s' = set_control true true s).
Proof.
  unfold SessionStateMachine_begin_control. intros Hr. run Hr; try (by left).
  right. eexists; split_and!; (done || lia).
Qed.

Lemma consume_all_app v l1 l2 :
  consume_all v (l1 ++ l2) = consume_all v l1 ≫= λ v', consume_all v' l2.
Proof.
  revert v. induction l1 as [|e l1 IH]; intros v; simpl; [done|].
  by destruct (consume v e); simpl.
Qed.

Lemma new_wf : SessionStateMachine_wf SessionStateMachine_new.
Proof. by split. Qed.

Lemma route_exec_wf op s log s' :
  route_exec op s = (log, s') → SessionStateMachine_wf s → SessionStateMachine_wf s'.
Proof.
  intros Hr [Hrt Hc Hcl]. destruct op as [event|g]; simpl in Hr.
  - destruct (SessionStateMachine_apply event s) as [r s1] eqn:Ha. simplify_eq.
    apply apply_inv in Ha as [(e&->&->)|[(->&->&?)|(?&?&->&->&Hos)]]; [by split|by split|].
    split; simpl; try done. intros next Hn. split; [|naive_solver].
    by destruct event; simplify_eq/=.
  - destruct (SessionStateMachine_begin_control g s) as [r s1] eqn:Ha. simplify_eq.
    apply begin_control_inv in Ha as [(->&->)|(rt&->&Hcur&?&?&->)]; [by split|].
    split; simpl; (done || naive_solver).
Qed.

Lemma apply_consumed s event s' actions :
  SessionStateMachine_wf s → SessionStateMachine_apply event s = (Ok actions, s') →
  consume_all (consumer_of s) (Acted <$> actions) = Some (consumer_of s').
Proof.
  intros [Hrt Hc Hcl] Ha.
  apply apply_inv in Ha as [(?&?&?)|[(?&->&?)|(?&?&->&?&Hos)]]; simplify_eq/=; [done|].
  unfold frozen_prefix, consumer_of, set_control, set_route; simpl.
  destruct s as [gen cur ctl inp]; simpl in *. subst.
  destruct inp, (event_route event), cur; simpl; try done.
Qed.

Lemma route_exec_consumed op s log s' :
  SessionStateMachine_wf s → route_exec op s = (log, s') →
  consume_all (consumer_of s) log = Some (consumer_of s').
Proof.
  intros Hwf Hr. destruct op as [event|g]; simpl in Hr.
  - destruct (SessionStateMachine_apply event s) as [[actions|e] s1] eqn:Ha; simplify_eq.
    + by eapply apply_consumed.
    + apply apply_inv in Ha as [(?&?&->)|[(?&?)|(?&?&?&?&?)]]; simplify_eq; done.
  - destruct (SessionStateMachine_begin_control g s) as [r s1] eqn:Ha. simplify_eq.
    apply begin_control_inv in Ha as [(->&->)|(rt&->&Hcur&?&?&->)]; [done|].
    simpl. unfold consumer_of; simpl. rewrite Hcur.
    destruct (controlled_lease s); by rewrite (proj2 (Z.eqb_eq _ _)) by done.
Qed.

Lemma route_run_ind (P : SessionStateMachine → list RouteLog → SessionStateMachine → Prop) :
  (∀ s, SessionStateMachine_wf s → P s [] s) →
  (∀ op s l s1 l' s2, SessionStateMachine_wf s → route_exec op s = (l, s1) →
     P s1 l' s2 → P s (l ++ l') s2) →
  ∀ ops s, SessionStateMachine_wf s → P s (route_run ops s).1 (route_run ops s).2.
Proof.
  intros Hnil Hcons ops. induction ops as [|op ops IH]; intros s Hwf; simpl; [by apply Hnil|].
  destruct (route_exec op s) as [l s1] eqn:He.
  pose proof (IH s1 (route_exec_wf _ _ _ _ He Hwf)) as HI.
  destruct (route_run ops s1) as [l' s2] eqn:Hr. simpl in *. by eapply Hcons.
Qed.

Lemma route_exec_published op s log s' :
  route_exec op s = (log, s') →
  generation s <= generation s' ∧
  (log ≫= published = [] ∨ log ≫= published = [generation s'] ∧ generation s < generation s').
Proof.
  intros Hr. destruct op as [event|g]; simpl in Hr.
  - destruct (SessionStateMachine_apply event s) as [r s1] eqn:Ha. simplify_eq.
    apply apply_inv in Ha as [(e&->&->)|[(->&->&?)|(?&?&->&->&Hos)]]; simpl; try (split; [lia|by left]).
    split; [lia|]. unfold frozen_prefix.
    destruct event as [next|g|g|g|g|g]; simpl in *.
    2-6: left; by destruct (_ || _), (is_some _).
    right. split; [|lia]. by destruct (_ || _).
  - destruct (SessionStateMachine_begin_control g s) as [r s1] eqn:Ha. simplify_eq.
    apply begin_control_inv in Ha as [(->&->)|(rt&->&Hcur&?&?&->)]; simpl; (split; [lia|by left]).
Qed.

(** * Properties *)

(** C27. Refinement of the consumer's protocol: in every run of observations and control
    requests from the initial machine, the emitted log is accepted step by step by the
    protocol (input frozen, then released, then the peer disconnected, before any route is
    cleared or published over a controlled one; control granted only on the published
    route), and the consumer ends with exactly the route and the control flag the machine
    holds. *)
Theorem route_log_refines_protocol (ops : list RouteOp) :
  consume_all {| seen_route := None; phase := Idle |}
    (route_run ops SessionStateMachine_new).1 =
  Some (consumer_of (route_run ops SessionStateMachine_new).2).
Proof.
  change {| seen_route := None; phase := Idle |} with (consumer_of SessionStateMachine_new).
  apply (route_run_ind (λ s log s', consume_all (consumer_of s) log = Some (consumer_of s')));
    [done| |by apply new_wf].
  intros op s l s1 l' s2 Hwf He IH.
  by rewrite consume_all_app, (route_exec_consumed _ _ _ _ Hwf He).
Qed.

(** The generations of the routes published in any run are strictly increasing, so a
    consumer never sees a stale or repeated route. *)
Theorem published_generations_increase (ops : list RouteOp) :
  StronglySorted Z.lt ((route_run ops SessionStateMachine_new).1 ≫= published).
Proof.
  refine (proj1 (route_run_ind (λ s log s', StronglySorted Z.lt (log ≫= published) ∧
           Forall (Z.lt (generation s)) (log ≫= published)) _ _ ops _ new_wf)).
  - by repeat constructor.
  - intros op s l s1 l' s2 Hwf He [Hs Hf]. rewrite bind_app.
    apply route_exec_published in He as [Hle [->|[-> Hlt]]]; simpl.
    + split; [done|]. eapply Forall_impl; [done|]. simpl; lia.
    + split; constructor; try done. eapply Forall_impl; [done|]. simpl; lia.
Qed.

(** Every observation is all or nothing: a rejected one leaves the machine as it was, an
    accepted new one moves to exactly the announced generation (the successor of the current
    one unless it is the first), takes control away, and emits the effects of the frozen
    session before the one that changes the route. *)
Theorem apply_transition (event : RouteEvent) (s : SessionStateMachine) :
  let '(r, s') := SessionStateMachine_apply event s in
  match r with
  | Err _ => s' = s
  | Ok actions =>
      (actions = [] ∧ s' = s ∧ event_generation event = generation s) ∨
      (generation s' = event_generation event ∧ generation s < generation s' ∧
       (generation s = 0 ∨ generation s' = generation s + 1) ∧
       current s' = event_route event ∧
       controlled_lease s' = false ∧ input_enabled s' = false ∧
       actions = frozen_prefix s ++
         match event_route event with
         | Some next => [PublishRoute next]
         | None => if is_some (current s) then [ClearRoute] else []
         end)
  end.
Proof.
  destruct (SessionStateMachine_apply event s) as [r s'] eqn:Ha.
  apply apply_inv in Ha as [(e&->&->)|[(->&->&?&?)|(?&?&->&->&Hos)]];
    [done|by left|right; by split_and!].
Qed.

(** Control begins exactly for the generation of the published route, and is the only
    way to a controlled machine. *)
Theorem begin_control_exact (g : Z) (s s' : SessionStateMachine) (Hwf : SessionStateMachine_wf s) :
  SessionStateMachine_begin_control g s = (Ok (), s') ↔
  (∃ route, current s = Some route ∧ route_generation route = g) ∧
  s' = set_control true true s.
Proof.
  split.
  - intros Ha. apply begin_control_inv in Ha as [(?&?)|(rt&_&Hcur&?&?&->)]; [done|].
    split; [|done]. by exists rt.
  - intros [(rt&Hcur&Hg) ->]. destruct Hwf as [Hrt _ _]. destruct (Hrt _ Hcur) as [Hgen _].
    unfold SessionStateMachine_begin_control. unmonad. rewrite Hcur. simpl.
    rewrite !(proj2 (Z.eqb_eq _ _)) by lia. done.
Qed.

Definition example_route : RouteSession :=
  {| platform := Platform_Windows; os_session_id := 2; desktop := Normal; route_generation := 5 |}.

Lemma begin_control_exact_witness :
  SessionStateMachine_begin_control 5
    (route_run [Observe (SessionAvailable example_route)] SessionStateMachine_new).2 =
  (Ok (), set_control true true
     (route_run [Observe (SessionAvailable example_route)] SessionStateMachine_new).2).
Proof.
  apply begin_control_exact.
  - split; simpl; try done. intros r [= <-]. done.
  - split; [|reflexivity]. by exists example_route.
Defined.
