(* ===== verification/Framing.v ===== *)
(** Length-prefixed frames, crates/ipc/src/framing.rs, and the bridge's use of them,
    crates/privileged-bridge/src/framing.rs.

    [FrameDecoder] reassembles frames from chunks of a stream that may be cut anywhere.  Its
    contract is the relation [decodes] between a stream and the frames it carries. *)
From S2P Require Import Prelude Limits.

(** * Data *)

Definition LENGTH_PREFIX_BYTES : nat := 4.

Inductive FrameError :=
| InvalidLimit | ZeroLength | FrameTooLarge | Truncated | FE_Failed.

#[export] Instance FrameError_eq_dec : EqDecision FrameError.
Proof. solve_decision. Defined.

Record FrameDecoder := {
  header : bytes;
  header_length : nat;
  expected_payload_length : option nat;
  payload : bytes;
  fd_failed : bool;
  maximum : Z
}.

Inductive BridgeFrameError :=
| BFE_Frame (e : FrameError)
| ExpectedSingleFrame.

(** * Operations *)

Definition validate_limit (maximum : Z) : result FrameError unit :=
  fail_if ((maximum =? 0) || (U32_MAX <? maximum))%Z InvalidLimit.

Definition validate_frame_length (length maximum : Z) : result FrameError unit :=
  fail_if (length =? 0)%Z ZeroLength;;
  fail_if (maximum <? length)%Z FrameTooLarge.

Definition encode_frame_with_limit (p : bytes) (maximum : Z) : result FrameError bytes :=
  validate_limit maximum;;
  validate_frame_length (len p) maximum;;
  fail_if (U32_MAX <? len p)%Z FrameTooLarge;;
  mret (be_bytes 4 (len p) ++ p).

Definition encode_frame (p : bytes) : result FrameError bytes :=
  encode_frame_with_limit p MAX_LOCAL_IPC_FRAME_BYTES.

Definition FrameDecoder_new : FrameDecoder :=
  {| header := replicate 4 x00; header_length := 0; expected_payload_length := None;
     payload := []; fd_failed := false; maximum := MAX_LOCAL_IPC_FRAME_BYTES |}.

Definition FrameDecoder_with_limit (m : Z) : result FrameError FrameDecoder :=
  match validate_limit m with
  | Ok _ => Ok {| header := header FrameDecoder_new;
                  header_length := header_length FrameDecoder_new;
                  expected_payload_length := expected_payload_length FrameDecoder_new;
                  payload := payload FrameDecoder_new;
                  fd_failed := fd_failed FrameDecoder_new; maximum := m |}
  | Err e => Err e
  end.

Definition FrameDecoder_finish (self : FrameDecoder) : result FrameError unit :=
  fail_if (fd_failed self) FE_Failed;;
  fail_if (negb (header_length self =? 0)%nat || is_some (expected_payload_length self))
          Truncated.

Definition FrameDecoder_buffered_bytes (self : FrameDecoder) : Z :=
  (Z.of_nat (header_length self) + len (payload self))%Z.

Definition set_payload (expected : option nat) (p : bytes) (d : FrameDecoder) : FrameDecoder :=
  {| header := header d; header_length := header_length d;
     expected_payload_length := expected; payload := p; fd_failed := fd_failed d;
     maximum := maximum d |}.

Definition set_header (h : bytes) (n : nat) (d : FrameDecoder) : FrameDecoder :=
  {| header := h; header_length := n;
     expected_payload_length := expected_payload_length d; payload := payload d;
     fd_failed := fd_failed d; maximum := maximum d |}.

Definition set_failed (d : FrameDecoder) : FrameDecoder :=
  {| header := header d; header_length := header_length d;
     expected_payload_length := expected_payload_length d; payload := payload d;
     fd_failed := true; maximum := maximum d |}.

(** One iteration of the loop of [push_valid] on the rest of the chunk, [&chunk[offset..]]:
    the rest after it, and the frame it completed, if any. *)
Definition push_step (rest : bytes) : M FrameDecoder FrameError (bytes * option bytes) :=
  self ← get;
  match expected_payload_length self with
  | Some expected =>
      let remaining := (expected - length (payload self))%nat in
      let copied := (remaining `min` length rest)%nat in
      let p := payload self ++ take copied rest in
      if (length p =? expected)%nat then
        put (set_payload None [] self);; mret (drop copied rest, Some p)
      else
        put (set_payload (Some expected) p self);; mret (drop copied rest, None)
  | None =>
      let remaining := (LENGTH_PREFIX_BYTES - header_length self)%nat in
      let copied := (remaining `min` length rest)%nat in
      let h := take (header_length self) (header self) ++ take copied rest ++
               drop (header_length self + copied) (header self) in
      let n := (header_length self + copied)%nat in
      put (set_header h n self);;
      if (n =? LENGTH_PREFIX_BYTES)%nat then
        lift (validate_frame_length (be_val h) (maximum self));;
        put (set_payload (Some (Z.to_nat (be_val h))) (payload self) (set_header h 0 self));;
        mret (drop copied rest, None)
      else mret (drop copied rest, None)
  end.

(** The loop [while offset < chunk.len()]; [None] when the fuel does not suffice. *)
Fixpoint push_loop (fuel : nat) (rest : bytes) (frames : list bytes) (self : FrameDecoder)
    : option (result FrameError (list bytes) * FrameDecoder) :=
  match rest with
  | [] => Some (Ok frames, self)
  | _ =>
      match fuel with
      | O => None
      | S fuel' =>
          match push_step rest self with
          | (Ok (rest', frame), self') =>
              push_loop fuel' rest' (frames ++ option_list frame) self'
          | (Err e, self') => Some (Err e, self')
          end
      end
  end.

Definition FrameDecoder_push_valid (chunk : bytes) (self : FrameDecoder)
    : option (result FrameError (list bytes) * FrameDecoder) :=
  push_loop (length chunk) chunk [] self.

Definition FrameDecoder_push (chunk : bytes) (self : FrameDecoder)
    : option (result FrameError (list bytes) * FrameDecoder) :=
  if fd_failed self then Some (Err FE_Failed, self)
  else match FrameDecoder_push_valid chunk self with
       | Some (Ok frames, self') => Some (Ok frames, self')
       | Some (Err e, self') => Some (Err e, set_failed self')
       | None => None
       end.

(** Chunks pushed one after the other, the frames collected. *)
Fixpoint push_chunks (chunks : list bytes) (self : FrameDecoder)
    : option (result FrameError (list bytes) * FrameDecoder) :=
  match chunks with
  | [] => Some (Ok [], self)
  | c :: chunks' =>
      '(r, self') ← FrameDecoder_push c self;
      match r with
      | Ok frames => '(r', self'') ← push_chunks chunks' self';
                     Some (match r' with Ok fs => Ok (frames ++ fs) | Err e => Err e end, self'')
      | Err e => Some (Err e, self')
      end
  end.

Definition encode_bridge_frame (p : bytes) : result FrameError bytes :=
  encode_frame_with_limit p MAX_PRIVILEGED_BRIDGE_FRAME_BYTES.

(** [expect] panics, here [None], if the constant is not a valid limit. *)
Definition BridgeFrameDecoder_new : option FrameDecoder :=
  match FrameDecoder_with_limit MAX_PRIVILEGED_BRIDGE_FRAME_BYTES with
  | Ok d => Some d
  | Err _ => None
  end.

Definition decode_exact_bridge_frame (encoded : bytes) : option (result BridgeFrameError bytes) :=
  decoder ← BridgeFrameDecoder_new;
  '(r, decoder) ← FrameDecoder_push encoded decoder;
  Some (frames ← map_err BFE_Frame r;
        map_err BFE_Frame (FrameDecoder_finish decoder);;
        match frames with
        | [] => Err ExpectedSingleFrame
        | [frame] => Ok frame
        | _ => Err ExpectedSingleFrame
        end).

(** * Specification

    [decodes m s fs r]: the stream [s] carries the frames [fs] and then either stops inside
    a frame, with the bytes [rest] of it ([Ok rest]; [[]] between frames), or announces an
    inadmissible length ([Err e]). *)
Inductive decodes (m : Z) : bytes → list bytes → result FrameError bytes → Prop :=
| decodes_short s :
    (length s < 4)%nat → decodes m s [] (Ok s)
| decodes_partial h p :
    length h = 4%nat → validate_frame_length (be_val h) m = Ok () →
    (len p < be_val h)%Z → decodes m (h ++ p) [] (Ok (h ++ p))
| decodes_bad h s e :
    length h = 4%nat → validate_frame_length (be_val h) m = Err e →
    decodes m (h ++ s) [] (Err e)
| decodes_frame h p s fs r :
    length h = 4%nat → validate_frame_length (be_val h) m = Ok () → len p = be_val h →
    decodes m s fs r → decodes m (h ++ p ++ s) (p :: fs) r.

(** The bytes of the current frame a decoder holds. *)
Definition pending (d : FrameDecoder) : bytes :=
  match expected_payload_length d with
  | Some n => be_bytes 4 (Z.of_nat n) ++ payload d
  | None => take (header_length d) (header d)
  end.

Record FrameDecoder_wf (d : FrameDecoder) : Prop := {
  wf_header : length (header d) = 4%nat;
  wf_header_length : (header_length d < 4)%nat;
  wf_limit : (0 < maximum d <= U32_MAX)%Z;
  wf_expected : ∀ n, expected_payload_length d = Some n →
    (length (payload d) < n)%nat ∧ (Z.of_nat n <= maximum d)%Z ∧ header_length d = 0%nat;
  wf_idle : expected_payload_length d = None → payload d = []
}.

(** * Lemmas *)

Lemma validate_frame_length_Ok n m : validate_frame_length n m = Ok () ↔ n ≠ 0%Z ∧ (n <= m)%Z.
Proof.
  unfold validate_frame_length. unmonad.
  destruct (Z.eqb_spec n 0); simpl; [naive_solver|].
  destruct (Z.ltb_spec m n); simpl; split; (done || lia).
Qed.

Lemma FrameDecoder_with_limit_Ok m d :
  (0 <= m)%Z → FrameDecoder_with_limit m = Ok d → FrameDecoder_wf d ∧ maximum d = m ∧ pending d = [] ∧
    fd_failed d = false.
Proof.
  unfold FrameDecoder_with_limit, validate_limit. intros ? H. run H.
  all: split; [|done]; split; simpl; try done; lia.
Qed.

(** One iteration consumes a non-empty piece of the chunk and either completes the frame in
    progress, or extends it, or meets an inadmissible header. *)
Lemma push_step_spec rest d r d' :
  FrameDecoder_wf d → rest ≠ [] → push_step rest d = (r, d') →
  match r with
  | Ok (rest', frame) =>
      FrameDecoder_wf d' ∧ fd_failed d' = fd_failed d ∧ maximum d' = maximum d ∧
      ∃ c, rest = c ++ rest' ∧ c ≠ [] ∧
        match frame with
        | None => pending d' = pending d ++ c
        | Some p => pending d' = [] ∧ ∃ h, length h = 4%nat ∧ pending d ++ c = h ++ p ∧
            validate_frame_length (be_val h) (maximum d) = Ok () ∧ len p = be_val h
        end
  | Err e => maximum d' = maximum d ∧ ∃ h s, pending d ++ rest = h ++ s ∧ length h = 4%nat ∧
      validate_frame_length (be_val h) (maximum d) = Err e
  end.
Proof.
  intros [Hh Hhl Hlim Hexp Hidle] Hne. unfold push_step. unmonad. intros Hr.
  destruct (expected_payload_length d) as [n|] eqn:He.
  - destruct (Hexp n eq_refl) as (Hp&Hn&H0). clear Hexp Hidle.
    unfold pending. rewrite He.
    set (copied := ((n - length (payload d)) `min` length rest)%nat) in *.
    assert (copied <> 0)%nat by (destruct rest; simpl in *; [done|lia]).
    assert (take copied rest <> []) by (destruct rest, copied; simpl in *; done).
    case_match eqn:Hlen; simplify_eq/=; split_and!; try done.
    + exists (take copied rest). rewrite take_drop. split_and!; try done.
      { by rewrite H0. }
      exists (be_bytes 4 (Z.of_nat n)). rewrite length_be_bytes, app_assoc.
      rewrite be_val_be_bytes by (unfold U32_MAX in *; lia).
      apply Nat.eqb_eq in Hlen. unfold len. rewrite validate_frame_length_Ok.
      split_and!; (done || lia).
    + split; simpl; try (done || lia). intros ? [= <-].
      apply Nat.eqb_neq in Hlen. rewrite length_app, length_take in *. split_and!; (done || lia).
    + exists (take copied rest). rewrite take_drop. split_and!; try done.
  - clear Hexp. specialize (Hidle eq_refl).
    set (copied := ((LENGTH_PREFIX_BYTES - header_length d) `min` length rest)%nat) in *.
    unfold LENGTH_PREFIX_BYTES in *. unfold pending. rewrite He.
    set (h := take (header_length d) (header d) ++ take copied rest ++
               drop (header_length d + copied) (header d)) in *.
    assert (copied <> 0)%nat by (destruct rest; simpl in *; [done|lia]).
    assert (take copied rest <> []) by (destruct rest, copied; simpl in *; done).
    assert (length h = 4)%nat as Hh4.
    { subst h. rewrite !length_app, !length_take, length_drop. lia. }
    assert (take (header_length d + copied) h = take (header_length d) (header d) ++ take copied rest) as Hth.
    { subst h. rewrite app_assoc, take_app_length'; [done|].
      rewrite length_app, !length_take. lia. }
    assert (copied <= 4 - header_length d)%nat by lia.
    clearbody h copied.
    case_match eqn:Hlen.
    + apply Nat.eqb_eq in Hlen. rewrite Hlen, <- Hh4, firstn_all in Hth.
      destruct (validate_frame_length (be_val h) (maximum d)) as [[]|e] eqn:Hv; injection Hr as <- <-.
      * apply validate_frame_length_Ok in Hv as [Hn0 Hmax]. pose proof (be_val_bound h).
        unfold pending; cbn -[be_bytes]. rewrite Hidle, app_nil_r, Z2Nat.id by lia.
        split_and!; try done.
        -- split; simpl; try done; try lia. intros ? [= <-]. rewrite ?Hidle. simpl. lia.
        -- exists (take copied rest). rewrite take_drop. split_and!; try done.
           rewrite <- Hth, <- Hh4. apply be_bytes_be_val.
      * split; [done|]. exists h, (drop copied rest). split_and!; try done.
        by rewrite Hth, <- app_assoc, take_drop.
    + apply Nat.eqb_neq in Hlen. simplify_eq. unfold pending; simpl. rewrite He.
      split_and!; try done.
      * split; simpl; try done; try lia. congruence.
      * exists (take copied rest). rewrite take_drop. by split_and!.
Qed.

Lemma push_loop_spec fuel rest frames d :
  FrameDecoder_wf d → (length rest <= fuel)%nat →
  ∃ r d', push_loop fuel rest frames d = Some (r, d') ∧ maximum d' = maximum d ∧
    match r with
    | Ok fs => ∃ fs', fs = frames ++ fs' ∧ FrameDecoder_wf d' ∧ fd_failed d' = fd_failed d ∧
        ∀ s fs'' r', decodes (maximum d) (pending d' ++ s) fs'' r' →
          decodes (maximum d) (pending d ++ rest ++ s) (fs' ++ fs'') r'
    | Err e => ∃ fs', ∀ s, decodes (maximum d) (pending d ++ rest ++ s) fs' (Err e)
    end.
Proof.
  revert rest frames d. induction fuel as [|fuel IH]; intros rest frames d Hwf Hf.
  - destruct rest; simpl in *; [|lia]. eexists _, _. split; [done|]. split; [done|].
    exists []. rewrite app_nil_r. naive_solver.
  - destruct rest as [|b rest']; simpl.
    { eexists _, _. split; [done|]. split; [done|]. exists []. rewrite app_nil_r. naive_solver. }
    set (rest := b :: rest') in *.
    destruct (push_step rest d) as [r d'] eqn:Hs.
    apply push_step_spec in Hs; [|done..]. destruct r as [[rest1 frame]|e].
    + destruct Hs as (Hwf'&Hfl&Hmax&c&Hc&Hcne&Hfr).
      assert (length rest1 <= fuel)%nat as Hf1.
      { apply (f_equal length) in Hc. rewrite length_app in Hc. destruct c; simpl in *; [done|lia]. }
      destruct (IH rest1 (frames ++ option_list frame) d' Hwf' Hf1) as (r&d''&->&Hmax'&Hr).
      exists r, d''. split; [done|]. split; [congruence|].
      assert (∀ s, b :: rest' ++ s = c ++ rest1 ++ s) as Hcs
        by (intros s; rewrite app_assoc, <- Hc; done).
      assert (∀ s fs r, decodes (maximum d) (pending d' ++ s) fs r →
        decodes (maximum d) (pending d ++ c ++ s) (option_list frame ++ fs) r) as Hext.
      { intros s fs r' Hd. destruct frame as [p|]; simpl.
        - destruct Hfr as (Hp&h&Hh&Heq&Hv&Hl). rewrite Hp in Hd.
          rewrite (app_assoc (pending d)), Heq, <- app_assoc. by apply decodes_frame.
        - rewrite Hfr, <- app_assoc in Hd. done. }
      rewrite Hmax in Hr. destruct r as [fs|e].
      * destruct Hr as (fs'&->&?&?&Hr). exists (option_list frame ++ fs').
        rewrite app_assoc. split_and!; try done; [congruence|].
        intros s fs'' r' Hd. rewrite Hcs, <- app_assoc. apply Hext. by apply Hr.
      * destruct Hr as [fs' Hr]. exists (option_list frame ++ fs').
        intros s. rewrite Hcs. apply Hext, Hr.
    + destruct Hs as (Hmax&h&s'&Heq&Hh&Hv). exists (Err e), d'. split; [done|]. split; [done|].
      exists []. intros s.
      change (b :: rest' ++ s) with (rest ++ s).
      rewrite app_assoc, Heq, <- app_assoc. by apply decodes_bad.
Qed.

Lemma len_length4 (h : bytes) : length h = 4%nat → len h = 4%Z.
Proof. unfold len. lia. Qed.

(** A stream determines its frames. *)
Lemma decodes_det m s fs r fs' r' :
  decodes m s fs r → decodes m s fs' r' → fs = fs' ∧ r = r'.
Proof.
  intros Hd. revert fs' r'.
  induction Hd as [s Hs|h p Hh Hv Hp|h s e Hh Hv|h p s fs r Hh Hv Hp Hd IH];
    intros fs' r' Hd'; inversion Hd' as [s0 Hs0|h0 p0 Hh0 Hv0 Hp0 Heq
      |h0 s0 e0 Hh0 Hv0 Heq|h0 p0 s0 fs0 r0 Hh0 Hv0 Hp0 Hd0 Heq]; subst; try done;
    repeat match goal with
    | H : (length (_ ++ _) < 4)%nat |- _ => rewrite length_app in H; lia
    | H : _ ++ _ = _ ++ _ |- _ => apply app_inj_1 in H as [??]; [|congruence]; subst
    end; try congruence; try done; try (split; congruence);
    repeat match goal with
    | H : (len (?a ++ ?b) < _)%Z |- _ => rewrite len_app in H; pose proof (len_nonneg b)
    end; try (exfalso; lia).
  match goal with H : _ ++ _ = _ ++ _ |- _ => apply app_inj_len in H as [-> ->]; [|congruence] end.
  by destruct (IH _ _ Hd0) as [-> ->].
Qed.

Lemma pending_incomplete d :
  FrameDecoder_wf d → decodes (maximum d) (pending d) [] (Ok (pending d)).
Proof.
  intros [Hh Hhl Hlim Hexp Hidle]. unfold pending.
  destruct (expected_payload_length d) as [n|] eqn:He.
  - destruct (Hexp n eq_refl) as (?&?&?). unfold U32_MAX in *.
    apply decodes_partial; [apply length_be_bytes| |];
      rewrite be_val_be_bytes by lia; [|unfold len; lia].
    apply validate_frame_length_Ok. lia.
  - apply decodes_short. rewrite length_take. lia.
Qed.

(** What one push does to a live decoder. *)
Lemma push_spec chunk d :
  FrameDecoder_wf d → fd_failed d = false →
  ∃ r d', FrameDecoder_push chunk d = Some (r, d') ∧ maximum d' = maximum d ∧
    match r with
    | Ok fs => FrameDecoder_wf d' ∧ fd_failed d' = false ∧
        ∀ s fs' r', decodes (maximum d) (pending d' ++ s) fs' r' →
          decodes (maximum d) (pending d ++ chunk ++ s) (fs ++ fs') r'
    | Err e => fd_failed d' = true ∧
        ∃ fs, ∀ s, decodes (maximum d) (pending d ++ chunk ++ s) fs (Err e)
    end.
Proof.
  intros Hwf Hf. unfold FrameDecoder_push, FrameDecoder_push_valid. rewrite Hf.
  destruct (push_loop_spec (length chunk) chunk [] d Hwf (le_n _)) as (r&d'&->&Hm&Hr).
  destruct r as [fs|e].
  - destruct Hr as (fs'&->&?&?&?). eexists _, d'. split; [done|]. split_and!; try done. congruence.
  - destruct Hr as [fs' Hr]. eexists _, _. split; [done|]. split; [done|]. split; [done|]. by exists fs'.
Qed.

Lemma push_chunks_spec chunks d :
  FrameDecoder_wf d → fd_failed d = false →
  ∃ r d', push_chunks chunks d = Some (r, d') ∧ maximum d' = maximum d ∧
    match r with
    | Ok fs => FrameDecoder_wf d' ∧ fd_failed d' = false ∧
        ∀ s fs' r', decodes (maximum d) (pending d' ++ s) fs' r' →
          decodes (maximum d) (pending d ++ concat chunks ++ s) (fs ++ fs') r'
    | Err e => fd_failed d' = true ∧
        ∃ fs, ∀ s, decodes (maximum d) (pending d ++ concat chunks ++ s) fs (Err e)
    end.
Proof.
  revert d. induction chunks as [|c chunks IH]; intros d Hwf Hf; simpl.
  { eexists _, _. split; [done|]. by split_and!. }
  destruct (push_spec c d Hwf Hf) as (r&d1&->&Hm&Hr). simpl. destruct r as [fs|e].
  - destruct Hr as (Hwf1&Hf1&Hr). destruct (IH d1 Hwf1 Hf1) as (r&d'&->&Hm'&Hr'). simpl.
    eexists _, d'. split; [done|]. split; [congruence|]. rewrite Hm in Hr'. destruct r as [fs'|e].
    + destruct Hr' as (?&?&Hr'). split_and!; try done. intros s fs'' r' Hd.
      rewrite <- !app_assoc. by apply Hr, Hr'.
    + destruct Hr' as (?&fs'&Hr'). split; [done|]. exists (fs ++ fs'). intros s.
      rewrite <- app_assoc. by apply Hr, Hr'.
  - destruct Hr as (?&fs&Hr). eexists _, d1. split; [done|]. split; [done|]. split; [done|].
    exists fs. intros s. rewrite <- app_assoc. apply Hr.
Qed.

Lemma finish_iff d :
  FrameDecoder_wf d → fd_failed d = false → FrameDecoder_finish d = Ok () ↔ pending d = [].
Proof.
  intros [Hh Hhl Hlim Hexp Hidle] Hf. unfold FrameDecoder_finish, pending. unmonad. rewrite Hf.
  destruct (expected_payload_length d) as [n|]; simpl.
  - rewrite orb_true_r. by split.
  - rewrite orb_false_r. destruct (Nat.eqb_spec (header_length d) 0) as [->|Hn]; simpl; [done|].
    split; [done|]. intros H. apply (f_equal length) in H. rewrite length_take in H. simpl in H. lia.
Qed.

Lemma buffered_bound d :
  FrameDecoder_wf d → (0 <= FrameDecoder_buffered_bytes d <= Z.max 3 (maximum d - 1))%Z.
Proof.
  intros [Hh Hhl Hlim Hexp Hidle]. unfold FrameDecoder_buffered_bytes, len.
  destruct (expected_payload_length d) as [n|]; [destruct (Hexp n eq_refl); lia|].
  rewrite Hidle by done. simpl. lia.
Qed.

Lemma encode_Ok p m e :
  encode_frame_with_limit p m = Ok e ↔
  (m <> 0 ∧ m <= U32_MAX ∧ p <> [] ∧ len p <= m)%Z ∧ e = be_bytes 4 (len p) ++ p.
Proof.
  unfold encode_frame_with_limit, validate_limit, validate_frame_length. rewrite <- (len_0 p).
  split.
  - intros He. run He; (split; [lia|done]).
  - intros [(?&?&?&?) ->]. unmonad.
    rewrite (proj2 (Z.eqb_neq m 0)), (proj2 (Z.ltb_ge U32_MAX m)) by lia. simpl.
    rewrite (proj2 (Z.eqb_neq (len p) 0)), (proj2 (Z.ltb_ge m (len p))) by lia.
    by rewrite (proj2 (Z.ltb_ge U32_MAX (len p))) by lia.
Qed.

(** An encoded payload is one frame of the stream. *)
Lemma encode_decodes p m e s fs r :
  encode_frame_with_limit p m = Ok e → decodes m s fs r → decodes m (e ++ s) (p :: fs) r.
Proof.
  intros ((?&?&Hp&?)&->)%encode_Ok Hd. rewrite <- len_0 in Hp.
  pose proof (len_nonneg p). rewrite <- app_assoc. unfold U32_MAX in *.
  apply decodes_frame; rewrite ?be_val_be_bytes by lia; auto using length_be_bytes.
  apply validate_frame_length_Ok. lia.
Qed.

(** * Properties *)

(** Refinement: whatever the chunking, a decoder that has received the bytes of a stream
    has returned exactly the frames the stream carries and holds exactly the bytes of its
    unfinished frame, or has rejected the stream at the first inadmissible header and then
    refuses everything.  The loop always terminates, the stream may end exactly between frames,
    and no more than one frame is ever buffered. *)
Theorem FrameDecoder_refines_stream (m : Z) (chunks : list bytes) (d : FrameDecoder)
    (Hm : (0 <= m)%Z) (Hd : FrameDecoder_with_limit m = Ok d) :
  ∃ r d', push_chunks chunks d = Some (r, d') ∧
    match r with
    | Ok fs => decodes m (concat chunks) fs (Ok (pending d')) ∧
        (FrameDecoder_finish d' = Ok () ↔ pending d' = []) ∧
        (FrameDecoder_buffered_bytes d' <= Z.max 3 (m - 1))%Z
    | Err e => (∃ fs, decodes m (concat chunks) fs (Err e)) ∧
        FrameDecoder_finish d' = Err FE_Failed ∧
        ∀ c, FrameDecoder_push c d' = Some (Err FE_Failed, d')
    end.
Proof.
  apply FrameDecoder_with_limit_Ok in Hd as (Hwf&<-&Hp&Hf); [|done].
  destruct (push_chunks_spec chunks d Hwf Hf) as (r&d'&Hr&Hmax&Hspec). rewrite Hp in Hspec.
  exists r, d'. split; [done|]. destruct r as [fs|e].
  - destruct Hspec as (Hwf'&Hf'&Hdec). rewrite <- Hmax in *. split_and!.
    + specialize (Hdec [] [] _ (eq_rect _ (λ s, decodes _ s [] _) (pending_incomplete d' Hwf') _
        (eq_sym (app_nil_r _)))). by rewrite !app_nil_r in Hdec.
    + by apply finish_iff.
    + by apply buffered_bound.
  - destruct Hspec as (Hf'&fs&Hdec). split_and!.
    + exists fs. specialize (Hdec []). by rewrite app_nil_r in Hdec.
    + unfold FrameDecoder_finish. by rewrite Hf'.
    + intros c. unfold FrameDecoder_push. by rewrite Hf'.
Qed.

Lemma encodes_decodes ps es m :
  Forall2 (λ p e, encode_frame_with_limit p m = Ok e) ps es → decodes m (concat es) ps (Ok []).
Proof.
  induction 1; simpl; [apply decodes_short; simpl; lia|]. by eapply encode_decodes.
Qed.

(** Round trip: the concatenation of encoded payloads, cut into chunks anywhere, decodes
    to exactly these payloads, and the stream ends between frames. *)
Theorem frames_roundtrip (m : Z) (ps es chunks : list bytes) (d : FrameDecoder)
    (Hm : (0 <= m)%Z) (Hd : FrameDecoder_with_limit m = Ok d)
    (Hes : Forall2 (λ p e, encode_frame_with_limit p m = Ok e) ps es)
    (Hcut : concat chunks = concat es) :
  ∃ d', push_chunks chunks d = Some (Ok ps, d') ∧ FrameDecoder_finish d' = Ok ().
Proof.
  apply FrameDecoder_with_limit_Ok in Hd as (Hwf&<-&Hp&Hf); [|done].
  apply encodes_decodes in Hes. rewrite <- Hcut in Hes.
  destruct (push_chunks_spec chunks d Hwf Hf) as (r&d'&Hr&Hmax&Hspec). rewrite Hp in Hspec.
  exists d'. destruct r as [fs|e].
  - destruct Hspec as (Hwf'&Hf'&Hdec). rewrite <- Hmax in *.
    specialize (Hdec [] [] (Ok (pending d'))). rewrite !app_nil_r in Hdec.
    specialize (Hdec (pending_incomplete d' Hwf')).
    destruct (decodes_det _ _ _ _ _ _ Hdec Hes) as [-> [= He]]. rewrite Hr.
    split; [done|]. by apply finish_iff.
  - destruct Hspec as (Hf'&fs&Hdec). specialize (Hdec []). rewrite app_nil_r in Hdec.
    by destruct (decodes_det _ _ _ _ _ _ Hdec Hes).
Qed.

Lemma frames_roundtrip_witness :
  ∃ d', push_chunks [[x00; x00]; [x00; x02; x01]; [x02; x00; x00; x00; x01]; [x03]]
          {| header := replicate 4 x00; header_length := 0; expected_payload_length := None;
             payload := []; fd_failed := false; maximum := 16 |}
        = Some (Ok [[x01; x02]; [x03]], d') ∧ FrameDecoder_finish d' = Ok ().
Proof.
  apply (frames_roundtrip 16 [[x01; x02]; [x03]]
           [[x00; x00; x00; x02; x01; x02]; [x00; x00; x00; x01; x03]]).
  - lia.
  - reflexivity.
  - repeat constructor.
  - reflexivity.
Defined.

Lemma FrameDecoder_refines_stream_witness :
  ∃ r d', push_chunks [[x00; x00]; [x00; x00; x01]]
            {| header := replicate 4 x00; header_length := 0; expected_payload_length := None;
               payload := []; fd_failed := false; maximum := 16 |} = Some (r, d') ∧
    match r with
    | Ok fs => decodes 16 [x00; x00; x00; x00; x01] fs (Ok (pending d')) ∧
        (FrameDecoder_finish d' = Ok () ↔ pending d' = []) ∧
        (FrameDecoder_buffered_bytes d' <= Z.max 3 (16 - 1))%Z
    | Err e => (∃ fs, decodes 16 [x00; x00; x00; x00; x01] fs (Err e)) ∧
        FrameDecoder_finish d' = Err FE_Failed ∧
        ∀ c, FrameDecoder_push c d' = Some (Err FE_Failed, d')
    end.
Proof.
  apply (FrameDecoder_refines_stream 16 [[x00; x00]; [x00; x00; x01]]); [lia|reflexivity].
Defined.

(** [decode_exact_bridge_frame] inverts [encode_bridge_frame], and accepts nothing else:
    it always returns, and returns a payload exactly for that payload's encoding. *)
Theorem bridge_frame_exact (encoded p : bytes) :
  is_Some (decode_exact_bridge_frame encoded) ∧
  (decode_exact_bridge_frame encoded = Some (Ok p) ↔ encode_bridge_frame p = Ok encoded).
Proof.
  unfold decode_exact_bridge_frame, encode_bridge_frame, BridgeFrameDecoder_new.
  destruct (FrameDecoder_with_limit MAX_PRIVILEGED_BRIDGE_FRAME_BYTES) as [d|] eqn:Hd; [|done].
  apply FrameDecoder_with_limit_Ok in Hd as (Hwf&Hm&Hp&Hf); [|done]. simpl.
  destruct (push_spec encoded d Hwf Hf) as (r&d'&->&Hmax&Hspec). rewrite Hp, Hm in *. simpl.
  split; [by destruct r|]. split.
  - intros [= H]. destruct r as [fs|e]; [|done]. destruct Hspec as (Hwf'&Hf'&Hdec). simpl in H.
    destruct (FrameDecoder_finish d') as [[]|] eqn:Hfin; [|done]. simpl in H.
    apply finish_iff in Hfin; [|done..].
    destruct fs as [|q [|]]; simplify_eq/=.
    specialize (Hdec [] [] (Ok [])). rewrite Hfin, app_nil_r in Hdec.
    specialize (Hdec (decodes_short _ [] ltac:(simpl; lia))).
    inversion Hdec as [| | |h p' s fs r Hh Hv Hl Hnil Heq]; subst. inversion Hnil; subst.
    + apply validate_frame_length_Ok in Hv as [Hv1 Hv2]. rewrite !app_nil_r in Heq. subst encoded.
      apply encode_Ok. rewrite Hl, <- Hh, be_bytes_be_val. split; [|done]. split_and!; try done.
      intros ->. by rewrite <- Hl in Hv1.
    + apply (f_equal length) in H. rewrite length_app in H. simpl in H. lia.
  - intros He. apply (encode_decodes _ _ _ [] [] (Ok [])) in He; [|apply decodes_short; simpl; lia].
    destruct r as [fs|e].
    + destruct Hspec as (Hwf'&Hf'&Hdec).
      specialize (Hdec [] [] (Ok (pending d'))). rewrite !app_nil_r in *.
      rewrite <- Hm, <- Hmax in *. specialize (Hdec (pending_incomplete d' Hwf')).
      destruct (decodes_det _ _ _ _ _ _ Hdec He) as [-> [= Hnil]]. simpl.
      by rewrite (proj2 (finish_iff d' Hwf' Hf')).
    + destruct Hspec as (Hf'&fs&Hdec). specialize (Hdec []). rewrite app_nil_r in *.
      by destruct (decodes_det _ _ _ _ _ _ Hdec He).
Qed.
