(* ===== verification/IpcAuth.v ===== *)
(** Authentication of the local IPC channels, crates/ipc/src/auth.rs, and the server side of
    the Flutter-to-Host protocol, crates/ipc/src/protocol.rs.

    HMAC-SHA-256 is the interface [Hmac]; what the code relies on is [HmacLaws]. *)
From S2P Require Import Prelude Limits Messages.

Local Open Scope Z_scope.

(** * The HMAC-SHA-256 interface *)

(** [tag key message] is the finalized MAC, [verify_slice key message candidate] the
    constant-time comparison of the hmac crate. *)
Class Hmac := {
  hmac_tag : bytes → bytes → bytes;
  hmac_verify_slice : bytes → bytes → bytes → bool
}.

Class HmacLaws `{Hmac} : Prop := {
  hmac_tag_len k m : len (hmac_tag k m) = 32;
  hmac_verify_iff k m c : hmac_verify_slice k m c = true ↔ c = hmac_tag k m
}.

(** * Data *)

(** A byte-string literal. *)
Definition blit (s : string) : bytes := String.list_byte_of_string s.

Definition CLIENT_PROOF_DOMAIN : bytes := blit "PRD-IPC-CLIENT-V1".
Definition SERVER_PROOF_DOMAIN : bytes := blit "PRD-IPC-SERVER-V1".
Definition PRIVILEGED_HOST_CLIENT_DOMAIN : bytes := blit "PRD-BRIDGE-HOST-CLIENT-V1".
Definition PRIVILEGED_HOST_SERVER_DOMAIN : bytes := blit "PRD-BRIDGE-HOST-SERVER-V1".
Definition PRIVILEGED_HELPER_CLIENT_DOMAIN : bytes := blit "PRD-BRIDGE-HELPER-CLIENT-V1".
Definition PRIVILEGED_HELPER_SERVER_DOMAIN : bytes := blit "PRD-BRIDGE-HELPER-SERVER-V1".

Inductive AuthChannel := FlutterHost | PrivilegedHost | PrivilegedHelper.

#[export] Instance AuthChannel_eq_dec : EqDecision AuthChannel.
Proof. solve_decision. Defined.

(** [IpcToken] wraps a [[u8; 32]]; [as_bytes] is the wrapped array. *)
Abbreviation IpcToken := bytes.

(** * Proofs *)

Definition client_domain (channel : AuthChannel) : bytes :=
  match channel with
  | FlutterHost => CLIENT_PROOF_DOMAIN
  | PrivilegedHost => PRIVILEGED_HOST_CLIENT_DOMAIN
  | PrivilegedHelper => PRIVILEGED_HELPER_CLIENT_DOMAIN
  end.

Definition server_domain (channel : AuthChannel) : bytes :=
  match channel with
  | FlutterHost => SERVER_PROOF_DOMAIN
  | PrivilegedHost => PRIVILEGED_HOST_SERVER_DOMAIN
  | PrivilegedHelper => PRIVILEGED_HELPER_SERVER_DOMAIN
  end.

(** The bytes [proof_mac] feeds to the MAC, in the order of its [update] calls. *)
Definition proof_mac (domain instance_id server_nonce client_nonce : bytes) : bytes :=
  domain ++ instance_id ++ server_nonce ++ client_nonce.

Section proofs.
Context `{Hmac}.

Definition proof (token : IpcToken) (domain instance_id server_nonce client_nonce : bytes)
    : bytes :=
  hmac_tag token (proof_mac domain instance_id server_nonce client_nonce).

Definition channel_client_proof (token : IpcToken) (channel : AuthChannel)
    (instance_id server_nonce client_nonce : bytes) : bytes :=
  proof token (client_domain channel) instance_id server_nonce client_nonce.

Definition channel_server_proof (token : IpcToken) (channel : AuthChannel)
    (instance_id server_nonce client_nonce : bytes) : bytes :=
  proof token (server_domain channel) instance_id server_nonce client_nonce.

Definition client_proof (token : IpcToken) (instance_id server_nonce client_nonce : bytes)
    : bytes :=
  channel_client_proof token FlutterHost instance_id server_nonce client_nonce.

Definition server_proof (token : IpcToken) (instance_id server_nonce client_nonce : bytes)
    : bytes :=
  channel_server_proof token FlutterHost instance_id server_nonce client_nonce.

Definition verify_channel_client_proof (token : IpcToken) (channel : AuthChannel)
    (instance_id server_nonce client_nonce candidate : bytes) : bool :=
  hmac_verify_slice token
    (proof_mac (client_domain channel) instance_id server_nonce client_nonce) candidate.

Definition verify_channel_server_proof (token : IpcToken) (channel : AuthChannel)
    (instance_id server_nonce client_nonce candidate : bytes) : bool :=
  hmac_verify_slice token
    (proof_mac (server_domain channel) instance_id server_nonce client_nonce) candidate.

Definition verify_client_proof (token : IpcToken)
    (instance_id server_nonce client_nonce candidate : bytes) : bool :=
  verify_channel_client_proof token FlutterHost instance_id server_nonce client_nonce
    candidate.
End proofs.

(** * The server protocol *)

Definition NONCE_BYTES : Z := 32.
Definition MAX_PENDING_REQUESTS : Z := 32.

Inductive ProtocolError :=
| AuthenticationRequired | PE_AlreadyAuthenticated | PE_AuthenticationFailed
| InvalidAuthenticationLength | UnsupportedVersion | PE_InvalidRequestId
| DuplicateRequestId | PE_MissingPayload | PendingRequestLimit.

#[export] Instance ProtocolError_eq_dec : EqDecision ProtocolError.
Proof. solve_decision. Defined.

Record ServerProtocol := {
  sp_token : IpcToken;
  sp_instance_id : bytes;
  sp_server_nonce : bytes;
  sp_authenticated : bool;
  pending_request_ids : gset text
}.

Definition set_sp_authenticated (s : ServerProtocol) : ServerProtocol :=
  {| sp_token := sp_token s; sp_instance_id := sp_instance_id s;
     sp_server_nonce := sp_server_nonce s; sp_authenticated := true;
     pending_request_ids := pending_request_ids s |}.

Definition set_pending (p : gset text) (s : ServerProtocol) : ServerProtocol :=
  {| sp_token := sp_token s; sp_instance_id := sp_instance_id s;
     sp_server_nonce := sp_server_nonce s; sp_authenticated := sp_authenticated s;
     pending_request_ids := p |}.

Definition supported_version (v : ProtocolVersion) : bool :=
  (ProtocolVersion_major v =? PROTOCOL_MAJOR_VERSION) &&
  (ProtocolVersion_minor v =? MINIMUM_PROTOCOL_MINOR_VERSION).

Definition validate_common_frame (frame : LocalIpcClientFrame) : result ProtocolError unit :=
  version ← ok_or (LocalIpcClientFrame_protocol_version frame) UnsupportedVersion;
  fail_if (negb (supported_version version)) UnsupportedVersion;;
  fail_if (bool_decide (LocalIpcClientFrame_request_id frame = []) ||
           (MAX_REQUEST_ID_UTF8_BYTES <? text_len (LocalIpcClientFrame_request_id frame)))
          PE_InvalidRequestId;;
  fail_if (negb (is_some (LocalIpcClientFrame_payload frame))) PE_MissingPayload.

Section server.
Context `{Hmac}.

Definition ServerProtocol_new (token : IpcToken) (instance_id server_nonce : bytes)
    : ServerProtocol :=
  {| sp_token := token; sp_instance_id := instance_id; sp_server_nonce := server_nonce;
     sp_authenticated := false; pending_request_ids := ∅ |}.

Definition ServerProtocol_challenge (self : ServerProtocol) : LocalIpcChallenge :=
  {| LocalIpcChallenge_agent_instance_id := sp_instance_id self;
     LocalIpcChallenge_server_nonce := sp_server_nonce self |}.

Definition ServerProtocol_authenticate (frame : LocalIpcClientFrame)
    : M ServerProtocol ProtocolError LocalIpcAuthenticated :=
  self ← get;
  fail_if (sp_authenticated self) PE_AlreadyAuthenticated;;
  lift (validate_common_frame frame);;
  payload ← ok_or (LocalIpcClientFrame_payload frame) PE_MissingPayload;
  match payload with
  | LocalIpcClientFrame_Payload_Authenticate authentication =>
      client_nonce ← ok_or (array_of NONCE_BYTES (LocalIpcAuthenticate_client_nonce authentication))
                           InvalidAuthenticationLength;
      fail_if (negb (len (LocalIpcAuthenticate_client_proof authentication) =? NONCE_BYTES))
              InvalidAuthenticationLength;;
      fail_if (negb (verify_client_proof (sp_token self) (sp_instance_id self)
                       (sp_server_nonce self) client_nonce
                       (LocalIpcAuthenticate_client_proof authentication)))
              PE_AuthenticationFailed;;
      modify set_sp_authenticated;;
      mret {| LocalIpcAuthenticated_server_proof :=
                server_proof (sp_token self) (sp_instance_id self) (sp_server_nonce self)
                  client_nonce |}
  | _ => mthrow AuthenticationRequired
  end.

Definition is_authenticate (frame : LocalIpcClientFrame) : bool :=
  match LocalIpcClientFrame_payload frame with
  | Some (LocalIpcClientFrame_Payload_Authenticate _) => true
  | _ => false
  end.

Definition ServerProtocol_begin_request (frame : LocalIpcClientFrame)
    : M ServerProtocol ProtocolError unit :=
  self ← get;
  fail_if (negb (sp_authenticated self)) AuthenticationRequired;;
  lift (validate_common_frame frame);;
  fail_if (is_authenticate frame) PE_AlreadyAuthenticated;;
  fail_if (bool_decide (LocalIpcClientFrame_request_id frame ∈ pending_request_ids self))
          DuplicateRequestId;;
  fail_if (MAX_PENDING_REQUESTS <=? Z.of_nat (size (pending_request_ids self)))
          PendingRequestLimit;;
  put (set_pending ({[LocalIpcClientFrame_request_id frame]} ∪ pending_request_ids self) self).

Definition ServerProtocol_complete_request (request_id : text) (self : ServerProtocol)
    : ServerProtocol :=
  set_pending (pending_request_ids self ∖ {[request_id]}) self.

(** ** Runs: one connection receives frames and completes requests. *)
Inductive ServerOp :=
| SrvAuthenticate (frame : LocalIpcClientFrame)
| SrvBegin (frame : LocalIpcClientFrame)
| SrvComplete (request_id : text).

Inductive ServerLog :=
| LogAuthenticated (client_nonce : bytes) (reply : LocalIpcAuthenticated)
| LogBegun (request_id : text)
| LogCompleted (request_id : text).

Definition frame_nonce (frame : LocalIpcClientFrame) : bytes :=
  match LocalIpcClientFrame_payload frame with
  | Some (LocalIpcClientFrame_Payload_Authenticate a) => LocalIpcAuthenticate_client_nonce a
  | _ => []
  end.

Definition server_exec (op : ServerOp) (s : ServerProtocol) : list ServerLog * ServerProtocol :=
  match op with
  | SrvAuthenticate frame =>
      let '(r, s') := ServerProtocol_authenticate frame s in
      (match r with Ok reply => [LogAuthenticated (frame_nonce frame) reply] | Err _ => [] end, s')
  | SrvBegin frame =>
      let '(r, s') := ServerProtocol_begin_request frame s in
      (match r with Ok _ => [LogBegun (LocalIpcClientFrame_request_id frame)] | Err _ => [] end, s')
  | SrvComplete id => ([LogCompleted id], ServerProtocol_complete_request id s)
  end.

Fixpoint server_run (ops : list ServerOp) (s : ServerProtocol) : list ServerLog * ServerProtocol :=
  match ops with
  | [] => ([], s)
  | op :: ops' =>
      let '(l, s1) := server_exec op s in
      let '(l', s2) := server_run ops' s1 in (l ++ l', s2)
  end.

(** The abstract session a connection's log describes: authenticated or not, and the
    requests begun and not completed; [None] when the log breaks the protocol. *)
Definition session_step (v : bool * gset text) (e : ServerLog) : option (bool * gset text) :=
  match e with
  | LogAuthenticated _ _ => if v.1 then None else Some (true, v.2)
  | LogBegun id =>
      if v.1 && bool_decide (id ∉ v.2) && (Z.of_nat (size v.2) <? MAX_PENDING_REQUESTS)
      then Some (true, {[id]} ∪ v.2) else None
  | LogCompleted id => Some (v.1, v.2 ∖ {[id]})
  end.

Fixpoint session_steps (v : bool * gset text) (log : list ServerLog) : option (bool * gset text) :=
  match log with
  | [] => Some v
  | e :: log' => v' ← session_step v e; session_steps v' log'
  end.
End server.

(** * Lemmas *)

(** The domain of one side of a channel. *)
Definition side_domain (client : bool) (channel : AuthChannel) : bytes :=
  if client then client_domain channel else server_domain channel.

Lemma side_domain_inj c1 ch1 c2 ch2 :
  side_domain c1 ch1 = side_domain c2 ch2 → c1 = c2 ∧ ch1 = ch2.
Proof. destruct c1, ch1, c2, ch2; (done || intros H; vm_compute in H; discriminate). Qed.

(** The MAC input determines the domain, the instance and both nonces: the last three have
    fixed lengths. *)
Lemma proof_mac_inj d1 i1 s1 c1 d2 i2 s2 c2 :
  len i1 = 16 → len i2 = 16 → len s1 = 32 → len s2 = 32 → len c1 = 32 → len c2 = 32 →
  proof_mac d1 i1 s1 c1 = proof_mac d2 i2 s2 c2 →
  d1 = d2 ∧ i1 = i2 ∧ s1 = s2 ∧ c1 = c2.
Proof.
  unfold proof_mac. intros Hi1 Hi2 Hs1 Hs2 Hc1 Hc2 Heq.
  apply app_inj_2 in Heq as [-> Heq];
    [|rewrite !length_app; unfold len in *; lia].
  apply app_inj_len in Heq as [-> Heq]; [|congruence].
  apply app_inj_len in Heq as [-> ->]; [done|congruence].
Qed.

Section lemmas.
Context `{HmacLaws}.

Lemma verify_client_iff t ch i s c p :
  verify_channel_client_proof t ch i s c p = true ↔ p = channel_client_proof t ch i s c.
Proof. apply hmac_verify_iff. Qed.

Lemma verify_server_iff t ch i s c p :
  verify_channel_server_proof t ch i s c p = true ↔ p = channel_server_proof t ch i s c.
Proof. apply hmac_verify_iff. Qed.

Lemma authenticate_inv frame s r s' :
  ServerProtocol_authenticate frame s = (r, s') →
  (∃ e, r = Err e ∧ s' = s) ∨
  (∃ a, r = Ok {| LocalIpcAuthenticated_server_proof :=
           server_proof (sp_token s) (sp_instance_id s) (sp_server_nonce s)
             (LocalIpcAuthenticate_client_nonce a) |} ∧
     s' = set_sp_authenticated s ∧ sp_authenticated s = false ∧
     validate_common_frame frame = Ok () ∧
     LocalIpcClientFrame_payload frame = Some (LocalIpcClientFrame_Payload_Authenticate a) ∧
     len (LocalIpcAuthenticate_client_nonce a) = NONCE_BYTES ∧
     LocalIpcAuthenticate_client_proof a =
       client_proof (sp_token s) (sp_instance_id s) (sp_server_nonce s)
         (LocalIpcAuthenticate_client_nonce a)).
Proof.
  unfold ServerProtocol_authenticate, verify_client_proof. intros Hr.
  run Hr; try (left; by eauto).
  match goal with H : array_of _ _ = Some _ |- _ => apply array_of_Some in H as [-> ?] end.
  right. eexists. split_and!; try done. by apply verify_client_iff.
Qed.

Lemma authenticate_run frame s a :
  sp_authenticated s = false → validate_common_frame frame = Ok () →
  LocalIpcClientFrame_payload frame = Some (LocalIpcClientFrame_Payload_Authenticate a) →
  len (LocalIpcAuthenticate_client_nonce a) = NONCE_BYTES →
  LocalIpcAuthenticate_client_proof a =
    client_proof (sp_token s) (sp_instance_id s) (sp_server_nonce s) (LocalIpcAuthenticate_client_nonce a) →
  ServerProtocol_authenticate frame s =
  (Ok {| LocalIpcAuthenticated_server_proof :=
           server_proof (sp_token s) (sp_instance_id s) (sp_server_nonce s)
             (LocalIpcAuthenticate_client_nonce a) |}, set_sp_authenticated s).
Proof.
  intros Ha Hv Hp Hn Hc. unfold ServerProtocol_authenticate. unmonad.
  rewrite Ha, Hv, Hp. simpl. rewrite (proj2 (array_of_Some _ _ _) (conj eq_refl Hn)). simpl.
  assert (len (LocalIpcAuthenticate_client_proof a) = 32) as Hl.
  { rewrite Hc. apply hmac_tag_len. }
  rewrite Hl. simpl. unfold verify_client_proof. by rewrite (proj2 (verify_client_iff _ _ _ _ _ _) Hc).
Qed.

Lemma begin_request_inv frame s r s' :
  ServerProtocol_begin_request frame s = (r, s') →
  (∃ e, r = Err e ∧ s' = s) ∨
  (r = Ok () ∧ sp_authenticated s = true ∧ validate_common_frame frame = Ok () ∧
   is_authenticate frame = false ∧
   LocalIpcClientFrame_request_id frame ∉ pending_request_ids s ∧
   Z.of_nat (size (pending_request_ids s)) < MAX_PENDING_REQUESTS ∧
   s' = set_pending ({[LocalIpcClientFrame_request_id frame]} ∪ pending_request_ids s) s).
Proof.
  unfold ServerProtocol_begin_request. intros Hr. run Hr; try (left; by eauto).
  right. by split_and!.
Qed.

Lemma server_exec_session op s l s' :
  server_exec op s = (l, s') →
  session_steps (sp_authenticated s, pending_request_ids s) l =
    Some (sp_authenticated s', pending_request_ids s') ∧
  sp_token s' = sp_token s ∧ sp_instance_id s' = sp_instance_id s ∧
  sp_server_nonce s' = sp_server_nonce s.
Proof.
  destruct op as [frame|frame|id]; simpl; intros He.
  - destruct (ServerProtocol_authenticate frame s) as [r s1] eqn:Ha. simplify_eq.
    apply authenticate_inv in Ha as [(e&->&->)|(a&->&->&Hf&?)]; [done|].
    simpl. by rewrite Hf.
  - destruct (ServerProtocol_begin_request frame s) as [r s1] eqn:Ha. simplify_eq.
    apply begin_request_inv in Ha as [(e&->&->)|(->&Hf&?&?&Hid&Hsz&->)]; [done|].
    simpl. unfold session_step. simpl. rewrite Hf, bool_decide_eq_true_2 by done.
    by rewrite (proj2 (Z.ltb_lt _ _)).
  - by simplify_eq.
Qed.

Lemma session_steps_app v l1 l2 :
  session_steps v (l1 ++ l2) = v' ← session_steps v l1; session_steps v' l2.
Proof.
  revert v. induction l1 as [|e l1 IH]; intros v; simpl; [done|].
  destruct (session_step v e); simpl; [apply IH|done].
Qed.

Lemma server_run_session ops s l s' :
  server_run ops s = (l, s') →
  session_steps (sp_authenticated s, pending_request_ids s) l =
    Some (sp_authenticated s', pending_request_ids s').
Proof.
  revert s l. induction ops as [|op ops IH]; intros s l Hr; simpl in Hr; [by simplify_eq|].
  destruct (server_exec op s) as [l1 s1] eqn:He.
  destruct (server_run ops s1) as [l2 s2] eqn:Hr'. simplify_eq.
  apply server_exec_session in He as [He _]. rewrite session_steps_app, He. simpl. by apply IH.
Qed.

Lemma session_steps_bound log v v' :
  session_steps v log = Some v' → Z.of_nat (size v.2) <= MAX_PENDING_REQUESTS →
  Z.of_nat (size v'.2) <= MAX_PENDING_REQUESTS.
Proof.
  revert v. induction log as [|e log IH]; intros v Hs Hb; simpl in Hs; [by simplify_eq|].
  destruct (session_step v e) as [v1|] eqn:He; simpl in Hs; [|done].
  apply (IH v1); [done|]. destruct e as [n a|id|id]; simpl in He.
  - case_match; by simplify_eq.
  - case_match eqn:Hc; [|done]. boolsimpl. simplify_eq/=.
    rewrite size_union, size_singleton by set_solver. unfold MAX_PENDING_REQUESTS in *. lia.
  - simplify_eq/=. pose proof (subseteq_size (v.2 ∖ {[id]}) v.2). 
    assert (v.2 ∖ {[id]} ⊆ v.2) by set_solver. naive_solver lia.
Qed.
End lemmas.

(** * Properties *)

(** Domain separation: a proof accepted for one side of one channel, one broker instance
    and one pair of nonces is accepted in another such context only if the contexts are the
    same, or the two different MAC inputs collide.  A proof can therefore not be reflected
    to the other side, moved to another channel, or replayed against a fresh challenge. *)
Theorem proof_contexts_separated `{HmacLaws} (token p : bytes)
    (side1 side2 : bool) (ch1 ch2 : AuthChannel) (i1 s1 c1 i2 s2 c2 : bytes)
    (Hi1 : len i1 = 16) (Hi2 : len i2 = 16) (Hs1 : len s1 = 32) (Hs2 : len s2 = 32)
    (Hc1 : len c1 = 32) (Hc2 : len c2 = 32)
    (Hp1 : (if side1 then verify_channel_client_proof else verify_channel_server_proof)
             token ch1 i1 s1 c1 p = true)
    (Hp2 : (if side2 then verify_channel_client_proof else verify_channel_server_proof)
             token ch2 i2 s2 c2 p = true) :
  (side1 = side2 ∧ ch1 = ch2 ∧ i1 = i2 ∧ s1 = s2 ∧ c1 = c2) ∨
  let m1 := proof_mac (side_domain side1 ch1) i1 s1 c1 in
  let m2 := proof_mac (side_domain side2 ch2) i2 s2 c2 in
  m1 ≠ m2 ∧ hmac_tag token m1 = hmac_tag token m2.
Proof.
  assert (∀ side ch i s c,
    (if side : bool then verify_channel_client_proof else verify_channel_server_proof)
      token ch i s c p = true → p = hmac_tag token (proof_mac (side_domain side ch) i s c)) as Hv
    by (intros []; intros; by apply hmac_verify_iff).
  apply Hv in Hp1, Hp2.
  destruct (decide (proof_mac (side_domain side1 ch1) i1 s1 c1 =
                    proof_mac (side_domain side2 ch2) i2 s2 c2)) as [Heq|Hne].
  - left. apply proof_mac_inj in Heq as (Hd&->&->&->); [|done..].
    by apply side_domain_inj in Hd as [-> ->].
  - right. split; [done|congruence].
Qed.

(** A function of the right shape to instantiate the interface. *)
Definition toy_hmac : Hmac :=
  {| hmac_tag k m := be_bytes 32 ((be_val (k ++ m)) `mod` 2 ^ 256);
     hmac_verify_slice k m c :=
       bool_decide (c = be_bytes 32 ((be_val (k ++ m)) `mod` 2 ^ 256)) |}.

Lemma toy_hmac_laws : @HmacLaws toy_hmac.
Proof. split; [intros; apply len_be_bytes|intros; apply bool_decide_eq_true]. Qed.

Definition example_nonce (n : Z) : bytes := be_bytes 32 n.
Definition example_instance : bytes := be_bytes 16 77.
Definition example_token : bytes := be_bytes 32 5.

Lemma proof_contexts_separated_witness :
  let p := @channel_client_proof toy_hmac example_token PrivilegedHost example_instance
             (example_nonce 1) (example_nonce 2) in
  (true = true ∧ PrivilegedHost = PrivilegedHost ∧ example_instance = example_instance ∧
   example_nonce 1 = example_nonce 1 ∧ example_nonce 2 = example_nonce 2) ∨
  let m := proof_mac (side_domain true PrivilegedHost) example_instance (example_nonce 1)
             (example_nonce 2) in
  m ≠ m ∧ @hmac_tag toy_hmac example_token m = @hmac_tag toy_hmac example_token m.
Proof.
  intros p.
  apply (@proof_contexts_separated toy_hmac toy_hmac_laws example_token p); reflexivity.
Defined.

(** [authenticate] succeeds exactly once per connection, and exactly for a well-formed
    frame of the supported version that carries the client's MAC over this connection's
    challenge; it answers with the server's MAC over the same nonces, and any other call
    leaves the connection as it was. *)
Theorem authenticate_exact `{HmacLaws} (frame : LocalIpcClientFrame) (s s' : ServerProtocol)
    (reply : LocalIpcAuthenticated) :
  ServerProtocol_authenticate frame s = (Ok reply, s') ↔
  sp_authenticated s = false ∧ validate_common_frame frame = Ok () ∧
  s' = set_sp_authenticated s ∧
  ∃ a, LocalIpcClientFrame_payload frame = Some (LocalIpcClientFrame_Payload_Authenticate a) ∧
    len (LocalIpcAuthenticate_client_nonce a) = NONCE_BYTES ∧
    LocalIpcAuthenticate_client_proof a =
      client_proof (sp_token s) (sp_instance_id s) (sp_server_nonce s)
        (LocalIpcAuthenticate_client_nonce a) ∧
    LocalIpcAuthenticated_server_proof reply =
      server_proof (sp_token s) (sp_instance_id s) (sp_server_nonce s)
        (LocalIpcAuthenticate_client_nonce a).
Proof.
  split.
  - intros Ha. apply authenticate_inv in Ha as [(?&?&?)|(a&Hr&->&?&?&?&?&?)]; [done|].
    split_and!; try done. exists a. by simplify_eq/=.
  - intros (Ha&Hv&->&a&Hp&Hn&Hc&Hr). rewrite (authenticate_run frame s a) by done.
    do 2 f_equal. destruct reply. by simpl in *; subst.
Qed.

(** A frame that authenticates, and one that asks for the Host status. *)
Definition example_frame (id : text) (p : LocalIpcClientFrame_Payload) : LocalIpcClientFrame :=
  {| LocalIpcClientFrame_protocol_version :=
       Some {| ProtocolVersion_major := 1; ProtocolVersion_minor := 0 |};
     LocalIpcClientFrame_request_id := id;
     LocalIpcClientFrame_payload := Some p |}.

Definition example_authenticate : LocalIpcClientFrame :=
  example_frame (lit "a") (LocalIpcClientFrame_Payload_Authenticate
    {| LocalIpcAuthenticate_client_nonce := example_nonce 2;
       LocalIpcAuthenticate_client_proof :=
         @client_proof toy_hmac example_token example_instance (example_nonce 1)
           (example_nonce 2) |}).

Definition example_server : ServerProtocol :=
  ServerProtocol_new example_token example_instance (example_nonce 1).

Lemma authenticate_exact_witness :
  @ServerProtocol_authenticate toy_hmac example_authenticate example_server =
  (Ok {| LocalIpcAuthenticated_server_proof :=
           @server_proof toy_hmac example_token example_instance (example_nonce 1)
             (example_nonce 2) |}, set_sp_authenticated example_server).
Proof.
  apply (@authenticate_exact toy_hmac toy_hmac_laws).
  split; [reflexivity|]. split; [reflexivity|]. split; [reflexivity|].
  eexists. split; [reflexivity|]. split; [reflexivity|]. split; reflexivity.
Defined.

(** Refinement: in every sequence of frames and completions on one connection, business
    requests are accepted only after the single authentication, never under an identifier that
    is still pending, and the pending set is exactly the requests begun and not completed,
    of which there are never more than 32. *)
Theorem server_log_refines_session `{HmacLaws} (token instance_id server_nonce : bytes)
    (ops : list ServerOp) :
  let '(log, s') := server_run ops (ServerProtocol_new token instance_id server_nonce) in
  session_steps (false, ∅) log = Some (sp_authenticated s', pending_request_ids s') ∧
  Z.of_nat (size (pending_request_ids s')) <= MAX_PENDING_REQUESTS.
Proof.
  destruct (server_run _ _) as [log s'] eqn:Hr. apply server_run_session in Hr. simpl in Hr.
  split; [done|]. apply session_steps_bound in Hr; [done|]. done.
Qed.

Lemma server_log_refines_session_witness :
  let ops := [SrvBegin (example_frame (lit "early") (LocalIpcClientFrame_Payload_GetHostStatus
                          Build_GetHostStatusRequest));
              SrvAuthenticate example_authenticate; SrvAuthenticate example_authenticate;
              SrvBegin (example_frame (lit "r") (LocalIpcClientFrame_Payload_GetHostStatus
                          Build_GetHostStatusRequest));
              SrvComplete (lit "r")] in
  let '(log, s') := @server_run toy_hmac ops example_server in
  session_steps (false, ∅) log = Some (sp_authenticated s', pending_request_ids s') ∧
  Z.of_nat (size (pending_request_ids s')) <= MAX_PENDING_REQUESTS.
Proof. apply (@server_log_refines_session toy_hmac toy_hmac_laws). Defined.
