(* ===== verification/BridgeAuth.v ===== *)
(** Authentication of the privileged bridge, crates/privileged-bridge/src/auth.rs: the bounded
    nonce replay cache and the role-bound challenge-response. *)
From S2P Require Import Prelude IpcAuth.

Local Open Scope Z_scope.

(** * Data *)

Definition BA_NONCE_BYTES : Z := 32.

Inductive BridgeRole := HostAgent | SessionHelper.

#[export] Instance BridgeRole_eq_dec : EqDecision BridgeRole.
Proof. solve_decision. Defined.

Inductive AuthenticationError :=
| AE_InvalidLength | ReflectedNonce | AE_AuthenticationFailed | NonceReused
| AE_AlreadyAuthenticated | InvalidReplayCapacity.

#[export] Instance AuthenticationError_eq_dec : EqDecision AuthenticationError.
Proof. solve_decision. Defined.

Record NonceReplayGuard := {
  used : gset bytes;
  insertion_order : list bytes;
  capacity : nat
}.

Record BridgeAuthenticator := {
  ba_role : BridgeRole;
  ba_secret : IpcToken;
  ba_instance_id : bytes;
  ba_server_nonce : bytes;
  ba_authenticated : bool
}.

(** * Operations *)

Definition BridgeRole_auth_channel (role : BridgeRole) : AuthChannel :=
  match role with HostAgent => PrivilegedHost | SessionHelper => PrivilegedHelper end.

Definition NonceReplayGuard_new (cap : nat) : result AuthenticationError NonceReplayGuard :=
  fail_if (cap =? 0)%nat InvalidReplayCapacity;;
  mret {| used := ∅; insertion_order := []; capacity := cap |}.

Definition NonceReplayGuard_claim (nonce : bytes)
    : M NonceReplayGuard AuthenticationError unit :=
  self ← get;
  fail_if (bool_decide (nonce ∈ used self)) NonceReused;;
  let '(kept, order) :=
    match insertion_order self with
    | expired :: rest =>
        if (size (used self) =? capacity self)%nat then (used self ∖ {[expired]}, rest)
        else (used self, insertion_order self)
    | [] => (used self, [])
    end in
  put {| used := {[nonce]} ∪ kept; insertion_order := order ++ [nonce];
         capacity := capacity self |}.

Section authenticator.
Context `{Hmac}.

Definition BridgeAuthenticator_new (role : BridgeRole) (secret : IpcToken)
    (instance_id server_nonce : bytes) : BridgeAuthenticator :=
  {| ba_role := role; ba_secret := secret; ba_instance_id := instance_id;
     ba_server_nonce := server_nonce; ba_authenticated := false |}.

Definition BridgeAuthenticator_challenge (self : BridgeAuthenticator) : bytes * bytes :=
  (ba_instance_id self, ba_server_nonce self).

Definition set_ba_authenticated (self : BridgeAuthenticator) : BridgeAuthenticator :=
  {| ba_role := ba_role self; ba_secret := ba_secret self;
     ba_instance_id := ba_instance_id self; ba_server_nonce := ba_server_nonce self;
     ba_authenticated := true |}.

(** The state is the authenticator and the replay guard it borrows. *)
Definition BridgeAuthenticator_authenticate (client_nonce client_proof : bytes)
    : M (BridgeAuthenticator * NonceReplayGuard) AuthenticationError bytes :=
  self ← gets fst;
  fail_if (ba_authenticated self) AE_AlreadyAuthenticated;;
  client_nonce ← ok_or (array_of BA_NONCE_BYTES client_nonce) AE_InvalidLength;
  fail_if (negb (len client_proof =? BA_NONCE_BYTES)) AE_InvalidLength;;
  fail_if (bool_decide (client_nonce = ba_server_nonce self)) ReflectedNonce;;
  fail_if (negb (verify_channel_client_proof (ba_secret self)
                   (BridgeRole_auth_channel (ba_role self)) (ba_instance_id self)
                   (ba_server_nonce self) client_nonce client_proof))
          AE_AuthenticationFailed;;
  zoom snd (λ g s, (s.1, g)) (NonceReplayGuard_claim client_nonce);;
  modify (λ s, (set_ba_authenticated s.1, s.2));;
  mret (channel_server_proof (ba_secret self) (BridgeRole_auth_channel (ba_role self))
          (ba_instance_id self) (ba_server_nonce self) client_nonce).
End authenticator.

(** Consecutive claims and their answers. *)
Fixpoint claim_all (nonces : list bytes) (g : NonceReplayGuard) : list bool * NonceReplayGuard :=
  match nonces with
  | [] => ([], g)
  | n :: ns =>
      let '(r, g1) := NonceReplayGuard_claim n g in
      let '(rs, g2) := claim_all ns g1 in (is_ok r :: rs, g2)
  end.

(** * Specification: a sliding window

    A nonce is refused exactly when it is among the last [cap] accepted ones. *)
Definition last_n {A} (n : nat) (l : list A) : list A := drop (length l - n) l.

Definition window_claim (cap : nat) (n : bytes) (accepted : list bytes) : bool * list bytes :=
  if bool_decide (n ∈ last_n cap accepted) then (false, accepted) else (true, accepted ++ [n]).

Fixpoint window_claims (cap : nat) (nonces accepted : list bytes) : list bool * list bytes :=
  match nonces with
  | [] => ([], accepted)
  | n :: ns =>
      let '(b, acc1) := window_claim cap n accepted in
      let '(bs, acc2) := window_claims cap ns acc1 in (b :: bs, acc2)
  end.

(** The guard represents a history of accepted nonces. *)
Record guard_represents (g : NonceReplayGuard) (accepted : list bytes) : Prop := {
  gr_capacity : capacity g ≠ 0%nat;
  gr_order : insertion_order g = last_n (capacity g) accepted;
  gr_nodup : NoDup (insertion_order g);
  gr_used : used g = list_to_set (insertion_order g)
}.

(** * Lemmas *)

Lemma tail_drop {A} k (l : list A) : tail (drop k l) = drop (S k) l.
Proof. revert l. induction k; intros [|??]; simpl; (done || apply IHk). Qed.

Lemma last_n_snoc {A} n (l : list A) x :
  n ≠ 0%nat →
  last_n n (l ++ [x]) = (if (length (last_n n l) =? n)%nat then tail (last_n n l) else last_n n l) ++ [x].
Proof.
  intros Hn. unfold last_n. rewrite length_app, length_drop. simpl.
  destruct (Nat.eqb_spec (length l - (length l - n)) n) as [He|He].
  - rewrite drop_app_le by lia. f_equal.
    replace (length l + 1 - n)%nat with (S (length l - n)) by lia.
    rewrite tail_drop. done.
  - replace (length l + 1 - n)%nat with 0%nat by lia.
    replace (length l - n)%nat with 0%nat by lia. done.
Qed.

Lemma guard_represents_size g acc :
  guard_represents g acc → size (used g) = length (insertion_order g).
Proof. intros [Hc Ho Hn Hu]. rewrite Hu. by apply size_list_to_set. Qed.

Lemma claim_represents n g acc r g' :
  guard_represents g acc → NonceReplayGuard_claim n g = (r, g') →
  (is_ok r, capacity g') = ((window_claim (capacity g) n acc).1, capacity g) ∧
  (r = Err NonceReused ∧ g' = g ∨ r = Ok ()) ∧
  guard_represents g' (window_claim (capacity g) n acc).2.
Proof.
  intros Hg. pose proof (guard_represents_size _ _ Hg) as Hsz. destruct Hg as [Hc Ho Hn Hu].
  unfold NonceReplayGuard_claim, window_claim. unmonad. rewrite <- Ho.
  assert (n ∈ used g ↔ n ∈ insertion_order g) as Hin by (rewrite Hu; set_solver).
  destruct (decide (n ∈ insertion_order g)) as [Hi|Hi].
  { rewrite !bool_decide_eq_true_2 by naive_solver. intros [= <- <-]. split_and!; try done.
    by left. }
  rewrite !bool_decide_eq_false_2 by naive_solver. intros Hr.
  assert (g' = {| used := {[n]} ∪ list_to_set
                    (if (length (insertion_order g) =? capacity g)%nat
                     then tail (insertion_order g) else insertion_order g);
                  insertion_order :=
                    (if (length (insertion_order g) =? capacity g)%nat
                     then tail (insertion_order g) else insertion_order g) ++ [n];
                  capacity := capacity g |} ∧ r = Ok ()) as [-> ->].
  { rewrite Hsz, Hu in Hr. destruct (insertion_order g) as [|x l]; simpl in *.
    - destruct (capacity g); [done|]. by simplify_eq.
    - apply NoDup_cons in Hn as [Hx _].
      match type of Hr with context [if ?b then _ else _] => destruct b end;
        simplify_eq/=; split; try done.
      assert (({[x]} ∪ list_to_set l) ∖ {[x]} =@{gset bytes} list_to_set l) as -> by set_solver.
      done. }
  split_and!; [done|by right|]. simpl.
  clear Hr. set (o := if (length (insertion_order g) =? capacity g)%nat
            then tail (insertion_order g) else insertion_order g).
  assert (n ∉ o) as Hno.
  { subst o. case_match; [|done]. destruct (insertion_order g); set_solver. }
  split; simpl; [done| | |].
  - rewrite last_n_snoc, <- Ho by done. done.
  - apply NoDup_app. split_and!; [|set_solver|apply NoDup_singleton].
    subst o. case_match; [|done]. destruct (insertion_order g); [done|].
    by apply NoDup_cons in Hn as [??].
  - set_solver.
Qed.

Lemma claim_err n g e g' : NonceReplayGuard_claim n g = (Err e, g') → g' = g.
Proof. unfold NonceReplayGuard_claim. intros Hr. run Hr. Qed.

Lemma claim_capacity n g r g' : NonceReplayGuard_claim n g = (r, g') → capacity g' = capacity g.
Proof. unfold NonceReplayGuard_claim. intros Hr. run Hr. Qed.

Lemma claim_fresh n g : n ∉ used g → ∃ g', NonceReplayGuard_claim n g = (Ok (), g').
Proof.
  intros Hn. unfold NonceReplayGuard_claim. unmonad. rewrite bool_decide_eq_false_2 by done.
  repeat case_match; eauto.
Qed.

Section lemmas.
Context `{HmacLaws}.

Lemma ba_authenticate_inv nonce p s r s' :
  BridgeAuthenticator_authenticate nonce p s = (r, s') →
  (∃ e, r = Err e ∧ s' = s) ∨
  (∃ g', NonceReplayGuard_claim nonce s.2 = (Ok (), g') ∧
     s' = (set_ba_authenticated s.1, g') ∧
     r = Ok (channel_server_proof (ba_secret s.1) (BridgeRole_auth_channel (ba_role s.1))
               (ba_instance_id s.1) (ba_server_nonce s.1) nonce) ∧
     ba_authenticated s.1 = false ∧ len nonce = 32 ∧ nonce ≠ ba_server_nonce s.1 ∧
     p = channel_client_proof (ba_secret s.1) (BridgeRole_auth_channel (ba_role s.1))
           (ba_instance_id s.1) (ba_server_nonce s.1) nonce).
Proof.
  unfold BridgeAuthenticator_authenticate. destruct s as [a g]. simpl. intros Hr.
  destruct (array_of BA_NONCE_BYTES nonce) as [x|] eqn:Hx; run Hr; try (left; by eauto).
  all: apply array_of_Some in Hx as [-> Hx].
  all: match goal with H : NonceReplayGuard_claim _ _ = (Err _, _) |- _ =>
         apply claim_err in H as ->; left; by eauto | _ => idtac end.
  right. eexists. split_and!; try done. by apply verify_client_iff.
Qed.
End lemmas.

Lemma claim_all_window nonces g acc :
  guard_represents g acc →
  (claim_all nonces g).1 = (window_claims (capacity g) nonces acc).1 ∧
  capacity (claim_all nonces g).2 = capacity g ∧
  guard_represents (claim_all nonces g).2 (window_claims (capacity g) nonces acc).2.
Proof.
  revert g acc. induction nonces as [|n ns IH]; intros g acc Hg; simpl; [done|].
  destruct (NonceReplayGuard_claim n g) as [r g1] eqn:Hc.
  apply (claim_represents _ _ acc) in Hc as ([= Hb Hcap]&_&Hg1); [|done].
  destruct (window_claim (capacity g) n acc) as [b acc1]. simpl in *.
  specialize (IH g1 acc1 Hg1). rewrite Hcap in IH.
  destruct (claim_all ns g1), (window_claims (capacity g) ns acc1). simpl in *.
  destruct IH as (->&->&?). by rewrite Hb.
Qed.

(** * Properties *)

(** Refinement: over any sequence of claims the replay cache answers exactly as a sliding
    window over the accepted history does: a nonce is refused if and only if it is one of
    the last [cap] accepted nonces, and the cache holds exactly these. *)
Theorem replay_guard_refines_window (cap : nat) (g : NonceReplayGuard) (nonces : list bytes)
    (Hg : NonceReplayGuard_new cap = Ok g) :
  (claim_all nonces g).1 = (window_claims cap nonces []).1 ∧
  insertion_order (claim_all nonces g).2 = last_n cap (window_claims cap nonces []).2 ∧
  used (claim_all nonces g).2 = list_to_set (last_n cap (window_claims cap nonces []).2).
Proof.
  unfold NonceReplayGuard_new in Hg. run Hg. rename select (_ = false) into Hcap0. apply Nat.eqb_neq in Hcap0.
  assert (guard_represents {| used := ∅; insertion_order := []; capacity := cap |} []) as Hr.
  { split; simpl; try done. apply NoDup_nil_2. }
  destruct (claim_all_window nonces _ _ Hr) as (Hb&Hcap&[Hc Ho Hn Hu]). simpl in *.
  rewrite Hcap in Ho. split_and!; [done|done|]. by rewrite Hu, Ho.
Qed.

Lemma replay_guard_refines_window_witness :
  let g := {| used := ∅; insertion_order := []; capacity := 2 |} in
  let nonces := [example_nonce 1; example_nonce 2; example_nonce 1; example_nonce 3;
                 example_nonce 1; example_nonce 3] in
  (claim_all nonces g).1 = (window_claims 2 nonces []).1 ∧
  insertion_order (claim_all nonces g).2 = last_n 2 (window_claims 2 nonces []).2 ∧
  used (claim_all nonces g).2 = list_to_set (last_n 2 (window_claims 2 nonces []).2).
Proof. apply replay_guard_refines_window. reflexivity. Defined.

Example window_answers :
  (window_claims 2 [example_nonce 1; example_nonce 2; example_nonce 1; example_nonce 3;
                    example_nonce 1; example_nonce 3] []).1 =
  [true; true; false; true; true; false].
Proof. vm_compute. reflexivity. Qed.

(** A bridge connection authenticates exactly when it has not done so before, the nonce has
    the right length and is not the broker's own, the proof is the MAC of this role's channel
    over this challenge, and the replay cache has not seen the nonce; it then answers with the
    MAC of the server side.  In every other case neither the connection nor the replay cache
    changes, so a failed attempt cannot evict a recorded nonce. *)
Theorem bridge_authenticate_exact `{HmacLaws} (nonce p : bytes)
    (a : BridgeAuthenticator) (g : NonceReplayGuard) :
  let channel := BridgeRole_auth_channel (ba_role a) in
  let '(r, s') := BridgeAuthenticator_authenticate nonce p (a, g) in
  if decide (ba_authenticated a = false ∧ len nonce = 32 ∧ nonce ≠ ba_server_nonce a ∧
       p = channel_client_proof (ba_secret a) channel (ba_instance_id a) (ba_server_nonce a) nonce ∧
       nonce ∉ used g)
  then r = Ok (channel_server_proof (ba_secret a) channel (ba_instance_id a)
                 (ba_server_nonce a) nonce) ∧
       s' = (set_ba_authenticated a, (NonceReplayGuard_claim nonce g).2)
  else is_ok r = false ∧ s' = (a, g).
Proof.
  intros channel. destruct (BridgeAuthenticator_authenticate nonce p (a, g)) as [r s'] eqn:Ha.
  case_decide as Hd.
  - destruct Hd as (Hf&Hl&Hne&Hp&Hu). revert Ha. unfold BridgeAuthenticator_authenticate.
    apply verify_client_iff in Hp as Hv.
    assert (len p = 32) as Hlp by (rewrite Hp; apply hmac_tag_len).
    assert (array_of BA_NONCE_BYTES nonce = Some nonce) as Harr by by apply array_of_Some.
    unmonad. rewrite Hf. simpl. rewrite Harr. simpl. rewrite Hlp. simpl.
    rewrite bool_decide_eq_false_2 by done. simpl. fold channel. rewrite Hv. simpl.
    destruct (claim_fresh nonce g Hu) as [g' ->]. by intros [= <- <-].
  - apply ba_authenticate_inv in Ha as [(e&->&->)|(g'&Hc&->&->&?&?&?&?)]; [done|].
    destruct Hd. split_and!; try done. intros Hu. unfold NonceReplayGuard_claim in Hc.
    revert Hc. unmonad. by rewrite bool_decide_eq_true_2.
Qed.

Definition example_authenticator : BridgeAuthenticator :=
  BridgeAuthenticator_new SessionHelper example_token example_instance (example_nonce 1).

Definition example_guard : NonceReplayGuard :=
  {| used := ∅; insertion_order := []; capacity := 2 |}.

Definition example_proof : bytes :=
  @channel_client_proof toy_hmac example_token PrivilegedHelper example_instance
    (example_nonce 1) (example_nonce 2).

Lemma bridge_authenticate_exact_witness :
  let channel := BridgeRole_auth_channel (ba_role example_authenticator) in
  let '(r, s') := @BridgeAuthenticator_authenticate toy_hmac (example_nonce 2) example_proof
                    (example_authenticator, example_guard) in
  if decide (ba_authenticated example_authenticator = false ∧ len (example_nonce 2) = 32 ∧
       example_nonce 2 ≠ ba_server_nonce example_authenticator ∧
       example_proof = @channel_client_proof toy_hmac (ba_secret example_authenticator) channel
         (ba_instance_id example_authenticator) (ba_server_nonce example_authenticator)
         (example_nonce 2) ∧
       example_nonce 2 ∉ used example_guard)
  then r = Ok (@channel_server_proof toy_hmac (ba_secret example_authenticator) channel
                 (ba_instance_id example_authenticator) (ba_server_nonce example_authenticator)
                 (example_nonce 2)) ∧
       s' = (set_ba_authenticated example_authenticator,
             (NonceReplayGuard_claim (example_nonce 2) example_guard).2)
  else is_ok r = false ∧ s' = (example_authenticator, example_guard).
Proof.
  exact (@bridge_authenticate_exact toy_hmac toy_hmac_laws (example_nonce 2) example_proof
           example_authenticator example_guard).
Defined.
