(* ===== verification/BridgeQueue.v ===== *)
(** The two bounded queues of the privileged bridge, crates/privileged-bridge/src/framing.rs:
    the pending request table and the fail-closed event queue. *)
From S2P Require Import Prelude Limits.

Local Open Scope Z_scope.

(** * Requests *)

Definition BRIDGE_MAX_PENDING_REQUESTS : Z := 32.
Definition MAX_CRITICAL_EVENTS : Z := 256.

Inductive RequestError := RQ_InvalidRequestId | DuplicateRequest | PendingLimit | StaleResponse.

#[export] Instance RequestError_eq_dec : EqDecision RequestError.
Proof. solve_decision. Defined.

Record RequestTracker := { pending_requests : gset text }.

Definition RequestTracker_new : RequestTracker := {| pending_requests := ∅ |}.

Definition RequestTracker_begin (request_id : text) : M RequestTracker RequestError unit :=
  self ← get;
  fail_if (bool_decide (request_id = []) || (MAX_REQUEST_ID_UTF8_BYTES <? text_len request_id))
          RQ_InvalidRequestId;;
  fail_if (bool_decide (request_id ∈ pending_requests self)) DuplicateRequest;;
  fail_if (BRIDGE_MAX_PENDING_REQUESTS <=? Z.of_nat (size (pending_requests self))) PendingLimit;;
  put {| pending_requests := {[request_id]} ∪ pending_requests self |}.

Definition RequestTracker_complete (request_id : text) : M RequestTracker RequestError unit :=
  self ← get;
  put {| pending_requests := pending_requests self ∖ {[request_id]} |};;
  fail_if (negb (bool_decide (request_id ∈ pending_requests self))) StaleResponse.

Definition RequestTracker_pending_count (self : RequestTracker) : Z :=
  Z.of_nat (size (pending_requests self)).

(** * Events *)

Inductive EventQueueError := CriticalOverflow | EQ_Failed.

#[export] Instance EventQueueError_eq_dec : EqDecision EventQueueError.
Proof. solve_decision. Defined.

Section queue.
Context {T : Type}.

Record EventQueue := {
  critical : list T;
  fast : option T;
  eq_failed : bool
}.

Definition EventQueue_new : EventQueue := {| critical := []; fast := None; eq_failed := false |}.

Definition set_critical (c : list T) (q : EventQueue) : EventQueue :=
  {| critical := c; fast := fast q; eq_failed := eq_failed q |}.

Definition set_fast (f : option T) (q : EventQueue) : EventQueue :=
  {| critical := critical q; fast := f; eq_failed := eq_failed q |}.

Definition EventQueue_fail_closed (q : EventQueue) : EventQueue :=
  {| critical := []; fast := None; eq_failed := true |}.

Definition EventQueue_push_critical (event : T) : M EventQueue EventQueueError unit :=
  self ← get;
  fail_if (eq_failed self) EQ_Failed;;
  if MAX_CRITICAL_EVENTS <=? len (critical self) then
    modify EventQueue_fail_closed;; mthrow CriticalOverflow
  else modify (set_critical (critical self ++ [event])).

Definition EventQueue_push_fast (event : T) : M EventQueue EventQueueError unit :=
  self ← get;
  fail_if (eq_failed self) EQ_Failed;;
  modify (set_fast (Some event)).

Definition EventQueue_pop_critical : M EventQueue EventQueueError (option T) :=
  self ← get;
  fail_if (eq_failed self) EQ_Failed;;
  match critical self with
  | [] => mret None
  | e :: rest => modify (set_critical rest);; mret (Some e)
  end.

(** [pop_fast] returns an [Option] and cannot fail. *)
Definition EventQueue_pop_fast (self : EventQueue) : option T * EventQueue :=
  if eq_failed self then (None, self) else (fast self, set_fast None self).

(** ** Runs *)
Inductive QueueOp := QPushCritical (e : T) | QPushFast (e : T) | QPopCritical | QPopFast.

Inductive QueueLog :=
| QAccepted (e : T) | QOverflow | QRefused | QFastSet (e : T)
| QPopped (e : option T) | QFastPopped (e : option T).

Definition queue_exec (op : QueueOp) (q : EventQueue) : QueueLog * EventQueue :=
  match op with
  | QPushCritical e =>
      let '(r, q') := EventQueue_push_critical e q in
      (match r with Ok _ => QAccepted e | Err CriticalOverflow => QOverflow
       | Err EQ_Failed => QRefused end, q')
  | QPushFast e =>
      let '(r, q') := EventQueue_push_fast e q in
      (match r with Ok _ => QFastSet e | Err _ => QRefused end, q')
  | QPopCritical =>
      let '(r, q') := EventQueue_pop_critical q in
      (match r with Ok o => QPopped o | Err _ => QRefused end, q')
  | QPopFast => let '(o, q') := EventQueue_pop_fast q in (QFastPopped o, q')
  end.

Fixpoint queue_run (ops : list QueueOp) (q : EventQueue) : list QueueLog * EventQueue :=
  match ops with
  | [] => ([], q)
  | op :: ops' =>
      let '(l, q1) := queue_exec op q in
      let '(l', q2) := queue_run ops' q1 in (l :: l', q2)
  end.

Definition accepted (log : list QueueLog) : list T :=
  log ≫= λ l, match l with QAccepted e => [e] | _ => [] end.

Definition delivered (log : list QueueLog) : list T :=
  log ≫= λ l, match l with QPopped (Some e) => [e] | _ => [] end.

(** An answer after the failure: refused, or no fast event. *)
Definition after_failure (l : QueueLog) : bool :=
  match l with QRefused | QFastPopped None => true | _ => false end.

(** Every [QOverflow] of the log is followed only by answers after the failure. *)
Fixpoint fails_closed (log : list QueueLog) : bool :=
  match log with
  | [] => true
  | QOverflow :: log' => forallb after_failure log'
  | QRefused :: _ => false
  | _ :: log' => fails_closed log'
  end.

Definition overflowed (log : list QueueLog) : bool :=
  existsb (λ l, match l with QOverflow => true | _ => false end) log.

(** ** Lemmas *)

Lemma queue_run_failed ops q :
  eq_failed q = true → critical q = [] →
  forallb after_failure (queue_run ops q).1 = true ∧ (queue_run ops q).2 = q ∧
  overflowed (queue_run ops q).1 = false ∧ accepted (queue_run ops q).1 = [] ∧
  delivered (queue_run ops q).1 = [].
Proof.
  intros Hf Hc. induction ops as [|op ops IH]; simpl; [done|].
  destruct (queue_exec op q) as [l q1] eqn:He.
  assert (q1 = q ∧ (l = QRefused ∨ l = QFastPopped None)) as [-> Hl].
  { destruct op; simpl in He; revert He;
      unfold EventQueue_push_critical, EventQueue_push_fast, EventQueue_pop_critical,
        EventQueue_pop_fast; unmonad; rewrite Hf; intros; simplify_eq/=; by auto. }
  destruct (queue_run ops q) as [l' q2]. simpl in *.
  destruct IH as (?&?&?&?&?). by destruct Hl as [-> | ->].
Qed.

Lemma queue_run_fifo ops q :
  eq_failed q = false → len (critical q) <= MAX_CRITICAL_EVENTS →
  let '(log, q') := queue_run ops q in
  fails_closed log = true ∧ eq_failed q' = overflowed log ∧
  len (critical q') <= MAX_CRITICAL_EVENTS ∧
  (overflowed log = false → critical q ++ accepted log = delivered log ++ critical q') ∧
  ∃ lost, critical q ++ accepted log = delivered log ++ lost.
Proof.
  revert q. induction ops as [|op ops IH]; intros q Hf Hc; simpl.
  { split_and!; try done; [by rewrite app_nil_r|]. exists (critical q). by rewrite app_nil_r. }
  destruct (queue_exec op q) as [l q1] eqn:He. specialize (IH q1).
  destruct op as [e|e| |]; simpl in He; revert He;
    unfold EventQueue_push_critical, EventQueue_push_fast, EventQueue_pop_critical,
      EventQueue_pop_fast; unmonad; rewrite ?Hf; intros.
  - destruct (Z.leb_spec MAX_CRITICAL_EVENTS (len (critical q))); simplify_eq/=.
    + pose proof (queue_run_failed ops (EventQueue_fail_closed q) eq_refl eq_refl) as Hq.
      destruct (queue_run ops _) as [log q2]. simpl in *. destruct Hq as (?&->&?&Ha&Hd).
      unfold accepted, delivered in *. rewrite Ha, Hd. simpl.
      split_and!; try done. exists (critical q). by rewrite app_nil_r.
    + destruct (queue_run ops _) as [log q2]. simpl in *. rewrite len_app, len_cons, len_nil in IH.
      destruct IH as (?&?&?&Ho&lost&Hl); [done|lia|]. rewrite <- app_assoc in Ho, Hl.
      split_and!; eauto.
  - simplify_eq/=. destruct (queue_run ops _) as [log q2]. simpl in *.
    destruct IH as (?&?&?&Ho&lost&Hl); [done|done|]. split_and!; eauto.
  - destruct (critical q) as [|e rest] eqn:Hcq; simplify_eq/=.
    + destruct (queue_run ops _) as [log q2]. simpl in *. rewrite Hcq in IH.
      destruct IH as (?&?&?&Ho&lost&Hl); [done|done|]. split_and!; eauto.
    + destruct (queue_run ops _) as [log q2]. simpl in *. rewrite len_cons in Hc.
      destruct IH as (?&?&?&Ho&lost&Hl); [done|lia|]. split_and!; try done.
      * intros Hv. f_equal. auto.
      * exists lost. f_equal. done.
  - simplify_eq/=. destruct (queue_run ops _) as [log q2]. simpl in *.
    destruct IH as (?&?&?&Ho&lost&Hl); [done|done|]. split_and!; eauto.
Qed.
End queue.
Arguments EventQueue T : clear implicits.

(** ** Requests: lemmas *)

Lemma tracker_begin_inv id s r s' :
  RequestTracker_begin id s = (r, s') →
  (∃ e, r = Err e ∧ s' = s) ∨
  (r = Ok () ∧ id ≠ [] ∧ text_len id <= MAX_REQUEST_ID_UTF8_BYTES ∧
   id ∉ pending_requests s ∧ RequestTracker_pending_count s < BRIDGE_MAX_PENDING_REQUESTS ∧
   pending_requests s' = {[id]} ∪ pending_requests s).
Proof.
  unfold RequestTracker_begin. intros Hr. run Hr; try (left; by eauto). right. by split_and!.
Qed.

(** * Properties *)

(** The event queue is a FIFO of at most 256 critical events that fails closed: critical
    events are delivered in the order in which they were accepted, none lost or repeated as
    long as the queue has not overflowed; the first push beyond the bound is the only one
    answered with an overflow, and from then on nothing is ever accepted or delivered. *)
Theorem EventQueue_fifo_fail_closed {T} (ops : list (@QueueOp T)) :
  let '(log, q) := queue_run ops EventQueue_new in
  fails_closed log = true ∧ eq_failed q = overflowed log ∧
  len (critical q) <= MAX_CRITICAL_EVENTS ∧
  (overflowed log = false → accepted log = delivered log ++ critical q) ∧
  ∃ lost, accepted log = delivered log ++ lost.
Proof. by apply (queue_run_fifo ops EventQueue_new). Qed.

(** A response is matched to exactly one request: [complete] succeeds if and only if the
    identifier was begun and not yet completed, an identifier cannot be begun twice while
    pending, and begin followed by complete restores the table. *)
Theorem RequestTracker_correlates (id : text) (s : RequestTracker) :
  (∀ s', RequestTracker_begin id s = (Ok (), s') →
     RequestTracker_complete id s' = (Ok (), s) ∧
     (RequestTracker_begin id s').1 = Err DuplicateRequest ∧
     RequestTracker_pending_count s' = RequestTracker_pending_count s + 1 ∧
     RequestTracker_pending_count s' <= BRIDGE_MAX_PENDING_REQUESTS) ∧
  ((RequestTracker_complete id s).1 = Ok () ↔ id ∈ pending_requests s) ∧
  (id ∉ pending_requests s → (RequestTracker_complete id s).2 = s).
Proof.
  destruct s as [p]. split_and!.
  - intros [p'] Hb. apply tracker_begin_inv in Hb as [(?&?&?)|(_&Hne&Hl&Hid&Hc&Hp)]; [done|].
    unfold RequestTracker_pending_count in *. simpl in *. subst p'.
    rewrite size_union, size_singleton by set_solver. split_and!.
    + unfold RequestTracker_complete. unmonad. rewrite bool_decide_eq_true_2 by set_solver.
      simpl. do 2 f_equal. set_solver.
    + unfold RequestTracker_begin. unmonad. rewrite bool_decide_eq_false_2 by done.
      rewrite (proj2 (Z.ltb_ge _ _)) by done. simpl.
      by rewrite bool_decide_eq_true_2 by set_solver.
    + lia.
    + lia.
  - unfold RequestTracker_complete. unmonad. destruct (decide (id ∈ p)).
    + by rewrite bool_decide_eq_true_2.
    + by rewrite bool_decide_eq_false_2.
  - intros Hid. unfold RequestTracker_complete. unmonad. simpl in Hid.
    rewrite bool_decide_eq_false_2 by done. simpl. f_equal. set_solver.
Qed.
