(* ===== verification/Validation.v ===== *)
(** Validation of decoded protocol messages, gen/rust/src/validation.rs.

    One definition per Rust function, in the order of the checks; decoding itself is the
    interface [Message]. *)
From S2P Require Import Prelude Limits Messages.

Local Open Scope Z_scope.

(** * Errors and primitive checks *)

Inductive ValidationError :=
| VE_MessageTooLarge | VE_InvalidProtocolVersion | VE_MissingPayload | VE_InvalidLength
| VE_InvalidEnum | VE_InvalidState | VE_InvalidUtf8Length | VE_InvalidLifetime
| VE_DuplicateValue.

#[export] Instance ValidationError_eq_dec : EqDecision ValidationError.
Proof. solve_decision. Defined.

Abbreviation V A := (result ValidationError A).

Definition ValidationError_wire_name (e : ValidationError) : string :=
  match e with
  | VE_MessageTooLarge => "message_too_large"
  | VE_InvalidProtocolVersion => "invalid_protocol_version"
  | VE_MissingPayload => "missing_payload"
  | VE_InvalidLength => "invalid_length"
  | VE_InvalidEnum => "invalid_enum"
  | VE_InvalidState => "invalid_state"
  | VE_InvalidUtf8Length => "invalid_utf8_length"
  | VE_InvalidLifetime => "invalid_lifetime"
  | VE_DuplicateValue => "duplicate_value"
  end.

Definition validate_encoded_length (encoded : bytes) (maximum : Z) : V unit :=
  fail_if (maximum <? len encoded) VE_MessageTooLarge.

Definition validate_length (value : bytes) (expected : Z) : V unit :=
  fail_if (negb (len value =? expected)) VE_InvalidLength.

Definition validate_utf8_length (value : text) (maximum : Z) : V unit :=
  fail_if (maximum <? text_len value) VE_InvalidUtf8Length.

Definition validate_nonempty_utf8_length (value : text) (maximum : Z) : V unit :=
  fail_if (bool_decide (value = [])) VE_InvalidLength;;
  validate_utf8_length value maximum.

Definition validate_rendezvous_lifetime (issued_at expires_at : Z) : V unit :=
  lifetime ← ok_or (checked_sub expires_at issued_at) VE_InvalidLifetime;
  fail_if (PAIRING_RENDEZVOUS_LIFETIME_MS <? lifetime) VE_InvalidLifetime.

(** The argument is the result of [T::try_from]. *)
Definition validate_nonzero_enum `{ProtoEnum E} (value : option E) : V unit :=
  value ← ok_or value VE_InvalidEnum;
  fail_if (to_i32 value =? 0) VE_InvalidEnum.

Definition validate_protocol_version (version : option ProtocolVersion) : V unit :=
  version ← ok_or version VE_InvalidProtocolVersion;
  fail_if (negb (ProtocolVersion_major version =? PROTOCOL_MAJOR_VERSION) ||
           negb (is_some (checked_sub (ProtocolVersion_minor version)
                            MINIMUM_PROTOCOL_MINOR_VERSION)))
          VE_InvalidProtocolVersion.

(** [for x in l { check(x)?; }] *)
Fixpoint validate_each {A} (check : A → V unit) (l : list A) : V unit :=
  match l with
  | [] => Ok ()
  | x :: l' => check x;; validate_each check l'
  end.

(** The loop of [validate_permissions] and [validate_capability_negotiation]: every value is a
    known nonzero enumerator, and none occurs twice ([seen.insert]). *)
Fixpoint validate_distinct (check : Z → V unit) (seen : gset Z) (values : list Z) : V unit :=
  match values with
  | [] => Ok ()
  | value :: values' =>
      check value;;
      fail_if (bool_decide (value ∈ seen)) VE_DuplicateValue;;
      validate_distinct check ({[value]} ∪ seen) values'
  end.

Definition validate_permissions (permissions : list Z) : V unit :=
  validate_distinct (λ value, validate_nonzero_enum (SessionPermission_try_from value))
    ∅ permissions.

Definition validate_unified_error (error : UnifiedError) : V unit :=
  validate_nonzero_enum (ErrorCode_try_from (UnifiedError_code error));;
  validate_utf8_length (UnifiedError_message_key error) MAX_MESSAGE_KEY_UTF8_BYTES;;
  validate_utf8_length (UnifiedError_request_id error) MAX_REQUEST_ID_UTF8_BYTES;;
  match UnifiedError_details error with
  | None => Ok ()
  | Some (UnifiedError_Details_RetryAfter _) => Ok ()
  | Some (UnifiedError_Details_Permission value) =>
      validate_utf8_length (PermissionDetails_permission value) MAX_ERROR_DETAIL_UTF8_BYTES
  | Some (UnifiedError_Details_Codec value) =>
      validate_each (λ codec, validate_utf8_length codec MAX_ERROR_DETAIL_UTF8_BYTES)
        (CodecDetails_supported_codecs value)
  | Some (UnifiedError_Details_Transport value) =>
      validate_utf8_length (TransportDetails_transport value) MAX_ERROR_DETAIL_UTF8_BYTES
  end.

(** * Identities and sessions *)

Definition validate_device_identity (identity : DeviceIdentity) : V unit :=
  validate_length (DeviceIdentity_device_id identity) DEVICE_ID_BYTES;;
  validate_length (DeviceIdentity_public_key identity) PUBLIC_KEY_BYTES;;
  fail_if (negb (bool_decide
             (PublicKeyAlgorithm_try_from (DeviceIdentity_public_key_algorithm identity) =
              Some PublicKeyAlgorithm_Ed25519))) VE_InvalidEnum;;
  validate_nonzero_enum (DevicePlatform_try_from (DeviceIdentity_platform identity));;
  validate_utf8_length (DeviceIdentity_display_name identity) MAX_DEVICE_NAME_UTF8_BYTES.

Definition validate_session_status (status : SessionStatus) : V unit :=
  let id := SessionStatus_session_id status in
  let error := SessionStatus_error status in
  fail_if (negb (bool_decide (id = [])) && negb (len id =? SESSION_ID_BYTES)) VE_InvalidLength;;
  state ← ok_or (SessionState_try_from (SessionStatus_state status)) VE_InvalidEnum;
  fail_if (bool_decide (state = SessionState_Unspecified)) VE_InvalidEnum;;
  match state with
  | SessionState_Idle =>
      fail_if (negb (bool_decide (id = [])) || is_some error) VE_InvalidState
  | SessionState_Signaling | SessionState_Authenticating | SessionState_Connecting
  | SessionState_Connected | SessionState_Reconnecting | SessionState_Closing =>
      validate_length id SESSION_ID_BYTES;;
      fail_if (is_some error) VE_InvalidState
  | SessionState_Failed =>
      validate_length id SESSION_ID_BYTES;;
      error ← ok_or error VE_InvalidState;
      validate_unified_error error
  | SessionState_Unspecified => Err VE_InvalidEnum
  end.

Definition validate_remote_session_status_snapshot (snapshot : RemoteSessionStatusSnapshot)
    : V unit :=
  status ← ok_or (RemoteSessionStatusSnapshot_session_status snapshot) VE_MissingPayload;
  validate_session_status status;;
  state ← ok_or (SessionState_try_from (SessionStatus_state status)) VE_InvalidEnum;
  let controller := RemoteSessionStatusSnapshot_controller_device_id snapshot in
  if bool_decide (state = SessionState_Idle) then
    if bool_decide (controller = []) then Ok () else Err VE_InvalidState
  else validate_length controller DEVICE_ID_BYTES.

(** * The privileged bridge *)

Definition validate_generation (generation : Z) : V unit :=
  fail_if (generation =? 0) VE_InvalidState.

Definition validate_privileged_lease_ref (lease_id : bytes) (generation : Z) : V unit :=
  validate_length lease_id PRIVILEGED_LEASE_ID_BYTES;;
  validate_generation generation.

Definition validate_privileged_bridge_frame_header (version : option ProtocolVersion)
    (request_id : text) (sequence : Z) : V unit :=
  validate_protocol_version version;;
  validate_utf8_length request_id MAX_REQUEST_ID_UTF8_BYTES;;
  fail_if (sequence =? 0) VE_InvalidState.

Definition validate_privileged_session_descriptor (d : PrivilegedSessionDescriptor) : V unit :=
  platform ← ok_or (DevicePlatform_try_from (PrivilegedSessionDescriptor_platform d))
                   VE_InvalidEnum;
  fail_if (negb (bool_decide (platform = DevicePlatform_Windows ∨
                              platform = DevicePlatform_Macos))) VE_InvalidEnum;;
  validate_nonzero_enum
    (InteractiveDesktopKind_try_from (PrivilegedSessionDescriptor_desktop_kind d));;
  fail_if ((PrivilegedSessionDescriptor_os_session_id d =? 0) ||
           (PrivilegedSessionDescriptor_generation d =? 0)) VE_InvalidState.

Definition validate_privileged_lease (value : PrivilegedLease) : V unit :=
  validate_privileged_lease_ref (PrivilegedLease_lease_id value)
    (PrivilegedLease_generation value);;
  validate_length (PrivilegedLease_session_id value) SESSION_ID_BYTES;;
  validate_permissions (PrivilegedLease_permissions value);;
  validate_nonempty_utf8_length (PrivilegedLease_controller_display_name value)
    MAX_DEVICE_NAME_UTF8_BYTES;;
  fail_if (PrivilegedLease_expires_at_unix_ms value <=? PrivilegedLease_issued_at_unix_ms value)
          VE_InvalidLifetime.

Definition validate_session_description (d : WebRtcSessionDescription)
    (expected_type : SessionDescriptionType) : V unit :=
  fail_if (negb (bool_decide (SessionDescriptionType_try_from (WebRtcSessionDescription_type d)
                              = Some expected_type))) VE_InvalidState;;
  validate_nonempty_utf8_length (WebRtcSessionDescription_sdp d) MAX_SDP_UTF8_BYTES;;
  validate_length (WebRtcSessionDescription_dtls_fingerprint_sha256 d) NONCE_OR_HASH_BYTES.

Definition validate_ice_candidate (c : IceCandidate) : V unit :=
  validate_nonempty_utf8_length (IceCandidate_candidate c) MAX_ICE_CANDIDATE_UTF8_BYTES;;
  validate_utf8_length (IceCandidate_sdp_mid c) MAX_SDP_MID_UTF8_BYTES.

Definition validate_ice_server (server : PrivilegedIceServer) : V unit :=
  fail_if (bool_decide (PrivilegedIceServer_urls server = []) ||
           (MAX_PRIVILEGED_ICE_URLS_PER_SERVER <? len (PrivilegedIceServer_urls server)))
          VE_InvalidLength;;
  validate_each (λ url, validate_nonempty_utf8_length url MAX_SIGNALING_ENDPOINT_UTF8_BYTES)
    (PrivilegedIceServer_urls server);;
  validate_utf8_length (PrivilegedIceServer_username server) MAX_ERROR_DETAIL_UTF8_BYTES;;
  validate_utf8_length (PrivilegedIceServer_credential server) MAX_ERROR_DETAIL_UTF8_BYTES.

Definition validate_privileged_peer_configuration (c : PrivilegedPeerConfiguration) : V unit :=
  validate_nonzero_enum
    (PrivilegedIceTransportPolicy_try_from (PrivilegedPeerConfiguration_ice_transport_policy c));;
  fail_if (MAX_PRIVILEGED_ICE_SERVERS <? len (PrivilegedPeerConfiguration_ice_servers c))
          VE_InvalidLength;;
  validate_each validate_ice_server (PrivilegedPeerConfiguration_ice_servers c).

Definition validate_privileged_peer_request (lease_id : bytes) (generation : Z)
    (configuration : option PrivilegedPeerConfiguration)
    (offer : option WebRtcSessionDescription) (controller_display_name : text) : V unit :=
  validate_privileged_lease_ref lease_id generation;;
  configuration ← ok_or configuration VE_MissingPayload;
  validate_privileged_peer_configuration configuration;;
  validate_nonempty_utf8_length controller_display_name MAX_DEVICE_NAME_UTF8_BYTES;;
  offer ← ok_or offer VE_MissingPayload;
  validate_session_description offer SessionDescriptionType_Offer.

Definition validate_privileged_input_command (command : PrivilegedInputCommand) : V unit :=
  validate_privileged_lease_ref (PrivilegedInputCommand_lease_id command)
    (PrivilegedInputCommand_generation command);;
  input ← ok_or (PrivilegedInputCommand_input command) VE_MissingPayload;
  match input with
  | PrivilegedInputCommand_Input_PointerButton value =>
      validate_nonzero_enum (PointerButton_try_from (PointerButtonEvent_button value));;
      validate_nonzero_enum (ButtonAction_try_from (PointerButtonEvent_action value))
  | PrivilegedInputCommand_Input_Keyboard value =>
      validate_nonzero_enum (KeyboardAction_try_from (KeyboardEvent_action value))
  | PrivilegedInputCommand_Input_Text value =>
      validate_utf8_length (TextInputEvent_text value) MAX_TEXT_INPUT_UTF8_BYTES
  | PrivilegedInputCommand_Input_PointerMove _
  | PrivilegedInputCommand_Input_PointerScroll _
  | PrivilegedInputCommand_Input_ReleaseAll _ => Ok ()
  end.

Definition validate_privileged_bridge_client_payload
    (payload : PrivilegedBridgeClientFrame_Payload) : V unit :=
  match payload with
  | PrivilegedBridgeClientFrame_Payload_Authenticate value =>
      validate_nonzero_enum
        (PrivilegedBridgeRole_try_from (PrivilegedBridgeAuthenticate_role value));;
      validate_length (PrivilegedBridgeAuthenticate_client_nonce value)
        PRIVILEGED_BRIDGE_NONCE_BYTES;;
      validate_length (PrivilegedBridgeAuthenticate_client_proof value)
        PRIVILEGED_BRIDGE_PROOF_BYTES;;
      validate_length (PrivilegedBridgeAuthenticate_executable_sha256 value)
        EXECUTABLE_SHA256_BYTES;;
      fail_if (PrivilegedBridgeAuthenticate_os_session_id value =? 0) VE_InvalidState
  | PrivilegedBridgeClientFrame_Payload_RegisterHelper value =>
      session ← ok_or (RegisterPrivilegedHelperRequest_session value) VE_MissingPayload;
      validate_privileged_session_descriptor session
  | PrivilegedBridgeClientFrame_Payload_AcquireLease value =>
      validate_length (AcquirePrivilegedLeaseRequest_session_id value) SESSION_ID_BYTES;;
      validate_generation (AcquirePrivilegedLeaseRequest_generation value);;
      validate_permissions (AcquirePrivilegedLeaseRequest_permissions value);;
      validate_nonempty_utf8_length
        (AcquirePrivilegedLeaseRequest_controller_display_name value) MAX_DEVICE_NAME_UTF8_BYTES
  | PrivilegedBridgeClientFrame_Payload_RenewLease value =>
      validate_privileged_lease_ref (RenewPrivilegedLeaseRequest_lease_id value)
        (RenewPrivilegedLeaseRequest_generation value)
  | PrivilegedBridgeClientFrame_Payload_ReleaseLease value =>
      validate_privileged_lease_ref (ReleasePrivilegedLeaseRequest_lease_id value)
        (ReleasePrivilegedLeaseRequest_generation value)
  | PrivilegedBridgeClientFrame_Payload_StartPeer value =>
      validate_privileged_peer_request (StartPrivilegedPeerRequest_lease_id value)
        (StartPrivilegedPeerRequest_generation value)
        (StartPrivilegedPeerRequest_configuration value)
        (StartPrivilegedPeerRequest_offer value)
        (StartPrivilegedPeerRequest_controller_display_name value)
  | PrivilegedBridgeClientFrame_Payload_RestartPeer value =>
      validate_privileged_peer_request (RestartPrivilegedPeerRequest_lease_id value)
        (RestartPrivilegedPeerRequest_generation value)
        (RestartPrivilegedPeerRequest_configuration value)
        (RestartPrivilegedPeerRequest_offer value)
        (RestartPrivilegedPeerRequest_controller_display_name value)
  | PrivilegedBridgeClientFrame_Payload_AddIceCandidate value =>
      validate_privileged_lease_ref (AddPrivilegedIceCandidateRequest_lease_id value)
        (AddPrivilegedIceCandidateRequest_generation value);;
      candidate ← ok_or (AddPrivilegedIceCandidateRequest_candidate value) VE_MissingPayload;
      validate_ice_candidate candidate
  | PrivilegedBridgeClientFrame_Payload_SendSecureAttention value =>
      validate_privileged_lease_ref (SendSecureAttentionRequest_lease_id value)
        (SendSecureAttentionRequest_generation value)
  | PrivilegedBridgeClientFrame_Payload_InputCommand value =>
      validate_privileged_input_command value
  | PrivilegedBridgeClientFrame_Payload_ClosePeer value =>
      validate_privileged_lease_ref (ClosePrivilegedPeerRequest_lease_id value)
        (ClosePrivilegedPeerRequest_generation value)
  end.

Definition validate_privileged_bridge_status_snapshot (snapshot : PrivilegedBridgeStatusSnapshot)
    : V unit :=
  let session := PrivilegedBridgeStatusSnapshot_interactive_session snapshot in
  let connected := PrivilegedBridgeStatusSnapshot_helper_connected snapshot in
  let name := PrivilegedBridgeStatusSnapshot_active_controller_display_name snapshot in
  let error := PrivilegedBridgeStatusSnapshot_error snapshot in
  state ← ok_or (PrivilegedBridgeState_try_from (PrivilegedBridgeStatusSnapshot_state snapshot))
                VE_InvalidEnum;
  fail_if (bool_decide (state = PrivilegedBridgeState_Unspecified)) VE_InvalidEnum;;
  validate_utf8_length name MAX_DEVICE_NAME_UTF8_BYTES;;
  match state with
  | PrivilegedBridgeState_NotInstalled | PrivilegedBridgeState_ApprovalRequired
  | PrivilegedBridgeState_PermissionRequired | PrivilegedBridgeState_UserSessionOnly =>
      fail_if (is_some session || connected || negb (bool_decide (name = [])) || is_some error)
              VE_InvalidState
  | PrivilegedBridgeState_Ready =>
      session ← ok_or session VE_MissingPayload;
      validate_privileged_session_descriptor session;;
      fail_if (negb connected || negb (bool_decide (name = [])) || is_some error) VE_InvalidState
  | PrivilegedBridgeState_Transitioning =>
      match session with
      | Some session => validate_privileged_session_descriptor session
      | None => Ok ()
      end;;
      fail_if (is_some error) VE_InvalidState
  | PrivilegedBridgeState_Controlled =>
      session ← ok_or session VE_MissingPayload;
      validate_privileged_session_descriptor session;;
      fail_if (negb connected || bool_decide (name = []) || is_some error) VE_InvalidState
  | PrivilegedBridgeState_Failed =>
      fail_if (connected || negb (bool_decide (name = []))) VE_InvalidState;;
      error ← ok_or error VE_MissingPayload;
      validate_unified_error error
  | PrivilegedBridgeState_Unspecified => Err VE_InvalidEnum
  end.

Definition validate_privileged_bridge_server_payload
    (payload : PrivilegedBridgeServerFrame_Payload) : V unit :=
  match payload with
  | PrivilegedBridgeServerFrame_Payload_Challenge value =>
      validate_length (PrivilegedBridgeChallenge_broker_instance_id value)
        PRIVILEGED_BRIDGE_INSTANCE_ID_BYTES;;
      validate_length (PrivilegedBridgeChallenge_server_nonce value)
        PRIVILEGED_BRIDGE_NONCE_BYTES
  | PrivilegedBridgeServerFrame_Payload_Authenticated value =>
      validate_length (PrivilegedBridgeAuthenticated_server_proof value)
        PRIVILEGED_BRIDGE_PROOF_BYTES
  | PrivilegedBridgeServerFrame_Payload_HelperRegistered value =>
      session ← ok_or (PrivilegedHelperRegistered_session value) VE_MissingPayload;
      validate_privileged_session_descriptor session
  | PrivilegedBridgeServerFrame_Payload_Status value =>
      validate_privileged_bridge_status_snapshot value
  | PrivilegedBridgeServerFrame_Payload_Lease value => validate_privileged_lease value
  | PrivilegedBridgeServerFrame_Payload_PeerAnswer value =>
      validate_privileged_lease_ref (PrivilegedPeerAnswer_lease_id value)
        (PrivilegedPeerAnswer_generation value);;
      answer ← ok_or (PrivilegedPeerAnswer_answer value) VE_MissingPayload;
      validate_session_description answer SessionDescriptionType_Answer
  | PrivilegedBridgeServerFrame_Payload_LocalIceCandidate value =>
      validate_privileged_lease_ref (PrivilegedLocalIceCandidate_lease_id value)
        (PrivilegedLocalIceCandidate_generation value);;
      candidate ← ok_or (PrivilegedLocalIceCandidate_candidate value) VE_MissingPayload;
      validate_ice_candidate candidate
  | PrivilegedBridgeServerFrame_Payload_PeerStateChanged value =>
      validate_privileged_lease_ref (PrivilegedPeerStateChanged_lease_id value)
        (PrivilegedPeerStateChanged_generation value);;
      validate_nonzero_enum (PrivilegedPeerState_try_from (PrivilegedPeerStateChanged_state value))
  | PrivilegedBridgeServerFrame_Payload_ReliableInput value =>
      validate_privileged_lease_ref (PrivilegedReliableInputEvent_lease_id value)
        (PrivilegedReliableInputEvent_generation value);;
      validate_encoded_length (PrivilegedReliableInputEvent_encoded_envelope value)
        MAX_RELIABLE_INPUT_ENVELOPE_BYTES;;
      fail_if (bool_decide (PrivilegedReliableInputEvent_encoded_envelope value = []))
              VE_InvalidLength
  | PrivilegedBridgeServerFrame_Payload_FastPointer value =>
      validate_privileged_lease_ref (PrivilegedFastPointerEvent_lease_id value)
        (PrivilegedFastPointerEvent_generation value);;
      validate_encoded_length (PrivilegedFastPointerEvent_encoded_envelope value)
        MAX_POINTER_FAST_ENVELOPE_BYTES;;
      fail_if (bool_decide (PrivilegedFastPointerEvent_encoded_envelope value = []))
              VE_InvalidLength
  | PrivilegedBridgeServerFrame_Payload_CommandAccepted value =>
      validate_privileged_lease_ref (PrivilegedCommandAccepted_lease_id value)
        (PrivilegedCommandAccepted_generation value)
  | PrivilegedBridgeServerFrame_Payload_Error value => validate_unified_error value
  end.

(** * Pairing *)

Definition is_ascii_uppercase (b : Byte.byte) : bool :=
  (65 <=? byte_val b) && (byte_val b <=? 90).

Definition is_base32_digit (b : Byte.byte) : bool :=
  (50 <=? byte_val b) && (byte_val b <=? 55).

Definition validate_desktop_pairing_code (code : text) : V unit :=
  fail_if (negb (text_len code =? DESKTOP_PAIRING_CODE_BYTES)) VE_InvalidLength;;
  fail_if (negb (forallb (λ b, is_ascii_uppercase b || is_base32_digit b) (as_bytes code)))
          VE_InvalidState.

Definition validate_host_pairing_invitation (i : HostPairingInvitation) : V unit :=
  validate_protocol_version (HostPairingInvitation_protocol_version i);;
  kind ← ok_or (PairingInvitationKind_try_from (HostPairingInvitation_kind i)) VE_InvalidEnum;
  validate_nonzero_enum (PairingInvitationKind_try_from (HostPairingInvitation_kind i));;
  validate_length (HostPairingInvitation_rendezvous_id i) RENDEZVOUS_ID_BYTES;;
  host_identity ← ok_or (HostPairingInvitation_host_identity i) VE_MissingPayload;
  validate_device_identity host_identity;;
  validate_length (HostPairingInvitation_host_public_key_fingerprint_sha256 i)
    NONCE_OR_HASH_BYTES;;
  validate_length (HostPairingInvitation_host_ephemeral_public_key i) PUBLIC_KEY_BYTES;;
  validate_utf8_length (HostPairingInvitation_signaling_endpoint i)
    MAX_SIGNALING_ENDPOINT_UTF8_BYTES;;
  match kind with
  | PairingInvitationKind_Qr =>
      fail_if (negb (bool_decide (HostPairingInvitation_pairing_code i = []))) VE_InvalidState
  | PairingInvitationKind_DesktopCode =>
      validate_desktop_pairing_code (HostPairingInvitation_pairing_code i)
  | _ => Err VE_InvalidState
  end;;
  validate_rendezvous_lifetime (HostPairingInvitation_issued_at_unix_ms i)
    (HostPairingInvitation_expires_at_unix_ms i).

Definition validate_controller_pairing_hello (hello : ControllerPairingHello) : V unit :=
  validate_length (ControllerPairingHello_rendezvous_id hello) RENDEZVOUS_ID_BYTES;;
  identity ← ok_or (ControllerPairingHello_identity hello) VE_MissingPayload;
  validate_device_identity identity;;
  validate_length (ControllerPairingHello_ephemeral_public_key hello) PUBLIC_KEY_BYTES;;
  validate_length (ControllerPairingHello_transcript_sha256 hello) NONCE_OR_HASH_BYTES;;
  validate_length (ControllerPairingHello_signature hello) SIGNATURE_BYTES.

Definition validate_encrypted_pairing_envelope (e : EncryptedPairingEnvelope) : V unit :=
  validate_protocol_version (EncryptedPairingEnvelope_protocol_version e);;
  validate_length (EncryptedPairingEnvelope_rendezvous_id e) RENDEZVOUS_ID_BYTES;;
  validate_nonzero_enum (PairingDirection_try_from (EncryptedPairingEnvelope_direction e));;
  fail_if ((EncryptedPairingEnvelope_sequence e =? 0) ||
           bool_decide (EncryptedPairingEnvelope_ciphertext e = []) ||
           (MAX_PAIRING_CIPHERTEXT_BYTES <? len (EncryptedPairingEnvelope_ciphertext e)))
          VE_InvalidLength.

Definition validate_pairing_confirmation (v : PairingConfirmationData) : V unit :=
  validate_length (PairingConfirmationData_controller_device_id v) DEVICE_ID_BYTES;;
  validate_length (PairingConfirmationData_host_device_id v) DEVICE_ID_BYTES;;
  validate_length (PairingConfirmationData_rendezvous_id v) RENDEZVOUS_ID_BYTES;;
  validate_length (PairingConfirmationData_controller_identity_public_key v) PUBLIC_KEY_BYTES;;
  validate_length (PairingConfirmationData_host_identity_public_key v) PUBLIC_KEY_BYTES;;
  validate_length (PairingConfirmationData_controller_ephemeral_public_key v) PUBLIC_KEY_BYTES;;
  validate_length (PairingConfirmationData_host_ephemeral_public_key v) PUBLIC_KEY_BYTES;;
  validate_length (PairingConfirmationData_transcript_sha256 v) NONCE_OR_HASH_BYTES.

Definition validate_controller_grant (grant : ControllerGrant) : V unit :=
  validate_length (ControllerGrant_grant_id grant) RENDEZVOUS_ID_BYTES;;
  validate_length (ControllerGrant_host_device_id grant) DEVICE_ID_BYTES;;
  controller ← ok_or (ControllerGrant_controller grant) VE_MissingPayload;
  validate_device_identity controller;;
  validate_permissions (ControllerGrant_permissions grant).

(** [if let Some(x) = &o { check(x)?; }] *)
Definition validate_present {A} (check : A → V unit) (o : option A) : V unit :=
  match o with Some x => check x | None => Ok () end.

Definition validate_pairing_message (message : PairingMessage) : V unit :=
  payload ← ok_or (PairingMessage_payload message) VE_MissingPayload;
  match payload with
  | PairingMessage_Payload_QrRendezvous value =>
      validate_length (QrPairingRendezvous_rendezvous_id value) RENDEZVOUS_ID_BYTES;;
      identity ← ok_or (QrPairingRendezvous_host_identity value) VE_MissingPayload;
      validate_device_identity identity;;
      validate_length (QrPairingRendezvous_host_public_key_fingerprint_sha256 value)
        NONCE_OR_HASH_BYTES;;
      validate_length (QrPairingRendezvous_host_ephemeral_public_key value) PUBLIC_KEY_BYTES;;
      validate_utf8_length (QrPairingRendezvous_signaling_endpoint value)
        MAX_SIGNALING_ENDPOINT_UTF8_BYTES;;
      validate_rendezvous_lifetime (QrPairingRendezvous_issued_at_unix_ms value)
        (QrPairingRendezvous_expires_at_unix_ms value)
  | PairingMessage_Payload_DesktopRendezvous value =>
      validate_length (DesktopPairingRendezvous_rendezvous_id value) RENDEZVOUS_ID_BYTES;;
      fail_if (negb (text_len (DesktopPairingRendezvous_pairing_code value) =?
                     DESKTOP_PAIRING_CODE_BYTES)) VE_InvalidLength;;
      fail_if (negb (forallb (λ b, is_ascii_uppercase b || is_base32_digit b)
                       (as_bytes (DesktopPairingRendezvous_pairing_code value)))) VE_InvalidState;;
      identity ← ok_or (DesktopPairingRendezvous_host_identity value) VE_MissingPayload;
      validate_device_identity identity;;
      validate_length (DesktopPairingRendezvous_host_ephemeral_public_key value) PUBLIC_KEY_BYTES;;
      validate_rendezvous_lifetime (DesktopPairingRendezvous_issued_at_unix_ms value)
        (DesktopPairingRendezvous_expires_at_unix_ms value)
  | PairingMessage_Payload_Hello value =>
      validate_length (PairingHello_rendezvous_id value) RENDEZVOUS_ID_BYTES;;
      identity ← ok_or (PairingHello_identity value) VE_MissingPayload;
      validate_device_identity identity;;
      validate_length (PairingHello_ephemeral_public_key value) PUBLIC_KEY_BYTES
  | PairingMessage_Payload_Confirmation value => validate_pairing_confirmation value
  | PairingMessage_Payload_Decision value =>
      validate_nonzero_enum (PairingDecisionStatus_try_from (PairingDecision_status value));;
      validate_present validate_device_identity (PairingDecision_controller value);;
      validate_present validate_pairing_confirmation (PairingDecision_confirmation value);;
      validate_present validate_controller_grant (PairingDecision_grant value)
  | PairingMessage_Payload_HostInvitation value => validate_host_pairing_invitation value
  | PairingMessage_Payload_ControllerHello value => validate_controller_pairing_hello value
  | PairingMessage_Payload_EncryptedEnvelope value => validate_encrypted_pairing_envelope value
  end.

(** * Signaling *)

Definition validate_session_auth_base (controller_device_id host_device_id session_id nonce : bytes)
    (issued_at expires_at : Z) (permissions : list Z)
    (offer_hash controller_fingerprint signature : bytes) : V unit :=
  validate_length controller_device_id DEVICE_ID_BYTES;;
  validate_length host_device_id DEVICE_ID_BYTES;;
  validate_length session_id SESSION_ID_BYTES;;
  validate_length nonce NONCE_OR_HASH_BYTES;;
  validate_length offer_hash NONCE_OR_HASH_BYTES;;
  validate_length controller_fingerprint NONCE_OR_HASH_BYTES;;
  validate_length signature SIGNATURE_BYTES;;
  validate_permissions permissions;;
  fail_if (expires_at <? issued_at) VE_InvalidLifetime.

Definition validate_session_authentication (authentication : SessionAuthentication) : V unit :=
  payload ← ok_or (SessionAuthentication_payload authentication) VE_MissingPayload;
  match payload with
  | SessionAuthentication_Payload_Offer v =>
      validate_session_auth_base (SessionOfferAuthentication_controller_device_id v)
        (SessionOfferAuthentication_host_device_id v) (SessionOfferAuthentication_session_id v)
        (SessionOfferAuthentication_nonce v) (SessionOfferAuthentication_issued_at_unix_ms v)
        (SessionOfferAuthentication_expires_at_unix_ms v)
        (SessionOfferAuthentication_requested_permissions v)
        (SessionOfferAuthentication_offer_sha256 v)
        (SessionOfferAuthentication_controller_dtls_fingerprint_sha256 v)
        (SessionOfferAuthentication_signature v)
  | SessionAuthentication_Payload_Answer v =>
      validate_session_auth_base (SessionAnswerAuthentication_controller_device_id v)
        (SessionAnswerAuthentication_host_device_id v) (SessionAnswerAuthentication_session_id v)
        (SessionAnswerAuthentication_nonce v) (SessionAnswerAuthentication_issued_at_unix_ms v)
        (SessionAnswerAuthentication_expires_at_unix_ms v)
        (SessionAnswerAuthentication_requested_permissions v)
        (SessionAnswerAuthentication_offer_sha256 v)
        (SessionAnswerAuthentication_controller_dtls_fingerprint_sha256 v)
        (SessionAnswerAuthentication_signature v);;
      validate_length (SessionAnswerAuthentication_answer_sha256 v) NONCE_OR_HASH_BYTES;;
      validate_length (SessionAnswerAuthentication_host_dtls_fingerprint_sha256 v)
        NONCE_OR_HASH_BYTES
  | SessionAuthentication_Payload_Reconnect v =>
      validate_session_auth_base (SessionReconnectAuthentication_controller_device_id v)
        (SessionReconnectAuthentication_host_device_id v)
        (SessionReconnectAuthentication_session_id v)
        (SessionReconnectAuthentication_nonce v)
        (SessionReconnectAuthentication_issued_at_unix_ms v)
        (SessionReconnectAuthentication_expires_at_unix_ms v)
        (SessionReconnectAuthentication_requested_permissions v)
        (SessionReconnectAuthentication_offer_sha256 v)
        (SessionReconnectAuthentication_controller_dtls_fingerprint_sha256 v)
        (SessionReconnectAuthentication_signature v);;
      validate_length (SessionReconnectAuthentication_answer_sha256 v) NONCE_OR_HASH_BYTES;;
      validate_length (SessionReconnectAuthentication_host_dtls_fingerprint_sha256 v)
        NONCE_OR_HASH_BYTES
  end.

Definition validate_capability_negotiation (negotiation : CapabilityNegotiation) : V unit :=
  validate_protocol_version (CapabilityNegotiation_protocol_version negotiation);;
  validate_distinct (λ value, validate_nonzero_enum (Capability_try_from value)) ∅
    (CapabilityNegotiation_required_capabilities negotiation ++
     CapabilityNegotiation_optional_capabilities negotiation).

Definition validate_webrtc_negotiation (negotiation : WebRtcNegotiation) : V unit :=
  payload ← ok_or (WebRtcNegotiation_payload negotiation) VE_MissingPayload;
  validate_length (WebRtcNegotiation_session_id negotiation) SESSION_ID_BYTES;;
  match payload with
  | WebRtcNegotiation_Payload_Description value =>
      validate_length (WebRtcSessionDescription_dtls_fingerprint_sha256 value)
        NONCE_OR_HASH_BYTES;;
      validate_nonzero_enum (SessionDescriptionType_try_from (WebRtcSessionDescription_type value));;
      validate_utf8_length (WebRtcSessionDescription_sdp value) MAX_SDP_UTF8_BYTES
  | WebRtcNegotiation_Payload_IceCandidate value =>
      validate_utf8_length (IceCandidate_candidate value) MAX_ICE_CANDIDATE_UTF8_BYTES;;
      validate_utf8_length (IceCandidate_sdp_mid value) MAX_SDP_MID_UTF8_BYTES
  | WebRtcNegotiation_Payload_EndOfCandidates _ => Ok ()
  end.

Definition validate_signaling_envelope (envelope : SignalingEnvelope) : V unit :=
  validate_protocol_version (SignalingEnvelope_protocol_version envelope);;
  payload ← ok_or (SignalingEnvelope_payload envelope) VE_MissingPayload;
  validate_length (SignalingEnvelope_sender_device_id envelope) DEVICE_ID_BYTES;;
  validate_length (SignalingEnvelope_recipient_device_id envelope) DEVICE_ID_BYTES;;
  validate_utf8_length (SignalingEnvelope_request_id envelope) MAX_REQUEST_ID_UTF8_BYTES;;
  match payload with
  | SignalingEnvelope_Payload_CapabilityNegotiation value => validate_capability_negotiation value
  | SignalingEnvelope_Payload_Pairing value => validate_pairing_message value
  | SignalingEnvelope_Payload_SessionAuthentication value => validate_session_authentication value
  | SignalingEnvelope_Payload_WebrtcNegotiation value => validate_webrtc_negotiation value
  | SignalingEnvelope_Payload_SessionStatus value => validate_session_status value
  | SignalingEnvelope_Payload_Error value => validate_unified_error value
  end.

Definition validate_reliable_event (event : ReliableInputEnvelope_Event) : V unit :=
  match event with
  | ReliableInputEnvelope_Event_PointerButton value =>
      validate_nonzero_enum (PointerButton_try_from (PointerButtonEvent_button value));;
      validate_nonzero_enum (ButtonAction_try_from (PointerButtonEvent_action value))
  | ReliableInputEnvelope_Event_Keyboard value =>
      validate_nonzero_enum (KeyboardAction_try_from (KeyboardEvent_action value))
  | ReliableInputEnvelope_Event_Text value =>
      validate_utf8_length (TextInputEvent_text value) MAX_TEXT_INPUT_UTF8_BYTES
  | ReliableInputEnvelope_Event_SessionControl value =>
      validate_nonzero_enum (SessionControlAction_try_from (SessionControlEvent_action value))
  | ReliableInputEnvelope_Event_ReleaseAllInput _ => Ok ()
  end.

(** * The wire boundary *)

Definition decode_and_validate_signaling_envelope `{Message SignalingEnvelope}
    (encoded : bytes) : V SignalingEnvelope :=
  validate_encoded_length encoded MAX_SIGNALING_ENVELOPE_BYTES;;
  envelope ← ok_or (decode encoded) VE_InvalidLength;
  validate_signaling_envelope envelope;;
  mret envelope.

Definition decode_and_validate_reliable_input_envelope `{Message ReliableInputEnvelope}
    (encoded : bytes) : V ReliableInputEnvelope :=
  validate_encoded_length encoded MAX_RELIABLE_INPUT_ENVELOPE_BYTES;;
  envelope ← ok_or (decode encoded) VE_InvalidLength;
  validate_protocol_version (ReliableInputEnvelope_protocol_version envelope);;
  event ← ok_or (ReliableInputEnvelope_event envelope) VE_MissingPayload;
  validate_length (ReliableInputEnvelope_session_id envelope) SESSION_ID_BYTES;;
  validate_reliable_event event;;
  mret envelope.

Definition decode_and_validate_pointer_fast_envelope `{Message PointerFastEnvelope}
    (encoded : bytes) : V PointerFastEnvelope :=
  validate_encoded_length encoded MAX_POINTER_FAST_ENVELOPE_BYTES;;
  envelope ← ok_or (decode encoded) VE_InvalidLength;
  validate_protocol_version (PointerFastEnvelope_protocol_version envelope);;
  ok_or (PointerFastEnvelope_event envelope) VE_MissingPayload;;
  validate_length (PointerFastEnvelope_session_id envelope) SESSION_ID_BYTES;;
  mret envelope.

Definition decode_and_validate_privileged_bridge_client_frame
    `{Message PrivilegedBridgeClientFrame} (encoded : bytes) : V PrivilegedBridgeClientFrame :=
  validate_encoded_length encoded MAX_PRIVILEGED_BRIDGE_FRAME_BYTES;;
  frame ← ok_or (decode encoded) VE_InvalidLength;
  validate_privileged_bridge_frame_header (PrivilegedBridgeClientFrame_protocol_version frame)
    (PrivilegedBridgeClientFrame_request_id frame) (PrivilegedBridgeClientFrame_sequence frame);;
  payload ← ok_or (PrivilegedBridgeClientFrame_payload frame) VE_MissingPayload;
  validate_privileged_bridge_client_payload payload;;
  mret frame.

Definition decode_and_validate_privileged_bridge_server_frame
    `{Message PrivilegedBridgeServerFrame} (encoded : bytes) : V PrivilegedBridgeServerFrame :=
  validate_encoded_length encoded MAX_PRIVILEGED_BRIDGE_FRAME_BYTES;;
  frame ← ok_or (decode encoded) VE_InvalidLength;
  validate_privileged_bridge_frame_header (PrivilegedBridgeServerFrame_protocol_version frame)
    (PrivilegedBridgeServerFrame_request_id frame) (PrivilegedBridgeServerFrame_sequence frame);;
  payload ← ok_or (PrivilegedBridgeServerFrame_payload frame) VE_MissingPayload;
  validate_privileged_bridge_server_payload payload;;
  mret frame.

(** * Declarative specifications *)

(** A wire enumerator that is known and not the unspecified one. *)
Definition known (E : Type) `{ProtoEnum E} (z : Z) : Prop :=
  ∃ e : E, try_from z = Some e ∧ to_i32 e ≠ 0.

Definition name_ok (maximum : Z) (name : text) : Prop := name ≠ [] ∧ text_len name <= maximum.

Definition permissions_ok (ps : list Z) : Prop :=
  NoDup ps ∧ ∀ p, p ∈ ps → p = to_i32 SessionPermission_ViewScreen ∨
                          p = to_i32 SessionPermission_ControlInput.

Definition version_ok (v : option ProtocolVersion) : Prop :=
  ∃ w, v = Some w ∧ ProtocolVersion_major w = PROTOCOL_MAJOR_VERSION ∧
    MINIMUM_PROTOCOL_MINOR_VERSION <= ProtocolVersion_minor w.

Definition lease_ref_ok (lease_id : bytes) (generation : Z) : Prop :=
  len lease_id = PRIVILEGED_LEASE_ID_BYTES ∧ generation ≠ 0.

Definition descriptor_ok (d : PrivilegedSessionDescriptor) : Prop :=
  (PrivilegedSessionDescriptor_platform d = to_i32 DevicePlatform_Windows ∨
   PrivilegedSessionDescriptor_platform d = to_i32 DevicePlatform_Macos) ∧
  known InteractiveDesktopKind (PrivilegedSessionDescriptor_desktop_kind d) ∧
  PrivilegedSessionDescriptor_os_session_id d ≠ 0 ∧
  PrivilegedSessionDescriptor_generation d ≠ 0.

Definition description_ok (d : WebRtcSessionDescription) (t : SessionDescriptionType) : Prop :=
  WebRtcSessionDescription_type d = to_i32 t ∧
  name_ok MAX_SDP_UTF8_BYTES (WebRtcSessionDescription_sdp d) ∧
  len (WebRtcSessionDescription_dtls_fingerprint_sha256 d) = NONCE_OR_HASH_BYTES.

Definition candidate_ok (c : IceCandidate) : Prop :=
  name_ok MAX_ICE_CANDIDATE_UTF8_BYTES (IceCandidate_candidate c) ∧
  text_len (IceCandidate_sdp_mid c) <= MAX_SDP_MID_UTF8_BYTES.

Definition ice_server_ok (server : PrivilegedIceServer) : Prop :=
  (PrivilegedIceServer_urls server ≠ [] ∧
   len (PrivilegedIceServer_urls server) <= MAX_PRIVILEGED_ICE_URLS_PER_SERVER) ∧
  Forall (name_ok MAX_SIGNALING_ENDPOINT_UTF8_BYTES) (PrivilegedIceServer_urls server) ∧
  text_len (PrivilegedIceServer_username server) <= MAX_ERROR_DETAIL_UTF8_BYTES ∧
  text_len (PrivilegedIceServer_credential server) <= MAX_ERROR_DETAIL_UTF8_BYTES.

Definition peer_configuration_ok (c : PrivilegedPeerConfiguration) : Prop :=
  known PrivilegedIceTransportPolicy (PrivilegedPeerConfiguration_ice_transport_policy c) ∧
  len (PrivilegedPeerConfiguration_ice_servers c) <= MAX_PRIVILEGED_ICE_SERVERS ∧
  Forall ice_server_ok (PrivilegedPeerConfiguration_ice_servers c).

Definition peer_request_ok (lease_id : bytes) (generation : Z)
    (configuration : option PrivilegedPeerConfiguration)
    (offer : option WebRtcSessionDescription) (name : text) : Prop :=
  lease_ref_ok lease_id generation ∧
  (∃ c, configuration = Some c ∧ peer_configuration_ok c ∧
    name_ok MAX_DEVICE_NAME_UTF8_BYTES name ∧
    ∃ d, offer = Some d ∧ description_ok d SessionDescriptionType_Offer).

Definition input_ok (input : PrivilegedInputCommand_Input) : Prop :=
  match input with
  | PrivilegedInputCommand_Input_PointerButton v =>
      known PointerButton (PointerButtonEvent_button v) ∧
      known ButtonAction (PointerButtonEvent_action v)
  | PrivilegedInputCommand_Input_Keyboard v => known KeyboardAction (KeyboardEvent_action v)
  | PrivilegedInputCommand_Input_Text v =>
      text_len (TextInputEvent_text v) <= MAX_TEXT_INPUT_UTF8_BYTES
  | _ => True
  end.

(** What the broker and the helper may assume of a request. *)
Definition client_payload_ok (payload : PrivilegedBridgeClientFrame_Payload) : Prop :=
  match payload with
  | PrivilegedBridgeClientFrame_Payload_Authenticate v =>
      known PrivilegedBridgeRole (PrivilegedBridgeAuthenticate_role v) ∧
      len (PrivilegedBridgeAuthenticate_client_nonce v) = PRIVILEGED_BRIDGE_NONCE_BYTES ∧
      len (PrivilegedBridgeAuthenticate_client_proof v) = PRIVILEGED_BRIDGE_PROOF_BYTES ∧
      len (PrivilegedBridgeAuthenticate_executable_sha256 v) = EXECUTABLE_SHA256_BYTES ∧
      PrivilegedBridgeAuthenticate_os_session_id v ≠ 0
  | PrivilegedBridgeClientFrame_Payload_RegisterHelper v =>
      ∃ d, RegisterPrivilegedHelperRequest_session v = Some d ∧ descriptor_ok d
  | PrivilegedBridgeClientFrame_Payload_AcquireLease v =>
      len (AcquirePrivilegedLeaseRequest_session_id v) = SESSION_ID_BYTES ∧
      AcquirePrivilegedLeaseRequest_generation v ≠ 0 ∧
      permissions_ok (AcquirePrivilegedLeaseRequest_permissions v) ∧
      name_ok MAX_DEVICE_NAME_UTF8_BYTES (AcquirePrivilegedLeaseRequest_controller_display_name v)
  | PrivilegedBridgeClientFrame_Payload_RenewLease v =>
      lease_ref_ok (RenewPrivilegedLeaseRequest_lease_id v)
        (RenewPrivilegedLeaseRequest_generation v)
  | PrivilegedBridgeClientFrame_Payload_ReleaseLease v =>
      lease_ref_ok (ReleasePrivilegedLeaseRequest_lease_id v)
        (ReleasePrivilegedLeaseRequest_generation v)
  | PrivilegedBridgeClientFrame_Payload_StartPeer v =>
      peer_request_ok (StartPrivilegedPeerRequest_lease_id v)
        (StartPrivilegedPeerRequest_generation v) (StartPrivilegedPeerRequest_configuration v)
        (StartPrivilegedPeerRequest_offer v) (StartPrivilegedPeerRequest_controller_display_name v)
  | PrivilegedBridgeClientFrame_Payload_RestartPeer v =>
      peer_request_ok (RestartPrivilegedPeerRequest_lease_id v)
        (RestartPrivilegedPeerRequest_generation v) (RestartPrivilegedPeerRequest_configuration v)
        (RestartPrivilegedPeerRequest_offer v)
        (RestartPrivilegedPeerRequest_controller_display_name v)
  | PrivilegedBridgeClientFrame_Payload_AddIceCandidate v =>
      lease_ref_ok (AddPrivilegedIceCandidateRequest_lease_id v)
        (AddPrivilegedIceCandidateRequest_generation v) ∧
      ∃ c, AddPrivilegedIceCandidateRequest_candidate v = Some c ∧ candidate_ok c
  | PrivilegedBridgeClientFrame_Payload_SendSecureAttention v =>
      lease_ref_ok (SendSecureAttentionRequest_lease_id v)
        (SendSecureAttentionRequest_generation v)
  | PrivilegedBridgeClientFrame_Payload_InputCommand v =>
      lease_ref_ok (PrivilegedInputCommand_lease_id v) (PrivilegedInputCommand_generation v) ∧
      ∃ i, PrivilegedInputCommand_input v = Some i ∧ input_ok i
  | PrivilegedBridgeClientFrame_Payload_ClosePeer v =>
      lease_ref_ok (ClosePrivilegedPeerRequest_lease_id v)
        (ClosePrivilegedPeerRequest_generation v)
  end.

Definition client_frame_ok (f : PrivilegedBridgeClientFrame) : Prop :=
  version_ok (PrivilegedBridgeClientFrame_protocol_version f) ∧
  text_len (PrivilegedBridgeClientFrame_request_id f) <= MAX_REQUEST_ID_UTF8_BYTES ∧
  PrivilegedBridgeClientFrame_sequence f ≠ 0 ∧
  ∃ p, PrivilegedBridgeClientFrame_payload f = Some p ∧ client_payload_ok p.

(** * Lemmas: each check against its specification *)

Lemma v_seq {B} (m : V unit) (k : V B) b : (m;; k) = Ok b ↔ m = Ok () ∧ k = Ok b.
Proof. rewrite result_bind_Ok. split; [by intros ([]&?&?)|]. intros [-> ?]. by exists (). Qed.

Lemma v_ok_or {A B} (o : option A) (e : ValidationError) (k : A → V B) b :
  (ok_or o e ≫= k) = Ok b ↔ ∃ a, o = Some a ∧ k a = Ok b.
Proof. rewrite result_bind_Ok. destruct o; unmonad; naive_solver. Qed.

Lemma v_fail (c : bool) (e : ValidationError) : (fail_if c e : V unit) = Ok () ↔ c = false.
Proof. destruct c; unmonad; naive_solver. Qed.

Lemma v_encoded_length b m : validate_encoded_length b m = Ok () ↔ len b <= m.
Proof. unfold validate_encoded_length. rewrite v_fail, Z.ltb_ge. done. Qed.

Lemma v_length b n : validate_length b n = Ok () ↔ len b = n.
Proof. unfold validate_length. rewrite v_fail, negb_false_iff, Z.eqb_eq. done. Qed.

Lemma v_utf8_length s m : validate_utf8_length s m = Ok () ↔ text_len s <= m.
Proof. unfold validate_utf8_length. rewrite v_fail, Z.ltb_ge. done. Qed.

Lemma v_name s m : validate_nonempty_utf8_length s m = Ok () ↔ name_ok m s.
Proof.
  unfold validate_nonempty_utf8_length, name_ok.
  rewrite v_seq, v_fail, bool_decide_eq_false, v_utf8_length. done.
Qed.

Lemma v_generation g : validate_generation g = Ok () ↔ g ≠ 0.
Proof. unfold validate_generation. rewrite v_fail, Z.eqb_neq. done. Qed.

Lemma v_enum `{ProtoEnum E} z : validate_nonzero_enum (try_from z) = Ok () ↔ known E z.
Proof.
  unfold validate_nonzero_enum, known. rewrite v_ok_or. apply exist_proper. intros e.
  rewrite v_fail, Z.eqb_neq. done.
Qed.

Lemma v_version v : validate_protocol_version v = Ok () ↔ version_ok v.
Proof.
  unfold validate_protocol_version, version_ok. rewrite v_ok_or. apply exist_proper. intros w.
  rewrite v_fail, orb_false_iff, !negb_false_iff, Z.eqb_eq. unfold checked_sub.
  destruct (Z.leb_spec MINIMUM_PROTOCOL_MINOR_VERSION (ProtocolVersion_minor w)); simpl; naive_solver lia.
Qed.

Lemma v_each {A} (check : A → V unit) (P : A → Prop) l :
  (∀ x, check x = Ok () ↔ P x) → validate_each check l = Ok () ↔ Forall P l.
Proof.
  intros Hc. induction l as [|x l IH]; simpl; [by split; constructor|].
  rewrite v_seq, Hc, IH, Forall_cons. done.
Qed.

Lemma v_distinct check seen l :
  validate_distinct check seen l = Ok () ↔
  NoDup l ∧ ∀ x, x ∈ l → check x = Ok () ∧ x ∉ seen.
Proof.
  revert seen. induction l as [|x l IH]; intros seen; simpl.
  - split; [|done]. intros _. split; [apply NoDup_nil_2|set_solver].
  - rewrite !v_seq, v_fail, bool_decide_eq_false, IH, NoDup_cons. set_solver.
Qed.

Lemma v_permissions ps : validate_permissions ps = Ok () ↔ permissions_ok ps.
Proof.
  unfold validate_permissions, permissions_ok. rewrite v_distinct.
  assert (∀ p, validate_nonzero_enum (SessionPermission_try_from p) = Ok () ↔
          p = to_i32 SessionPermission_ViewScreen ∨
          p = to_i32 SessionPermission_ControlInput) as Hp.
  { intros p. rewrite (v_enum (E:=SessionPermission)). unfold known. split.
    - intros (e&He&Hne). apply to_i32_try_from in He as <-. destruct e; simpl in *; auto; done.
    - intros [-> | ->]; eexists; (split; [apply try_from_to_i32|done]). }
  setoid_rewrite Hp. set_solver.
Qed.

#[export] Hint Rewrite @v_seq @v_ok_or @v_fail v_encoded_length v_length v_utf8_length v_name
  v_generation v_version v_permissions orb_false_iff andb_false_iff negb_false_iff
  bool_decide_eq_false bool_decide_eq_true Z.eqb_neq Z.eqb_eq Z.leb_gt Z.ltb_ge : valid.

Ltac valid := autorewrite with valid.

Lemma v_descriptor d : validate_privileged_session_descriptor d = Ok () ↔ descriptor_ok d.
Proof.
  unfold validate_privileged_session_descriptor, descriptor_ok. valid.
  pose proof (@try_from_iff _ DevicePlatform_enum (PrivilegedSessionDescriptor_platform d)) as Hp.
  simpl in Hp. setoid_rewrite Hp. split.
  - intros (p&->&H). revert H. valid. rewrite (v_enum (E:=InteractiveDesktopKind)).
    intros ([->| ->]&?&?&?); auto.
  - intros ([->| ->]&?&?&?); eexists; (split; [done|]); valid;
      rewrite (v_enum (E:=InteractiveDesktopKind)); auto.
Qed.

Lemma v_lease_ref id g : validate_privileged_lease_ref id g = Ok () ↔ lease_ref_ok id g.
Proof. unfold validate_privileged_lease_ref, lease_ref_ok. by valid. Qed.

Lemma v_description d t : validate_session_description d t = Ok () ↔ description_ok d t.
Proof.
  unfold validate_session_description, description_ok. valid.
  by rewrite (@try_from_iff _ SessionDescriptionType_enum (WebRtcSessionDescription_type d) t).
Qed.

Lemma v_candidate c : validate_ice_candidate c = Ok () ↔ candidate_ok c.
Proof. unfold validate_ice_candidate, candidate_ok. by valid. Qed.

Lemma v_ice_server c : validate_ice_server c = Ok () ↔ ice_server_ok c.
Proof.
  unfold validate_ice_server, ice_server_ok. valid. rewrite (v_each _ (name_ok MAX_SIGNALING_ENDPOINT_UTF8_BYTES)); [done|].
  intros x. by valid.
Qed.

Lemma v_peer_configuration c : validate_privileged_peer_configuration c = Ok () ↔ peer_configuration_ok c.
Proof.
  unfold validate_privileged_peer_configuration, peer_configuration_ok. valid.
  rewrite (v_enum (E:=PrivilegedIceTransportPolicy)), (v_each _ ice_server_ok); [done|].
  apply v_ice_server.
Qed.

Lemma v_peer_request id g c o n :
  validate_privileged_peer_request id g c o n = Ok () ↔ peer_request_ok id g c o n.
Proof.
  unfold validate_privileged_peer_request, peer_request_ok. valid. rewrite v_lease_ref.
  setoid_rewrite v_seq. setoid_rewrite v_peer_configuration. setoid_rewrite v_seq.
  setoid_rewrite v_name. setoid_rewrite v_ok_or. setoid_rewrite v_description. done.
Qed.

Lemma v_input_command c :
  validate_privileged_input_command c = Ok () ↔
  lease_ref_ok (PrivilegedInputCommand_lease_id c) (PrivilegedInputCommand_generation c) ∧
  ∃ i, PrivilegedInputCommand_input c = Some i ∧ input_ok i.
Proof.
  unfold validate_privileged_input_command. valid. rewrite v_lease_ref.
  apply Morphisms_Prop.and_iff_morphism; [done|]. apply exist_proper. intros i.
  apply Morphisms_Prop.and_iff_morphism; [done|].
  destruct i; simpl; valid; rewrite ?(v_enum (E:=PointerButton)), ?(v_enum (E:=ButtonAction)),
    ?(v_enum (E:=KeyboardAction)); done.
Qed.

Lemma v_client_payload p :
  validate_privileged_bridge_client_payload p = Ok () ↔ client_payload_ok p.
Proof.
  destruct p; simpl; valid; rewrite ?v_lease_ref, ?v_peer_request, ?v_input_command;
    try setoid_rewrite v_descriptor; try setoid_rewrite v_candidate;
    rewrite ?(v_enum (E:=PrivilegedBridgeRole)); done.
Qed.

Lemma v_header v id n :
  validate_privileged_bridge_frame_header v id n = Ok () ↔
  version_ok v ∧ text_len id <= MAX_REQUEST_ID_UTF8_BYTES ∧ n ≠ 0.
Proof. unfold validate_privileged_bridge_frame_header. by valid. Qed.

Lemma v_client_frame `{Message PrivilegedBridgeClientFrame} (encoded : bytes)
    (frame : PrivilegedBridgeClientFrame) :
  decode_and_validate_privileged_bridge_client_frame encoded = Ok frame ↔
  len encoded <= MAX_PRIVILEGED_BRIDGE_FRAME_BYTES ∧ decode encoded = Some frame ∧
  client_frame_ok frame.
Proof.
  unfold decode_and_validate_privileged_bridge_client_frame, client_frame_ok. valid.
  apply Morphisms_Prop.and_iff_morphism; [done|]. setoid_rewrite v_seq.
  setoid_rewrite v_header. setoid_rewrite v_ok_or. setoid_rewrite v_seq.
  setoid_rewrite v_client_payload. unmonad. split.
  - intros (f&Hd&(?&?&?)&p&Hp&Hok&[= <-]). split; [done|]. split_and!; eauto.
  - intros (Hd&?&?&?&p&Hp&Hok). exists frame. split_and!; eauto.
Qed.

(** * Properties *)

(** C26. Exactness of the bridge's wire boundary: a client frame is accepted if and only if its
    bytes are within the 256 KiB bound, decode, and the decoded frame meets the declarative
    specification (version, header, and for every kind of request the lengths, bounds,
    enumerators, distinct permissions and nested messages the broker and helper assume). *)
Theorem client_frame_accepted_iff `{Message PrivilegedBridgeClientFrame} (encoded : bytes)
    (frame : PrivilegedBridgeClientFrame) :
  decode_and_validate_privileged_bridge_client_frame encoded = Ok frame ↔
  len encoded <= MAX_PRIVILEGED_BRIDGE_FRAME_BYTES ∧ decode encoded = Some frame ∧
  client_frame_ok frame.
Proof. apply v_client_frame. Qed.

(** What the state of the bridge allows a status snapshot to say. *)
Definition status_ok (s : PrivilegedBridgeStatusSnapshot) : Prop :=
  let session := PrivilegedBridgeStatusSnapshot_interactive_session s in
  let connected := PrivilegedBridgeStatusSnapshot_helper_connected s in
  let name := PrivilegedBridgeStatusSnapshot_active_controller_display_name s in
  let error := PrivilegedBridgeStatusSnapshot_error s in
  text_len name <= MAX_DEVICE_NAME_UTF8_BYTES ∧
  ∃ state, PrivilegedBridgeStatusSnapshot_state s = to_i32 state ∧
  match state with
  | PrivilegedBridgeState_Unspecified => False
  | PrivilegedBridgeState_NotInstalled | PrivilegedBridgeState_ApprovalRequired
  | PrivilegedBridgeState_PermissionRequired | PrivilegedBridgeState_UserSessionOnly =>
      session = None ∧ connected = false ∧ name = [] ∧ error = None
  | PrivilegedBridgeState_Ready =>
      (∃ d, session = Some d ∧ descriptor_ok d) ∧ connected = true ∧ name = [] ∧ error = None
  | PrivilegedBridgeState_Transitioning =>
      (∀ d, session = Some d → descriptor_ok d) ∧ error = None
  | PrivilegedBridgeState_Controlled =>
      (∃ d, session = Some d ∧ descriptor_ok d) ∧ connected = true ∧ name ≠ [] ∧ error = None
  | PrivilegedBridgeState_Failed =>
      connected = false ∧ name = [] ∧ ∃ e, error = Some e ∧ validate_unified_error e = Ok ()
  end.

(** A published status is accepted if and only if its fields are consistent with its state:
    in particular a controlled bridge names its controller and a connected session, and no
    other settled state names one. *)
Theorem status_snapshot_accepted_iff (s : PrivilegedBridgeStatusSnapshot) :
  validate_privileged_bridge_status_snapshot s = Ok () ↔ status_ok s.
Proof.
  unfold validate_privileged_bridge_status_snapshot, status_ok. valid.
  pose proof (λ e, @try_from_iff _ PrivilegedBridgeState_enum
                (PrivilegedBridgeStatusSnapshot_state s) e) as Hst. simpl in Hst.
  destruct s as [st session connected name error]. simpl in *.
  split.
  - intros (state&Hs%Hst&Hr). revert Hr. valid. intros (Hne&Hn&Hr). split; [done|].
    exists state. split; [done|]. revert Hr.
    destruct state, session, connected, error; simpl; valid;
      try setoid_rewrite v_seq; try setoid_rewrite v_descriptor; unmonad; naive_solver.
  - intros (Hn&state&Hs%Hst&Hr). exists state. split; [done|]. valid.
    split; [by intros ->|]. split; [done|]. revert Hr.
    destruct state, session, connected, error; simpl; valid;
      try setoid_rewrite v_seq; try setoid_rewrite v_descriptor; unmonad; naive_solver.
Qed.
