(* ===== verification/Webrtc.v ===== *)
(** The interfaces of the WebRTC host, crates/host-webrtc/src: the error type (lib.rs), the
    negotiated configuration (config.rs), and the two traits through which a session reaches
    the outside, [PeerBackend] (peer.rs) and [RemoteInputSink] (input.rs).

    A trait object is a set of operations over a world [W].  A session owns both objects; that
    they may share state, as the bridge proxy's do, is why they act on the same world. *)
From S2P Require Import Prelude Messages.

Local Open Scope Z_scope.

Inductive HostWebRtcError :=
| HW_InvalidSession | HW_InvalidPermissions | HW_InvalidState | HW_InvalidSdp
| HW_InvalidAnswer | HW_PeerFailure | HW_InputFailure | HW_InputPermissionDenied
| HW_InvalidInputEnvelope | HW_SessionMismatch | HW_ReliableSequence
| HW_InvalidCoordinates | HW_InvalidKeyboardUsage | HW_InvalidModifierBits
| HW_InvalidPointerButtons | HW_InvalidScrollDelta | HW_PressedInputState
| HW_DeviceBusy | HW_InvalidLease.

#[export] Instance HostWebRtcError_eq_dec : EqDecision HostWebRtcError.
Proof. solve_decision. Defined.

(** * Configuration *)

Definition DATA_CHANNEL_INPUT_RELIABLE : string := "input.reliable".
Definition DATA_CHANNEL_POINTER_FAST : string := "pointer.fast".

Inductive VideoCodec := H264 | Vp8.
Inductive IceTransportPolicy := ITP_All | ITP_Relay.
Inductive DataChannelReliability := OrderedReliable | UnorderedNoRetransmits.

Record DataChannelConfig := { dc_label : string; dc_reliability : DataChannelReliability }.

Record SessionConfig := { ice_transport_policy : IceTransportPolicy }.

Definition CODEC_PREFERENCES : list VideoCodec := [H264; Vp8].

Definition DATA_CHANNELS : list DataChannelConfig :=
  [{| dc_label := DATA_CHANNEL_INPUT_RELIABLE; dc_reliability := OrderedReliable |};
   {| dc_label := DATA_CHANNEL_POINTER_FAST; dc_reliability := UnorderedNoRetransmits |}].

#[export] Instance IceTransportPolicy_eq_dec : EqDecision IceTransportPolicy.
Proof. solve_decision. Defined.
#[export] Instance SessionConfig_eq_dec : EqDecision SessionConfig.
Proof. solve_decision. Defined.

(** * The peer *)

Record PeerIceCandidate := {
  pic_candidate : text;
  pic_sdp_mid : text;
  pic_sdp_m_line_index : Z
}.

Record PeerAnswer := { pa_sdp : text; pa_dtls_fingerprint_sha256 : bytes }.

#[export] Instance PeerIceCandidate_eq_dec : EqDecision PeerIceCandidate.
Proof. solve_decision. Defined.
#[export] Instance PeerAnswer_eq_dec : EqDecision PeerAnswer.
Proof. solve_decision. Defined.

Class PeerBackend (W : Type) := {
  peer_start : SessionConfig → text → M W HostWebRtcError PeerAnswer;
  peer_restart : SessionConfig → text → M W HostWebRtcError PeerAnswer;
  peer_add_remote_ice_candidate : PeerIceCandidate → M W HostWebRtcError unit;
  peer_close : M W HostWebRtcError unit
}.

(** * The input sink *)

Definition NORMALIZED_POINTER_MAX : Z := 10000.

Class RemoteInputSink (W : Type) := {
  sink_keyboard : KeyboardAction → Z → Z → M W HostWebRtcError unit;
  sink_pointer_button : PointerButton → ButtonAction → Z → Z → M W HostWebRtcError unit;
  sink_pointer_move : Z → Z → Z → M W HostWebRtcError unit;
  sink_pointer_scroll : Z → Z → M W HostWebRtcError unit;
  sink_text : text → M W HostWebRtcError unit;
  sink_release_all : M W HostWebRtcError unit
}.

(** What the operating system still holds down on behalf of the remote controller: a key by
    its USB HID usage, a button by its enumerator. *)
Inductive Held := HeldKey (usage : Z) | HeldButton (button : Z).

#[export] Instance Held_eq_dec : EqDecision Held.
Proof. solve_decision. Defined.
#[export] Program Instance Held_countable : Countable Held :=
  inj_countable' (λ h, match h with HeldKey u => inl u | HeldButton b => inr b end)
    (λ s, match s with inl u => HeldKey u | inr b => HeldButton b end) _.
Next Obligation. by intros []. Qed.

(** What a world promises to its session: [inv] is an invariant of both objects, a successful
    [release_all] leaves nothing held, and the peer does not press anything. *)
Class SinkLaws (W : Type) `{PeerBackend W, RemoteInputSink W}
    (inv : W → Prop) (held : W → gset Held) : Prop := {
  law_keyboard action usage bits w : inv w → inv (sink_keyboard action usage bits w).2;
  law_pointer_button button action x y w :
    inv w → inv (sink_pointer_button button action x y w).2;
  law_pointer_move x y bits w : inv w → inv (sink_pointer_move x y bits w).2;
  law_pointer_scroll dx dy w : inv w → inv (sink_pointer_scroll dx dy w).2;
  law_text t w : inv w → inv (sink_text t w).2;
  law_release_all w r w' :
    sink_release_all w = (r, w') → inv w → inv w' ∧ (r = Ok () → held w' = ∅);
  law_peer_start c o w : inv w → inv (peer_start c o w).2 ∧ held (peer_start c o w).2 ⊆ held w;
  law_peer_restart c o w :
    inv w → inv (peer_restart c o w).2 ∧ held (peer_restart c o w).2 ⊆ held w;
  law_peer_candidate c w :
    inv w → inv (peer_add_remote_ice_candidate c w).2 ∧
            held (peer_add_remote_ice_candidate c w).2 ⊆ held w;
  law_peer_close w : inv w → inv (peer_close w).2 ∧ held (peer_close w).2 ⊆ held w
}.
