(* ===== verification/PeerSession.v ===== *)
(** The Host's side of one remote session, crates/host-webrtc/src/session.rs.

    [HostPeerSession] drives the peer through offer, reconnect and close, and lets input through
    only while connected and permitted; [SessionGate] admits one inbound session at a time. *)
From S2P Require Import Prelude Limits Messages Validation Webrtc.

Local Open Scope Z_scope.

(** * Data *)

Definition MINIMUM_USB_HID_KEYBOARD_USAGE : Z := 4.
Definition MAXIMUM_USB_HID_KEYBOARD_USAGE : Z := 231.
Definition MAXIMUM_MODIFIER_BITS : Z := 255.
Definition MAXIMUM_POINTER_BUTTON_BITS : Z := 7.
Definition MAXIMUM_SCROLL_DELTA : Z := 10000.
Definition MAXIMUM_TEXT_INPUT_BYTES : Z := 1024.
Definition MAXIMUM_SDP_BYTES : Z := 131072.

Inductive HostSessionState :=
| HS_New | HS_Negotiating | HS_Connected | HS_Reconnecting | HS_Closing | HS_Closed.

#[export] Instance HostSessionState_eq_dec : EqDecision HostSessionState.
Proof. solve_decision. Defined.

Inductive InputDisposition := ID_Applied.
Inductive PointerDisposition := PD_Applied | PD_DroppedStale.

(** The fields of the session besides the two trait objects, which are the world. *)
Record HostPeerSession := {
  hp_session_id : bytes;
  hp_input_allowed : bool;
  hp_config : SessionConfig;
  hp_state : HostSessionState;
  last_reliable_sequence : Z;
  last_pointer_sequence : Z;
  pressed_keys : gset Z;
  pressed_buttons : gset Z;
  input_cleanup_pending : bool
}.

#[export] Instance HostPeerSession_eq_dec : EqDecision HostPeerSession.
Proof. solve_decision. Defined.

Definition set_state (x : HostSessionState) (s : HostPeerSession) : HostPeerSession :=
  {| hp_session_id := hp_session_id s; hp_input_allowed := hp_input_allowed s;
     hp_config := hp_config s; hp_state := x;
     last_reliable_sequence := last_reliable_sequence s;
     last_pointer_sequence := last_pointer_sequence s; pressed_keys := pressed_keys s;
     pressed_buttons := pressed_buttons s; input_cleanup_pending := input_cleanup_pending s |}.

Definition set_sequences (r p : Z) (s : HostPeerSession) : HostPeerSession :=
  {| hp_session_id := hp_session_id s; hp_input_allowed := hp_input_allowed s;
     hp_config := hp_config s; hp_state := hp_state s;
     last_reliable_sequence := r; last_pointer_sequence := p; pressed_keys := pressed_keys s;
     pressed_buttons := pressed_buttons s; input_cleanup_pending := input_cleanup_pending s |}.

Definition set_pressed (k b : gset Z) (c : bool) (s : HostPeerSession) : HostPeerSession :=
  {| hp_session_id := hp_session_id s; hp_input_allowed := hp_input_allowed s;
     hp_config := hp_config s; hp_state := hp_state s;
     last_reliable_sequence := last_reliable_sequence s;
     last_pointer_sequence := last_pointer_sequence s; pressed_keys := k;
     pressed_buttons := b; input_cleanup_pending := c |}.

(** * Checks *)

Definition webrtc_validate_permissions (permissions : list SessionPermission)
    : result HostWebRtcError unit :=
  fail_if (bool_decide (permissions = []) ||
           negb (bool_decide (SessionPermission_ViewScreen ∈ permissions)) ||
           bool_decide (SessionPermission_Unspecified ∈ permissions)) HW_InvalidPermissions;;
  fail_if (negb (len (remove_dups permissions) =? len permissions)) HW_InvalidPermissions.

Definition validate_coordinates (x y : Z) : result HostWebRtcError unit :=
  fail_if (negb ((0 <=? x) && (x <=? NORMALIZED_POINTER_MAX)) ||
           negb ((0 <=? y) && (y <=? NORMALIZED_POINTER_MAX))) HW_InvalidCoordinates.

Definition validate_keyboard (usage modifier_bits : Z) : result HostWebRtcError unit :=
  fail_if (negb ((MINIMUM_USB_HID_KEYBOARD_USAGE <=? usage) &&
                 (usage <=? MAXIMUM_USB_HID_KEYBOARD_USAGE))) HW_InvalidKeyboardUsage;;
  fail_if (MAXIMUM_MODIFIER_BITS <? modifier_bits) HW_InvalidModifierBits.

(** The check on an answer, shared by the two offers. *)
Definition invalid_answer (answer : PeerAnswer) : bool :=
  bool_decide (pa_sdp answer = []) || (MAXIMUM_SDP_BYTES <? text_len (pa_sdp answer)) ||
  negb (len (pa_dtls_fingerprint_sha256 answer) =? NONCE_OR_HASH_BYTES).

Definition invalid_offer (offer_sdp : text) : bool :=
  bool_decide (offer_sdp = []) || (MAXIMUM_SDP_BYTES <? text_len offer_sdp).

(** * Operations *)

Definition HostPeerSession_new (session_id : bytes) (permissions : list SessionPermission)
    (config : SessionConfig) : result HostWebRtcError HostPeerSession :=
  fail_if (negb (len session_id =? SESSION_ID_BYTES)) HW_InvalidSession;;
  webrtc_validate_permissions permissions;;
  mret {| hp_session_id := session_id;
          hp_input_allowed := bool_decide (SessionPermission_ControlInput ∈ permissions);
          hp_config := config; hp_state := HS_New; last_reliable_sequence := 0;
          last_pointer_sequence := 0; pressed_keys := ∅; pressed_buttons := ∅;
          input_cleanup_pending := false |}.

Section session.
Context {W : Type} `{PeerBackend W, RemoteInputSink W}
  `{Message ReliableInputEnvelope, Message PointerFastEnvelope}.

Abbreviation P A := (M (HostPeerSession * W) HostWebRtcError A).

(** A call on one of the trait objects, and an update of the fields. *)
Definition world {A} (m : M W HostWebRtcError A) : P A :=
  zoom snd (λ w s, (s.1, w)) m.

Definition self_get : P HostPeerSession := gets fst.
Definition self_set (f : HostPeerSession → HostPeerSession) : P unit :=
  modify (λ s, (f s.1, s.2)).

Definition HostPeerSession_release_all : P unit :=
  result ← try (world sink_release_all);
  self_set (set_pressed ∅ ∅ (negb (is_ok result)));;
  lift result.

Definition HostPeerSession_close : P unit :=
  self ← self_get;
  if bool_decide (hp_state self = HS_Closed) then
    if input_cleanup_pending self then HostPeerSession_release_all else mret ()
  else
  self_set (set_state HS_Closing);;
  input_result ← try HostPeerSession_release_all;
  peer_result ← try (world peer_close);
  self_set (set_state HS_Closed);;
  lift (input_result ≫= λ _, peer_result).

Definition HostPeerSession_accept_offer (offer_sdp : text) : P PeerAnswer :=
  self ← self_get;
  fail_if (negb (bool_decide (hp_state self = HS_New))) HW_InvalidState;;
  fail_if (invalid_offer offer_sdp) HW_InvalidSdp;;
  answer ← try (world (peer_start (hp_config self) offer_sdp));
  match answer with
  | Err error => try (E' := HostWebRtcError) HostPeerSession_close;; mthrow error
  | Ok answer =>
      if invalid_answer answer then
        try (E' := HostWebRtcError) HostPeerSession_close;; mthrow HW_InvalidAnswer
      else self_set (set_state HS_Negotiating);; mret answer
  end.

Definition HostPeerSession_mark_connected : P unit :=
  self ← self_get;
  fail_if (negb (bool_decide (hp_state self = HS_Negotiating ∨ hp_state self = HS_Connected ∨
                              hp_state self = HS_Reconnecting))) HW_InvalidState;;
  self_set (set_state HS_Connected).

Definition HostPeerSession_begin_reconnect : P unit :=
  self ← self_get;
  if bool_decide (hp_state self = HS_Reconnecting) then mret () else
  fail_if (negb (bool_decide (hp_state self = HS_Connected ∨ hp_state self = HS_Negotiating)))
          HW_InvalidState;;
  HostPeerSession_release_all;;
  self_set (set_state HS_Reconnecting).

Definition HostPeerSession_accept_reconnect_offer (offer_sdp : text) : P PeerAnswer :=
  self ← self_get;
  fail_if (negb (bool_decide (hp_state self = HS_Reconnecting ∨ hp_state self = HS_Negotiating)))
          HW_InvalidState;;
  fail_if (invalid_offer offer_sdp) HW_InvalidSdp;;
  self_set (set_state HS_Reconnecting);;
  answer ← world (peer_restart (hp_config self) offer_sdp);
  fail_if (invalid_answer answer) HW_InvalidAnswer;;
  self_set (set_state HS_Negotiating);;
  mret answer.

Definition HostPeerSession_add_remote_ice_candidate (candidate : PeerIceCandidate) : P unit :=
  self ← self_get;
  fail_if (negb (bool_decide (hp_state self = HS_Negotiating ∨ hp_state self = HS_Connected)))
          HW_InvalidState;;
  world (peer_add_remote_ice_candidate candidate).

Definition require_input_ready (self : HostPeerSession) : result HostWebRtcError unit :=
  fail_if (negb (bool_decide (hp_state self = HS_Connected))) HW_InvalidState;;
  fail_if (negb (hp_input_allowed self)) HW_InputPermissionDenied.

Definition apply_reliable_event (event : ReliableInputEnvelope_Event) : P bool :=
  self ← self_get;
  match event with
  | ReliableInputEnvelope_Event_Keyboard event =>
      let usage := KeyboardEvent_usb_hid_usage event in
      action ← ok_or (KeyboardAction_try_from (KeyboardEvent_action event))
                     HW_InvalidInputEnvelope;
      lift (validate_keyboard usage (KeyboardEvent_modifier_bits event));;
      match action with
      | KeyboardAction_Down =>
          fail_if (bool_decide (usage ∈ pressed_keys self)) HW_PressedInputState;;
          self_set (λ s, set_pressed ({[usage]} ∪ pressed_keys s) (pressed_buttons s)
                           (input_cleanup_pending s) s);;
          world (sink_keyboard action usage (KeyboardEvent_modifier_bits event))
      | KeyboardAction_Up =>
          if bool_decide (usage ∈ pressed_keys self) then
            self_set (λ s, set_pressed (pressed_keys s ∖ {[usage]}) (pressed_buttons s)
                             (input_cleanup_pending s) s);;
            world (sink_keyboard action usage (KeyboardEvent_modifier_bits event))
          else mret ()
      | KeyboardAction_Unspecified => mthrow HW_InvalidInputEnvelope
      end;;
      mret false
  | ReliableInputEnvelope_Event_PointerButton event =>
      let x := PointerButtonEvent_x event in
      let y := PointerButtonEvent_y event in
      lift (validate_coordinates x y);;
      button ← ok_or (PointerButton_try_from (PointerButtonEvent_button event))
                     HW_InvalidInputEnvelope;
      action ← ok_or (ButtonAction_try_from (PointerButtonEvent_action event))
                     HW_InvalidInputEnvelope;
      match action with
      | ButtonAction_Down =>
          fail_if (bool_decide (PointerButtonEvent_button event ∈ pressed_buttons self))
                  HW_PressedInputState;;
          self_set (λ s, set_pressed (pressed_keys s)
                           ({[PointerButtonEvent_button event]} ∪ pressed_buttons s)
                           (input_cleanup_pending s) s);;
          world (sink_pointer_button button action x y)
      | ButtonAction_Up =>
          if bool_decide (PointerButtonEvent_button event ∈ pressed_buttons self) then
            self_set (λ s, set_pressed (pressed_keys s)
                             (pressed_buttons s ∖ {[PointerButtonEvent_button event]})
                             (input_cleanup_pending s) s);;
            world (sink_pointer_button button action x y)
          else mret ()
      | ButtonAction_Click | ButtonAction_DoubleClick =>
          world (sink_pointer_button button action x y)
      | ButtonAction_Unspecified => mthrow HW_InvalidInputEnvelope
      end;;
      mret false
  | ReliableInputEnvelope_Event_Text event =>
      fail_if (bool_decide (TextInputEvent_text event = []) ||
               (MAXIMUM_TEXT_INPUT_BYTES <? text_len (TextInputEvent_text event)))
              HW_InvalidInputEnvelope;;
      world (sink_text (TextInputEvent_text event));;
      mret false
  | ReliableInputEnvelope_Event_ReleaseAllInput _ =>
      HostPeerSession_release_all;;
      mret false
  | ReliableInputEnvelope_Event_SessionControl event =>
      action ← ok_or (SessionControlAction_try_from (SessionControlEvent_action event))
                     HW_InvalidInputEnvelope;
      match action with
      | SessionControlAction_Close | SessionControlAction_EmergencyStop => mret true
      | SessionControlAction_Unspecified => mthrow HW_InvalidInputEnvelope
      end
  end.

Definition HostPeerSession_handle_reliable (encoded : bytes) : P InputDisposition :=
  self ← self_get;
  lift (require_input_ready self);;
  envelope ← lift (map_err (λ _ : ValidationError, HW_InvalidInputEnvelope)
                     (decode_and_validate_reliable_input_envelope encoded));
  fail_if (negb (bool_decide (ReliableInputEnvelope_session_id envelope = hp_session_id self)))
          HW_SessionMismatch;;
  fail_if (negb (ReliableInputEnvelope_sequence envelope =?
                 saturating_add U64_MAX (last_reliable_sequence self) 1)) HW_ReliableSequence;;
  event ← ok_or (ReliableInputEnvelope_event envelope) HW_InvalidInputEnvelope;
  r ← try (apply_reliable_event event);
  match r with
  | Ok should_close =>
      self_set (λ s, set_sequences (ReliableInputEnvelope_sequence envelope)
                       (last_pointer_sequence s) s);;
      (if should_close : bool then HostPeerSession_close else mret ());;
      mret ID_Applied
  | Err HW_InputFailure => try (E' := HostWebRtcError) HostPeerSession_close;; mthrow HW_InputFailure
  | Err error => mthrow error
  end.

Definition apply_pointer_event (event : PointerFastEnvelope_Event)
    : P (result HostWebRtcError unit) :=
  match event with
  | PointerFastEnvelope_Event_Move event =>
      lift (validate_coordinates (PointerMoveEvent_x event) (PointerMoveEvent_y event));;
      fail_if (MAXIMUM_POINTER_BUTTON_BITS <? PointerMoveEvent_pressed_button_bits event)
              HW_InvalidPointerButtons;;
      try (world (sink_pointer_move (PointerMoveEvent_x event) (PointerMoveEvent_y event)
                    (PointerMoveEvent_pressed_button_bits event)))
  | PointerFastEnvelope_Event_Scroll event =>
      fail_if ((MAXIMUM_SCROLL_DELTA <? Z.abs (PointerScrollEvent_delta_x event)) ||
               (MAXIMUM_SCROLL_DELTA <? Z.abs (PointerScrollEvent_delta_y event)))
              HW_InvalidScrollDelta;;
      try (world (sink_pointer_scroll (PointerScrollEvent_delta_x event)
                    (PointerScrollEvent_delta_y event)))
  end.

Definition HostPeerSession_handle_pointer_fast (encoded : bytes) : P PointerDisposition :=
  self ← self_get;
  lift (require_input_ready self);;
  envelope ← lift (map_err (λ _ : ValidationError, HW_InvalidInputEnvelope)
                     (decode_and_validate_pointer_fast_envelope encoded));
  fail_if (negb (bool_decide (PointerFastEnvelope_session_id envelope = hp_session_id self)))
          HW_SessionMismatch;;
  if PointerFastEnvelope_sequence envelope <=? last_pointer_sequence self then
    mret PD_DroppedStale
  else
  event ← ok_or (PointerFastEnvelope_event envelope) HW_InvalidInputEnvelope;
  input_result ← apply_pointer_event event;
  match input_result with
  | Err error =>
      (if bool_decide (error = HW_InputFailure)
       then try (E' := HostWebRtcError) HostPeerSession_close;; mret () else mret ());;
      mthrow error
  | Ok _ =>
      self_set (λ s, set_sequences (last_reliable_sequence s)
                       (PointerFastEnvelope_sequence envelope) s);;
      mret PD_Applied
  end.

(** [Drop]: the result of the close is ignored. *)
Definition HostPeerSession_drop (s : HostPeerSession * W) : HostPeerSession * W :=
  (HostPeerSession_close s).2.
End session.

(** * The single inbound session slot *)

Record SessionLease := { sl_session_id : bytes; sl_generation : Z }.

#[export] Instance SessionLease_eq_dec : EqDecision SessionLease.
Proof. solve_decision. Defined.

Record SessionGate := { sg_active : option SessionLease; sg_generation : Z }.

Definition SessionGate_new : SessionGate := {| sg_active := None; sg_generation := 0 |}.

Definition SessionGate_acquire (session_id : bytes) : M SessionGate HostWebRtcError SessionLease :=
  self ← get;
  fail_if (negb (len session_id =? SESSION_ID_BYTES)) HW_InvalidSession;;
  fail_if (is_some (sg_active self)) HW_DeviceBusy;;
  let generation := saturating_add U64_MAX (sg_generation self) 1 in
  let lease := {| sl_session_id := session_id; sl_generation := generation |} in
  put {| sg_active := Some lease; sg_generation := generation |};;
  mret lease.

Definition SessionGate_release (lease : SessionLease) : M SessionGate HostWebRtcError unit :=
  self ← get;
  fail_if (negb (bool_decide (sg_active self = Some lease))) HW_InvalidLease;;
  put {| sg_active := None; sg_generation := sg_generation self |}.

(** * Runs *)

Inductive SessionOp :=
| SOffer (sdp : text) | SConnected | SBeginReconnect | SReconnectOffer (sdp : text)
| SCandidate (c : PeerIceCandidate) | SReliable (encoded : bytes) | SPointer (encoded : bytes)
| SClose.

Section runs.
Context {W : Type} `{PeerBackend W, RemoteInputSink W}
  `{Message ReliableInputEnvelope, Message PointerFastEnvelope}.

(** The sequence number an accepted envelope carries. *)
Definition reliable_sequence_of (encoded : bytes) : list Z :=
  match decode_and_validate_reliable_input_envelope encoded with
  | Ok e => [ReliableInputEnvelope_sequence e]
  | Err _ => []
  end.

Definition pointer_sequence_of (encoded : bytes) : list Z :=
  match decode_and_validate_pointer_fast_envelope encoded with
  | Ok e => [PointerFastEnvelope_sequence e]
  | Err _ => []
  end.

(** What a call logs: the reliable and the pointer sequences it applied. *)
Definition session_exec (op : SessionOp) (s : HostPeerSession * W)
    : (list Z * list Z) * (HostPeerSession * W) :=
  match op with
  | SOffer sdp => (([], []), (HostPeerSession_accept_offer sdp s).2)
  | SConnected => (([], []), (HostPeerSession_mark_connected s).2)
  | SBeginReconnect => (([], []), (HostPeerSession_begin_reconnect s).2)
  | SReconnectOffer sdp => (([], []), (HostPeerSession_accept_reconnect_offer sdp s).2)
  | SCandidate c => (([], []), (HostPeerSession_add_remote_ice_candidate c s).2)
  | SReliable encoded =>
      let '(r, s') := HostPeerSession_handle_reliable encoded s in
      ((if is_ok r then reliable_sequence_of encoded else [], []), s')
  | SPointer encoded =>
      let '(r, s') := HostPeerSession_handle_pointer_fast encoded s in
      (([], match r with Ok PD_Applied => pointer_sequence_of encoded | _ => [] end), s')
  | SClose => (([], []), (HostPeerSession_close s).2)
  end.

Fixpoint session_run (ops : list SessionOp) (s : HostPeerSession * W)
    : (list Z * list Z) * (HostPeerSession * W) :=
  match ops with
  | [] => (([], []), s)
  | op :: ops' =>
      let '((r1, p1), s1) := session_exec op s in
      let '((r2, p2), s2) := session_run ops' s1 in ((r1 ++ r2, p1 ++ p2), s2)
  end.

(** What holds of a session between calls. *)
Record session_wf (s : HostPeerSession) : Prop := {
  wf_not_closing : hp_state s ≠ HS_Closing;
  wf_pressed : hp_state s ≠ HS_Connected → pressed_keys s = ∅ ∧ pressed_buttons s = ∅;
  wf_keys : ∀ u, u ∈ pressed_keys s → hp_input_allowed s = true ∧
    MINIMUM_USB_HID_KEYBOARD_USAGE <= u <= MAXIMUM_USB_HID_KEYBOARD_USAGE;
  wf_buttons : ∀ b, b ∈ pressed_buttons s → hp_input_allowed s = true ∧ known PointerButton b
}.

Section laws.
Context (inv : W → Prop) (held : W → gset Held).

(** Between calls nothing is held unless the session is connected or a release failed. *)
Definition released (s : HostPeerSession * W) : Prop :=
  inv s.2 ∧
  (hp_state s.1 ≠ HS_Connected → input_cleanup_pending s.1 = false → held s.2 = ∅).
End laws.

(** ** Lemmas *)

Lemma release_all_spec s w :
  HostPeerSession_release_all (s, w) =
  let '(r, w') := sink_release_all w in (r, (set_pressed ∅ ∅ (negb (is_ok r)) s, w')).
Proof.
  unfold HostPeerSession_release_all, world, self_set. unmonad.
  by destruct (sink_release_all w) as [[]?].
Qed.

Lemma close_spec s w :
  HostPeerSession_close (s, w) =
  if decide (hp_state s = HS_Closed) then
    if input_cleanup_pending s then HostPeerSession_release_all (s, w) else (Ok (), (s, w))
  else
    let '(r1, w1) := sink_release_all w in
    let '(r2, w2) := peer_close w1 in
    (r1 ≫= λ _, r2, (set_state HS_Closed (set_pressed ∅ ∅ (negb (is_ok r1)) s), w2)).
Proof.
  unfold HostPeerSession_close, self_get, self_set, world. unmonad.
  case_decide as Hc.
  - rewrite bool_decide_eq_true_2 by done. by destruct (input_cleanup_pending s).
  - rewrite bool_decide_eq_false_2 by done. rewrite release_all_spec. simpl.
    destruct (sink_release_all w) as [r1 w1]. simpl. by destruct (peer_close w1) as [r2 w2].
Qed.

Lemma close_state s w r s' w' :
  HostPeerSession_close (s, w) = (r, (s', w')) → hp_state s' = HS_Closed ∧
  (hp_state s = HS_Closed ∨ pressed_keys s' = ∅ ∧ pressed_buttons s' = ∅) ∧
  pressed_keys s' ⊆ pressed_keys s ∧ pressed_buttons s' ⊆ pressed_buttons s ∧
  hp_session_id s' = hp_session_id s ∧ hp_input_allowed s' = hp_input_allowed s ∧
  last_reliable_sequence s' = last_reliable_sequence s ∧
  last_pointer_sequence s' = last_pointer_sequence s.
Proof.
  rewrite close_spec, release_all_spec. intros Hr.
  repeat case_match; simplify_eq/=; split_and!; try done; auto; try set_solver.
Qed.

(** The guard of [handle_reliable]: the envelope and event it lets through. *)
Definition reliable_guard (s : HostPeerSession) (encoded : bytes)
    : result HostWebRtcError (ReliableInputEnvelope * ReliableInputEnvelope_Event) :=
  require_input_ready s;;
  envelope ← map_err (λ _ : ValidationError, HW_InvalidInputEnvelope)
               (decode_and_validate_reliable_input_envelope encoded);
  fail_if (negb (bool_decide (ReliableInputEnvelope_session_id envelope = hp_session_id s)))
          HW_SessionMismatch;;
  fail_if (negb (ReliableInputEnvelope_sequence envelope =?
                 saturating_add U64_MAX (last_reliable_sequence s) 1)) HW_ReliableSequence;;
  event ← ok_or (ReliableInputEnvelope_event envelope) HW_InvalidInputEnvelope;
  mret (envelope, event).
(** The same guard for [handle_pointer_fast]; [None] is an envelope dropped as stale. *)
Definition pointer_guard (s : HostPeerSession) (encoded : bytes)
    : result HostWebRtcError (option (PointerFastEnvelope * PointerFastEnvelope_Event)) :=
  require_input_ready s;;
  envelope ← map_err (λ _ : ValidationError, HW_InvalidInputEnvelope)
               (decode_and_validate_pointer_fast_envelope encoded);
  fail_if (negb (bool_decide (PointerFastEnvelope_session_id envelope = hp_session_id s)))
          HW_SessionMismatch;;
  if PointerFastEnvelope_sequence envelope <=? last_pointer_sequence s then mret None else
  event ← ok_or (PointerFastEnvelope_event envelope) HW_InvalidInputEnvelope;
  mret (Some (envelope, event)).

Lemma require_input_ready_Ok s :
  require_input_ready s = Ok () ↔ hp_state s = HS_Connected ∧ hp_input_allowed s = true.
Proof.
  unfold require_input_ready. unmonad.
  destruct (decide (hp_state s = HS_Connected)) as [->|Hn].
  - simpl. destruct (hp_input_allowed s); simpl; naive_solver.
  - rewrite bool_decide_eq_false_2 by done. simpl. naive_solver.
Qed.

Lemma reliable_guard_Ok s encoded env ev :
  reliable_guard s encoded = Ok (env, ev) →
  hp_state s = HS_Connected ∧ hp_input_allowed s = true ∧
  decode_and_validate_reliable_input_envelope encoded = Ok env ∧
  ReliableInputEnvelope_session_id env = hp_session_id s ∧
  ReliableInputEnvelope_sequence env = saturating_add U64_MAX (last_reliable_sequence s) 1 ∧
  ReliableInputEnvelope_event env = Some ev ∧ validate_reliable_event ev = Ok ().
Proof.
  unfold reliable_guard. intros ([]&Hr&Hg)%result_bind_Ok.
  apply require_input_ready_Ok in Hr as [??].
  apply result_bind_Ok in Hg as (env'&Hd&Hg).
  destruct (decode_and_validate_reliable_input_envelope encoded) as [env0|] eqn:Hdec; simplify_eq/=.
  assert (∀ ev, ReliableInputEnvelope_event env' = Some ev → validate_reliable_event ev = Ok ()) as Hv.
  { unfold decode_and_validate_reliable_input_envelope in Hdec. clear Hg.
    apply v_seq in Hdec as [_ Hdec]. apply v_ok_or in Hdec as (?&_&Hdec).
    apply v_seq in Hdec as [_ Hdec]. apply v_ok_or in Hdec as (ev'&He&Hdec).
    apply v_seq in Hdec as [_ Hdec]. apply v_seq in Hdec as [Hve Hdec].
    unmonad. naive_solver. }
  run Hg. split_and!; eauto.
Qed.

Lemma pointer_guard_Ok s encoded o :
  pointer_guard s encoded = Ok o →
  hp_state s = HS_Connected ∧ hp_input_allowed s = true ∧
  ∃ env, decode_and_validate_pointer_fast_envelope encoded = Ok env ∧
    PointerFastEnvelope_session_id env = hp_session_id s ∧
    (o = None ∧ PointerFastEnvelope_sequence env <= last_pointer_sequence s ∨
     ∃ ev, o = Some (env, ev) ∧ last_pointer_sequence s < PointerFastEnvelope_sequence env ∧
       PointerFastEnvelope_event env = Some ev).
Proof.
  unfold pointer_guard. intros ([]&Hr&Hg)%result_bind_Ok.
  apply require_input_ready_Ok in Hr as [??].
  apply result_bind_Ok in Hg as (env'&Hd&Hg).
  destruct (decode_and_validate_pointer_fast_envelope encoded) as [env0|] eqn:Hdec; simplify_eq/=.
  run Hg; split_and!; eauto 10.
Qed.

Lemma handle_reliable_spec encoded s w :
  HostPeerSession_handle_reliable encoded (s, w) =
  match reliable_guard s encoded with
  | Err e => (Err e, (s, w))
  | Ok (env, ev) =>
      let '(r, (s1, w1)) := apply_reliable_event ev (s, w) in
      match r with
      | Ok should_close =>
          let s2 := set_sequences (ReliableInputEnvelope_sequence env)
                      (last_pointer_sequence s1) s1 in
          if should_close : bool then
            let '(rc, x) := HostPeerSession_close (s2, w1) in (rc ≫= λ _, Ok ID_Applied, x)
          else (Ok ID_Applied, (s2, w1))
      | Err e =>
          (Err e, if decide (e = HW_InputFailure) then (HostPeerSession_close (s1, w1)).2
                  else (s1, w1))
      end
  end.
Proof.
  unfold HostPeerSession_handle_reliable, reliable_guard, self_get, self_set, gets.
  unfold fail_if, ok_or, lift. unfold mbind, M_bind, mret, M_ret, mthrow, M_throw.
  simpl. destruct (require_input_ready s) as [[]|]; simpl; [|done].
  destruct (map_err _ _) as [env|]; simpl; [|done].
  destruct (negb (bool_decide _)); simpl; [done|].
  destruct (negb (_ =? _)); simpl; [done|].
  destruct (ReliableInputEnvelope_event env) as [ev|]; simpl; [|done].
  unfold try. destruct (apply_reliable_event ev (s, w)) as [[sc|e] [s1 w1]]; simpl.
  - unfold modify. simpl. destruct sc; [|done]. by destruct (HostPeerSession_close _) as [[]?].
  - destruct e; simpl; try done. by destruct (HostPeerSession_close _) as [[]?].
Qed.

Lemma handle_pointer_spec encoded s w :
  HostPeerSession_handle_pointer_fast encoded (s, w) =
  match pointer_guard s encoded with
  | Err e => (Err e, (s, w))
  | Ok None => (Ok PD_DroppedStale, (s, w))
  | Ok (Some (env, ev)) =>
      let '(r, (s1, w1)) := apply_pointer_event ev (s, w) in
      match r with
      | Ok (Ok _) =>
          (Ok PD_Applied, (set_sequences (last_reliable_sequence s1)
                             (PointerFastEnvelope_sequence env) s1, w1))
      | Ok (Err e) =>
          (Err e, if decide (e = HW_InputFailure) then (HostPeerSession_close (s1, w1)).2
                  else (s1, w1))
      | Err e => (Err e, (s1, w1))
      end
  end.
Proof.
  unfold HostPeerSession_handle_pointer_fast, pointer_guard, self_get, self_set, gets.
  unfold fail_if, ok_or, lift. unfold mbind, M_bind, mret, M_ret, mthrow, M_throw.
  simpl. destruct (require_input_ready s) as [[]|]; simpl; [|done].
  destruct (map_err _ _) as [env|]; simpl; [|done].
  destruct (negb (bool_decide _)); simpl; [done|].
  destruct (_ <=? _); simpl; [done|].
  destruct (PointerFastEnvelope_event env) as [ev|]; simpl; [|done].
  unfold try. destruct (apply_pointer_event ev (s, w)) as [[[[]|e]|e] [s1 w1]]; simpl; try done.
  case_decide as He; [rewrite bool_decide_eq_true_2 by done|by rewrite bool_decide_eq_false_2 by done].
  by destruct (HostPeerSession_close _) as [[]?].
Qed.

Section invariant.
Context (inv : W → Prop) (held : W → gset Held) {HL : SinkLaws W inv held}.

(** The part of the invariant that also holds inside a call. *)
Definition core (s : HostPeerSession * W) : Prop :=
  (∀ u, u ∈ pressed_keys s.1 → hp_input_allowed s.1 = true ∧
    MINIMUM_USB_HID_KEYBOARD_USAGE <= u <= MAXIMUM_USB_HID_KEYBOARD_USAGE) ∧
  (∀ b, b ∈ pressed_buttons s.1 → hp_input_allowed s.1 = true ∧ known PointerButton b) ∧
  inv s.2.

(** The fields an input call never changes. *)
Definition same_session (s s' : HostPeerSession) : Prop :=
  hp_state s' = hp_state s ∧ hp_session_id s' = hp_session_id s ∧
  hp_input_allowed s' = hp_input_allowed s ∧
  last_reliable_sequence s' = last_reliable_sequence s ∧
  last_pointer_sequence s' = last_pointer_sequence s.

Definition Inv (s : HostPeerSession * W) : Prop := session_wf s.1 ∧ released inv held s.

Lemma Inv_core s : Inv s → core s.
Proof. by intros [[] []]. Qed.

Lemma Inv_empty s w :
  hp_state s ≠ HS_Closing → pressed_keys s = ∅ → pressed_buttons s = ∅ → inv w →
  (hp_state s ≠ HS_Connected → input_cleanup_pending s = false → held w = ∅) → Inv (s, w).
Proof.
  intros Hs Hk Hb Hi Hh. split; split; simpl; try done.
  - rewrite Hk. by intros ? []%elem_of_empty.
  - rewrite Hb. by intros ? []%elem_of_empty.
Qed.

Lemma release_all_inv s w r s' w' :
  HostPeerSession_release_all (s, w) = (r, (s', w')) → inv w →
  inv w' ∧ s' = set_pressed ∅ ∅ (negb (is_ok r)) s ∧ (is_ok r = true → held w' = ∅).
Proof.
  rewrite release_all_spec. destruct (sink_release_all w) as [r1 w1] eqn:Hs.
  intros [= <- <- <-] Hi. apply (law_release_all (inv:=inv) (held:=held)) in Hs as [??]; [|done].
  split_and!; try done. destruct r1 as [[]|]; naive_solver.
Qed.

Lemma close_Inv s w r s' w' :
  HostPeerSession_close (s, w) = (r, (s', w')) →
  core (s, w) → (hp_state s = HS_Closed → Inv (s, w)) → Inv (s', w').
Proof.
  rewrite close_spec. intros Hr (Hk&Hb&Hi) Hcl. simpl in *. case_decide as Hc.
  - destruct (input_cleanup_pending s) eqn:Hp; [|simplify_eq; auto].
    apply release_all_inv in Hr as (?&->&?); [|done].
    apply Inv_empty; simpl; try done; [by rewrite Hc|]. destruct r; naive_solver.
  - destruct (sink_release_all w) as [r1 w1] eqn:Hs, (peer_close w1) as [r2 w2] eqn:Hpc.
    simplify_eq. apply (law_release_all (inv:=inv) (held:=held)) in Hs as [Hi1 Hh]; [|done].
    pose proof (law_peer_close (held:=held) w1 Hi1) as [Hi2 Hh2]. rewrite Hpc in *. simpl in *.
    apply Inv_empty; simpl; try done. intros _ Hr1.
    destruct r1 as [[]|]; [|done]. rewrite Hh in Hh2 by done. by apply equiv_empty_L in Hh2.
Qed.

(** Replaces a recorded call of the world by the preservation of its invariant. *)
Ltac sink_law :=
  match goal with
  | Hi : inv ?w, H : sink_keyboard ?a ?u ?b ?w = _ |- _ =>
      pose proof (law_keyboard (inv:=inv) (held:=held) a u b w Hi); rewrite H in *; clear Hi H
  | Hi : inv ?w, H : sink_pointer_button ?a ?u ?b ?c ?w = _ |- _ =>
      pose proof (law_pointer_button (inv:=inv) (held:=held) a u b c w Hi); rewrite H in *; clear Hi H
  | Hi : inv ?w, H : sink_pointer_move ?a ?u ?b ?w = _ |- _ =>
      pose proof (law_pointer_move (inv:=inv) (held:=held) a u b w Hi); rewrite H in *; clear Hi H
  | Hi : inv ?w, H : sink_pointer_scroll ?a ?u ?w = _ |- _ =>
      pose proof (law_pointer_scroll (inv:=inv) (held:=held) a u w Hi); rewrite H in *; clear Hi H
  | Hi : inv ?w, H : sink_text ?a ?w = _ |- _ =>
      pose proof (law_text (inv:=inv) (held:=held) a w Hi); rewrite H in *; clear Hi H
  end; simpl in *.

(** An update of the pressed sets within the admissible keys and buttons. *)
Lemma core_pressed s w k b c :
  inv w →
  (∀ u, u ∈ k → u ∈ pressed_keys s ∨ hp_input_allowed s = true ∧
    MINIMUM_USB_HID_KEYBOARD_USAGE <= u <= MAXIMUM_USB_HID_KEYBOARD_USAGE) →
  (∀ x, x ∈ b → x ∈ pressed_buttons s ∨ hp_input_allowed s = true ∧ known PointerButton x) →
  (∀ w0, inv w0 → core (s, w0)) →
  core (set_pressed k b c s, w).
Proof.
  intros Hi Hk Hb Hc. destruct (Hc w Hi) as (Hk0&Hb0&_). split_and!; simpl; naive_solver.
Qed.

Lemma apply_event_core event s w r s' w' :
  apply_reliable_event event (s, w) = (r, (s', w')) →
  core (s, w) → hp_input_allowed s = true → validate_reliable_event event = Ok () →
  core (s', w') ∧ same_session s s'.
Proof.
  intros Hr Hc Ha Hv. pose proof Hc as (_&_&Hi). simpl in Hi.
  assert (∀ w0, inv w0 → core (s, w0)) as Hcw.
  { intros w0 Hi0. destruct Hc as (?&?&?). by split_and!. }
  unfold apply_reliable_event, world, self_get, self_set, validate_keyboard,
    validate_coordinates in Hr. destruct event as [e|e|e|e|e]; simpl in Hr.
  - apply v_seq in Hv as [Hvb _].
    apply (proj1 (@v_enum _ PointerButton_enum _)) in Hvb.
    run Hr; try sink_law; (split; [|done]); try (by apply Hcw); apply core_pressed; try done; set_solver.
  - run Hr; try sink_law; (split; [|done]); try (by apply Hcw); apply core_pressed; try done; set_solver.
  - run Hr; try sink_law; (split; [|done]); by apply Hcw.
  - run Hr; (split; [|done]); by apply Hcw.
  - run Hr.
    all: match goal with H : HostPeerSession_release_all _ = _ |- _ =>
           apply release_all_inv in H as (?&->&?); [|done] end.
    all: split; [apply core_pressed; try done; set_solver|done].
Qed.

Lemma core_sequences s w r p : core (s, w) → core (set_sequences r p s, w).
Proof. by intros (?&?&?). Qed.

Lemma Inv_sequences s w r p : Inv (s, w) → Inv (set_sequences r p s, w).
Proof. intros [[] []]. by split. Qed.

(** Input leaves a connected session connected. *)
Lemma connected_Inv s w : hp_state s = HS_Connected → core (s, w) → Inv (s, w).
Proof. intros Hs (Hk&Hb&Hi). split; split; simpl in *; try done; by rewrite Hs. Qed.

Lemma handle_reliable_Inv encoded s w r s' w' :
  HostPeerSession_handle_reliable encoded (s, w) = (r, (s', w')) → Inv (s, w) → Inv (s', w').
Proof.
  rewrite handle_reliable_spec. intros Hr Hi. pose proof (Inv_core _ Hi) as Hc.
  destruct (reliable_guard s encoded) as [[env ev]|e] eqn:Hg; [|by simplify_eq].
  apply reliable_guard_Ok in Hg as (Hst&Ha&_&_&_&_&Hv).
  destruct (apply_reliable_event ev (s, w)) as [r1 [s1 w1]] eqn:Hap.
  apply apply_event_core in Hap as [Hc1 (Hs1&_)]; [|done..].
  rewrite Hst in Hs1. simpl in Hr. destruct r1 as [[]|e].
  - destruct (HostPeerSession_close (set_sequences (ReliableInputEnvelope_sequence env)
       (last_pointer_sequence s1) s1, w1)) as [rc [s2 w2]] eqn:Hcl. simplify_eq.
    eapply close_Inv; [done| |by simpl; rewrite Hs1]. by apply core_sequences.
  - simplify_eq. apply Inv_sequences. by apply connected_Inv.
  - case_decide; simplify_eq; [|by apply connected_Inv].
    destruct (HostPeerSession_close (s1, w1)) as [rc [s2 w2]] eqn:Hcl. simplify_eq/=.
    eapply close_Inv; [done|done|by rewrite Hs1].
Qed.

Lemma apply_pointer_core ev s w r s1 w1 :
  apply_pointer_event ev (s, w) = (r, (s1, w1)) → core (s, w) → core (s1, w1) ∧ s1 = s.
Proof.
  intros Hr (Hk&Hb&Hi). simpl in *. unfold apply_pointer_event, world, validate_coordinates in Hr.
  destruct ev; run Hr; try sink_law; by split_and!.
Qed.

Lemma handle_pointer_Inv encoded s w r s' w' :
  HostPeerSession_handle_pointer_fast encoded (s, w) = (r, (s', w')) → Inv (s, w) → Inv (s', w').
Proof.
  rewrite handle_pointer_spec. intros Hr Hi. pose proof (Inv_core _ Hi) as Hc.
  destruct (pointer_guard s encoded) as [[[env ev]|]|e] eqn:Hg; [|by simplify_eq..].
  apply pointer_guard_Ok in Hg as (Hst&Ha&_).
  destruct (apply_pointer_event ev (s, w)) as [r1 [s1 w1]] eqn:Hap.
  apply apply_pointer_core in Hap as [Hc1 ->]; [|done].
  destruct r1 as [[[]|e]|e]; simplify_eq.
  - apply Inv_sequences. by apply connected_Inv.
  - case_decide; simplify_eq; [|by apply connected_Inv].
    destruct (HostPeerSession_close (s, w1)) as [rc [s2 w2]] eqn:Hcl. simplify_eq/=.
    eapply close_Inv; [done|done|by rewrite Hst].
  - by apply connected_Inv.
Qed.

Lemma peer_call_Inv s w w' : Inv (s, w) → inv w' → held w' ⊆ held w → Inv (s, w').
Proof.
  intros [Hw [Hi Hh]] Hi' Hle. split; [done|]. split; [done|]. simpl in *.
  intros Hs Hp. rewrite Hh in Hle by done. by apply equiv_empty_L in Hle.
Qed.

(** A state change between states that are not connected. *)
Lemma set_state_Inv s w x :
  Inv (s, w) → hp_state s ≠ HS_Connected → x ≠ HS_Closing → Inv (set_state x s, w).
Proof.
  intros [[Hc Hp Hk Hb] [Hi Hh]] Hs Hx. simpl in *. destruct (Hp Hs) as [Hpk Hpb].
  apply Inv_empty; simpl; auto.
Qed.

Lemma accept_offer_Inv sdp s w r s' w' :
  HostPeerSession_accept_offer sdp (s, w) = (r, (s', w')) → Inv (s, w) → Inv (s', w').
Proof.
  unfold HostPeerSession_accept_offer, self_get, self_set, world. intros Hr HI.
  pose proof (λ c, law_peer_start (inv:=inv) (held:=held) c sdp w (proj1 (proj2 HI))) as Hl.
  specialize (Hl (hp_config s)). revert Hr. unmonad.
  destruct (bool_decide (hp_state s = HS_New)) eqn:Hn; simpl; [|by intros; simplify_eq].
  apply bool_decide_eq_true in Hn. destruct (invalid_offer sdp); [by intros; simplify_eq|]. simpl.
  destruct (peer_start (hp_config s) sdp w) as [r1 w1] eqn:Hs. simpl in Hl. destruct Hl as [Hi1 Hh1].
  pose proof (peer_call_Inv _ _ _ HI Hi1 Hh1) as HI1. pose proof (Inv_core _ HI1) as Hc1.
  destruct r1 as [a|e]; [destruct (invalid_answer a)|]; simpl.
  - destruct (HostPeerSession_close (s, w1)) as [rc [s2 w2]] eqn:Hcl. intros; simplify_eq.
    by eapply close_Inv.
  - intros; simplify_eq. apply set_state_Inv; [done| |done]. by rewrite Hn.
  - destruct (HostPeerSession_close (s, w1)) as [rc [s2 w2]] eqn:Hcl. intros; simplify_eq.
    by eapply close_Inv.
Qed.

Lemma mark_connected_Inv s w r s' w' :
  HostPeerSession_mark_connected (s, w) = (r, (s', w')) → Inv (s, w) → Inv (s', w').
Proof.
  unfold HostPeerSession_mark_connected, self_get, self_set. intros Hr [[Hc Hp Hk Hb] [Hi Hh]].
  revert Hr. unmonad. destruct (bool_decide _); simpl; intros; simplify_eq; by split; split.
Qed.

Lemma begin_reconnect_Inv s w r s' w' :
  HostPeerSession_begin_reconnect (s, w) = (r, (s', w')) → Inv (s, w) → Inv (s', w').
Proof.
  unfold HostPeerSession_begin_reconnect, self_get, self_set. intros Hr HI.
  pose proof (proj1 (proj2 HI)) as Hi. simpl in Hi. revert Hr. unmonad.
  case_bool_decide as Hre; [by intros; simplify_eq|].
  destruct (bool_decide (hp_state s = HS_Connected ∨ _)) eqn:Hst; simpl; [|by intros; simplify_eq].
  apply bool_decide_eq_true in Hst.
  destruct (HostPeerSession_release_all (s, w)) as [r1 [s1 w1]] eqn:Hra.
  apply release_all_inv in Hra as (Hi1&->&Hh1); [|done].
  destruct r1 as [[]|e]; simpl; intros; simplify_eq; apply Inv_empty; simpl; auto.
  destruct Hst as [-> | ->]; done.
Qed.

Lemma reconnect_offer_Inv sdp s w r s' w' :
  HostPeerSession_accept_reconnect_offer sdp (s, w) = (r, (s', w')) → Inv (s, w) → Inv (s', w').
Proof.
  unfold HostPeerSession_accept_reconnect_offer, self_get, self_set, world. intros Hr HI.
  pose proof (law_peer_restart (inv:=inv) (held:=held) (hp_config s) sdp w (proj1 (proj2 HI))) as Hl.
  revert Hr. unmonad.
  destruct (bool_decide (hp_state s = HS_Reconnecting ∨ _)) eqn:Hst; simpl; [|by intros; simplify_eq].
  apply bool_decide_eq_true in Hst. destruct (invalid_offer sdp); [by intros; simplify_eq|]. simpl.
  destruct (peer_restart (hp_config s) sdp w) as [r1 w1] eqn:Hs. simpl in Hl. destruct Hl as [Hi1 Hh1].
  pose proof (peer_call_Inv _ _ _ HI Hi1 Hh1) as HI1.
  assert (hp_state s ≠ HS_Connected) as Hnc by (destruct Hst as [-> | ->]; done).
  assert (∀ x, x ≠ HS_Closing → x ≠ HS_Connected →
    Inv (set_state x (set_state HS_Reconnecting s), w1)) as Hss.
  { intros x Hx Hx'. apply set_state_Inv; [|done|done]. by apply set_state_Inv. }
  destruct r1 as [a|e]; [destruct (invalid_answer a)|]; simpl; intros; simplify_eq.
  - by apply set_state_Inv.
  - by apply Hss.
  - by apply set_state_Inv.
Qed.

Lemma candidate_Inv c s w r s' w' :
  HostPeerSession_add_remote_ice_candidate c (s, w) = (r, (s', w')) → Inv (s, w) → Inv (s', w').
Proof.
  unfold HostPeerSession_add_remote_ice_candidate, self_get, world. intros Hr HI.
  pose proof (law_peer_candidate (inv:=inv) (held:=held) c w (proj1 (proj2 HI))) as Hl.
  revert Hr. unmonad. destruct (bool_decide _); simpl; [|by intros; simplify_eq].
  destruct (peer_add_remote_ice_candidate c w) as [r1 w1]. simpl in Hl. destruct Hl.
  intros; simplify_eq. by eapply peer_call_Inv.
Qed.

Lemma session_exec_Inv op s l s' : session_exec op s = (l, s') → Inv s → Inv s'.
Proof.
  destruct s as [s w], s' as [s' w']. intros He HI.
  destruct op; simpl in He;
    match type of He with context [?m (s, w)] => destruct (m (s, w)) as [r [s1 w1]] eqn:Hm end;
    simplify_eq/=.
  - by eapply accept_offer_Inv.
  - by eapply mark_connected_Inv.
  - by eapply begin_reconnect_Inv.
  - by eapply reconnect_offer_Inv.
  - by eapply candidate_Inv.
  - by eapply handle_reliable_Inv.
  - by eapply handle_pointer_Inv.
  - eapply close_Inv; [done|by apply Inv_core|done].
Qed.

Lemma session_run_Inv ops s : Inv s → Inv (session_run ops s).2.
Proof.
  revert s. induction ops as [|op ops IH]; intros s HI; simpl; [done|].
  destruct (session_exec op s) as [[r1 p1] s1] eqn:He.
  specialize (IH s1 (session_exec_Inv _ _ _ _ He HI)).
  by destruct (session_run ops s1) as [[r2 p2] s2].
Qed.

Lemma new_Inv id ps c s w :
  HostPeerSession_new id ps c = Ok s → inv w → held w = ∅ → Inv (s, w).
Proof. unfold HostPeerSession_new. intros Hn Hi Hh. run Hn. Qed.
End invariant.

(** ** The sequences a run applies *)

(** Where a run stands: the applied reliable sequences count up from 1, saturating at the end
    of the range, the applied pointer sequences increase. *)
Record applied (rl pl : list Z) (s : HostPeerSession) : Prop := {
  ap_reliable : ∀ i n, rl !! i = Some n → n = Z.min (Z.of_nat i + 1) U64_MAX;
  ap_last : hp_state s ≠ HS_Closed → last_reliable_sequence s = Z.min (len rl) U64_MAX;
  ap_pointer : StronglySorted Z.lt pl;
  ap_pointer_last : Forall (λ p, 0 < p <= last_pointer_sequence s) pl ∧
                    0 <= last_pointer_sequence s
}.

Lemma apply_event_same event s w r s' w' :
  apply_reliable_event event (s, w) = (r, (s', w')) → same_session s s'.
Proof.
  unfold apply_reliable_event, world, self_get, self_set, validate_keyboard,
    validate_coordinates. intros Hr. destruct event as [e|e|e|e|e]; simpl in Hr.
  1-4: run Hr.
  rewrite ?release_all_spec in Hr. revert Hr. unfold gets, mbind, M_bind. rewrite release_all_spec.
  destruct (sink_release_all w) as [[]?]; unmonad; intros; by simplify_eq.
Qed.

Lemma apply_pointer_same ev s w r s' w' :
  apply_pointer_event ev (s, w) = (r, (s', w')) → s' = s.
Proof.
  unfold apply_pointer_event, world, validate_coordinates. intros Hr. destruct ev; run Hr.
Qed.

(** How a call moves the sequence numbers. *)
Inductive sequence_step (s s' : HostPeerSession) : list Z → list Z → Prop :=
| step_none :
    last_reliable_sequence s' = last_reliable_sequence s →
    last_pointer_sequence s' = last_pointer_sequence s →
    (hp_state s = HS_Closed → hp_state s' = HS_Closed) → sequence_step s s' [] []
| step_closed :
    last_pointer_sequence s' = last_pointer_sequence s →
    hp_state s' = HS_Closed → sequence_step s s' [] []
| step_reliable n :
    hp_state s ≠ HS_Closed → n = saturating_add U64_MAX (last_reliable_sequence s) 1 →
    last_reliable_sequence s' = n → last_pointer_sequence s' = last_pointer_sequence s →
    sequence_step s s' [n] []
| step_pointer n :
    hp_state s ≠ HS_Closed → hp_state s' ≠ HS_Closed → last_pointer_sequence s < n →
    last_pointer_sequence s' = n →
    last_reliable_sequence s' = last_reliable_sequence s → sequence_step s s' [] [n].

Lemma applied_step rl pl s s' r p :
  sequence_step s s' r p → applied rl pl s → applied (rl ++ r) (pl ++ p) s'.
Proof.
  intros Hs [Hr Hl Hp [Hf Hge]].
  destruct Hs as [H1r H1p Hc|H1p Hc|n Hc -> H1r H1p|n Hc Hc' Hn H1p H1r]; rewrite ?app_nil_r.
  - split; rewrite ?H1r, ?H1p; auto.
  - split; rewrite ?H1p; auto. by rewrite Hc.
  - split; rewrite ?H1p; auto.
    + intros i m Hi. apply lookup_app_Some in Hi as [Hi|[Hi Hm]]; [by apply Hr|].
      apply list_lookup_singleton_Some in Hm as [Hm <-].
      rewrite Hl by done. unfold saturating_add, len, U64_MAX. lia.
    + intros _. rewrite H1r, Hl by done. unfold saturating_add, U64_MAX. rewrite len_app, len_cons, len_nil.
      pose proof (len_nonneg rl). lia.
  - split; auto.
    + intros _. by rewrite H1r, Hl.
    + apply StronglySorted_app_2; [|done|by repeat constructor].
      intros x y Hx Hy. apply list_elem_of_singleton in Hy as ->.
      rewrite Forall_forall in Hf. specialize (Hf x Hx). lia.
    + rewrite H1p. split; [|lia]. apply Forall_app. split; [|constructor; [lia|done]].
      eapply Forall_impl; [done|]. simpl. lia.
Qed.

Lemma close_sequences s (w : W) :
  sequence_step s (HostPeerSession_close (s, w)).2.1 [] [].
Proof.
  destruct (HostPeerSession_close (s, w)) as [r [s' w']] eqn:Hc.
  apply close_state in Hc as (?&?&?&?&?&?&?&?). by apply step_none.
Qed.

(** A call outside the input path only moves the state. *)
Lemma offer_sequences sdp s (w : W) : sequence_step s (HostPeerSession_accept_offer sdp (s, w)).2.1 [] [].
Proof.
  unfold HostPeerSession_accept_offer, self_get, self_set, world. unmonad.
  destruct (bool_decide (hp_state s = HS_New)) eqn:Hn; simpl; [|by apply step_none].
  apply bool_decide_eq_true in Hn. destruct (invalid_offer sdp); [by apply step_none|]. simpl.
  destruct (peer_start (hp_config s) sdp w) as [[a|e] w1]; [destruct (invalid_answer a)|]; simpl.
  - pose proof (close_sequences s w1). by destruct (HostPeerSession_close (s, w1)) as [? [??]].
  - apply step_none; simpl; [done|done|congruence].
  - pose proof (close_sequences s w1). by destruct (HostPeerSession_close (s, w1)) as [? [??]].
Qed.

Lemma reconnect_sequences s (w : W) :
  sequence_step s (HostPeerSession_begin_reconnect (s, w)).2.1 [] [].
Proof.
  unfold HostPeerSession_begin_reconnect, self_get, self_set. unmonad.
  case_bool_decide as Hre; [by apply step_none|].
  destruct (bool_decide (hp_state s = HS_Connected ∨ _)) eqn:Hst; simpl; [|by apply step_none].
  apply bool_decide_eq_true in Hst. rewrite release_all_spec.
  destruct (sink_release_all w) as [[]?]; apply step_none; simpl; try done; intros Hc;
    rewrite Hc in Hst; naive_solver.
Qed.

Lemma reconnect_offer_sequences sdp s (w : W) :
  sequence_step s (HostPeerSession_accept_reconnect_offer sdp (s, w)).2.1 [] [].
Proof.
  unfold HostPeerSession_accept_reconnect_offer, self_get, self_set, world. unmonad.
  destruct (bool_decide (hp_state s = HS_Reconnecting ∨ _)) eqn:Hst; simpl; [|by apply step_none].
  apply bool_decide_eq_true in Hst. destruct (invalid_offer sdp); [by apply step_none|]. simpl.
  assert (hp_state s ≠ HS_Closed) by (destruct Hst as [-> | ->]; done).
  destruct (peer_restart (hp_config s) sdp w) as [[a|e] w1]; [destruct (invalid_answer a)|]; simpl;
    by apply step_none.
Qed.

Lemma connected_sequences s (w : W) : sequence_step s (HostPeerSession_mark_connected (s, w)).2.1 [] [].
Proof.
  unfold HostPeerSession_mark_connected, self_get, self_set. unmonad.
  destruct (bool_decide _) eqn:Hst; simpl; [|by apply step_none].
  apply bool_decide_eq_true in Hst. apply step_none; simpl; try done.
  intros Hc. rewrite Hc in Hst. naive_solver.
Qed.

Lemma candidate_sequences c s (w : W) :
  sequence_step s (HostPeerSession_add_remote_ice_candidate c (s, w)).2.1 [] [].
Proof.
  unfold HostPeerSession_add_remote_ice_candidate, self_get, world. unmonad.
  destruct (bool_decide _); simpl; [|by apply step_none].
  destruct (peer_add_remote_ice_candidate c w). by apply step_none.
Qed.

Lemma reliable_sequences encoded s w r s' w' :
  HostPeerSession_handle_reliable encoded (s, w) = (r, (s', w')) →
  sequence_step s s' (if is_ok r then reliable_sequence_of encoded else []) [].
Proof.
  rewrite handle_reliable_spec. intros Hr.
  destruct (reliable_guard s encoded) as [[env ev]|e] eqn:Hg; [|simplify_eq; by apply step_none].
  apply reliable_guard_Ok in Hg as (Hst&Ha&Hd&_&Hseq&_&_).
  destruct (apply_reliable_event ev (s, w)) as [r1 [s1 w1]] eqn:Hap.
  apply apply_event_same in Hap as (Hs1&_&_&Hlr&Hlp). unfold reliable_sequence_of. rewrite Hd.
  simpl in Hr. destruct r1 as [[]|e].
  - destruct (HostPeerSession_close _) as [rc [s2 w2]] eqn:Hcl.
    apply close_state in Hcl as (?&_&_&_&_&_&Hr2&Hp2). simpl in *. simplify_eq.
    destruct rc as [[]|e]; simpl.
    + apply step_reliable; congruence.
    + apply step_closed; congruence.
  - simplify_eq. apply step_reliable; simpl; congruence.
  - destruct (decide (e = HW_InputFailure)); simplify_eq; simpl.
    + destruct (HostPeerSession_close (s1, w1)) as [rc [s2 w2]] eqn:Hcl.
      apply close_state in Hcl as (?&_&_&_&_&_&Hr2&Hp2). simplify_eq/=.
      apply step_closed; congruence.
    + apply step_none; congruence.
Qed.

Lemma pointer_sequences encoded s w r s' w' :
  HostPeerSession_handle_pointer_fast encoded (s, w) = (r, (s', w')) →
  sequence_step s s' [] (match r with Ok PD_Applied => pointer_sequence_of encoded | _ => [] end).
Proof.
  rewrite handle_pointer_spec. intros Hr.
  destruct (pointer_guard s encoded) as [o|e] eqn:Hg; [|simplify_eq; by apply step_none].
  apply pointer_guard_Ok in Hg as (Hst&Ha&env&Hd&_&Ho). unfold pointer_sequence_of. rewrite Hd.
  destruct Ho as [[-> _]|(ev&->&Hlt&_)]; [simplify_eq; by apply step_none|].
  destruct (apply_pointer_event ev (s, w)) as [r1 [s1 w1]] eqn:Hap.
  apply apply_pointer_same in Hap as ->.
  destruct r1 as [[[]|e]|e].
  - simplify_eq. apply step_pointer; simpl; (done || congruence).
  - destruct (decide (e = HW_InputFailure)); simplify_eq; simpl.
    + destruct (HostPeerSession_close (s, w1)) as [rc [s2 w2]] eqn:Hcl.
      apply close_state in Hcl as (?&_&_&_&_&_&Hr2&Hp2). simplify_eq/=.
      apply step_closed; congruence.
    + by apply step_none.
  - simplify_eq. by apply step_none.
Qed.

Lemma session_exec_sequences op s r p s' :
  session_exec op s = ((r, p), s') → sequence_step s.1 s'.1 r p.
Proof.
  destruct s as [s w], s' as [s' w'].
  destruct op as [sdp| | |sdp|c|encoded|encoded|]; simpl; intros He.
  - injection He as <- <- He. pose proof (offer_sequences sdp s w). by rewrite He in *.
  - injection He as <- <- He. pose proof (connected_sequences s w). by rewrite He in *.
  - injection He as <- <- He. pose proof (reconnect_sequences s w). by rewrite He in *.
  - injection He as <- <- He. pose proof (reconnect_offer_sequences sdp s w). by rewrite He in *.
  - injection He as <- <- He. pose proof (candidate_sequences c s w). by rewrite He in *.
  - destruct (HostPeerSession_handle_reliable encoded (s, w)) as [r1 [s1 w1]] eqn:Hm.
    apply reliable_sequences in Hm. by simplify_eq/=.
  - destruct (HostPeerSession_handle_pointer_fast encoded (s, w)) as [r1 [s1 w1]] eqn:Hm.
    apply pointer_sequences in Hm. by simplify_eq/=.
  - injection He as <- <- He. pose proof (close_sequences s w). by rewrite He in *.
Qed.

Lemma session_run_applied ops s rl pl :
  applied rl pl s.1 →
  applied (rl ++ (session_run ops s).1.1) (pl ++ (session_run ops s).1.2) (session_run ops s).2.1.
Proof.
  revert s rl pl. induction ops as [|op ops IH]; intros s rl pl Ha; simpl.
  { by rewrite !app_nil_r. }
  destruct (session_exec op s) as [[r1 p1] s1] eqn:He.
  apply session_exec_sequences in He. apply (applied_step rl pl) in He; [|done].
  specialize (IH s1 _ _ He). destruct (session_run ops s1) as [[r2 p2] s2]. simpl in *.
  by rewrite <- !app_assoc in IH.
Qed.
End runs.

(** * Properties *)

(** C29. Authority and ordering of input: a reliable or pointer envelope changes anything (the
    session or the world behind it) only if the session is connected, was granted input, and
    the envelope validates, names this session and carries exactly the next reliable sequence,
    respectively a newer pointer sequence; every other envelope is rejected or dropped without
    any effect. *)
Theorem input_only_when_authorized `{PeerBackend W, RemoteInputSink W}
    `{Message ReliableInputEnvelope, Message PointerFastEnvelope}
    (encoded : bytes) (s : HostPeerSession * W) :
  (let '(r, s') := HostPeerSession_handle_reliable encoded s in
   (s' = s ∧ is_ok r = false) ∨
   hp_state s.1 = HS_Connected ∧ hp_input_allowed s.1 = true ∧
   ∃ env, decode_and_validate_reliable_input_envelope encoded = Ok env ∧
     ReliableInputEnvelope_session_id env = hp_session_id s.1 ∧
     ReliableInputEnvelope_sequence env =
       Z.min (last_reliable_sequence s.1 + 1) U64_MAX) ∧
  (let '(r, s') := HostPeerSession_handle_pointer_fast encoded s in
   (s' = s ∧ r ≠ Ok PD_Applied) ∨
   hp_state s.1 = HS_Connected ∧ hp_input_allowed s.1 = true ∧
   ∃ env, decode_and_validate_pointer_fast_envelope encoded = Ok env ∧
     PointerFastEnvelope_session_id env = hp_session_id s.1 ∧
     last_pointer_sequence s.1 < PointerFastEnvelope_sequence env).
Proof.
  destruct s as [s w]. rewrite handle_reliable_spec, handle_pointer_spec. split.
  - destruct (reliable_guard s encoded) as [[env ev]|e] eqn:Hg; [|by left].
    apply reliable_guard_Ok in Hg as (?&?&?&?&?&?&?).
    destruct (let '(_, _) := _ in _) as [r s']. right. split_and!; eauto.
  - destruct (pointer_guard s encoded) as [[[env ev]|]|e] eqn:Hg; [|by left..].
    apply pointer_guard_Ok in Hg as (?&?&env'&?&?&[[? _]|(?&?&?&?)]); [done|]. simplify_eq.
    destruct (let '(_, _) := _ in _) as [r s']. right. split_and!; eauto.
Qed.

(** In every run of a new session the reliable sequences it applies are exactly 1, 2, 3, ...
    (saturating at the largest 64-bit value), and the pointer sequences it applies are strictly
    increasing: no input is replayed, reordered or skipped. *)
Theorem applied_sequences `{PeerBackend W, RemoteInputSink W}
    `{Message ReliableInputEnvelope, Message PointerFastEnvelope}
    (id : bytes) (permissions : list SessionPermission) (config : SessionConfig)
    (s : HostPeerSession) (w : W) (ops : list SessionOp)
    (Hs : HostPeerSession_new id permissions config = Ok s) :
  let '((reliable, pointer), _) := session_run ops (s, w) in
  (∀ i n, reliable !! i = Some n → n = Z.min (Z.of_nat i + 1) U64_MAX) ∧
  StronglySorted Z.lt pointer.
Proof.
  assert (applied [] [] (s, w).1) as Ha.
  { unfold HostPeerSession_new in Hs. run Hs. split; simpl; try done; constructor. }
  apply (session_run_applied ops (s, w)) in Ha. destruct (session_run ops (s, w)) as [[r p] s'].
  by destruct Ha.
Qed.

(** A concrete world, in which every call succeeds and the world is what is held, and concrete
    decoders of one-byte envelopes. *)
#[export] Instance toy_peer : PeerBackend (gset Held) := {
  peer_start _ _ w := (Ok {| pa_sdp := lit "v=0"; pa_dtls_fingerprint_sha256 := be_bytes 32 1 |}, w);
  peer_restart _ _ w := (Ok {| pa_sdp := lit "v=0"; pa_dtls_fingerprint_sha256 := be_bytes 32 1 |}, w);
  peer_add_remote_ice_candidate _ w := (Ok (), w);
  peer_close w := (Ok (), w)
}.

#[export] Instance toy_sink : RemoteInputSink (gset Held) := {
  sink_keyboard action usage _ w :=
    (Ok (), if decide (action = KeyboardAction_Down) then {[HeldKey usage]} ∪ w
            else w ∖ {[HeldKey usage]});
  sink_pointer_button _ _ _ _ w := (Ok (), w);
  sink_pointer_move _ _ _ w := (Ok (), w);
  sink_pointer_scroll _ _ w := (Ok (), w);
  sink_text _ w := (Ok (), w);
  sink_release_all _ := (Ok (), ∅)
}.

Lemma toy_laws : SinkLaws (gset Held) (λ _, True) id.
Proof.
  split; simpl; try done.
  intros w r w' [= <- <-] _. done.
Qed.

Definition toy_version : option ProtocolVersion :=
  Some {| ProtocolVersion_major := 1; ProtocolVersion_minor := 0 |}.

(** The byte is the sequence number; each envelope presses another key. *)
#[export] Instance toy_reliable : Message ReliableInputEnvelope := {
  encode_to_vec e := [byte_of (ReliableInputEnvelope_sequence e)];
  decode bs :=
    match bs with
    | [b] => Some {| ReliableInputEnvelope_protocol_version := toy_version;
                     ReliableInputEnvelope_session_id := be_bytes 16 9;
                     ReliableInputEnvelope_sequence := byte_val b;
                     ReliableInputEnvelope_event :=
                       Some (ReliableInputEnvelope_Event_Keyboard
                         {| KeyboardEvent_usb_hid_usage := 4 + byte_val b;
                            KeyboardEvent_action := 1; KeyboardEvent_modifier_bits := 0 |}) |}
    | _ => None
    end
}.

#[export] Instance toy_pointer : Message PointerFastEnvelope := {
  encode_to_vec e := [byte_of (PointerFastEnvelope_sequence e)];
  decode bs :=
    match bs with
    | [b] => Some {| PointerFastEnvelope_protocol_version := toy_version;
                     PointerFastEnvelope_session_id := be_bytes 16 9;
                     PointerFastEnvelope_sequence := byte_val b;
                     PointerFastEnvelope_event :=
                       Some (PointerFastEnvelope_Event_Scroll
                         {| PointerScrollEvent_delta_x := 1; PointerScrollEvent_delta_y := 2 |}) |}
    | _ => None
    end
}.

Definition toy_permissions : list SessionPermission :=
  [SessionPermission_ViewScreen; SessionPermission_ControlInput].

Definition toy_session : HostPeerSession :=
  {| hp_session_id := be_bytes 16 9; hp_input_allowed := true;
     hp_config := {| ice_transport_policy := ITP_All |}; hp_state := HS_New;
     last_reliable_sequence := 0; last_pointer_sequence := 0; pressed_keys := ∅;
     pressed_buttons := ∅; input_cleanup_pending := false |}.

Definition toy_ops : list SessionOp :=
  [SOffer (lit "offer"); SConnected; SReliable [x01]; SReliable [x03]; SReliable [x01];
   SReliable [x02]; SPointer [x05]; SPointer [x05]; SPointer [x08]].

Example toy_run_log : (session_run toy_ops (toy_session, ∅)).1 = ([1; 2], [5; 8]).
Proof. vm_compute. reflexivity. Qed.

Lemma applied_sequences_witness :
  let '((reliable, pointer), _) := session_run toy_ops (toy_session, ∅ : gset Held) in
  (∀ i n, reliable !! i = Some n → n = Z.min (Z.of_nat i + 1) U64_MAX) ∧
  StronglySorted Z.lt pointer.
Proof.
  apply (applied_sequences (be_bytes 16 9) toy_permissions
           {| ice_transport_policy := ITP_All |} toy_session ∅ toy_ops).
  vm_compute. reflexivity.
Defined.

(** No stuck input: in every run of a new session over a world that keeps the sink's
    promises, whenever the session is not connected and no cleanup is outstanding, nothing is
    held down; the keys and buttons the session believes pressed are empty outside the
    connected state and always admissible. *)
Theorem no_input_left_behind `{PeerBackend W, RemoteInputSink W}
    `{Message ReliableInputEnvelope, Message PointerFastEnvelope}
    (inv : W → Prop) (held : W → gset Held) (HL : SinkLaws W inv held)
    (id : bytes) (permissions : list SessionPermission) (config : SessionConfig)
    (s : HostPeerSession) (w : W) (ops : list SessionOp)
    (Hs : HostPeerSession_new id permissions config = Ok s)
    (Hi : inv w) (Hh : held w = ∅) :
  let '(_, (s', w')) := session_run ops (s, w) in
  session_wf s' ∧
  (hp_state s' ≠ HS_Connected → input_cleanup_pending s' = false → held w' = ∅).
Proof.
  pose proof (session_run_Inv inv held ops (s, w) (new_Inv _ _ _ _ _ _ _ Hs Hi Hh)) as [Hw [_ Hr]].
  destruct (session_run ops (s, w)) as [? [s' w']]. done.
Qed.

Lemma no_input_left_behind_witness :
  let '(_, (s', w')) := session_run (toy_ops ++ [SBeginReconnect]) (toy_session, ∅ : gset Held) in
  session_wf s' ∧
  (hp_state s' ≠ HS_Connected → input_cleanup_pending s' = false → w' = ∅).
Proof.
  apply (no_input_left_behind (λ _, True) (λ w, w) toy_laws (be_bytes 16 9) toy_permissions
           {| ice_transport_policy := ITP_All |} toy_session ∅ (toy_ops ++ [SBeginReconnect])).
  - vm_compute. reflexivity.
  - exact I.
  - reflexivity.
Defined.

(** Closing is deterministic and final: from any other state [close] releases the input and
    closes the peer, each attempted once whatever the other reports, and ends closed; a closed
    session ignores every later call except that [close] retries a failed input release. *)
Theorem close_final `{PeerBackend W, RemoteInputSink W}
    `{Message ReliableInputEnvelope, Message PointerFastEnvelope}
    (s : HostPeerSession) (w : W) (op : SessionOp) :
  (hp_state s ≠ HS_Closed →
   let '(r, (s', w')) := HostPeerSession_close (s, w) in
   hp_state s' = HS_Closed ∧ pressed_keys s' = ∅ ∧ pressed_buttons s' = ∅ ∧
   w' = (peer_close (sink_release_all w).2).2 ∧
   r = ((sink_release_all w).1 ≫= λ _, (peer_close (sink_release_all w).2).1)) ∧
  (hp_state s = HS_Closed →
   let '(log, (s', w')) := session_exec op (s, w) in
   log = ([], []) ∧ hp_state s' = HS_Closed ∧
   (s' = s ∧ w' = w ∨
    op = SClose ∧ input_cleanup_pending s = true ∧ w' = (sink_release_all w).2)).
Proof.
  split; intros Hc.
  - rewrite close_spec, decide_False by done. destruct (sink_release_all w) as [r1 w1]. simpl.
    by destruct (peer_close w1).
  - destruct op as [sdp| | |sdp|c|encoded|encoded|]; simpl.
    + unfold HostPeerSession_accept_offer, self_get. unmonad. rewrite Hc. simpl. auto.
    + unfold HostPeerSession_mark_connected, self_get. unmonad. rewrite Hc. simpl. auto.
    + unfold HostPeerSession_begin_reconnect, self_get. unmonad. rewrite Hc. simpl. auto.
    + unfold HostPeerSession_accept_reconnect_offer, self_get. unmonad. rewrite Hc. simpl. auto.
    + unfold HostPeerSession_add_remote_ice_candidate, self_get. unmonad. rewrite Hc. simpl. auto.
    + unfold HostPeerSession_handle_reliable, self_get, require_input_ready. unmonad. rewrite Hc. simpl. auto.
    + unfold HostPeerSession_handle_pointer_fast, self_get, require_input_ready. unmonad. rewrite Hc. simpl. auto.
    + rewrite close_spec, decide_True by done. destruct (input_cleanup_pending s) eqn:Hp; simpl; [|auto].
      rewrite release_all_spec. destruct (sink_release_all w) as [r1 w1] eqn:Hr. simpl.
      split_and!; [done|done|]. right. done.
Qed.

(** The gate admits one inbound session at a time: a session is admitted exactly when the
    slot is free and the identifier has the right length, only the admitted lease frees the
    slot, and a lease that was released never frees a later session of the same identifier. *)
Theorem SessionGate_exclusive (id : bytes) (g g' : SessionGate) (l : SessionLease)
    (Hg : sg_generation g < U64_MAX) (Ha : SessionGate_acquire id g = (Ok l, g')) :
  sg_active g = None ∧ len id = SESSION_ID_BYTES ∧ sg_active g' = Some l ∧
  (∀ id', is_ok (SessionGate_acquire id' g').1 = false) ∧
  (∀ l', is_ok (SessionGate_release l' g').1 = true ↔ l' = l) ∧
  (∀ g1 l2 g2, SessionGate_release l g' = (Ok (), g1) →
     SessionGate_acquire id g1 = (Ok l2, g2) → sg_generation g1 < U64_MAX →
     is_ok (SessionGate_release l g2).1 = false).
Proof.
  assert (∀ x (b b' : SessionGate) y, SessionGate_acquire x b = (Ok y, b') →
    sg_active b = None ∧ len x = SESSION_ID_BYTES ∧ sg_active b' = Some y ∧
    sl_generation y = Z.min (sg_generation b + 1) U64_MAX ∧ sg_generation b' = sl_generation y) as Hacq.
  { intros x b b' y Hx. unfold SessionGate_acquire in Hx. run Hx. by split_and!. }
  assert (∀ x (b : SessionGate), is_ok (SessionGate_release x b).1 = true ↔ sg_active b = Some x) as Hrel.
  { intros x b. unfold SessionGate_release. unmonad.
    destruct (decide (sg_active b = Some x)); [by rewrite bool_decide_eq_true_2 by done|].
    by rewrite bool_decide_eq_false_2 by done. }
  apply Hacq in Ha as (?&?&Ha&Hl&Hgen). split_and!; try done.
  - intros id'. unfold SessionGate_acquire. unmonad. rewrite Ha. by destruct (negb _).
  - intros l'. rewrite Hrel, Ha. naive_solver.
  - intros g1 l2 g2 Hr Ha2 Hg1. apply Hacq in Ha2 as (_&_&Ha2&Hl2&_).
    destruct (is_ok (SessionGate_release l g2).1) eqn:Hok; [|done].
    apply Hrel in Hok. rewrite Ha2 in Hok. simplify_eq.
    unfold SessionGate_release in Hr. run Hr. lia.
Qed.

Lemma SessionGate_exclusive_witness :
  let g' := (SessionGate_acquire (be_bytes 16 9) SessionGate_new).2 in
  let l := {| sl_session_id := be_bytes 16 9; sl_generation := 1 |} in
  sg_active SessionGate_new = None ∧ len (be_bytes 16 9) = SESSION_ID_BYTES ∧
  sg_active g' = Some l ∧
  (∀ id', is_ok (SessionGate_acquire id' g').1 = false) ∧
  (∀ l', is_ok (SessionGate_release l' g').1 = true ↔ l' = l) ∧
  (∀ g1 l2 g2, SessionGate_release l g' = (Ok (), g1) →
     SessionGate_acquire (be_bytes 16 9) g1 = (Ok l2, g2) → sg_generation g1 < U64_MAX →
     is_ok (SessionGate_release l g2).1 = false).
Proof. apply SessionGate_exclusive; reflexivity. Defined.
