(* ===== verification/PlatformInput.v ===== *)
(** The session-scoped input sink of the platform, crates/host-platform/src/input.rs.

    [PlatformInputSink] tracks what it pressed through the native backend so that everything can
    be released again; it is the implementation of [RemoteInputSink] the Host uses. *)
From S2P Require Import Prelude Messages Webrtc PeerSession.

Local Open Scope Z_scope.

(** * Data *)

Definition PRESSED_LEFT_BUTTON_BIT : Z := 1.
Definition PRESSED_RIGHT_BUTTON_BIT : Z := Z.shiftl 1 1.
Definition PRESSED_MIDDLE_BUTTON_BIT : Z := Z.shiftl 1 2.
Definition FIRST_MODIFIER_USAGE : Z := 224.
Definition MODIFIER_COUNT : Z := 8.

Inductive NativeDirection := Press | Release.
Inductive NativeButton := NB_Left | NB_Right | NB_Middle.

#[export] Instance NativeDirection_eq_dec : EqDecision NativeDirection.
Proof. solve_decision. Defined.
#[export] Instance NativeButton_eq_dec : EqDecision NativeButton.
Proof. solve_decision. Defined.
(** The derived order of [NativeButton]. *)
Definition button_index (b : NativeButton) : Z :=
  match b with NB_Left => 0 | NB_Right => 1 | NB_Middle => 2 end.

Definition button_of_index (z : Z) : option NativeButton :=
  if z =? 0 then Some NB_Left else if z =? 1 then Some NB_Right
  else if z =? 2 then Some NB_Middle else None.

Lemma button_of_index_of b : button_of_index (button_index b) = Some b.
Proof. by destruct b. Qed.

#[export] Instance NativeButton_countable : Countable NativeButton :=
  inj_countable button_index button_of_index button_of_index_of.

Inductive PlatformInputError :=
| UnsupportedPlatform | PI_PermissionDenied | BackendUnavailable | InvalidMainDisplay
| UnsupportedKeyboardUsage | InjectionFailed | PartialInjection.

Class PlatformInputBackend (B : Type) := {
  main_display_size : M B PlatformInputError (Z * Z);
  backend_keyboard : Z → NativeDirection → M B PlatformInputError unit;
  backend_pointer_button : NativeButton → NativeDirection → M B PlatformInputError unit;
  backend_pointer_move : Z → Z → M B PlatformInputError unit;
  backend_pointer_scroll : Z → Z → M B PlatformInputError unit;
  backend_text : text → M B PlatformInputError unit
}.

Record PlatformInputSink {B : Type} := {
  pi_backend : B;
  display_width : Z;
  display_height : Z;
  pi_pressed_keys : gset Z;
  pi_pressed_buttons : gset NativeButton
}.
Arguments PlatformInputSink B : clear implicits.

Section sink.
Context {B : Type} `{PlatformInputBackend B}.

Abbreviation Sink A := (M (PlatformInputSink B) HostWebRtcError A).

Definition set_backend (b : B) (s : PlatformInputSink B) : PlatformInputSink B :=
  {| pi_backend := b; display_width := display_width s; display_height := display_height s;
     pi_pressed_keys := pi_pressed_keys s; pi_pressed_buttons := pi_pressed_buttons s |}.

Definition set_keys (k : gset Z) (s : PlatformInputSink B) : PlatformInputSink B :=
  {| pi_backend := pi_backend s; display_width := display_width s;
     display_height := display_height s; pi_pressed_keys := k;
     pi_pressed_buttons := pi_pressed_buttons s |}.

Definition set_buttons (k : gset NativeButton) (s : PlatformInputSink B) : PlatformInputSink B :=
  {| pi_backend := pi_backend s; display_width := display_width s;
     display_height := display_height s; pi_pressed_keys := pi_pressed_keys s;
     pi_pressed_buttons := k |}.

Definition backend {A} (m : M B PlatformInputError A) : M (PlatformInputSink B) PlatformInputError A :=
  zoom pi_backend set_backend m.

(** * Operations *)

Definition map_input_error (_ : PlatformInputError) : HostWebRtcError := HW_InputFailure.

Definition PlatformInputSink_new : M B PlatformInputError (PlatformInputSink B) :=
  '(w, h) ← main_display_size;
  fail_if ((w <=? 0) || (h <=? 0)) InvalidMainDisplay;;
  b ← get;
  mret {| pi_backend := b; display_width := w; display_height := h; pi_pressed_keys := ∅;
          pi_pressed_buttons := ∅ |}.

Definition set_key (usage : Z) (direction : NativeDirection) : Sink unit :=
  self ← get;
  let pressed := bool_decide (usage ∈ pi_pressed_keys self) in
  if Bool.eqb (bool_decide (direction = Press)) pressed then mret () else
  r ← try (backend (backend_keyboard usage direction));
  match r with
  | Err error =>
      (if bool_decide (direction = Press)
       then modify (λ s, set_keys ({[usage]} ∪ pi_pressed_keys s) s) else mret ());;
      mthrow (map_input_error error)
  | Ok _ =>
      match direction with
      | Press => modify (λ s, set_keys ({[usage]} ∪ pi_pressed_keys s) s)
      | Release => modify (λ s, set_keys (pi_pressed_keys s ∖ {[usage]}) s)
      end
  end.

Definition set_button (button : NativeButton) (direction : NativeDirection) : Sink unit :=
  self ← get;
  let pressed := bool_decide (button ∈ pi_pressed_buttons self) in
  if Bool.eqb (bool_decide (direction = Press)) pressed then mret () else
  r ← try (backend (backend_pointer_button button direction));
  match r with
  | Err error =>
      (if bool_decide (direction = Press)
       then modify (λ s, set_buttons ({[button]} ∪ pi_pressed_buttons s) s) else mret ());;
      mthrow (map_input_error error)
  | Ok _ =>
      match direction with
      | Press => modify (λ s, set_buttons ({[button]} ∪ pi_pressed_buttons s) s)
      | Release => modify (λ s, set_buttons (pi_pressed_buttons s ∖ {[button]}) s)
      end
  end.

(** One iteration of [reconcile_modifiers]. *)
Definition reconcile_modifier (modifier_bits current_usage bit : Z) : Sink unit :=
  self ← get;
  let usage := FIRST_MODIFIER_USAGE + bit in
  if usage =? current_usage then mret () else
  let desired := negb (Z.land modifier_bits (Z.shiftl 1 bit) =? 0) in
  let pressed := bool_decide (usage ∈ pi_pressed_keys self) in
  if desired && negb pressed then set_key usage Press
  else if negb desired && pressed then set_key usage Release
  else mret ().

Definition reconcile_modifiers (modifier_bits current_usage : Z) : Sink unit :=
  for_each (seqZ 0 MODIFIER_COUNT) (reconcile_modifier modifier_bits current_usage).

Definition reconcile_pointer_buttons (bits : Z) : Sink unit :=
  for_each [(NB_Left, PRESSED_LEFT_BUTTON_BIT); (NB_Right, PRESSED_RIGHT_BUTTON_BIT);
            (NB_Middle, PRESSED_MIDDLE_BUTTON_BIT)]
    (λ '(button, bit),
       set_button button (if Z.land bits bit =? 0 then Release else Press)).

Definition I32_MAX : Z := 2147483647.
Definition I32_MIN : Z := -2147483648.

(** [i32::try_from] of an [i64]. *)
Definition i32_try_from (z : Z) : option Z :=
  if (I32_MIN <=? z) && (z <=? I32_MAX) then Some z else None.

Definition normalized_to_pixels (x y display_width display_height : Z)
    : result HostWebRtcError (Z * Z) :=
  fail_if (negb ((0 <=? x) && (x <=? NORMALIZED_POINTER_MAX)) ||
           negb ((0 <=? y) && (y <=? NORMALIZED_POINTER_MAX))) HW_InvalidCoordinates;;
  let maximum := NORMALIZED_POINTER_MAX in
  let rounding := Z.quot maximum 2 in
  let pixel_x := Z.quot (x * (display_width - 1) + rounding) maximum in
  let pixel_y := Z.quot (y * (display_height - 1) + rounding) maximum in
  px ← ok_or (i32_try_from pixel_x) HW_InvalidCoordinates;
  py ← ok_or (i32_try_from pixel_y) HW_InvalidCoordinates;
  mret (px, py).

Definition native_button (button : PointerButton) : result HostWebRtcError NativeButton :=
  match button with
  | PointerButton_Left => Ok NB_Left
  | PointerButton_Right => Ok NB_Right
  | PointerButton_Middle => Ok NB_Middle
  | PointerButton_Unspecified => Err HW_InputFailure
  end.

Definition move_normalized (x y : Z) : Sink unit :=
  self ← get;
  '(pixel_x, pixel_y) ← lift (normalized_to_pixels x y (display_width self) (display_height self));
  map_err_m map_input_error (backend (backend_pointer_move pixel_x pixel_y)).

Definition click_button (button : NativeButton) (click_count : nat) : Sink unit :=
  self ← get;
  fail_if (bool_decide (button ∈ pi_pressed_buttons self)) HW_InputFailure;;
  for_each (seq 0 click_count) (λ _, set_button button Press;; set_button button Release).

Definition PlatformInputSink_keyboard (action : KeyboardAction) (usb_hid_usage modifier_bits : Z)
    : Sink unit :=
  reconcile_modifiers modifier_bits usb_hid_usage;;
  match action with
  | KeyboardAction_Down => set_key usb_hid_usage Press
  | KeyboardAction_Up => set_key usb_hid_usage Release
  | KeyboardAction_Unspecified => mthrow HW_InputFailure
  end.

Definition PlatformInputSink_pointer_button (button : PointerButton) (action : ButtonAction)
    (x y : Z) : Sink unit :=
  move_normalized x y;;
  button ← lift (native_button button);
  match action with
  | ButtonAction_Down => set_button button Press
  | ButtonAction_Up => set_button button Release
  | ButtonAction_Click => click_button button 1
  | ButtonAction_DoubleClick => click_button button 2
  | ButtonAction_Unspecified => mthrow HW_InputFailure
  end.

Definition PlatformInputSink_pointer_move (x y pressed_button_bits : Z) : Sink unit :=
  reconcile_pointer_buttons pressed_button_bits;;
  move_normalized x y.

Definition PlatformInputSink_pointer_scroll (delta_x delta_y : Z) : Sink unit :=
  map_err_m map_input_error (backend (backend_pointer_scroll delta_x delta_y)).

Definition PlatformInputSink_text (t : text) : Sink unit :=
  map_err_m map_input_error (backend (backend_text t)).

(** [retain] visits a [BTreeSet] in order: the items whose release failed. *)
Fixpoint release_items {K} (release : K → M B PlatformInputError unit) (items : list K) (b : B)
    : list K * B :=
  match items with
  | [] => ([], b)
  | k :: items' =>
      let '(r, b1) := release k b in
      let '(kept, b2) := release_items release items' b1 in
      (if is_ok r then kept else k :: kept, b2)
  end.

Definition ordered_keys (s : gset Z) : list Z := merge_sort Z.le (elements s).
Definition ordered_buttons (s : gset NativeButton) : list NativeButton :=
  filter (λ b, b ∈ s) [NB_Left; NB_Right; NB_Middle].

Definition PlatformInputSink_release_all : Sink unit := λ self,
  let '(keys, b1) := release_items (λ u, backend_keyboard u Release)
                       (ordered_keys (pi_pressed_keys self)) (pi_backend self) in
  let '(buttons, b2) := release_items (λ n, backend_pointer_button n Release)
                          (ordered_buttons (pi_pressed_buttons self)) b1 in
  (if bool_decide (keys = [] ∧ buttons = []) then Ok () else Err HW_InputFailure,
   set_backend b2 (set_keys (list_to_set keys) (set_buttons (list_to_set buttons) self))).
End sink.

(** The sink next to a peer that it does not share state with. *)
#[export] Instance PlatformInputSink_sink {B P : Type} `{PlatformInputBackend B}
    : RemoteInputSink (PlatformInputSink B * P) := {
  sink_keyboard a u b := zoom fst (λ s w, (s, w.2)) (PlatformInputSink_keyboard a u b);
  sink_pointer_button n a x y :=
    zoom fst (λ s w, (s, w.2)) (PlatformInputSink_pointer_button n a x y);
  sink_pointer_move x y b := zoom fst (λ s w, (s, w.2)) (PlatformInputSink_pointer_move x y b);
  sink_pointer_scroll x y := zoom fst (λ s w, (s, w.2)) (PlatformInputSink_pointer_scroll x y);
  sink_text t := zoom fst (λ s w, (s, w.2)) (PlatformInputSink_text t);
  sink_release_all := zoom fst (λ s w, (s, w.2)) PlatformInputSink_release_all
}.

#[export] Instance PlatformInputSink_peer {B P : Type} `{PeerBackend P}
    : PeerBackend (PlatformInputSink B * P) := {
  peer_start c o := zoom snd (λ p w, (w.1, p)) (peer_start c o);
  peer_restart c o := zoom snd (λ p w, (w.1, p)) (peer_restart c o);
  peer_add_remote_ice_candidate c := zoom snd (λ p w, (w.1, p)) (peer_add_remote_ice_candidate c);
  peer_close := zoom snd (λ p w, (w.1, p)) peer_close
}.

(** * The backend's promise

    [os b] is what the operating system holds down: only a press adds to it, a successful
    release removes, a failed call may or may not have taken effect. *)
Definition native_held (b : NativeButton) : Held := HeldButton (1 + button_index b).

Class BackendLaws (B : Type) `{PlatformInputBackend B} (os : B → gset Held) : Prop := {
  law_native_key u d b r b' :
    backend_keyboard u d b = (r, b') →
    os b' ⊆ (if decide (d = Press) then {[HeldKey u]} else ∅) ∪ os b ∧
    (d = Release → r = Ok () → HeldKey u ∉ os b');
  law_native_button n d b r b' :
    backend_pointer_button n d b = (r, b') →
    os b' ⊆ (if decide (d = Press) then {[native_held n]} else ∅) ∪ os b ∧
    (d = Release → r = Ok () → native_held n ∉ os b');
  law_native_move x y b : os (backend_pointer_move x y b).2 ⊆ os b;
  law_native_scroll x y b : os (backend_pointer_scroll x y b).2 ⊆ os b;
  law_native_text t b : os (backend_text t b).2 ⊆ os b
}.

(** * Lemmas *)

Lemma try_map_err {S E E' A} (f : E → E') (m : M S E A) s r s' :
  map_err_m f m s = (r, s') → ∃ r0, m s = (r0, s') ∧ r = map_err f r0.
Proof. unfold map_err_m. destruct (m s) as [r0 s0]. intros [= <- <-]. eauto. Qed.

Section laws.
Context {B : Type} `{PlatformInputBackend B} (os : B → gset Held) {HB : BackendLaws B os}.

Definition tracked (s : PlatformInputSink B) : gset Held :=
  set_map HeldKey (pi_pressed_keys s) ∪ set_map native_held (pi_pressed_buttons s).

(** Everything the operating system holds down is tracked, and can thus be released. *)
Definition sound (s : PlatformInputSink B) : Prop := os (pi_backend s) ⊆ tracked s.

Definition same_geometry (s s' : PlatformInputSink B) : Prop :=
  display_width s' = display_width s ∧ display_height s' = display_height s.

Lemma elem_of_tracked h s :
  h ∈ tracked s ↔ match h with
                  | HeldKey u => u ∈ pi_pressed_keys s
                  | HeldButton _ => ∃ n, h = native_held n ∧ n ∈ pi_pressed_buttons s
                  end.
Proof.
  unfold tracked. rewrite elem_of_union, !elem_of_map. unfold native_held.
  destruct h as [u|n]; naive_solver.
Qed.

Lemma native_held_inj a b : native_held a = native_held b → a = b.
Proof. unfold native_held. intros [= He]. destruct a, b; simpl in He; (done || lia). Qed.

(** What [set_key] does to the tracked keys, and why it keeps them sound. *)
Lemma set_key_spec u d s r s' :
  set_key u d s = (r, s') →
  pi_pressed_buttons s' = pi_pressed_buttons s ∧ same_geometry s s' ∧
  (r = Ok () ∨ r = Err HW_InputFailure) ∧
  (sound s → sound s') ∧
  (∀ k, k ≠ u → k ∈ pi_pressed_keys s' ↔ k ∈ pi_pressed_keys s) ∧
  (r = Ok () → u ∈ pi_pressed_keys s' ↔ d = Press) ∧
  (d = Press → u ∈ pi_pressed_keys s').
Proof.
  unfold set_key, backend, same_geometry. intros Hr.
  pose proof (law_native_key (os:=os) u d) as Hlaw.
  unmonad. destruct (decide (u ∈ pi_pressed_keys s)) as [Hu|Hu].
  - rewrite (bool_decide_eq_true_2 _ Hu) in Hr. destruct d; simpl in Hr.
    { simplify_eq. split_and!; try done; naive_solver. }
    destruct (backend_keyboard u Release (pi_backend s)) as [rb b'] eqn:Hb.
    destruct (Hlaw _ _ _ Hb) as [Hsub Hrel]. simpl in *.
    destruct rb as [[]|e]; simplify_eq/=; split_and!; try done; try naive_solver.
    + intros Hs h Hh. specialize (Hrel eq_refl eq_refl). apply elem_of_tracked.
      assert (h ∈ tracked s) as Ht by set_solver. apply elem_of_tracked in Ht.
      destruct h; simpl in *; [set_solver|done].
    + set_solver.
    + set_solver.
    + intros Hs h Hh. apply elem_of_tracked.
      assert (h ∈ tracked s) as Ht by set_solver. apply elem_of_tracked in Ht. done.
  - rewrite (bool_decide_eq_false_2 _ Hu) in Hr. destruct d; simpl in Hr.
    2: { simplify_eq. split_and!; try done; naive_solver. }
    destruct (backend_keyboard u Press (pi_backend s)) as [rb b'] eqn:Hb.
    destruct (Hlaw _ _ _ Hb) as [Hsub Hrel]. simpl in *.
    assert (sound s → sound (set_keys ({[u]} ∪ pi_pressed_keys s) (set_backend b' s))) as Hsnd.
    { intros Hs h Hh. apply elem_of_tracked. simpl in *.
      assert (h = HeldKey u ∨ h ∈ tracked s) as [->|Ht] by set_solver; [set_solver|].
      apply elem_of_tracked in Ht. destruct h; [set_solver|done]. }
    clear Hsub Hrel Hlaw.
    destruct rb as [[]|e]; simplify_eq/=; split_and!; first [done | by auto | by clear; set_solver].
Qed.
(** The same for [set_button]. *)
Lemma set_button_spec n d s r s' :
  set_button n d s = (r, s') →
  pi_pressed_keys s' = pi_pressed_keys s ∧ same_geometry s s' ∧
  (r = Ok () ∨ r = Err HW_InputFailure) ∧
  (sound s → sound s') ∧
  (∀ k, k ≠ n → k ∈ pi_pressed_buttons s' ↔ k ∈ pi_pressed_buttons s) ∧
  (r = Ok () → n ∈ pi_pressed_buttons s' ↔ d = Press) ∧
  (d = Press → n ∈ pi_pressed_buttons s').
Proof.
  unfold set_button, backend, same_geometry. intros Hr.
  pose proof (law_native_button (os:=os) n d) as Hlaw.
  unmonad. destruct (decide (n ∈ pi_pressed_buttons s)) as [Hu|Hu].
  - rewrite (bool_decide_eq_true_2 _ Hu) in Hr. destruct d; simpl in Hr.
    { simplify_eq. split_and!; try done; naive_solver. }
    destruct (backend_pointer_button n Release (pi_backend s)) as [rb b'] eqn:Hb.
    destruct (Hlaw _ _ _ Hb) as [Hsub Hrel]. simpl in *.
    destruct rb as [[]|e]; simplify_eq/=; split_and!; try done; try naive_solver.
    + intros Hs h Hh. specialize (Hrel eq_refl eq_refl). apply elem_of_tracked.
      assert (h ∈ tracked s) as Ht by set_solver. apply elem_of_tracked in Ht.
      destruct h as [u|x]; simpl in *; [done|]. destruct Ht as (m&Hm&Hmem).
      exists m. split; [done|]. assert (m ≠ n) by (intros ->; rewrite Hm in Hh; done). set_solver.
    + set_solver.
    + set_solver.
    + intros Hs h Hh. apply elem_of_tracked.
      assert (h ∈ tracked s) as Ht by set_solver. apply elem_of_tracked in Ht. done.
  - rewrite (bool_decide_eq_false_2 _ Hu) in Hr. destruct d; simpl in Hr.
    2: { simplify_eq. split_and!; try done; naive_solver. }
    destruct (backend_pointer_button n Press (pi_backend s)) as [rb b'] eqn:Hb.
    destruct (Hlaw _ _ _ Hb) as [Hsub Hrel]. simpl in *.
    assert (sound s → sound (set_buttons ({[n]} ∪ pi_pressed_buttons s) (set_backend b' s))) as Hsnd.
    { intros Hs h Hh. apply elem_of_tracked. simpl in *.
      assert (h = native_held n ∨ h ∈ tracked s) as [->|Ht] by set_solver.
      - exists n. split; [done|]. set_solver.
      - apply elem_of_tracked in Ht. destruct h as [u|x]; [done|].
        destruct Ht as (m&Hm&Hmem). exists m. split; [done|]. set_solver. }
    clear Hsub Hrel Hlaw.
    destruct rb as [[]|e]; simplify_eq/=; split_and!; first [done | by auto | by clear; set_solver].
Qed.
(** What every sink operation keeps. *)
Definition keeps (s s' : PlatformInputSink B) : Prop :=
  same_geometry s s' ∧ (sound s → sound s').

Lemma keeps_refl s : keeps s s.
Proof. by split. Qed.

Lemma keeps_trans s1 s2 s3 : keeps s1 s2 → keeps s2 s3 → keeps s1 s3.
Proof. intros [[??] ?] [[??] ?]. split; [split; congruence|auto]. Qed.

Lemma set_key_keeps u d s r s' : set_key u d s = (r, s') → keeps s s'.
Proof. intros (?&?&?&?&?)%set_key_spec. by split. Qed.

Lemma set_button_keeps u d s r s' : set_button u d s = (r, s') → keeps s s'.
Proof. intros (?&?&?&?&?)%set_button_spec. by split. Qed.

Lemma for_each_keeps {A} (l : list A)
    (body : A → M (PlatformInputSink B) HostWebRtcError unit) s r s' :
  (∀ x s1 r1 s1', body x s1 = (r1, s1') → keeps s1 s1') →
  for_each l body s = (r, s') → keeps s s'.
Proof.
  intros Hb Hr. apply (for_each_inv (keeps s) l body s r s'); [|done|apply keeps_refl].
  intros x s1 r1 s1' _ Hx Hk. eapply keeps_trans; eauto.
Qed.

Lemma backend_keeps {A} (m : M B PlatformInputError A) s r s' :
  (∀ b, os (m b).2 ⊆ os b) → map_err_m map_input_error (backend m) s = (r, s') →
  keeps s s' ∧ (∀ e, r = Err e → e = HW_InputFailure).
Proof.
  intros Hm (r0&Hr0&->)%try_map_err. unfold backend, zoom in Hr0. specialize (Hm (pi_backend s)).
  destruct (m (pi_backend s)) as [rb b']. simplify_eq/=. split; [split; [done|]|].
  - unfold sound. simpl. intros Hs. unfold tracked in *. simpl. set_solver.
  - destruct r0; naive_solver.
Qed.

Lemma reconcile_modifier_spec bits cur bit s r s' :
  reconcile_modifier bits cur bit s = (r, s') →
  keeps s s' ∧ pi_pressed_buttons s' = pi_pressed_buttons s ∧
  (∀ k, k ≠ FIRST_MODIFIER_USAGE + bit ∨ k = cur →
    k ∈ pi_pressed_keys s' ↔ k ∈ pi_pressed_keys s) ∧
  (r = Ok () → FIRST_MODIFIER_USAGE + bit ≠ cur →
    FIRST_MODIFIER_USAGE + bit ∈ pi_pressed_keys s' ↔ Z.land bits (Z.shiftl 1 bit) ≠ 0).
Proof.
  unfold reconcile_modifier. unfold mbind, M_bind, get. intros Hr.
  destruct (Z.eqb_spec (FIRST_MODIFIER_USAGE + bit) cur) as [Hc|Hc].
  { unfold mret, M_ret in Hr. simplify_eq. split; [apply keeps_refl|]. naive_solver. }
  destruct (Z.eqb_spec (Z.land bits (Z.shiftl 1 bit)) 0) as [Hd|Hd]; simpl in Hr;
    case_bool_decide as Hp; simpl in Hr.
  - pose proof (set_key_keeps _ _ _ _ _ Hr). apply set_key_spec in Hr as (?&?&?&?&Hk&Hu&_).
    split_and!; try done; [|naive_solver]. intros k [Hne|Hk']; apply Hk; congruence.
  - unfold mret, M_ret in Hr. simplify_eq. split; [apply keeps_refl|]. naive_solver.
  - unfold mret, M_ret in Hr. simplify_eq. split; [apply keeps_refl|]. naive_solver.
  - pose proof (set_key_keeps _ _ _ _ _ Hr). apply set_key_spec in Hr as (?&?&?&?&Hk&Hu&_).
    split_and!; try done; [|naive_solver]. intros k [Hne|Hk']; apply Hk; congruence.
Qed.

(** The loop over the modifiers, for any list of distinct bits. *)
Lemma reconcile_loop_spec bits cur l s r s' :
  NoDup l → for_each l (reconcile_modifier bits cur) s = (r, s') →
  keeps s s' ∧ pi_pressed_buttons s' = pi_pressed_buttons s ∧
  (∀ k, (∀ bit, bit ∈ l → k ≠ FIRST_MODIFIER_USAGE + bit) ∨ k = cur →
    k ∈ pi_pressed_keys s' ↔ k ∈ pi_pressed_keys s) ∧
  (r = Ok () → ∀ bit, bit ∈ l → FIRST_MODIFIER_USAGE + bit ≠ cur →
    FIRST_MODIFIER_USAGE + bit ∈ pi_pressed_keys s' ↔ Z.land bits (Z.shiftl 1 bit) ≠ 0).
Proof.
  revert s. induction l as [|b l IH]; intros s Hn Hr; simpl in Hr.
  { unfold mret, M_ret in Hr. simplify_eq. split; [apply keeps_refl|]. set_solver. }
  apply NoDup_cons in Hn as [Hb Hn]. unfold mbind, M_bind in Hr.
  destruct (reconcile_modifier bits cur b s) as [r1 s1] eqn:H1.
  apply reconcile_modifier_spec in H1 as (Hk1&Hbt1&Ho1&Hs1). destruct r1 as [[]|e].
  - destruct (IH s1 Hn Hr) as (Hk2&Hbt2&Ho2&Hs2). split_and!.
    + by eapply keeps_trans.
    + congruence.
    + intros k Hk. rewrite Ho2, Ho1; [done| |].
      * destruct Hk as [Hk| ->]; [left|by right]. apply Hk. set_solver.
      * destruct Hk as [Hk| ->]; [left|by right]. intros bit Hbit. apply Hk. set_solver.
    + intros -> bit Hbit Hne. apply elem_of_cons in Hbit as [->|Hbit]; [|by apply Hs2].
      rewrite Ho2; [by apply Hs1|]. left. intros bit' Hbit' Heq.
      assert (bit' = b) by lia. subst. done.
  - simplify_eq. split_and!; try done.
    intros k Hk. apply Ho1. destruct Hk as [Hk| ->]; [left|by right]. apply Hk. set_solver.
Qed.

Lemma keyboard_spec a u bits s r s' :
  PlatformInputSink_keyboard a u bits s = (r, s') →
  keeps s s' ∧
  (r = Ok () →
    (u ∈ pi_pressed_keys s' ↔ a = KeyboardAction_Down) ∧
    ∀ bit, 0 <= bit < MODIFIER_COUNT → FIRST_MODIFIER_USAGE + bit ≠ u →
      FIRST_MODIFIER_USAGE + bit ∈ pi_pressed_keys s' ↔ Z.testbit bits bit = true).
Proof.
  unfold PlatformInputSink_keyboard, reconcile_modifiers. unfold mbind, M_bind. intros Hr.
  destruct (for_each _ _ s) as [r1 s1] eqn:Hf.
  apply reconcile_loop_spec in Hf as (Hk1&Hbt1&Ho1&Hs1); [|apply NoDup_seqZ].
  destruct r1 as [[]|e]; [|simplify_eq; by split].
  assert (∀ bit, 0 <= bit → Z.land bits (Z.shiftl 1 bit) ≠ 0 ↔ Z.testbit bits bit = true) as Hbit.
  { intros bit Hb. rewrite Z.shiftl_1_l. split.
    - intros Hne. destruct (Z.testbit bits bit) eqn:Ht; [done|]. destruct Hne.
      apply Z.bits_inj'. intros n Hn. rewrite Z.land_spec, Z.bits_0.
      destruct (decide (n = bit)) as [->|Hnb]; [by rewrite Ht|].
      rewrite Z.pow2_bits_false by lia. apply andb_false_r.
    - intros Ht H0. apply (f_equal (λ z, Z.testbit z bit)) in H0.
      rewrite Z.land_spec, Z.bits_0, Ht, Z.pow2_bits_true in H0 by lia. done. }
  assert (∀ d, set_key u d s1 = (r, s') → (d = Press ↔ a = KeyboardAction_Down) →
    keeps s s' ∧ (r = Ok () →
    (u ∈ pi_pressed_keys s' ↔ a = KeyboardAction_Down) ∧
    ∀ bit, 0 <= bit < MODIFIER_COUNT → FIRST_MODIFIER_USAGE + bit ≠ u →
      FIRST_MODIFIER_USAGE + bit ∈ pi_pressed_keys s' ↔ Z.testbit bits bit = true)) as Hgo.
  { intros d Hset Hd. pose proof (set_key_keeps _ _ _ _ _ Hset).
    apply set_key_spec in Hset as (?&?&?&?&Hk&Hu&_). split; [by eapply keeps_trans|].
    intros Hok. split; [rewrite Hu by done; done|]. intros bit Hb Hne.
    rewrite Hk, <- Hbit by lia. apply Hs1; [done| |done]. apply elem_of_seqZ. lia. }
  destruct a.
  - unfold mthrow, M_throw in Hr. simplify_eq. by split.
  - by apply (Hgo Press).
  - by apply (Hgo Release).
Qed.

Lemma move_keeps x y s r s' :
  move_normalized x y s = (r, s') →
  keeps s s' ∧ pi_pressed_keys s' = pi_pressed_keys s ∧ pi_pressed_buttons s' = pi_pressed_buttons s.
Proof.
  unfold move_normalized. unfold mbind, M_bind, get, lift. intros Hr.
  destruct (normalized_to_pixels x y _ _) as [[px py]|e]; [|simplify_eq; by split; [apply keeps_refl|]].
  pose proof Hr as Hr'. apply backend_keeps in Hr as [Hk _]; [|intros; apply law_native_move].
  split; [done|]. apply try_map_err in Hr' as (r0&Hr0&_). unfold backend, zoom in Hr0.
  destruct (backend_pointer_move _ _ _). by simplify_eq.
Qed.

Lemma click_keeps n c s r s' : click_button n c s = (r, s') → keeps s s'.
Proof.
  unfold click_button. unfold mbind at 1, M_bind at 1, get. intros Hr.
  unfold mbind at 1, M_bind at 1 in Hr. unfold fail_if in Hr.
  destruct (bool_decide _); simpl in Hr.
  { unfold mthrow, M_throw in Hr. simplify_eq. apply keeps_refl. }
  eapply for_each_keeps; [|done]. intros ? s1 r1 s1'. unfold mbind, M_bind.
  destruct (set_button n Press s1) as [[[]|] s2] eqn:H1; intros H2; simplify_eq.
  - eapply keeps_trans; eapply set_button_keeps; eauto.
  - by eapply set_button_keeps.
Qed.

Lemma pointer_button_keeps n a x y s r s' :
  PlatformInputSink_pointer_button n a x y s = (r, s') → keeps s s'.
Proof.
  unfold PlatformInputSink_pointer_button. unfold mbind, M_bind, lift. intros Hr.
  destruct (move_normalized x y s) as [[[]|e] s1] eqn:Hm; apply move_keeps in Hm as [Hk _].
  2: by simplify_eq.
  destruct (native_button n) as [b|e]; [|by simplify_eq].
  eapply keeps_trans; [done|]. destruct a.
  - unfold mthrow, M_throw in Hr. simplify_eq. apply keeps_refl.
  - by eapply set_button_keeps.
  - by eapply set_button_keeps.
  - by eapply click_keeps.
  - by eapply click_keeps.
Qed.

Lemma pointer_move_spec x y bits s r s' :
  PlatformInputSink_pointer_move x y bits s = (r, s') →
  keeps s s' ∧
  (r = Ok () → pi_pressed_keys s' = pi_pressed_keys s ∧
    ∀ n, n ∈ pi_pressed_buttons s' ↔ Z.land bits (Z.shiftl 1 (button_index n)) ≠ 0).
Proof.
  unfold PlatformInputSink_pointer_move, reconcile_pointer_buttons. simpl.
  unfold mbind, M_bind, mret, M_ret. intros Hr.
  repeat match type of Hr with
  | context [set_button ?n ?d ?s0] =>
      let Hs := fresh "Hs" in
      destruct (set_button n d s0) as [[[]|] ?] eqn:Hs;
      pose proof (set_button_keeps _ _ _ _ _ Hs); apply set_button_spec in Hs
  end; simplify_eq; try (split; [|done]; eauto using keeps_trans).
  apply move_keeps in Hr as (Hk4&Hkeys&Hbt).
  repeat match goal with H : _ ∧ _ |- _ => destruct H as (?&?&?&?&?&?&?) end.
  split; [eauto 10 using keeps_trans|]. intros _. split; [congruence|].
  assert (∀ z, (if z =? 0 then Release else Press) = Press ↔ z ≠ 0) as Hd
    by (intros z; destruct (Z.eqb_spec z 0); naive_solver).
  intros n. rewrite Hbt. destruct n; simpl button_index;
    change (Z.shiftl 1 0) with PRESSED_LEFT_BUTTON_BIT;
    change (Z.shiftl 1 1) with PRESSED_RIGHT_BUTTON_BIT;
    change (Z.shiftl 1 2) with PRESSED_MIDDLE_BUTTON_BIT;
    repeat match goal with
    | Hk : ∀ k, k ≠ _ → k ∈ pi_pressed_buttons ?p ↔ _ |- _ ∈ pi_pressed_buttons ?p ↔ _ =>
        rewrite Hk by done; clear Hk
    end;
    match goal with
    | Hu : _ → ?n ∈ pi_pressed_buttons ?p ↔ _ |- ?n ∈ pi_pressed_buttons ?p ↔ _ =>
        rewrite Hu by done; apply Hd
    end.
Qed.

(** [release_items] attempts every item once, in order, and keeps those that failed. *)
Lemma release_items_spec {K} (f : K → Held) (release : K → M B PlatformInputError unit) l b kept b' :
  (∀ k b0 r b1, release k b0 = (r, b1) → os b1 ⊆ os b0 ∧ (r = Ok () → f k ∉ os b1)) →
  release_items release l b = (kept, b') →
  os b' ⊆ os b ∧ (∀ k, k ∈ kept → k ∈ l) ∧ (∀ k, k ∈ l → k ∈ kept ∨ f k ∉ os b').
Proof.
  intros Hlaw. revert b kept b'. induction l as [|k l IH]; intros b kept b' Hr; simpl in Hr.
  { simplify_eq. set_solver. }
  destruct (release k b) as [r b1] eqn:Hk. destruct (release_items release l b1) as [kept2 b2] eqn:Hl.
  destruct (Hlaw _ _ _ _ Hk) as [Hs1 Hr1]. destruct (IH _ _ _ Hl) as (Hs2&Hin&Hout).
  destruct r as [[]|e]; simplify_eq/=; split_and!; try set_solver.
Qed.

Lemma ordered_keys_elem u (k : gset Z) : u ∈ ordered_keys k ↔ u ∈ k.
Proof. unfold ordered_keys. rewrite merge_sort_Permutation. by rewrite elem_of_elements. Qed.

Lemma ordered_buttons_elem n (k : gset NativeButton) : n ∈ ordered_buttons k ↔ n ∈ k.
Proof. unfold ordered_buttons. rewrite list_elem_of_filter. destruct n; set_solver. Qed.

Lemma sink_release_all_spec s r s' :
  PlatformInputSink_release_all s = (r, s') →
  keeps s s' ∧ (r = Ok () ∨ r = Err HW_InputFailure) ∧
  (r = Ok () → pi_pressed_keys s' = ∅ ∧ pi_pressed_buttons s' = ∅) ∧
  pi_pressed_keys s' ⊆ pi_pressed_keys s ∧ pi_pressed_buttons s' ⊆ pi_pressed_buttons s.
Proof.
  unfold PlatformInputSink_release_all. intros Hr.
  destruct (release_items (λ u, backend_keyboard u Release) _ _) as [keys b1] eqn:H1.
  destruct (release_items (λ n, backend_pointer_button n Release) _ _) as [buttons b2] eqn:H2.
  apply (release_items_spec HeldKey) in H1 as (Hs1&Hin1&Hout1).
  2: { intros k b0 r0 b3 Hk. apply (law_native_key (os:=os)) in Hk as [Hk Hk'].
       split; [set_solver|auto]. }
  apply (release_items_spec native_held) in H2 as (Hs2&Hin2&Hout2).
  2: { intros k b0 r0 b3 Hk. apply (law_native_button (os:=os)) in Hk as [Hk Hk'].
       split; [set_solver|auto]. }
  setoid_rewrite ordered_keys_elem in Hin1. setoid_rewrite ordered_keys_elem in Hout1.
  setoid_rewrite ordered_buttons_elem in Hin2. setoid_rewrite ordered_buttons_elem in Hout2.
  simplify_eq. split_and!.
  - split; [done|]. intros Hs h Hh. simpl in Hh. assert (h ∈ tracked s) as Ht by set_solver.
    apply elem_of_tracked in Ht. apply elem_of_tracked. simpl. destruct h as [u|n].
    + apply elem_of_list_to_set. destruct (Hout1 u Ht) as [|Hno]; [done|].
      destruct Hno. by apply Hs2.
    + destruct Ht as (m&Hnm&Hm). exists m. split; [done|]. apply elem_of_list_to_set.
      destruct (Hout2 m Hm) as [|Hno]; [done|]. by rewrite Hnm in Hh.
  - case_bool_decide; auto.
  - case_bool_decide as He; [|done]. destruct He as [-> ->]. done.
  - intros u Hu%elem_of_list_to_set. auto.
  - intros u Hu%elem_of_list_to_set. auto.
Qed.

Lemma sink_new_sound b r b' :
  PlatformInputSink_new b = (Ok r, b') → os b' = ∅ → sound r ∧ pi_backend r = b' ∧
  0 < display_width r ∧ 0 < display_height r.
Proof.
  unfold PlatformInputSink_new. intros Hr Ho. run Hr. split_and!; try done; try lia.
  unfold sound. simpl. rewrite Ho. set_solver.
Qed.
End laws.

(** The sink keeps the promises the session relies on. *)
Lemma platform_sink_laws {B P : Type} `{BackendLaws B os} `{PeerBackend P} :
  SinkLaws (PlatformInputSink B * P) (λ w, sound os w.1) (λ w, os (pi_backend w.1)).
Proof.
  assert (∀ (m : M (PlatformInputSink B) HostWebRtcError unit) (w : PlatformInputSink B * P),
    (∀ s r s', m s = (r, s') → keeps os s s') → sound os w.1 →
    sound os (zoom fst (λ s w, (s, w.2)) m w).2.1) as Hz.
  { intros m [s p] Hm Hs. unfold zoom. simpl in *. destruct (m s) as [r s'] eqn:Hr. simpl.
    by apply (Hm _ _ _ Hr). }
  assert (∀ A (m : M P HostWebRtcError A) (w : PlatformInputSink B * P),
    (zoom snd (λ p w, (w.1, p)) m w).2.1 = w.1) as Hp.
  { intros A m [s p]. unfold zoom. simpl. by destruct (m p). }
  split.
  - intros a u b w. apply Hz. intros s r s' Hr. by apply (keyboard_spec os) in Hr as [? _].
  - intros n a x y w. apply Hz. intros s r s' Hr. by eapply (pointer_button_keeps os).
  - intros x y b w. apply Hz. intros s r s' Hr. by apply (pointer_move_spec os) in Hr as [? _].
  - intros x y w. apply Hz. intros s r s' Hr. apply (backend_keeps os) in Hr as [? _]; [done|].
    intros; apply law_native_scroll.
  - intros t w. apply Hz. intros s r s' Hr. apply (backend_keeps os) in Hr as [? _]; [done|].
    intros; apply law_native_text.
  - intros [s p] r [s' p'] Hr Hs. simpl in *. unfold zoom in Hr. simpl in Hr.
    destruct (PlatformInputSink_release_all s) as [r1 s1] eqn:Hra. simplify_eq.
    apply (sink_release_all_spec os) in Hra as ([_ Hk]&_&Hok&_). specialize (Hk Hs). split; [done|].
    intros Hr1. destruct (Hok Hr1) as [He1 He2]. unfold sound, tracked in Hk.
    rewrite He1, He2, !set_map_empty, union_empty_l_L in Hk. by apply equiv_empty_L in Hk.
  - intros c o w Hi. unfold peer_start at 1 2; simpl. rewrite Hp. done.
  - intros c o w Hi. unfold peer_restart at 1 2; simpl. rewrite Hp. done.
  - intros c w Hi. unfold peer_add_remote_ice_candidate at 1 2; simpl. rewrite Hp. done.
  - intros w Hi. unfold peer_close at 1 2; simpl. rewrite Hp. done.
Qed.

(** * Properties *)

(** C17. End to end: a Host session whose input goes through the platform sink to a native
    backend that keeps its promise leaves no key or button pressed in the operating system
    whenever it is not connected and has no outstanding cleanup, in every run; and the sink
    always tracks everything that is pressed, so that a later cleanup can release it. *)
Theorem platform_session_releases_input {B P : Type} `{PlatformInputBackend B}
    (os : B → gset Held) (HB : BackendLaws B os) `{PeerBackend P}
    `{Message ReliableInputEnvelope, Message PointerFastEnvelope}
    (id : bytes) (permissions : list SessionPermission) (config : SessionConfig)
    (s : HostPeerSession) (sink : PlatformInputSink B) (b b' : B) (p : P) (ops : list SessionOp)
    (Hs : HostPeerSession_new id permissions config = Ok s)
    (Hsink : PlatformInputSink_new b = (Ok sink, b')) (Hb : os b' = ∅) :
  let '(_, (s', (sink', _))) := session_run ops (s, (sink, p)) in
  os (pi_backend sink') ⊆ tracked sink' ∧
  (hp_state s' ≠ HS_Connected → input_cleanup_pending s' = false → os (pi_backend sink') = ∅).
Proof.
  apply (sink_new_sound os) in Hsink as (Hsnd&Hbk&_); [|done].
  assert (Inv (λ w, sound os w.1) (λ w, os (pi_backend w.1)) (s, (sink, p))) as HI.
  { apply (new_Inv _ _ _ _ _ _ _ Hs); [done|]. simpl. by rewrite Hbk. }
  apply (@session_run_Inv _ _ _ _ _ _ _ platform_sink_laws ops) in HI.
  destruct (session_run ops (s, (sink, p))) as [? [s' [sink' p']]].
  destruct HI as [_ [Hi Hr]]. done.
Qed.

(** A backend that presses and releases faithfully but rejects odd scroll distances. *)
#[export] Instance toy_backend : PlatformInputBackend (gset Held) := {
  main_display_size b := (Ok (1920, 1080), b);
  backend_keyboard u d b :=
    (Ok (), match d with Press => {[HeldKey u]} ∪ b | Release => b ∖ {[HeldKey u]} end);
  backend_pointer_button n d b :=
    (Ok (), match d with Press => {[native_held n]} ∪ b | Release => b ∖ {[native_held n]} end);
  backend_pointer_move _ _ b := (Ok (), b);
  backend_pointer_scroll x _ b := (if Z.odd x then Err InjectionFailed else Ok (), b);
  backend_text _ b := (Ok (), b)
}.

Lemma toy_backend_laws : BackendLaws (gset Held) id.
Proof. split; simpl; try done; intros u d b r b' [= <- <-]; destruct d; set_solver. Qed.

Definition toy_platform : PlatformInputSink (gset Held) :=
  {| pi_backend := ∅; display_width := 1920; display_height := 1080; pi_pressed_keys := ∅;
     pi_pressed_buttons := ∅ |}.

Lemma platform_session_releases_input_witness :
  let '(_, (s', (sink', _))) :=
    session_run (toy_ops ++ [SClose]) (toy_session, (toy_platform, ∅ : gset Held)) in
  pi_backend sink' ⊆ tracked sink' ∧
  (hp_state s' ≠ HS_Connected → input_cleanup_pending s' = false → pi_backend sink' = ∅).
Proof.
  apply (platform_session_releases_input (λ b, b) toy_backend_laws (be_bytes 16 9)
           toy_permissions {| ice_transport_policy := ITP_All |} toy_session toy_platform ∅ ∅ ∅
           (toy_ops ++ [SClose])).
  - vm_compute. reflexivity.
  - reflexivity.
  - reflexivity.
Defined.

(** A successful keyboard event leaves exactly the requested key state: the key is down if
    and only if the event was a press, and every other modifier is down if and only if its bit
    is set; a successful pointer move leaves exactly the buttons of its mask down and no key
    changed. *)
Theorem input_state_exact `{BackendLaws B os} (s : PlatformInputSink B) :
  (∀ action usage bits s', PlatformInputSink_keyboard action usage bits s = (Ok (), s') →
    (usage ∈ pi_pressed_keys s' ↔ action = KeyboardAction_Down) ∧
    ∀ bit, 0 <= bit < MODIFIER_COUNT → FIRST_MODIFIER_USAGE + bit ≠ usage →
      FIRST_MODIFIER_USAGE + bit ∈ pi_pressed_keys s' ↔ Z.testbit bits bit = true) ∧
  (∀ x y bits s', PlatformInputSink_pointer_move x y bits s = (Ok (), s') →
    pi_pressed_keys s' = pi_pressed_keys s ∧
    ∀ n, n ∈ pi_pressed_buttons s' ↔ Z.land bits (Z.shiftl 1 (button_index n)) ≠ 0).
Proof.
  split.
  - intros a u bits s' Hr. apply (keyboard_spec os) in Hr as [_ Hr]. auto.
  - intros x y bits s' Hr. apply (pointer_move_spec os) in Hr as [_ Hr]. auto.
Qed.

Lemma input_state_exact_witness :
  (∀ action usage bits s', PlatformInputSink_keyboard action usage bits toy_platform = (Ok (), s') →
    (usage ∈ pi_pressed_keys s' ↔ action = KeyboardAction_Down) ∧
    ∀ bit, 0 <= bit < MODIFIER_COUNT → FIRST_MODIFIER_USAGE + bit ≠ usage →
      FIRST_MODIFIER_USAGE + bit ∈ pi_pressed_keys s' ↔ Z.testbit bits bit = true) ∧
  (∀ x y bits s', PlatformInputSink_pointer_move x y bits toy_platform = (Ok (), s') →
    pi_pressed_keys s' = pi_pressed_keys toy_platform ∧
    ∀ n, n ∈ pi_pressed_buttons s' ↔ Z.land bits (Z.shiftl 1 (button_index n)) ≠ 0).
Proof. exact (@input_state_exact _ _ id toy_backend_laws toy_platform). Defined.

(** Coordinate mapping: on a display of positive size, a normalized position is accepted
    exactly when both coordinates are in 0..10000, and is then mapped to a pixel of the
    display, to the nearest one on each axis; the corners map to the corners. *)
Theorem normalized_to_pixels_exact (x y w h : Z)
    (Hw : 0 < w <= I32_MAX) (Hh : 0 < h <= I32_MAX) :
  match normalized_to_pixels x y w h with
  | Err e => e = HW_InvalidCoordinates ∧
      ~ (0 <= x <= NORMALIZED_POINTER_MAX ∧ 0 <= y <= NORMALIZED_POINTER_MAX)
  | Ok (px, py) =>
      (0 <= x <= NORMALIZED_POINTER_MAX ∧ 0 <= y <= NORMALIZED_POINTER_MAX) ∧
      0 <= px < w ∧ 0 <= py < h ∧
      2 * Z.abs (px * NORMALIZED_POINTER_MAX - x * (w - 1)) <= NORMALIZED_POINTER_MAX ∧
      2 * Z.abs (py * NORMALIZED_POINTER_MAX - y * (h - 1)) <= NORMALIZED_POINTER_MAX ∧
      (x = 0 → px = 0) ∧ (x = NORMALIZED_POINTER_MAX → px = w - 1) ∧
      (y = 0 → py = 0) ∧ (y = NORMALIZED_POINTER_MAX → py = h - 1)
  end.
Proof.
  assert (∀ a d, 0 <= a <= NORMALIZED_POINTER_MAX → 0 < d <= I32_MAX →
    let p := Z.quot (a * (d - 1) + Z.quot NORMALIZED_POINTER_MAX 2) NORMALIZED_POINTER_MAX in
    0 <= p < d ∧ 2 * Z.abs (p * NORMALIZED_POINTER_MAX - a * (d - 1)) <= NORMALIZED_POINTER_MAX ∧
    (a = 0 → p = 0) ∧ (a = NORMALIZED_POINTER_MAX → p = d - 1) ∧ i32_try_from p = Some p) as Haxis.
  { intros a d Ha Hd. unfold NORMALIZED_POINTER_MAX, I32_MAX in *.
    change (Z.quot 10000 2) with 5000. rewrite Z.quot_div_nonneg by nia.
    set (p := (a * (d - 1) + 5000) `div` 10000).
    assert (10000 * p <= a * (d - 1) + 5000 < 10000 * p + 10000) as Hp.
    { subst p. pose proof (Z.div_mod (a * (d - 1) + 5000) 10000).
      pose proof (Z.mod_pos_bound (a * (d - 1) + 5000) 10000). lia. }
    clearbody p. assert (0 <= a * (d - 1) <= 10000 * (d - 1)) as Hn by nia.
    assert (0 <= p < d) as Hr by lia. cbv zeta. split_and!; try lia.
    - unfold i32_try_from, I32_MIN, I32_MAX.
      rewrite (proj2 (Z.leb_le _ _)), (proj2 (Z.leb_le _ _)) by lia. done. }
  unfold normalized_to_pixels.
  destruct (decide (0 <= x <= NORMALIZED_POINTER_MAX ∧ 0 <= y <= NORMALIZED_POINTER_MAX))
    as [[Hx Hy]|Hn].
  - destruct (Haxis x w Hx Hw) as (?&?&?&?&Ex), (Haxis y h Hy Hh) as (?&?&?&?&Ey).
    rewrite !(proj2 (Z.leb_le _ _)) by lia. unmonad. rewrite Ex, Ey. simpl. clear Ex Ey Haxis. tauto.
  - destruct ((0 <=? x) && (x <=? NORMALIZED_POINTER_MAX)) eqn:E1,
      ((0 <=? y) && (y <=? NORMALIZED_POINTER_MAX)) eqn:E2; unmonad; try done.
    boolsimpl. lia.
Qed.

Lemma normalized_to_pixels_exact_witness :
  match normalized_to_pixels 2500 10000 1920 1080 with
  | Err e => e = HW_InvalidCoordinates ∧
      ~ (0 <= 2500 <= NORMALIZED_POINTER_MAX ∧ 0 <= 10000 <= NORMALIZED_POINTER_MAX)
  | Ok (px, py) =>
      (0 <= 2500 <= NORMALIZED_POINTER_MAX ∧ 0 <= 10000 <= NORMALIZED_POINTER_MAX) ∧
      0 <= px < 1920 ∧ 0 <= py < 1080 ∧
      2 * Z.abs (px * NORMALIZED_POINTER_MAX - 2500 * (1920 - 1)) <= NORMALIZED_POINTER_MAX ∧
      2 * Z.abs (py * NORMALIZED_POINTER_MAX - 10000 * (1080 - 1)) <= NORMALIZED_POINTER_MAX ∧
      (2500 = 0 → px = 0) ∧ (2500 = NORMALIZED_POINTER_MAX → px = 1920 - 1) ∧
      (10000 = 0 → py = 0) ∧ (10000 = NORMALIZED_POINTER_MAX → py = 1080 - 1)
  end.
Proof. apply normalized_to_pixels_exact; unfold I32_MAX; lia. Defined.
