(* ===== verification/Proxy.v ===== *)
(** The Host's proxy of the privileged bridge, crates/privileged-bridge/src/proxy.rs.

    [ProxyShared] is the state behind the mutex that the peer, the input sink, the event
    receiver and the route control of one remote session share; its handles are the
    operations below on that one state, so a session that uses the peer and the sink sees
    both effects.  The transport to the broker is the trait [BridgeWire] over a world [W].
    The mutex is never poisoned: no modelled code panics while it holds the lock. *)
From S2P Require Import Prelude Limits Messages Lease Webrtc PeerSession.

Local Open Scope Z_scope.

(** * Data *)

Record ProxyRoute := { pr_lease_id : LeaseId; pr_generation : Z }.

#[export] Instance ProxyRoute_eq_dec : EqDecision ProxyRoute.
Proof. solve_decision. Defined.

Definition ProxyRoute_new (lease_id : LeaseId) (generation : Z) : ProxyRoute :=
  {| pr_lease_id := lease_id; pr_generation := generation |}.

Record BridgeRequest := { br_route : ProxyRoute; br_sequence : Z }.

Record BridgeResponse {T : Type} := { bp_route : ProxyRoute; bp_sequence : Z; bp_value : T }.
Arguments BridgeResponse : clear implicits.

Inductive ProxyError :=
| PE_Transport | PE_StaleRoute | PE_StaleResponse | PE_FailedClosed | PE_InvalidMigration
| PE_InvalidConfiguration | PE_InvalidMessage | PE_HelperUnavailable | PE_Rejected.

#[export] Instance ProxyError_eq_dec : EqDecision ProxyError.
Proof. solve_decision. Defined.

Record ProxySessionContext := {
  ctx_session_id : bytes;
  ctx_permissions : list SessionPermission;
  ctx_controller_display_name : text
}.

Definition ProxySessionContext_new (session_id : bytes) (permissions : list SessionPermission)
    (controller_display_name : text) : result ProxyError ProxySessionContext :=
  let unique_permissions := remove_dups permissions in
  fail_if (negb (len session_id =? SESSION_ID_BYTES) || bool_decide (permissions = []) ||
           negb (len unique_permissions =? len permissions) ||
           bool_decide (SessionPermission_Unspecified ∈ permissions) ||
           bool_decide (controller_display_name = []) ||
           (MAX_DEVICE_NAME_UTF8_BYTES <? text_len controller_display_name))
          PE_InvalidConfiguration;;
  mret {| ctx_session_id := session_id; ctx_permissions := permissions;
          ctx_controller_display_name := controller_display_name |}.

Inductive ValidatedInput :=
| VI_Keyboard (action : KeyboardAction) (usb_hid_usage modifier_bits : Z)
| VI_PointerButton (button : PointerButton) (action : ButtonAction) (x y : Z)
| VI_PointerMove (x y pressed_button_bits : Z)
| VI_PointerScroll (delta_x delta_y : Z)
| VI_Text (value : text)
| VI_ReleaseAll.

Inductive ProxyEvent :=
| PX_Connected | PX_Disconnected | PX_Failed | PX_LocalStop
| PX_LocalIceCandidate (candidate : PeerIceCandidate)
| PX_ReliableInput (encoded_envelope : bytes)
| PX_FastPointer (encoded_envelope : bytes).

Class BridgeWire (W : Type) := {
  wire_start : BridgeRequest → SessionConfig → text → M W ProxyError (BridgeResponse PeerAnswer);
  wire_restart : BridgeRequest → SessionConfig → text → M W ProxyError (BridgeResponse PeerAnswer);
  wire_add_candidate : BridgeRequest → PeerIceCandidate → M W ProxyError (BridgeResponse unit);
  wire_input : BridgeRequest → ValidatedInput → M W ProxyError (BridgeResponse unit);
  wire_close : BridgeRequest → M W ProxyError (BridgeResponse unit);
  wire_release : BridgeRequest → M W ProxyError (BridgeResponse unit);
  wire_try_event : M W ProxyError (option (BridgeResponse ProxyEvent));
  wire_fail_closed : W → W
}.

Record ProxyShared {W : Type} := {
  ps_route : ProxyRoute;
  ps_next_request_sequence : Z;
  ps_last_event_sequence : Z;
  ps_wire : W;
  ps_failed : bool;
  ps_closed : bool
}.
Arguments ProxyShared : clear implicits.

(** * Operations *)

Section proxy.
Context {W : Type} `{BridgeWire W}.

Definition set_ps_wire (w : W) (s : ProxyShared W) : ProxyShared W :=
  {| ps_route := ps_route s; ps_next_request_sequence := ps_next_request_sequence s;
     ps_last_event_sequence := ps_last_event_sequence s; ps_wire := w;
     ps_failed := ps_failed s; ps_closed := ps_closed s |}.

Definition set_ps_next (n : Z) (s : ProxyShared W) : ProxyShared W :=
  {| ps_route := ps_route s; ps_next_request_sequence := n;
     ps_last_event_sequence := ps_last_event_sequence s; ps_wire := ps_wire s;
     ps_failed := ps_failed s; ps_closed := ps_closed s |}.

Definition set_ps_last_event (n : Z) (s : ProxyShared W) : ProxyShared W :=
  {| ps_route := ps_route s; ps_next_request_sequence := ps_next_request_sequence s;
     ps_last_event_sequence := n; ps_wire := ps_wire s;
     ps_failed := ps_failed s; ps_closed := ps_closed s |}.

Definition set_ps_closed (c : bool) (s : ProxyShared W) : ProxyShared W :=
  {| ps_route := ps_route s; ps_next_request_sequence := ps_next_request_sequence s;
     ps_last_event_sequence := ps_last_event_sequence s; ps_wire := ps_wire s;
     ps_failed := ps_failed s; ps_closed := c |}.

Definition new_proxy_parts (route : ProxyRoute) (wire : W) : ProxyShared W :=
  {| ps_route := route; ps_next_request_sequence := 1; ps_last_event_sequence := 0;
     ps_wire := wire; ps_failed := false; ps_closed := false |}.

Definition ProxyShared_fail_closed (s : ProxyShared W) : ProxyShared W :=
  if ps_failed s then s else
  {| ps_route := ps_route s; ps_next_request_sequence := ps_next_request_sequence s;
     ps_last_event_sequence := ps_last_event_sequence s;
     ps_wire := wire_fail_closed (ps_wire s); ps_failed := true; ps_closed := ps_closed s |}.

Definition ProxyShared_perform {T} (call : BridgeRequest → M W ProxyError (BridgeResponse T))
    : M (ProxyShared W) ProxyError T :=
  self ← get;
  fail_if (ps_failed self) PE_FailedClosed;;
  let request := {| br_route := ps_route self; br_sequence := ps_next_request_sequence self |} in
  next ← ok_or (checked_add U64_MAX (ps_next_request_sequence self) 1) PE_FailedClosed;
  modify (set_ps_next next);;
  response ← try (zoom ps_wire set_ps_wire (call request));
  match response with
  | Err error => modify ProxyShared_fail_closed;; mthrow error
  | Ok response =>
      if negb (bool_decide (bp_route response = br_route request)) then
        modify ProxyShared_fail_closed;; mthrow PE_StaleRoute
      else if negb (bp_sequence response =? br_sequence request) then
        modify ProxyShared_fail_closed;; mthrow PE_StaleResponse
      else mret (bp_value response)
  end.

Abbreviation Px A := (M (ProxyShared W) HostWebRtcError A).

Definition peer_failure (_ : ProxyError) : HostWebRtcError := HW_PeerFailure.
Definition input_failure (_ : ProxyError) : HostWebRtcError := HW_InputFailure.

Definition ProxyPeer_start (config : SessionConfig) (offer_sdp : text) : Px PeerAnswer :=
  map_err_m peer_failure
    (ProxyShared_perform (λ request, wire_start request config offer_sdp)).

Definition ProxyPeer_restart (config : SessionConfig) (offer_sdp : text) : Px PeerAnswer :=
  map_err_m peer_failure
    (ProxyShared_perform (λ request, wire_restart request config offer_sdp)).

Definition ProxyPeer_add_remote_ice_candidate (candidate : PeerIceCandidate) : Px unit :=
  map_err_m peer_failure
    (ProxyShared_perform (λ request, wire_add_candidate request candidate)).

Definition ProxyPeer_close : Px unit :=
  shared ← get;
  if ps_closed shared then mret () else
  close_result ← try (ProxyShared_perform wire_close);
  release_result ← try (ProxyShared_perform wire_release);
  modify (set_ps_closed true);;
  lift (map_err peer_failure
          (match close_result with Ok _ => release_result | Err e => Err e end)).

Definition ProxyInputSink_send (input : ValidatedInput) : Px unit :=
  map_err_m input_failure (ProxyShared_perform (λ request, wire_input request input)).

Definition ProxyInputSink_keyboard (action : KeyboardAction) (usb_hid_usage modifier_bits : Z)
    : Px unit := ProxyInputSink_send (VI_Keyboard action usb_hid_usage modifier_bits).
Definition ProxyInputSink_pointer_button (button : PointerButton) (action : ButtonAction)
    (x y : Z) : Px unit := ProxyInputSink_send (VI_PointerButton button action x y).
Definition ProxyInputSink_pointer_move (x y pressed_button_bits : Z) : Px unit :=
  ProxyInputSink_send (VI_PointerMove x y pressed_button_bits).
Definition ProxyInputSink_pointer_scroll (delta_x delta_y : Z) : Px unit :=
  ProxyInputSink_send (VI_PointerScroll delta_x delta_y).
Definition ProxyInputSink_text (value : text) : Px unit := ProxyInputSink_send (VI_Text value).
Definition ProxyInputSink_release_all : Px unit := ProxyInputSink_send VI_ReleaseAll.

Definition ProxyEvents_try_recv : M (ProxyShared W) ProxyError (option ProxyEvent) :=
  shared ← get;
  fail_if (ps_failed shared) PE_FailedClosed;;
  response ← try (zoom ps_wire set_ps_wire wire_try_event);
  match response with
  | Ok None => mret None
  | Err error => modify ProxyShared_fail_closed;; mthrow error
  | Ok (Some response) =>
      if negb (bool_decide (bp_route response = ps_route shared)) then
        modify ProxyShared_fail_closed;; mthrow PE_StaleRoute
      else
      expected ← ok_or (checked_add U64_MAX (ps_last_event_sequence shared) 1) PE_StaleResponse;
      if negb (bp_sequence response =? expected) then
        modify ProxyShared_fail_closed;; mthrow PE_StaleResponse
      else
      modify (set_ps_last_event (bp_sequence response));;
      mret (Some (bp_value response))
  end.

Definition ProxyRouteControl_migrate (route : ProxyRoute) : M (ProxyShared W) ProxyError unit :=
  shared ← get;
  fail_if (negb (pr_generation route =?
                 saturating_add U64_MAX (pr_generation (ps_route shared)) 1) ||
           bool_decide (pr_lease_id route = pr_lease_id (ps_route shared))) PE_InvalidMigration;;
  put {| ps_route := route; ps_next_request_sequence := 1; ps_last_event_sequence := 0;
         ps_wire := ps_wire shared; ps_failed := ps_failed shared; ps_closed := false |}.
End proxy.

(** The proxy is the peer and the input sink of a Host session. *)
#[export] Instance ProxyPeer {W : Type} `{BridgeWire W} : PeerBackend (ProxyShared W) := {
  peer_start := ProxyPeer_start;
  peer_restart := ProxyPeer_restart;
  peer_add_remote_ice_candidate := ProxyPeer_add_remote_ice_candidate;
  peer_close := ProxyPeer_close
}.

#[export] Instance ProxyInputSink {W : Type} `{BridgeWire W} : RemoteInputSink (ProxyShared W) := {
  sink_keyboard := ProxyInputSink_keyboard;
  sink_pointer_button := ProxyInputSink_pointer_button;
  sink_pointer_move := ProxyInputSink_pointer_move;
  sink_pointer_scroll := ProxyInputSink_pointer_scroll;
  sink_text := ProxyInputSink_text;
  sink_release_all := ProxyInputSink_release_all
}.

(** * Runs over a recorded wire

    [recorded W] is any wire together with the log of what the proxy asked of it.  A run
    calls the handles in any order; a migration and a delivered event are logged too. *)
Inductive ProxyLog :=
| PL_Request (request : BridgeRequest)
| PL_Poll
| PL_FailClosed
| PL_Migrated (route : ProxyRoute)
| PL_Event (sequence : Z).

Definition record {W E A} (entry : ProxyLog) (m : M W E A) : M (W * list ProxyLog) E A :=
  λ wl, let '(r, w) := m wl.1 in (r, (w, wl.2 ++ [entry])).

#[export] Instance recorded {W : Type} `{BridgeWire W} : BridgeWire (W * list ProxyLog) := {
  wire_start request config offer := record (PL_Request request) (wire_start request config offer);
  wire_restart request config offer :=
    record (PL_Request request) (wire_restart request config offer);
  wire_add_candidate request candidate :=
    record (PL_Request request) (wire_add_candidate request candidate);
  wire_input request input := record (PL_Request request) (wire_input request input);
  wire_close request := record (PL_Request request) (wire_close request);
  wire_release request := record (PL_Request request) (wire_release request);
  wire_try_event := record PL_Poll wire_try_event;
  wire_fail_closed wl := (wire_fail_closed wl.1, wl.2 ++ [PL_FailClosed])
}.

Inductive ProxyOp :=
| PxStart (config : SessionConfig) (offer : text)
| PxRestart (config : SessionConfig) (offer : text)
| PxCandidate (candidate : PeerIceCandidate)
| PxClose
| PxInput (input : ValidatedInput)
| PxReceive
| PxMigrate (route : ProxyRoute).

Section runs.
Context {W : Type} `{BridgeWire W}.

Definition log_entry (entry : ProxyLog) (s : ProxyShared (W * list ProxyLog))
    : ProxyShared (W * list ProxyLog) :=
  set_ps_wire ((ps_wire s).1, (ps_wire s).2 ++ [entry]) s.

Definition proxy_exec (op : ProxyOp) (s : ProxyShared (W * list ProxyLog))
    : ProxyShared (W * list ProxyLog) :=
  match op with
  | PxStart config offer => (ProxyPeer_start config offer s).2
  | PxRestart config offer => (ProxyPeer_restart config offer s).2
  | PxCandidate candidate => (ProxyPeer_add_remote_ice_candidate candidate s).2
  | PxClose => (ProxyPeer_close s).2
  | PxInput input => (ProxyInputSink_send input s).2
  | PxReceive =>
      match ProxyEvents_try_recv s with
      | (Ok (Some _), s') => log_entry (PL_Event (ps_last_event_sequence s')) s'
      | (_, s') => s'
      end
  | PxMigrate route =>
      match ProxyRouteControl_migrate route s with
      | (Ok _, s') => log_entry (PL_Migrated route) s'
      | (_, s') => s'
      end
  end.

Definition proxy_run (ops : list ProxyOp) (s : ProxyShared (W * list ProxyLog))
    : ProxyShared (W * list ProxyLog) := foldl (λ s op, proxy_exec op s) s ops.
End runs.

(** * The wire discipline

    What the broker may rely on: the requests of one route are numbered 1, 2, 3, ..., events
    are taken in the order 1, 2, 3, ..., a route is only replaced by one of the next
    generation under another lease, and after [fail_closed] nothing is asked any more. *)
Record ProxySpec := {
  sp_route : ProxyRoute;
  sp_next : Z;
  sp_event : Z;
  sp_dead : bool
}.

Definition proxy_spec_step (sp : ProxySpec) (entry : ProxyLog) : option ProxySpec :=
  match entry with
  | PL_Request request =>
      guard (sp_dead sp = false);;
      guard (br_route request = sp_route sp);;
      guard (br_sequence request = sp_next sp);;
      Some {| sp_route := sp_route sp; sp_next := sp_next sp + 1; sp_event := sp_event sp;
              sp_dead := false |}
  | PL_Poll => guard (sp_dead sp = false);; Some sp
  | PL_FailClosed =>
      guard (sp_dead sp = false);;
      Some {| sp_route := sp_route sp; sp_next := sp_next sp; sp_event := sp_event sp;
              sp_dead := true |}
  | PL_Migrated route =>
      guard (pr_generation route = Z.min (pr_generation (sp_route sp) + 1) U64_MAX);;
      guard (pr_lease_id route ≠ pr_lease_id (sp_route sp));;
      Some {| sp_route := route; sp_next := 1; sp_event := 0; sp_dead := sp_dead sp |}
  | PL_Event sequence =>
      guard (sp_dead sp = false);;
      guard (sequence = sp_event sp + 1);;
      Some {| sp_route := sp_route sp; sp_next := sp_next sp; sp_event := sequence;
              sp_dead := false |}
  end.

Definition proxy_spec_run (sp : ProxySpec) (log : list ProxyLog) : option ProxySpec :=
  foldl (λ o entry, o ≫= λ sp, proxy_spec_step sp entry) (Some sp) log.

(** * Lemmas *)

Section lemmas.
Context {W : Type} `{BridgeWire W}.

(** The branches of [perform]: nothing is asked of the wire, or exactly one request, and then
    the call succeeds exactly for a response to that request. *)
Lemma perform_inv {T} (call : BridgeRequest → M W ProxyError (BridgeResponse T)) s r s' :
  ProxyShared_perform call s = (r, s') →
  ((ps_failed s = true ∨ U64_MAX < ps_next_request_sequence s + 1) ∧
     r = Err PE_FailedClosed ∧ s' = s) ∨
  (ps_failed s = false ∧ ps_next_request_sequence s + 1 <= U64_MAX ∧
   ∃ response w',
     call {| br_route := ps_route s; br_sequence := ps_next_request_sequence s |} (ps_wire s) =
       (response, w') ∧
     let s1 := set_ps_wire w' (set_ps_next (ps_next_request_sequence s + 1) s) in
     ((∃ v, response = Ok {| bp_route := ps_route s; bp_sequence := ps_next_request_sequence s;
                             bp_value := v |} ∧ r = Ok v ∧ s' = s1) ∨
      (∃ e, r = Err e ∧ s' = ProxyShared_fail_closed s1 ∧
        ∀ v, response ≠ Ok {| bp_route := ps_route s;
                              bp_sequence := ps_next_request_sequence s; bp_value := v |}))).
Proof.
  unfold ProxyShared_perform. intros Hr. run Hr; try (left; naive_solver lia); right;
    (split_and!; [done|lia|]); eexists _, _; (split; [done|]); simpl.
  all: first
    [ by right; eexists; split_and!; [done|done|]; intros v Hv; simplify_eq/=
    | left; eexists; split_and!; [|done..]; f_equal; by destruct a2; simplify_eq/= ].
Qed.

(** The two requests of [close], whose outcomes are joined. *)
Lemma proxy_close_eq (s : ProxyShared W) :
  ProxyPeer_close s =
  if ps_closed s then (Ok (), s) else
  let '(r1, s1) := ProxyShared_perform wire_close s in
  let '(r2, s2) := ProxyShared_perform wire_release s1 in
  (map_err peer_failure (match r1 with Ok _ => r2 | Err e => Err e end), set_ps_closed true s2).
Proof.
  unfold ProxyPeer_close. unmonad. destruct (ps_closed s); [done|].
  destruct (ProxyShared_perform wire_close s) as [r1 s1]. simpl.
  by destruct (ProxyShared_perform wire_release s1) as [r2 s2].
Qed.
End lemmas.

Lemma spec_run_snoc sp log entry :
  proxy_spec_run sp (log ++ [entry]) = proxy_spec_run sp log ≫= λ sp, proxy_spec_step sp entry.
Proof. unfold proxy_spec_run. by rewrite foldl_app. Qed.

Section refinement.
Context {W : Type} `{BridgeWire W} (sp0 : ProxySpec).

Implicit Types s : ProxyShared (W * list ProxyLog).

(** The specification state of a proxy, and that its log leads there. *)
Definition proxy_abs s : ProxySpec :=
  {| sp_route := ps_route s; sp_next := ps_next_request_sequence s;
     sp_event := ps_last_event_sequence s; sp_dead := ps_failed s |}.

Definition disciplined s : Prop := proxy_spec_run sp0 (ps_wire s).2 = Some (proxy_abs s).

Lemma disciplined_step s entry (s' : ProxyShared (W * list ProxyLog)) :
  disciplined s → (ps_wire s').2 = (ps_wire s).2 ++ [entry] →
  proxy_spec_step (proxy_abs s) entry = Some (proxy_abs s') → disciplined s'.
Proof.
  unfold disciplined. intros Hs Hl Hstep. by rewrite Hl, spec_run_snoc, Hs.
Qed.

Lemma disciplined_fail_closed s : disciplined s → disciplined (ProxyShared_fail_closed s).
Proof.
  unfold ProxyShared_fail_closed. intros Hs. destruct (ps_failed s) eqn:Hf; [done|].
  apply (disciplined_step s PL_FailClosed); [done..|].
  unfold proxy_abs, proxy_spec_step; simpl. rewrite Hf. by case_guard.
Qed.

(** A call of the recorded wire logs its one entry. *)
Definition records {A} (entry : ProxyLog) (m : M (W * list ProxyLog) ProxyError A) : Prop :=
  ∀ wl, (m wl).2.2 = wl.2 ++ [entry].

Lemma record_records {A} entry (m : M W ProxyError A) : records entry (record entry m).
Proof. intros [w l]. unfold record. simpl. by destruct (m w). Qed.

Lemma perform_disciplined {T}
    (call : BridgeRequest → M (W * list ProxyLog) ProxyError (BridgeResponse T)) s r s' :
  (∀ request, records (PL_Request request) (call request)) →
  ProxyShared_perform call s = (r, s') → disciplined s → disciplined s'.
Proof.
  intros Hrec Hr Hs. apply perform_inv in Hr as [(_&_&->)|(Hf&_&resp&w'&Hc&Hcase)]; [done|].
  assert (disciplined (set_ps_wire w' (set_ps_next (ps_next_request_sequence s + 1) s))) as H1.
  { eapply disciplined_step; [done| |].
    - simpl. pose proof (Hrec {| br_route := ps_route s;
        br_sequence := ps_next_request_sequence s |} (ps_wire s)) as Hl.
      rewrite Hc in Hl. exact Hl.
    - unfold proxy_abs, proxy_spec_step; simpl. rewrite Hf. by repeat case_guard. }
  destruct Hcase as [(v&_&_&->)|(e&_&->&_)]; [done|by apply disciplined_fail_closed].
Qed.

Lemma map_err_perform_disciplined {T} f
    (call : BridgeRequest → M (W * list ProxyLog) ProxyError (BridgeResponse T)) s :
  (∀ request, records (PL_Request request) (call request)) → disciplined s →
  disciplined (map_err_m (E':=HostWebRtcError) f (ProxyShared_perform call) s).2.
Proof.
  intros Hrec Hs. unfold map_err_m. destruct (ProxyShared_perform call s) as [r s'] eqn:Hr.
  eapply perform_disciplined; eauto.
Qed.

Lemma close_disciplined s : disciplined s → disciplined (ProxyPeer_close s).2.
Proof.
  intros Hs. rewrite proxy_close_eq. destruct (ps_closed s); [done|].
  destruct (ProxyShared_perform wire_close s) as [r1 s1] eqn:H1.
  destruct (ProxyShared_perform wire_release s1) as [r2 s2] eqn:H2.
  apply perform_disciplined in H1; [|intros; apply record_records|done].
  apply perform_disciplined in H2; [|intros; apply record_records|done]. done.
Qed.

Lemma receive_disciplined s : disciplined s → disciplined (proxy_exec PxReceive s).
Proof.
  intros Hs. simpl. destruct (ProxyEvents_try_recv s) as [r s'] eqn:Hr.
  unfold ProxyEvents_try_recv in Hr. unmonad.
  destruct (ps_failed s) eqn:Hf; [by simplify_eq|].
  unfold record in Hr. destruct (wire_try_event (ps_wire s).1) as [r1 w1] eqn:Hw. simpl in Hr.
  assert (disciplined (set_ps_wire (w1, (ps_wire s).2 ++ [PL_Poll]) s)) as H1.
  { eapply disciplined_step; [done|done|]. unfold proxy_abs, proxy_spec_step; simpl.
    rewrite Hf. by case_guard. }
  pose proof (disciplined_fail_closed _ H1) as H2.
  repeat (case_match; simplify_eq/=; try done).
  eapply disciplined_step; [exact H1|done|]. boolsimpl.
  unfold proxy_abs, proxy_spec_step; simpl. rewrite Hf. by repeat case_guard.
Qed.

Lemma proxy_exec_disciplined op s : disciplined s → disciplined (proxy_exec op s).
Proof.
  intros Hs. destruct op; try apply receive_disciplined; try done;
    try by apply map_err_perform_disciplined; [intros; apply record_records|].
  - by apply close_disciplined.
  - simpl. destruct (ProxyRouteControl_migrate route s) as [r s'] eqn:Hr.
    unfold ProxyRouteControl_migrate in Hr. run Hr.
    eapply disciplined_step; [exact Hs|done|]. unfold proxy_abs, proxy_spec_step; simpl.
    unfold saturating_add in *. by repeat case_guard.
Qed.

Lemma proxy_run_disciplined ops s : disciplined s → disciplined (proxy_run ops s).
Proof.
  unfold proxy_run. revert s. induction ops as [|op ops IH]; intros s Hs; simpl; [done|].
  apply IH. by apply proxy_exec_disciplined.
Qed.
End refinement.

(** * The helper's promise

    [held w] is what the operating system behind the wire holds down for the session: an
    accepted [ReleaseAll] leaves nothing, and nothing but an input operation presses. *)
Class HelperLaws (W : Type) `{BridgeWire W} (held : W → gset Held) : Prop := {
  law_wire_release_all request w response w' :
    wire_input request VI_ReleaseAll w = (Ok response, w') →
    bp_route response = br_route request → bp_sequence response = br_sequence request →
    held w' = ∅;
  law_wire_start request c o w : held (wire_start request c o w).2 ⊆ held w;
  law_wire_restart request c o w : held (wire_restart request c o w).2 ⊆ held w;
  law_wire_candidate request c w : held (wire_add_candidate request c w).2 ⊆ held w;
  law_wire_close request w : held (wire_close request w).2 ⊆ held w;
  law_wire_release request w : held (wire_release request w).2 ⊆ held w;
  law_wire_fail_closed w : held (wire_fail_closed w) ⊆ held w
}.

Section helper_laws.
Context {W : Type} `{HelperLaws W held}.

Lemma fail_closed_held (s : ProxyShared W) :
  held (ps_wire (ProxyShared_fail_closed s)) ⊆ held (ps_wire s).
Proof.
  unfold ProxyShared_fail_closed. destruct (ps_failed s); [done|]. apply law_wire_fail_closed.
Qed.

Lemma perform_held {T} (call : BridgeRequest → M W ProxyError (BridgeResponse T)) s r s' :
  (∀ request w, held (call request w).2 ⊆ held w) →
  ProxyShared_perform call s = (r, s') → held (ps_wire s') ⊆ held (ps_wire s).
Proof.
  intros Hc Hr. apply perform_inv in Hr as [(_&_&->)|(_&_&resp&w'&Hcall&Hcase)]; [done|].
  pose proof (Hc {| br_route := ps_route s; br_sequence := ps_next_request_sequence s |}
                (ps_wire s)) as Hw. rewrite Hcall in Hw. simpl in Hw.
  destruct Hcase as [(v&_&_&->)|(e&_&->&_)]; [done|].
  etransitivity; [apply fail_closed_held|done].
Qed.

Lemma map_err_held {T} f (call : BridgeRequest → M W ProxyError (BridgeResponse T)) s :
  (∀ request w, held (call request w).2 ⊆ held w) →
  held (ps_wire (map_err_m (E':=HostWebRtcError) f (ProxyShared_perform call) s).2)
    ⊆ held (ps_wire s).
Proof.
  intros Hc. unfold map_err_m. destruct (ProxyShared_perform call s) as [r s'] eqn:Hr.
  by apply perform_held in Hr.
Qed.

Lemma proxy_close_held (s : ProxyShared W) :
  held (ps_wire (ProxyPeer_close s).2) ⊆ held (ps_wire s).
Proof.
  rewrite proxy_close_eq. destruct (ps_closed s); [done|].
  destruct (ProxyShared_perform wire_close s) as [r1 s1] eqn:H1.
  destruct (ProxyShared_perform wire_release s1) as [r2 s2] eqn:H2.
  apply perform_held in H1; [|intros; apply law_wire_close].
  apply perform_held in H2; [|intros; apply law_wire_release]. simpl. by etransitivity.
Qed.

(** Through the proxy, the session's world keeps the promises the session relies on. *)
Lemma proxy_sink_laws : SinkLaws (ProxyShared W) (λ _, True) (λ s, held (ps_wire s)).
Proof.
  split; try done.
  - intros s r s' Hr _. split; [done|]. intros ->. simpl in Hr.
    unfold ProxyInputSink_release_all, ProxyInputSink_send, map_err_m in Hr.
    destruct (ProxyShared_perform _ s) as [r0 s0] eqn:Hp.
    destruct r0 as [[]|e]; simplify_eq/=.
    apply perform_inv in Hp as [(_&?&_)|(_&_&resp&w'&Hc&[(v&->&_&->)|(e&?&_)])]; [done| |done].
    by apply law_wire_release_all in Hc.
  - intros c o s _. split; [done|]. apply map_err_held. intros; apply law_wire_start.
  - intros c o s _. split; [done|]. apply map_err_held. intros; apply law_wire_restart.
  - intros c s _. split; [done|]. apply map_err_held. intros; apply law_wire_candidate.
  - intros s _. split; [done|]. apply proxy_close_held.
Qed.
End helper_laws.

(** * Properties *)

(** C28. Refinement: whatever the wire answers and in whatever order the peer, the input sink,
    the event receiver and the route control are used, what the proxy asks of the wire obeys
    the wire discipline, from the initial route: requests numbered 1, 2, 3, ... on the current
    route, events delivered in the order 1, 2, 3, ..., only next-generation routes, and no
    call at all after the one [fail_closed]. *)
Theorem proxy_refines_wire_discipline {W : Type} `{BridgeWire W} (route : ProxyRoute) (w : W)
    (ops : list ProxyOp) :
  let s := proxy_run ops (new_proxy_parts route (w, [])) in
  proxy_spec_run {| sp_route := route; sp_next := 1; sp_event := 0; sp_dead := false |}
    (ps_wire s).2 = Some (proxy_abs s).
Proof. by apply (proxy_run_disciplined _ ops). Qed.

(** Correlation, fail closed: a proxy operation returns a value exactly when the proxy has
    not failed and the wire answered this very request (its route and its number); any other
    answer fails the proxy and closes the wire, and a failed proxy asks nothing. *)
Theorem proxy_perform_exact {W : Type} `{BridgeWire W} {T : Type}
    (call : BridgeRequest → M W ProxyError (BridgeResponse T)) (s : ProxyShared W) :
  let '(r, s') := ProxyShared_perform call s in
  let n := ps_next_request_sequence s in
  let '(response, w') := call {| br_route := ps_route s; br_sequence := n |} (ps_wire s) in
  (∀ v, r = Ok v ↔ ps_failed s = false ∧ n < U64_MAX ∧
     response = Ok {| bp_route := ps_route s; bp_sequence := n; bp_value := v |}) ∧
  (ps_failed s = true → s' = s) ∧
  (ps_failed s = false → n < U64_MAX → ps_next_request_sequence s' = n + 1 ∧
     ∀ e, r = Err e → ps_failed s' = true ∧ ps_wire s' = wire_fail_closed w').
Proof.
  destruct (ProxyShared_perform call s) as [r s'] eqn:Hr. cbv zeta.
  apply perform_inv in Hr as [(Hn&->&->)|(Hf&Hmax&resp&w'&->&Hcase)].
  - destruct (call _ _) as [response w']. split_and!; try done.
    + intros v. split; [done|]. intros (?&?&_). destruct Hn; [congruence|lia].
    + intros ? ?. destruct Hn; [congruence|lia].
  - destruct Hcase as [(v&->&->&->)|(e&->&->&Hno)].
    + split_and!; [|congruence|done]. intros v'. split; [|naive_solver].
      intros [= <-]. split_and!; [done|lia|done].
    + split_and!; [|congruence|].
      * intros v. split; [done|]. intros (_&_&?). by destruct (Hno v).
      * intros _ _. unfold ProxyShared_fail_closed. simpl. rewrite Hf. done.
Qed.

(** A wire to a helper that accepts everything; its world is what is held. *)
#[export] Instance toy_wire : BridgeWire (gset Held) := {
  wire_start r _ _ w := (Ok {| bp_route := br_route r; bp_sequence := br_sequence r;
    bp_value := {| pa_sdp := lit "v=0"; pa_dtls_fingerprint_sha256 := be_bytes 32 1 |} |}, w);
  wire_restart r _ _ w := (Ok {| bp_route := br_route r; bp_sequence := br_sequence r;
    bp_value := {| pa_sdp := lit "v=0"; pa_dtls_fingerprint_sha256 := be_bytes 32 1 |} |}, w);
  wire_add_candidate r _ w :=
    (Ok {| bp_route := br_route r; bp_sequence := br_sequence r; bp_value := () |}, w);
  wire_input r input w :=
    (Ok {| bp_route := br_route r; bp_sequence := br_sequence r; bp_value := () |},
     match input with
     | VI_Keyboard KeyboardAction_Down usage _ => {[HeldKey usage]} ∪ w
     | VI_ReleaseAll => ∅
     | _ => w
     end);
  wire_close r w :=
    (Ok {| bp_route := br_route r; bp_sequence := br_sequence r; bp_value := () |}, w);
  wire_release r w :=
    (Ok {| bp_route := br_route r; bp_sequence := br_sequence r; bp_value := () |}, w);
  wire_try_event w := (Ok None, w);
  wire_fail_closed w := w
}.

Lemma toy_wire_laws : HelperLaws (gset Held) id.
Proof. split; simpl; try done. intros r w resp w' [= <- <-] _ _. done. Qed.

Definition toy_route : ProxyRoute := ProxyRoute_new (be_bytes 16 5) 3.

(** C16. End to end: a Host session whose peer and input go through the privileged bridge proxy
    leaves nothing held behind the wire whenever it is not connected and has no outstanding
    cleanup, in every run, as long as an accepted [ReleaseAll] releases: a lost, stale or
    failed answer always leaves the cleanup outstanding. *)
Theorem proxy_session_releases_input {W : Type} `{BridgeWire W} (held : W → gset Held)
    (HL : HelperLaws W held) `{Message ReliableInputEnvelope, Message PointerFastEnvelope}
    (id : bytes) (permissions : list SessionPermission) (config : SessionConfig)
    (s : HostPeerSession) (route : ProxyRoute) (w : W) (ops : list SessionOp)
    (Hs : HostPeerSession_new id permissions config = Ok s) (Hh : held w = ∅) :
  let '(_, (s', p')) := session_run ops (s, new_proxy_parts route w) in
  hp_state s' ≠ HS_Connected → input_cleanup_pending s' = false → held (ps_wire p') = ∅.
Proof.
  pose proof (new_Inv (λ _ : ProxyShared W, True) (λ s, held (ps_wire s)) _ _ _ _
                (new_proxy_parts route w) Hs I Hh) as HI.
  apply (@session_run_Inv _ _ _ _ _ _ _ proxy_sink_laws ops) in HI.
  destruct (session_run ops _) as [? [s' p']]. by destruct HI as [_ [_ Hr]].
Qed.

Lemma proxy_session_releases_input_witness :
  let '(_, (s', p')) :=
    session_run (toy_ops ++ [SBeginReconnect]) (toy_session, new_proxy_parts toy_route ∅) in
  hp_state s' ≠ HS_Connected → input_cleanup_pending s' = false → ps_wire p' = ∅.
Proof.
  apply (proxy_session_releases_input (λ w, w) toy_wire_laws (be_bytes 16 9) toy_permissions
           {| ice_transport_policy := ITP_All |} toy_session toy_route ∅
           (toy_ops ++ [SBeginReconnect])).
  - vm_compute. reflexivity.
  - reflexivity.
Defined.
