(* ===== verification/Broker.v ===== *)
(** The broker between the Host and the session helper, crates/privileged-bridge/src/broker.rs.

    [BrokerCore] joins the lease manager and the session route; [HostBrokerSession] checks
    every request of the authenticated Host against the active lease before the helper, the
    trait [BrokerHelper] over a world [W], sees it. *)
From S2P Require Import Prelude Limits Messages Lease Route Webrtc Proxy.

Local Open Scope Z_scope.

(** * Data *)

Record BrokerCore {Ids : Type} := {
  bc_leases : LeaseManager;
  bc_routes : SessionStateMachine;
  bc_ids : Ids
}.
Arguments BrokerCore : clear implicits.

Inductive BrokerProtocolError :=
| BE_InvalidMessage | BE_Lease | BE_PermissionDenied | BE_Helper | BE_StaleResponse.

#[export] Instance BrokerProtocolError_eq_dec : EqDecision BrokerProtocolError.
Proof. solve_decision. Defined.

Class BrokerHelper (W : Type) := {
  helper_exchange : PrivilegedBridgeClientFrame →
    M W BrokerProtocolError PrivilegedBridgeServerFrame;
  helper_try_event : M W BrokerProtocolError (option PrivilegedBridgeServerFrame);
  helper_fail_closed : W → W
}.

Record HostBrokerSession {Ids W : Type} := {
  hb_broker : BrokerCore Ids;
  hb_helper : W;
  hb_permissions : list Z;
  hb_operation_sequence : Z;
  hb_secure_attention_allowed : bool
}.
Arguments HostBrokerSession : clear implicits.

(** * The broker core *)

Section core.
Context {Ids : Type} `{LeaseIdSource Ids}.

Definition set_bc_leases (l : LeaseManager) (s : BrokerCore Ids) : BrokerCore Ids :=
  {| bc_leases := l; bc_routes := bc_routes s; bc_ids := bc_ids s |}.

Definition set_bc_routes (r : SessionStateMachine) (s : BrokerCore Ids) : BrokerCore Ids :=
  {| bc_leases := bc_leases s; bc_routes := r; bc_ids := bc_ids s |}.

Definition BrokerCore_new (instance_id : bytes) (ids : Ids) : BrokerCore Ids :=
  {| bc_leases := LeaseManager_new instance_id; bc_routes := SessionStateMachine_new;
     bc_ids := ids |}.

Definition on_leases {A} (m : M LeaseManager LeaseError A) : M (BrokerCore Ids) LeaseError A :=
  zoom bc_leases set_bc_leases m.

Definition on_routes {A} (m : M SessionStateMachine SessionError A)
    : M (BrokerCore Ids) SessionError A := zoom bc_routes set_bc_routes m.

Definition BrokerCore_connect_host (generation : Z) : M (BrokerCore Ids) LeaseError unit :=
  on_leases (LeaseManager_connect_host generation).

Definition BrokerCore_disconnect_host : M (BrokerCore Ids) LeaseError bool :=
  on_leases LeaseManager_disconnect_host.

Definition BrokerCore_observe_route (event : RouteEvent)
    : M (BrokerCore Ids) SessionError (list SessionAction) :=
  on_routes (SessionStateMachine_apply event).

Definition BrokerCore_acquire (request : AcquireLease) (now_ms : Z)
    : M (BrokerCore Ids) LeaseError Lease :=
  zoom (λ s, (bc_leases s, bc_ids s))
       (λ li s, {| bc_leases := li.1; bc_routes := bc_routes s; bc_ids := li.2 |})
       (LeaseManager_acquire request now_ms).

Definition BrokerCore_renew (id : LeaseId) (generation now_ms : Z)
    : M (BrokerCore Ids) LeaseError Lease := on_leases (LeaseManager_renew id generation now_ms).

Definition BrokerCore_authorize_command (id : LeaseId) (generation sequence now_ms : Z)
    : M (BrokerCore Ids) LeaseError unit :=
  on_leases (LeaseManager_authorize_command id generation sequence now_ms).

Definition BrokerCore_release (id : LeaseId) (generation : Z)
    : M (BrokerCore Ids) LeaseError bool := on_leases (LeaseManager_release id generation).

Definition BrokerCore_begin_control (generation : Z) : M (BrokerCore Ids) SessionError unit :=
  on_routes (SessionStateMachine_begin_control generation).
End core.

(** * Frames *)

Definition broker_parse_route (lease_id : bytes) (generation : Z)
    : result BrokerProtocolError ProxyRoute :=
  lease_id ← ok_or (array_of 16 lease_id) BE_InvalidMessage;
  fail_if (generation =? 0) BE_InvalidMessage;;
  mret (ProxyRoute_new lease_id generation).

Definition request_controller_display_name (request : PrivilegedBridgeClientFrame) : option text :=
  match PrivilegedBridgeClientFrame_payload request with
  | Some (PrivilegedBridgeClientFrame_Payload_StartPeer value) =>
      Some (StartPrivilegedPeerRequest_controller_display_name value)
  | Some (PrivilegedBridgeClientFrame_Payload_RestartPeer value) =>
      Some (RestartPrivilegedPeerRequest_controller_display_name value)
  | _ => None
  end.

Definition response_frame (request : PrivilegedBridgeClientFrame)
    (payload : PrivilegedBridgeServerFrame_Payload) : PrivilegedBridgeServerFrame :=
  {| PrivilegedBridgeServerFrame_protocol_version :=
       Some {| ProtocolVersion_major := 1; ProtocolVersion_minor := 0 |};
     PrivilegedBridgeServerFrame_request_id := PrivilegedBridgeClientFrame_request_id request;
     PrivilegedBridgeServerFrame_sequence := PrivilegedBridgeClientFrame_sequence request;
     PrivilegedBridgeServerFrame_payload := Some payload |}.

Definition lease_response (request : PrivilegedBridgeClientFrame) (lease : Lease)
    (permissions : list Z) : PrivilegedBridgeServerFrame :=
  response_frame request
    (PrivilegedBridgeServerFrame_Payload_Lease
       {| PrivilegedLease_lease_id := lease_id lease;
          PrivilegedLease_generation := lease_generation lease;
          PrivilegedLease_issued_at_unix_ms := issued_at_ms lease;
          PrivilegedLease_expires_at_unix_ms := expires_at_ms lease;
          PrivilegedLease_session_id := lease_session_id lease;
          PrivilegedLease_permissions := permissions;
          PrivilegedLease_controller_display_name := lease_controller_display_name lease |}).

Definition request_route (request : PrivilegedBridgeClientFrame)
    : result BrokerProtocolError ProxyRoute :=
  payload ← ok_or (PrivilegedBridgeClientFrame_payload request) BE_InvalidMessage;
  '(lease_id, generation) ←
    match payload with
    | PrivilegedBridgeClientFrame_Payload_StartPeer value =>
        Ok (StartPrivilegedPeerRequest_lease_id value, StartPrivilegedPeerRequest_generation value)
    | PrivilegedBridgeClientFrame_Payload_RestartPeer value =>
        Ok (RestartPrivilegedPeerRequest_lease_id value,
            RestartPrivilegedPeerRequest_generation value)
    | PrivilegedBridgeClientFrame_Payload_AddIceCandidate value =>
        Ok (AddPrivilegedIceCandidateRequest_lease_id value,
            AddPrivilegedIceCandidateRequest_generation value)
    | PrivilegedBridgeClientFrame_Payload_SendSecureAttention value =>
        Ok (SendSecureAttentionRequest_lease_id value, SendSecureAttentionRequest_generation value)
    | PrivilegedBridgeClientFrame_Payload_InputCommand value =>
        Ok (PrivilegedInputCommand_lease_id value, PrivilegedInputCommand_generation value)
    | PrivilegedBridgeClientFrame_Payload_ClosePeer value =>
        Ok (ClosePrivilegedPeerRequest_lease_id value, ClosePrivilegedPeerRequest_generation value)
    | _ => Err BE_InvalidMessage
    end;
  broker_parse_route lease_id generation.

Definition response_route (response : PrivilegedBridgeServerFrame)
    : result BrokerProtocolError ProxyRoute :=
  payload ← ok_or (PrivilegedBridgeServerFrame_payload response) BE_InvalidMessage;
  '(lease_id, generation) ←
    match payload with
    | PrivilegedBridgeServerFrame_Payload_CommandAccepted value =>
        Ok (PrivilegedCommandAccepted_lease_id value, PrivilegedCommandAccepted_generation value)
    | PrivilegedBridgeServerFrame_Payload_PeerAnswer value =>
        Ok (PrivilegedPeerAnswer_lease_id value, PrivilegedPeerAnswer_generation value)
    | PrivilegedBridgeServerFrame_Payload_LocalIceCandidate value =>
        Ok (PrivilegedLocalIceCandidate_lease_id value, PrivilegedLocalIceCandidate_generation value)
    | PrivilegedBridgeServerFrame_Payload_PeerStateChanged value =>
        Ok (PrivilegedPeerStateChanged_lease_id value, PrivilegedPeerStateChanged_generation value)
    | PrivilegedBridgeServerFrame_Payload_ReliableInput value =>
        Ok (PrivilegedReliableInputEvent_lease_id value,
            PrivilegedReliableInputEvent_generation value)
    | PrivilegedBridgeServerFrame_Payload_FastPointer value =>
        Ok (PrivilegedFastPointerEvent_lease_id value, PrivilegedFastPointerEvent_generation value)
    | _ => Err BE_InvalidMessage
    end;
  broker_parse_route lease_id generation.

(** * The session of the Host *)

Definition ControlInput : Z := to_i32 SessionPermission_ControlInput.

Section session.
Context {Ids W : Type} `{LeaseIdSource Ids, BrokerHelper W}.

Abbreviation HB := (HostBrokerSession Ids W).
Abbreviation B A := (M HB BrokerProtocolError A).

Definition set_hb_broker (b : BrokerCore Ids) (s : HB) : HB :=
  {| hb_broker := b; hb_helper := hb_helper s; hb_permissions := hb_permissions s;
     hb_operation_sequence := hb_operation_sequence s;
     hb_secure_attention_allowed := hb_secure_attention_allowed s |}.

Definition set_hb_helper (w : W) (s : HB) : HB :=
  {| hb_broker := hb_broker s; hb_helper := w; hb_permissions := hb_permissions s;
     hb_operation_sequence := hb_operation_sequence s;
     hb_secure_attention_allowed := hb_secure_attention_allowed s |}.

Definition set_hb_permissions (p : list Z) (s : HB) : HB :=
  {| hb_broker := hb_broker s; hb_helper := hb_helper s; hb_permissions := p;
     hb_operation_sequence := hb_operation_sequence s;
     hb_secure_attention_allowed := hb_secure_attention_allowed s |}.

Definition set_hb_sequence (n : Z) (s : HB) : HB :=
  {| hb_broker := hb_broker s; hb_helper := hb_helper s; hb_permissions := hb_permissions s;
     hb_operation_sequence := n;
     hb_secure_attention_allowed := hb_secure_attention_allowed s |}.

Definition HostBrokerSession_new (broker : BrokerCore Ids) (helper : W) : HB :=
  {| hb_broker := broker; hb_helper := helper; hb_permissions := [];
     hb_operation_sequence := 0; hb_secure_attention_allowed := false |}.

Definition HostBrokerSession_with_secure_attention (allowed : bool) (s : HB) : HB :=
  {| hb_broker := hb_broker s; hb_helper := hb_helper s; hb_permissions := hb_permissions s;
     hb_operation_sequence := hb_operation_sequence s; hb_secure_attention_allowed := allowed |}.

(** A call on the broker core whose error is mapped to [Lease], and one on the helper. *)
Definition broker_call {E A} (m : M (BrokerCore Ids) E A) : B A :=
  map_err_m (λ _, BE_Lease) (zoom hb_broker set_hb_broker m).

Definition helper_call {A} (m : M W BrokerProtocolError A) : B A := zoom hb_helper set_hb_helper m.

Definition helper_close : B unit := modify (λ s, set_hb_helper (helper_fail_closed (hb_helper s)) s).

Definition HostBrokerSession_acquire (request : PrivilegedBridgeClientFrame)
    (value : AcquirePrivilegedLeaseRequest) (now_ms : Z) : B PrivilegedBridgeServerFrame :=
  session_id ← ok_or (array_of 16 (AcquirePrivilegedLeaseRequest_session_id value))
                     BE_InvalidMessage;
  let may_control_input :=
    bool_decide (ControlInput ∈ AcquirePrivilegedLeaseRequest_permissions value) in
  lease ← broker_call (BrokerCore_acquire
    {| al_session_id := session_id;
       al_generation := AcquirePrivilegedLeaseRequest_generation value;
       al_controller_display_name := AcquirePrivilegedLeaseRequest_controller_display_name value;
       al_may_control_input := may_control_input |} now_ms);
  broker_call (BrokerCore_begin_control (lease_generation lease));;
  modify (set_hb_permissions (AcquirePrivilegedLeaseRequest_permissions value));;
  modify (set_hb_sequence 0);;
  self ← get;
  mret (lease_response request lease (hb_permissions self)).

Definition HostBrokerSession_forward (request : PrivilegedBridgeClientFrame) (route : ProxyRoute)
    : B PrivilegedBridgeServerFrame :=
  let request_id := PrivilegedBridgeClientFrame_request_id request in
  let sequence := PrivilegedBridgeClientFrame_sequence request in
  response ← helper_call (helper_exchange request);
  if negb (bool_decide (PrivilegedBridgeServerFrame_request_id response = request_id)) ||
     negb (PrivilegedBridgeServerFrame_sequence response =? sequence)
  then helper_close;; mthrow BE_StaleResponse else
  response_to ← lift (response_route response);
  if negb (bool_decide (response_to = route)) then helper_close;; mthrow BE_StaleResponse else
  mret response.

(** The display name of a peer request is the one of the lease. *)
Definition require_controller_name (request : PrivilegedBridgeClientFrame) : B unit :=
  self ← get;
  match request_controller_display_name request with
  | Some controller_display_name =>
      lease ← ok_or (active (bc_leases (hb_broker self))) BE_Lease;
      fail_if (negb (bool_decide (controller_display_name = lease_controller_display_name lease)))
              BE_InvalidMessage
  | None => mret ()
  end.

Definition HostBrokerSession_forward_authorized (request : PrivilegedBridgeClientFrame)
    (now_ms : Z) : B PrivilegedBridgeServerFrame :=
  require_controller_name request;;
  route ← lift (request_route request);
  self ← get;
  operation ← ok_or (checked_add U64_MAX (hb_operation_sequence self) 1) BE_Lease;
  modify (set_hb_sequence operation);;
  broker_call (BrokerCore_authorize_command (pr_lease_id route) (pr_generation route) operation
                 now_ms);;
  HostBrokerSession_forward request route.

Definition HostBrokerSession_handle (request : PrivilegedBridgeClientFrame) (now_ms : Z)
    : B PrivilegedBridgeServerFrame :=
  payload ← ok_or (PrivilegedBridgeClientFrame_payload request) BE_InvalidMessage;
  self ← get;
  match payload with
  | PrivilegedBridgeClientFrame_Payload_AcquireLease value =>
      HostBrokerSession_acquire request value now_ms
  | PrivilegedBridgeClientFrame_Payload_RenewLease value =>
      route ← lift (broker_parse_route (RenewPrivilegedLeaseRequest_lease_id value)
                                (RenewPrivilegedLeaseRequest_generation value));
      lease ← broker_call (BrokerCore_renew (pr_lease_id route) (pr_generation route) now_ms);
      mret (lease_response request lease (hb_permissions self))
  | PrivilegedBridgeClientFrame_Payload_ReleaseLease value =>
      route ← lift (broker_parse_route (ReleasePrivilegedLeaseRequest_lease_id value)
                                (ReleasePrivilegedLeaseRequest_generation value));
      response ← HostBrokerSession_forward request route;
      broker_call (BrokerCore_release (pr_lease_id route) (pr_generation route));;
      modify (set_hb_permissions []);;
      mret response
  | PrivilegedBridgeClientFrame_Payload_InputCommand _ =>
      fail_if (negb (bool_decide (ControlInput ∈ hb_permissions self))) BE_PermissionDenied;;
      HostBrokerSession_forward_authorized request now_ms
  | PrivilegedBridgeClientFrame_Payload_SendSecureAttention _ =>
      fail_if (negb (hb_secure_attention_allowed self) ||
               negb (bool_decide (ControlInput ∈ hb_permissions self))) BE_PermissionDenied;;
      HostBrokerSession_forward_authorized request now_ms
  | PrivilegedBridgeClientFrame_Payload_StartPeer _
  | PrivilegedBridgeClientFrame_Payload_RestartPeer _
  | PrivilegedBridgeClientFrame_Payload_AddIceCandidate _
  | PrivilegedBridgeClientFrame_Payload_ClosePeer _ =>
      HostBrokerSession_forward_authorized request now_ms
  | PrivilegedBridgeClientFrame_Payload_Authenticate _
  | PrivilegedBridgeClientFrame_Payload_RegisterHelper _ => mthrow BE_InvalidMessage
  end.

Definition HostBrokerSession_try_event : B (option PrivilegedBridgeServerFrame) :=
  event ← helper_call helper_try_event;
  match event with
  | None => mret None
  | Some response =>
      self ← get;
      lease ← ok_or (active (bc_leases (hb_broker self))) BE_Lease;
      let expected := ProxyRoute_new (lease_id lease) (lease_generation lease) in
      route ← lift (response_route response);
      if negb (bool_decide (route = expected)) then helper_close;; mthrow BE_StaleResponse else
      mret (Some response)
  end.

Definition HostBrokerSession_expire (now_ms : Z) : B bool :=
  expired ← broker_call (on_leases (LeaseManager_expire now_ms));
  if is_some expired then helper_close;; modify (set_hb_permissions []);; mret true
  else mret false.

Definition HostBrokerSession_fail_closed : B unit :=
  helper_close;;
  broker_call BrokerCore_disconnect_host;;
  modify (set_hb_permissions []).
End session.

(** * Runs over a recorded helper

    The log of a session: the clock of each request, what the helper was asked, and what the
    Host was told. *)
Record Grant := {
  gr_route : ProxyRoute;
  gr_expires_at_ms : Z;
  gr_permissions : list Z;
  gr_controller_display_name : text
}.

Inductive BrokerLog :=
| BL_Tick (now_ms : Z)
| BL_Forwarded (request : PrivilegedBridgeClientFrame)
| BL_Granted (grant : Grant)
| BL_Renewed (expires_at_ms : Z)
| BL_Dropped
| BL_Dead
| BL_Event (frame : PrivilegedBridgeServerFrame).

#[export] Instance recorded_helper {W : Type} `{BrokerHelper W} : BrokerHelper (W * list BrokerLog) := {
  helper_exchange request wl :=
    let '(r, w) := helper_exchange request wl.1 in (r, (w, wl.2 ++ [BL_Forwarded request]));
  helper_try_event wl := let '(r, w) := helper_try_event wl.1 in (r, (w, wl.2));
  helper_fail_closed wl := (helper_fail_closed wl.1, wl.2)
}.

Inductive BrokerOp :=
| BkHandle (request : PrivilegedBridgeClientFrame) (now_ms : Z)
| BkEvent
| BkExpire (now_ms : Z)
| BkFailClosed.

Section runs.
Context {Ids W : Type} `{LeaseIdSource Ids, BrokerHelper W}.

Abbreviation HB := (HostBrokerSession Ids (W * list BrokerLog)).

Definition hb_log (entries : list BrokerLog) (s : HB) : HB :=
  set_hb_helper ((hb_helper s).1, (hb_helper s).2 ++ entries) s.

(** What the Host learns from the response to a request. *)
Definition told (request : PrivilegedBridgeClientFrame) (response : PrivilegedBridgeServerFrame)
    : list BrokerLog :=
  match PrivilegedBridgeClientFrame_payload request,
        PrivilegedBridgeServerFrame_payload response with
  | Some (PrivilegedBridgeClientFrame_Payload_AcquireLease _),
    Some (PrivilegedBridgeServerFrame_Payload_Lease lease) =>
      [BL_Granted
         {| gr_route := ProxyRoute_new (PrivilegedLease_lease_id lease)
                          (PrivilegedLease_generation lease);
            gr_expires_at_ms := PrivilegedLease_expires_at_unix_ms lease;
            gr_permissions := PrivilegedLease_permissions lease;
            gr_controller_display_name := PrivilegedLease_controller_display_name lease |}]
  | Some (PrivilegedBridgeClientFrame_Payload_RenewLease _),
    Some (PrivilegedBridgeServerFrame_Payload_Lease lease) =>
      [BL_Renewed (PrivilegedLease_expires_at_unix_ms lease)]
  | Some (PrivilegedBridgeClientFrame_Payload_ReleaseLease _), _ => [BL_Dropped]
  | _, _ => []
  end.

Definition broker_exec (op : BrokerOp) (s : HB) : HB :=
  match op with
  | BkHandle request now_ms =>
      match HostBrokerSession_handle request now_ms (hb_log [BL_Tick now_ms] s) with
      | (Ok response, s') => hb_log (told request response) s'
      | (Err _, s') => s'
      end
  | BkEvent =>
      match HostBrokerSession_try_event s with
      | (Ok (Some frame), s') => hb_log [BL_Event frame] s'
      | (_, s') => s'
      end
  | BkExpire now_ms =>
      match HostBrokerSession_expire now_ms s with
      | (Ok true, s') => hb_log [BL_Dropped] s'
      | (_, s') => s'
      end
  | BkFailClosed => hb_log [BL_Dead] (HostBrokerSession_fail_closed s).2
  end.

Definition broker_run (ops : list BrokerOp) (s : HB) : HB := foldl (λ s op, broker_exec op s) s ops.
End runs.

(** * The authority monitor

    What the Host was granted decides what the helper may be asked: the monitor only reads the
    log.  A [ReleaseLease] is always passed on. *)
Record Monitor := { mo_now : Z; mo_grant : option Grant; mo_dead : bool }.

Definition is_release (request : PrivilegedBridgeClientFrame) : bool :=
  match PrivilegedBridgeClientFrame_payload request with
  | Some (PrivilegedBridgeClientFrame_Payload_ReleaseLease _) => true
  | _ => false
  end.

Definition granted (secure : bool) (grant : Grant) (request : PrivilegedBridgeClientFrame) : bool :=
  match PrivilegedBridgeClientFrame_payload request with
  | Some (PrivilegedBridgeClientFrame_Payload_InputCommand _) =>
      bool_decide (ControlInput ∈ gr_permissions grant)
  | Some (PrivilegedBridgeClientFrame_Payload_SendSecureAttention _) =>
      secure && bool_decide (ControlInput ∈ gr_permissions grant)
  | Some (PrivilegedBridgeClientFrame_Payload_StartPeer value) =>
      bool_decide (StartPrivilegedPeerRequest_controller_display_name value =
                   gr_controller_display_name grant)
  | Some (PrivilegedBridgeClientFrame_Payload_RestartPeer value) =>
      bool_decide (RestartPrivilegedPeerRequest_controller_display_name value =
                   gr_controller_display_name grant)
  | Some (PrivilegedBridgeClientFrame_Payload_AddIceCandidate _)
  | Some (PrivilegedBridgeClientFrame_Payload_ClosePeer _) => true
  | _ => false
  end.

Definition monitor_step (secure : bool) (mo : Monitor) (entry : BrokerLog) : option Monitor :=
  match entry with
  | BL_Tick now => Some {| mo_now := now; mo_grant := mo_grant mo; mo_dead := mo_dead mo |}
  | BL_Forwarded request =>
      if is_release request then Some mo else
      grant ← mo_grant mo;
      guard (mo_dead mo = false);;
      guard (request_route request = Ok (gr_route grant));;
      guard (mo_now mo < gr_expires_at_ms grant);;
      guard (granted secure grant request = true);;
      Some mo
  | BL_Granted grant =>
      guard (mo_dead mo = false);;
      Some {| mo_now := mo_now mo; mo_grant := Some grant; mo_dead := false |}
  | BL_Renewed expires =>
      grant ← mo_grant mo;
      guard (mo_dead mo = false);;
      Some {| mo_now := mo_now mo;
              mo_grant := Some {| gr_route := gr_route grant; gr_expires_at_ms := expires;
                                  gr_permissions := gr_permissions grant;
                                  gr_controller_display_name := gr_controller_display_name grant |};
              mo_dead := false |}
  | BL_Dropped => Some {| mo_now := mo_now mo; mo_grant := None; mo_dead := mo_dead mo |}
  | BL_Dead => Some {| mo_now := mo_now mo; mo_grant := None; mo_dead := true |}
  | BL_Event frame =>
      grant ← mo_grant mo;
      guard (mo_dead mo = false);;
      guard (response_route frame = Ok (gr_route grant));;
      Some mo
  end.

Definition monitor_run (secure : bool) (log : list BrokerLog) : option Monitor :=
  foldl (λ o entry, o ≫= λ mo, monitor_step secure mo entry)
        (Some {| mo_now := 0; mo_grant := None; mo_dead := false |}) log.

(** * Lemmas *)

Section lemmas.
Context {Ids W : Type} `{LeaseIdSource Ids, BrokerHelper W}.

Implicit Types s : HostBrokerSession Ids W.

(** Forwarding asks the helper once and touches nothing else; a response is only returned when
    it answers this request on this route. *)
Lemma forward_inv request route s r s' :
  HostBrokerSession_forward request route s = (r, s') →
  ∃ response w1, helper_exchange request (hb_helper s) = (response, w1) ∧
    (s' = set_hb_helper w1 s ∨ s' = set_hb_helper (helper_fail_closed w1) s) ∧
    ∀ f, r = Ok f →
      response = Ok f ∧ s' = set_hb_helper w1 s ∧ response_route f = Ok route ∧
      PrivilegedBridgeServerFrame_request_id f = PrivilegedBridgeClientFrame_request_id request ∧
      PrivilegedBridgeServerFrame_sequence f = PrivilegedBridgeClientFrame_sequence request.
Proof.
  unfold HostBrokerSession_forward, helper_call, helper_close. intros Hr.
  run Hr; eexists _, _; (split; [done|]); simpl; (split; [by (left + right)|]); intros f Hf;
    simplify_eq; split_and!; done.
Qed.

Lemma require_name_inv request s r s' :
  require_controller_name request s = (r, s') →
  s' = s ∧ r ≠ Err BE_StaleResponse ∧
  (r = Ok () → ∀ name, request_controller_display_name request = Some name →
    ∃ l, active (bc_leases (hb_broker s)) = Some l ∧ name = lease_controller_display_name l).
Proof. unfold require_controller_name. intros Hr. run Hr; naive_solver. Qed.

Lemma parse_route_Err id g e : broker_parse_route id g = Err e → e = BE_InvalidMessage.
Proof. unfold broker_parse_route. unmonad. intros He. repeat (case_match; simplify_eq/=); done. Qed.

Lemma request_route_Err request e : request_route request = Err e → e = BE_InvalidMessage.
Proof.
  unfold request_route. unmonad. intros He.
  repeat (case_match; simplify_eq/=); eauto using parse_route_Err.
Qed.

(** The state after an authorized command, before it is forwarded. *)
Definition authorized_state s (l : Lease) : HostBrokerSession Ids W :=
  let n := hb_operation_sequence s + 1 in
  set_hb_broker
    (set_bc_leases (set_active (Some (set_command_sequence n l)) (bc_leases (hb_broker s)))
       (hb_broker s)) (set_hb_sequence n s).

(** A command either fails before the helper is asked, and then at most ends an expired lease,
    or it is the next command of the active lease. *)
Lemma forward_authorized_inv request now s r s' :
  HostBrokerSession_forward_authorized request now s = (r, s') →
  (∃ e ls n, r = Err e ∧ e ≠ BE_StaleResponse ∧ (ls = bc_leases (hb_broker s) ∨ ls = (freeze_active (bc_leases (hb_broker s))).2) ∧
     s' = set_hb_broker (set_bc_leases ls (hb_broker s)) (set_hb_sequence n s)) ∨
  (∃ l, active (bc_leases (hb_broker s)) = Some l ∧
     request_route request = Ok (ProxyRoute_new (lease_id l) (lease_generation l)) ∧
     now < expires_at_ms l ∧
     (∀ name, request_controller_display_name request = Some name →
        name = lease_controller_display_name l) ∧
     hb_operation_sequence s + 1 = last_command_sequence l + 1 ∧
     HostBrokerSession_forward request (ProxyRoute_new (lease_id l) (lease_generation l))
       (authorized_state s l) = (r, s')).
Proof.
  destruct s as [[ls rs ids] w ps n sec].
  unfold HostBrokerSession_forward_authorized, broker_call, BrokerCore_authorize_command, on_leases.
  intros Hr. unfold mbind at 1, M_bind at 1 in Hr.
  destruct (require_controller_name request _) as [rc s0] eqn:Hc in Hr.
  apply require_name_inv in Hc as (->&Hne&Hname). unmonad.
  assert (∀ e n, r = Err e → e ≠ BE_StaleResponse → s' = {| hb_broker := {| bc_leases := ls; bc_routes := rs;
      bc_ids := ids |}; hb_helper := w; hb_permissions := ps; hb_operation_sequence := n;
      hb_secure_attention_allowed := sec |} →
    ∃ e ls' n, r = Err e ∧ e ≠ BE_StaleResponse ∧ (ls' = ls ∨ ls' = (freeze_active ls).2) ∧ s' =
      {| hb_broker := {| bc_leases := ls'; bc_routes := rs; bc_ids := ids |}; hb_helper := w;
         hb_permissions := ps; hb_operation_sequence := n;
         hb_secure_attention_allowed := sec |}) as Hsame by (intros; eexists _, _, _; eauto 10).
  destruct rc as [[]|e]; [|left; simplify_eq; eapply Hsame; [done|by intros ->|done]].
  destruct (request_route request) as [route|e] eqn:Hroute.
  2: { left. apply request_route_Err in Hroute as ->. simplify_eq. by eapply Hsame. }
  destruct (n + 1 <=? U64_MAX); [|left; simplify_eq; by eapply Hsame]. simpl in Hr.
  destruct (LeaseManager_authorize_command _ _ _ _ _) as [ra ls'] eqn:Ha.
  apply authorize_inv in Ha as [(l&->&Hact&Hid&Hgen&Hexp&Hn&_&->)|(e&->&Hls)].
  - right. exists l. destruct route as [rid rg]; simpl in *. subst rid rg.
    split_and!; try done.
    intros name Hx. destruct (Hname eq_refl _ Hx) as (l'&?&?). by simplify_eq.
  - left. simplify_eq. eexists _, ls', (n + 1). split; [done|]. split; [done|]. split; [|done].
    destruct Hls as [->|[_ <-]]; auto.
Qed.
End lemmas.

Lemma monitor_run_app secure log entries :
  monitor_run secure (log ++ entries) =
  foldl (λ o entry, o ≫= λ mo, monitor_step secure mo entry) (monitor_run secure log) entries.
Proof. unfold monitor_run. by rewrite foldl_app. Qed.

Section monitored.
Context {Ids W : Type} `{LeaseIdSource Ids, BrokerHelper W}.

Implicit Types s : HostBrokerSession Ids (W * list BrokerLog).

(** The graphical route stands, and the Host, while connected, is on its generation. *)
Definition routed (b : BrokerCore Ids) : Prop :=
  ∃ route, current (bc_routes b) = Some route ∧
    generation (bc_routes b) = route_generation route ∧
    (∀ g, host_generation (bc_leases b) = Some g → g = route_generation route).

Definition grant_of (l : Lease) (permissions : list Z) : Grant :=
  {| gr_route := ProxyRoute_new (lease_id l) (lease_generation l);
     gr_expires_at_ms := expires_at_ms l; gr_permissions := permissions;
     gr_controller_display_name := lease_controller_display_name l |}.

(** The monitor knows of the active lease all that matters. *)
Record tracks (mo : Monitor) s : Prop := {
  tr_routed : routed (hb_broker s);
  tr_lease l : active (bc_leases (hb_broker s)) = Some l →
    mo_grant mo = Some (grant_of l (hb_permissions s)) ∧ mo_dead mo = false;
  tr_dead : mo_dead mo = true → host_generation (bc_leases (hb_broker s)) = None
}.

(** The log is accepted and leads to a monitor that tracks the session. *)
Definition monitored (secure : bool) s : Prop :=
  hb_secure_attention_allowed s = secure ∧
  ∃ mo, monitor_run secure (hb_helper s).2 = Some mo ∧ tracks mo s.

(** The helper's own state does not matter. *)
Lemma monitored_helper secure s w :
  monitored secure s → monitored secure (set_hb_helper (w, (hb_helper s).2) s).
Proof.
  intros (Hsec&mo&Hrun&[]). split; [done|]. exists mo. split; [done|]. by split.
Qed.

Lemma monitored_entry secure log entry mo mo' (s' : HostBrokerSession Ids (W * list BrokerLog)) :
  monitor_run secure log = Some mo → (hb_helper s').2 = log ++ [entry] →
  hb_secure_attention_allowed s' = secure →
  monitor_step secure mo entry = Some mo' → tracks mo' s' → monitored secure s'.
Proof.
  intros Hrun Hlog Hsec Hstep Htr. split; [done|]. exists mo'. split; [|done].
  by rewrite Hlog, monitor_run_app, Hrun.
Qed.

(** Losing the lease, or changing what the monitor does not see, keeps the tracking. *)
Lemma tracks_leases mo s ls n :
  tracks mo s →
  (∀ l, active ls = Some l → ∃ l0, active (bc_leases (hb_broker s)) = Some l0 ∧
     ∀ p, grant_of l p = grant_of l0 p) →
  (host_generation ls = host_generation (bc_leases (hb_broker s)) ∨ host_generation ls = None) →
  tracks mo (set_hb_broker (set_bc_leases ls (hb_broker s)) (set_hb_sequence n s)).
Proof.
  intros [(route&Hc&Hg&Hh) Hl Hd] Hls Hhost. split; simpl.
  - exists route. split_and!; [done..|]. simpl. intros g Hx. apply Hh. destruct Hhost; congruence.
  - intros l Ha. destruct (Hls l Ha) as (l0&Ha0&->). eauto.
  - intros Hx. specialize (Hd Hx). destruct Hhost; congruence.
Qed.

Lemma freeze_host ls : host_generation (freeze_active ls).2 = host_generation ls.
Proof. rewrite freeze_active_spec. simpl. by destruct (active ls). Qed.

Lemma frozen_active ls : active (freeze_active ls).2 = None.
Proof. eapply freeze_active_inactive, surjective_pairing. Qed.

(** The log grows by exactly the request. *)
Lemma forward_log request route s r s' :
  HostBrokerSession_forward request route s = (r, s') →
  ∃ w, s' = set_hb_helper (w, (hb_helper s).2 ++ [BL_Forwarded request]) s.
Proof.
  intros (resp&w1&Hx&Hs'&_)%forward_inv. simpl in Hx.
  destruct (helper_exchange request (hb_helper s).1) as [r1 w2]. simplify_eq.
  destruct Hs' as [->| ->]; eauto.
Qed.

(** An authorized command is one the monitor accepts, provided the branch of [handle] that
    forwards it checked the permission. *)
Lemma forward_authorized_monitored secure request now s r s' mo :
  HostBrokerSession_forward_authorized request now s = (r, s') →
  hb_secure_attention_allowed s = secure → monitor_run secure (hb_helper s).2 = Some mo →
  tracks mo s → mo_now mo = now → is_release request = false →
  (∀ l, active (bc_leases (hb_broker s)) = Some l →
     (∀ name, request_controller_display_name request = Some name →
        name = lease_controller_display_name l) →
     granted secure (grant_of l (hb_permissions s)) request = true) →
  monitored secure s'.
Proof.
  intros Hr Hsec Hrun Htr Hnow Hrel Hgr.
  apply forward_authorized_inv in Hr
    as [(e&ls&n&->&_&Hls&->)|(l&Ha&Hroute&Hexp&Hname&_&Hf)].
  - split; [done|]. exists mo. split; [done|]. apply tracks_leases; [done|..].
    + intros l. destruct Hls as [->| ->]; [eauto|by rewrite frozen_active].
    + left. destruct Hls as [->| ->]; [done|apply freeze_host].
  - apply forward_log in Hf as [w ->]. destruct (tr_lease _ _ Htr l Ha) as [Hg Hd].
    eapply monitored_entry; [exact Hrun|done|done| |].
    + simpl. rewrite Hrel, Hg, Hd. simpl. rewrite Hroute, (Hgr l Ha Hname), Hnow.
      by repeat case_guard.
    + pose proof (tracks_leases mo s
        (set_active (Some (set_command_sequence (hb_operation_sequence s + 1) l))
           (bc_leases (hb_broker s))) (hb_operation_sequence s + 1) Htr) as [? ? ?].
      * intros ? [= <-]. eauto.
      * by left.
      * by split.
Qed.
End monitored.

Section handle.
Context {Ids W : Type} `{LeaseIdSource Ids, BrokerHelper W}.

Implicit Types s : HostBrokerSession Ids (W * list BrokerLog).

(** Where a call leaves the session: on success together with what the Host is told. *)
Definition monitored_after (secure : bool) (request : PrivilegedBridgeClientFrame)
    (r : result BrokerProtocolError PrivilegedBridgeServerFrame) s : Prop :=
  match r with
  | Ok response => monitored secure (hb_log (told request response) s)
  | Err _ => monitored secure s
  end.

Lemma begin_control_routed g (rs : SessionStateMachine) route :
  current rs = Some route → generation rs = route_generation route → g = route_generation route →
  SessionStateMachine_begin_control g rs = (Ok (), set_control true true rs).
Proof.
  intros Hc Hg ->. unfold SessionStateMachine_begin_control. unmonad.
  by rewrite Hc, Hg, Z.eqb_refl.
Qed.

Lemma told_silent request response s secure :
  told request response = [] → monitored secure s →
  monitored secure (hb_log (told request response) s).
Proof.
  intros -> (Hsec&mo&Hrun&Htr). split; [done|]. exists mo. unfold hb_log; simpl.
  rewrite app_nil_r. split; [done|]. by destruct Htr; split.
Qed.

Lemma acquire_monitored secure request value now s r s' :
  PrivilegedBridgeClientFrame_payload request =
    Some (PrivilegedBridgeClientFrame_Payload_AcquireLease value) →
  HostBrokerSession_acquire request value now s = (r, s') →
  monitored secure s → monitored_after secure request r s'.
Proof.
  intros Hpay Hr (Hsec&mo&Hrun&Htr). destruct s as [[ls rs ids] w ps n sec]. simpl in *.
  unfold HostBrokerSession_acquire, broker_call, BrokerCore_acquire, BrokerCore_begin_control,
    on_routes in Hr. unmonad.
  destruct (array_of _ _) as [id|]; simplify_eq; [|by split; [|exists mo]].
  destruct (LeaseManager_acquire _ _ _) as [ra [ls' ids']] eqn:Ha.
  apply acquire_inv in Ha as [(l&->&Hact&Hhost&->&_&_&Hl&_)|(e&->&->)]; simpl in *.
  - destruct (tr_routed _ _ Htr) as (route&Hc&Hg&Hh). simpl in *.
    assert (lease_generation l = route_generation route) as Hgen.
    { rewrite Hl. simpl. by apply Hh. }
    clear Hl. rewrite (begin_control_routed _ _ route) in Hr by done. simplify_eq. simpl.
    unfold told. rewrite Hpay. simpl.
    assert (mo_dead mo = false) as Hd.
    { destruct (mo_dead mo) eqn:Hd; [|done]. apply (tr_dead _ _ Htr) in Hd. simpl in Hd. congruence. }
    eapply monitored_entry; [exact Hrun|done|done| |].
    + simpl. rewrite Hd. by case_guard.
    + split; simpl; [|intros ? [= <-]; done|done].
      exists route. by split_and!.
  - simplify_eq. split; [done|]. exists mo. split; [done|]. destruct Htr; by split.
Qed.

Lemma renew_monitored secure request id g now s r s' :
  (∃ value, PrivilegedBridgeClientFrame_payload request =
    Some (PrivilegedBridgeClientFrame_Payload_RenewLease value)) →
  (lease ← broker_call (BrokerCore_renew id g now);
   mret (lease_response request lease (hb_permissions s))) s = (r, s') →
  monitored secure s → monitored_after secure request r s'.
Proof.
  intros [value Hpay] Hr (Hsec&mo&Hrun&Htr). destruct s as [[ls rs ids] w ps n sec].
  unfold broker_call, BrokerCore_renew, on_leases in Hr. unmonad.
  destruct (LeaseManager_renew _ _ _ _) as [ra ls'] eqn:Ha.
  assert (∀ ls', (∀ l, active ls' = Some l → ∃ l0, active ls = Some l0 ∧
      ∀ p, grant_of l p = grant_of l0 p) → host_generation ls' = host_generation ls →
    monitored secure {| hb_broker := {| bc_leases := ls'; bc_routes := rs; bc_ids := ids |};
      hb_helper := w; hb_permissions := ps; hb_operation_sequence := n;
      hb_secure_attention_allowed := sec |}) as Hkeep.
  { intros ls1 Hl Hh. split; [done|]. exists mo. split; [done|].
    apply (tracks_leases mo _ ls1 n Htr); auto. }
  apply renew_inv in Ha as [(l&Hact&->&->&_&_&[(_&->&->)|(_&->&->)])|(e&->&Hls)]; simplify_eq.
  - simpl. unfold told. rewrite Hpay. simpl.
    destruct (tr_lease _ _ Htr l Hact) as [Hg Hd]. simpl in *.
    eapply monitored_entry; [exact Hrun|done|done| |].
    + simpl. by rewrite Hg, Hd.
    + split; simpl; [|intros ? [= <-]; done|done].
      destruct (tr_routed _ _ Htr) as (route&?&?&?). by exists route.
  - apply Hkeep; [|done]. intros ? [= <-]. eauto.
  - destruct Hls as [->|[_ <-]]; apply Hkeep; [eauto|done|by rewrite frozen_active|apply freeze_host].
Qed.

Lemma release_monitored secure request route s r s' :
  is_release request = true →
  (response ← HostBrokerSession_forward request route;
   broker_call (BrokerCore_release (pr_lease_id route) (pr_generation route));;
   modify (set_hb_permissions []);;
   mret response) s = (r, s') →
  monitored secure s → monitored_after secure request r s'.
Proof.
  intros Hrel Hr (Hsec&mo&Hrun&Htr). destruct s as [[ls rs ids] [w0 lg] ps n sec]. simpl in *.
  assert (∀ f, told request f = [BL_Dropped]) as Htold.
  { intros f. unfold told. unfold is_release in Hrel. by repeat case_match. }
  unfold mbind at 1, M_bind at 1 in Hr.
  destruct (HostBrokerSession_forward request route _) as [rf s1] eqn:Hf in Hr.
  apply forward_log in Hf as [w ->]. simpl in *.
  assert (monitor_run secure (lg ++ [BL_Forwarded request]) = Some mo) as Hrun1.
  { rewrite monitor_run_app, Hrun. simpl. by rewrite Hrel. }
  assert (∀ ls' p (w : W * list BrokerLog), active ls' = None ∨ ls' = ls ∧ p = ps →
    host_generation ls' = host_generation ls →
    tracks mo {| hb_broker := {| bc_leases := ls'; bc_routes := rs; bc_ids := ids |};
      hb_helper := w; hb_permissions := p; hb_operation_sequence := n;
      hb_secure_attention_allowed := sec |}) as Htr1.
  { intros ls' p w' Hls Hh. destruct Htr as [(rt&?&?&Hx) Hl Hd]. split; simpl in *.
    - exists rt. split_and!; [done..|]. simpl. by rewrite Hh.
    - intros l Ha. destruct Hls as [|[-> ->]]; [congruence|eauto].
    - by rewrite Hh. }
  destruct rf as [response|e]; simplify_eq/=.
  2: { split; [done|]. exists mo. split; [done|]. apply Htr1; auto. }
  unfold broker_call, BrokerCore_release, on_leases in Hr. unmonad.
  assert (∀ ls', active ls' = None → host_generation ls' = host_generation ls →
    monitored secure (hb_log (told request response)
      {| hb_broker := {| bc_leases := ls'; bc_routes := rs; bc_ids := ids |};
         hb_helper := (w, lg ++ [BL_Forwarded request]); hb_permissions := [];
         hb_operation_sequence := n; hb_secure_attention_allowed := secure |})) as Hend.
  { intros ls' Ha Hh. rewrite Htold.
    eapply monitored_entry; [exact Hrun1|done|done|done|].
    destruct (Htr1 ls' [] (w, []) (or_introl Ha) Hh). split; [done| |done].
    simpl. congruence. }
  destruct (LeaseManager_release _ _ _) as [ra ls'] eqn:Ha.
  apply release_inv in Ha as [(l&->&Hact&_&_&->)|[(->&Hact&_&->)|(e&->&->)]]; simplify_eq/=.
  - by apply Hend.
  - by apply Hend.
  - split; [done|]. exists mo. split; [done|]. apply Htr1; auto.
Qed.

Lemma forwarded_monitored secure request now s r s' mo :
  HostBrokerSession_forward_authorized request now s = (r, s') →
  hb_secure_attention_allowed s = secure → monitor_run secure (hb_helper s).2 = Some mo →
  tracks mo s → mo_now mo = now → is_release request = false →
  (∀ response, told request response = []) →
  (∀ l, (∀ name, request_controller_display_name request = Some name →
           name = lease_controller_display_name l) →
     granted secure (grant_of l (hb_permissions s)) request = true) →
  monitored_after secure request r s'.
Proof.
  intros Hr Hsec Hrun Htr Hnow Hrel Htold Hgr.
  assert (monitored secure s') by eauto using forward_authorized_monitored.
  destruct r; [|done]. by apply told_silent.
Qed.

Lemma handle_monitored secure request now s r s' mo :
  HostBrokerSession_handle request now s = (r, s') →
  hb_secure_attention_allowed s = secure → monitor_run secure (hb_helper s).2 = Some mo →
  tracks mo s → mo_now mo = now → monitored_after secure request r s'.
Proof.
  intros Hr Hsec Hrun Htr Hnow. assert (monitored secure s) as Hm by (split; eauto).
  unfold HostBrokerSession_handle in Hr.
  destruct (PrivilegedBridgeClientFrame_payload request) as [payload|] eqn:Hpay.
  2: { unmonad. by simplify_eq. }
  unfold mbind at 1, M_bind at 1, ok_or at 1, mret at 1, M_ret at 1 in Hr.
  unfold mbind at 1, M_bind at 1, get at 1 in Hr.
  destruct payload.
  1,2: by unmonad; simplify_eq.
  - by eapply acquire_monitored.
  - destruct (broker_parse_route _ _) as [route|e]; [|unmonad; by simplify_eq].
    eapply renew_monitored; [by eexists|exact Hr|done].
  - destruct (broker_parse_route _ _) as [route|e]; [|unmonad; by simplify_eq].
    eapply release_monitored; [|exact Hr|done]. unfold is_release. by rewrite Hpay.
  - eapply forwarded_monitored; eauto; unfold is_release, granted; rewrite ?Hpay; [done| |].
    + intros. unfold told. by rewrite Hpay.
    + intros l Hl. apply bool_decide_eq_true. apply Hl. unfold request_controller_display_name.
      by rewrite Hpay.
  - eapply forwarded_monitored; eauto; unfold is_release, granted; rewrite ?Hpay; [done| |].
    + intros. unfold told. by rewrite Hpay.
    + intros l Hl. apply bool_decide_eq_true. apply Hl. unfold request_controller_display_name.
      by rewrite Hpay.
  - eapply forwarded_monitored; eauto; unfold is_release, granted; rewrite ?Hpay; [done| |done].
    intros. unfold told. by rewrite Hpay.
  - destruct (hb_secure_attention_allowed s && bool_decide (ControlInput ∈ hb_permissions s)) eqn:Hp.
    2: { rewrite <- negb_andb, Hp in Hr. unmonad. by simplify_eq. }
    rewrite <- negb_andb, Hp in Hr. unmonad.
    apply andb_true_iff in Hp as [Hp1 Hp2].
    eapply forwarded_monitored; eauto; unfold is_release, granted; rewrite ?Hpay; [done| |].
    + intros. unfold told. by rewrite Hpay.
    + intros l _. simpl. by rewrite <- Hsec, Hp1, Hp2.
  - destruct (bool_decide (ControlInput ∈ hb_permissions s)) eqn:Hp; [|unmonad; by simplify_eq].
    unmonad. eapply forwarded_monitored; eauto; unfold is_release, granted; rewrite ?Hpay; [done| |].
    + intros. unfold told. by rewrite Hpay.
    + intros l _. done.
  - eapply forwarded_monitored; eauto; unfold is_release, granted; rewrite ?Hpay; [done| |done].
    intros. unfold told. by rewrite Hpay.
Qed.

Lemma event_monitored secure s : monitored secure s → monitored secure (broker_exec BkEvent s).
Proof.
  intros (Hsec&mo&Hrun&Htr). destruct s as [[ls rs ids] [w lg] ps n sec]. simpl in *.
  destruct (HostBrokerSession_try_event _) as [r s'] eqn:Hr.
  unfold HostBrokerSession_try_event, helper_call, helper_close in Hr. unmonad.
  destruct (helper_try_event w) as [re w'] eqn:He.
  assert (∀ w : W, monitored secure {| hb_broker := {| bc_leases := ls; bc_routes := rs; bc_ids := ids |};
    hb_helper := (w, lg); hb_permissions := ps; hb_operation_sequence := n;
    hb_secure_attention_allowed := sec |}) as Hsame.
  { intros w1. split; [done|]. exists mo. split; [done|]. by destruct Htr; split. }
  destruct re as [[frame|]|e]; simplify_eq/=; [|apply Hsame..].
  destruct (active ls) as [l|] eqn:Ha; simplify_eq/=; [|apply Hsame].
  destruct (response_route frame) as [route|e] eqn:Hroute; simplify_eq/=; [|apply Hsame].
  case_bool_decide as Hx; simplify_eq/=; [|apply Hsame].
  destruct (tr_lease _ _ Htr l Ha) as [Hg Hd]. simpl in *.
  eapply monitored_entry; [exact Hrun|done|done| |].
  - simpl. rewrite Hg, Hd. simpl. rewrite Hroute. by case_guard.
  - by destruct Htr; split.
Qed.

Lemma expire_monitored secure now s :
  monitored secure s → monitored secure (broker_exec (BkExpire now) s).
Proof.
  intros (Hsec&mo&Hrun&Htr). destruct s as [[ls rs ids] [w lg] ps n sec]. simpl in *.
  destruct (HostBrokerSession_expire now _) as [r s'] eqn:Hr.
  unfold HostBrokerSession_expire, broker_call, on_leases, helper_close in Hr. unmonad.
  destruct (LeaseManager_expire now ls) as [re ls'] eqn:He.
  apply expire_inv in He as [(l&->&Ha&_&<-)|(->&->&_)]; simplify_eq/=.
  - eapply monitored_entry; [exact Hrun|done|done|done|].
    destruct Htr as [(route&?&?&?) _ Hd]. split; simpl.
    + exists route. split_and!; [done..|]. simpl. by rewrite freeze_host.
    + by rewrite frozen_active.
    + by rewrite freeze_host.
  - split; [done|]. exists mo. split; [done|]. by destruct Htr; split.
Qed.

Lemma fail_closed_monitored secure s :
  monitored secure s → monitored secure (broker_exec BkFailClosed s).
Proof.
  intros (Hsec&mo&Hrun&Htr). destruct s as [[ls rs ids] [w lg] ps n sec]. simpl in *.
  unfold HostBrokerSession_fail_closed, broker_call, BrokerCore_disconnect_host, on_leases,
    helper_close, LeaseManager_disconnect_host. unmonad. rewrite freeze_active_spec. simpl.
  eapply monitored_entry; [exact Hrun|done|done|done|].
  destruct Htr as [(route&?&?&?) _ _]. split; simpl.
  - exists route. split_and!; [done..|]. simpl. by destruct (active ls).
  - intros l. destruct (active ls) eqn:Ha; simpl; [done|]. by rewrite Ha.
  - by destruct (active ls).
Qed.

Lemma broker_exec_monitored secure op s : monitored secure s → monitored secure (broker_exec op s).
Proof.
  destruct op; [|apply event_monitored|apply expire_monitored|apply fail_closed_monitored].
  intros (Hsec&mo&Hrun&Htr). simpl.
  destruct (HostBrokerSession_handle _ _ _) as [r s'] eqn:Hr.
  eapply (handle_monitored secure _ _ _ _ _
            {| mo_now := now_ms; mo_grant := mo_grant mo; mo_dead := mo_dead mo |}) in Hr.
  - by destruct r.
  - done.
  - unfold hb_log. simpl. by rewrite monitor_run_app, Hrun.
  - by destruct Htr; split.
  - done.
Qed.

Lemma broker_run_monitored secure ops s : monitored secure s → monitored secure (broker_run ops s).
Proof.
  unfold broker_run. revert s. induction ops as [|op ops IH]; intros s Hs; simpl; [done|].
  apply IH. by apply broker_exec_monitored.
Qed.
End handle.

(** The two calls that open a broker on a graphical route make it [routed]. *)
Lemma opened_routed {Ids : Type} (b0 b1 b2 : BrokerCore Ids) route actions :
  host_generation (bc_leases b0) = None → generation (bc_routes b0) = 0 →
  current (bc_routes b0) = None → 0 < route_generation route →
  BrokerCore_observe_route (SessionAvailable route) b0 = (Ok actions, b1) →
  BrokerCore_connect_host (route_generation route) b1 = (Ok (), b2) →
  routed b2 ∧ active (bc_leases b2) = active (bc_leases b0).
Proof.
  unfold BrokerCore_observe_route, BrokerCore_connect_host, on_routes, on_leases,
    SessionStateMachine_apply, apply_available, freeze_actions, LeaseManager_connect_host.
  intros Hh Hg Hc Hpos Ho. unmonad. rewrite Hg, Hc in Ho.
  rewrite (proj2 (Z.eqb_neq (route_generation route) 0)) in Ho by lia.
  run Ho; intros Hco; run Hco; (split; [|done]);
    exists route; (split_and!; [done|done|]); by intros ? [= <-].
Qed.

(** The lease a successful acquisition or renewal answers with is the active one. *)
Lemma acquired_lease {Ids W : Type} `{LeaseIdSource Ids, BrokerHelper W} request value now
    (s : HostBrokerSession Ids W) f s' :
  HostBrokerSession_acquire request value now s = (Ok f, s') →
  ∃ l, active (bc_leases (hb_broker s')) = Some l ∧
    f = lease_response request l (hb_permissions s') ∧
    hb_permissions s' = AcquirePrivilegedLeaseRequest_permissions value ∧
    may_control_input l = bool_decide (ControlInput ∈ hb_permissions s').
Proof.
  unfold HostBrokerSession_acquire, broker_call, BrokerCore_acquire, BrokerCore_begin_control,
    on_routes. intros Hr. unmonad.
  destruct (array_of _ _) as [id|]; simplify_eq.
  destruct (LeaseManager_acquire _ _ _) as [ra [ls' ids']] eqn:Ha. simpl in *.
  destruct ra as [l|]; simplify_eq/=.
  destruct (SessionStateMachine_begin_control _ _) as [rb rs']. destruct rb; simplify_eq/=.
  apply acquire_inv in Ha as [(l'&[= <-]&_&_&->&_&_&Hl&_)|(e&?&_)]; [|done].
  exists l. split_and!; try done. by rewrite Hl.
Qed.

Lemma renewed_lease {Ids W : Type} `{LeaseIdSource Ids, BrokerHelper W} id g now
    (s : HostBrokerSession Ids W) l s' :
  broker_call (BrokerCore_renew id g now) s = (Ok l, s') →
  active (bc_leases (hb_broker s')) = Some l ∧ hb_permissions s' = hb_permissions s.
Proof.
  unfold broker_call, BrokerCore_renew, on_leases. unmonad.
  destruct (LeaseManager_renew _ _ _ _) as [ra ls'] eqn:Ha. destruct ra; intros; simplify_eq/=.
  apply renew_inv in Ha as [(l0&_&_&_&_&_&[(_&?&->)|(_&?&_)])|(e&?&_)]; simplify_eq; done.
Qed.

(** The route a request names. *)
Definition named_route (request : PrivilegedBridgeClientFrame) : result BrokerProtocolError ProxyRoute :=
  match PrivilegedBridgeClientFrame_payload request with
  | Some (PrivilegedBridgeClientFrame_Payload_ReleaseLease value) =>
      broker_parse_route (ReleasePrivilegedLeaseRequest_lease_id value)
        (ReleasePrivilegedLeaseRequest_generation value)
  | _ => request_route request
  end.

Lemma forwarded_response {Ids W : Type} `{LeaseIdSource Ids, BrokerHelper W} request now
    (s : HostBrokerSession Ids W) f s' :
  HostBrokerSession_forward_authorized request now s = (Ok f, s') →
  PrivilegedBridgeServerFrame_request_id f = PrivilegedBridgeClientFrame_request_id request ∧
  PrivilegedBridgeServerFrame_sequence f = PrivilegedBridgeClientFrame_sequence request ∧
  response_route f = request_route request.
Proof.
  intros [(e&?&?&?&_)|(l&_&Hroute&_&_&_&Hf)]%forward_authorized_inv; [done|].
  apply forward_inv in Hf as (resp&w1&_&_&Hok).
  destruct (Hok f eq_refl) as (_&_&Hr&->&->). by rewrite Hr, Hroute.
Qed.

(** * Properties *)

(** C14. Authority: take a broker opened on a graphical route for one connected Host, with any
    helper. In every run of requests at any clock values, polls, expiry checks and failures,
    what reaches the helper is covered by what the Host was granted: apart from a release,
    each forwarded request names the route of the granted lease, before the expiry it was last
    told, with the permission its kind needs and under the granted Controller name; every
    event passed to the Host belongs to that route; after the lease is dropped nothing is
    forwarded until a new grant, and after [fail_closed] there is none. *)
Theorem broker_authority_monitored {Ids W : Type} `{LeaseIdSource Ids, BrokerHelper W}
    (instance_id : bytes) (ids : Ids) (route : RouteSession) (actions : list SessionAction)
    (b1 b2 : BrokerCore Ids) (w : W) (secure : bool) (ops : list BrokerOp)
    (Hroute : 0 < route_generation route)
    (Hobserve : BrokerCore_observe_route (SessionAvailable route) (BrokerCore_new instance_id ids) =
       (Ok actions, b1))
    (Hconnect : BrokerCore_connect_host (route_generation route) b1 = (Ok (), b2)) :
  let s := broker_run ops (HostBrokerSession_with_secure_attention secure
             (HostBrokerSession_new b2 (w, []))) in
  ∃ mo, monitor_run secure (hb_helper s).2 = Some mo ∧ tracks mo s.
Proof.
  destruct (opened_routed (BrokerCore_new instance_id ids) _ _ _ _ eq_refl eq_refl eq_refl
    Hroute Hobserve Hconnect) as [Hr Ha].
  apply (broker_run_monitored secure ops). split; [done|]. eexists. split; [done|].
  split; [done| |done]. simpl. by rewrite Ha.
Qed.

(** A helper that accepts every command on its route, a request of each kind, and a run. *)
#[export] Instance toy_helper : BrokerHelper unit := {
  helper_exchange request w :=
    (match named_route request with
     | Ok route =>
         Ok (response_frame request (PrivilegedBridgeServerFrame_Payload_CommandAccepted
               {| PrivilegedCommandAccepted_lease_id := pr_lease_id route;
                  PrivilegedCommandAccepted_generation := pr_generation route |}))
     | Err e => Err BE_Helper
     end, w);
  helper_try_event w := (Ok None, w);
  helper_fail_closed w := w
}.

Definition toy_route_session : RouteSession :=
  {| platform := Platform_Windows; os_session_id := 4; desktop := Normal; route_generation := 3 |}.

Definition toy_broker : BrokerCore Z :=
  (BrokerCore_connect_host 3
     (BrokerCore_observe_route (SessionAvailable toy_route_session)
        (BrokerCore_new (be_bytes 16 9) 0)).2).2.

Definition toy_frame (n : Z) (payload : PrivilegedBridgeClientFrame_Payload)
    : PrivilegedBridgeClientFrame :=
  {| PrivilegedBridgeClientFrame_protocol_version := None;
     PrivilegedBridgeClientFrame_request_id := lit "r";
     PrivilegedBridgeClientFrame_sequence := n;
     PrivilegedBridgeClientFrame_payload := Some payload |}.

Definition toy_acquire : PrivilegedBridgeClientFrame :=
  toy_frame 2 (PrivilegedBridgeClientFrame_Payload_AcquireLease
    {| AcquirePrivilegedLeaseRequest_session_id := be_bytes 16 7;
       AcquirePrivilegedLeaseRequest_generation := 3;
       AcquirePrivilegedLeaseRequest_permissions := [1; 2];
       AcquirePrivilegedLeaseRequest_controller_display_name := lit "phone" |}).

Definition toy_input (n : Z) : PrivilegedBridgeClientFrame :=
  toy_frame n (PrivilegedBridgeClientFrame_Payload_InputCommand
    {| PrivilegedInputCommand_lease_id := be_bytes 16 1; PrivilegedInputCommand_generation := 3;
       PrivilegedInputCommand_input := None |}).

Definition toy_broker_ops : list BrokerOp :=
  [BkHandle toy_acquire 1000; BkHandle (toy_input 3) 1200; BkEvent; BkHandle (toy_input 4) 20000;
   BkFailClosed].

Definition toy_broker_session : HostBrokerSession Z (unit * list BrokerLog) :=
  HostBrokerSession_with_secure_attention false (HostBrokerSession_new toy_broker ((), [])).

Example toy_broker_log :
  (hb_helper (broker_run toy_broker_ops toy_broker_session)).2 =
  [BL_Tick 1000;
   BL_Granted {| gr_route := ProxyRoute_new (be_bytes 16 1) 3; gr_expires_at_ms := 16000;
                 gr_permissions := [1; 2]; gr_controller_display_name := lit "phone" |};
   BL_Tick 1200; BL_Forwarded (toy_input 3); BL_Tick 20000; BL_Dead].
Proof. vm_compute. reflexivity. Qed.

Lemma broker_authority_monitored_witness :
  let s := broker_run toy_broker_ops toy_broker_session in
  ∃ mo, monitor_run false (hb_helper s).2 = Some mo ∧ tracks mo s.
Proof.
  apply (broker_authority_monitored (be_bytes 16 9) 0 toy_route_session
           [PublishRoute toy_route_session]
           (BrokerCore_observe_route (SessionAvailable toy_route_session)
              (BrokerCore_new (be_bytes 16 9) 0)).2 toy_broker () false toy_broker_ops).
  - reflexivity.
  - reflexivity.
  - reflexivity.
Defined.

(** Correlation: a response given to the Host carries the identifier and sequence of its
    request. It either reports the now active lease with the permissions in force, whose input
    flag agrees with them after an acquisition, or it is the helper's answer on exactly the
    route the request named. *)
Theorem broker_response_correlated {Ids W : Type} `{LeaseIdSource Ids, BrokerHelper W}
    (request : PrivilegedBridgeClientFrame) (now : Z) (s s' : HostBrokerSession Ids W)
    (f : PrivilegedBridgeServerFrame)
    (Hr : HostBrokerSession_handle request now s = (Ok f, s')) :
  PrivilegedBridgeServerFrame_request_id f = PrivilegedBridgeClientFrame_request_id request ∧
  PrivilegedBridgeServerFrame_sequence f = PrivilegedBridgeClientFrame_sequence request ∧
  match PrivilegedBridgeClientFrame_payload request with
  | Some (PrivilegedBridgeClientFrame_Payload_AcquireLease value) =>
      ∃ l, active (bc_leases (hb_broker s')) = Some l ∧
        f = lease_response request l (AcquirePrivilegedLeaseRequest_permissions value) ∧
        may_control_input l =
          bool_decide (ControlInput ∈ AcquirePrivilegedLeaseRequest_permissions value)
  | Some (PrivilegedBridgeClientFrame_Payload_RenewLease _) =>
      ∃ l, active (bc_leases (hb_broker s')) = Some l ∧
        f = lease_response request l (hb_permissions s')
  | _ => response_route f = named_route request
  end.
Proof.
  unfold HostBrokerSession_handle in Hr.
  destruct (PrivilegedBridgeClientFrame_payload request) as [payload|] eqn:Hpay; [|done].
  unfold mbind at 1, M_bind at 1, ok_or at 1, mret at 1, M_ret at 1 in Hr.
  unfold mbind at 1, M_bind at 1, get at 1 in Hr. unfold named_route. rewrite Hpay.
  destruct payload; try (by apply forwarded_response in Hr); try done.
  - apply acquired_lease in Hr as (l&Ha&->&Hp&Hm). rewrite Hp in *. split_and!; [done..|eauto].
  - apply M_bind_Ok in Hr as (route&s1&Hp&Hr). unmonad. simplify_eq.
    destruct (broker_call _ s1) as [[l|] s2] eqn:Hl; simplify_eq.
    apply renewed_lease in Hl as [Ha Hp']. rewrite <- Hp'. split_and!; [done..|eauto].
  - apply M_bind_Ok in Hr as (route&s1&Hp&Hr). unfold lift in Hp. simplify_eq.
    apply M_bind_Ok in Hr as (resp&s2&Hf&Hr).
    apply M_bind_Ok in Hr as (?&s3&_&Hr). unmonad. simplify_eq.
    apply forward_inv in Hf as (rx&w1&_&_&Hok). destruct (Hok _ eq_refl) as (_&_&Hx&->&->).
    by rewrite Hx.
  - unmonad. destruct (_ || _); [done|]. by apply forwarded_response in Hr.
  - unmonad. destruct (negb _); [done|]. by apply forwarded_response in Hr.
Qed.

Lemma broker_response_correlated_witness :
  let '(r, s') := HostBrokerSession_handle toy_acquire 1000 (HostBrokerSession_new toy_broker ()) in
  ∃ f, r = Ok f ∧
    PrivilegedBridgeServerFrame_request_id f = PrivilegedBridgeClientFrame_request_id toy_acquire ∧
    PrivilegedBridgeServerFrame_sequence f = PrivilegedBridgeClientFrame_sequence toy_acquire ∧
    ∃ l, active (bc_leases (hb_broker s')) = Some l ∧
      f = lease_response toy_acquire l [1; 2] ∧
      may_control_input l = bool_decide (ControlInput ∈ [1; 2]).
Proof.
  destruct (HostBrokerSession_handle toy_acquire 1000 (HostBrokerSession_new toy_broker ()))
    as [[f|e] s'] eqn:Hr; [|vm_compute in Hr; discriminate Hr].
  exists f. split; [reflexivity|]. exact (broker_response_correlated _ _ _ _ _ Hr).
Defined.
