(* ===== verification/Helper.v ===== *)
(** The session helper's side of the bridge, crates/privileged-bridge/src/helper.rs.

    [HelperProtocol] runs typed commands on the native backend, the trait [HelperBackend] over
    a world [W], only for the route its [HelperLeaseGate] holds, and numbers the events it
    sends back.  It is also a [BrokerHelper]: the broker over the helper, with a transport in
    between that neither loses nor reorders. *)
From stdpp Require Import pretty.
From S2P Require Import Prelude Limits Messages Lease Webrtc Proxy Broker.

Local Open Scope Z_scope.

(** * The lease gate *)

Inductive HelperError := HE_LeaseRequired | HE_StaleRoute.

Record HelperLeaseGate := { hg_route : option ProxyRoute }.

#[export] Instance HelperError_eq_dec : EqDecision HelperError.
Proof. solve_decision. Defined.
#[export] Instance HelperLeaseGate_eq_dec : EqDecision HelperLeaseGate.
Proof. solve_decision. Defined.

Definition HelperLeaseGate_new : HelperLeaseGate := {| hg_route := None |}.

Definition HelperLeaseGate_attach (route : ProxyRoute) : M HelperLeaseGate HelperError unit :=
  self ← get;
  fail_if ((pr_generation route =? 0) ||
           match hg_route self with
           | Some current => pr_generation route <=? pr_generation current
           | None => false
           end) HE_StaleRoute;;
  put {| hg_route := Some route |}.

Definition HelperLeaseGate_authorize (self : HelperLeaseGate) (lease_id : LeaseId)
    (generation : Z) : result HelperError unit :=
  match hg_route self with
  | None => Err HE_LeaseRequired
  | Some route =>
      if bool_decide (pr_lease_id route = lease_id) && (pr_generation route =? generation)
      then Ok () else Err HE_StaleRoute
  end.

Definition HelperLeaseGate_release (self : HelperLeaseGate) : bool * HelperLeaseGate :=
  (is_some (hg_route self), {| hg_route := None |}).

(** * Data *)

Inductive HelperProtocolError :=
| HP_InvalidMessage | HP_StaleRoute | HP_Backend | HP_SequenceOverflow.

#[export] Instance HelperProtocolError_eq_dec : EqDecision HelperProtocolError.
Proof. solve_decision. Defined.

Class HelperBackend (W : Type) := {
  backend_start : PrivilegedPeerConfiguration → WebRtcSessionDescription → text →
    M W HelperProtocolError PeerAnswer;
  backend_restart : PrivilegedPeerConfiguration → WebRtcSessionDescription → text →
    M W HelperProtocolError PeerAnswer;
  backend_add_candidate : IceCandidate → M W HelperProtocolError unit;
  backend_input : PrivilegedInputCommand → M W HelperProtocolError unit;
  backend_secure_attention : M W HelperProtocolError unit;
  backend_close : M W HelperProtocolError unit;
  backend_try_event : M W HelperProtocolError (option ProxyEvent);
  backend_fail_closed : W → W
}.

Record HelperProtocol {W : Type} := {
  hp_gate : HelperLeaseGate;
  hp_backend : W;
  hp_next_event_sequence : Z;
  hp_failed : bool
}.
Arguments HelperProtocol : clear implicits.

(** * Frames *)

(** [u64] in decimal. *)
Definition decimal (z : Z) : text := lit (pretty (Z.to_N z)).

Definition helper_parse_route (lease_id : bytes) (generation : Z)
    : result HelperProtocolError ProxyRoute :=
  lease_id ← ok_or (array_of 16 lease_id) HP_InvalidMessage;
  fail_if (generation =? 0) HP_InvalidMessage;;
  mret (ProxyRoute_new lease_id generation).

Definition accepted_response (request : PrivilegedBridgeClientFrame) (route : ProxyRoute)
    : PrivilegedBridgeServerFrame :=
  response_frame request
    (PrivilegedBridgeServerFrame_Payload_CommandAccepted
       {| PrivilegedCommandAccepted_lease_id := pr_lease_id route;
          PrivilegedCommandAccepted_generation := pr_generation route |}).

Definition answer_response (request : PrivilegedBridgeClientFrame) (route : ProxyRoute)
    (answer : PeerAnswer) : PrivilegedBridgeServerFrame :=
  response_frame request
    (PrivilegedBridgeServerFrame_Payload_PeerAnswer
       {| PrivilegedPeerAnswer_lease_id := pr_lease_id route;
          PrivilegedPeerAnswer_generation := pr_generation route;
          PrivilegedPeerAnswer_answer :=
            Some {| WebRtcSessionDescription_type := to_i32 SessionDescriptionType_Answer;
                    WebRtcSessionDescription_sdp := pa_sdp answer;
                    WebRtcSessionDescription_dtls_fingerprint_sha256 :=
                      pa_dtls_fingerprint_sha256 answer |} |}).

Definition state_event (route : ProxyRoute) (state : PrivilegedPeerState)
    : PrivilegedBridgeServerFrame_Payload :=
  PrivilegedBridgeServerFrame_Payload_PeerStateChanged
    {| PrivilegedPeerStateChanged_lease_id := pr_lease_id route;
       PrivilegedPeerStateChanged_generation := pr_generation route;
       PrivilegedPeerStateChanged_state := to_i32 state |}.

Definition event_frame (route : ProxyRoute) (sequence : Z) (event : ProxyEvent)
    : PrivilegedBridgeServerFrame :=
  let payload :=
    match event with
    | PX_Connected => state_event route PrivilegedPeerState_Connected
    | PX_Disconnected => state_event route PrivilegedPeerState_Disconnected
    | PX_Failed => state_event route PrivilegedPeerState_Failed
    | PX_LocalStop => state_event route PrivilegedPeerState_Closed
    | PX_LocalIceCandidate candidate =>
        PrivilegedBridgeServerFrame_Payload_LocalIceCandidate
          {| PrivilegedLocalIceCandidate_lease_id := pr_lease_id route;
             PrivilegedLocalIceCandidate_generation := pr_generation route;
             PrivilegedLocalIceCandidate_candidate :=
               Some {| IceCandidate_candidate := pic_candidate candidate;
                       IceCandidate_sdp_mid := pic_sdp_mid candidate;
                       IceCandidate_sdp_m_line_index := pic_sdp_m_line_index candidate |} |}
    | PX_ReliableInput encoded_envelope =>
        PrivilegedBridgeServerFrame_Payload_ReliableInput
          {| PrivilegedReliableInputEvent_lease_id := pr_lease_id route;
             PrivilegedReliableInputEvent_generation := pr_generation route;
             PrivilegedReliableInputEvent_encoded_envelope := encoded_envelope |}
    | PX_FastPointer encoded_envelope =>
        PrivilegedBridgeServerFrame_Payload_FastPointer
          {| PrivilegedFastPointerEvent_lease_id := pr_lease_id route;
             PrivilegedFastPointerEvent_generation := pr_generation route;
             PrivilegedFastPointerEvent_encoded_envelope := encoded_envelope |}
    end in
  {| PrivilegedBridgeServerFrame_protocol_version :=
       Some {| ProtocolVersion_major := 1; ProtocolVersion_minor := 0 |};
     PrivilegedBridgeServerFrame_request_id := lit "event-" ++ decimal sequence;
     PrivilegedBridgeServerFrame_sequence := sequence;
     PrivilegedBridgeServerFrame_payload := Some payload |}.

(** * Operations *)

Section helper.
Context {W : Type} `{HelperBackend W}.

Abbreviation Hp A := (M (HelperProtocol W) HelperProtocolError A).

Definition set_hp_gate (g : HelperLeaseGate) (s : HelperProtocol W) : HelperProtocol W :=
  {| hp_gate := g; hp_backend := hp_backend s;
     hp_next_event_sequence := hp_next_event_sequence s; hp_failed := hp_failed s |}.

Definition set_hp_backend (w : W) (s : HelperProtocol W) : HelperProtocol W :=
  {| hp_gate := hp_gate s; hp_backend := w;
     hp_next_event_sequence := hp_next_event_sequence s; hp_failed := hp_failed s |}.

Definition set_hp_next (n : Z) (s : HelperProtocol W) : HelperProtocol W :=
  {| hp_gate := hp_gate s; hp_backend := hp_backend s; hp_next_event_sequence := n;
     hp_failed := hp_failed s |}.

Definition HelperProtocol_new (backend : W) : HelperProtocol W :=
  {| hp_gate := HelperLeaseGate_new; hp_backend := backend; hp_next_event_sequence := 1;
     hp_failed := false |}.

Definition on_backend {A} (m : M W HelperProtocolError A) : Hp A :=
  zoom hp_backend set_hp_backend m.

Definition HelperProtocol_fail_closed (s : HelperProtocol W) : HelperProtocol W :=
  if hp_failed s then s else
  {| hp_gate := (HelperLeaseGate_release (hp_gate s)).2;
     hp_backend := backend_fail_closed (hp_backend s);
     hp_next_event_sequence := hp_next_event_sequence s; hp_failed := true |}.

Definition HelperProtocol_shutdown : HelperProtocol W → HelperProtocol W :=
  HelperProtocol_fail_closed.

Definition HelperProtocol_attach_or_authorize (route : ProxyRoute) : Hp unit :=
  self ← get;
  if bool_decide (hg_route (hp_gate self) = Some route) then mret ()
  else map_err_m (λ _, HP_StaleRoute) (zoom hp_gate set_hp_gate (HelperLeaseGate_attach route)).

Definition HelperProtocol_authorize (lease_id : bytes) (generation : Z) : Hp ProxyRoute :=
  route ← lift (helper_parse_route lease_id generation);
  self ← get;
  lift (map_err (λ _, HP_StaleRoute)
          (HelperLeaseGate_authorize (hp_gate self) (pr_lease_id route) (pr_generation route)));;
  mret route.

Definition HelperProtocol_handle_inner (request : PrivilegedBridgeClientFrame)
    : Hp PrivilegedBridgeServerFrame :=
  payload ← ok_or (PrivilegedBridgeClientFrame_payload request) HP_InvalidMessage;
  match payload with
  | PrivilegedBridgeClientFrame_Payload_StartPeer value =>
      route ← lift (helper_parse_route (StartPrivilegedPeerRequest_lease_id value)
                                (StartPrivilegedPeerRequest_generation value));
      HelperProtocol_attach_or_authorize route;;
      configuration ← ok_or (StartPrivilegedPeerRequest_configuration value) HP_InvalidMessage;
      offer ← ok_or (StartPrivilegedPeerRequest_offer value) HP_InvalidMessage;
      answer ← on_backend (backend_start configuration offer
                             (StartPrivilegedPeerRequest_controller_display_name value));
      mret (answer_response request route answer)
  | PrivilegedBridgeClientFrame_Payload_RestartPeer value =>
      route ← lift (helper_parse_route (RestartPrivilegedPeerRequest_lease_id value)
                                (RestartPrivilegedPeerRequest_generation value));
      HelperProtocol_attach_or_authorize route;;
      configuration ← ok_or (RestartPrivilegedPeerRequest_configuration value) HP_InvalidMessage;
      offer ← ok_or (RestartPrivilegedPeerRequest_offer value) HP_InvalidMessage;
      answer ← on_backend (backend_restart configuration offer
                             (RestartPrivilegedPeerRequest_controller_display_name value));
      mret (answer_response request route answer)
  | PrivilegedBridgeClientFrame_Payload_AddIceCandidate value =>
      route ← HelperProtocol_authorize (AddPrivilegedIceCandidateRequest_lease_id value)
                                       (AddPrivilegedIceCandidateRequest_generation value);
      candidate ← ok_or (AddPrivilegedIceCandidateRequest_candidate value) HP_InvalidMessage;
      on_backend (backend_add_candidate candidate);;
      mret (accepted_response request route)
  | PrivilegedBridgeClientFrame_Payload_InputCommand value =>
      route ← HelperProtocol_authorize (PrivilegedInputCommand_lease_id value)
                                       (PrivilegedInputCommand_generation value);
      on_backend (backend_input value);;
      mret (accepted_response request route)
  | PrivilegedBridgeClientFrame_Payload_SendSecureAttention value =>
      route ← HelperProtocol_authorize (SendSecureAttentionRequest_lease_id value)
                                       (SendSecureAttentionRequest_generation value);
      on_backend backend_secure_attention;;
      mret (accepted_response request route)
  | PrivilegedBridgeClientFrame_Payload_ClosePeer value =>
      route ← HelperProtocol_authorize (ClosePrivilegedPeerRequest_lease_id value)
                                       (ClosePrivilegedPeerRequest_generation value);
      on_backend backend_close;;
      mret (accepted_response request route)
  | PrivilegedBridgeClientFrame_Payload_ReleaseLease value =>
      route ← HelperProtocol_authorize (ReleasePrivilegedLeaseRequest_lease_id value)
                                       (ReleasePrivilegedLeaseRequest_generation value);
      on_backend backend_close;;
      modify (λ s, set_hp_gate (HelperLeaseGate_release (hp_gate s)).2 s);;
      mret (accepted_response request route)
  | PrivilegedBridgeClientFrame_Payload_Authenticate _
  | PrivilegedBridgeClientFrame_Payload_RegisterHelper _
  | PrivilegedBridgeClientFrame_Payload_AcquireLease _
  | PrivilegedBridgeClientFrame_Payload_RenewLease _ => mthrow HP_InvalidMessage
  end.

Definition HelperProtocol_handle (request : PrivilegedBridgeClientFrame)
    : Hp PrivilegedBridgeServerFrame :=
  self ← get;
  fail_if (hp_failed self) HP_Backend;;
  result ← try (HelperProtocol_handle_inner request);
  (if bool_decide (result = Err HP_Backend) then modify HelperProtocol_fail_closed else mret ());;
  lift result.

Definition HelperProtocol_try_event : Hp (option PrivilegedBridgeServerFrame) :=
  self ← get;
  fail_if (hp_failed self) HP_Backend;;
  event ← try (on_backend backend_try_event);
  match event with
  | Err error => modify HelperProtocol_fail_closed;; mthrow error
  | Ok None => mret None
  | Ok (Some event) =>
      route ← ok_or (hg_route (hp_gate self)) HP_StaleRoute;
      let sequence := hp_next_event_sequence self in
      next ← ok_or (checked_add U64_MAX sequence 1) HP_SequenceOverflow;
      modify (set_hp_next next);;
      mret (Some (event_frame route sequence event))
  end.
End helper.

(** The broker's view of the helper across a transport that delivers. *)
#[export] Instance HelperProtocol_helper {W : Type} `{HelperBackend W}
    : BrokerHelper (HelperProtocol W) := {
  helper_exchange request := map_err_m (λ _, BE_Helper) (HelperProtocol_handle request);
  helper_try_event := map_err_m (λ _, BE_Helper) HelperProtocol_try_event;
  helper_fail_closed := HelperProtocol_shutdown
}.

(** * Runs over a recorded backend *)
Inductive HelperLog :=
| HL_Request (request : PrivilegedBridgeClientFrame)
| HL_Call
| HL_Response (response : PrivilegedBridgeServerFrame)
| HL_Poll
| HL_Event (frame : PrivilegedBridgeServerFrame)
| HL_FailClosed.

Definition record_call {W E A} (entry : HelperLog) (m : M W E A) : M (W * list HelperLog) E A :=
  λ wl, let '(r, w) := m wl.1 in (r, (w, wl.2 ++ [entry])).

#[export] Instance recorded_backend {W : Type} `{HelperBackend W}
    : HelperBackend (W * list HelperLog) := {
  backend_start c o n := record_call HL_Call (backend_start c o n);
  backend_restart c o n := record_call HL_Call (backend_restart c o n);
  backend_add_candidate c := record_call HL_Call (backend_add_candidate c);
  backend_input i := record_call HL_Call (backend_input i);
  backend_secure_attention := record_call HL_Call backend_secure_attention;
  backend_close := record_call HL_Call backend_close;
  backend_try_event := record_call HL_Poll backend_try_event;
  backend_fail_closed wl := (backend_fail_closed wl.1, wl.2 ++ [HL_FailClosed])
}.

Inductive HelperOp :=
| HpHandle (request : PrivilegedBridgeClientFrame)
| HpPoll
| HpShutdown.

Section runs.
Context {W : Type} `{HelperBackend W}.

Definition hp_log (entry : HelperLog) (s : HelperProtocol (W * list HelperLog))
    : HelperProtocol (W * list HelperLog) :=
  set_hp_backend ((hp_backend s).1, (hp_backend s).2 ++ [entry]) s.

Definition helper_exec (op : HelperOp) (s : HelperProtocol (W * list HelperLog))
    : HelperProtocol (W * list HelperLog) :=
  match op with
  | HpHandle request =>
      match HelperProtocol_handle request (hp_log (HL_Request request) s) with
      | (Ok response, s') => hp_log (HL_Response response) s'
      | (Err _, s') => s'
      end
  | HpPoll =>
      match HelperProtocol_try_event s with
      | (Ok (Some frame), s') => hp_log (HL_Event frame) s'
      | (_, s') => s'
      end
  | HpShutdown => HelperProtocol_shutdown s
  end.

Definition helper_run (ops : list HelperOp) (s : HelperProtocol (W * list HelperLog))
    : HelperProtocol (W * list HelperLog) := foldl (λ s op, helper_exec op s) s ops.
End runs.

(** * The helper's contract

    A specification that knows only the requests: a peer request installs its route when it is
    newer than the installed one; the backend is only called for a request that names the
    installed route; responses answer their request; events carry that route and the numbers
    1, 2, 3, ...; failing closed is final. *)
Record HelperSpec := {
  hs_route : option ProxyRoute;
  hs_request : option PrivilegedBridgeClientFrame;
  hs_event : Z;
  hs_dead : bool
}.

Definition installs (current : option ProxyRoute) (request : PrivilegedBridgeClientFrame)
    : option ProxyRoute :=
  match PrivilegedBridgeClientFrame_payload request with
  | Some (PrivilegedBridgeClientFrame_Payload_StartPeer _)
  | Some (PrivilegedBridgeClientFrame_Payload_RestartPeer _) =>
      match named_route request, current with
      | Ok route, None => Some route
      | Ok route, Some old =>
          if pr_generation old <? pr_generation route then Some route else current
      | Err _, _ => current
      end
  | _ => current
  end.

Definition helper_spec_step (sp : HelperSpec) (entry : HelperLog) : option HelperSpec :=
  match entry with
  | HL_Request request =>
      Some {| hs_route := if hs_dead sp then hs_route sp else installs (hs_route sp) request;
              hs_request := Some request; hs_event := hs_event sp; hs_dead := hs_dead sp |}
  | HL_Call =>
      guard (hs_dead sp = false);;
      request ← hs_request sp;
      route ← hs_route sp;
      guard (named_route request = Ok route);;
      Some sp
  | HL_Response response =>
      guard (hs_dead sp = false);;
      request ← hs_request sp;
      guard (PrivilegedBridgeServerFrame_request_id response =
             PrivilegedBridgeClientFrame_request_id request);;
      guard (PrivilegedBridgeServerFrame_sequence response =
             PrivilegedBridgeClientFrame_sequence request);;
      guard (response_route response = named_route request);;
      Some {| hs_route := if is_release request then None else hs_route sp;
              hs_request := None; hs_event := hs_event sp; hs_dead := false |}
  | HL_Poll => guard (hs_dead sp = false);; Some sp
  | HL_Event frame =>
      guard (hs_dead sp = false);;
      route ← hs_route sp;
      guard (response_route frame = Ok route);;
      guard (PrivilegedBridgeServerFrame_sequence frame = hs_event sp + 1);;
      Some {| hs_route := hs_route sp; hs_request := hs_request sp;
              hs_event := PrivilegedBridgeServerFrame_sequence frame; hs_dead := false |}
  | HL_FailClosed =>
      guard (hs_dead sp = false);;
      Some {| hs_route := None; hs_request := hs_request sp; hs_event := hs_event sp;
              hs_dead := true |}
  end.

Definition helper_spec_run (log : list HelperLog) : option HelperSpec :=
  foldl (λ o entry, o ≫= λ sp, helper_spec_step sp entry)
    (Some {| hs_route := None; hs_request := None; hs_event := 0; hs_dead := false |}) log.

(** * Lemmas *)

(** A route a frame can name: sixteen bytes and a nonzero generation. *)
Definition valid_route (route : ProxyRoute) : Prop :=
  len (pr_lease_id route) = 16 ∧ pr_generation route ≠ 0.

Lemma broker_parse_Ok id g route :
  broker_parse_route id g = Ok route ↔ valid_route route ∧ route = ProxyRoute_new id g.
Proof.
  unfold broker_parse_route, valid_route. unmonad. destruct (array_of 16 id) as [x|] eqn:Hx.
  - apply array_of_Some in Hx as [-> Hl]. destruct (g =? 0) eqn:Hg; boolsimpl; simpl; naive_solver.
  - apply array_of_None in Hx. naive_solver.
Qed.

Lemma helper_parse_Ok id g route :
  helper_parse_route id g = Ok route ↔ valid_route route ∧ route = ProxyRoute_new id g.
Proof.
  rewrite <- broker_parse_Ok. unfold helper_parse_route, broker_parse_route. unmonad.
  destruct (array_of 16 id); [|done]. destruct (g =? 0); naive_solver.
Qed.

Lemma gate_authorize_Ok g id n :
  HelperLeaseGate_authorize g id n = Ok () ↔ hg_route g = Some (ProxyRoute_new id n).
Proof.
  unfold HelperLeaseGate_authorize. destruct (hg_route g) as [[i k]|]; simpl; [|done].
  destruct (bool_decide (i = id) && (k =? n)) eqn:Hb; boolsimpl; simpl; split;
    try done; intros; simplify_eq; unfold ProxyRoute_new in *; simplify_eq; done.
Qed.

Lemma event_frame_route route n event :
  valid_route route → response_route (event_frame route n event) = Ok route.
Proof.
  intros Hv. destruct route as [id g].
  destruct event; unfold response_route, event_frame, state_event; simpl;
    by apply broker_parse_Ok.
Qed.

Lemma accepted_route request route :
  valid_route route → response_route (accepted_response request route) = Ok route.
Proof. intros Hv. destruct route. by apply broker_parse_Ok. Qed.

Lemma answer_route request route answer :
  valid_route route → response_route (answer_response request route answer) = Ok route.
Proof. intros Hv. destruct route. by apply broker_parse_Ok. Qed.

Section contract.
Context {W : Type} `{HelperBackend W}.

Implicit Types s : HelperProtocol (W * list HelperLog).

(** The specification state describes the helper. *)
Record hp_tracks (sp : HelperSpec) s : Prop := {
  ht_route : hs_route sp = hg_route (hp_gate s);
  ht_event : hs_event sp + 1 = hp_next_event_sequence s;
  ht_dead : hs_dead sp = hp_failed s;
  ht_valid route : hg_route (hp_gate s) = Some route → valid_route route;
  ht_closed : hp_failed s = true → hg_route (hp_gate s) = None
}.

Definition hp_accepted s : Prop :=
  ∃ sp, helper_spec_run (hp_backend s).2 = Some sp ∧ hp_tracks sp s.

Lemma helper_spec_snoc log entry sp sp' :
  helper_spec_run log = Some sp → helper_spec_step sp entry = Some sp' →
  helper_spec_run (log ++ [entry]) = Some sp'.
Proof. unfold helper_spec_run. rewrite foldl_app. simpl. by intros ->. Qed.

Lemma on_backend_inv {A} entry (m : M W HelperProtocolError A) s r s' :
  on_backend (record_call entry m) s = (r, s') →
  ∃ w, s' = set_hp_backend (w, (hp_backend s).2 ++ [entry]) s.
Proof.
  unfold on_backend, record_call. unmonad. destruct (m (hp_backend s).1). intros. simplify_eq. eauto.
Qed.

Lemma fail_closed_accepted s : hp_accepted s → hp_accepted (HelperProtocol_fail_closed s).
Proof.
  intros (sp&Hrun&Htr). unfold HelperProtocol_fail_closed.
  destruct (hp_failed s) eqn:Hf; [by exists sp|]. destruct Htr.
  eexists. split.
  - eapply helper_spec_snoc; [exact Hrun|]. simpl. rewrite ht_dead0, Hf. by case_guard.
  - by split.
Qed.

(** [attach_or_authorize] does what [installs] says. *)
Lemma attach_inv route s r s' :
  HelperProtocol_attach_or_authorize route s = (r, s') → valid_route route →
  (∀ old, hg_route (hp_gate s) = Some old → valid_route old) →
  s' = set_hp_gate {| hg_route := match hg_route (hp_gate s) with
        | None => Some route
        | Some old => if pr_generation old <? pr_generation route then Some route else Some old
        end |} s ∧
  (r = Ok () → hg_route (hp_gate s') = Some route) ∧ (r = Ok () ∨ r = Err HP_StaleRoute).
Proof.
  intros Hr [_ Hg] _. destruct s as [[g] w n f].
  unfold HelperProtocol_attach_or_authorize, HelperLeaseGate_attach in Hr. unmonad.
  destruct g as [old|]; simpl in *.
  - case_bool_decide as He; simplify_eq/=.
    { rewrite Z.ltb_irrefl. split_and!; auto. }
    rewrite (proj2 (Z.eqb_neq _ _) Hg) in Hr. simpl in Hr.
    destruct (pr_generation route <=? pr_generation old) eqn:Hle; boolsimpl; simplify_eq/=.
    + rewrite (proj2 (Z.ltb_ge _ _) Hle). split_and!; [done|done|by auto].
    + rewrite (proj2 (Z.ltb_lt _ _) Hle). split_and!; [done|done|by auto].
  - rewrite (proj2 (Z.eqb_neq _ _) Hg) in Hr. simplify_eq/=. split_and!; auto.
Qed.

Lemma authorize_inv_hp id g s r s' :
  HelperProtocol_authorize id g s = (r, s') →
  s' = s ∧ (∀ route, r = Ok route → valid_route route ∧ route = ProxyRoute_new id g ∧
              hg_route (hp_gate s) = Some route).
Proof.
  unfold HelperProtocol_authorize. intros Hr. unmonad.
  destruct (helper_parse_route id g) as [rt|e] eqn:Hp; simplify_eq; [|done].
  apply helper_parse_Ok in Hp as [Hv ->]. simpl in Hr.
  destruct (HelperLeaseGate_authorize _ _ _) as [[]|e] eqn:Ha; simplify_eq/=; [|done].
  apply gate_authorize_Ok in Ha. split; [done|]. by intros ? [= <-].
Qed.

(** The state in which a request is handled, and what handling it must establish. *)
Record handling (request : PrivilegedBridgeClientFrame) (sp : HelperSpec)
    (log : list HelperLog) s : Prop := {
  hh_run : helper_spec_run log = Some sp;
  hh_log : (hp_backend s).2 = log;
  hh_request : hs_request sp = Some request;
  hh_tracks : hp_tracks sp s;
  hh_live : hp_failed s = false
}.

Definition handled (request : PrivilegedBridgeClientFrame)
    (r : result HelperProtocolError PrivilegedBridgeServerFrame) s : Prop :=
  match r with
  | Ok response => hp_accepted (hp_log (HL_Response response) s)
  | Err _ => hp_accepted s
  end.

Lemma handling_call request sp log s route w :
  handling request sp log s → named_route request = Ok route →
  hg_route (hp_gate s) = Some route →
  handling request sp (log ++ [HL_Call]) (set_hp_backend (w, (hp_backend s).2 ++ [HL_Call]) s).
Proof.
  intros [Hrun Hlog Hreq Htr Hlive] Hn Hg. split; try done.
  - eapply helper_spec_snoc; [done|]. simpl. rewrite (ht_dead _ _ Htr), Hlive, Hreq.
    rewrite (ht_route _ _ Htr), Hg. simpl. by repeat case_guard.
  - simpl. by rewrite Hlog.
  - by destruct Htr; split.
Qed.

Lemma handling_accepted request sp log s : handling request sp log s → hp_accepted s.
Proof. intros []. exists sp. by subst. Qed.

(** Answering a request that names the installed route; a release gives the route up. *)
Lemma handling_answer request sp log s route response :
  handling request sp log s → named_route request = Ok route → response_route response = Ok route →
  PrivilegedBridgeServerFrame_request_id response = PrivilegedBridgeClientFrame_request_id request →
  PrivilegedBridgeServerFrame_sequence response = PrivilegedBridgeClientFrame_sequence request →
  handled request (Ok response)
    (if is_release request then set_hp_gate (HelperLeaseGate_release (hp_gate s)).2 s else s).
Proof.
  intros [Hrun Hlog Hreq Htr Hlive] Hn Hresp Hid Hseq. simpl. destruct Htr as [Hroute Hev Hd Hv Hc].
  eexists. split.
  - replace (hp_backend (hp_log _ _)).2 with (log ++ [HL_Response response])
      by (subst log; by destruct (is_release request)).
    eapply helper_spec_snoc; [done|]. simpl. rewrite Hd, Hlive, Hreq. simpl.
    by rewrite Hn, Hresp; repeat case_guard.
  - destruct (is_release request) eqn:Hrel; split; done.
Qed.

(** The commands other than the peer requests: authorize, call the backend, accept. *)
Lemma authorized_call request id g sp log s r1 s1 :
  handling request sp log s → named_route request = broker_parse_route id g →
  HelperProtocol_authorize id g s = (r1, s1) →
  s1 = s ∧ ∀ route, r1 = Ok route →
    ∀ A (m : M W HelperProtocolError A) r2 s2, on_backend (record_call HL_Call m) s = (r2, s2) →
      hp_accepted s2 ∧
      handled request (Ok (accepted_response request route))
        (if is_release request then set_hp_gate (HelperLeaseGate_release (hp_gate s2)).2 s2 else s2).
Proof.
  intros Hh Hn Ha. apply authorize_inv_hp in Ha as [-> Ha]. split; [done|].
  intros route ->. destruct (Ha route eq_refl) as (Hv&Hrt&Hg). intros A m r2 s2 Hm.
  assert (named_route request = Ok route) as Hnr by (rewrite Hn; by apply broker_parse_Ok).
  apply on_backend_inv in Hm as [w ->].
  pose proof (handling_call _ _ _ _ _ w Hh Hnr Hg) as Hc. split; [by eapply handling_accepted|].
  eapply handling_answer; [exact Hc|exact Hnr|by apply accepted_route|done|done].
Qed.

Lemma on_backend_split {A B} (m : M (W * list HelperLog) HelperProtocolError A)
    (k : A → M (HelperProtocol (W * list HelperLog)) HelperProtocolError B) s r s' :
  (x ← on_backend m; k x) s = (r, s') →
  ∃ r1 s1, on_backend m s = (r1, s1) ∧
    match r1 with Ok x => k x s1 = (r, s') | Err e => r = Err e ∧ s' = s1 end.
Proof.
  unfold mbind at 1, M_bind at 1. destruct (on_backend m s) as [r1 s1]. intros Hr.
  exists r1, s1. split; [done|]. destruct r1; [done|]. by simplify_eq.
Qed.

(** A peer request after its route is installed. *)
Lemma peer_call request sp log s route configuration offer
    (call : PrivilegedPeerConfiguration → WebRtcSessionDescription →
            M W HelperProtocolError PeerAnswer) r s' :
  handling request sp log s → named_route request = Ok route → valid_route route →
  hg_route (hp_gate s) = Some route → is_release request = false →
  (configuration ← ok_or configuration HP_InvalidMessage;
   offer ← ok_or offer HP_InvalidMessage;
   answer ← on_backend (record_call HL_Call (call configuration offer));
   mret (answer_response request route answer)) s = (r, s') →
  handled request r s'.
Proof.
  intros Hh Hn Hv Hg Hrel Hr.
  destruct configuration as [c|]; [|unmonad; simplify_eq; by eapply handling_accepted].
  destruct offer as [o|]; [|unmonad; simplify_eq; by eapply handling_accepted].
  rewrite !bind_some in Hr.
  apply on_backend_split in Hr as (r1&s1&Hm&Hr). apply on_backend_inv in Hm as [w ->].
  pose proof (handling_call _ _ _ _ _ w Hh Hn Hg) as Hc.
  destruct r1 as [answer|e].
  - unmonad. simplify_eq. pose proof (handling_answer _ _ _ _ _ (answer_response request route answer)
      Hc Hn (answer_route _ _ _ Hv) eq_refl eq_refl) as Ha. by rewrite Hrel in Ha.
  - destruct Hr as [-> ->]. by eapply handling_accepted.
Qed.

(** Logging the request, with the gate updated as the request asks. *)
Lemma request_logged request s g :
  hp_accepted s → hp_failed s = false → hg_route g = installs (hg_route (hp_gate s)) request →
  (∀ route, hg_route g = Some route → valid_route route) →
  ∃ sp log, handling request sp log (set_hp_gate g (hp_log (HL_Request request) s)).
Proof.
  intros (sp&Hrun&[Hrt Hev Hd Hv Hc]) Hlive Hg Hvg.
  eexists _, ((hp_backend s).2 ++ [HL_Request request]). split; [|done| | |done].
  - eapply helper_spec_snoc; [exact Hrun|done].
  - done.
  - split; simpl; [|done|done|done|by rewrite Hlive]. by rewrite Hd, Hlive, Hrt.
Qed.

Lemma request_unchanged request s :
  hp_accepted s → hp_failed s = false → installs (hg_route (hp_gate s)) request = hg_route (hp_gate s) →
  ∃ sp log, handling request sp log (hp_log (HL_Request request) s).
Proof.
  intros Ha Hlive Hi. pose proof Ha as (sp&_&[]).
  assert (set_hp_gate (hp_gate s) (hp_log (HL_Request request) s) = hp_log (HL_Request request) s)
    as <- by (by destruct s).
  by apply request_logged.
Qed.

Definition is_peer_request (request : PrivilegedBridgeClientFrame) : bool :=
  match PrivilegedBridgeClientFrame_payload request with
  | Some (PrivilegedBridgeClientFrame_Payload_StartPeer _)
  | Some (PrivilegedBridgeClientFrame_Payload_RestartPeer _) => true
  | _ => false
  end.

Lemma installs_peer current request route :
  is_peer_request request = true → named_route request = Ok route →
  installs current request = match current with
    | None => Some route
    | Some old => if pr_generation old <? pr_generation route then Some route else Some old
    end.
Proof.
  unfold is_peer_request, installs. intros Hp ->.
  destruct (PrivilegedBridgeClientFrame_payload request) as [[]|]; try done;
    by destruct current as [old|]; [destruct (_ <? _)|].
Qed.

Lemma installs_unnamed current request e :
  named_route request = Err e → installs current request = current.
Proof.
  unfold installs. intros ->. destruct (PrivilegedBridgeClientFrame_payload request) as [[]|];
    try done; by destruct current.
Qed.

Lemma installs_other current request :
  is_peer_request request = false → installs current request = current.
Proof.
  unfold is_peer_request, installs.
  by destruct (PrivilegedBridgeClientFrame_payload request) as [[]|].
Qed.

Lemma attach_handling request route s r s1 :
  hp_accepted s → hp_failed s = false → is_peer_request request = true →
  named_route request = Ok route → valid_route route →
  HelperProtocol_attach_or_authorize route (hp_log (HL_Request request) s) = (r, s1) →
  (∃ sp log, handling request sp log s1) ∧ (r = Ok () → hg_route (hp_gate s1) = Some route).
Proof.
  intros Ha Hlive Hp Hn Hv Hr. pose proof Ha as (sp&_&[_ _ _ Hvg _]).
  apply attach_inv in Hr as (->&Hok&_); [|done..]. split; [|done].
  apply request_logged; [done|done| |].
  - by rewrite (installs_peer _ _ route).
  - simpl. destruct (hg_route (hp_gate s)) as [old|] eqn:Hold; [destruct (_ <? _)|];
      intros ? [= <-]; eauto.
Qed.

(** A peer request: install or confirm the route, call the backend, answer. *)
Lemma peer_handled request id g configuration offer
    (call : PrivilegedPeerConfiguration → WebRtcSessionDescription →
            M W HelperProtocolError PeerAnswer) s r s' :
  hp_accepted s → hp_failed s = false → is_peer_request request = true →
  named_route request = broker_parse_route id g →
  (route ← lift (helper_parse_route id g);
   HelperProtocol_attach_or_authorize route;;
   configuration ← ok_or configuration HP_InvalidMessage;
   offer ← ok_or offer HP_InvalidMessage;
   answer ← on_backend (record_call HL_Call (call configuration offer));
   mret (answer_response request route answer)) (hp_log (HL_Request request) s) = (r, s') →
  handled request r s'.
Proof.
  intros Ha Hlive Hp Hn Hr. unfold mbind at 1, M_bind at 1, lift in Hr.
  destruct (helper_parse_route id g) as [route|e] eqn:Hparse.
  - apply helper_parse_Ok in Hparse as [Hv Hrt].
    assert (named_route request = Ok route) as Hnr by (rewrite Hn; by apply broker_parse_Ok).
    unfold mbind at 1, M_bind at 1 in Hr.
    destruct (HelperProtocol_attach_or_authorize _ _) as [r1 s1] eqn:Hat in Hr.
    apply attach_handling in Hat as [(sp&log&Hh) Hok]; [|done..].
    destruct r1 as [[]|e]; [|simplify_eq; by eapply handling_accepted].
    eapply peer_call; [exact Hh|exact Hnr|done|auto| |exact Hr].
    unfold is_peer_request in Hp. unfold is_release. by repeat case_match.
  - simplify_eq. destruct (request_unchanged request s) as (sp&log&Hh); [done|done| |].
    + destruct (broker_parse_route id g) as [route|e'] eqn:Hb; [|by eapply installs_unnamed].
      apply broker_parse_Ok in Hb. by rewrite (proj2 (helper_parse_Ok _ _ _) Hb) in Hparse.
    + by eapply handling_accepted.
Qed.

Lemma handle_inner_accepted request s r s' :
  hp_accepted s → hp_failed s = false →
  HelperProtocol_handle_inner request (hp_log (HL_Request request) s) = (r, s') →
  handled request r s'.
Proof.
  intros Ha Hlive Hr.
  unfold HelperProtocol_handle_inner in Hr.
  destruct (PrivilegedBridgeClientFrame_payload request) as [payload|] eqn:Hpay.
  2: { unmonad. simplify_eq. destruct (request_unchanged request s) as (sp&log&Hh); [done|done| |].
       - apply installs_other. unfold is_peer_request. by rewrite Hpay.
       - by eapply handling_accepted. }
  rewrite bind_some in Hr. destruct (is_peer_request request) eqn:Hp.
  { unfold is_peer_request in Hp. rewrite Hpay in Hp. destruct payload; try done.
    - refine (peer_handled request _ _ _ _ (λ c o, @backend_start W _ c o _) s r s' Ha Hlive _ _ Hr);
        unfold is_peer_request, named_route, request_route; by rewrite Hpay.
    - refine (peer_handled request _ _ _ _ (λ c o, @backend_restart W _ c o _) s r s' Ha Hlive _ _ Hr);
        unfold is_peer_request, named_route, request_route; by rewrite Hpay. }
  destruct (request_unchanged request s) as (sp&log&Hh); [done|done|by apply installs_other|].
  assert (∀ id g k, named_route request = broker_parse_route id g →
    (route ← HelperProtocol_authorize id g; k route) (hp_log (HL_Request request) s) = (r, s') →
    (∀ route, (∀ A (m : M W HelperProtocolError A) r2 s2,
         on_backend (record_call HL_Call m) (hp_log (HL_Request request) s) = (r2, s2) →
         hp_accepted s2 ∧ handled request (Ok (accepted_response request route))
           (if is_release request then set_hp_gate (HelperLeaseGate_release (hp_gate s2)).2 s2
            else s2)) →
       k route (hp_log (HL_Request request) s) = (r, s') → handled request r s') →
    handled request r s') as Hcmd.
  { intros id g k Hn Hc Hk. rewrite bind_run in Hc.
    destruct (HelperProtocol_authorize _ _ _) as [r1 s1] eqn:Hau in Hc.
    eapply authorized_call in Hau as [-> Hau]; [|done..].
    destruct r1 as [route|e]; [|simplify_eq; by eapply handling_accepted]. eauto. }
  unfold is_peer_request in Hp. rewrite Hpay in Hp.
  destruct payload; try done; try (unmonad; simplify_eq; by eapply handling_accepted);
    (eapply Hcmd; [|exact Hr|]; [unfold named_route, request_route; by rewrite Hpay|]);
    intros route Hau Hk; unfold is_release in Hau; rewrite Hpay in Hau;
    try match type of Hk with
    | context [ok_or ?o _] => destruct o; [rewrite bind_some in Hk|]; last
        (rewrite bind_none in Hk; simplify_eq; by eapply handling_accepted)
    end;
    apply on_backend_split in Hk as (r2&s2&Hm&Hk); destruct (Hau _ _ _ _ Hm) as [Hacc Hdone];
    (destruct r2; [|by destruct Hk as [-> ->]]); unmonad; by simplify_eq.
Qed.

Lemma helper_exec_accepted op s : hp_accepted s → hp_accepted (helper_exec op s).
Proof.
  intros Ha. destruct op as [request| |]; simpl.
  - destruct (HelperProtocol_handle request _) as [r s'] eqn:Hr.
    unfold HelperProtocol_handle in Hr. rewrite bind_get, bind_fail_if in Hr. simpl in Hr.
    destruct (hp_failed s) eqn:Hf.
    { simplify_eq. destruct Ha as (sp&Hrun&[]). eexists. split.
      - eapply helper_spec_snoc; [exact Hrun|done].
      - split; simpl; try done. by rewrite ht_dead0, Hf. }
    rewrite bind_run in Hr. unfold try in Hr.
    destruct (HelperProtocol_handle_inner request _) as [ri s1] eqn:Hi.
    apply handle_inner_accepted in Hi; [|done..].
    unmonad. case_bool_decide as Hb; simplify_eq/=.
    + by apply fail_closed_accepted.
    + by destruct r.
  - destruct (HelperProtocol_try_event s) as [r s'] eqn:Hr.
    unfold HelperProtocol_try_event in Hr. rewrite bind_get, bind_fail_if in Hr.
    destruct (hp_failed s) eqn:Hf; [by simplify_eq|].
    rewrite bind_run in Hr. unfold try in Hr.
    destruct (on_backend backend_try_event s) as [re s1] eqn:He.
    apply on_backend_inv in He as [w ->]. destruct Ha as (sp&Hrun&Htr).
    assert (helper_spec_run ((hp_backend s).2 ++ [HL_Poll]) = Some sp) as Hrun1.
    { eapply helper_spec_snoc; [exact Hrun|]. simpl. rewrite (ht_dead _ _ Htr), Hf. by case_guard. }
    set (s1 := set_hp_backend (w, (hp_backend s).2 ++ [HL_Poll]) s) in *.
    assert (hp_tracks sp s1) as Htr1 by (by destruct Htr; split).
    assert (hp_accepted s1) as Ha1 by (by exists sp).
    destruct re as [[event|]|e].
    + destruct (hg_route (hp_gate s)) as [route|] eqn:Hg; [|unmonad; by simplify_eq].
      unmonad. destruct (hp_next_event_sequence s + 1 <=? U64_MAX) eqn:Hmax; simplify_eq/=; [|done].
      destruct Htr as [Hrt Hev Hd Hv Hc]. eexists. split.
      * eapply helper_spec_snoc; [exact Hrun1|]. simpl. rewrite Hd, Hf, Hrt, Hg. simpl.
        rewrite event_frame_route by auto. rewrite Hev. by repeat case_guard.
      * split; simpl; [by rewrite Hg|done|done|done|done].
    + unmonad. by simplify_eq.
    + unmonad. simplify_eq. by apply fail_closed_accepted.
  - by apply fail_closed_accepted.
Qed.

Lemma helper_run_accepted ops s : hp_accepted s → hp_accepted (helper_run ops s).
Proof.
  unfold helper_run. revert s. induction ops as [|op ops IH]; intros s Hs; simpl; [done|].
  apply IH. by apply helper_exec_accepted.
Qed.
End contract.

(** ** Answers *)

Section answers.
Context {W : Type} `{HelperBackend W}.

(** An answer carries its request's identifier and sequence and the route it named. *)
Definition answers (request : PrivilegedBridgeClientFrame) (f : PrivilegedBridgeServerFrame) : Prop :=
  PrivilegedBridgeServerFrame_request_id f = PrivilegedBridgeClientFrame_request_id request ∧
  PrivilegedBridgeServerFrame_sequence f = PrivilegedBridgeClientFrame_sequence request ∧
  response_route f = named_route request.

Lemma parsed_answers request id g route (f : PrivilegedBridgeServerFrame) :
  named_route request = broker_parse_route id g → helper_parse_route id g = Ok route →
  (f = accepted_response request route ∨ ∃ a, f = answer_response request route a) →
  answers request f.
Proof.
  intros Hn [Hv ->]%helper_parse_Ok Hf. unfold answers. rewrite Hn.
  rewrite (proj2 (broker_parse_Ok id g _) (conj Hv eq_refl)).
  destruct Hf as [->|[a ->]]; split_and!; try done.
  - by apply accepted_route.
  - by apply answer_route.
Qed.

Lemma authorized_answers request id g (s : HelperProtocol W) route s1 :
  named_route request = broker_parse_route id g →
  HelperProtocol_authorize id g s = (Ok route, s1) → answers request (accepted_response request route).
Proof.
  unfold HelperProtocol_authorize. intros Hn Hr. rewrite bind_lift in Hr.
  destruct (helper_parse_route id g) as [rt|e] eqn:Hp; [|done].
  eapply parsed_answers; [exact Hn|exact Hp|]. left.
  unmonad. by repeat (case_match; simplify_eq/=).
Qed.

Lemma handle_answers request (s : HelperProtocol W) f s' :
  HelperProtocol_handle request s = (Ok f, s') → answers request f.
Proof.
  unfold HelperProtocol_handle. rewrite bind_get, bind_fail_if. destruct (hp_failed s); [done|].
  rewrite bind_run. unfold try.
  destruct (HelperProtocol_handle_inner request s) as [ri s1] eqn:Hi. intros Hr.
  assert (HelperProtocol_handle_inner request s = (Ok f, s1)) as Hok.
  { unmonad. case_bool_decide; by simplify_eq/=. }
  clear Hi Hr. unfold HelperProtocol_handle_inner in Hok.
  destruct (PrivilegedBridgeClientFrame_payload request) as [payload|] eqn:Hpay; [|done].
  rewrite bind_some in Hok.
  destruct payload; try done; apply M_bind_Ok in Hok as (route&s2&Hp&Hok);
    repeat (apply M_bind_Ok in Hok as (?&?&_&Hok)); unfold mret, M_ret in Hok; simplify_eq;
    first [eapply authorized_answers; [|exact Hp]
          |unfold lift in Hp; simplify_eq; eapply parsed_answers; [|eassumption|by eauto]];
    unfold named_route, request_route; by rewrite Hpay.
Qed.

(** The broker never takes such a helper's answer for a stale one. *)
Lemma forward_not_stale {Ids : Type} `{LeaseIdSource Ids} request route
    (s : HostBrokerSession Ids (HelperProtocol W)) r s' :
  named_route request = Ok route →
  HostBrokerSession_forward request route s = (r, s') → r ≠ Err BE_StaleResponse.
Proof.
  intros Hn. unfold HostBrokerSession_forward, helper_call. rewrite bind_run. unfold zoom. simpl.
  unfold map_err_m. destruct (HelperProtocol_handle request (hb_helper s)) as [[f|e] w] eqn:Hh.
  - apply handle_answers in Hh as (Hid&Hseq&Hroute). simpl.
    rewrite bool_decide_eq_true_2, Hseq, Z.eqb_refl by done. simpl.
    rewrite bind_lift, Hroute, Hn, bool_decide_eq_true_2 by done. simpl.
    unfold mret, M_ret. congruence.
  - simpl. congruence.
Qed.

Lemma broker_call_not_stale {Ids E A : Type} `{LeaseIdSource Ids} (m : M (BrokerCore Ids) E A)
    (s : HostBrokerSession Ids (HelperProtocol W)) e s' :
  broker_call m s = (Err e, s') → e = BE_Lease.
Proof. unfold broker_call. unmonad. by destruct (m (hb_broker s)) as [[]]; intros; simplify_eq. Qed.

Lemma forward_authorized_not_stale {Ids : Type} `{LeaseIdSource Ids} request now
    (s : HostBrokerSession Ids (HelperProtocol W)) r s' :
  is_release request = false →
  HostBrokerSession_forward_authorized request now s = (r, s') → r ≠ Err BE_StaleResponse.
Proof.
  intros Hrel [(e&ls&n&->&Hne&_)|(l&_&Hroute&_&_&_&Hf)]%forward_authorized_inv; [congruence|].
  eapply forward_not_stale; [|exact Hf].
  unfold named_route. unfold is_release in Hrel. by destruct (PrivilegedBridgeClientFrame_payload _) as [[]|].
Qed.

Lemma call_not_stale {Ids E A : Type} `{LeaseIdSource Ids} (m : M (BrokerCore Ids) E A)
    (k : A → M (HostBrokerSession Ids (HelperProtocol W)) BrokerProtocolError
                PrivilegedBridgeServerFrame) s r s' :
  (∀ x s, (k x s).1 ≠ Err BE_StaleResponse) → (broker_call m ≫= k) s = (r, s') →
  r ≠ Err BE_StaleResponse.
Proof.
  intros Hk Hb. rewrite bind_run in Hb.
  destruct (broker_call m s) as [[x|e] s2] eqn:Hm.
  - specialize (Hk x s2). by rewrite Hb in Hk.
  - apply broker_call_not_stale in Hm as ->. congruence.
Qed.

Lemma handle_not_stale {Ids : Type} `{LeaseIdSource Ids} request now
    (s : HostBrokerSession Ids (HelperProtocol W)) r s' :
  HostBrokerSession_handle request now s = (r, s') → r ≠ Err BE_StaleResponse.
Proof.
  unfold HostBrokerSession_handle. intros Hr.
  destruct (PrivilegedBridgeClientFrame_payload request) as [payload|] eqn:Hpay;
    [|rewrite bind_none in Hr; congruence].
  rewrite bind_some, bind_get in Hr.
  destruct payload; rewrite ?bind_fail_if, ?bind_lift in Hr;
    try (eapply forward_authorized_not_stale; [|exact Hr]; unfold is_release; by rewrite Hpay);
    try (by unmonad; simplify_eq).
  - unfold HostBrokerSession_acquire in Hr. destruct (array_of _ _).
    2: { rewrite bind_none in Hr. congruence. }
    rewrite bind_some in Hr. eapply call_not_stale; [|exact Hr]. clear Hr. intros lease s0. simpl.
    destruct (broker_call (BrokerCore_begin_control (lease_generation lease)) s0)
      as [[x|e] s2] eqn:Hm.
    + by rewrite bind_run, Hm.
    + rewrite bind_run, Hm. apply broker_call_not_stale in Hm as ->. simpl. congruence.
  - destruct (broker_parse_route _ _) as [route|e] eqn:Hp.
    2: { apply parse_route_Err in Hp as ->. congruence. }
    eapply call_not_stale; [|exact Hr]. done.
  - destruct (broker_parse_route _ _) as [route|e] eqn:Hp.
    2: { apply parse_route_Err in Hp as ->. congruence. }
    rewrite bind_run in Hr. destruct (HostBrokerSession_forward _ _ _) as [[f|e] s1] eqn:Hf.
    + eapply call_not_stale; [|exact Hr]. done.
    + apply forward_not_stale in Hf; [simplify_eq; congruence|]. unfold named_route.
      by rewrite Hpay.
  - destruct (_ || _); [congruence|].
    eapply forward_authorized_not_stale; [|exact Hr]; unfold is_release; by rewrite Hpay.
  - destruct (negb _); [congruence|].
    eapply forward_authorized_not_stale; [|exact Hr]; unfold is_release; by rewrite Hpay.
Qed.
End answers.

(** * Properties *)

(** C19. Refinement: whatever the native backend does, a session helper keeps its contract in
    every run of requests, polls and shutdowns: the backend is only asked for a request that
    names the installed route, a route is only installed by a peer request with a newer
    generation, every answer carries its request's identifier, sequence and route, events
    carry the installed route and the numbers 1, 2, 3, ..., and after failing closed, which
    happens once, the backend is not asked again. *)
Theorem helper_refines_contract {W : Type} `{HelperBackend W} (w : W) (ops : list HelperOp) :
  let s := helper_run ops (HelperProtocol_new (w, [])) in
  ∃ sp, helper_spec_run (hp_backend s).2 = Some sp ∧ hp_tracks sp s.
Proof. apply (helper_run_accepted ops). eexists. split; [done|]. by split. Qed.

(** Broker and helper agree: with a session helper behind it, the broker never rejects an
    answer as stale, whatever the request, the lease, the clock and the backend, so it never
    closes a helper that answers. *)
Theorem broker_helper_compatible {Ids W : Type} `{LeaseIdSource Ids, HelperBackend W}
    (request : PrivilegedBridgeClientFrame) (now : Z)
    (s : HostBrokerSession Ids (HelperProtocol W)) :
  (HostBrokerSession_handle request now s).1 ≠ Err BE_StaleResponse.
Proof.
  destruct (HostBrokerSession_handle request now s) as [r s'] eqn:Hr.
  by eapply handle_not_stale.
Qed.

(** Releasing the gate forgets the generation: the released route can be installed again. *)
Lemma gate_reattaches route :
  valid_route route →
  let g := (HelperLeaseGate_attach route HelperLeaseGate_new).2 in
  hg_route g = Some route ∧
  (HelperLeaseGate_attach route g).1 = Err HE_StaleRoute ∧
  (HelperLeaseGate_attach route (HelperLeaseGate_release g).2).1 = Ok ().
Proof.
  intros [_ Hg]. unfold HelperLeaseGate_attach. unmonad.
  rewrite (proj2 (Z.eqb_neq _ _) Hg). simpl. by rewrite Z.leb_refl.
Qed.
