(* ===== verification/Rpc.v ===== *)
(** The framed request/response transport of the bridge, crates/privileged-bridge/src/rpc.rs
    over transport.rs.

    [FramedBridgeRpc_call] waits for the response to its request and queues the events that
    arrive meanwhile; the wait is a loop on the inbound frames, bounded by fuel, and
    [FiniteInbound] states that the peer sends finitely many frames before it answers or the
    receive times out, which is what makes a fuel sufficient. *)
From S2P Require Import Prelude Limits Messages Validation BridgeQueue Lease Webrtc Proxy Broker.

Local Open Scope Z_scope.

(** * The transport *)

Record TransportPeerIdentity := {
  tp_process_id : Z;
  tp_os_session_id : Z;
  tp_unix_uid : option Z;
  tp_executable_sha256 : bytes
}.

Inductive TransportError := TE_Disconnected | TE_PeerRejected | TE_FailedClosed.

#[export] Instance TransportError_eq_dec : EqDecision TransportError.
Proof. solve_decision. Defined.

Class LocalBridgeTransport (T : Type) := {
  transport_send : bytes → M T TransportError unit;
  transport_receive : M T TransportError bytes;
  transport_try_receive : M T TransportError (option bytes);
  transport_peer_identity : T → option TransportPeerIdentity;
  transport_fail_closed : T → T
}.

(** The peer's outstanding frames, as a measure. *)
Class FiniteInbound (T : Type) `{LocalBridgeTransport T} := {
  remaining : T → nat;
  receive_decreases t frame t' :
    transport_receive t = (Ok frame, t') → (remaining t' < remaining t)%nat
}.

(** The interface the client sees ([BridgeRpc] of client.rs). *)
Class BridgeRpc (R : Type) := {
  rpc_call : PrivilegedBridgeClientFrame → M R ProxyError PrivilegedBridgeServerFrame;
  rpc_try_event : M R ProxyError (option PrivilegedBridgeServerFrame);
  rpc_fail_closed : R → R
}.

Definition map_transport_error (_ : TransportError) : ProxyError := PE_Transport.

(** * State *)

Record FramedBridgeRpc {T : Type} := {
  fr_transport : T;
  fr_events : EventQueue PrivilegedBridgeServerFrame;
  fr_failed : bool
}.
Arguments FramedBridgeRpc : clear implicits.

Section rpc.
Context {T : Type} `{LocalBridgeTransport T}
  `{Message PrivilegedBridgeClientFrame, Message PrivilegedBridgeServerFrame}.

Abbreviation R A := (M (FramedBridgeRpc T) ProxyError A).

Definition set_fr_transport (t : T) (s : FramedBridgeRpc T) : FramedBridgeRpc T :=
  {| fr_transport := t; fr_events := fr_events s; fr_failed := fr_failed s |}.

Definition set_fr_events (q : EventQueue PrivilegedBridgeServerFrame) (s : FramedBridgeRpc T) : FramedBridgeRpc T :=
  {| fr_transport := fr_transport s; fr_events := q; fr_failed := fr_failed s |}.

Definition FramedBridgeRpc_new (transport : T) : FramedBridgeRpc T :=
  {| fr_transport := transport; fr_events := EventQueue_new; fr_failed := false |}.

Definition FramedBridgeRpc_decode (encoded : bytes) : result ProxyError PrivilegedBridgeServerFrame :=
  map_err (λ _, PE_InvalidMessage) (decode_and_validate_privileged_bridge_server_frame encoded).

Definition FramedBridgeRpc_fail_closed (s : FramedBridgeRpc T) : FramedBridgeRpc T :=
  if fr_failed s then s else
  {| fr_transport := transport_fail_closed (fr_transport s); fr_events := fr_events s;
     fr_failed := true |}.

Definition on_transport {A} (m : M T TransportError A) : R A :=
  map_err_m map_transport_error (zoom fr_transport set_fr_transport m).

Definition on_events {A} (m : M (EventQueue PrivilegedBridgeServerFrame) EventQueueError A) : R A :=
  map_err_m (λ _, PE_FailedClosed) (zoom fr_events set_fr_events m).

(** An event is queued; anything else is handed back. *)
Definition FramedBridgeRpc_enqueue_event (frame : PrivilegedBridgeServerFrame)
    : R (option PrivilegedBridgeServerFrame) :=
  match PrivilegedBridgeServerFrame_payload frame with
  | None => mthrow PE_InvalidMessage
  | Some (PrivilegedBridgeServerFrame_Payload_FastPointer _) =>
      on_events (EventQueue_push_fast frame);; mret None
  | Some (PrivilegedBridgeServerFrame_Payload_LocalIceCandidate _)
  | Some (PrivilegedBridgeServerFrame_Payload_PeerStateChanged _)
  | Some (PrivilegedBridgeServerFrame_Payload_ReliableInput _) =>
      on_events (EventQueue_push_critical frame);; mret None
  | Some _ => mret (Some frame)
  end.

Definition FramedBridgeRpc_queued_event : R (option PrivilegedBridgeServerFrame) :=
  event ← on_events EventQueue_pop_critical;
  match event with
  | Some event => mret (Some event)
  | None =>
      self ← get;
      let '(event, q) := EventQueue_pop_fast (fr_events self) in
      put (set_fr_events q self);;
      mret event
  end.

Definition FramedBridgeRpc_reject {A} (error : ProxyError) : R A :=
  modify FramedBridgeRpc_fail_closed;; mthrow error.

(** One turn of the loop of [call]: [None] is [continue]. *)
Definition call_turn (request : PrivilegedBridgeClientFrame)
    : R (option PrivilegedBridgeServerFrame) :=
  encoded ← try (on_transport transport_receive);
  match encoded with
  | Err error => FramedBridgeRpc_reject error
  | Ok encoded =>
      match FramedBridgeRpc_decode encoded with
      | Err error => FramedBridgeRpc_reject error
      | Ok response =>
          response ← try (FramedBridgeRpc_enqueue_event response);
          match response with
          | Ok None => mret None
          | Err error => FramedBridgeRpc_reject error
          | Ok (Some response) =>
              if negb (bool_decide (PrivilegedBridgeServerFrame_request_id response =
                                    PrivilegedBridgeClientFrame_request_id request)) ||
                 negb (PrivilegedBridgeServerFrame_sequence response =?
                       PrivilegedBridgeClientFrame_sequence request)
              then FramedBridgeRpc_reject PE_StaleResponse
              else mret (Some response)
          end
      end
  end.

(** The loop; the outer [None] is fuel exhausted. *)
Fixpoint call_loop (fuel : nat) (request : PrivilegedBridgeClientFrame) (s : FramedBridgeRpc T)
    : option (result ProxyError PrivilegedBridgeServerFrame * FramedBridgeRpc T) :=
  match fuel with
  | O => None
  | S fuel =>
      match call_turn request s with
      | (Ok None, s') => call_loop fuel request s'
      | (Ok (Some response), s') => Some (Ok response, s')
      | (Err error, s') => Some (Err error, s')
      end
  end.

Definition call_fuel (fuel : FramedBridgeRpc T → nat) (request : PrivilegedBridgeClientFrame)
    (s : FramedBridgeRpc T)
    : option (result ProxyError PrivilegedBridgeServerFrame * FramedBridgeRpc T) :=
  if fr_failed s then Some (Err PE_FailedClosed, s) else
  match on_transport (transport_send (encode_to_vec request)) s with
  | (Err error, s') => Some (FramedBridgeRpc_reject error s')
  | (Ok _, s') => call_loop (fuel s') request s'
  end.

Definition FramedBridgeRpc_try_event : R (option PrivilegedBridgeServerFrame) :=
  self ← get;
  fail_if (fr_failed self) PE_FailedClosed;;
  event ← FramedBridgeRpc_queued_event;
  match event with
  | Some event => mret (Some event)
  | None =>
      encoded ← try (on_transport transport_try_receive);
      match encoded with
      | Ok None => mret None
      | Err error => FramedBridgeRpc_reject error
      | Ok (Some encoded) =>
          match FramedBridgeRpc_decode encoded with
          | Err error => FramedBridgeRpc_reject error
          | Ok frame =>
              r ← try (FramedBridgeRpc_enqueue_event frame);
              match r with
              | Ok None => FramedBridgeRpc_queued_event
              | Ok (Some _) => FramedBridgeRpc_reject PE_StaleResponse
              | Err error => FramedBridgeRpc_reject error
              end
          end
      end
  end.
End rpc.

(** With finitely many inbound frames the loop needs one turn for each and one more. *)
Definition FramedBridgeRpc_call {T : Type} `{FiniteInbound T}
    `{Message PrivilegedBridgeClientFrame, Message PrivilegedBridgeServerFrame}
    (request : PrivilegedBridgeClientFrame)
    : M (FramedBridgeRpc T) ProxyError PrivilegedBridgeServerFrame := λ s,
  default (Err PE_Transport, s)
    (call_fuel (λ s, S (remaining (fr_transport s))) request s).

#[export] Instance FramedBridgeRpc_rpc {T : Type} `{FiniteInbound T}
    `{Message PrivilegedBridgeClientFrame, Message PrivilegedBridgeServerFrame}
    : BridgeRpc (FramedBridgeRpc T) := {
  rpc_call := FramedBridgeRpc_call;
  rpc_try_event := FramedBridgeRpc_try_event;
  rpc_fail_closed := FramedBridgeRpc_fail_closed
}.

(** * Runs over a recorded transport *)
#[export] Instance recorded_transport {T : Type} `{LocalBridgeTransport T}
    : LocalBridgeTransport (T * list bytes) := {
  transport_send frame tl := let '(r, t) := transport_send frame tl.1 in (r, (t, tl.2));
  transport_receive tl :=
    match transport_receive tl.1 with
    | (Ok frame, t) => (Ok frame, (t, tl.2 ++ [frame]))
    | (Err e, t) => (Err e, (t, tl.2))
    end;
  transport_try_receive tl :=
    match transport_try_receive tl.1 with
    | (Ok (Some frame), t) => (Ok (Some frame), (t, tl.2 ++ [frame]))
    | (r, t) => (r, (t, tl.2))
    end;
  transport_peer_identity tl := transport_peer_identity tl.1;
  transport_fail_closed tl := (transport_fail_closed tl.1, tl.2)
}.

#[export] Program Instance recorded_finite {T : Type} `{FiniteInbound T}
    : FiniteInbound (T * list bytes) := { remaining tl := remaining tl.1 }.
Next Obligation.
  intros T ? ? [t l] frame [t' l']. unfold transport_receive, recorded_transport. simpl.
  destruct (transport_receive t) as [[f|e] t1] eqn:Hr; intros; simplify_eq.
  by eapply receive_decreases.
Qed.

Definition is_critical_event (f : PrivilegedBridgeServerFrame) : bool :=
  match PrivilegedBridgeServerFrame_payload f with
  | Some (PrivilegedBridgeServerFrame_Payload_LocalIceCandidate _)
  | Some (PrivilegedBridgeServerFrame_Payload_PeerStateChanged _)
  | Some (PrivilegedBridgeServerFrame_Payload_ReliableInput _) => true
  | _ => false
  end.

Definition is_fast_event (f : PrivilegedBridgeServerFrame) : bool :=
  match PrivilegedBridgeServerFrame_payload f with
  | Some (PrivilegedBridgeServerFrame_Payload_FastPointer _) => true
  | _ => false
  end.

Inductive RpcOp := RpCall (request : PrivilegedBridgeClientFrame) | RpPoll.

Section runs.
Context {T : Type} `{FiniteInbound T}
  `{Message PrivilegedBridgeClientFrame, Message PrivilegedBridgeServerFrame}.

(** The events a call returns to its caller. *)
Definition rpc_exec (op : RpcOp) (s : FramedBridgeRpc T)
    : list PrivilegedBridgeServerFrame * FramedBridgeRpc T :=
  match op with
  | RpCall request => ([], (FramedBridgeRpc_call request s).2)
  | RpPoll =>
      match FramedBridgeRpc_try_event s with
      | (Ok (Some event), s') => ([event], s')
      | (_, s') => ([], s')
      end
  end.

Fixpoint rpc_run (ops : list RpcOp) (s : FramedBridgeRpc T)
    : list PrivilegedBridgeServerFrame * FramedBridgeRpc T :=
  match ops with
  | [] => ([], s)
  | op :: ops =>
      let '(events, s1) := rpc_exec op s in
      let '(events', s2) := rpc_run ops s1 in
      (events ++ events', s2)
  end.

(** The valid critical events among received frames. *)
Definition critical_events (received : list bytes) : list PrivilegedBridgeServerFrame :=
  filter (λ f, is_critical_event f = true)
    (omap (λ e, match FramedBridgeRpc_decode e with Ok f => Some f | Err _ => None end) received).
End runs.

(** * Lemmas *)

Section lemmas.
Context {T : Type} `{LocalBridgeTransport T}
  `{Message PrivilegedBridgeClientFrame, Message PrivilegedBridgeServerFrame}.

Implicit Types s : FramedBridgeRpc T.

Lemma reject_inv {A} e s (r : result ProxyError A) s' :
  FramedBridgeRpc_reject e s = (r, s') →
  r = Err e ∧ s' = FramedBridgeRpc_fail_closed s.
Proof. unfold FramedBridgeRpc_reject. unmonad. intros. by simplify_eq. Qed.

Lemma fail_closed_failed s : fr_failed (FramedBridgeRpc_fail_closed s) = true.
Proof. unfold FramedBridgeRpc_fail_closed. by destruct (fr_failed s) eqn:?. Qed.

(** Queueing: a critical event goes to the end of the queue, a fast one replaces the pending
    one, anything else comes back. *)
Lemma enqueue_inv f s r s' :
  FramedBridgeRpc_enqueue_event f s = (r, s') → eq_failed (fr_events s) = false →
  (∃ e, r = Err e ∧ fr_transport s' = fr_transport s ∧ fr_failed s' = fr_failed s) ∨
  (is_critical_event f = true ∧ r = Ok None ∧
     s' = set_fr_events (set_critical (critical (fr_events s) ++ [f]) (fr_events s)) s) ∨
  (is_fast_event f = true ∧ r = Ok None ∧
     s' = set_fr_events (set_fast (Some f) (fr_events s)) s) ∨
  (is_critical_event f = false ∧ is_fast_event f = false ∧ r = Ok (Some f) ∧ s' = s).
Proof.
  unfold FramedBridgeRpc_enqueue_event, is_critical_event, is_fast_event. intros Hr Hf.
  destruct (PrivilegedBridgeServerFrame_payload f) as [[]|];
    unfold on_events, EventQueue_push_critical, EventQueue_push_fast in Hr; unmonad;
    try rewrite Hf in Hr; simpl in Hr; repeat case_match; simplify_eq/=; try (by left; eauto);
    try (by right; left); try (by right; right; left); by right; right; right.
Qed.

(** A turn of the loop fails the transport, or takes one valid frame off it. *)
Lemma call_turn_inv request s r s' :
  call_turn request s = (r, s') → eq_failed (fr_events s) = false →
  (∃ e, r = Err e ∧ fr_failed s' = true ∧
     fr_transport s' =
       (if fr_failed s then (λ t, t) else transport_fail_closed)
         (transport_receive (fr_transport s)).2) ∨
  (∃ encoded t' f, transport_receive (fr_transport s) = (Ok encoded, t') ∧
     FramedBridgeRpc_decode encoded = Ok f ∧
     ((is_critical_event f = true ∧ r = Ok None ∧
         s' = set_fr_events (set_critical (critical (fr_events s) ++ [f]) (fr_events s))
                (set_fr_transport t' s)) ∨
      (is_fast_event f = true ∧ r = Ok None ∧
         s' = set_fr_events (set_fast (Some f) (fr_events s)) (set_fr_transport t' s)) ∨
      (is_critical_event f = false ∧ is_fast_event f = false ∧ r = Ok (Some f) ∧
         s' = set_fr_transport t' s ∧
         PrivilegedBridgeServerFrame_request_id f = PrivilegedBridgeClientFrame_request_id request ∧
         PrivilegedBridgeServerFrame_sequence f = PrivilegedBridgeClientFrame_sequence request))).
Proof.
  unfold call_turn. intros Hr Hq. rewrite bind_run in Hr. unfold try, on_transport in Hr.
  unfold map_err_m, zoom in Hr.
  destruct (transport_receive (fr_transport s)) as [[encoded|e] t'] eqn:Ht; simpl in Hr.
  2: { apply reject_inv in Hr as [-> ->]. left. eexists. split; [done|].
       split; [apply fail_closed_failed|]. unfold FramedBridgeRpc_fail_closed. simpl.
       by destruct (fr_failed s). }
  set (s1 := set_fr_transport t' s) in *.
  assert (∀ e s2 (r : result ProxyError (option PrivilegedBridgeServerFrame)) s',
    fr_transport s2 = t' → fr_failed s2 = fr_failed s → FramedBridgeRpc_reject e s2 = (r, s') →
    ∃ e, r = Err e ∧ fr_failed s' = true ∧
      fr_transport s' = (if fr_failed s then (λ t, t) else transport_fail_closed) t') as Hrej.
  { intros e s2 r0 s0 Ht2 Hf2 [-> ->]%reject_inv. eexists. split; [done|].
    split; [apply fail_closed_failed|]. unfold FramedBridgeRpc_fail_closed. rewrite Hf2.
    by destruct (fr_failed s); simpl; rewrite Ht2. }
  destruct (FramedBridgeRpc_decode encoded) as [f|e] eqn:Hd.
  2: { left. exact (Hrej e s1 r s' eq_refl eq_refl Hr). }
  rewrite bind_run in Hr. destruct (FramedBridgeRpc_enqueue_event f s1) as [re s2] eqn:He.
  apply enqueue_inv in He as [(e&->&Ht2&Hf2)|Hcase]; [left; exact (Hrej e s2 r s' Ht2 Hf2 Hr)| |done].
  destruct Hcase as [(Hc&->&->)|[(Hc&->&->)|(Hc1&Hc2&->&->)]].
  - right. unfold mret, M_ret in Hr. simplify_eq. eexists _, _, f. split_and!; [done|done|]. by left.
  - right. unfold mret, M_ret in Hr. simplify_eq. eexists _, _, f. split_and!; [done|done|].
    by right; left.
  - destruct (negb _ || _) eqn:Hm in Hr; [left; exact (Hrej _ s1 r s' eq_refl eq_refl Hr)|].
    apply orb_false_iff in Hm as [Hm1 Hm2]. boolsimpl.
    right. unfold mret, M_ret in Hr. simplify_eq. eexists _, _, f. split_and!; [done|done|].
    by right; right.
Qed.

(** With fuel for every outstanding frame the loop comes to an end. *)
Lemma call_loop_terminates `{!FiniteInbound T} fuel request s :
  (remaining (fr_transport s) < fuel)%nat → eq_failed (fr_events s) = false →
  call_loop fuel request s ≠ None.
Proof.
  revert s. induction fuel as [|fuel IH]; intros s Hf Hq; [lia|]. simpl.
  destruct (call_turn request s) as [r s'] eqn:Hr.
  apply call_turn_inv in Hr as [(e&->&_)|(enc&t'&f&Ht&_&Hcase)]; [done| |done].
  apply receive_decreases in Ht.
  destruct Hcase as [(_&->&->)|[(_&->&->)|(_&_&->&_)]]; [| |done]; (apply IH; [simpl; lia|done]).
Qed.

(** More fuel does not change an answer. *)
Lemma call_loop_mono fuel fuel' request s x :
  call_loop fuel request s = Some x → (fuel <= fuel')%nat → call_loop fuel' request s = Some x.
Proof.
  revert fuel' s. induction fuel as [|fuel IH]; intros [|fuel'] s Hx Hle; try done; [lia|].
  simpl in *. destruct (call_turn request s) as [[[f|]|e] s']; try done. apply IH; [done|lia].
Qed.
End lemmas.

Section order.
Context {T : Type} `{FiniteInbound T}
  `{Message PrivilegedBridgeClientFrame, Message PrivilegedBridgeServerFrame}.

Implicit Types s : FramedBridgeRpc (T * list bytes).

Lemma critical_events_snoc l e :
  critical_events (l ++ [e]) =
  critical_events l ++
    match FramedBridgeRpc_decode e with
    | Ok f => if is_critical_event f then [f] else []
    | Err _ => []
    end.
Proof.
  unfold critical_events. rewrite omap_app, filter_app. f_equal. simpl.
  destruct (FramedBridgeRpc_decode e) as [f|]; [|done].
  rewrite filter_cons, filter_nil. by destruct (is_critical_event f).
Qed.

Lemma critical_events_prefix l e : critical_events l `prefix_of` critical_events (l ++ [e]).
Proof. rewrite critical_events_snoc. by apply prefix_app_r. Qed.

(** Delivered and queued critical events are the received ones, in order. *)
Record in_order (delivered : list PrivilegedBridgeServerFrame) s : Prop := {
  io_prefix : filter (λ f, is_critical_event f = true) delivered
                `prefix_of` critical_events (fr_transport s).2;
  io_queue : fr_failed s = false →
    eq_failed (fr_events s) = false ∧
    (∀ f, fast (fr_events s) = Some f → is_fast_event f = true) ∧
    filter (λ f, is_critical_event f = true) delivered ++ critical (fr_events s) =
      critical_events (fr_transport s).2
}.

(** A failed transport only has to keep the prefix. *)
Lemma in_order_failed delivered s s' :
  in_order delivered s → fr_failed s' = true →
  critical_events (fr_transport s).2 `prefix_of` critical_events (fr_transport s').2 →
  in_order delivered s'.
Proof. intros [Hp _] Hf Hl. split; [by etransitivity|congruence]. Qed.

Lemma receive_log (tl : T * list bytes) :
  (transport_receive tl).2.2 = tl.2 ∨ ∃ e, (transport_receive tl).2.2 = tl.2 ++ [e].
Proof.
  destruct tl as [t l]. simpl. destruct (transport_receive t) as [[e|] t']; simpl; eauto.
Qed.

Lemma log_step_prefix l l' :
  l' = l ∨ (∃ e, l' = l ++ [e]) → critical_events l `prefix_of` critical_events l'.
Proof. intros [->|[e ->]]; [done|apply critical_events_prefix]. Qed.

(** A valid frame taken off the transport and queued. *)
Lemma in_order_received delivered s t' l' e f :
  in_order delivered s → fr_failed s = false → l' = (fr_transport s).2 ++ [e] →
  FramedBridgeRpc_decode e = Ok f →
  (is_critical_event f = true →
     in_order delivered (set_fr_events (set_critical (critical (fr_events s) ++ [f]) (fr_events s))
                           (set_fr_transport (t', l') s))) ∧
  (is_fast_event f = true →
     in_order delivered (set_fr_events (set_fast (Some f) (fr_events s))
                           (set_fr_transport (t', l') s))) ∧
  (is_critical_event f = false → in_order delivered (set_fr_transport (t', l') s)).
Proof.
  intros [Hp Hq] Hf -> Hd. destruct (Hq Hf) as (Hqf&Hfast&Heq).
  assert (filter (λ f, is_critical_event f = true) delivered
            `prefix_of` critical_events ((fr_transport s).2 ++ [e])) as Hp'.
  { etransitivity; [done|apply critical_events_prefix]. }
  assert (is_fast_event f = true → is_critical_event f = false) as Hfc.
  { unfold is_fast_event, is_critical_event. by repeat case_match. }
  split_and!; intros Hk; (split; [done|]); intros _; simpl; (split; [done|]);
    rewrite critical_events_snoc, Hd.
  - rewrite Hk, app_assoc, Heq. done.
  - rewrite (Hfc Hk), app_nil_r. split; [by intros ? [= <-]|done].
  - by rewrite Hk, app_nil_r.
Qed.

Lemma call_loop_in_order fuel request delivered s r s' :
  call_loop fuel request s = Some (r, s') → fr_failed s = false →
  in_order delivered s → in_order delivered s'.
Proof.
  revert s. induction fuel as [|fuel IH]; intros s Hr Hf Hio; [done|]. simpl in Hr.
  destruct (call_turn request s) as [rt s1] eqn:Ht.
  apply call_turn_inv in Ht as [(e&->&Hf1&Htr)|(enc&[t' l']&f&Htr&Hd&Hcase)].
  3: by apply Hio.
  - simplify_eq. eapply in_order_failed; [done|done|]. apply log_step_prefix.
    rewrite Htr, Hf. apply receive_log.
  - assert (l' = (fr_transport s).2 ++ [enc]) as Hl.
    { destruct (fr_transport s) as [t l]. simpl in Htr.
      destruct (transport_receive t) as [[]]; by simplify_eq. }
    destruct (in_order_received delivered s t' l' enc f Hio Hf Hl Hd) as (H1c&H1f&H1o).
    destruct Hcase as [(Hc&->&->)|[(Hc&->&->)|(Hc&_&->&->&_)]].
    + eapply IH; [exact Hr|done|auto].
    + eapply IH; [exact Hr|done|auto].
    + simplify_eq. auto.
Qed.

Lemma in_order_fail_closed delivered s :
  in_order delivered s → in_order delivered (FramedBridgeRpc_fail_closed s).
Proof.
  intros Hio. unfold FramedBridgeRpc_fail_closed. destruct (fr_failed s) eqn:?; [done|].
  by eapply in_order_failed.
Qed.

Lemma in_order_log delivered s t :
  in_order delivered s → in_order delivered (set_fr_transport (t, (fr_transport s).2) s).
Proof. by intros [? ?]; split. Qed.

Lemma call_in_order request delivered s :
  in_order delivered s → in_order delivered (FramedBridgeRpc_call request s).2.
Proof.
  intros Hio. unfold FramedBridgeRpc_call, call_fuel. destruct (fr_failed s) eqn:Hf; [done|].
  unfold on_transport, map_err_m, zoom. destruct (fr_transport s) as [t l] eqn:Ht. simpl.
  destruct (transport_send (encode_to_vec request) t) as [r1 t1].
  assert (in_order delivered (set_fr_transport (t1, l) s)) as H1s.
  { pose proof (in_order_log delivered s t1 Hio) as Hx. by rewrite Ht in Hx. }
  destruct r1; simpl.
  - match goal with |- context [default _ ?x] => destruct x as [[r2 s2]|] eqn:Hl end; [|done].
    by eapply (call_loop_in_order (S (remaining t1))).
  - by apply in_order_fail_closed.
Qed.

Lemma critical_queue_critical delivered s :
  in_order delivered s → fr_failed s = false →
  Forall (λ f, is_critical_event f = true) (critical (fr_events s)).
Proof.
  intros [_ Hq] Hf. destruct (Hq Hf) as (_&_&Heq).
  assert (Forall (λ f, is_critical_event f = true) (critical_events (fr_transport s).2)) as Hall.
  { apply Forall_forall. intros f. unfold critical_events. by intros [? _]%list_elem_of_filter. }
  rewrite <- Heq in Hall. by apply Forall_app in Hall as [_ ?].
Qed.

Lemma fast_not_critical f : is_fast_event f = true → is_critical_event f = false.
Proof. unfold is_fast_event, is_critical_event. by repeat case_match. Qed.

(** Taking the next event off the queue delivers it. *)
Lemma queued_event_in_order delivered s r s' :
  FramedBridgeRpc_queued_event s = (r, s') → fr_failed s = false → in_order delivered s →
  ∃ o, r = Ok o ∧ fr_failed s' = false ∧ fr_transport s' = fr_transport s ∧
    in_order (delivered ++ option_list o) s'.
Proof.
  intros Hr Hf Hio. pose proof (critical_queue_critical _ _ Hio Hf) as Hcr.
  destruct Hio as [Hp Hq]. destruct (Hq Hf) as (Hqf&Hfast&Heq).
  unfold FramedBridgeRpc_queued_event, on_events, EventQueue_pop_critical, EventQueue_pop_fast in Hr.
  unmonad. rewrite Hqf in Hr. destruct s as [tr [cq fq ff] fl]. simpl in *. subst ff fl.
  destruct cq as [|f cq]; simplify_eq/=.
  - exists fq. split_and!; [done..|]. rewrite app_nil_r in Heq.
    assert (filter (λ f, is_critical_event f = true) (delivered ++ option_list fq) =
            filter (λ f, is_critical_event f = true) delivered) as Hd.
    { rewrite filter_app. destruct fq as [f|]; simpl; [|by rewrite app_nil_r].
      rewrite filter_cons, filter_nil, (fast_not_critical f) by auto. simpl. by rewrite app_nil_r. }
    split; simpl; rewrite Hd; [done|]. intros _. by rewrite app_nil_r.
  - exists (Some f). apply Forall_cons in Hcr as [Hcf _]. split_and!; [done..|].
    assert (filter (λ f, is_critical_event f = true) (delivered ++ [f]) =
            filter (λ f, is_critical_event f = true) delivered ++ [f]) as Hd.
    { rewrite filter_app, filter_cons, filter_nil, Hcf. done. }
    split; simpl; rewrite Hd.
    + exists cq. rewrite <- app_assoc. done.
    + intros _. rewrite <- app_assoc. done.
Qed.

Lemma fail_closed_keeps_prefix delivered s :
  filter (λ f, is_critical_event f = true) delivered `prefix_of` critical_events (fr_transport s).2 →
  fr_failed s = false → in_order delivered (FramedBridgeRpc_fail_closed s).
Proof. intros Hp Hf. unfold FramedBridgeRpc_fail_closed. rewrite Hf. by split. Qed.

Lemma reject_in_order {A} delivered e s (r : result ProxyError A) s' :
  FramedBridgeRpc_reject e s = (r, s') →
  filter (λ f, is_critical_event f = true) delivered `prefix_of` critical_events (fr_transport s).2 →
  fr_failed s = false → (∃ e, r = Err e) ∧ in_order delivered s'.
Proof. intros [-> ->]%reject_inv Hp Hf. split; [eauto|by apply fail_closed_keeps_prefix]. Qed.

Definition delivered_by (r : result ProxyError (option PrivilegedBridgeServerFrame))
    : list PrivilegedBridgeServerFrame :=
  match r with Ok (Some f) => [f] | _ => [] end.

(** The part of a poll after the queues were found empty. *)
Lemma received_in_order delivered s l' t' e f r s' :
  (r ← try (FramedBridgeRpc_enqueue_event f);
   match r with
   | Ok None => FramedBridgeRpc_queued_event
   | Ok (Some _) => FramedBridgeRpc_reject PE_StaleResponse
   | Err error => FramedBridgeRpc_reject error
   end) (set_fr_transport (t', l') s) = (r, s') →
  in_order delivered s → fr_failed s = false → l' = (fr_transport s).2 ++ [e] →
  FramedBridgeRpc_decode e = Ok f →
  in_order (delivered ++ delivered_by r) s'.
Proof.
  intros Hr Hio Hf Hl Hd. rewrite bind_run in Hr. unfold try in Hr.
  destruct (in_order_received delivered s t' l' e f Hio Hf Hl Hd) as (H1c&H1f&H1o).
  assert (filter (λ f, is_critical_event f = true) delivered `prefix_of` critical_events l') as Hpre.
  { etransitivity; [apply Hio|]. rewrite Hl. apply critical_events_prefix. }
  destruct (FramedBridgeRpc_enqueue_event f (set_fr_transport (t', l') s)) as [re s2] eqn:He.
  apply enqueue_inv in He as [(e2&->&Ht2&Hf2)|Hcase]; simpl in Hr.
  3: { by apply Hio. }
  - apply (reject_in_order delivered) in Hr as [[? ->] ?]; simpl; rewrite ?app_nil_r; try done.
    + by rewrite Ht2.
    + by rewrite Hf2.
  - destruct Hcase as [(Hc&->&->)|[(Hc&->&->)|(Hc1&Hc2&->&->)]].
    + apply (queued_event_in_order delivered) in Hr as ([|]&->&_&_&?); simpl in *; try done; auto.
    + apply (queued_event_in_order delivered) in Hr as ([|]&->&_&_&?); simpl in *; try done; auto.
    + apply (reject_in_order delivered) in Hr as [[? ->] ?]; simpl; rewrite ?app_nil_r; done.
Qed.

Lemma poll_in_order delivered s r s' :
  FramedBridgeRpc_try_event s = (r, s') → in_order delivered s →
  in_order (delivered ++ delivered_by r) s'.
Proof.
  intros Hr Hio. unfold FramedBridgeRpc_try_event in Hr. rewrite bind_get, bind_fail_if in Hr.
  destruct (fr_failed s) eqn:Hf; [simplify_eq; by rewrite app_nil_r|].
  rewrite bind_run in Hr. destruct (FramedBridgeRpc_queued_event s) as [rq s1] eqn:Hq.
  apply (queued_event_in_order delivered) in Hq as (o&->&Hf1&Htr1&Hio1); [|done..].
  destruct o as [f|]; [unfold mret, M_ret in Hr; by simplify_eq/=|].
  simpl in Hio1. rewrite app_nil_r in Hio1. clear Hio Hf s Htr1.
  rewrite bind_run in Hr. unfold try, on_transport, map_err_m, zoom in Hr.
  pose proof (λ t, in_order_log delivered s1 t Hio1) as Hsame.
  destruct (fr_transport s1) as [t l] eqn:Ht. simpl in Hr, Hsame.
  destruct (transport_try_receive t) as [[[e|]|e] t'] eqn:Htry; simpl in Hr.
  - destruct (FramedBridgeRpc_decode e) as [f|ed] eqn:Hd.
    + eapply received_in_order; [exact Hr|done|done| |exact Hd]. by rewrite Ht.
    + apply (reject_in_order delivered) in Hr as [[? ->] ?]; [by rewrite app_nil_r| |done].
      simpl. etransitivity; [apply Hio1|]. rewrite Ht. apply critical_events_prefix.
  - unfold mret, M_ret in Hr. simplify_eq. rewrite app_nil_r. apply Hsame.
  - apply (reject_in_order delivered) in Hr as [[? ->] ?]; [by rewrite app_nil_r| |done].
    apply Hsame.
Qed.

Lemma new_in_order (tl : T) : in_order [] (FramedBridgeRpc_new (tl, [])).
Proof. split; [done|]. intros _. done. Qed.

Lemma run_in_order ops delivered s :
  in_order delivered s →
  in_order (delivered ++ (rpc_run ops s).1) (rpc_run ops s).2.
Proof.
  revert delivered s. induction ops as [|op ops IH]; intros delivered s Hio; simpl.
  { by rewrite app_nil_r. }
  destruct (rpc_exec op s) as [events s1] eqn:He.
  assert (in_order (delivered ++ events) s1) as Hio1.
  { destruct op as [request|]; simpl in He.
    - simplify_eq. rewrite app_nil_r. by apply call_in_order.
    - destruct (FramedBridgeRpc_try_event s) as [r s2] eqn:Hr.
      apply (poll_in_order delivered) in Hr; [|done].
      by destruct r as [[]|]; simplify_eq/=. }
  specialize (IH _ _ Hio1). destruct (rpc_run ops s1) as [events' s2]. simpl in *.
  by rewrite app_assoc.
Qed.
End order.

(** * Properties *)

Section properties.
Context {T : Type} `{FiniteInbound T}
  `{Message PrivilegedBridgeClientFrame, Message PrivilegedBridgeServerFrame}.

Implicit Types s : FramedBridgeRpc T.

(** The queue is open as long as the transport is. *)
Definition queue_open s : Prop := fr_failed s = false → eq_failed (fr_events s) = false.

Lemma queue_open_rejected {A} e s (r : result ProxyError A) s' :
  FramedBridgeRpc_reject e s = (r, s') → queue_open s'.
Proof. intros [-> ->]%reject_inv. intros ?. by rewrite fail_closed_failed in *. Qed.

Lemma call_loop_queue_open fuel request s r s' :
  call_loop fuel request s = Some (r, s') → eq_failed (fr_events s) = false → queue_open s'.
Proof.
  revert s. induction fuel as [|fuel IH]; intros s Hr Hq; [done|]. simpl in Hr.
  destruct (call_turn request s) as [rt s1] eqn:Ht.
  apply call_turn_inv in Ht as [(e&->&Hf&_)|(enc&t'&f&_&_&Hcase)]; [| |done].
  - simplify_eq. intros ?. congruence.
  - destruct Hcase as [(_&->&->)|[(_&->&->)|(_&_&->&->&_)]];
      [eapply IH; [exact Hr|done]..|simplify_eq; by intros ?].
Qed.

Lemma call_fuel_enough s request extra :
  queue_open s →
  call_fuel (λ s, S (remaining (fr_transport s)) + extra)%nat request s =
  Some (FramedBridgeRpc_call request s).
Proof.
  intros Hq. unfold FramedBridgeRpc_call, call_fuel. destruct (fr_failed s) eqn:Hf; [done|].
  destruct (on_transport (transport_send (encode_to_vec request)) s) as [[[]|e] s1] eqn:Hs; [|done].
  assert (eq_failed (fr_events s1) = false) as Hq1.
  { unfold on_transport, map_err_m, zoom in Hs.
    destruct (transport_send _ _) as [[] ?]; simplify_eq; simpl; by apply Hq. }
  destruct (call_loop (S (remaining (fr_transport s1))) request s1) as [x|] eqn:Hx.
  - exact (call_loop_mono _ (S (remaining (fr_transport s1)) + extra) _ _ _ Hx ltac:(lia)).
  - exfalso. eapply call_loop_terminates; [|exact Hq1|exact Hx]. lia.
Qed.

Lemma call_queue_open request s : queue_open s → queue_open (FramedBridgeRpc_call request s).2.
Proof.
  intros Hq. pose proof (call_fuel_enough s request 0 Hq) as Hx.
  destruct (FramedBridgeRpc_call request s) as [r s']. simpl.
  unfold call_fuel in Hx. destruct (fr_failed s) eqn:Hf; [by simplify_eq|].
  unfold on_transport, map_err_m, zoom in Hx.
  destruct (transport_send _ _) as [[[]|e] t1]; simpl in Hx.
  - apply (call_loop_queue_open (S (remaining t1 + 0)) request (set_fr_transport t1 s) r s' Hx).
    by apply Hq.
  - simplify_eq. by eapply queue_open_rejected.
Qed.

Lemma queued_event_queue_open s r s' :
  FramedBridgeRpc_queued_event s = (r, s') → queue_open s → queue_open s'.
Proof.
  unfold FramedBridgeRpc_queued_event, on_events, EventQueue_pop_critical, EventQueue_pop_fast, queue_open.
  intros Hr Hq. unmonad. destruct s as [tr [cq fq ff] fl]. simpl in *.
  destruct ff, cq; simplify_eq/=; auto.
Qed.

Lemma poll_queue_open s : queue_open s → queue_open (FramedBridgeRpc_try_event s).2.
Proof.
  intros Hq. destruct (FramedBridgeRpc_try_event s) as [r s'] eqn:Hr. simpl.
  unfold FramedBridgeRpc_try_event in Hr. rewrite bind_get, bind_fail_if in Hr.
  destruct (fr_failed s) eqn:Hf; [by simplify_eq|].
  rewrite bind_run in Hr. destruct (FramedBridgeRpc_queued_event s) as [rq s1] eqn:Hqe.
  apply queued_event_queue_open in Hqe; [|done].
  destruct rq as [[f|]|e]; [unfold mret, M_ret in Hr; by simplify_eq/=| |by simplify_eq].
  rewrite bind_run in Hr. unfold try, on_transport, map_err_m, zoom in Hr.
  assert (∀ t, queue_open (set_fr_transport t s1)) as Hsame by done.
  destruct (transport_try_receive (fr_transport s1)) as [[[e|]|e] t']; simpl in Hr;
    [|unfold mret, M_ret in Hr; by simplify_eq|by eapply queue_open_rejected].
  destruct (FramedBridgeRpc_decode e) as [f|]; [|by eapply queue_open_rejected].
  rewrite bind_run in Hr. unfold try in Hr.
  destruct (FramedBridgeRpc_enqueue_event f (set_fr_transport t' s1)) as [[[f'|]|e2] s2] eqn:He;
    [by eapply queue_open_rejected| |by eapply queue_open_rejected].
  eapply queued_event_queue_open; [exact Hr|].
  intros Hf2. destruct (fr_failed s1) eqn:Hf1.
  - exfalso. unfold FramedBridgeRpc_enqueue_event, on_events in He. unmonad. repeat case_match; simplify_eq/=; congruence.
  - apply enqueue_inv in He as [(?&?&_)|[(_&_&->)|[(_&_&->)|(_&_&?&_)]]]; simpl; try done; by apply Hqe.
Qed.

Lemma run_queue_open ops s : queue_open s → queue_open (rpc_run ops s).2.
Proof.
  revert s. induction ops as [|op ops IH]; intros s Hq; simpl; [done|].
  destruct (rpc_exec op s) as [events s1] eqn:He.
  assert (queue_open s1) as Hq1.
  { destruct op as [request|]; simpl in He.
    - simplify_eq. by apply call_queue_open.
    - pose proof (poll_queue_open s Hq) as Hp.
      destruct (FramedBridgeRpc_try_event s) as [[[]|] s2]; by simplify_eq/=. }
  specialize (IH _ Hq1). by destruct (rpc_run ops s1).
Qed.

(** Termination of [FramedBridgeRpc::call]: after any sequence of calls and polls from
    [new], over any transport whose peer has finitely many frames outstanding, the wait for the
    response returns within one turn per outstanding frame and one more, and any larger number
    of turns gives the same result, so the loop's answer does not depend on the fuel. *)
Theorem rpc_call_terminates (transport : T) ops request extra :
  call_fuel (λ s, S (remaining (fr_transport s)) + extra)%nat request
    (rpc_run ops (FramedBridgeRpc_new transport)).2 =
  Some (FramedBridgeRpc_call request (rpc_run ops (FramedBridgeRpc_new transport)).2).
Proof. apply call_fuel_enough, run_queue_open. by intros ?. Qed.

(** No critical event is lost, invented or reordered: after any sequence of calls and polls
    over a transport whose received frames are recorded, the critical events handed to the
    client are a prefix, in order, of the valid critical events received; while the transport
    has not failed closed, the delivered ones followed by the queued ones are exactly those
    received. *)
Theorem rpc_events_in_order (transport : T) ops :
  let '(delivered, s) := rpc_run ops (FramedBridgeRpc_new (transport, [])) in
  let delivered := filter (λ f, is_critical_event f = true) delivered in
  let received := critical_events (fr_transport s).2 in
  delivered `prefix_of` received ∧
  (fr_failed s = false → delivered ++ critical (fr_events s) = received).
Proof.
  pose proof (run_in_order ops [] _ (new_in_order transport)) as [Hp Hq].
  destruct (rpc_run ops (FramedBridgeRpc_new (transport, []))) as [delivered s]. simpl in *.
  split; [done|]. intros Hf. by apply Hq.
Qed.
End properties.
