(* ===== verification/Client.v ===== *)
(** The Host's client of the bridge broker, crates/privileged-bridge/src/client.rs: the
    typed wire [ProtobufBridgeWire] that turns the proxy's requests into bridge frames and
    bridge events into proxy events, over a transport with the trait [BridgeRpc] of Rpc.v.

    The wire implements [BridgeWire], so the proxy of Proxy.v runs over it. *)
From stdpp Require Import pretty.
From S2P Require Import Prelude Limits Messages Lease Webrtc PeerSession Proxy Broker Helper BridgeQueue Validation Rpc.

Local Open Scope Z_scope.

(** * Configuration *)

Definition REQUEST_ID_PREFIX : text := lit "session".
Definition RENEW_SAFETY_MARGIN_MS : Z := 250.
Definition RENEW_ATTEMPT_INTERVAL_MS : Z := RENEW_INTERVAL_MS + RENEW_SAFETY_MARGIN_MS.

Record BridgeIceServer := { bi_urls : list text; bi_username : text; bi_credential : text }.

Definition BridgeIceServer_new (urls : list text) (username credential : text)
    : result ProxyError BridgeIceServer :=
  fail_if (bool_decide (urls = []) || (MAX_PRIVILEGED_ICE_URLS_PER_SERVER <? len urls) ||
           existsb (λ url, bool_decide (url = []) ||
                           (MAX_SIGNALING_ENDPOINT_UTF8_BYTES <? text_len url)) urls ||
           (MAX_ERROR_DETAIL_UTF8_BYTES <? text_len username) ||
           (MAX_ERROR_DETAIL_UTF8_BYTES <? text_len credential)) PE_InvalidConfiguration;;
  mret {| bi_urls := urls; bi_username := username; bi_credential := credential |}.

Definition BridgeIceServer_to_proto (self : BridgeIceServer) : PrivilegedIceServer :=
  {| PrivilegedIceServer_urls := bi_urls self; PrivilegedIceServer_username := bi_username self;
     PrivilegedIceServer_credential := bi_credential self |}.

Record BridgePeerOptions := { bo_ice_servers : list BridgeIceServer }.

Definition BridgePeerOptions_new (ice_servers : list BridgeIceServer)
    : result ProxyError BridgePeerOptions :=
  fail_if (MAX_PRIVILEGED_ICE_SERVERS <? len ice_servers) PE_InvalidConfiguration;;
  mret {| bo_ice_servers := ice_servers |}.

Definition BridgePeerOptions_configuration (self : BridgePeerOptions) (config : SessionConfig)
    : PrivilegedPeerConfiguration :=
  let policy :=
    match ice_transport_policy config with
    | ITP_All => PrivilegedIceTransportPolicy_All
    | ITP_Relay => PrivilegedIceTransportPolicy_Relay
    end in
  {| PrivilegedPeerConfiguration_ice_transport_policy := to_i32 policy;
     PrivilegedPeerConfiguration_ice_servers :=
       map BridgeIceServer_to_proto (bo_ice_servers self) |}.

(** * Session descriptions *)

(** [str::split] at a character: the parts between its occurrences, never none. *)
Fixpoint text_split (sep : Z) (s : text) : list text :=
  match s with
  | [] => [[]]
  | c :: s =>
      if (c =? sep) then [] :: text_split sep s
      else match text_split sep s with
           | part :: parts => (c :: part) :: parts
           | [] => [[c]]
           end
  end.

Definition CR : Z := 13.
Definition LF : Z := 10.

(** [str::trim_end_matches] of one character. *)
Fixpoint trim_end (c : Z) (s : text) : text :=
  match s with
  | [] => []
  | x :: s =>
      match trim_end c s with
      | [] => if (x =? c) then [] else [x]
      | s' => x :: s'
      end
  end.

(** [str::lines] before the carriage returns are trimmed: a final empty line is none. *)
Definition text_lines (s : text) : list text :=
  let parts := text_split LF s in
  if bool_decide (last parts = Some []) then removelast parts else parts.

Fixpoint strip_prefix (prefix s : text) : option text :=
  match prefix, s with
  | [], _ => Some s
  | p :: prefix, c :: s => if (p =? c) then strip_prefix prefix s else None
  | _ :: _, [] => None
  end.

(** [str::split_once] at a character. *)
Fixpoint split_once (sep : Z) (s : text) : option (text * text) :=
  match s with
  | [] => None
  | c :: s =>
      if (c =? sep) then Some ([], s)
      else '(a, b) ← split_once sep s; Some (c :: a, b)
  end.

(** [char::to_digit(16)]. *)
Definition hex_digit (c : Z) : option Z :=
  if (48 <=? c) && (c <=? 57) then Some (c - 48)
  else if (97 <=? c) && (c <=? 102) then Some (c - 87)
  else if (65 <=? c) && (c <=? 70) then Some (c - 55)
  else None.

Fixpoint hex_digits (acc : Z) (s : text) : option Z :=
  match s with
  | [] => Some acc
  | c :: s =>
      d ← hex_digit c;
      guard (acc * 16 + d < 256);;
      hex_digits (acc * 16 + d) s
  end.

(** [u8::from_str_radix(part, 16)]: one leading plus sign is allowed. *)
Definition u8_from_hex (s : text) : option Z :=
  match s with
  | [] => None
  | [c] => if (c =? 43) || (c =? 45) then None else hex_digits 0 [c]
  | c :: digits => if (c =? 43) then hex_digits 0 digits else hex_digits 0 s
  end.

(** The fingerprint of one line, if it is a SHA-256 one. *)
Definition fingerprint_line (line : text) : option text :=
  value ← strip_prefix (lit "a=fingerprint:") (trim_end CR line);
  '(algorithm, fingerprint) ← split_once 32 value;
  if eq_ignore_ascii_case algorithm (lit "sha-256") then Some fingerprint else None.

Definition parse_dtls_sha256_fingerprint (sdp : text) : option bytes :=
  encoded ← head (omap fingerprint_line (text_lines sdp));
  let parts := text_split 58 encoded in
  if negb (len parts =? NONCE_OR_HASH_BYTES) ||
     existsb (λ part, negb (text_len part =? 2)) parts
  then None
  else mapM (λ part, byte_of <$> u8_from_hex part) parts.

(** * Frames *)

Definition version : ProtocolVersion :=
  {| ProtocolVersion_major := PROTOCOL_MAJOR_VERSION;
     ProtocolVersion_minor := MINIMUM_PROTOCOL_MINOR_VERSION |}.

Definition valid_version (version : option ProtocolVersion) : bool :=
  match version with
  | Some value =>
      (ProtocolVersion_major value =? PROTOCOL_MAJOR_VERSION) &&
      is_some (checked_sub (ProtocolVersion_minor value) MINIMUM_PROTOCOL_MINOR_VERSION)
  | None => false
  end.

Definition request_id (route : ProxyRoute) (frame_sequence : Z) : text :=
  REQUEST_ID_PREFIX ++ lit "-" ++ decimal (pr_generation route) ++ lit "-" ++
  decimal frame_sequence.

Definition client_route (lease_id : bytes) (generation : Z) : result ProxyError ProxyRoute :=
  lease_id ← ok_or (array_of 16 lease_id) PE_InvalidMessage;
  fail_if (generation =? 0) PE_InvalidMessage;;
  mret (ProxyRoute_new lease_id generation).

Definition validate_controller_display_name (value : text) : result ProxyError unit :=
  fail_if (bool_decide (value = []) || (MAX_DEVICE_NAME_UTF8_BYTES <? text_len value) ||
           existsb is_control value) PE_InvalidConfiguration.

Definition to_candidate (candidate : PeerIceCandidate) : IceCandidate :=
  {| IceCandidate_candidate := pic_candidate candidate;
     IceCandidate_sdp_mid := pic_sdp_mid candidate;
     IceCandidate_sdp_m_line_index := pic_sdp_m_line_index candidate |}.

Definition to_input (input : ValidatedInput) : PrivilegedInputCommand_Input :=
  match input with
  | VI_Keyboard action usb_hid_usage modifier_bits =>
      PrivilegedInputCommand_Input_Keyboard
        {| KeyboardEvent_action := to_i32 action; KeyboardEvent_usb_hid_usage := usb_hid_usage;
           KeyboardEvent_modifier_bits := modifier_bits |}
  | VI_PointerButton button action x y =>
      PrivilegedInputCommand_Input_PointerButton
        {| PointerButtonEvent_button := to_i32 button; PointerButtonEvent_action := to_i32 action;
           PointerButtonEvent_x := x; PointerButtonEvent_y := y |}
  | VI_PointerMove x y pressed_button_bits =>
      PrivilegedInputCommand_Input_PointerMove
        {| PointerMoveEvent_x := x; PointerMoveEvent_y := y;
           PointerMoveEvent_pressed_button_bits := pressed_button_bits |}
  | VI_PointerScroll delta_x delta_y =>
      PrivilegedInputCommand_Input_PointerScroll
        {| PointerScrollEvent_delta_x := delta_x; PointerScrollEvent_delta_y := delta_y |}
  | VI_Text value => PrivilegedInputCommand_Input_Text {| TextInputEvent_text := value |}
  | VI_ReleaseAll => PrivilegedInputCommand_Input_ReleaseAll Build_ReleaseAllInput
  end.

Definition map_candidate_event (value : PrivilegedLocalIceCandidate)
    : result ProxyError (bytes * Z * ProxyEvent) :=
  candidate ← ok_or (PrivilegedLocalIceCandidate_candidate value) PE_InvalidMessage;
  mret (PrivilegedLocalIceCandidate_lease_id value, PrivilegedLocalIceCandidate_generation value,
        PX_LocalIceCandidate
          {| pic_candidate := IceCandidate_candidate candidate;
             pic_sdp_mid := IceCandidate_sdp_mid candidate;
             pic_sdp_m_line_index := IceCandidate_sdp_m_line_index candidate |}).

Definition map_reliable_event (value : PrivilegedReliableInputEvent)
    : result ProxyError (bytes * Z * ProxyEvent) :=
  fail_if (bool_decide (PrivilegedReliableInputEvent_encoded_envelope value = []))
    PE_InvalidMessage;;
  mret (PrivilegedReliableInputEvent_lease_id value, PrivilegedReliableInputEvent_generation value,
        PX_ReliableInput (PrivilegedReliableInputEvent_encoded_envelope value)).

Definition map_fast_event (value : PrivilegedFastPointerEvent)
    : result ProxyError (bytes * Z * ProxyEvent) :=
  fail_if (bool_decide (PrivilegedFastPointerEvent_encoded_envelope value = []))
    PE_InvalidMessage;;
  mret (PrivilegedFastPointerEvent_lease_id value, PrivilegedFastPointerEvent_generation value,
        PX_FastPointer (PrivilegedFastPointerEvent_encoded_envelope value)).

(** * The wire *)

(** A monotonic clock: the reading, and the clock as the next reading finds it. *)
Class BridgeClock (C : Type) := { now_ms : C → Z * C }.

Record ProtobufBridgeWire {R C : Type} := {
  pw_rpc : R;
  pw_options : BridgePeerOptions;
  pw_controller_display_name : text;
  pw_route : option ProxyRoute;
  pw_next_frame_sequence : Z;
  pw_last_renewed_at_ms : Z;
  pw_clock : C;
  pw_failed : bool
}.
Arguments ProtobufBridgeWire : clear implicits.

Section wire.
Context {R C : Type} `{BridgeRpc R, BridgeClock C}.

Abbreviation Wire := (ProtobufBridgeWire R C).
Abbreviation Pw A := (M Wire ProxyError A).

Definition set_pw_rpc (rpc : R) (s : Wire) : Wire :=
  {| pw_rpc := rpc; pw_options := pw_options s;
     pw_controller_display_name := pw_controller_display_name s; pw_route := pw_route s;
     pw_next_frame_sequence := pw_next_frame_sequence s;
     pw_last_renewed_at_ms := pw_last_renewed_at_ms s; pw_clock := pw_clock s;
     pw_failed := pw_failed s |}.

Definition set_pw_route (route : option ProxyRoute) (s : Wire) : Wire :=
  {| pw_rpc := pw_rpc s; pw_options := pw_options s;
     pw_controller_display_name := pw_controller_display_name s; pw_route := route;
     pw_next_frame_sequence := pw_next_frame_sequence s;
     pw_last_renewed_at_ms := pw_last_renewed_at_ms s; pw_clock := pw_clock s;
     pw_failed := pw_failed s |}.

Definition set_pw_next (sequence : Z) (s : Wire) : Wire :=
  {| pw_rpc := pw_rpc s; pw_options := pw_options s;
     pw_controller_display_name := pw_controller_display_name s; pw_route := pw_route s;
     pw_next_frame_sequence := sequence;
     pw_last_renewed_at_ms := pw_last_renewed_at_ms s; pw_clock := pw_clock s;
     pw_failed := pw_failed s |}.

Definition set_pw_renewed (at_ms : Z) (s : Wire) : Wire :=
  {| pw_rpc := pw_rpc s; pw_options := pw_options s;
     pw_controller_display_name := pw_controller_display_name s; pw_route := pw_route s;
     pw_next_frame_sequence := pw_next_frame_sequence s;
     pw_last_renewed_at_ms := at_ms; pw_clock := pw_clock s; pw_failed := pw_failed s |}.

Definition set_pw_clock (clock : C) (s : Wire) : Wire :=
  {| pw_rpc := pw_rpc s; pw_options := pw_options s;
     pw_controller_display_name := pw_controller_display_name s; pw_route := pw_route s;
     pw_next_frame_sequence := pw_next_frame_sequence s;
     pw_last_renewed_at_ms := pw_last_renewed_at_ms s; pw_clock := clock;
     pw_failed := pw_failed s |}.

Definition ProtobufBridgeWire_new (rpc : R) (options : BridgePeerOptions)
    (controller_display_name : text) (clock : C) : result ProxyError Wire :=
  validate_controller_display_name controller_display_name;;
  let '(last_renewed_at_ms, clock) := now_ms clock in
  mret {| pw_rpc := rpc; pw_options := options;
          pw_controller_display_name := controller_display_name; pw_route := None;
          pw_next_frame_sequence := 1; pw_last_renewed_at_ms := last_renewed_at_ms;
          pw_clock := clock; pw_failed := false |}.

Definition ProtobufBridgeWire_with_clock (rpc : R) (options : BridgePeerOptions)
    (controller_display_name : text) (route : ProxyRoute) (next_frame_sequence : Z) (clock : C)
    : result ProxyError Wire :=
  fail_if ((pr_generation route =? 0) || (next_frame_sequence =? 0)) PE_InvalidConfiguration;;
  validate_controller_display_name controller_display_name;;
  let '(last_renewed_at_ms, clock) := now_ms clock in
  mret {| pw_rpc := rpc; pw_options := options;
          pw_controller_display_name := controller_display_name; pw_route := Some route;
          pw_next_frame_sequence := next_frame_sequence;
          pw_last_renewed_at_ms := last_renewed_at_ms; pw_clock := clock; pw_failed := false |}.

Definition ProtobufBridgeWire_fail_closed (s : Wire) : Wire :=
  if pw_failed s then s else
  {| pw_rpc := rpc_fail_closed (pw_rpc s); pw_options := pw_options s;
     pw_controller_display_name := pw_controller_display_name s; pw_route := pw_route s;
     pw_next_frame_sequence := pw_next_frame_sequence s;
     pw_last_renewed_at_ms := pw_last_renewed_at_ms s; pw_clock := pw_clock s;
     pw_failed := true |}.

Definition ProtobufBridgeWire_reject {A} (error : ProxyError) : Pw A :=
  modify ProtobufBridgeWire_fail_closed;; mthrow error.

Definition read_clock : Pw Z := λ s,
  let '(now, clock) := now_ms (pw_clock s) in (Ok now, set_pw_clock clock s).

(** The frame numbered [frame_sequence] and the check of its response. *)
Definition exchange (route : ProxyRoute) (frame_sequence : Z)
    (payload : PrivilegedBridgeClientFrame_Payload) : Pw PrivilegedBridgeServerFrame :=
  let request_id := request_id route frame_sequence in
  response ← try (zoom pw_rpc set_pw_rpc
    (rpc_call {| PrivilegedBridgeClientFrame_protocol_version := Some version;
                 PrivilegedBridgeClientFrame_request_id := request_id;
                 PrivilegedBridgeClientFrame_sequence := frame_sequence;
                 PrivilegedBridgeClientFrame_payload := Some payload |}));
  match response with
  | Err error => ProtobufBridgeWire_reject error
  | Ok response =>
      if negb (valid_version (PrivilegedBridgeServerFrame_protocol_version response)) ||
         negb (bool_decide (PrivilegedBridgeServerFrame_request_id response = request_id)) ||
         negb (PrivilegedBridgeServerFrame_sequence response =? frame_sequence)
      then ProtobufBridgeWire_reject PE_StaleResponse
      else mret response
  end.

Definition ProtobufBridgeWire_call (request : BridgeRequest)
    (payload : PrivilegedBridgeClientFrame_Payload) : Pw PrivilegedBridgeServerFrame :=
  self ← get;
  fail_if (pw_failed self) PE_FailedClosed;;
  match pw_route self with
  | Some route =>
      if negb (bool_decide (route = br_route request)) then ProtobufBridgeWire_reject PE_StaleRoute
      else mret ()
  | None => modify (set_pw_route (Some (br_route request)))
  end;;
  let frame_sequence := pw_next_frame_sequence self in
  match checked_add U64_MAX frame_sequence 1 with
  | None => ProtobufBridgeWire_reject PE_FailedClosed
  | Some sequence => modify (set_pw_next sequence)
  end;;
  exchange (br_route request) frame_sequence payload.

Definition ProtobufBridgeWire_accepted (request : BridgeRequest)
    (payload : PrivilegedBridgeClientFrame_Payload) : Pw (BridgeResponse unit) :=
  response ← ProtobufBridgeWire_call request payload;
  match PrivilegedBridgeServerFrame_payload response with
  | Some (PrivilegedBridgeServerFrame_Payload_CommandAccepted value) =>
      route ← lift (client_route (PrivilegedCommandAccepted_lease_id value)
                                 (PrivilegedCommandAccepted_generation value));
      mret {| bp_route := route; bp_sequence := br_sequence request; bp_value := () |}
  | Some (PrivilegedBridgeServerFrame_Payload_Error _) => ProtobufBridgeWire_reject PE_Rejected
  | _ => ProtobufBridgeWire_reject PE_StaleResponse
  end.

Definition ProtobufBridgeWire_renew_if_due : Pw unit :=
  now_ms ← read_clock;
  self ← get;
  if saturating_sub now_ms (pw_last_renewed_at_ms self) <? RENEW_ATTEMPT_INTERVAL_MS
  then mret () else
  route ← ok_or (pw_route self) PE_InvalidMessage;
  response ← ProtobufBridgeWire_call {| br_route := route; br_sequence := 0 |}
    (PrivilegedBridgeClientFrame_Payload_RenewLease
       {| RenewPrivilegedLeaseRequest_lease_id := pr_lease_id route;
          RenewPrivilegedLeaseRequest_generation := pr_generation route |});
  match PrivilegedBridgeServerFrame_payload response with
  | Some (PrivilegedBridgeServerFrame_Payload_Lease lease) =>
      renewed ← lift (client_route (PrivilegedLease_lease_id lease)
                                   (PrivilegedLease_generation lease));
      if negb (bool_decide (renewed = route)) then ProtobufBridgeWire_reject PE_StaleRoute else
      now_ms ← read_clock;
      modify (set_pw_renewed now_ms)
  | _ => ProtobufBridgeWire_reject PE_Rejected
  end.

Definition ProtobufBridgeWire_peer_request (self : Wire) (request : BridgeRequest)
    (config : SessionConfig) (offer_sdp : text)
    : result ProxyError (bytes * Z * PrivilegedPeerConfiguration * WebRtcSessionDescription) :=
  fingerprint ← ok_or (parse_dtls_sha256_fingerprint offer_sdp) PE_InvalidMessage;
  mret (pr_lease_id (br_route request), pr_generation (br_route request),
        BridgePeerOptions_configuration (pw_options self) config,
        {| WebRtcSessionDescription_type := to_i32 SessionDescriptionType_Offer;
           WebRtcSessionDescription_sdp := offer_sdp;
           WebRtcSessionDescription_dtls_fingerprint_sha256 := fingerprint |}).

Definition peer_answer (response : PrivilegedBridgeServerFrame) (proxy_sequence : Z)
    : Pw (BridgeResponse PeerAnswer) :=
  match PrivilegedBridgeServerFrame_payload response with
  | Some (PrivilegedBridgeServerFrame_Payload_PeerAnswer value) =>
      answer ← ok_or (PrivilegedPeerAnswer_answer value) PE_InvalidMessage;
      if negb (bool_decide (SessionDescriptionType_try_from (WebRtcSessionDescription_type answer)
                              = Some SessionDescriptionType_Answer)) ||
         bool_decide (WebRtcSessionDescription_sdp answer = []) ||
         negb (len (WebRtcSessionDescription_dtls_fingerprint_sha256 answer) =?
               NONCE_OR_HASH_BYTES)
      then ProtobufBridgeWire_reject PE_InvalidMessage else
      route ← lift (client_route (PrivilegedPeerAnswer_lease_id value)
                                 (PrivilegedPeerAnswer_generation value));
      mret {| bp_route := route; bp_sequence := proxy_sequence;
              bp_value :=
                {| pa_sdp := WebRtcSessionDescription_sdp answer;
                   pa_dtls_fingerprint_sha256 :=
                     WebRtcSessionDescription_dtls_fingerprint_sha256 answer |} |}
  | Some (PrivilegedBridgeServerFrame_Payload_Error _) => ProtobufBridgeWire_reject PE_Rejected
  | _ => ProtobufBridgeWire_reject PE_StaleResponse
  end.

Definition ProtobufBridgeWire_start (request : BridgeRequest) (config : SessionConfig)
    (offer_sdp : text) : Pw (BridgeResponse PeerAnswer) :=
  ProtobufBridgeWire_renew_if_due;;
  self ← get;
  '(lease_id, generation, configuration, offer) ←
    lift (ProtobufBridgeWire_peer_request self request config offer_sdp);
  response ← ProtobufBridgeWire_call request
    (PrivilegedBridgeClientFrame_Payload_StartPeer
       {| StartPrivilegedPeerRequest_lease_id := lease_id;
          StartPrivilegedPeerRequest_generation := generation;
          StartPrivilegedPeerRequest_configuration := Some configuration;
          StartPrivilegedPeerRequest_offer := Some offer;
          StartPrivilegedPeerRequest_controller_display_name :=
            pw_controller_display_name self |});
  peer_answer response (br_sequence request).

Definition ProtobufBridgeWire_restart (request : BridgeRequest) (config : SessionConfig)
    (offer_sdp : text) : Pw (BridgeResponse PeerAnswer) :=
  ProtobufBridgeWire_renew_if_due;;
  self ← get;
  '(lease_id, generation, configuration, offer) ←
    lift (ProtobufBridgeWire_peer_request self request config offer_sdp);
  response ← ProtobufBridgeWire_call request
    (PrivilegedBridgeClientFrame_Payload_RestartPeer
       {| RestartPrivilegedPeerRequest_lease_id := lease_id;
          RestartPrivilegedPeerRequest_generation := generation;
          RestartPrivilegedPeerRequest_configuration := Some configuration;
          RestartPrivilegedPeerRequest_offer := Some offer;
          RestartPrivilegedPeerRequest_controller_display_name :=
            pw_controller_display_name self |});
  peer_answer response (br_sequence request).

Definition ProtobufBridgeWire_add_candidate (request : BridgeRequest)
    (candidate : PeerIceCandidate) : Pw (BridgeResponse unit) :=
  ProtobufBridgeWire_renew_if_due;;
  let route := br_route request in
  ProtobufBridgeWire_accepted request
    (PrivilegedBridgeClientFrame_Payload_AddIceCandidate
       {| AddPrivilegedIceCandidateRequest_lease_id := pr_lease_id route;
          AddPrivilegedIceCandidateRequest_generation := pr_generation route;
          AddPrivilegedIceCandidateRequest_candidate := Some (to_candidate candidate) |}).

Definition ProtobufBridgeWire_input (request : BridgeRequest) (input : ValidatedInput)
    : Pw (BridgeResponse unit) :=
  ProtobufBridgeWire_renew_if_due;;
  let route := br_route request in
  ProtobufBridgeWire_accepted request
    (PrivilegedBridgeClientFrame_Payload_InputCommand
       {| PrivilegedInputCommand_lease_id := pr_lease_id route;
          PrivilegedInputCommand_generation := pr_generation route;
          PrivilegedInputCommand_input := Some (to_input input) |}).

Definition ProtobufBridgeWire_close (request : BridgeRequest) : Pw (BridgeResponse unit) :=
  let route := br_route request in
  ProtobufBridgeWire_accepted request
    (PrivilegedBridgeClientFrame_Payload_ClosePeer
       {| ClosePrivilegedPeerRequest_lease_id := pr_lease_id route;
          ClosePrivilegedPeerRequest_generation := pr_generation route |}).

Definition ProtobufBridgeWire_release (request : BridgeRequest) : Pw (BridgeResponse unit) :=
  let route := br_route request in
  ProtobufBridgeWire_accepted request
    (PrivilegedBridgeClientFrame_Payload_ReleaseLease
       {| ReleasePrivilegedLeaseRequest_lease_id := pr_lease_id route;
          ReleasePrivilegedLeaseRequest_generation := pr_generation route |}).

(** The event of a server frame. *)
Definition frame_event (frame : PrivilegedBridgeServerFrame) : Pw (bytes * Z * ProxyEvent) :=
  match PrivilegedBridgeServerFrame_payload frame with
  | Some (PrivilegedBridgeServerFrame_Payload_LocalIceCandidate value) =>
      lift (map_candidate_event value)
  | Some (PrivilegedBridgeServerFrame_Payload_PeerStateChanged value) =>
      event ← match PrivilegedPeerState_try_from (PrivilegedPeerStateChanged_state value) with
              | Some PrivilegedPeerState_Connected => mret PX_Connected
              | Some PrivilegedPeerState_Disconnected => mret PX_Disconnected
              | Some PrivilegedPeerState_Failed => mret PX_Failed
              | Some PrivilegedPeerState_Closed => mret PX_LocalStop
              | _ => ProtobufBridgeWire_reject PE_InvalidMessage
              end;
      mret (PrivilegedPeerStateChanged_lease_id value,
            PrivilegedPeerStateChanged_generation value, event)
  | Some (PrivilegedBridgeServerFrame_Payload_ReliableInput value) =>
      lift (map_reliable_event value)
  | Some (PrivilegedBridgeServerFrame_Payload_FastPointer value) =>
      lift (map_fast_event value)
  | Some (PrivilegedBridgeServerFrame_Payload_Error _) => ProtobufBridgeWire_reject PE_Rejected
  | _ => ProtobufBridgeWire_reject PE_StaleResponse
  end.

Definition ProtobufBridgeWire_try_event : Pw (option (BridgeResponse ProxyEvent)) :=
  self ← get;
  fail_if (pw_failed self) PE_FailedClosed;;
  ProtobufBridgeWire_renew_if_due;;
  frame ← try (zoom pw_rpc set_pw_rpc rpc_try_event);
  match frame with
  | Ok None => mret None
  | Err error => ProtobufBridgeWire_reject error
  | Ok (Some frame) =>
      if negb (valid_version (PrivilegedBridgeServerFrame_protocol_version frame)) ||
         (PrivilegedBridgeServerFrame_sequence frame =? 0)
      then ProtobufBridgeWire_reject PE_StaleResponse
      else
      event ← frame_event frame;
      route ← lift (client_route event.1.1 event.1.2);
      mret (Some {| bp_route := route; bp_sequence := PrivilegedBridgeServerFrame_sequence frame;
                    bp_value := event.2 |})
  end.
End wire.

#[export] Instance ProtobufBridgeWire_wire {R C : Type} `{BridgeRpc R, BridgeClock C}
    : BridgeWire (ProtobufBridgeWire R C) := {
  wire_start := ProtobufBridgeWire_start;
  wire_restart := ProtobufBridgeWire_restart;
  wire_add_candidate := ProtobufBridgeWire_add_candidate;
  wire_input := ProtobufBridgeWire_input;
  wire_close := ProtobufBridgeWire_close;
  wire_release := ProtobufBridgeWire_release;
  wire_try_event := ProtobufBridgeWire_try_event;
  wire_fail_closed := ProtobufBridgeWire_fail_closed
}.

(** * Connecting *)

Record BridgeConnection {R : Type} := {
  bc_route : ProxyRoute;
  bc_rpc : R;
  bc_next_frame_sequence : Z
}.
Arguments BridgeConnection : clear implicits.

Definition BridgeConnection_new {R} (route : ProxyRoute) (rpc : R) : BridgeConnection R :=
  {| bc_route := route; bc_rpc := rpc; bc_next_frame_sequence := 1 |}.

Definition BridgeConnection_with_next_frame_sequence {R} (route : ProxyRoute) (rpc : R)
    (next_frame_sequence : Z) : BridgeConnection R :=
  {| bc_route := route; bc_rpc := rpc; bc_next_frame_sequence := next_frame_sequence |}.

Class BridgeRpcConnector (K R : Type) := {
  connector_connect : ProxySessionContext → M K ProxyError (BridgeConnection R)
}.

Record RpcProxyPartsFactory {K : Type} := { pf_connector : K; pf_options : BridgePeerOptions }.
Arguments RpcProxyPartsFactory : clear implicits.

(** The system clock of the new wire is an argument. *)
Definition RpcProxyPartsFactory_create {K R C : Type}
    `{BridgeRpcConnector K R, BridgeRpc R, BridgeClock C} (clock : C)
    (context : ProxySessionContext)
    : M (RpcProxyPartsFactory K) ProxyError (ProxyShared (ProtobufBridgeWire R C)) :=
  self ← get;
  connection ← zoom pf_connector (λ k s, {| pf_connector := k; pf_options := pf_options s |})
    (connector_connect context);
  wire ← lift (ProtobufBridgeWire_with_clock (bc_rpc connection) (pf_options self)
                 (ctx_controller_display_name context) (bc_route connection)
                 (bc_next_frame_sequence connection) clock);
  mret (new_proxy_parts (bc_route connection) wire).

(** * Lemmas: texts *)

Lemma text_len_app a b : text_len (a ++ b) = text_len a + text_len b.
Proof. induction a as [|c a IH]; simpl; lia. Qed.

Lemma text_len_ascii s : Forall (λ c, c < 128) s → text_len s = len s.
Proof.
  unfold len. induction 1 as [|c s Hc _ IH]; simpl; [done|]. unfold utf8_width.
  rewrite (proj2 (Z.ltb_lt _ _) Hc). lia.
Qed.

Definition is_digit (c : Z) : Prop := 48 <= c <= 57.

Lemma lit_cons a s : lit (String a s) = Z.of_N (Ascii.N_of_ascii a) :: lit s.
Proof. done. Qed.

Lemma pretty_char_digit n : is_digit (Z.of_N (Ascii.N_of_ascii (pretty_N_char n))).
Proof. unfold is_digit, pretty_N_char. by repeat case_match. Qed.

Lemma pretty_go_digits (k : nat) (n : N) s :
  (n < 10 ^ N.of_nat k)%N → Forall is_digit (lit s) →
  Forall is_digit (lit (pretty_N_go n s)) ∧
  (length (lit (pretty_N_go n s)) <= k + length (lit s))%nat.
Proof.
  revert n s. induction k as [|k IH]; intros n s Hn Hs.
  { assert (n = 0%N) as -> by (simpl in Hn; lia). rewrite pretty_N_go_0. auto with lia. }
  destruct (decide (n = 0%N)) as [->|Hz]; [rewrite pretty_N_go_0; split; [done|lia]|].
  rewrite pretty_N_go_step by lia.
  destruct (IH (n `div` 10)%N (String (pretty_N_char (n `mod` 10)) s)) as [Hd Hl].
  - apply N.Div0.div_lt_upper_bound. rewrite Nat2N.inj_succ, N.pow_succ_r' in Hn. lia.
  - rewrite lit_cons. constructor; [apply pretty_char_digit|done].
  - split; [done|]. rewrite lit_cons in Hl. simpl in Hl. lia.
Qed.

(** A [u64] takes at most twenty digits. *)
Lemma decimal_u64 z : is_u64 z → Forall is_digit (decimal z) ∧ len (decimal z) <= 20.
Proof.
  intros Hz. unfold decimal. unfold pretty, pretty_N. case_decide as H0.
  { split; [by repeat constructor|done]. }
  destruct (pretty_go_digits 20 (Z.to_N z) "") as [Hd Hl]; [|done|].
  - unfold is_u64, U64_MAX in Hz. change (10 ^ N.of_nat 20)%N with 100000000000000000000%N. lia.
  - split; [done|]. unfold len. simpl length in Hl. lia.
Qed.

Lemma text_len_decimal z : is_u64 z → text_len (decimal z) <= 20.
Proof.
  intros [Hd Hl]%decimal_u64. rewrite text_len_ascii; [done|].
  eapply Forall_impl; [exact Hd|]. unfold is_digit. lia.
Qed.

Lemma request_id_bound route n :
  is_u64 (pr_generation route) → is_u64 n →
  text_len (request_id route n) <= MAX_REQUEST_ID_UTF8_BYTES.
Proof.
  intros Hg%text_len_decimal Hn%text_len_decimal. unfold request_id.
  rewrite !text_len_app.
  change (text_len REQUEST_ID_PREFIX) with 7. change (text_len (lit "-")) with 1.
  unfold MAX_REQUEST_ID_UTF8_BYTES. lia.
Qed.

(** * Runs over a recorded RPC

    The log is what the wire asked of the transport; a run calls the operations of the wire in
    any order, with any requests. *)
Inductive RpcLog :=
| RL_Call (frame : PrivilegedBridgeClientFrame)
| RL_Poll
| RL_FailClosed.

Definition record_rpc {R E A} (entry : RpcLog) (m : M R E A) : M (R * list RpcLog) E A :=
  λ rl, let '(r, t) := m rl.1 in (r, (t, rl.2 ++ [entry])).

#[export] Instance recorded_rpc {R : Type} `{BridgeRpc R} : BridgeRpc (R * list RpcLog) := {
  rpc_call frame := record_rpc (RL_Call frame) (rpc_call frame);
  rpc_try_event := record_rpc RL_Poll rpc_try_event;
  rpc_fail_closed rl := (rpc_fail_closed rl.1, rl.2 ++ [RL_FailClosed])
}.

Inductive WireOp :=
| WoStart (request : BridgeRequest) (config : SessionConfig) (offer : text)
| WoRestart (request : BridgeRequest) (config : SessionConfig) (offer : text)
| WoCandidate (request : BridgeRequest) (candidate : PeerIceCandidate)
| WoInput (request : BridgeRequest) (input : ValidatedInput)
| WoClose (request : BridgeRequest)
| WoRelease (request : BridgeRequest)
| WoPoll
| WoFailClosed.

Section runs.
Context {R C : Type} `{BridgeRpc R, BridgeClock C}.

Definition wire_exec (op : WireOp) (s : ProtobufBridgeWire (R * list RpcLog) C)
    : ProtobufBridgeWire (R * list RpcLog) C :=
  match op with
  | WoStart request config offer => (ProtobufBridgeWire_start request config offer s).2
  | WoRestart request config offer => (ProtobufBridgeWire_restart request config offer s).2
  | WoCandidate request candidate => (ProtobufBridgeWire_add_candidate request candidate s).2
  | WoInput request input => (ProtobufBridgeWire_input request input s).2
  | WoClose request => (ProtobufBridgeWire_close request s).2
  | WoRelease request => (ProtobufBridgeWire_release request s).2
  | WoPoll => (ProtobufBridgeWire_try_event s).2
  | WoFailClosed => ProtobufBridgeWire_fail_closed s
  end.

Definition wire_run (ops : list WireOp) (s : ProtobufBridgeWire (R * list RpcLog) C)
    : ProtobufBridgeWire (R * list RpcLog) C := foldl (λ s op, wire_exec op s) s ops.
End runs.

(** The route a request frame names. *)
Definition payload_route (payload : PrivilegedBridgeClientFrame_Payload)
    : option (bytes * Z) :=
  match payload with
  | PrivilegedBridgeClientFrame_Payload_RenewLease v =>
      Some (RenewPrivilegedLeaseRequest_lease_id v, RenewPrivilegedLeaseRequest_generation v)
  | PrivilegedBridgeClientFrame_Payload_ReleaseLease v =>
      Some (ReleasePrivilegedLeaseRequest_lease_id v, ReleasePrivilegedLeaseRequest_generation v)
  | PrivilegedBridgeClientFrame_Payload_StartPeer v =>
      Some (StartPrivilegedPeerRequest_lease_id v, StartPrivilegedPeerRequest_generation v)
  | PrivilegedBridgeClientFrame_Payload_RestartPeer v =>
      Some (RestartPrivilegedPeerRequest_lease_id v, RestartPrivilegedPeerRequest_generation v)
  | PrivilegedBridgeClientFrame_Payload_AddIceCandidate v =>
      Some (AddPrivilegedIceCandidateRequest_lease_id v,
            AddPrivilegedIceCandidateRequest_generation v)
  | PrivilegedBridgeClientFrame_Payload_InputCommand v =>
      Some (PrivilegedInputCommand_lease_id v, PrivilegedInputCommand_generation v)
  | PrivilegedBridgeClientFrame_Payload_ClosePeer v =>
      Some (ClosePrivilegedPeerRequest_lease_id v, ClosePrivilegedPeerRequest_generation v)
  | _ => None
  end.

Definition frame_route (frame : PrivilegedBridgeClientFrame) : option (bytes * Z) :=
  PrivilegedBridgeClientFrame_payload frame ≫= payload_route.

(** What the broker may rely on: one connection's frames are numbered consecutively, their
    identifiers are made of the generation and the number, they all name the leased route and
    the authenticated controller, and after [fail_closed] nothing follows. *)
Record WireSpec := { ws_next : Z; ws_dead : bool }.

Definition wire_spec_step (route : ProxyRoute) (name : text) (sp : WireSpec) (entry : RpcLog)
    : option WireSpec :=
  guard (ws_dead sp = false);;
  match entry with
  | RL_Call frame =>
      guard (PrivilegedBridgeClientFrame_sequence frame = ws_next sp);;
      guard (PrivilegedBridgeClientFrame_request_id frame = request_id route (ws_next sp));;
      guard (frame_route frame = Some (pr_lease_id route, pr_generation route));;
      guard (default name (request_controller_display_name frame) = name);;
      Some {| ws_next := ws_next sp + 1; ws_dead := false |}
  | RL_Poll => Some sp
  | RL_FailClosed => Some {| ws_next := ws_next sp; ws_dead := true |}
  end.

Definition wire_spec_run (route : ProxyRoute) (name : text) (first : Z) (log : list RpcLog)
    : option WireSpec :=
  foldl (λ o entry, o ≫= λ sp, wire_spec_step route name sp entry)
    (Some {| ws_next := first; ws_dead := false |}) log.

Definition sent (log : list RpcLog) : list PrivilegedBridgeClientFrame :=
  omap (λ entry, match entry with RL_Call frame => Some frame | _ => None end) log.

(** The bounds a caller keeps so that its frames decode at the broker: those of the source's
    session layer. *)
Definition input_bounded (input : ValidatedInput) : Prop :=
  match input with
  | VI_Keyboard action _ _ => action ≠ KeyboardAction_Unspecified
  | VI_PointerButton button action _ _ =>
      button ≠ PointerButton_Unspecified ∧ action ≠ ButtonAction_Unspecified
  | VI_Text value => text_len value <= MAX_TEXT_INPUT_UTF8_BYTES
  | _ => True
  end.

Definition op_bounded (op : WireOp) : Prop :=
  match op with
  | WoStart _ _ offer | WoRestart _ _ offer => text_len offer <= MAX_SDP_UTF8_BYTES
  | WoCandidate _ candidate => candidate_ok (to_candidate candidate)
  | WoInput _ input => input_bounded input
  | _ => True
  end.

Definition options_ok (options : BridgePeerOptions) : Prop :=
  len (bo_ice_servers options) <= MAX_PRIVILEGED_ICE_SERVERS ∧
  Forall (λ server, ice_server_ok (BridgeIceServer_to_proto server)) (bo_ice_servers options).

(** * Lemmas: configuration and descriptions *)

Lemma BridgeIceServer_new_ok urls username credential server :
  BridgeIceServer_new urls username credential = Ok server ↔
  ice_server_ok {| PrivilegedIceServer_urls := urls; PrivilegedIceServer_username := username;
                   PrivilegedIceServer_credential := credential |} ∧
  BridgeIceServer_to_proto server =
    {| PrivilegedIceServer_urls := urls; PrivilegedIceServer_username := username;
       PrivilegedIceServer_credential := credential |}.
Proof.
  unfold BridgeIceServer_new, ice_server_ok, BridgeIceServer_to_proto. simpl.
  match goal with |- (fail_if ?c _;; _) = _ ↔ _ => destruct c eqn:Hc end; unmonad.
  - split; [done|]. intros [[[Hne Hl] (Hf&Hu&Hcr)] _]. exfalso.
    boolsimpl; try done; try lia. apply existsb_exists in H as (u&Hin&Hb).
    rewrite Forall_forall in Hf. specialize (Hf u (proj2 (list_elem_of_In _ _) Hin)) as [??].
    boolsimpl; [done|lia].
  - boolsimpl. split.
    + intros [= <-]. simpl. split_and!; try done. apply Forall_forall. intros u Hu.
      assert (existsb (λ url, bool_decide (url = []) ||
        (MAX_SIGNALING_ENDPOINT_UTF8_BYTES <? text_len url)) urls = false) as Hx by done.
      unfold name_ok. destruct (bool_decide (u = []) || (MAX_SIGNALING_ENDPOINT_UTF8_BYTES <? text_len u)) eqn:Hb.
      * exfalso. assert (existsb (λ url, bool_decide (url = []) ||
        (MAX_SIGNALING_ENDPOINT_UTF8_BYTES <? text_len url)) urls = true) by
          (apply existsb_exists; exists u; split; [by apply list_elem_of_In|done]). congruence.
      * boolsimpl. done.
    + intros [_ Hp]. destruct server. by simplify_eq/=.
Qed.

Lemma BridgePeerOptions_new_ok servers options :
  BridgePeerOptions_new servers = Ok options ↔
  len servers <= MAX_PRIVILEGED_ICE_SERVERS ∧ options = {| bo_ice_servers := servers |}.
Proof.
  unfold BridgePeerOptions_new.
  destruct (MAX_PRIVILEGED_ICE_SERVERS <? len servers) eqn:Hc; unmonad; boolsimpl; naive_solver lia.
Qed.

Lemma configuration_ok options config :
  options_ok options → peer_configuration_ok (BridgePeerOptions_configuration options config).
Proof.
  intros [Hl Hf]. unfold peer_configuration_ok, BridgePeerOptions_configuration. simpl.
  split_and!.
  - unfold known. destruct (ice_transport_policy config); eexists; (split; [reflexivity|done]).
  - unfold len in *. by rewrite length_map.
  - by apply Forall_map.
Qed.

Lemma parse_fingerprint_len sdp fp :
  parse_dtls_sha256_fingerprint sdp = Some fp → len fp = NONCE_OR_HASH_BYTES ∧ sdp ≠ [].
Proof.
  unfold parse_dtls_sha256_fingerprint. intros Hp.
  destruct (head (omap fingerprint_line (text_lines sdp))) as [e|] eqn:He; [|done]. simpl in Hp.
  case_match eqn:Hc; [done|]. boolsimpl. split.
  - apply mapM_Some_1, Forall2_length in Hp. unfold len in *. by rewrite <- Hp.
  - by intros ->.
Qed.

(** * The invariant of a connected wire *)

Section invariant.
Context {R C : Type} `{BridgeRpc R, BridgeClock C}.
Context (route : ProxyRoute) (name : text) (first : Z) (bounded : Prop).

Implicit Types s : ProtobufBridgeWire (R * list RpcLog) C.

(** [bounded] is what was assumed of the operations so far. *)
Record wire_inv s : Prop := {
  wi_route : pw_route s = Some route;
  wi_name : pw_controller_display_name s = name;
  wi_options : options_ok (pw_options s);
  wi_next : 0 < pw_next_frame_sequence s <= U64_MAX;
  wi_spec : wire_spec_run route name first (pw_rpc s).2 =
              Some {| ws_next := pw_next_frame_sequence s; ws_dead := pw_failed s |};
  wi_sent : bounded → Forall client_frame_ok (sent (pw_rpc s).2)
}.

Hypothesis route_ok : valid_route route.
Hypothesis generation_u64 : is_u64 (pr_generation route).
Hypothesis name_valid : name_ok MAX_DEVICE_NAME_UTF8_BYTES name.

Lemma wire_spec_snoc log entry sp :
  wire_spec_run route name first log = Some sp →
  wire_spec_run route name first (log ++ [entry]) = wire_spec_step route name sp entry.
Proof. unfold wire_spec_run. rewrite foldl_app. simpl. by intros ->. Qed.

Lemma sent_snoc log entry :
  sent (log ++ [entry]) = sent log ++ match entry with RL_Call frame => [frame] | _ => [] end.
Proof. unfold sent. rewrite omap_app. f_equal. by destruct entry. Qed.

Lemma fail_closed_inv s : wire_inv s → wire_inv (ProtobufBridgeWire_fail_closed s).
Proof.
  intros [? ? ? ? Hs Hf]. unfold ProtobufBridgeWire_fail_closed.
  destruct (pw_failed s) eqn:Hd; [by split; rewrite ?Hd|].
  split; try done; simpl.
  - rewrite (wire_spec_snoc _ _ _ Hs). done.
  - rewrite sent_snoc, app_nil_r. done.
Qed.

Lemma reject_keeps {A} error :
  keeps wire_inv (ProtobufBridgeWire_reject error : M _ ProxyError A).
Proof.
  unfold ProtobufBridgeWire_reject. apply keeps_bind; [|intros []; apply keeps_throw].
  apply keeps_modify, fail_closed_inv.
Qed.

Lemma read_clock_keeps : keeps wire_inv read_clock.
Proof.
  intros s [? ? ? ? ? ?]. unfold read_clock. destruct (now_ms (pw_clock s)). by split.
Qed.

Lemma set_renewed_keeps at_ms : keeps wire_inv (modify (set_pw_renewed at_ms) : M _ ProxyError unit).
Proof. apply keeps_modify. intros s [? ? ? ? ? ?]. by split. Qed.

(** A payload that the call may send. *)
Definition sendable (payload : PrivilegedBridgeClientFrame_Payload) : Prop :=
  payload_route payload = Some (pr_lease_id route, pr_generation route) ∧
  default name (request_controller_display_name
    {| PrivilegedBridgeClientFrame_protocol_version := None;
       PrivilegedBridgeClientFrame_request_id := [];
       PrivilegedBridgeClientFrame_sequence := 0;
       PrivilegedBridgeClientFrame_payload := Some payload |}) = name ∧
  (bounded → client_payload_ok payload).

Lemma exchange_keeps s payload sequence :
  wire_inv s → pw_failed s = false → sendable payload →
  checked_add U64_MAX (pw_next_frame_sequence s) 1 = Some sequence →
  wire_inv (exchange route (pw_next_frame_sequence s) payload (set_pw_next sequence s)).2.
Proof.
  intros Hinv Hd (Hroute&Hname&Hok) Hseq. unfold exchange.
  set (frame := {| PrivilegedBridgeClientFrame_protocol_version := Some version |}).
  assert (wire_inv (zoom pw_rpc set_pw_rpc (rpc_call frame) (set_pw_next sequence s)).2) as Hz.
  { unfold zoom. simpl. unfold record_rpc.
    destruct (rpc_call frame (pw_rpc s).1) as [r t]. simpl. destruct Hinv as [? ? ? Hn Hs Hf].
    unfold checked_add in Hseq. case_match eqn:Hle; [|done]. apply Z.leb_le in Hle. simplify_eq.
    split; try done; simpl.
    - lia.
    - rewrite (wire_spec_snoc _ _ _ Hs). unfold wire_spec_step, frame_route. simpl.
      rewrite Hd, option_guard_True by done. simpl. rewrite option_guard_True by done. simpl.
      rewrite option_guard_True by done. simpl. rewrite option_guard_True by done. simpl.
      rewrite option_guard_True by done. done.
    - intros Hb. rewrite sent_snoc. apply Forall_app_2; [by apply Hf|]. apply Forall_singleton.
      split_and!; simpl.
      + eexists. split; [done|]. split; [done|]. simpl. unfold MINIMUM_PROTOCOL_MINOR_VERSION. lia.
      + apply request_id_bound; [done|]. unfold is_u64. lia.
      + lia.
      + eexists. split; [done|]. by apply Hok. }
  rewrite bind_run. unfold try. destruct (zoom _ _ _ _) as [r s1]. simpl in Hz.
  destruct r as [response|error]; [|by apply reject_keeps].
  case_match; [by apply reject_keeps|done].
Qed.

Lemma call_keeps request payload :
  (br_route request = route → sendable payload) →
  keeps wire_inv (ProtobufBridgeWire_call request payload).
Proof.
  intros Hp s Hs. unfold ProtobufBridgeWire_call. rewrite bind_get, bind_fail_if.
  destruct (pw_failed s) eqn:Hd; [done|]. rewrite (wi_route s Hs), bind_run.
  destruct (bool_decide (route = br_route request)) eqn:Hb; simpl; boolsimpl.
  2: { by apply fail_closed_inv. }
  rewrite <- Hb. rewrite bind_run.
  destruct (checked_add U64_MAX (pw_next_frame_sequence s) 1) as [sequence|] eqn:Hc; simpl.
  - apply exchange_keeps; [done..|by apply Hp|done].
  - by apply fail_closed_inv.
Qed.

Hint Resolve reject_keeps read_clock_keeps set_renewed_keeps : keeps.

Lemma accepted_keeps request payload :
  (br_route request = route → sendable payload) →
  keeps wire_inv (ProtobufBridgeWire_accepted request payload).
Proof.
  intros Hp. unfold ProtobufBridgeWire_accepted. pose proof (call_keeps request payload Hp). keeps.
Qed.

Lemma lease_ref_valid : lease_ref_ok (pr_lease_id route) (pr_generation route).
Proof. destruct route_ok. by split. Qed.

Lemma sendable_lease payload :
  payload_route payload = Some (pr_lease_id route, pr_generation route) →
  request_controller_display_name
    {| PrivilegedBridgeClientFrame_protocol_version := None;
       PrivilegedBridgeClientFrame_request_id := [];
       PrivilegedBridgeClientFrame_sequence := 0;
       PrivilegedBridgeClientFrame_payload := Some payload |} = None →
  (bounded → client_payload_ok payload) → sendable payload.
Proof. intros ? Hn ?. split_and!; [done|by rewrite Hn|done]. Qed.

Lemma renew_keeps : keeps wire_inv ProtobufBridgeWire_renew_if_due.
Proof.
  unfold ProtobufBridgeWire_renew_if_due. apply keeps_bind; [apply read_clock_keeps|intros now].
  apply keeps_get. intros s Hs. rewrite (wi_route s Hs). case_match; [apply keeps_ret|].
  apply keeps_some. intros ? [= <-].
  match goal with |- keeps _ (ProtobufBridgeWire_call ?q ?p ≫= _) =>
    assert (keeps wire_inv (ProtobufBridgeWire_call q p)) end; [|keeps].
  apply call_keeps. intros _. apply sendable_lease; [done..|]. intros _. apply lease_ref_valid.
Qed.

Hint Resolve renew_keeps : keeps.

Lemma peer_answer_keeps response sequence : keeps wire_inv (peer_answer response sequence).
Proof. unfold peer_answer. keeps. Qed.

Hint Resolve peer_answer_keeps : keeps.

(** The request part of [start] and of [restart]. *)
Lemma peer_request_ok_of s request config offer id g c d :
  wire_inv s → br_route request = route → text_len offer <= MAX_SDP_UTF8_BYTES →
  ProtobufBridgeWire_peer_request s request config offer = Ok (id, g, c, d) →
  peer_request_ok (pr_lease_id route) (pr_generation route) (Some c) (Some d) name.
Proof.
  intros Hs Hq Ho Hp. unfold ProtobufBridgeWire_peer_request in Hp.
  destruct (parse_dtls_sha256_fingerprint offer) as [fp|] eqn:Hfp; [|done]. simpl in Hp.
  unfold mret, result_ret in Hp. simplify_eq.
  apply parse_fingerprint_len in Hfp as [Hl Hne].
  split; [apply lease_ref_valid|]. eexists. split; [done|]. split; [apply configuration_ok, Hs|].
  split; [done|]. eexists. split; [done|]. split_and!; [done|by split|done].
Qed.

Lemma peer_request_route s request config offer id g c d :
  ProtobufBridgeWire_peer_request s request config offer = Ok (id, g, c, d) →
  id = pr_lease_id (br_route request) ∧ g = pr_generation (br_route request).
Proof.
  unfold ProtobufBridgeWire_peer_request.
  destruct (parse_dtls_sha256_fingerprint offer); simpl; [|done]. by intros [= <- <- <- <-].
Qed.

Lemma start_keeps request config offer :
  (bounded → text_len offer <= MAX_SDP_UTF8_BYTES) →
  keeps wire_inv (ProtobufBridgeWire_start request config offer) ∧
  keeps wire_inv (ProtobufBridgeWire_restart request config offer).
Proof.
  intros Ho. unfold ProtobufBridgeWire_start, ProtobufBridgeWire_restart.
  split; (apply keeps_bind; [apply renew_keeps|intros _]; apply keeps_get; intros s Hs;
    apply keeps_lift; intros [[[id g] c] d] Hp;
    match goal with |- keeps _ (ProtobufBridgeWire_call ?q ?p ≫= _) =>
      assert (keeps wire_inv (ProtobufBridgeWire_call q p)) end; [|keeps];
    apply call_keeps; intros Hq; pose proof (peer_request_route _ _ _ _ _ _ _ _ Hp) as [-> ->];
    rewrite Hq; split_and!; [done|simpl; by rewrite (wi_name s Hs)|];
    intros Hb; simpl; rewrite (wi_name s Hs); eapply peer_request_ok_of; eauto).
Qed.

Lemma to_input_ok input : input_bounded input → input_ok (to_input input).
Proof.
  destruct input as [a ? ?|b a ? ?|? ? ?|? ?|?|]; simpl; unfold known; try done.
  - intros Ha. exists a. by destruct a.
  - intros [Hb Ha]. split; [exists b; by destruct b|exists a; by destruct a].
Qed.

Lemma lease_ops_keep request :
  keeps wire_inv (ProtobufBridgeWire_close request) ∧
  keeps wire_inv (ProtobufBridgeWire_release request).
Proof.
  split; (apply accepted_keeps; intros Hq; rewrite Hq; apply sendable_lease; [done..|];
    intros _; apply lease_ref_valid).
Qed.

Lemma candidate_keeps request candidate :
  (bounded → candidate_ok (to_candidate candidate)) →
  keeps wire_inv (ProtobufBridgeWire_add_candidate request candidate).
Proof.
  intros Hc. apply keeps_bind; [apply renew_keeps|intros _]. apply accepted_keeps.
  intros Hq. rewrite Hq. apply sendable_lease; [done..|]. intros Hb.
  split; [apply lease_ref_valid|]. eexists. split; [done|by apply Hc].
Qed.

Lemma input_keeps request input :
  (bounded → input_bounded input) → keeps wire_inv (ProtobufBridgeWire_input request input).
Proof.
  intros Hc. apply keeps_bind; [apply renew_keeps|intros _]. apply accepted_keeps.
  intros Hq. rewrite Hq. apply sendable_lease; [done..|]. intros Hb.
  split; [apply lease_ref_valid|]. eexists. split; [done|by apply to_input_ok, Hc].
Qed.

Lemma frame_event_keeps frame : keeps wire_inv (frame_event frame).
Proof. unfold frame_event. keeps. Qed.

Hint Resolve frame_event_keeps : keeps.

(** A call that returns an answer leaves the wire usable. *)
Lemma exchange_ok_live r n payload s f s' :
  exchange r n payload s = (Ok f, s') → pw_failed s' = pw_failed s.
Proof.
  unfold exchange. rewrite bind_run. unfold try, zoom.
  destruct (rpc_call _ _) as [[response|] t]; simpl; [|done].
  case_match; [done|]. unfold mret, M_ret. by intros [= <- <-].
Qed.

Lemma call_ok_live request payload s f s' :
  ProtobufBridgeWire_call request payload s = (Ok f, s') → pw_failed s' = false.
Proof.
  unfold ProtobufBridgeWire_call. rewrite bind_get, bind_fail_if.
  destruct (pw_failed s) eqn:Hd; [done|]. rewrite bind_run.
  destruct (pw_route s) as [r|]; [destruct (negb (bool_decide (r = br_route request)))|];
    [done|unfold mret, M_ret|unfold modify]; rewrite bind_run;
    (destruct (checked_add U64_MAX (pw_next_frame_sequence s) 1); [|done]);
    unfold modify; intros Hx%exchange_ok_live; by rewrite Hx.
Qed.

Lemma renew_ok_live s s' :
  ProtobufBridgeWire_renew_if_due s = (Ok (), s') → pw_failed s = false → pw_failed s' = false.
Proof.
  unfold ProtobufBridgeWire_renew_if_due. intros Hr Hd. rewrite bind_run in Hr.
  unfold read_clock in Hr at 1. destruct (now_ms (pw_clock s)) as [now c]. rewrite bind_get in Hr.
  case_match; [unfold mret, M_ret in Hr; by simplify_eq|].
  destruct (pw_route (set_pw_clock c s)) as [r|]; [|done].
  rewrite bind_some, bind_run in Hr.
  destruct (ProtobufBridgeWire_call _ _ _) as [[f|] s1] eqn:Hc; [|done].
  apply call_ok_live in Hc. destruct (PrivilegedBridgeServerFrame_payload f) as [[]|]; try done.
  rewrite bind_lift in Hr. destruct (client_route _ _); [|done].
  case_match; [done|]. rewrite bind_run in Hr. unfold read_clock in Hr.
  destruct (now_ms (pw_clock s1)). unfold modify in Hr. by simplify_eq.
Qed.

Lemma try_event_keeps : keeps wire_inv ProtobufBridgeWire_try_event.
Proof.
  intros s Hs. unfold ProtobufBridgeWire_try_event. rewrite bind_get, bind_fail_if.
  destruct (pw_failed s) eqn:Hd; [done|]. rewrite bind_run. pose proof (renew_keeps s Hs) as H1s.
  destruct (ProtobufBridgeWire_renew_if_due s) as [[[]|e] s1] eqn:Hr; [|done].
  apply renew_ok_live in Hr; [|done]. simpl in H1s.
  assert (wire_inv (zoom pw_rpc set_pw_rpc rpc_try_event s1).2) as Hz.
  { unfold zoom. simpl. unfold record_rpc. destruct (rpc_try_event (pw_rpc s1).1) as [r t].
    destruct H1s as [? ? ? ? Hsp ?]. split; try done; simpl.
    - rewrite (wire_spec_snoc _ _ _ Hsp), Hr. done.
    - by rewrite sent_snoc, app_nil_r. }
  rewrite bind_run. unfold try. destruct (zoom _ _ _ _) as [r s2]. simpl in Hz.
  destruct r as [[frame|]|e]; [|done|by apply reject_keeps].
  match goal with |- wire_inv (?m s2).2 => assert (keeps wire_inv m) as Hm; [|by apply Hm] end.
  keeps.
Qed.

Lemma wire_exec_inv op s :
  (bounded → op_bounded op) → wire_inv s → wire_inv (wire_exec op s).
Proof.
  intros Hb Hs. destruct op; simpl in *.
  - exact (proj1 (start_keeps request config offer Hb) s Hs).
  - exact (proj2 (start_keeps request config offer Hb) s Hs).
  - exact (candidate_keeps request candidate Hb s Hs).
  - exact (input_keeps request input Hb s Hs).
  - exact (proj1 (lease_ops_keep request) s Hs).
  - exact (proj2 (lease_ops_keep request) s Hs).
  - exact (try_event_keeps s Hs).
  - by apply fail_closed_inv.
Qed.

Lemma wire_run_inv ops s :
  (bounded → Forall op_bounded ops) → wire_inv s → wire_inv (wire_run ops s).
Proof.
  revert s. induction ops as [|op ops IH]; intros s Hb Hs; [done|].
  apply IH; [intros Hp; by apply Hb in Hp as [_ ?]%Forall_cons|].
  apply wire_exec_inv; [intros Hp; by apply Hb in Hp as [? _]%Forall_cons|done].
Qed.
End invariant.

Lemma display_name_ok name :
  validate_controller_display_name name = Ok () → name_ok MAX_DEVICE_NAME_UTF8_BYTES name.
Proof. unfold validate_controller_display_name. intros Hn. run Hn. by split; [|lia]. Qed.

(** Options and servers come from their constructors. *)
Definition options_built (options : BridgePeerOptions) : Prop :=
  BridgePeerOptions_new (bo_ice_servers options) = Ok options ∧
  Forall (λ server, ∃ urls username credential,
    BridgeIceServer_new urls username credential = Ok server) (bo_ice_servers options).

Lemma options_built_ok options : options_built options → options_ok options.
Proof.
  intros [[? _]%BridgePeerOptions_new_ok Hf]. split; [done|].
  eapply Forall_impl; [exact Hf|]. intros server (u&n&c&[Hok ->]%BridgeIceServer_new_ok). done.
Qed.

(** * Properties *)

(** C18. Refinement: what a connected wire sends obeys the broker's frame discipline, whatever
    the transport answers, the clock shows and the proxy asks: its frames are numbered
    consecutively from the connection's first number, carry the identifier made of the
    generation and that number, name the leased route and the authenticated controller, and
    nothing follows [fail_closed]. When the operations keep the session layer's bounds, every
    frame meets the specification of the broker's strict decoder, so a request is never
    rejected as malformed. *)
Theorem wire_refines_frames {R C : Type} `{BridgeRpc R, BridgeClock C} (transport : R)
    (clock : C) options name route first w ops :
  ProtobufBridgeWire_with_clock (transport, []) options name route first clock = Ok w →
  valid_route route → is_u64 (pr_generation route) → is_u64 first → options_built options →
  let s := wire_run ops w in
  wire_spec_run route name first (pw_rpc s).2 =
    Some {| ws_next := pw_next_frame_sequence s; ws_dead := pw_failed s |} ∧
  (Forall op_bounded ops → Forall client_frame_ok (sent (pw_rpc s).2)).
Proof.
  intros Hw Hroute Hg Hfirst Hopt%options_built_ok.
  unfold ProtobufBridgeWire_with_clock in Hw. apply result_bind_Ok in Hw as ([]&Hc&Hw).
  unfold fail_if in Hc. destruct (_ || _) eqn:Hz in Hc; [done|]. boolsimpl.
  apply result_bind_Ok in Hw as ([]&Hn%display_name_ok&Hw).
  destruct (now_ms clock) as [now c]. unfold mret, result_ret in Hw. injection Hw as <-.
  match goal with |- let s := wire_run ops ?w in _ =>
    assert (wire_inv route name first (Forall op_bounded ops) w) as Hinv end.
  { split; try done; simpl. unfold is_u64 in *. lia. }
  apply (wire_run_inv route name first (Forall op_bounded ops) Hroute Hg Hn ops) in Hinv; [|done].
  by destruct Hinv.
Qed.

(** A transport that answers every request, and a clock that advances three seconds at every
    reading. *)
#[export] Instance toy_rpc : BridgeRpc unit := {
  rpc_call frame u :=
    (match frame_route frame with
     | Some (id, g) =>
         Ok (response_frame frame
              match PrivilegedBridgeClientFrame_payload frame with
              | Some (PrivilegedBridgeClientFrame_Payload_RenewLease _) =>
                  PrivilegedBridgeServerFrame_Payload_Lease
                    {| PrivilegedLease_lease_id := id; PrivilegedLease_generation := g;
                       PrivilegedLease_issued_at_unix_ms := 0;
                       PrivilegedLease_expires_at_unix_ms := 1; PrivilegedLease_session_id := [];
                       PrivilegedLease_permissions := [];
                       PrivilegedLease_controller_display_name := [] |}
              | _ => PrivilegedBridgeServerFrame_Payload_CommandAccepted
                       {| PrivilegedCommandAccepted_lease_id := id;
                          PrivilegedCommandAccepted_generation := g |}
              end)
     | None => Err PE_Transport
     end, u);
  rpc_try_event u := (Ok None, u);
  rpc_fail_closed u := u
}.

#[export] Instance toy_clock : BridgeClock Z := { now_ms c := (c, c + 3000) }.

Definition toy_lease_route : ProxyRoute :=
  {| pr_lease_id := be_bytes 16 7; pr_generation := 4 |}.

Definition toy_request (n : Z) : BridgeRequest :=
  {| br_route := toy_lease_route; br_sequence := n |}.

Definition toy_wire_ops : list WireOp :=
  [WoInput (toy_request 1) (VI_PointerMove 10 20 0); WoPoll;
   WoInput (toy_request 2) (VI_Text (lit "hi")); WoClose (toy_request 3);
   WoRelease (toy_request 4)].

Definition toy_connected_wire : ProtobufBridgeWire (unit * list RpcLog) Z :=
  {| pw_rpc := ((), []); pw_options := {| bo_ice_servers := [] |};
     pw_controller_display_name := lit "phone"; pw_route := Some toy_lease_route;
     pw_next_frame_sequence := 3; pw_last_renewed_at_ms := 0; pw_clock := 3000;
     pw_failed := false |}.

(** One renewal falls due: five requests of the proxy become five numbered frames. *)
Lemma wire_refines_frames_witness :
  let s := wire_run toy_wire_ops toy_connected_wire in
  (pw_next_frame_sequence s = 8 ∧ pw_failed s = false) ∧
  wire_spec_run toy_lease_route (lit "phone") 3 (pw_rpc s).2 =
    Some {| ws_next := pw_next_frame_sequence s; ws_dead := pw_failed s |} ∧
  (Forall op_bounded toy_wire_ops → Forall client_frame_ok (sent (pw_rpc s).2)).
Proof.
  split; [split; vm_compute; reflexivity|].
  apply (wire_refines_frames () 0 {| bo_ice_servers := [] |} (lit "phone") toy_lease_route 3
           toy_connected_wire toy_wire_ops).
  - vm_compute. reflexivity.
  - split; [vm_compute; reflexivity|discriminate].
  - split; discriminate.
  - split; discriminate.
  - split; [vm_compute; reflexivity|constructor].
Defined.

(** * Fingerprints *)

(** The way a peer writes a fingerprint: two hexadecimal digits a byte, colons between. *)
Definition hex_char (d : Z) : Z := if d <? 10 then 48 + d else 55 + d.

Definition hex_byte (b : Byte.byte) : text :=
  [hex_char (byte_val b `div` 16); hex_char (byte_val b `mod` 16)].

Fixpoint fingerprint_text (fp : bytes) : text :=
  match fp with
  | [] => []
  | [b] => hex_byte b
  | b :: fp => hex_byte b ++ 58 :: fingerprint_text fp
  end.

Lemma hex_byte_roundtrip b : u8_from_hex (hex_byte b) = Some (byte_val b).
Proof. by destruct b. Qed.

Lemma hex_byte_chars b c : c ∈ hex_byte b → 48 <= c ∧ c ≠ 58.
Proof.
  unfold hex_byte, hex_char. pose proof (byte_val_bound b).
  pose proof (Z.mod_pos_bound (byte_val b) 16). pose proof (Z.div_pos (byte_val b) 16).
  rewrite !elem_of_cons. repeat case_match; boolsimpl; intros [->|[->|?%not_elem_of_nil]]; lia || done.
Qed.

Lemma fingerprint_text_chars fp c : c ∈ fingerprint_text fp → 48 <= c.
Proof.
  induction fp as [|b [|b' fp] IH]; [by intros ?%not_elem_of_nil|by intros [? _]%hex_byte_chars|].
  change (fingerprint_text (b :: b' :: fp)) with (hex_byte b ++ 58 :: fingerprint_text (b' :: fp)).
  rewrite elem_of_app, elem_of_cons. intros [[? _]%hex_byte_chars|[->|?]]; [done|lia|auto].
Qed.

Lemma text_split_nil sep s : text_split sep s ≠ [].
Proof. destruct s; simpl; [done|]. repeat case_match; done. Qed.

Lemma text_split_app sep a b :
  sep ∉ a → text_split sep (a ++ sep :: b) = a :: text_split sep b.
Proof.
  induction a as [|c a IH]; intros Ha; simpl; [by rewrite Z.eqb_refl|].
  apply not_elem_of_cons in Ha as [Hc Ha]. rewrite (proj2 (Z.eqb_neq c sep)) by done.
  by rewrite IH.
Qed.

Lemma text_split_none sep a : sep ∉ a → text_split sep a = [a].
Proof.
  induction a as [|c a IH]; intros Ha; simpl; [done|].
  apply not_elem_of_cons in Ha as [Hc Ha]. rewrite (proj2 (Z.eqb_neq c sep)) by done.
  by rewrite IH.
Qed.

Lemma text_lines_cons a b : LF ∉ a → text_lines (a ++ LF :: b) = a :: text_lines b.
Proof.
  intros Ha. unfold text_lines. rewrite text_split_app by done.
  destruct (text_split LF b) as [|p ps] eqn:Hs; [by apply text_split_nil in Hs|].
  change (last (a :: p :: ps)) with (last (p :: ps)).
  case_bool_decide; [|done]. done.
Qed.

Lemma text_lines_app before rest :
  Forall (λ line, LF ∉ line) before →
  text_lines (concat (map (λ line, line ++ [LF]) before) ++ rest) = before ++ text_lines rest.
Proof.
  induction 1 as [|line before Hl _ IH]; simpl; [done|].
  rewrite <- !app_assoc. simpl. by rewrite text_lines_cons, IH.
Qed.

Lemma trim_end_id c s : c ∉ s → trim_end c s = s.
Proof.
  induction s as [|x s IH]; intros Hx; simpl; [done|].
  apply not_elem_of_cons in Hx as [Hx Hs]. rewrite (IH Hs).
  rewrite (proj2 (Z.eqb_neq x c)) by done. by destruct s.
Qed.

Lemma trim_end_snoc c s : trim_end c (s ++ [c]) = trim_end c s.
Proof. induction s as [|x s IH]; simpl; [by rewrite Z.eqb_refl|by rewrite IH]. Qed.

Lemma strip_prefix_app p s : strip_prefix p (p ++ s) = Some s.
Proof. induction p as [|c p IH]; simpl; [done|by rewrite Z.eqb_refl]. Qed.

Lemma split_once_app sep a b : sep ∉ a → split_once sep (a ++ sep :: b) = Some (a, b).
Proof.
  induction a as [|c a IH]; intros Ha; simpl; [by rewrite Z.eqb_refl|].
  apply not_elem_of_cons in Ha as [Hc Ha]. rewrite (proj2 (Z.eqb_neq c sep)) by done.
  by rewrite IH.
Qed.

Lemma split_fingerprint fp : fp ≠ [] → text_split 58 (fingerprint_text fp) = map hex_byte fp.
Proof.
  assert (∀ b, 58 ∉ hex_byte b) as Hb by (intros b [_ ?]%hex_byte_chars; done).
  induction fp as [|b [|b' fp] IH]; intros Hne; [done|apply text_split_none, Hb|].
  change (fingerprint_text (b :: b' :: fp)) with (hex_byte b ++ 58 :: fingerprint_text (b' :: fp)).
  rewrite text_split_app by apply Hb. by rewrite IH.
Qed.

Lemma mapM_hex fp : mapM (λ part, byte_of <$> u8_from_hex part) (map hex_byte fp) = Some fp.
Proof.
  induction fp as [|b fp IH]; [done|]. cbn [map mapM]. rewrite hex_byte_roundtrip, IH.
  simpl. by rewrite byte_of_val.
Qed.

Lemma fingerprint_line_text algorithm fp :
  eq_ignore_ascii_case algorithm (lit "sha-256") = true →
  fingerprint_line (lit "a=fingerprint:" ++ algorithm ++ 32 :: fingerprint_text fp ++ [CR]) =
  Some (fingerprint_text fp) ∧
  LF ∉ lit "a=fingerprint:" ++ algorithm ++ 32 :: fingerprint_text fp ++ [CR].
Proof.
  intros Ha. pose proof Ha as Hlow. unfold eq_ignore_ascii_case in Hlow. boolsimpl.
  assert (∀ c, c ∈ algorithm → to_ascii_lowercase c ∈ lit "sha-256") as Hin.
  { intros c Hc. change (lit "sha-256") with (to_ascii_lowercase <$> lit "sha-256").
    rewrite <- Hlow. by apply list_elem_of_fmap_2. }
  assert (∀ c, c ∈ [CR; LF; 32] → c ∉ algorithm) as Hno.
  { intros c Hc Hc'%Hin. revert Hc' Hc. rewrite !elem_of_cons.
    intros Hx [->|[->|[->|?%not_elem_of_nil]]]; [..|done]; revert Hx;
      by apply (bool_decide_unpack (¬ _)). }
  assert (∀ c, c < 48 → c ∉ fingerprint_text fp) as Hfp.
  { intros c Hc ?%fingerprint_text_chars. lia. }
  assert (lit "a=fingerprint:" ++ algorithm ++ 32 :: fingerprint_text fp ++ [CR] =
          (lit "a=fingerprint:" ++ algorithm ++ 32 :: fingerprint_text fp) ++ [CR]) as Heq
    by (by rewrite <- !app_assoc).
  split.
  - unfold fingerprint_line. rewrite Heq, trim_end_snoc, trim_end_id.
    + rewrite strip_prefix_app. simpl. rewrite split_once_app by (apply Hno; set_solver).
      simpl. by rewrite Ha.
    + rewrite !elem_of_app, elem_of_cons. intros [Hx|[Hx|[Hx|Hx]]].
      * revert Hx. by apply (bool_decide_unpack (¬ _)).
      * revert Hx. apply Hno. set_solver.
      * done.
      * revert Hx. by apply Hfp.
  - rewrite Heq, !elem_of_app, elem_of_cons. intros [[Hx|[Hx|[Hx|Hx]]]|Hx].
    + revert Hx. by apply (bool_decide_unpack (¬ _)).
    + revert Hx. apply Hno. set_solver.
    + done.
    + revert Hx. by apply Hfp.
    + revert Hx. by apply (bool_decide_unpack (¬ _)).
Qed.

Lemma hex_byte_width b : text_len (hex_byte b) = 2.
Proof. by destruct b. Qed.

(** Round trip of the offer's certificate fingerprint: in a session description whose
    earlier lines carry no SHA-256 fingerprint, the 32 bytes written in the colon-separated
    form, under any capitalisation of the algorithm, are read back exactly, whatever follows. *)
Theorem fingerprint_roundtrip before algorithm fp rest :
  Forall (λ line, LF ∉ line ∧ fingerprint_line line = None) before →
  eq_ignore_ascii_case algorithm (lit "sha-256") = true → len fp = 32 →
  parse_dtls_sha256_fingerprint
    (concat (map (λ line, line ++ [LF]) before) ++
     lit "a=fingerprint:" ++ algorithm ++ 32 :: fingerprint_text fp ++ CR :: LF :: rest) = Some fp.
Proof.
  intros Hbefore Ha Hlen. destruct (fingerprint_line_text algorithm fp Ha) as [Hline Hlf].
  assert (fp ≠ []) as Hne by (by intros ->).
  unfold parse_dtls_sha256_fingerprint.
  rewrite text_lines_app by (eapply Forall_impl; [exact Hbefore|by intros ? []]).
  assert (lit "a=fingerprint:" ++ algorithm ++ 32 :: fingerprint_text fp ++ CR :: LF :: rest =
          (lit "a=fingerprint:" ++ algorithm ++ 32 :: fingerprint_text fp ++ [CR]) ++ LF :: rest)
    as -> by (by rewrite <- !app_assoc; simpl; rewrite <- !app_assoc).
  rewrite text_lines_cons by done. rewrite omap_app.
  assert (omap fingerprint_line before = []) as ->.
  { clear -Hbefore. induction Hbefore as [|line before [_ Hl] _ IH]; simpl; [done|].
    by rewrite Hl. }
  rewrite app_nil_l. cbn [omap list_omap]. rewrite Hline. cbn [head mbind option_bind].
  rewrite split_fingerprint by done.
  assert (len (map hex_byte fp) = 32) as -> by (unfold len in *; by rewrite length_map).
  assert (existsb (λ part, negb (text_len part =? 2)) (map hex_byte fp) = false) as ->.
  { clear. induction fp as [|b fp IH]; [done|]. cbn [map existsb]. by rewrite hex_byte_width. }
  simpl. apply mapM_hex.
Qed.

Lemma fingerprint_roundtrip_witness :
  parse_dtls_sha256_fingerprint
    (concat (map (λ line, line ++ [LF]) [lit "v=0" ++ [CR]; lit "a=fingerprint:sha-1 AA"]) ++
     lit "a=fingerprint:" ++ lit "SHA-256" ++ 32 :: fingerprint_text (be_bytes 32 1000) ++
     CR :: LF :: lit "a=setup") = Some (be_bytes 32 1000).
Proof.
  apply (fingerprint_roundtrip [lit "v=0" ++ [CR]; lit "a=fingerprint:sha-1 AA"]
           (lit "SHA-256") (be_bytes 32 1000) (lit "a=setup")).
  - repeat constructor; (vm_compute; reflexivity) || by apply (bool_decide_unpack (¬ _)).
  - vm_compute. reflexivity.
  - vm_compute. reflexivity.
Defined.

(** The standard library's radix parser allows a plus sign, so a part that is not two
    hexadecimal digits is read as a byte. *)
Lemma fingerprint_allows_plus : u8_from_hex (lit "+F") = Some 15.
Proof. reflexivity. Qed.

(** * The wire under the proxy *)

Section composition.
Context {T C : Type} `{FiniteInbound T, BridgeClock C}
  `{Message PrivilegedBridgeClientFrame, Message PrivilegedBridgeServerFrame}.

Abbreviation Proxy := (ProxyShared (ProtobufBridgeWire (FramedBridgeRpc T) C)).

(** The next event of a queue: the oldest critical one, or else the pending pointer. *)
Definition heads {A} (q : EventQueue A) (f : A) : Prop :=
  eq_failed q = false ∧
  ((∃ rest, critical q = f :: rest) ∨ (critical q = [] ∧ fast q = Some f)).

Lemma poll_head (rpc : FramedBridgeRpc T) f :
  fr_failed rpc = false → heads (fr_events rpc) f →
  ∃ rpc', FramedBridgeRpc_try_event rpc = (Ok (Some f), rpc') ∧ fr_failed rpc' = false.
Proof.
  destruct rpc as [tr [cq fq ff] fl]. unfold heads. simpl. intros -> [-> Hh].
  unfold FramedBridgeRpc_try_event, FramedBridgeRpc_queued_event, on_events,
    EventQueue_pop_critical, EventQueue_pop_fast. unmonad.
  destruct Hh as [[rest ->]|[-> ->]]; simpl; eauto.
Qed.

(** An event that the wire carries: its envelope is not empty. *)
Definition carried (event : ProxyEvent) : Prop :=
  match event with PX_ReliableInput e | PX_FastPointer e => e ≠ [] | _ => True end.

(** The helper's event frame is read back as the event it was made of. *)
Lemma frame_event_roundtrip route n event (w : ProtobufBridgeWire (FramedBridgeRpc T) C) :
  carried event →
  frame_event (event_frame route n event) w =
  (Ok (pr_lease_id route, pr_generation route, event), w).
Proof.
  destruct event as [| | | |c|e|e]; simpl; intros Hc; unfold frame_event; unmonad; try done.
  - by destruct c.
  - by destruct e.
  - by destruct e.
Qed.

Lemma client_route_ok route :
  valid_route route → client_route (pr_lease_id route) (pr_generation route) = Ok route.
Proof.
  intros [Hl Hg]. unfold client_route, array_of. rewrite decide_True by done. simpl.
  unfold fail_if. rewrite (proj2 (Z.eqb_neq _ _) Hg). simpl. by destruct route.
Qed.

(** An open wire with no renewal due. *)
Definition idle_wire (w : ProtobufBridgeWire (FramedBridgeRpc T) C) : Prop :=
  pw_failed w = false ∧
  saturating_sub (now_ms (pw_clock w)).1 (pw_last_renewed_at_ms w) < RENEW_ATTEMPT_INTERVAL_MS.

Lemma renew_idle w : idle_wire w →
  ProtobufBridgeWire_renew_if_due w = (Ok (), set_pw_clock (now_ms (pw_clock w)).2 w).
Proof.
  intros [_ Hl]. unfold ProtobufBridgeWire_renew_if_due. rewrite bind_run. unfold read_clock.
  destruct (now_ms (pw_clock w)) as [now c]. simpl in *. rewrite bind_get.
  simpl. by rewrite (proj2 (Z.ltb_lt _ _) Hl).
Qed.

Lemma wire_poll_head w route n event :
  idle_wire w → fr_failed (pw_rpc w) = false → valid_route route → n ≠ 0 → carried event →
  heads (fr_events (pw_rpc w)) (event_frame route n event) →
  ∃ w', ProtobufBridgeWire_try_event w =
          (Ok (Some {| bp_route := route; bp_sequence := n; bp_value := event |}), w') ∧
        pw_failed w' = false ∧ fr_failed (pw_rpc w') = false.
Proof.
  intros Hw Hrpc Hroute Hn Hc Hh. unfold ProtobufBridgeWire_try_event.
  rewrite bind_get, bind_fail_if. rewrite (proj1 Hw), bind_run, renew_idle by done.
  set (w1 := set_pw_clock _ w). rewrite bind_run. unfold try, zoom.
  destruct (poll_head (pw_rpc w) _ Hrpc Hh) as (rpc'&Hp&Hf).
  change (rpc_try_event (pw_rpc w1)) with (FramedBridgeRpc_try_event (pw_rpc w)). rewrite Hp.
  simpl. rewrite (proj2 (Z.eqb_neq _ _) Hn). simpl.
  rewrite bind_run, frame_event_roundtrip, bind_lift by done. simpl.
  rewrite client_route_ok by done. eexists. split; [done|]. split; [apply Hw|done].
Qed.

(** The proxy after its transport queued the events [frames] while it waited for a response. *)
Definition receive_during_call (frames : list PrivilegedBridgeServerFrame) (s : Proxy)
    : result ProxyError unit * Proxy :=
  zoom ps_wire set_ps_wire
    (zoom pw_rpc set_pw_rpc
       (for_each frames (λ f, FramedBridgeRpc_enqueue_event f;; mret ()))) s.

(** An open proxy, with nothing queued and no renewal due. *)
Record settled (s : Proxy) : Prop := {
  st_open : ps_failed s = false;
  st_route : valid_route (ps_route s);
  st_wire : idle_wire (ps_wire s);
  st_rpc_open : fr_failed (pw_rpc (ps_wire s)) = false;
  st_queue : fr_events (pw_rpc (ps_wire s)) = EventQueue_new
}.

(** Two of the helper's consecutive events that arrive while the Host waits for a response
    fail the session closed when the first is a fast pointer event and the second is a fast
    pointer or a reliable input event: the transport keeps only the newer pointer event, and
    hands out critical events first, but the helper numbers every event and the proxy accepts
    only the next number, so the next poll reports a stale response and closes the wire. *)
Theorem overtaken_pointer_fails_closed (s : Proxy) event first second :
  settled s → 0 <= ps_last_event_sequence s → ps_last_event_sequence s + 2 <= U64_MAX →
  second ≠ [] → event = PX_FastPointer second ∨ event = PX_ReliableInput second →
  let n := ps_last_event_sequence s in
  let frames := [event_frame (ps_route s) (n + 1) (PX_FastPointer first);
                 event_frame (ps_route s) (n + 2) event] in
  ∃ s1 s2, receive_during_call frames s = (Ok (), s1) ∧
    ProxyEvents_try_recv s1 = (Err PE_StaleResponse, s2) ∧
    ps_failed s2 = true ∧ fr_failed (pw_rpc (ps_wire s2)) = true.
Proof.
  intros Hs Hn0 Hn Hne Hevent n frames.
  assert (∃ q, receive_during_call frames s =
      (Ok (), set_ps_wire (set_pw_rpc (set_fr_events q (pw_rpc (ps_wire s))) (ps_wire s)) s) ∧
    heads q (event_frame (ps_route s) (n + 2) event)) as (q&Hrecv&Hq).
  { destruct Hs as [_ _ _ _ Hq0]. unfold receive_during_call, zoom.
    destruct Hevent as [-> | ->]; cbn [for_each frames]; rewrite !bind_run;
    unfold FramedBridgeRpc_enqueue_event, on_events, EventQueue_push_fast, EventQueue_push_critical;
    simpl; unmonad; rewrite Hq0; simpl; eexists; (split; [reflexivity|]);
    (split; [done|]); [by right|left; by eexists]. }
  destruct Hs as [Hopen Hroute Hwire Hrpc _].
  destruct (wire_poll_head (set_pw_rpc (set_fr_events q (pw_rpc (ps_wire s))) (ps_wire s))
              (ps_route s) (n + 2) event) as (w'&Hp&Hf1&Hf2); try done.
  { lia. }
  { by destruct Hevent as [-> | ->]. }
  eexists _, _. split; [exact Hrecv|]. unfold ProxyEvents_try_recv.
  rewrite bind_get, bind_fail_if. simpl. rewrite Hopen, bind_run. unfold try, zoom.
  simpl in Hp |- *. rewrite Hp. simpl. rewrite bool_decide_eq_true_2 by done. simpl.
  unfold checked_add. rewrite (proj2 (Z.leb_le _ _)) by lia. simpl.
  rewrite bind_run. cbn [mret M_ret].
  rewrite (proj2 (Z.eqb_neq (n + 2) _)) by lia. cbn [negb].
  rewrite bind_run. unfold modify, mthrow, M_throw. split; [reflexivity|].
  unfold ProxyShared_fail_closed. simpl. rewrite Hopen. simpl. split; [done|].
  unfold ProtobufBridgeWire_fail_closed. rewrite Hf1. simpl.
  unfold FramedBridgeRpc_fail_closed. by rewrite Hf2.
Qed.
End composition.

(** A transport with no frames, for a concrete proxy. *)
#[export] Instance toy_transport : LocalBridgeTransport unit := {
  transport_send _ u := (Ok (), u);
  transport_receive u := (Err TE_Disconnected, u);
  transport_try_receive u := (Ok None, u);
  transport_peer_identity _ := None;
  transport_fail_closed u := u
}.

#[export] Program Instance toy_transport_finite : FiniteInbound unit := { remaining _ := 0%nat }.
Next Obligation. done. Qed.

Definition toy_settled_proxy : ProxyShared (ProtobufBridgeWire (FramedBridgeRpc unit) Z) :=
  new_proxy_parts toy_lease_route
    {| pw_rpc := FramedBridgeRpc_new (); pw_options := {| bo_ice_servers := [] |};
       pw_controller_display_name := lit "phone"; pw_route := Some toy_lease_route;
       pw_next_frame_sequence := 3; pw_last_renewed_at_ms := 0; pw_clock := 3000;
       pw_failed := false |}.

(** No frame is decoded there, so the encoding does not matter. *)
#[local] Instance toy_client_message : Message PrivilegedBridgeClientFrame := {
  encode_to_vec _ := []; decode _ := None
}.
#[local] Instance toy_server_message : Message PrivilegedBridgeServerFrame := {
  encode_to_vec _ := []; decode _ := None
}.

Lemma overtaken_pointer_fails_closed_witness :
  let frames := [event_frame toy_lease_route 1 (PX_FastPointer [byte_of 1]);
                 event_frame toy_lease_route 2 (PX_FastPointer [byte_of 2])] in
  ∃ s1 s2, receive_during_call frames toy_settled_proxy = (Ok (), s1) ∧
    ProxyEvents_try_recv s1 = (Err PE_StaleResponse, s2) ∧
    ps_failed s2 = true ∧ fr_failed (pw_rpc (ps_wire s2)) = true.
Proof.
  apply (overtaken_pointer_fails_closed toy_settled_proxy (PX_FastPointer [byte_of 2])
           [byte_of 1] [byte_of 2]).
  - by split.
  - vm_compute. discriminate.
  - vm_compute. discriminate.
  - discriminate.
  - by left.
Defined.
