(* ===== verification/Connector.v ===== *)
(** The Host side of the bridge handshake, crates/privileged-bridge/src/connector.rs:
    [AuthenticatedBridgeConnector] opens a transport, authenticates the installed broker,
    checks its route status and acquires the lease of one remote session. *)
From S2P Require Import Prelude Limits Messages Lease Webrtc PeerSession Proxy Broker Helper BridgeQueue Validation IpcAuth Rpc Client.

Local Open Scope Z_scope.

(** * Interfaces *)

Class BridgeTransportConnector (K T : Type) := {
  open_transport : M K ProxyError T
}.

(** [getrandom::fill] of a 32-byte nonce. *)
Class NonceSource (G : Type) := { fill_nonce : M G unit bytes }.

Class NonceLaws (G : Type) `{NonceSource G} : Prop := {
  nonce_len g n g' : fill_nonce g = (Ok n, g') → len n = 32
}.

(** * Data *)

Definition AUTH_REQUEST_ID : text := lit "authenticate-1".
Definition ACQUIRE_REQUEST_ID : text := lit "acquire-2".
Definition AUTH_SEQUENCE : Z := 1.
Definition ACQUIRE_SEQUENCE : Z := 2.

Record AuthenticatedBridgeConnector {K : Type} := {
  ac_connector : K;
  ac_token : IpcToken;
  ac_executable_sha256 : bytes;
  ac_os_session_id : Z
}.
Arguments AuthenticatedBridgeConnector : clear implicits.

Definition AuthenticatedBridgeConnector_new {K : Type} (connector : K) (token : IpcToken)
    (executable_sha256 : bytes) (os_session_id : Z)
    : result ProxyError (AuthenticatedBridgeConnector K) :=
  fail_if ((os_session_id =? 0) || bool_decide (executable_sha256 = be_bytes 32 0))
    PE_InvalidConfiguration;;
  mret {| ac_connector := connector; ac_token := token;
          ac_executable_sha256 := executable_sha256; ac_os_session_id := os_session_id |}.

(** * Operations *)

Section frames.
Context {T : Type} `{LocalBridgeTransport T}
  `{Message PrivilegedBridgeClientFrame, Message PrivilegedBridgeServerFrame}.

Definition receive_server_frame : M T ProxyError PrivilegedBridgeServerFrame :=
  encoded ← map_err_m (λ _, PE_Transport) transport_receive;
  lift (map_err (λ _, PE_InvalidMessage)
          (decode_and_validate_privileged_bridge_server_frame encoded)).

Definition send_client_frame (frame : PrivilegedBridgeClientFrame) : M T ProxyError unit :=
  map_err_m (λ _, PE_Transport) (transport_send (encode_to_vec frame)).
End frames.

Definition auth_frame (role : PrivilegedBridgeRole) (client_nonce client_proof : bytes)
    (executable_sha256 : bytes) (os_session_id : Z) : PrivilegedBridgeClientFrame :=
  {| PrivilegedBridgeClientFrame_protocol_version := Some version;
     PrivilegedBridgeClientFrame_request_id := AUTH_REQUEST_ID;
     PrivilegedBridgeClientFrame_sequence := AUTH_SEQUENCE;
     PrivilegedBridgeClientFrame_payload :=
       Some (PrivilegedBridgeClientFrame_Payload_Authenticate
         {| PrivilegedBridgeAuthenticate_role := to_i32 role;
            PrivilegedBridgeAuthenticate_client_nonce := client_nonce;
            PrivilegedBridgeAuthenticate_client_proof := client_proof;
            PrivilegedBridgeAuthenticate_executable_sha256 := executable_sha256;
            PrivilegedBridgeAuthenticate_os_session_id := os_session_id |}) |}.

Definition acquire_frame (context : ProxySessionContext) (generation : Z)
    : PrivilegedBridgeClientFrame :=
  {| PrivilegedBridgeClientFrame_protocol_version := Some version;
     PrivilegedBridgeClientFrame_request_id := ACQUIRE_REQUEST_ID;
     PrivilegedBridgeClientFrame_sequence := ACQUIRE_SEQUENCE;
     PrivilegedBridgeClientFrame_payload :=
       Some (PrivilegedBridgeClientFrame_Payload_AcquireLease
         {| AcquirePrivilegedLeaseRequest_session_id := ctx_session_id context;
            AcquirePrivilegedLeaseRequest_generation := generation;
            AcquirePrivilegedLeaseRequest_permissions := to_i32 <$> ctx_permissions context;
            AcquirePrivilegedLeaseRequest_controller_display_name :=
              ctx_controller_display_name context |}) |}.

(** The checks of the status the broker reports after it authenticated itself. *)
Definition check_status (os_session_id : Z) (status : PrivilegedBridgeStatusSnapshot)
    : result ProxyError unit :=
  state ← ok_or (PrivilegedBridgeState_try_from (PrivilegedBridgeStatusSnapshot_state status))
                PE_Rejected;
  fail_if (bool_decide (state = PrivilegedBridgeState_UserSessionOnly) &&
           negb (PrivilegedBridgeStatusSnapshot_helper_connected status)) PE_HelperUnavailable;;
  fail_if (negb (bool_decide (state = PrivilegedBridgeState_Ready))) PE_Rejected;;
  fail_if (negb (PrivilegedBridgeStatusSnapshot_helper_connected status)) PE_HelperUnavailable;;
  session ← ok_or (PrivilegedBridgeStatusSnapshot_interactive_session status)
                  PE_HelperUnavailable;
  fail_if (negb (PrivilegedSessionDescriptor_os_session_id session =? os_session_id) ||
           (PrivilegedSessionDescriptor_generation session =? 0)) PE_Rejected.

(** The lease the broker grants must be the one asked for. *)
Definition check_lease (context : ProxySessionContext) (generation : Z)
    (response : PrivilegedBridgeServerFrame) : result ProxyError ProxyRoute :=
  match PrivilegedBridgeServerFrame_payload response with
  | Some (PrivilegedBridgeServerFrame_Payload_Lease lease) =>
      lease_id ← ok_or (array_of 16 (PrivilegedLease_lease_id lease)) PE_InvalidMessage;
      fail_if (negb (PrivilegedLease_generation lease =? generation) ||
               negb (bool_decide (PrivilegedLease_session_id lease = ctx_session_id context)) ||
               negb (bool_decide (PrivilegedLease_permissions lease =
                                  to_i32 <$> ctx_permissions context)) ||
               negb (bool_decide (PrivilegedLease_controller_display_name lease =
                                  ctx_controller_display_name context))) PE_Rejected;;
      mret (ProxyRoute_new lease_id (PrivilegedLease_generation lease))
  | _ => Err PE_Rejected
  end.

Section connector.
Context `{Hmac} {K T G : Type} `{FiniteInbound T, NonceSource G}
  `{Message PrivilegedBridgeClientFrame, Message PrivilegedBridgeServerFrame}.

Abbreviation Cn A := (M (T * G) ProxyError A).

Definition on_channel {A} (m : M T ProxyError A) : Cn A := zoom fst (λ t s, (t, s.2)) m.

(** [AuthenticatedBridgeConnector::authenticate] borrows the transport. *)
Definition AuthenticatedBridgeConnector_authenticate (self : AuthenticatedBridgeConnector K)
    : Cn PrivilegedBridgeStatusSnapshot :=
  challenge_frame ← on_channel receive_server_frame;
  match PrivilegedBridgeServerFrame_payload challenge_frame with
  | Some (PrivilegedBridgeServerFrame_Payload_Challenge challenge) =>
      instance_id ← ok_or (array_of 16 (PrivilegedBridgeChallenge_broker_instance_id challenge))
                          PE_Rejected;
      server_nonce ← ok_or (array_of 32 (PrivilegedBridgeChallenge_server_nonce challenge))
                           PE_Rejected;
      client_nonce ← map_err_m (λ _, PE_Transport) (zoom snd (λ g s, (s.1, g)) fill_nonce);
      let client_proof := channel_client_proof (ac_token self) PrivilegedHost instance_id
                            server_nonce client_nonce in
      on_channel (send_client_frame
        (auth_frame PrivilegedBridgeRole_HostAgent client_nonce client_proof
           (ac_executable_sha256 self) (ac_os_session_id self)));;
      authenticated ← on_channel receive_server_frame;
      fail_if (negb (bool_decide (PrivilegedBridgeServerFrame_request_id authenticated =
                                  AUTH_REQUEST_ID)) ||
               negb (PrivilegedBridgeServerFrame_sequence authenticated =? AUTH_SEQUENCE))
              PE_StaleResponse;;
      match PrivilegedBridgeServerFrame_payload authenticated with
      | Some (PrivilegedBridgeServerFrame_Payload_Authenticated value) =>
          let proof := PrivilegedBridgeAuthenticated_server_proof value in
          fail_if (negb (verify_channel_server_proof (ac_token self) PrivilegedHost instance_id
                           server_nonce client_nonce proof)) PE_Rejected;;
          status ← on_channel receive_server_frame;
          match PrivilegedBridgeServerFrame_payload status with
          | Some (PrivilegedBridgeServerFrame_Payload_Status status) =>
              lift (check_status (ac_os_session_id self) status);;
              mret status
          | _ => mthrow PE_Rejected
          end
      | _ => mthrow PE_Rejected
      end
  | _ => mthrow PE_Rejected
  end.

(** The lease acquisition of [connect], on the transport's RPC. *)
Definition acquire_lease (context : ProxySessionContext) (generation : Z)
    : M (FramedBridgeRpc T) ProxyError ProxyRoute :=
  response ← FramedBridgeRpc_call (acquire_frame context generation);
  match check_lease context generation response with
  | Ok route => mret route
  | Err error => modify FramedBridgeRpc_fail_closed;; mthrow error
  end.

(** [connect] after the transport was opened; the state is the transport as it ends up, which
    on success is the one inside the connection. *)
Definition connect_transport (self : AuthenticatedBridgeConnector K)
    (context : ProxySessionContext) : Cn (BridgeConnection (FramedBridgeRpc T)) :=
  status ← try (AuthenticatedBridgeConnector_authenticate self);
  match status with
  | Err error => modify (λ s, (transport_fail_closed s.1, s.2));; mthrow error
  | Ok status =>
      session ← ok_or (PrivilegedBridgeStatusSnapshot_interactive_session status) PE_Rejected;
      let generation := PrivilegedSessionDescriptor_generation session in
      s ← get;
      let '(route, rpc) := acquire_lease context generation (FramedBridgeRpc_new s.1) in
      put (fr_transport rpc, s.2);;
      route ← lift route;
      mret (BridgeConnection_with_next_frame_sequence route rpc (ACQUIRE_SEQUENCE + 1))
  end.
End connector.

Section open.
Context `{Hmac} {K T G : Type} `{BridgeTransportConnector K T, FiniteInbound T, NonceSource G}
  `{Message PrivilegedBridgeClientFrame, Message PrivilegedBridgeServerFrame}.

Definition set_ac_connector (k : K) (s : AuthenticatedBridgeConnector K)
    : AuthenticatedBridgeConnector K :=
  {| ac_connector := k; ac_token := ac_token s; ac_executable_sha256 := ac_executable_sha256 s;
     ac_os_session_id := ac_os_session_id s |}.

Definition on_connector {A} (m : M K ProxyError A)
    : M (AuthenticatedBridgeConnector K * G) ProxyError A :=
  zoom (λ s, ac_connector s.1) (λ k s, (set_ac_connector k s.1, s.2)) m.

(** A transport that is not kept is dropped. *)
Definition with_transport {A} (m : AuthenticatedBridgeConnector K → M (T * G) ProxyError A)
    : M (AuthenticatedBridgeConnector K * G) ProxyError A :=
  transport ← on_connector open_transport;
  self ← get;
  let '(r, s) := m self.1 (transport, self.2) in
  put (self.1, s.2);;
  lift r.

Definition AuthenticatedBridgeConnector_connect (context : ProxySessionContext)
    : M (AuthenticatedBridgeConnector K * G) ProxyError (BridgeConnection (FramedBridgeRpc T)) :=
  with_transport (λ self, connect_transport self context).

(** [probe_status] closes the transport whatever the broker answered. *)
Definition probe_transport (self : AuthenticatedBridgeConnector K)
    : M (T * G) ProxyError PrivilegedBridgeStatusSnapshot :=
  status ← try (AuthenticatedBridgeConnector_authenticate self);
  modify (λ s, (transport_fail_closed s.1, s.2));;
  lift status.

Definition AuthenticatedBridgeConnector_probe_status
    : M (AuthenticatedBridgeConnector K * G) ProxyError PrivilegedBridgeStatusSnapshot :=
  with_transport probe_transport.
End open.

#[export] Instance AuthenticatedBridgeConnector_rpc `{Hmac} {K T G : Type}
    `{BridgeTransportConnector K T, FiniteInbound T, NonceSource G}
    `{Message PrivilegedBridgeClientFrame, Message PrivilegedBridgeServerFrame}
    : BridgeRpcConnector (AuthenticatedBridgeConnector K * G) (FramedBridgeRpc T) := {
  connector_connect := AuthenticatedBridgeConnector_connect
}.

(** * A logged transport *)

Inductive TransportLog := TL_Sent (frame : bytes) | TL_Received (frame : bytes) | TL_Closed.

#[export] Instance TransportLog_eq_dec : EqDecision TransportLog.
Proof. solve_decision. Defined.

#[export] Instance logged_transport {T : Type} `{LocalBridgeTransport T}
    : LocalBridgeTransport (T * list TransportLog) := {
  transport_send frame tl :=
    let '(r, t) := transport_send frame tl.1 in (r, (t, tl.2 ++ [TL_Sent frame]));
  transport_receive tl :=
    match transport_receive tl.1 with
    | (Ok frame, t) => (Ok frame, (t, tl.2 ++ [TL_Received frame]))
    | (Err e, t) => (Err e, (t, tl.2))
    end;
  transport_try_receive tl :=
    match transport_try_receive tl.1 with
    | (Ok (Some frame), t) => (Ok (Some frame), (t, tl.2 ++ [TL_Received frame]))
    | (r, t) => (r, (t, tl.2))
    end;
  transport_peer_identity tl := transport_peer_identity tl.1;
  transport_fail_closed tl := (transport_fail_closed tl.1, tl.2 ++ [TL_Closed])
}.

#[export] Program Instance logged_finite {T : Type} `{FiniteInbound T}
    : FiniteInbound (T * list TransportLog) := { remaining tl := remaining tl.1 }.
Next Obligation.
  intros T ? ? [t l] frame [t' l']. unfold transport_receive, logged_transport. simpl.
  destruct (transport_receive t) as [[f|e] t1] eqn:Hr; intros; simplify_eq.
  by eapply receive_decreases.
Qed.

Definition sent_frames (log : list TransportLog) : list bytes :=
  omap (λ entry, match entry with TL_Sent frame => Some frame | _ => None end) log.

(** How often the transport was closed. *)
Definition closings (log : list TransportLog) : nat :=
  length (filter (λ entry, entry = TL_Closed) log).

(** * What [connect] establishes *)

(** The frames the Host took before it trusted the broker: [challenge], then [authenticated]
    with a valid proof over the challenge and the Host's own nonce, then a ready [status]. *)
Record trusted `{Hmac} {K : Type} (self : AuthenticatedBridgeConnector K)
    (instance_id server_nonce client_nonce : bytes)
    (challenge authenticated status : PrivilegedBridgeServerFrame)
    (session : PrivilegedSessionDescriptor) : Prop := {
  tr_challenge : PrivilegedBridgeServerFrame_payload challenge =
    Some (PrivilegedBridgeServerFrame_Payload_Challenge
      {| PrivilegedBridgeChallenge_broker_instance_id := instance_id;
         PrivilegedBridgeChallenge_server_nonce := server_nonce |});
  tr_lengths : len instance_id = 16 ∧ len server_nonce = 32;
  tr_reply : PrivilegedBridgeServerFrame_request_id authenticated = AUTH_REQUEST_ID ∧
    PrivilegedBridgeServerFrame_sequence authenticated = AUTH_SEQUENCE;
  tr_proof : PrivilegedBridgeServerFrame_payload authenticated =
    Some (PrivilegedBridgeServerFrame_Payload_Authenticated
      {| PrivilegedBridgeAuthenticated_server_proof :=
           channel_server_proof (ac_token self) PrivilegedHost instance_id server_nonce
             client_nonce |});
  tr_status : ∃ st, PrivilegedBridgeServerFrame_payload status =
      Some (PrivilegedBridgeServerFrame_Payload_Status st) ∧
    PrivilegedBridgeStatusSnapshot_state st = to_i32 PrivilegedBridgeState_Ready ∧
    PrivilegedBridgeStatusSnapshot_helper_connected st = true ∧
    PrivilegedBridgeStatusSnapshot_interactive_session st = Some session;
  tr_session : PrivilegedSessionDescriptor_os_session_id session = ac_os_session_id self ∧
    PrivilegedSessionDescriptor_generation session ≠ 0
}.

(** The lease is for the verified session and nothing else. *)
Definition leased (context : ProxySessionContext) (generation : Z) (route : ProxyRoute)
    (lease : PrivilegedLease) : Prop :=
  PrivilegedLease_lease_id lease = pr_lease_id route ∧ len (pr_lease_id route) = 16 ∧
  PrivilegedLease_generation lease = generation ∧ pr_generation route = generation ∧
  PrivilegedLease_session_id lease = ctx_session_id context ∧
  PrivilegedLease_permissions lease = to_i32 <$> ctx_permissions context ∧
  PrivilegedLease_controller_display_name lease = ctx_controller_display_name context.

(** * Lemmas *)

Lemma check_status_Ok os_session_id status :
  check_status os_session_id status = Ok () ↔
  PrivilegedBridgeStatusSnapshot_state status = to_i32 PrivilegedBridgeState_Ready ∧
  PrivilegedBridgeStatusSnapshot_helper_connected status = true ∧
  ∃ session, PrivilegedBridgeStatusSnapshot_interactive_session status = Some session ∧
    PrivilegedSessionDescriptor_os_session_id session = os_session_id ∧
    PrivilegedSessionDescriptor_generation session ≠ 0.
Proof.
  destruct status as [st sess hc nm er]. unfold check_status. simpl. split.
  - destruct (PrivilegedBridgeState_try_from st) as [state|] eqn:Hst; [|done].
    pose proof (proj1 (try_from_iff (E:=PrivilegedBridgeState) st state) Hst) as ->. intros Hr.
    run Hr; subst; split_and!; eauto.
  - intros (->&->&session&->&<-&Hg). unmonad. rewrite Z.eqb_refl. simpl.
    by rewrite (proj2 (Z.eqb_neq _ _) Hg).
Qed.

Lemma check_lease_Ok context generation response route :
  check_lease context generation response = Ok route ↔
  ∃ lease, PrivilegedBridgeServerFrame_payload response =
      Some (PrivilegedBridgeServerFrame_Payload_Lease lease) ∧
    leased context generation route lease.
Proof.
  unfold check_lease, leased.
  destruct (PrivilegedBridgeServerFrame_payload response) as [[]|];
    try (split; [done|intros (?&?&_); done]).
  destruct (array_of 16 (PrivilegedLease_lease_id value)) as [id|] eqn:Hid.
  - apply array_of_Some in Hid as [-> Hl]. split.
    + intros Hr. run Hr. eexists. split; [done|]. by split_and!.
    + intros (l&[= <-]&Hi&Hl2&Hg&Hg2&->&->&->). unmonad. rewrite Hg, Z.eqb_refl.
      rewrite !bool_decide_eq_true_2 by done. simpl. destruct route. simpl in *. by subst.
  - apply array_of_None in Hid. split; [done|]. intros (l&[= <-]&Hi&Hl2&_). congruence.
Qed.

Lemma closings_app k l : closings (k ++ l) = (closings k + closings l)%nat.
Proof. unfold closings. by rewrite filter_app, length_app. Qed.

Lemma closings_received (rs : list bytes) : closings (TL_Received <$> rs) = 0%nat.
Proof. unfold closings. induction rs as [|r rs IH]; [done|]. by rewrite fmap_cons, filter_cons. Qed.

Lemma sent_app k l : sent_frames (k ++ l) = sent_frames k ++ sent_frames l.
Proof. apply omap_app. Qed.

Lemma sent_received (rs : list bytes) : sent_frames (TL_Received <$> rs) = [].
Proof. by induction rs. Qed.

Section logs.
Context {T : Type} `{FiniteInbound T}
  `{Message PrivilegedBridgeClientFrame, Message PrivilegedBridgeServerFrame}.

Implicit Types s : FramedBridgeRpc (T * list TransportLog).

Lemma receive_logged (tl : T * list TransportLog) r tl' :
  transport_receive tl = (r, tl') →
  tl'.2 = tl.2 ++ match r with Ok e => [TL_Received e] | Err _ => [] end.
Proof.
  destruct tl as [t l]. simpl. destruct (transport_receive t) as [[e|] t1]; intros; simplify_eq/=;
    by rewrite ?app_nil_r.
Qed.

(** Waiting for a response only takes frames off the transport, and closes it once when it
    fails. *)
Lemma call_loop_logged fuel request s r s' :
  call_loop fuel request s = Some (r, s') →
  fr_failed s = false → eq_failed (fr_events s) = false →
  ∃ rs, (fr_transport s').2 = (fr_transport s).2 ++ (TL_Received <$> rs) ++
          (if is_ok r then [] else [TL_Closed]) ∧ (is_ok r = true → fr_failed s' = false).
Proof.
  revert s. induction fuel as [|fuel IH]; intros s Hr Hf Hq; [done|]. simpl in Hr.
  destruct (call_turn request s) as [rt s1] eqn:Ht.
  apply call_turn_inv in Ht as [(e&->&_&Htr)|(enc&t'&f&Htr&Hd&Hcase)]; [| |done].
  - simplify_eq. rewrite Htr, Hf.
    destruct (transport_receive (fr_transport s)) as [re t'] eqn:Hre.
    apply receive_logged in Hre. exists (match re with Ok e => [e] | Err _ => [] end).
    change ((transport_fail_closed (re, t').2).2) with (t'.2 ++ [TL_Closed]). rewrite Hre.
    by destruct re; simpl; rewrite <- ?app_assoc.
  - apply receive_logged in Htr. destruct Hcase as [(_&->&->)|[(_&->&->)|(_&_&->&->&_)]].
    + apply IH in Hr as (rs&Hl&?); [|done..]. exists (enc :: rs). split; [|done].
      simpl in Hl. by rewrite Hl, Htr, <- app_assoc.
    + apply IH in Hr as (rs&Hl&?); [|done..]. exists (enc :: rs). split; [|done].
      simpl in Hl. by rewrite Hl, Htr, <- app_assoc.
    + simplify_eq. exists [enc]. simpl. by rewrite Htr.
Qed.

Lemma call_logged request s r s' :
  FramedBridgeRpc_call request s = (r, s') →
  fr_failed s = false → eq_failed (fr_events s) = false →
  ∃ rs, (fr_transport s').2 = (fr_transport s).2 ++ TL_Sent (encode_to_vec request) ::
          (TL_Received <$> rs) ++ (if is_ok r then [] else [TL_Closed]) ∧
    (is_ok r = true → fr_failed s' = false).
Proof.
  intros Hc Hf Hq. assert (queue_open s) as Ho by (by intros ?).
  pose proof (call_fuel_enough s request 0 Ho) as Hx. rewrite Hc in Hx.
  unfold call_fuel in Hx. rewrite Hf in Hx.
  unfold on_transport, map_err_m, zoom in Hx.
  destruct (transport_send (encode_to_vec request) (fr_transport s)) as [rs tl] eqn:Hs.
  assert (tl.2 = (fr_transport s).2 ++ [TL_Sent (encode_to_vec request)]) as Hl.
  { destruct (fr_transport s) as [t l]. simpl in Hs. destruct (transport_send _ t).
    by simplify_eq. }
  destruct rs as [[]|e]; cbn [map_err map_transport_error] in Hx.
  - apply (call_loop_logged (S (remaining (fr_transport (set_fr_transport tl s))) + 0)) in Hx
      as (rs&Hl2&Hd); [|done..]. exists rs. split; [|done]. rewrite Hl2. simpl.
    by rewrite Hl, <- app_assoc.
  - injection Hx as <- <-. exists []. split; [|done].
    unfold FramedBridgeRpc_fail_closed. simpl. rewrite Hf. simpl. by rewrite Hl, <- app_assoc.
Qed.
End logs.

Section handshake.
Context `{Hmac} {K T G : Type} `{FiniteInbound T, NonceSource G}
  `{Message PrivilegedBridgeClientFrame, Message PrivilegedBridgeServerFrame}.

Implicit Types st : (T * list TransportLog) * G.

(** One method of the handshake that logs [entries]. *)
Definition logs {A} (m : M ((T * list TransportLog) * G) ProxyError A)
    (P : A → list TransportLog → Prop) : Prop :=
  ∀ st r st', m st = (r, st') →
    ∃ entries, st'.1.2 = st.1.2 ++ entries ∧ closings entries = 0%nat ∧
      (∀ a, r = Ok a → P a entries).

Lemma logs_receive :
  logs (on_channel receive_server_frame)
    (λ f entries, ∃ e, entries = [TL_Received e] ∧
       decode_and_validate_privileged_bridge_server_frame e = Ok f).
Proof.
  intros [[t l] g] r st' Hr. unfold on_channel, receive_server_frame, map_err_m, zoom in Hr.
  rewrite bind_run in Hr. simpl in Hr.
  destruct (transport_receive t) as [[e|e] t']; unfold lift in Hr; simplify_eq/=.
  - exists [TL_Received e]. split_and!; [done|done|]. intros f Hf. eexists. split; [done|].
    by destruct (decode_and_validate_privileged_bridge_server_frame e); simplify_eq/=.
  - exists []. rewrite app_nil_r. by split_and!.
Qed.

Lemma logs_send frame :
  logs (on_channel (send_client_frame frame))
    (λ _ entries, entries = [TL_Sent (encode_to_vec frame)]).
Proof.
  intros [[t l] g] r st' Hr. unfold on_channel, send_client_frame, zoom, map_err_m in Hr.
  simpl in Hr. destruct (transport_send (encode_to_vec frame) t). simplify_eq/=.
  by eexists.
Qed.

Lemma logs_bind {A B} (m : M _ ProxyError A) (k : A → M _ ProxyError B) P Q :
  logs m P → (∀ a e1, P a e1 → logs (k a) (λ b e2, Q b (e1 ++ e2))) → logs (m ≫= k) Q.
Proof.
  intros Hm Hk st r st' Hr. rewrite bind_run in Hr. destruct (m st) as [ra st1] eqn:Hma.
  apply Hm in Hma as (e1&H1l&Hc1&HP). destruct ra as [a|e].
  - apply (Hk a e1 (HP a eq_refl)) in Hr as (e2&H2l&Hc2&HQ). exists (e1 ++ e2).
    rewrite H2l, H1l, closings_app, Hc1, Hc2, app_assoc. by split_and!.
  - simplify_eq. exists e1. by split_and!.
Qed.

Lemma logs_pure {A} (r0 : result ProxyError A) (P : A → list TransportLog → Prop) :
  (∀ a, r0 = Ok a → P a []) → logs (lift r0) P.
Proof.
  intros HP st r st' Hr. unfold lift in Hr. simplify_eq. exists []. rewrite app_nil_r.
  by split_and!.
Qed.

Lemma logs_nonce (P : bytes → list TransportLog → Prop) :
  (∀ n, P n []) →
  logs (map_err_m (λ _, PE_Transport) (zoom snd (λ g s, (s.1, g)) fill_nonce)) P.
Proof.
  intros HP st r st' Hr. unfold map_err_m, zoom in Hr.
  destruct (fill_nonce st.2) as [rn g]. simplify_eq. exists []. rewrite app_nil_r.
  split_and!; [done..|]. intros n _. apply HP.
Qed.

Lemma logs_throw {A} (e : ProxyError) (P : A → list TransportLog → Prop) : logs (mthrow e) P.
Proof. by apply (logs_pure (Err e)). Qed.

Lemma logs_ok_or {A B} (o : option A) (e : ProxyError) (k : A → M _ ProxyError B) Q :
  (∀ a, o = Some a → logs (k a) Q) → logs (ok_or o e ≫= k) Q.
Proof. intros Hk. destruct o; [by apply Hk|apply logs_throw]. Qed.

Lemma logs_fail_if {B} (c : bool) (e : ProxyError) (k : unit → M _ ProxyError B) Q :
  (c = false → logs (k ()) Q) → logs (fail_if c e ≫= k) Q.
Proof. intros Hk. destruct c; [apply logs_throw|by apply Hk]. Qed.

Lemma logs_lift {A B} (r : result ProxyError A) (k : A → M _ ProxyError B) Q :
  (∀ a, r = Ok a → logs (k a) Q) → logs (lift r ≫= k) Q.
Proof. intros Hk. destruct r; [by apply Hk|apply (logs_throw e)]. Qed.

(** The entries of a successful authentication. *)
Definition authentic (self : AuthenticatedBridgeConnector K)
    (session : PrivilegedSessionDescriptor) (entries : list TransportLog) : Prop :=
  ∃ ce ae se challenge authenticated status instance_id server_nonce client_nonce,
    entries = [TL_Received ce;
               TL_Sent (encode_to_vec (auth_frame PrivilegedBridgeRole_HostAgent client_nonce
                 (channel_client_proof (ac_token self) PrivilegedHost instance_id server_nonce
                    client_nonce) (ac_executable_sha256 self) (ac_os_session_id self)));
               TL_Received ae; TL_Received se] ∧
    decode_and_validate_privileged_bridge_server_frame ce = Ok challenge ∧
    decode_and_validate_privileged_bridge_server_frame ae = Ok authenticated ∧
    decode_and_validate_privileged_bridge_server_frame se = Ok status ∧
    trusted self instance_id server_nonce client_nonce challenge authenticated status session.

Lemma authenticate_logs `{!HmacLaws} self :
  logs (AuthenticatedBridgeConnector_authenticate self)
    (λ status entries, ∃ session,
       PrivilegedBridgeStatusSnapshot_interactive_session status = Some session ∧
       authentic self session entries).
Proof.
  unfold AuthenticatedBridgeConnector_authenticate.
  eapply logs_bind; [apply logs_receive|]. intros c e1 (ce&->&Hc).
  destruct (PrivilegedBridgeServerFrame_payload c) as [[[id sn]| | | | | | | | | | |]|] eqn:Hcp;
    try apply logs_throw.
  apply logs_ok_or. intros ? [-> Hid]%array_of_Some.
  apply logs_ok_or. intros ? [-> Hsn]%array_of_Some.
  eapply (logs_bind _ _ (λ _ e, e = [])); [by apply logs_nonce|]. intros cn ? ->.
  eapply logs_bind; [apply logs_send|]. intros [] ? ->.
  eapply logs_bind; [apply logs_receive|]. intros a ? (ae&->&Ha).
  apply logs_fail_if. intros Hreply. boolsimpl.
  destruct (PrivilegedBridgeServerFrame_payload a) as [[|[pf]| | | | | | | | | |]|] eqn:Hap;
    try apply logs_throw.
  apply logs_fail_if. intros Hproof. boolsimpl. apply hmac_verify_iff in Hproof.
  eapply logs_bind; [apply logs_receive|]. intros f ? (se&->&Hf).
  destruct (PrivilegedBridgeServerFrame_payload f) as [[| | |st| | | | | | | |]|] eqn:Hfp;
    try apply logs_throw.
  apply logs_lift. intros [] (Hst&Hhc&session&Hss&Hos&Hg)%check_status_Ok.
  apply (logs_pure (Ok st)). intros ? [= <-]. exists session. split; [done|].
  exists ce, ae, se, c, a, f, id, sn, cn. split_and!; [done..|].
  split; try done.
  - rewrite Hap. simpl in Hproof. by rewrite Hproof.
  - by exists st.
Qed.

(** What a connection stands for: an authentic broker, exactly two frames sent, and a lease of
    the session the context names on the broker's current route. *)
Definition established (self : AuthenticatedBridgeConnector K) (context : ProxySessionContext)
    (connection : BridgeConnection (FramedBridgeRpc (T * list TransportLog)))
    (log : list TransportLog) : Prop :=
  ∃ session entries response lease rs,
    authentic self session entries ∧
    log = entries ++
      TL_Sent (encode_to_vec (acquire_frame context
        (PrivilegedSessionDescriptor_generation session))) :: (TL_Received <$> rs) ∧
    PrivilegedBridgeServerFrame_payload response =
      Some (PrivilegedBridgeServerFrame_Payload_Lease lease) ∧
    leased context (PrivilegedSessionDescriptor_generation session) (bc_route connection) lease ∧
    valid_route (bc_route connection) ∧ bc_next_frame_sequence connection = 3.

Lemma acquire_logged context generation (rpc : FramedBridgeRpc (T * list TransportLog)) r rpc' :
  acquire_lease context generation rpc = (r, rpc') →
  fr_failed rpc = false → eq_failed (fr_events rpc) = false →
  (∃ rs, (fr_transport rpc').2 = (fr_transport rpc).2 ++
      TL_Sent (encode_to_vec (acquire_frame context generation)) ::
      (TL_Received <$> rs) ++ (if is_ok r then [] else [TL_Closed])) ∧
  (∀ route, r = Ok route → ∃ response, check_lease context generation response = Ok route).
Proof.
  intros Ha Hf Hq. unfold acquire_lease in Ha. rewrite bind_run in Ha.
  destruct (FramedBridgeRpc_call (acquire_frame context generation) rpc) as [rc rpc1] eqn:Hc.
  apply call_logged in Hc as (rs&Hl&Hlive); [|done..].
  destruct rc as [response|e]; [|simplify_eq; split; [by exists rs|done]].
  destruct (check_lease context generation response) as [route|e] eqn:Hck.
  - unfold mret, M_ret in Ha. simplify_eq. split; [by exists rs|]. intros ? [= <-]. eauto.
  - rewrite bind_run in Ha. unfold modify, mthrow, M_throw in Ha. simplify_eq.
    split; [|done]. exists rs. unfold FramedBridgeRpc_fail_closed. rewrite Hlive by done. simpl.
    rewrite Hl. simpl. by rewrite app_nil_r, <- app_assoc.
Qed.

(** What a connection attempt may come to. *)
Definition connect_outcome (self : AuthenticatedBridgeConnector K) (context : ProxySessionContext)
    (outcome : result ProxyError (BridgeConnection (FramedBridgeRpc (T * list TransportLog))) *
               ((T * list TransportLog) * G)) : Prop :=
  let '(r, ((_, log), _)) := outcome in
  match r with
  | Ok connection => established self context connection log ∧ closings log = 0%nat
  | Err _ => ∃ entries, log = entries ++ [TL_Closed] ∧ closings entries = 0%nat
  end.

(** C20. Connecting is all or nothing and authenticated, whatever the transport delivers and
    whatever random bytes are drawn. On success the broker proved knowledge of the shared token
    over its challenge and the Host's own nonce, reported a ready helper of this operating
    system session, and granted a lease of exactly the verified session, permissions and
    controller on the reported route; the Host sent exactly the authentication and the
    acquisition, and the wire continues with frame 3. On any failure the transport is closed,
    once and last. *)
Theorem connect_all_or_nothing `{!HmacLaws} (self : AuthenticatedBridgeConnector K)
    (context : ProxySessionContext) (transport : T) (g : G) :
  connect_outcome self context (connect_transport self context ((transport, []), g)).
Proof.
  unfold connect_outcome, connect_transport. rewrite bind_run. unfold try.
  destruct (AuthenticatedBridgeConnector_authenticate self (transport, [], g))
    as [ra [[t l] g1]] eqn:Ha.
  apply authenticate_logs in Ha as (entries&Hl&Hcl&Hok). simpl in Hl. subst l.
  destruct ra as [status|e].
  2: { simpl. by exists entries. }
  destruct (Hok status eq_refl) as (session&Hs&Hauth).
  rewrite Hs, bind_some, bind_get. cbn [fst snd].
  destruct (acquire_lease context _ _) as [rr rpc] eqn:Hacq.
  apply acquire_logged in Hacq as ([rs Hl2]&Hck); [|done..]. rewrite bind_run. simpl.
  simpl in Hl2. destruct (fr_transport rpc) as [t2 l2]. simpl in Hl2. subst l2.
  destruct rr as [route|e]; simpl.
  - destruct (Hck route eq_refl) as (response&(lease&Hp&Hle)%check_lease_Ok). rewrite app_nil_r.
    split.
    + exists session, entries, response, lease, rs. split; [done|]. split; [done|].
      split; [done|]. split; [done|]. split; [|done].
      destruct Hle as (_&Hlen&_&Hg&_). split; [done|]. simpl. rewrite Hg.
      destruct Hauth as (?&?&?&?&?&?&?&?&?&_&_&_&_&Htr).
      exact (proj2 (tr_session _ _ _ _ _ _ _ _ Htr)).
    + rewrite closings_app, Hcl. apply closings_received.
  - exists (entries ++ TL_Sent (encode_to_vec (acquire_frame context
      (PrivilegedSessionDescriptor_generation session))) :: (TL_Received <$> rs)).
    split; [by rewrite <- app_assoc|]. rewrite closings_app, Hcl. apply closings_received.
Qed.
End handshake.

(** * A concrete handshake *)

(** A transport that delivers a fixed list of frames. *)
#[export] Instance script_transport : LocalBridgeTransport (list bytes) := {
  transport_send _ s := (Ok (), s);
  transport_receive s := match s with [] => (Err TE_Disconnected, []) | e :: s => (Ok e, s) end;
  transport_try_receive s := match s with [] => (Ok None, []) | e :: s => (Ok (Some e), s) end;
  transport_peer_identity _ := None;
  transport_fail_closed s := []
}.

#[export] Program Instance script_finite : FiniteInbound (list bytes) := { remaining := length }.
Next Obligation. intros [|e s] frame t'; simpl; intros; simplify_eq. lia. Qed.

#[local] Instance toy_nonces : NonceSource Z := { fill_nonce g := (Ok (be_bytes 32 g), g + 1) }.

Definition toy_descriptor : PrivilegedSessionDescriptor :=
  {| PrivilegedSessionDescriptor_platform := to_i32 DevicePlatform_Windows;
     PrivilegedSessionDescriptor_os_session_id := 4;
     PrivilegedSessionDescriptor_desktop_kind := to_i32 InteractiveDesktopKind_Normal;
     PrivilegedSessionDescriptor_generation := 3 |}.

Definition toy_server_frame (id : text) (n : Z) (payload : PrivilegedBridgeServerFrame_Payload)
    : PrivilegedBridgeServerFrame :=
  {| PrivilegedBridgeServerFrame_protocol_version := Some version;
     PrivilegedBridgeServerFrame_request_id := id; PrivilegedBridgeServerFrame_sequence := n;
     PrivilegedBridgeServerFrame_payload := Some payload |}.

Definition toy_context : ProxySessionContext :=
  {| ctx_session_id := be_bytes 16 5;
     ctx_permissions := [SessionPermission_ViewScreen; SessionPermission_ControlInput];
     ctx_controller_display_name := lit "phone" |}.

Definition toy_frames : list PrivilegedBridgeServerFrame :=
  [toy_server_frame (lit "challenge-1") 1 (PrivilegedBridgeServerFrame_Payload_Challenge
     {| PrivilegedBridgeChallenge_broker_instance_id := be_bytes 16 1;
        PrivilegedBridgeChallenge_server_nonce := be_bytes 32 2 |});
   toy_server_frame AUTH_REQUEST_ID 1 (PrivilegedBridgeServerFrame_Payload_Authenticated
     {| PrivilegedBridgeAuthenticated_server_proof :=
          @channel_server_proof toy_hmac example_token PrivilegedHost (be_bytes 16 1)
            (be_bytes 32 2) (be_bytes 32 9) |});
   toy_server_frame (lit "status-2") 2 (PrivilegedBridgeServerFrame_Payload_Status
     {| PrivilegedBridgeStatusSnapshot_state := to_i32 PrivilegedBridgeState_Ready;
        PrivilegedBridgeStatusSnapshot_interactive_session := Some toy_descriptor;
        PrivilegedBridgeStatusSnapshot_helper_connected := true;
        PrivilegedBridgeStatusSnapshot_active_controller_display_name := [];
        PrivilegedBridgeStatusSnapshot_error := None |});
   toy_server_frame ACQUIRE_REQUEST_ID 2 (PrivilegedBridgeServerFrame_Payload_Lease
     {| PrivilegedLease_lease_id := be_bytes 16 7; PrivilegedLease_generation := 3;
        PrivilegedLease_issued_at_unix_ms := 10; PrivilegedLease_expires_at_unix_ms := 20;
        PrivilegedLease_session_id := be_bytes 16 5;
        PrivilegedLease_permissions :=
          [to_i32 SessionPermission_ViewScreen; to_i32 SessionPermission_ControlInput];
        PrivilegedLease_controller_display_name := lit "phone" |})].

(** A code for exactly these frames: their position. *)
#[local] Instance toy_server_code : Message PrivilegedBridgeServerFrame := {
  encode_to_vec _ := [];
  decode e := match e with [b] => toy_frames !! Z.to_nat (byte_val b) | _ => None end
}.
#[local] Instance toy_client_code : Message PrivilegedBridgeClientFrame := {
  encode_to_vec f := as_bytes (PrivilegedBridgeClientFrame_request_id f); decode _ := None
}.

Definition toy_connector : AuthenticatedBridgeConnector unit :=
  {| ac_connector := (); ac_token := example_token; ac_executable_sha256 := be_bytes 32 6;
     ac_os_session_id := 4 |}.

Definition toy_script : list bytes := [[byte_of 0]; [byte_of 1]; [byte_of 2]; [byte_of 3]].

Definition toy_outcome :=
  @connect_transport toy_hmac unit (list bytes * list TransportLog) Z _ _ _ _ _ toy_connector
    toy_context ((toy_script, []), 9).

Lemma connect_all_or_nothing_witness :
  is_ok toy_outcome.1 = true ∧
  @connect_outcome toy_hmac unit (list bytes) Z _ _ toy_connector toy_context toy_outcome.
Proof.
  split; [vm_compute; reflexivity|]. unfold toy_outcome.
  apply (@connect_all_or_nothing toy_hmac unit (list bytes) Z _ _ _ _ _ toy_hmac_laws).
Defined.
