(* ===== verification/BridgeRuntime.v ===== *)
(** The broker and helper processes of the bridge, crates/privileged-bridge/src/runtime.rs:
    how the broker authenticates a local peer, registers the session helper and serves one Host
    connection at a time, and how the helper connects and serves the broker.

    The two accept loops (Unix socket, Windows pipe) run the same body on each accepted
    transport, [serve_peer]; the sockets themselves are operating system I/O.  The main loops
    run until the shutdown flag is read as set: they take fuel, and [EventualShutdown] says
    that the flag is set at some later reading. *)
From S2P Require Import Prelude Limits Messages Lease Route Webrtc PeerSession Proxy Broker Helper BridgeQueue Validation IpcAuth BridgeAuth Rpc Client Connector.

Local Open Scope Z_scope.

(** * The process environment *)

(** The shutdown flag and the system clock: milliseconds since the epoch, none before it. *)
Class RuntimeEnv (E : Type) := {
  shutdown : E → bool * E;
  system_time : E → option Z * E
}.

Class EventualShutdown (E : Type) `{RuntimeEnv E} := {
  until_shutdown : E → nat;
  shutdown_nears e e' : shutdown e = (false, e') → (until_shutdown e' < until_shutdown e)%nat;
  time_passes e : (until_shutdown (system_time e).2 <= until_shutdown e)%nat
}.

Definition REPLAY_CAPACITY : nat := 256.
Definition CHALLENGE_REQUEST_ID : text := lit "challenge-1".
Definition STATUS_REQUEST_ID : text := lit "status-2".
Definition HELPER_REGISTER_REQUEST_ID : text := lit "register-helper-2".

Inductive RuntimeBridgeError :=
| RB_Configuration | RB_Transport | RB_Authentication | RB_InvalidMessage | RB_RouteUnavailable
| RB_Broker | RB_Clock.

#[export] Instance RuntimeBridgeError_eq_dec : EqDecision RuntimeBridgeError.
Proof. solve_decision. Defined.

(** * Configuration *)

Record BrokerRuntimeConfig := {
  brc_token : bytes;
  brc_instance_id : bytes;
  brc_host_executable_sha256 : bytes;
  brc_helper_executable_sha256 : bytes;
  brc_owner_os_session_id : Z
}.

Definition BrokerRuntimeConfig_new (token instance_id host_executable_sha256
    helper_executable_sha256 : bytes) (owner_os_session_id : Z)
    : result RuntimeBridgeError BrokerRuntimeConfig :=
  fail_if (bool_decide (token = be_bytes 32 0) || bool_decide (instance_id = be_bytes 16 0) ||
           bool_decide (host_executable_sha256 = be_bytes 32 0) ||
           bool_decide (helper_executable_sha256 = be_bytes 32 0) ||
           (owner_os_session_id =? 0)) RB_Configuration;;
  mret {| brc_token := token; brc_instance_id := instance_id;
          brc_host_executable_sha256 := host_executable_sha256;
          brc_helper_executable_sha256 := helper_executable_sha256;
          brc_owner_os_session_id := owner_os_session_id |}.

Definition ready_status (session : PrivilegedSessionDescriptor)
    : PrivilegedBridgeStatusSnapshot :=
  {| PrivilegedBridgeStatusSnapshot_state := to_i32 PrivilegedBridgeState_Ready;
     PrivilegedBridgeStatusSnapshot_interactive_session := Some session;
     PrivilegedBridgeStatusSnapshot_helper_connected := true;
     PrivilegedBridgeStatusSnapshot_active_controller_display_name := [];
     PrivilegedBridgeStatusSnapshot_error := None |}.

Record HelperClientConfig := {
  hcc_token : bytes;
  hcc_executable_sha256 : bytes;
  hcc_session : PrivilegedSessionDescriptor
}.

Definition HelperClientConfig_new (token executable_sha256 : bytes)
    (session : PrivilegedSessionDescriptor) : result RuntimeBridgeError HelperClientConfig :=
  let status := ready_status session in
  fail_if (bool_decide (token = be_bytes 32 0) || bool_decide (executable_sha256 = be_bytes 32 0) ||
           negb (is_ok (validate_privileged_bridge_status_snapshot status))) RB_Configuration;;
  mret {| hcc_token := token; hcc_executable_sha256 := executable_sha256;
          hcc_session := session |}.

(** * Frames *)

Definition server_frame (request_id : text) (sequence : Z)
    (payload : PrivilegedBridgeServerFrame_Payload) : PrivilegedBridgeServerFrame :=
  {| PrivilegedBridgeServerFrame_protocol_version := Some version;
     PrivilegedBridgeServerFrame_request_id := request_id;
     PrivilegedBridgeServerFrame_sequence := sequence;
     PrivilegedBridgeServerFrame_payload := Some payload |}.

Definition status_frame (status : PrivilegedBridgeStatusSnapshot) : PrivilegedBridgeServerFrame :=
  server_frame STATUS_REQUEST_ID 2 (PrivilegedBridgeServerFrame_Payload_Status status).

Definition unavailable_status_frame : PrivilegedBridgeServerFrame :=
  status_frame
    {| PrivilegedBridgeStatusSnapshot_state := to_i32 PrivilegedBridgeState_UserSessionOnly;
       PrivilegedBridgeStatusSnapshot_interactive_session := None;
       PrivilegedBridgeStatusSnapshot_helper_connected := false;
       PrivilegedBridgeStatusSnapshot_active_controller_display_name := [];
       PrivilegedBridgeStatusSnapshot_error := None |}.

Definition error_frame (request : PrivilegedBridgeClientFrame) : PrivilegedBridgeServerFrame :=
  server_frame (PrivilegedBridgeClientFrame_request_id request)
    (PrivilegedBridgeClientFrame_sequence request)
    (PrivilegedBridgeServerFrame_Payload_Error
       {| UnifiedError_code := to_i32 ErrorCode_InvalidRequest;
          UnifiedError_message_key := lit "privileged_bridge_rejected";
          UnifiedError_retryable := false;
          UnifiedError_request_id := PrivilegedBridgeClientFrame_request_id request;
          UnifiedError_details := None |}).

Definition challenge_frame (instance_id server_nonce : bytes) : PrivilegedBridgeServerFrame :=
  server_frame CHALLENGE_REQUEST_ID 1
    (PrivilegedBridgeServerFrame_Payload_Challenge
       {| PrivilegedBridgeChallenge_broker_instance_id := instance_id;
          PrivilegedBridgeChallenge_server_nonce := server_nonce |}).

Definition authenticated_frame (request : PrivilegedBridgeClientFrame) (proof : bytes)
    : PrivilegedBridgeServerFrame :=
  server_frame (PrivilegedBridgeClientFrame_request_id request)
    (PrivilegedBridgeClientFrame_sequence request)
    (PrivilegedBridgeServerFrame_Payload_Authenticated
       {| PrivilegedBridgeAuthenticated_server_proof := proof |}).

Definition registered_frame (request : PrivilegedBridgeClientFrame)
    (session : PrivilegedSessionDescriptor) : PrivilegedBridgeServerFrame :=
  server_frame (PrivilegedBridgeClientFrame_request_id request)
    (PrivilegedBridgeClientFrame_sequence request)
    (PrivilegedBridgeServerFrame_Payload_HelperRegistered
       {| PrivilegedHelperRegistered_session := Some session |}).

Definition helper_auth_frame (config : HelperClientConfig) (client_nonce client_proof : bytes)
    : PrivilegedBridgeClientFrame :=
  {| PrivilegedBridgeClientFrame_protocol_version := Some version;
     PrivilegedBridgeClientFrame_request_id := lit "authenticate-helper-1";
     PrivilegedBridgeClientFrame_sequence := 1;
     PrivilegedBridgeClientFrame_payload :=
       Some (PrivilegedBridgeClientFrame_Payload_Authenticate
         {| PrivilegedBridgeAuthenticate_role := to_i32 PrivilegedBridgeRole_SessionHelper;
            PrivilegedBridgeAuthenticate_client_nonce := client_nonce;
            PrivilegedBridgeAuthenticate_client_proof := client_proof;
            PrivilegedBridgeAuthenticate_executable_sha256 := hcc_executable_sha256 config;
            PrivilegedBridgeAuthenticate_os_session_id :=
              PrivilegedSessionDescriptor_os_session_id (hcc_session config) |}) |}.

Definition register_frame (session : PrivilegedSessionDescriptor) : PrivilegedBridgeClientFrame :=
  {| PrivilegedBridgeClientFrame_protocol_version := Some version;
     PrivilegedBridgeClientFrame_request_id := HELPER_REGISTER_REQUEST_ID;
     PrivilegedBridgeClientFrame_sequence := 2;
     PrivilegedBridgeClientFrame_payload :=
       Some (PrivilegedBridgeClientFrame_Payload_RegisterHelper
         {| RegisterPrivilegedHelperRequest_session := Some session |}) |}.

Definition route_session (descriptor : PrivilegedSessionDescriptor)
    : result RuntimeBridgeError RouteSession :=
  platform ← match DevicePlatform_try_from (PrivilegedSessionDescriptor_platform descriptor) with
             | Some DevicePlatform_Windows => Ok Platform_Windows
             | Some DevicePlatform_Macos => Ok Platform_Macos
             | _ => Err RB_InvalidMessage
             end;
  desktop ← match InteractiveDesktopKind_try_from
                    (PrivilegedSessionDescriptor_desktop_kind descriptor) with
            | Some InteractiveDesktopKind_Normal => Ok Normal
            | Some InteractiveDesktopKind_LockedLogin => Ok LockedLogin
            | Some InteractiveDesktopKind_Secure => Ok Secure
            | _ => Err RB_InvalidMessage
            end;
  mret {| platform := platform;
          os_session_id := PrivilegedSessionDescriptor_os_session_id descriptor;
          desktop := desktop;
          route_generation := PrivilegedSessionDescriptor_generation descriptor |}.

(** * Transport calls *)

Section calls.
Context {T : Type} `{LocalBridgeTransport T}
  `{Message PrivilegedBridgeClientFrame, Message PrivilegedBridgeServerFrame}.

Definition decode_client_frame (encoded : bytes)
    : result RuntimeBridgeError PrivilegedBridgeClientFrame :=
  map_err (λ _, RB_InvalidMessage) (decode_and_validate_privileged_bridge_client_frame encoded).

Definition receive_client_frame : M T RuntimeBridgeError PrivilegedBridgeClientFrame :=
  encoded ← map_err_m (λ _, RB_Transport) transport_receive;
  lift (decode_client_frame encoded).

Definition runtime_receive_server_frame : M T RuntimeBridgeError PrivilegedBridgeServerFrame :=
  encoded ← map_err_m (λ _, RB_Transport) transport_receive;
  lift (map_err (λ _, RB_InvalidMessage)
          (decode_and_validate_privileged_bridge_server_frame encoded)).

Definition runtime_send_client_frame (frame : PrivilegedBridgeClientFrame)
    : M T RuntimeBridgeError unit :=
  map_err_m (λ _, RB_Transport) (transport_send (encode_to_vec frame)).

Definition send_server_frame (frame : PrivilegedBridgeServerFrame) : M T RuntimeBridgeError unit :=
  map_err_m (λ _, RB_Transport) (transport_send (encode_to_vec frame)).

(** [register_helper] answers on the transport that becomes the helper's. *)
Definition register_helper (os_session_id : Z)
    : M T RuntimeBridgeError PrivilegedSessionDescriptor :=
  request ← receive_client_frame;
  match PrivilegedBridgeClientFrame_payload request with
  | Some (PrivilegedBridgeClientFrame_Payload_RegisterHelper register) =>
      session ← ok_or (RegisterPrivilegedHelperRequest_session register) RB_InvalidMessage;
      fail_if (negb (PrivilegedSessionDescriptor_os_session_id session =? os_session_id) ||
               negb (is_ok (validate_privileged_bridge_status_snapshot (ready_status session))))
              RB_InvalidMessage;;
      send_server_frame (registered_frame request session);;
      mret session
  | _ => mthrow RB_InvalidMessage
  end.
End calls.

(** * The broker authenticates a peer *)

Record AuthenticatedPeer := { ap_role : BridgeRole; ap_os_session_id : Z }.

(** The identity the operating system reports must be the claimed one. *)
Definition check_identity (identity : option TransportPeerIdentity) (role : BridgeRole)
    (expected_hash : bytes) (claimed_os_session_id owner : Z) : result RuntimeBridgeError unit :=
  match identity with
  | None => mret ()
  | Some peer =>
      fail_if ((tp_process_id peer =? 0) ||
               (negb (tp_os_session_id peer =? 0) &&
                negb (tp_os_session_id peer =? claimed_os_session_id)) ||
               negb (bool_decide (tp_executable_sha256 peer = expected_hash))) RB_Authentication;;
      match tp_unix_uid peer with
      | None => mret ()
      | Some uid =>
          fail_if (U32_MAX <? owner) RB_Authentication;;
          fail_if (negb match role with
                        | HostAgent => uid =? owner
                        | SessionHelper => (uid =? 0) || (uid =? owner)
                        end) RB_Authentication
      end
  end.

Definition claimed_role (role : Z) : option BridgeRole :=
  match PrivilegedBridgeRole_try_from role with
  | Some PrivilegedBridgeRole_HostAgent => Some HostAgent
  | Some PrivilegedBridgeRole_SessionHelper => Some SessionHelper
  | _ => None
  end.

Section server.
Context `{Hmac} {T G : Type} `{LocalBridgeTransport T, NonceSource G}
  `{Message PrivilegedBridgeClientFrame, Message PrivilegedBridgeServerFrame}.

(** The state: the peer's transport, the random source and the replay guard. *)
Record ServerState := { ss_transport : T; ss_nonces : G; ss_replay : NonceReplayGuard }.

Definition set_ss_transport (t : T) (s : ServerState) : ServerState :=
  {| ss_transport := t; ss_nonces := ss_nonces s; ss_replay := ss_replay s |}.
Definition set_ss_nonces (g : G) (s : ServerState) : ServerState :=
  {| ss_transport := ss_transport s; ss_nonces := g; ss_replay := ss_replay s |}.
Definition set_ss_replay (r : NonceReplayGuard) (s : ServerState) : ServerState :=
  {| ss_transport := ss_transport s; ss_nonces := ss_nonces s; ss_replay := r |}.

Definition on_peer {A} (m : M T RuntimeBridgeError A) : M ServerState RuntimeBridgeError A :=
  zoom ss_transport set_ss_transport m.

Definition authenticate_server (config : BrokerRuntimeConfig)
    : M ServerState RuntimeBridgeError AuthenticatedPeer :=
  server_nonce ← map_err_m (λ _, RB_Authentication) (zoom ss_nonces set_ss_nonces fill_nonce);
  on_peer (send_server_frame (challenge_frame (brc_instance_id config) server_nonce));;
  request ← on_peer receive_client_frame;
  match PrivilegedBridgeClientFrame_payload request with
  | Some (PrivilegedBridgeClientFrame_Payload_Authenticate authenticate) =>
      role ← ok_or (claimed_role (PrivilegedBridgeAuthenticate_role authenticate))
                   RB_Authentication;
      let expected_hash :=
        match role with
        | HostAgent => brc_host_executable_sha256 config
        | SessionHelper => brc_helper_executable_sha256 config
        end in
      fail_if (negb (bool_decide (PrivilegedBridgeAuthenticate_executable_sha256 authenticate =
                                  expected_hash)) ||
               negb (PrivilegedBridgeAuthenticate_os_session_id authenticate =?
                     brc_owner_os_session_id config)) RB_Authentication;;
      self ← get;
      lift (check_identity (transport_peer_identity (ss_transport self)) role expected_hash
              (PrivilegedBridgeAuthenticate_os_session_id authenticate)
              (brc_owner_os_session_id config));;
      let authenticator := BridgeAuthenticator_new role (brc_token config)
                             (brc_instance_id config) server_nonce in
      proof ← map_err_m (λ _, RB_Authentication)
        (zoom (λ s, (authenticator, ss_replay s)) (λ ar s, set_ss_replay ar.2 s)
           (BridgeAuthenticator_authenticate
              (PrivilegedBridgeAuthenticate_client_nonce authenticate)
              (PrivilegedBridgeAuthenticate_client_proof authenticate)));
      on_peer (send_server_frame (authenticated_frame request proof));;
      mret {| ap_role := role;
              ap_os_session_id := PrivilegedBridgeAuthenticate_os_session_id authenticate |}
  | _ => mthrow RB_Authentication
  end.
End server.
Arguments ServerState : clear implicits.

(** * The broker serves one Host *)

Definition now_unix_ms {E : Type} `{RuntimeEnv E} : M E RuntimeBridgeError Z := λ e,
  let '(elapsed, e) := system_time e in
  match elapsed with
  | Some ms => if ms <=? U64_MAX then (Ok ms, e) else (Err RB_Clock, e)
  | None => (Err RB_Clock, e)
  end.

(** [TransportBrokerHelper]: the helper process behind the registered transport. *)
#[export] Instance TransportBrokerHelper {T : Type} `{FiniteInbound T}
    `{Message PrivilegedBridgeClientFrame, Message PrivilegedBridgeServerFrame}
    : BrokerHelper (FramedBridgeRpc T) := {
  helper_exchange request := map_err_m (λ _, BE_Helper) (FramedBridgeRpc_call request);
  helper_try_event := map_err_m (λ _, BE_Helper) FramedBridgeRpc_try_event;
  helper_fail_closed := FramedBridgeRpc_fail_closed
}.

Record RegisteredHelper {T : Type} := {
  rh_session : PrivilegedSessionDescriptor;
  rh_transport : T
}.
Arguments RegisteredHelper : clear implicits.

Section host.
Context {Ids W T E : Type} `{LeaseIdSource Ids, BrokerHelper W, LocalBridgeTransport T, RuntimeEnv E}
  `{Message PrivilegedBridgeClientFrame, Message PrivilegedBridgeServerFrame}.

(** The Host's transport, the broker's session over any helper, and the environment. *)
Record HostRun := {
  hr_host : T;
  hr_session : HostBrokerSession Ids W;
  hr_env : E
}.

Abbreviation Rt A := (M HostRun RuntimeBridgeError A).

Definition set_hr_host (t : T) (s : HostRun) : HostRun :=
  {| hr_host := t; hr_session := hr_session s; hr_env := hr_env s |}.
Definition set_hr_session (b : HostBrokerSession Ids W) (s : HostRun) : HostRun :=
  {| hr_host := hr_host s; hr_session := b; hr_env := hr_env s |}.
Definition set_hr_env (e : E) (s : HostRun) : HostRun :=
  {| hr_host := hr_host s; hr_session := hr_session s; hr_env := e |}.

Definition on_host {A} (m : M T RuntimeBridgeError A) : Rt A := zoom hr_host set_hr_host m.
Definition on_session {A} (m : M (HostBrokerSession Ids W) BrokerProtocolError A)
    : Rt (result BrokerProtocolError A) := try (zoom hr_session set_hr_session m).
Definition clock : Rt Z := zoom hr_env set_hr_env now_unix_ms.

(** [session.handle(request.clone(), now_unix_ms()?)] and the answer; [false] is a refusal. *)
Definition serve_request (request : PrivilegedBridgeClientFrame) : Rt bool :=
  now ← clock;
  response ← on_session (HostBrokerSession_handle request now);
  match response with
  | Ok response => on_host (send_server_frame response);; mret true
  | Err _ => on_host (send_server_frame (error_frame request));; mret false
  end.

(** One turn of the serving loop; [false] is [break]. *)
Definition host_turn : Rt bool :=
  received ← try (zoom hr_host set_hr_host transport_try_receive);
  goes_on ← match received with
            | Ok (Some encoded) =>
                request ← lift (decode_client_frame encoded);
                serve_request request
            | Ok None => mret true
            | Err TE_Disconnected => mret false
            | Err _ => mthrow RB_Transport
            end;
  if negb goes_on then mret false else
  now ← clock;
  expired ← on_session (HostBrokerSession_expire now);
  if bool_decide (expired = Ok true) then mret false else
  event ← on_session HostBrokerSession_try_event;
  match event with
  | Err _ => mthrow RB_Broker
  | Ok None => mret true
  | Ok (Some event) => on_host (send_server_frame event);; mret true
  end.

Definition read_shutdown (s : HostRun) : bool * HostRun :=
  let '(stop, e) := shutdown (hr_env s) in (stop, set_hr_env e s).

(** [while !shutdown.load(..)]; [None] is fuel exhausted. *)
Fixpoint host_loop (fuel : nat) (s : HostRun)
    : option (result RuntimeBridgeError unit * HostRun) :=
  match fuel with
  | O => None
  | S fuel =>
      let '(stop, s) := read_shutdown s in
      if stop then Some (Ok (), s) else
      match host_turn s with
      | (Ok true, s) => host_loop fuel s
      | (Ok false, s) => Some (Ok (), s)
      | (Err e, s) => Some (Err e, s)
      end
  end.

Definition close_both (s : HostRun) : HostRun :=
  {| hr_host := transport_fail_closed (hr_host s);
     hr_session := (HostBrokerSession_fail_closed (hr_session s)).2; hr_env := hr_env s |}.

(** From the acquisition on: the first request, then the loop; both transports are closed
    unless an error returns early. *)
Definition serve_session (fuel : nat) (request : PrivilegedBridgeClientFrame) (s : HostRun)
    : option (result RuntimeBridgeError unit * HostRun) :=
  match serve_request request s with
  | (Err e, s) => Some (Err e, s)
  | (Ok false, s) => Some (Ok (), close_both s)
  | (Ok true, s) =>
      '(r, s) ← host_loop fuel s;
      Some (match r with Ok _ => (Ok (), close_both s) | Err e => (Err e, s) end)
  end.

(** The wait for the first request: an acquisition, or the Host is sent away. *)
Inductive FirstRequest := Acquire (request : PrivilegedBridgeClientFrame) | SentAway.

Definition is_acquire (request : PrivilegedBridgeClientFrame) : bool :=
  match PrivilegedBridgeClientFrame_payload request with
  | Some (PrivilegedBridgeClientFrame_Payload_AcquireLease _) => true
  | _ => false
  end.

Fixpoint first_request (fuel : nat) (host : T) (env : E)
    : option (result RuntimeBridgeError FirstRequest * (T * E)) :=
  match fuel with
  | O => None
  | S fuel =>
      let '(stop, env) := shutdown env in
      if stop then Some (Ok SentAway, (transport_fail_closed host, env)) else
      match transport_try_receive host with
      | (Ok (Some encoded), host) =>
          match decode_client_frame encoded with
          | Err e => Some (Err e, (host, env))
          | Ok request =>
              if is_acquire request then Some (Ok (Acquire request), (host, env)) else
              match send_server_frame (error_frame request) host with
              | (Err e, host) => Some (Err e, (host, env))
              | (Ok _, host) => Some (Ok SentAway, (transport_fail_closed host, env))
              end
          end
      | (Ok None, host) => first_request fuel host env
      | (Err _, host) => Some (Ok SentAway, (transport_fail_closed host, env))
      end
  end.

(** The broker of one connection: opened on the helper's route for one Host. *)
Definition open_broker (config : BrokerRuntimeConfig) (ids : Ids) (route : RouteSession)
    : result RuntimeBridgeError (BrokerCore Ids) :=
  match BrokerCore_observe_route (SessionAvailable route)
          (BrokerCore_new (brc_instance_id config) ids) with
  | (Err _, _) => Err RB_Broker
  | (Ok _, broker) =>
      match BrokerCore_connect_host (route_generation route) broker with
      | (Err _, _) => Err RB_Broker
      | (Ok _, broker) => Ok broker
      end
  end.

Definition secure_attention (route : RouteSession) : bool :=
  bool_decide (platform route = Platform_Windows) &&
  match desktop route with LockedLogin | Secure => true | Normal => false end.
End host.
Arguments HostRun : clear implicits.

Section connection.
Context {Ids T E : Type} `{LeaseIdSource Ids, FiniteInbound T, RuntimeEnv E}
  `{Message PrivilegedBridgeClientFrame, Message PrivilegedBridgeServerFrame}.

(** How a connection ends: the helper is kept, or it was used up and the run is over. *)
Inductive ConnectionEnd :=
| HelperKept (host : T) (env : E) (registered : RegisteredHelper T)
| HelperUsed (s : HostRun Ids (FramedBridgeRpc T) T E)
| HelperDropped (host : T) (env : E) (registered : RegisteredHelper T).

(** [run_host_connection]: [Ok (Some registered)] is [HelperKept], [Ok None] a [HelperUsed]
    without an error; after an error the transports are dropped as they are. *)
Definition run_host_connection (fuel : nat) (config : BrokerRuntimeConfig) (ids : Ids) (host : T)
    (env : E) (registered : RegisteredHelper T)
    : option (result RuntimeBridgeError unit * ConnectionEnd) :=
  match send_server_frame (status_frame (ready_status (rh_session registered))) host with
  | (Err _, host) => Some (Ok (), HelperKept (transport_fail_closed host) env registered)
  | (Ok _, host) =>
      '(first, (host, env)) ← first_request fuel host env;
      match first with
      | Err e => Some (Err e, HelperDropped host env registered)
      | Ok SentAway => Some (Ok (), HelperKept host env registered)
      | Ok (Acquire request) =>
          match (route ← route_session (rh_session registered);
                 broker ← open_broker config ids route; mret (route, broker)) with
          | Err e => Some (Err e, HelperDropped host env registered)
          | Ok (route, broker) =>
              let session := HostBrokerSession_with_secure_attention (secure_attention route)
                (HostBrokerSession_new broker (FramedBridgeRpc_new (rh_transport registered))) in
              '(r, s) ← serve_session fuel request
                          {| hr_host := host; hr_session := session; hr_env := env |};
              Some (r, HelperUsed s)
          end
      end
  end.
End connection.
Arguments ConnectionEnd : clear implicits.

(** * One accepted peer *)

Section broker_process.
Context `{Hmac} {Ids T E G : Type}
  `{LeaseIdSource Ids, FiniteInbound T, RuntimeEnv E, NonceSource G}
  `{Message PrivilegedBridgeClientFrame, Message PrivilegedBridgeServerFrame}.

(** The broker between two connections. *)
Record BrokerProcess := {
  bpr_helper : option (RegisteredHelper T);
  bpr_replay : NonceReplayGuard;
  bpr_nonces : G;
  bpr_env : E
}.

(** What became of the accepted transport and of the helper it replaced or used. *)
Inductive PeerEnd :=
| PeerRejected (transport : T)
| PeerRegistered (previous : option T)
| PeerServed (ending : ConnectionEnd Ids T E)
| PeerTurnedAway (transport : T)
| PeerUnregistered (transport : T).

(** The body of the accept loops. *)
Definition serve_peer (fuel : nat) (config : BrokerRuntimeConfig) (ids : Ids) (transport : T)
    (s : BrokerProcess) : option (PeerEnd * BrokerProcess) :=
  let '(peer, ss) := authenticate_server config
    {| ss_transport := transport; ss_nonces := bpr_nonces s; ss_replay := bpr_replay s |} in
  let transport := ss_transport ss in
  let s := {| bpr_helper := bpr_helper s; bpr_replay := ss_replay ss;
              bpr_nonces := ss_nonces ss; bpr_env := bpr_env s |} in
  let with_helper (helper : option (RegisteredHelper T)) (env : E) : BrokerProcess :=
    {| bpr_helper := helper; bpr_replay := bpr_replay s; bpr_nonces := bpr_nonces s;
       bpr_env := env |} in
  match peer with
  | Err _ => Some (PeerRejected (transport_fail_closed transport), s)
  | Ok peer =>
      match ap_role peer with
      | SessionHelper =>
          match register_helper (ap_os_session_id peer) transport with
          | (Err _, transport) => Some (PeerUnregistered transport, s)
          | (Ok session, transport) =>
              Some (PeerRegistered
                      ((λ previous, transport_fail_closed (rh_transport previous)) <$> bpr_helper s),
                    with_helper (Some {| rh_session := session; rh_transport := transport |})
                      (bpr_env s))
          end
      | HostAgent =>
          match bpr_helper s with
          | None =>
              let '(_, transport) := send_server_frame unavailable_status_frame transport in
              Some (PeerTurnedAway (transport_fail_closed transport), s)
          | Some registered =>
              '(_, ending) ← run_host_connection fuel config ids transport (bpr_env s) registered;
              Some (PeerServed ending,
                match ending with
                | HelperKept _ env registered => with_helper (Some registered) env
                | HelperDropped _ env _ => with_helper None env
                | HelperUsed r => with_helper None (hr_env r)
                end)
          end
      end
  end.

(** When the accept loop ends, the registered helper is closed. *)
Definition broker_shutdown (s : BrokerProcess) : option T :=
  (λ registered, transport_fail_closed (rh_transport registered)) <$> bpr_helper s.
End broker_process.
Arguments BrokerProcess : clear implicits.
Arguments PeerEnd : clear implicits.

(** * The helper process *)

Section helper_process.
Context `{Hmac} {W T E G : Type} `{HelperBackend W, LocalBridgeTransport T, RuntimeEnv E, NonceSource G}
  `{Message PrivilegedBridgeClientFrame, Message PrivilegedBridgeServerFrame}.

Abbreviation Hs A := (M (T * G) RuntimeBridgeError A).

Definition on_broker {A} (m : M T RuntimeBridgeError A) : Hs A := zoom fst (λ t s, (t, s.2)) m.

Definition authenticate_helper (config : HelperClientConfig) : Hs unit :=
  challenge ← on_broker runtime_receive_server_frame;
  match PrivilegedBridgeServerFrame_payload challenge with
  | Some (PrivilegedBridgeServerFrame_Payload_Challenge challenge) =>
      instance_id ← ok_or (array_of 16 (PrivilegedBridgeChallenge_broker_instance_id challenge))
                          RB_Authentication;
      server_nonce ← ok_or (array_of 32 (PrivilegedBridgeChallenge_server_nonce challenge))
                           RB_Authentication;
      client_nonce ← map_err_m (λ _, RB_Authentication) (zoom snd (λ g s, (s.1, g)) fill_nonce);
      let client_proof := channel_client_proof (hcc_token config) PrivilegedHelper instance_id
                            server_nonce client_nonce in
      let auth_request := helper_auth_frame config client_nonce client_proof in
      on_broker (runtime_send_client_frame auth_request);;
      authenticated ← on_broker runtime_receive_server_frame;
      match PrivilegedBridgeServerFrame_payload authenticated with
      | Some (PrivilegedBridgeServerFrame_Payload_Authenticated value) =>
          fail_if (negb (bool_decide (PrivilegedBridgeServerFrame_request_id authenticated =
                                      PrivilegedBridgeClientFrame_request_id auth_request)) ||
                   negb (PrivilegedBridgeServerFrame_sequence authenticated =?
                         PrivilegedBridgeClientFrame_sequence auth_request) ||
                   negb (verify_channel_server_proof (hcc_token config) PrivilegedHelper
                           instance_id server_nonce client_nonce
                           (PrivilegedBridgeAuthenticated_server_proof value))) RB_Authentication;;
          let register := register_frame (hcc_session config) in
          on_broker (runtime_send_client_frame register);;
          registered ← on_broker runtime_receive_server_frame;
          fail_if (negb (bool_decide (PrivilegedBridgeServerFrame_request_id registered =
                                      PrivilegedBridgeClientFrame_request_id register)) ||
                   negb (PrivilegedBridgeServerFrame_sequence registered =?
                         PrivilegedBridgeClientFrame_sequence register) ||
                   negb match PrivilegedBridgeServerFrame_payload registered with
                        | Some (PrivilegedBridgeServerFrame_Payload_HelperRegistered _) => true
                        | _ => false
                        end) RB_Authentication
      | _ => mthrow RB_Authentication
      end
  | _ => mthrow RB_Authentication
  end.

(** The helper's transport to the broker, its protocol, and the environment. *)
Record HelperRun := { hlr_transport : T; hlr_helper : HelperProtocol W; hlr_env : E }.

Abbreviation Hl A := (M HelperRun RuntimeBridgeError A).

Definition set_hlr_transport (t : T) (s : HelperRun) : HelperRun :=
  {| hlr_transport := t; hlr_helper := hlr_helper s; hlr_env := hlr_env s |}.
Definition set_hlr_helper (h : HelperProtocol W) (s : HelperRun) : HelperRun :=
  {| hlr_transport := hlr_transport s; hlr_helper := h; hlr_env := hlr_env s |}.
Definition set_hlr_env (e : E) (s : HelperRun) : HelperRun :=
  {| hlr_transport := hlr_transport s; hlr_helper := hlr_helper s; hlr_env := e |}.

Definition on_link {A} (m : M T RuntimeBridgeError A) : Hl A :=
  zoom hlr_transport set_hlr_transport m.
Definition on_protocol {A} (m : M (HelperProtocol W) HelperProtocolError A) : Hl A :=
  map_err_m (λ _, RB_Broker) (zoom hlr_helper set_hlr_helper m).

Definition helper_shutdown_flag : Hl bool := λ s,
  let '(stop, e) := shutdown (hlr_env s) in (Ok stop, set_hlr_env e s).

(** One turn of the helper's loop; [false] is [break]. *)
Definition helper_turn : Hl bool :=
  received ← try (zoom hlr_transport set_hlr_transport transport_try_receive);
  goes_on ← match received with
            | Ok (Some encoded) =>
                request ← lift (decode_client_frame encoded);
                response ← on_protocol (HelperProtocol_handle request);
                on_link (send_server_frame response);;
                mret true
            | Ok None => mret true
            | Err TE_Disconnected =>
                stop ← helper_shutdown_flag;
                if (stop : bool) then mret false else mthrow RB_Transport
            | Err _ => mthrow RB_Transport
            end;
  if negb goes_on then mret false else
  event ← on_protocol HelperProtocol_try_event;
  match event with
  | Some event => on_link (send_server_frame event);; mret true
  | None => mret true
  end.

Fixpoint helper_loop (fuel : nat) (s : HelperRun)
    : option (result RuntimeBridgeError unit * HelperRun) :=
  match fuel with
  | O => None
  | S fuel =>
      let '(stop, e) := shutdown (hlr_env s) in
      let s := set_hlr_env e s in
      if stop then Some (Ok (), s) else
      match helper_turn s with
      | (Ok true, s) => helper_loop fuel s
      | (Ok false, s) => Some (Ok (), s)
      | (Err e, s) => Some (Err e, s)
      end
  end.

Definition run_helper_transport (fuel : nat) (config : HelperClientConfig) (transport : T)
    (nonces : G) (backend : W) (env : E)
    : option (result RuntimeBridgeError unit * (T * option HelperRun)) :=
  match authenticate_helper config (transport, nonces) with
  | (Err e, (transport, _)) => Some (Err e, (transport, None))
  | (Ok _, (transport, _)) =>
      '(r, s) ← helper_loop fuel
        {| hlr_transport := transport; hlr_helper := HelperProtocol_new backend; hlr_env := env |};
      let s := set_hlr_helper (HelperProtocol_shutdown (hlr_helper s)) s in
      let transport := transport_fail_closed (hlr_transport s) in
      Some (r, (transport, Some (set_hlr_transport transport s)))
  end.
End helper_process.
Arguments HelperRun : clear implicits.

(** * Lemmas: a connection ends *)

Lemma now_env {E : Type} `{EventualShutdown E} (e : E) :
  (until_shutdown (now_unix_ms e).2 <= until_shutdown e)%nat.
Proof.
  unfold now_unix_ms. pose proof (time_passes e). destruct (system_time e) as [[ms|] e'];
    [case_match|]; done.
Qed.

Lemma send_closings {T : Type} `{LocalBridgeTransport T, Message PrivilegedBridgeServerFrame} f
    (t : T * list TransportLog) :
  closings (send_server_frame f t).2.2 = closings t.2.
Proof.
  destruct t as [t l]. unfold send_server_frame, map_err_m. simpl.
  destruct (transport_send _ t). simpl. rewrite closings_app. simpl. unfold closings. simpl. lia.
Qed.

Lemma try_receive_closings {T : Type} `{LocalBridgeTransport T} (t : T * list TransportLog) :
  closings (transport_try_receive t).2.2 = closings t.2.
Proof.
  destruct t as [t l]. simpl. destruct (transport_try_receive t) as [[[|]|] ?]; simpl; try done.
  rewrite closings_app. unfold closings. simpl. lia.
Qed.

Section ends.
Context {Ids W T E : Type} `{LeaseIdSource Ids, BrokerHelper W, LocalBridgeTransport T}
  `{EventualShutdown E}
  `{Message PrivilegedBridgeClientFrame, Message PrivilegedBridgeServerFrame}.

Abbreviation Run := (HostRun Ids W (T * list TransportLog) E).

(** A turn neither closes the Host's transport nor puts the shutdown off. *)
Definition running (n c : nat) (s : Run) : Prop :=
  (until_shutdown (hr_env s) <= n)%nat ∧ closings (hr_host s).2 = c.

Lemma running_clock n c : keeps (running n c) clock.
Proof.
  intros s [Hn Hc]. unfold clock, zoom. pose proof (now_env (hr_env s)).
  destruct (now_unix_ms (hr_env s)). split; simpl in *; [lia|done].
Qed.

Lemma running_send n c f : keeps (running n c) (on_host (send_server_frame f)).
Proof.
  intros s [Hn Hc]. unfold on_host, zoom. pose proof (send_closings f (hr_host s)).
  destruct (send_server_frame f (hr_host s)). by split; simpl in *; [|congruence].
Qed.

Lemma running_receive n c :
  keeps (running n c) (zoom hr_host set_hr_host transport_try_receive : M Run TransportError _).
Proof.
  intros s [Hn Hc]. unfold zoom. pose proof (try_receive_closings (hr_host s)).
  destruct (transport_try_receive (hr_host s)). by split; simpl in *; [|congruence].
Qed.

Lemma running_session {A} n c (m : M (HostBrokerSession Ids W) BrokerProtocolError A) :
  keeps (running n c) (on_session m).
Proof.
  intros s [Hn Hc]. unfold on_session, try, zoom. by destruct (m (hr_session s)).
Qed.

Hint Resolve running_clock running_send running_receive running_session : keeps.

Lemma running_serve n c request : keeps (running n c) (serve_request request).
Proof. unfold serve_request. keeps. Qed.

Hint Resolve running_serve : keeps.

Lemma running_turn n c : keeps (running n c) host_turn.
Proof. unfold host_turn. keeps. Qed.

Lemma host_loop_ends fuel s :
  (until_shutdown (hr_env s) < fuel)%nat →
  ∃ r s', host_loop fuel s = Some (r, s') ∧ closings (hr_host s').2 = closings (hr_host s).2.
Proof.
  revert s. induction fuel as [|fuel IH]; intros s Hf; [lia|]. simpl.
  unfold read_shutdown. destruct (shutdown (hr_env s)) as [[] e] eqn:Hsd; simpl.
  { by eexists _, _. }
  apply shutdown_nears in Hsd.
  destruct (running_turn (until_shutdown e) (closings (hr_host s).2) (set_hr_env e s))
    as [Hn Hc]; [done|].
  destruct (host_turn (set_hr_env e s)) as [[[]|err] s1]; simpl in *.
  - destruct (IH s1) as (r&s'&?&Hc'); [lia|]. eexists _, _. split; [done|]. by rewrite Hc'.
  - by eexists _, _.
  - by eexists _, _.
Qed.

Lemma closed_once (t : T * list TransportLog) :
  closings (transport_fail_closed t).2 = S (closings t.2).
Proof. destruct t as [t l]. simpl. rewrite closings_app. unfold closings. simpl. lia. Qed.

Lemma serve_session_ends fuel request s :
  (until_shutdown (hr_env s) < fuel)%nat →
  ∃ r s', serve_session fuel request s = Some (r, s') ∧
    (r = Ok () → (∃ s1, s' = close_both s1) ∧
       closings (hr_host s').2 = S (closings (hr_host s).2)).
Proof.
  intros Hf. unfold serve_session.
  destruct (running_serve (until_shutdown (hr_env s)) (closings (hr_host s).2) request s)
    as [Hn Hc]; [done|].
  destruct (serve_request request s) as [[[]|err] s1]; simpl in *.
  - destruct (host_loop_ends fuel s1) as (r&s'&->&Hc'); [lia|]. simpl.
    destruct r as [[]|]; (eexists _, _; split; [done|]); [|done]. intros _.
    split; [by eexists|]. unfold close_both. cbn [hr_host]. rewrite closed_once. congruence.
  - eexists _, _. split; [done|]. intros _. split; [by eexists|].
    unfold close_both. cbn [hr_host]. rewrite closed_once. congruence.
  - by eexists _, _.
Qed.

Lemma first_request_ends fuel (host : T * list TransportLog) (env : E) :
  (until_shutdown env < fuel)%nat →
  ∃ r host' env', first_request fuel host env = Some (r, (host', env')) ∧
    match r with
    | Ok SentAway => closings host'.2 = S (closings host.2)
    | Ok (Acquire _) =>
        (until_shutdown env' <= until_shutdown env)%nat ∧ closings host'.2 = closings host.2
    | Err _ => closings host'.2 = closings host.2
    end.
Proof.
  revert host env. induction fuel as [|fuel IH]; intros host env Hf; [lia|].
  cbn [first_request].
  destruct (shutdown env) as [[] e] eqn:Hsd.
  { eexists _, _, _. split; [done|]. by rewrite closed_once. }
  apply shutdown_nears in Hsd. pose proof (try_receive_closings host) as Hc.
  destruct (transport_try_receive host) as [[[encoded|]|err] host1]; cbn [snd] in Hc.
  - destruct (decode_client_frame encoded) as [request|err]; [|eexists _, _, _; by split].
    destruct (is_acquire request); [eexists _, _, _; split; [done|]; split; [lia|done]|].
    pose proof (send_closings (error_frame request) host1) as Hc1.
    destruct (send_server_frame (error_frame request) host1) as [[[]|err] host2]; cbn [snd] in Hc1;
      (eexists _, _, _; split; [done|]); [rewrite closed_once|]; congruence.
  - destruct (IH host1 e) as (r&host'&env'&->&Hr); [lia|]. eexists _, _, _. split; [done|].
    destruct r as [[]|]; rewrite <- Hc; [|done..]. destruct Hr. split; [lia|done].
  - eexists _, _, _. split; [done|]. rewrite closed_once. congruence.
Qed.
End ends.

Lemma session_closes_helper {Ids W : Type} `{LeaseIdSource Ids, BrokerHelper W}
    (b : HostBrokerSession Ids W) :
  hb_helper (HostBrokerSession_fail_closed b).2 = helper_fail_closed (hb_helper b).
Proof.
  unfold HostBrokerSession_fail_closed, helper_close. rewrite bind_run. unfold modify.
  rewrite bind_run. unfold broker_call, map_err_m, zoom.
  destruct (BrokerCore_disconnect_host _) as [[] ?]; done.
Qed.

(** The end of one connection: what was kept, what was closed and how often. *)
Definition connection_over {Ids T E : Type} `{LeaseIdSource Ids, FiniteInbound T}
    (host : T * list TransportLog) (registered : RegisteredHelper (T * list TransportLog))
    (outcome : option (result RuntimeBridgeError unit *
                       ConnectionEnd Ids (T * list TransportLog) E)) : Prop :=
  ∃ r ending, outcome = Some (r, ending) ∧
    match ending with
    | HelperKept host' _ registered' =>
        r = Ok () ∧ registered' = registered ∧ closings host'.2 = S (closings host.2)
    | HelperUsed s =>
        r = Ok () → closings (hr_host s).2 = S (closings host.2) ∧
                    fr_failed (hb_helper (hr_session s)) = true
    | HelperDropped host' _ registered' =>
        (∃ e, r = Err e) ∧ registered' = registered ∧ closings host'.2 = closings host.2
    end.

(** A Host connection ends: once the shutdown flag is going to be read as set, the broker's
    serving of one Host comes to an end within the remaining readings, whatever the Host, the
    helper and the clock do. If the connection is refused before a lease, the registered helper
    is kept exactly as it was and the Host's transport is closed once; if it was served without
    an error, the Host's transport is closed once and the helper's RPC is failed closed; only an
    error leaves a transport unclosed. *)
Theorem host_connection_ends {Ids T E : Type} `{LeaseIdSource Ids, FiniteInbound T}
    `{EventualShutdown E}
    `{Message PrivilegedBridgeClientFrame, Message PrivilegedBridgeServerFrame}
    (config : BrokerRuntimeConfig) (ids : Ids) (host : T * list TransportLog) (env : E)
    (registered : RegisteredHelper (T * list TransportLog)) (extra : nat) :
  connection_over host registered
    (run_host_connection (S (until_shutdown env + extra)) config ids host env registered).
Proof.
  unfold connection_over, run_host_connection.
  match goal with |- context [send_server_frame ?f host] =>
    pose proof (send_closings f host) as Hc; destruct (send_server_frame f host) as [[[]|e] host1] end.
  2: { eexists _, _. split; [done|]. split_and!; [done..|]. rewrite closed_once. cbn [snd] in Hc.
       congruence. }
  cbn [snd] in Hc.
  destruct (first_request_ends (S (until_shutdown env + extra)) host1 env) as (r&host2&env2&->&Hr);
    [lia|]. cbn [mbind option_bind].
  destruct r as [[request|]|e].
  - destruct Hr as [Hn Hc2].
    destruct (route ← route_session _; broker ← open_broker config ids route; mret (route, broker))
      as [[route broker]|e].
    + match goal with |- context [serve_session ?n request ?s] =>
        destruct (serve_session_ends n request s) as (r&s'&->&Hr) end; [simpl; lia|].
      eexists _, _. split; [done|]. intros ->. destruct (Hr eq_refl) as ((s1&->)&Hcl).
      split; [rewrite Hcl; simpl; congruence|]. unfold close_both. cbn [hr_session].
      rewrite session_closes_helper. apply fail_closed_failed.
    + eexists _, _. split; [done|]. split_and!; [eauto|done|]. congruence.
  - eexists _, _. split; [done|]. split_and!; [done..|]. congruence.
  - eexists _, _. split; [done|]. split_and!; [eauto|done|]. congruence.
Qed.

(** * Lemmas: a connection is a run of the broker session

    Recording what a helper is asked does not change what the session does: [erase] forgets the
    record, and every method of the session commutes with it. *)
Section erasure.
Context {Ids W : Type} `{LeaseIdSource Ids, BrokerHelper W}.

Abbreviation Recorded := (HostBrokerSession Ids (W * list BrokerLog)).
Abbreviation Plain := (HostBrokerSession Ids W).

Definition erase (s : Recorded) : Plain :=
  {| hb_broker := hb_broker s; hb_helper := (hb_helper s).1; hb_permissions := hb_permissions s;
     hb_operation_sequence := hb_operation_sequence s;
     hb_secure_attention_allowed := hb_secure_attention_allowed s |}.

Definition sim {E A} (m1 : M Recorded E A) (m2 : M Plain E A) : Prop :=
  ∀ s, m2 (erase s) = ((m1 s).1, erase (m1 s).2).

Lemma sim_ret {E A} (a : A) : sim (mret a : M _ E A) (mret a).
Proof. by intros s. Qed.

Lemma sim_throw {E A} (e : E) : sim (mthrow e : M _ E A) (mthrow e).
Proof. by intros s. Qed.

Lemma sim_lift {E A} (r : result E A) : sim (lift r) (lift r).
Proof. by intros s. Qed.

Lemma sim_fail_if {E} (c : bool) (e : E) : sim (fail_if c e : M _ E unit) (fail_if c e).
Proof. by intros s; destruct c. Qed.

Lemma sim_ok_or {E A} (o : option A) (e : E) : sim (ok_or o e : M _ E A) (ok_or o e).
Proof. by intros s; destruct o. Qed.

Lemma sim_bind {E A B} (m1 : M _ E A) m2 (k1 : A → M _ E B) k2 :
  sim m1 m2 → (∀ a, sim (k1 a) (k2 a)) → sim (m1 ≫= k1) (m2 ≫= k2).
Proof.
  intros Hm Hk s. rewrite !bind_run, Hm. destruct (m1 s) as [[a|e] s1]; [apply Hk|done].
Qed.

Lemma sim_get {E B} (k1 : Recorded → M _ E B) k2 :
  (∀ s, sim (k1 s) (k2 (erase s))) → sim (get ≫= k1) (get ≫= k2).
Proof. intros Hk s. rewrite !bind_get. apply Hk. Qed.

Lemma sim_broker_call {E A} (m : M (BrokerCore Ids) E A) : sim (broker_call m) (broker_call m).
Proof. intros s. unfold broker_call, map_err_m, zoom. simpl. by destruct (m (hb_broker s)). Qed.

Lemma sim_exchange request :
  sim (helper_call (helper_exchange request)) (helper_call (helper_exchange request)).
Proof. intros s. unfold helper_call, zoom. simpl. by destruct (helper_exchange request _). Qed.

Lemma sim_helper_event : sim (helper_call helper_try_event) (helper_call helper_try_event).
Proof. intros s. unfold helper_call, zoom. simpl. by destruct (helper_try_event _). Qed.

Lemma sim_helper_close : sim helper_close helper_close.
Proof. by intros s. Qed.

Lemma sim_permissions p :
  sim (modify (set_hb_permissions p) : M _ BrokerProtocolError _) (modify (set_hb_permissions p)).
Proof. by intros s. Qed.

Lemma sim_sequence n :
  sim (modify (set_hb_sequence n) : M _ BrokerProtocolError _) (modify (set_hb_sequence n)).
Proof. by intros s. Qed.

Hint Resolve sim_ret sim_throw sim_lift sim_fail_if sim_ok_or sim_broker_call sim_exchange
  sim_helper_event sim_helper_close sim_permissions sim_sequence : keeps.

Ltac sim :=
  repeat lazymatch goal with
  | |- sim (@mbind _ _ _ _ _ (@get _ _)) _ => apply sim_get; intros ?
  | |- sim (@mbind _ _ _ _ _ _) _ => apply sim_bind; [|intros ?]
  | |- sim (match ?x with _ => _ end) _ => destruct x eqn:?; simpl
  | |- sim _ _ => solve [eauto with keeps | apply sim_fail_if | apply sim_ok_or]
  end.

Lemma sim_forward request route :
  sim (HostBrokerSession_forward request route) (HostBrokerSession_forward request route).
Proof. unfold HostBrokerSession_forward. sim. Qed.

Hint Resolve sim_forward : keeps.

Lemma sim_require request : sim (require_controller_name request) (require_controller_name request).
Proof. unfold require_controller_name. sim. Qed.

Hint Resolve sim_require : keeps.

Lemma sim_forward_authorized request now :
  sim (HostBrokerSession_forward_authorized request now)
      (HostBrokerSession_forward_authorized request now).
Proof. unfold HostBrokerSession_forward_authorized. sim. Qed.

Lemma sim_acquire request value now :
  sim (HostBrokerSession_acquire request value now) (HostBrokerSession_acquire request value now).
Proof. unfold HostBrokerSession_acquire. sim. Qed.

Hint Resolve sim_forward_authorized sim_acquire : keeps.

Lemma sim_handle request now :
  sim (HostBrokerSession_handle request now) (HostBrokerSession_handle request now).
Proof.
  unfold HostBrokerSession_handle. apply sim_bind; [apply sim_ok_or|]. intros payload.
  apply sim_get. intros s. destruct payload; sim.
Qed.

Lemma sim_event : sim HostBrokerSession_try_event HostBrokerSession_try_event.
Proof. unfold HostBrokerSession_try_event. sim. Qed.

Lemma sim_expire now : sim (HostBrokerSession_expire now) (HostBrokerSession_expire now).
Proof. unfold HostBrokerSession_expire. sim. Qed.

Lemma sim_fail_closed : sim HostBrokerSession_fail_closed HostBrokerSession_fail_closed.
Proof. unfold HostBrokerSession_fail_closed. sim. Qed.
End erasure.

Section reaching.
Context {Ids W : Type} `{LeaseIdSource Ids, BrokerHelper W}.

Implicit Types b : HostBrokerSession Ids W.

(** [b'] is the session after some operations of the broker's interface. *)
Definition reaches b b' : Prop :=
  ∀ s, erase s = b → ∃ ops, erase (broker_run ops s) = b'.

Lemma reaches_refl b : reaches b b.
Proof. intros s Hs. by exists []. Qed.

Lemma reaches_trans b1 b2 b3 : reaches b1 b2 → reaches b2 b3 → reaches b1 b3.
Proof.
  intros H12 H23 s Hs. destruct (H12 s Hs) as [ops1 Ho1]. destruct (H23 _ Ho1) as [ops2 Ho2].
  exists (ops1 ++ ops2). unfold broker_run in *. by rewrite foldl_app.
Qed.

Lemma erase_log entries (s : HostBrokerSession Ids (W * list BrokerLog)) :
  erase (hb_log entries s) = erase s.
Proof. done. Qed.

Lemma reaches_handle request now b : reaches b (HostBrokerSession_handle request now b).2.
Proof.
  intros s <-. exists [BkHandle request now]. simpl.
  pose proof (sim_handle request now (hb_log [BL_Tick now] s)) as Hs. rewrite erase_log in Hs.
  rewrite Hs. clear Hs. destruct (HostBrokerSession_handle request now _) as [[f|e] s']; reflexivity.
Qed.

Lemma reaches_event b : reaches b (HostBrokerSession_try_event b).2.
Proof.
  intros s <-. exists [BkEvent]. simpl. rewrite (sim_event s).
  by destruct (HostBrokerSession_try_event s) as [[[]|] s'].
Qed.

Lemma reaches_expire now b : reaches b (HostBrokerSession_expire now b).2.
Proof.
  intros s <-. exists [BkExpire now]. simpl. rewrite (sim_expire now s).
  by destruct (HostBrokerSession_expire now s) as [[[]|] s'].
Qed.

Lemma reaches_fail_closed b : reaches b (HostBrokerSession_fail_closed b).2.
Proof. intros s <-. exists [BkFailClosed]. simpl. by rewrite (sim_fail_closed s). Qed.

Context {T E : Type} `{LocalBridgeTransport T, RuntimeEnv E}
  `{Message PrivilegedBridgeClientFrame, Message PrivilegedBridgeServerFrame}.

Definition from b (s : HostRun Ids W T E) : Prop := reaches b (hr_session s).

Lemma from_session {A} b (m : M (HostBrokerSession Ids W) BrokerProtocolError A) :
  (∀ b', reaches b' (m b').2) → keeps (from b) (on_session m).
Proof.
  intros Hm s Hs. unfold on_session, try, zoom. specialize (Hm (hr_session s)).
  destruct (m (hr_session s)). by eapply reaches_trans.
Qed.

Lemma from_handle b request now : keeps (from b) (on_session (HostBrokerSession_handle request now)).
Proof. apply from_session, reaches_handle. Qed.

Lemma from_expire b now : keeps (from b) (on_session (HostBrokerSession_expire now)).
Proof. apply from_session, reaches_expire. Qed.

Lemma from_event b : keeps (from b) (on_session HostBrokerSession_try_event).
Proof. apply from_session, reaches_event. Qed.

Lemma from_clock b : keeps (from b) clock.
Proof. intros s Hs. unfold clock, zoom. by destruct (now_unix_ms (hr_env s)). Qed.

Lemma from_host {A} b (m : M T RuntimeBridgeError A) : keeps (from b) (on_host m).
Proof. intros s Hs. unfold on_host, zoom. by destruct (m (hr_host s)). Qed.

Lemma from_receive b :
  keeps (from b)
    (zoom hr_host set_hr_host transport_try_receive : M (HostRun Ids W T E) TransportError _).
Proof. intros s Hs. unfold zoom. by destruct (transport_try_receive (hr_host s)). Qed.

Hint Resolve from_handle from_expire from_event from_clock from_host from_receive : keeps.

Lemma from_serve b request : keeps (from b) (serve_request request).
Proof. unfold serve_request. keeps. Qed.

Hint Resolve from_serve : keeps.

Lemma from_turn b : keeps (from b) host_turn.
Proof. unfold host_turn. keeps. Qed.

Lemma from_loop b fuel s r s' : host_loop fuel s = Some (r, s') → from b s → from b s'.
Proof.
  revert s. induction fuel as [|fuel IH]; intros s Hr Hs; [done|]. simpl in Hr.
  unfold read_shutdown in Hr. destruct (shutdown (hr_env s)) as [[] e]; [by simplify_eq|].
  pose proof (from_turn b (set_hr_env e s) Hs) as Ht.
  destruct (host_turn (set_hr_env e s)) as [[[]|err] s1]; [by eapply IH|by simplify_eq..].
Qed.

Lemma from_serve_session b fuel request s r s' :
  serve_session fuel request s = Some (r, s') → from b s → from b s'.
Proof.
  intros Hr Hs. unfold serve_session in Hr.
  pose proof (from_serve b request s Hs) as H1s.
  assert (∀ s1, from b s1 → from b (close_both s1)) as Hclose.
  { intros s1 Hs1. eapply reaches_trans; [exact Hs1|]. apply reaches_fail_closed. }
  destruct (serve_request request s) as [[[]|err] s1]; simpl in H1s.
  - destruct (host_loop fuel s1) as [[r1 s2]|] eqn:Hl; [|done]. simpl in Hr.
    apply (from_loop b) in Hl; [|done]. destruct r1; simplify_eq; auto.
  - simplify_eq. auto.
  - by simplify_eq.
Qed.
End reaching.

(** C15. Authority of a Host connection: a connection that [run_host_connection] serves is a run
    of the broker session of Broker.v, whatever the Host sends, the helper answers and the clock
    shows. The broker is opened on the registered helper's route, and for some sequence of
    session operations the authority monitor accepts what the helper was asked and the Host was
    told, and the session the connection ends with is the one after those operations. *)
Theorem host_connection_authorized {Ids T E : Type} `{LeaseIdSource Ids, FiniteInbound T, RuntimeEnv E}
    `{Message PrivilegedBridgeClientFrame, Message PrivilegedBridgeServerFrame}
    fuel (config : BrokerRuntimeConfig) (ids : Ids) (host : T) (env : E)
    (registered : RegisteredHelper T) r s :
  0 < PrivilegedSessionDescriptor_generation (rh_session registered) →
  run_host_connection fuel config ids host env registered = Some (r, HelperUsed s) →
  ∃ route broker ops mo,
    route_session (rh_session registered) = Ok route ∧
    open_broker config ids route = Ok broker ∧
    let recorded := broker_run ops
      (HostBrokerSession_with_secure_attention (secure_attention route)
         (HostBrokerSession_new broker (FramedBridgeRpc_new (rh_transport registered), []))) in
    erase recorded = hr_session s ∧
    monitor_run (secure_attention route) (hb_helper recorded).2 = Some mo ∧ tracks mo recorded.
Proof.
  intros Hpos Hr. unfold run_host_connection in Hr.
  destruct (send_server_frame _ host) as [[[]|e] host1]; [|by simplify_eq].
  destruct (first_request fuel host1 env) as [[first [host2 env2]]|]; [|done]. simpl in Hr.
  destruct first as [[request|]|e]; [|by simplify_eq..].
  destruct (route_session (rh_session registered)) as [route|e] eqn:Hroute; [|done]. simpl in Hr.
  destruct (open_broker config ids route) as [broker|e] eqn:Hopen; [|done]. simpl in Hr.
  set (fresh := HostBrokerSession_with_secure_attention (secure_attention route)
         (HostBrokerSession_new broker (FramedBridgeRpc_new (rh_transport registered)))) in *.
  destruct (serve_session fuel request _) as [[r1 s1]|] eqn:Hss; [|done]. simplify_eq/=.
  apply (from_serve_session fresh) in Hss; [|apply reaches_refl].
  destruct (Hss (HostBrokerSession_with_secure_attention (secure_attention route)
         (HostBrokerSession_new broker (FramedBridgeRpc_new (rh_transport registered), [])))
         eq_refl) as [ops Hops].
  assert (0 < route_generation route) as Hg.
  { unfold route_session in Hroute. unmonad. repeat case_match; by simplify_eq/=. }
  pose proof Hopen as Hx. unfold open_broker in Hx.
  destruct (BrokerCore_observe_route _ _) as [[actions|] b1] eqn:Hob; [|done].
  destruct (BrokerCore_connect_host _ b1) as [[[]|] b2] eqn:Hco; [|done]. simplify_eq.
  destruct (opened_routed (BrokerCore_new (brc_instance_id config) ids) _ _ _ _ eq_refl eq_refl
    eq_refl Hg Hob Hco) as [Hrt Ha].
  match type of Hops with erase (broker_run ops ?s0) = _ =>
    assert (monitored (secure_attention route) s0) as Hm end.
  { split; [done|]. eexists. split; [done|]. split; [done| |done]. simpl. by rewrite Ha. }
  apply (broker_run_monitored (secure_attention route) ops) in Hm.
  destruct Hm as (_&mo&Hmo&Htr). exists route, broker, ops, mo. by split_and!.
Qed.

(** * Authentication of a peer *)

(** What the broker checked of a peer it trusts. *)
Record peer_checked `{Hmac} (config : BrokerRuntimeConfig) (identity : option TransportPeerIdentity)
    (before after : NonceReplayGuard) (server_nonce : bytes) (peer : AuthenticatedPeer)
    (auth : PrivilegedBridgeAuthenticate) : Prop := {
  pc_role : claimed_role (PrivilegedBridgeAuthenticate_role auth) = Some (ap_role peer);
  pc_executable : PrivilegedBridgeAuthenticate_executable_sha256 auth =
    match ap_role peer with
    | HostAgent => brc_host_executable_sha256 config
    | SessionHelper => brc_helper_executable_sha256 config
    end;
  pc_session : PrivilegedBridgeAuthenticate_os_session_id auth = brc_owner_os_session_id config ∧
    ap_os_session_id peer = brc_owner_os_session_id config;
  pc_identity : ∀ who, identity = Some who →
    tp_process_id who ≠ 0 ∧
    (tp_os_session_id who = 0 ∨ tp_os_session_id who = brc_owner_os_session_id config) ∧
    tp_executable_sha256 who = PrivilegedBridgeAuthenticate_executable_sha256 auth ∧
    ∀ uid, tp_unix_uid who = Some uid →
      uid = brc_owner_os_session_id config ∨ (ap_role peer = SessionHelper ∧ uid = 0);
  pc_proof : PrivilegedBridgeAuthenticate_client_proof auth =
    channel_client_proof (brc_token config) (BridgeRole_auth_channel (ap_role peer))
      (brc_instance_id config) server_nonce (PrivilegedBridgeAuthenticate_client_nonce auth);
  pc_fresh : PrivilegedBridgeAuthenticate_client_nonce auth ∉ used before ∧
    PrivilegedBridgeAuthenticate_client_nonce auth ∈ used after ∧
    PrivilegedBridgeAuthenticate_client_nonce auth ≠ server_nonce
}.

Lemma check_identity_Ok identity role hash claimed owner :
  check_identity identity role hash claimed owner = Ok () →
  ∀ who, identity = Some who →
    tp_process_id who ≠ 0 ∧
    (tp_os_session_id who = 0 ∨ tp_os_session_id who = claimed) ∧
    tp_executable_sha256 who = hash ∧
    ∀ uid, tp_unix_uid who = Some uid → uid = owner ∨ (role = SessionHelper ∧ uid = 0).
Proof.
  intros Hc who ->. unfold check_identity in Hc.
  apply result_bind_Ok in Hc as ([]&H1&H2).
  assert (∀ uid, tp_unix_uid who = Some uid → uid = owner ∨ (role = SessionHelper ∧ uid = 0)).
  { intros uid Hu. rewrite Hu in H2. apply result_bind_Ok in H2 as ([]&_&H2).
    unfold fail_if in H2. destruct (negb _) eqn:Hn in H2; [done|].
    destruct role; boolsimpl; auto. }
  unfold fail_if in H1. destruct (_ || _) eqn:Hb in H1; [done|]. clear H1 H2.
  boolsimpl; split_and!; auto.
Qed.

Section authentication.
Context `{Hmac} `{!HmacLaws} {T G : Type} `{LocalBridgeTransport T, NonceSource G}
  `{Message PrivilegedBridgeClientFrame, Message PrivilegedBridgeServerFrame}.

Lemma authenticator_Ok role token instance_id server_nonce nonce proof g r s' :
  BridgeAuthenticator_authenticate nonce proof
    (BridgeAuthenticator_new role token instance_id server_nonce, g) = (Ok r, s') →
  proof = channel_client_proof token (BridgeRole_auth_channel role) instance_id server_nonce nonce ∧
  nonce ∉ used g ∧ nonce ∈ used s'.2 ∧ nonce ≠ server_nonce.
Proof.
  intros Hr. unfold BridgeAuthenticator_authenticate in Hr. rewrite bind_run in Hr.
  unfold gets in Hr. rewrite bind_fail_if in Hr. simpl in Hr.
  destruct (array_of BA_NONCE_BYTES nonce) as [n|] eqn:Hn; [|done].
  apply array_of_Some in Hn as [-> _]. rewrite bind_some, !bind_fail_if in Hr.
  destruct (negb (len proof =? BA_NONCE_BYTES)); [done|].
  destruct (bool_decide (nonce = server_nonce)) eqn:Hne; [done|].
  destruct (verify_channel_client_proof _ _ _ _ _ _) eqn:Hv; [|done]. simpl in Hr. boolsimpl.
  apply hmac_verify_iff in Hv. rewrite bind_run in Hr. unfold zoom in Hr. simpl in Hr.
  unfold NonceReplayGuard_claim in Hr. rewrite bind_get, bind_fail_if in Hr.
  destruct (bool_decide (nonce ∈ used g)) eqn:Hu; [done|]. boolsimpl.
  destruct (match insertion_order g with [] => _ | _ :: _ => _ end) as [kept order].
  unfold put in Hr. rewrite bind_run in Hr. unfold modify, mret, M_ret in Hr. simplify_eq/=.
  split_and!; [done|done|set_solver|done].
Qed.

(** C21. The broker trusts a peer only after every check: [authenticate_server] succeeds only if
    the peer answered this connection's challenge with the MAC of its claimed role under the
    shared token, with a nonce that was not in the replay cache and now is and that is not the
    broker's own, claims the installed executable of that role and the owner's session, and,
    where the operating system identifies the peer, is that process: its executable, its
    session and, on Unix, the owner's user or, for a helper, root. *)
Theorem authenticate_server_sound (config : BrokerRuntimeConfig) (s s' : ServerState T G) peer :
  authenticate_server config s = (Ok peer, s') →
  ∃ server_nonce g request auth t identity,
    fill_nonce (ss_nonces s) = (Ok server_nonce, g) ∧
    PrivilegedBridgeClientFrame_payload request =
      Some (PrivilegedBridgeClientFrame_Payload_Authenticate auth) ∧
    receive_client_frame (send_server_frame (challenge_frame (brc_instance_id config) server_nonce)
                            (ss_transport s)).2 = (Ok request, t) ∧
    identity = transport_peer_identity t ∧
    peer_checked config identity (ss_replay s) (ss_replay s') server_nonce peer auth.
Proof.
  intros Hr. unfold authenticate_server in Hr. rewrite bind_run in Hr.
  unfold map_err_m at 1, zoom at 1 in Hr.
  destruct (fill_nonce (ss_nonces s)) as [[server_nonce|] g] eqn:Hfill; [|done].
  cbn [map_err] in Hr. rewrite bind_run in Hr. unfold on_peer at 1, zoom at 1 in Hr.
  cbn [ss_transport set_ss_nonces] in Hr.
  destruct (send_server_frame _ (ss_transport s)) as [[[]|] t1] eqn:Hsend; [|done].
  rewrite bind_run in Hr. unfold on_peer at 1, zoom at 1 in Hr. cbn [ss_transport set_ss_transport] in Hr.
  destruct (receive_client_frame t1) as [[request|] t2] eqn:Hrecv; [|done].
  destruct (PrivilegedBridgeClientFrame_payload request) as [[auth| | | | | | | | | |]|] eqn:Hp;
    try done.
  destruct (claimed_role _) as [role|] eqn:Hrole; [|done]. rewrite bind_some, bind_fail_if in Hr.
  destruct (_ || _) eqn:Hc1 in Hr; [done|]. boolsimpl. rewrite bind_get, bind_lift in Hr.
  cbn [ss_transport set_ss_transport] in Hr.
  destruct (check_identity _ _ _ _ _) as [[]|] eqn:Hid; [|done].
  rewrite bind_run in Hr. unfold map_err_m at 1, zoom at 1 in Hr. cbn [ss_replay set_ss_transport set_ss_nonces] in Hr.
  destruct (BridgeAuthenticator_authenticate _ _ _) as [[proof|] [ba rg]] eqn:Hauth; [|done].
  cbn [map_err] in Hr. rewrite bind_run in Hr. unfold on_peer, zoom in Hr.
  destruct (send_server_frame _ _) as [[[]|] t3] in Hr; [|done]. unfold mret, M_ret in Hr. simplify_eq.
  exists server_nonce, g, request, auth, t2, (transport_peer_identity t2).
  split; [done|]. split; [done|]. split; [by rewrite Hsend|]. split; [done|].
  apply authenticator_Ok in Hauth as (Hproof&Hf1&Hf2&Hf3).
  split; try done.
  intros who Hwho. destruct (check_identity_Ok _ _ _ _ _ Hid who Hwho) as (?&Hos&Hex&Hu).
  split_and!; [done| |congruence|done]. destruct Hos as [?|Hos]; [by left|right; congruence].
Qed.
End authentication.

(** * A concrete connection

    A Host that acquires a lease, sends one input and is then silent; a helper that accepts the
    input; an environment that shuts down after a few readings. *)

#[local] Instance toy_env : RuntimeEnv nat := {
  shutdown n := match n with O => (true, O) | S n => (false, n) end;
  system_time n := (Some 1000, n)
}.

#[local] Program Instance toy_shutdown : EventualShutdown nat := { until_shutdown n := n }.
Next Obligation. intros [|n] e'; simpl; intros; simplify_eq. lia. Qed.
Next Obligation. done. Qed.

Definition toy_host_frame (n : Z) (payload : PrivilegedBridgeClientFrame_Payload)
    : PrivilegedBridgeClientFrame :=
  {| PrivilegedBridgeClientFrame_protocol_version := Some version;
     PrivilegedBridgeClientFrame_request_id := lit "r"; PrivilegedBridgeClientFrame_sequence := n;
     PrivilegedBridgeClientFrame_payload := Some payload |}.

Definition toy_host_frames : list PrivilegedBridgeClientFrame :=
  [toy_host_frame 2 (PrivilegedBridgeClientFrame_Payload_AcquireLease
     {| AcquirePrivilegedLeaseRequest_session_id := be_bytes 16 7;
        AcquirePrivilegedLeaseRequest_generation := 3;
        AcquirePrivilegedLeaseRequest_permissions := [1; 2];
        AcquirePrivilegedLeaseRequest_controller_display_name := lit "phone" |});
   toy_host_frame 3 (PrivilegedBridgeClientFrame_Payload_InputCommand
     {| PrivilegedInputCommand_lease_id := be_bytes 16 1; PrivilegedInputCommand_generation := 3;
        PrivilegedInputCommand_input := Some (PrivilegedInputCommand_Input_Text
          {| TextInputEvent_text := lit "hi" |}) |});
   auth_frame PrivilegedBridgeRole_HostAgent (be_bytes 32 9)
     (@channel_client_proof toy_hmac example_token PrivilegedHost (be_bytes 16 1) (be_bytes 32 2)
        (be_bytes 32 9)) (be_bytes 32 6) 4].

(** A code for exactly these frames: their position; the helper's only answer. *)
#[local] Instance toy_host_code : Message PrivilegedBridgeClientFrame := {
  encode_to_vec _ := [];
  decode e := match e with [b] => toy_host_frames !! Z.to_nat (byte_val b) | _ => None end
}.
#[local] Instance toy_helper_code : Message PrivilegedBridgeServerFrame := {
  encode_to_vec _ := [];
  decode _ := Some (server_frame (lit "r") 3 (PrivilegedBridgeServerFrame_Payload_CommandAccepted
    {| PrivilegedCommandAccepted_lease_id := be_bytes 16 1;
       PrivilegedCommandAccepted_generation := 3 |}))
}.

Definition toy_broker_config : BrokerRuntimeConfig :=
  {| brc_token := example_token; brc_instance_id := be_bytes 16 1;
     brc_host_executable_sha256 := be_bytes 32 6; brc_helper_executable_sha256 := be_bytes 32 8;
     brc_owner_os_session_id := 4 |}.

Definition toy_registered : RegisteredHelper (list bytes) :=
  {| rh_session := toy_descriptor; rh_transport := [[byte_of 0]] |}.

Definition toy_connection :=
  @run_host_connection Z (list bytes) nat _ _ _ _ _ _ 12 toy_broker_config 0
    [[byte_of 0]; [byte_of 1]] 11%nat toy_registered.

Definition toy_logged_host : list bytes * list TransportLog := ([[byte_of 0]; [byte_of 1]], []).
Definition toy_logged_helper : RegisteredHelper (list bytes * list TransportLog) :=
  {| rh_session := toy_descriptor; rh_transport := ([[byte_of 0]], []) |}.

Lemma host_connection_ends_witness :
  connection_over toy_logged_host toy_logged_helper
    (run_host_connection (S (until_shutdown 11%nat + 0)) toy_broker_config 0 toy_logged_host 11%nat
       toy_logged_helper).
Proof.
  exact (host_connection_ends toy_broker_config 0 toy_logged_host 11%nat toy_logged_helper 0).
Defined.

Lemma host_connection_authorized_witness :
  ∃ s route broker ops mo,
    toy_connection = Some (Ok (), HelperUsed s) ∧
    hb_operation_sequence (hr_session s) = 1 ∧
    route_session toy_descriptor = Ok route ∧
    open_broker toy_broker_config 0 route = Ok broker ∧
    let recorded := broker_run ops
      (HostBrokerSession_with_secure_attention (secure_attention route)
         (HostBrokerSession_new broker (FramedBridgeRpc_new [[byte_of 0]], []))) in
    erase recorded = hr_session s ∧
    monitor_run (secure_attention route) (hb_helper recorded).2 = Some mo ∧ tracks mo recorded.
Proof.
  assert (match toy_connection with
          | Some (Ok (), HelperUsed s) => hb_operation_sequence (hr_session s) = 1
          | _ => False
          end) as Hok by (vm_compute; reflexivity).
  destruct toy_connection as [[[[]|] []]|] eqn:Hr; try contradiction.
  destruct (host_connection_authorized 12 toy_broker_config 0 [[byte_of 0]; [byte_of 1]] 11%nat
              toy_registered (Ok ()) s eq_refl Hr) as (route&broker&ops&mo&H1&H2&H3).
  exists s, route, broker, ops, mo. split; [reflexivity|]. split; [exact Hok|].
  split; [exact H1|]. split; [exact H2|exact H3].
Defined.

#[local] Existing Instance toy_nonces.

Definition toy_server_state : ServerState (list bytes) Z :=
  {| ss_transport := [[byte_of 2]]; ss_nonces := 2; ss_replay := example_guard |}.

Definition toy_authentication :=
  @authenticate_server toy_hmac (list bytes) Z _ _ _ _ toy_broker_config toy_server_state.

Lemma authenticate_server_sound_witness :
  ∃ peer s' server_nonce g request auth t identity,
    toy_authentication = (Ok peer, s') ∧ ap_role peer = HostAgent ∧
    fill_nonce 2 = (Ok server_nonce, g) ∧
    PrivilegedBridgeClientFrame_payload request =
      Some (PrivilegedBridgeClientFrame_Payload_Authenticate auth) ∧
    receive_client_frame (send_server_frame (challenge_frame (be_bytes 16 1) server_nonce)
                            [[byte_of 2]]).2 = (Ok request, t) ∧
    identity = transport_peer_identity t ∧
    @peer_checked toy_hmac toy_broker_config identity (ss_replay toy_server_state) (ss_replay s')
      server_nonce peer auth.
Proof.
  assert (match toy_authentication with (Ok peer, _) => ap_role peer = HostAgent | _ => False end)
    as Hok by (vm_compute; reflexivity).
  destruct toy_authentication as [[peer|] s'] eqn:Hr; [|destruct Hok].
  destruct (@authenticate_server_sound toy_hmac toy_hmac_laws (list bytes) Z _ _ _ _
              toy_broker_config toy_server_state s' peer Hr)
    as (sn&g&request&auth&t&identity&H1&H2&H3&H4&H5).
  exists peer, s', sn, g, request, auth, t, identity. split; [reflexivity|]. split; [exact Hok|].
  split; [exact H1|]. split; [exact H2|]. split; [exact H3|]. split; [exact H4|exact H5].
Defined.
