(* ===== verification/Crypto.v ===== *)
(** The cryptographic primitives the Host agent calls, as interfaces: SHA-256, Ed25519 and the
    secure random source of the operating system.

    No theorem assumes that they are unbreakable: a theorem that depends on the digest says "or
    two inputs collide". *)
From S2P Require Import Prelude.

Local Open Scope Z_scope.

Class Sha256 := { sha256 : bytes → bytes }.

Class Sha256Laws `{Sha256} : Prop := { sha256_len b : len (sha256 b) = 32 }.

(** Two different inputs with the same digest. *)
Definition collision `{Sha256} : Prop := ∃ x y, x ≠ y ∧ sha256 x = sha256 y.

(** [VerifyingKey::from_bytes], [Signature::try_from] and [VerifyingKey::verify] of the
    ed25519-dalek crate, and the signatures and the public key of a seed. *)
Class Ed25519 := {
  is_verifying_key : bytes → bool;
  is_signature : bytes → bool;
  ed25519_verify : bytes → bytes → bytes → bool;
  ed25519_public : bytes → bytes;
  ed25519_sign : bytes → bytes → bytes
}.

Class Ed25519Laws `{Ed25519} : Prop := {
  public_len seed : len (ed25519_public seed) = 32;
  public_ok seed : is_verifying_key (ed25519_public seed) = true;
  sign_len seed message : len (ed25519_sign seed message) = 64;
  sign_ok seed message : is_signature (ed25519_sign seed message) = true;
  sign_verifies seed message :
    ed25519_verify (ed25519_public seed) message (ed25519_sign seed message) = true
}.

(** [getrandom::fill] of an array of [n] bytes. *)
Class RandomSource (G : Type) := { random_bytes : Z → M G unit bytes }.

Class RandomLaws (G : Type) `{RandomSource G} : Prop := {
  random_len n g b g' : 0 <= n → random_bytes n g = (Ok b, g') → len b = n
}.
