(* ===== verification/Containers.v ===== *)
(** The ordered containers of the Rust standard library as the Host agent uses them: a
    [BTreeMap<Vec<u8>, V>] is a [gmap] whose iteration order is written out, a [BTreeSet<i32>] a
    [gset] with its elements in increasing order. *)
From S2P Require Import Prelude.

(** * BTreeMap with byte string keys *)

Section btree.
Context {V : Type}.

Implicit Types m : gmap bytes V.

Definition entry_le (x y : bytes * V) : Prop := bytes_le x.1 y.1.

#[export] Instance entry_le_dec : RelDecision entry_le := λ x y, bytes_le_dec x.1 y.1.
#[export] Instance entry_le_total : Total entry_le.
Proof. intros x y. apply bytes_le_total. Qed.
#[export] Instance entry_le_trans : Transitive entry_le.
Proof. intros x y z. unfold entry_le. by etrans. Qed.

(** [iter()] and [values()]: by increasing key. *)
Definition btree_entries m : list (bytes * V) := merge_sort entry_le (map_to_list m).
Definition btree_values m : list V := (btree_entries m).*2.

Lemma btree_entries_perm m : btree_entries m ≡ₚ map_to_list m.
Proof. apply merge_sort_Permutation. Qed.

Lemma elem_of_btree_entries m k v : (k, v) ∈ btree_entries m ↔ m !! k = Some v.
Proof. rewrite btree_entries_perm. apply elem_of_map_to_list. Qed.

Lemma elem_of_btree_values m v : v ∈ btree_values m ↔ ∃ k, m !! k = Some v.
Proof.
  unfold btree_values. rewrite list_elem_of_fmap. split.
  - intros ([k w]&->&Hin). exists k. by apply elem_of_btree_entries.
  - intros [k Hk]. exists (k, v). split; [done|]. by apply elem_of_btree_entries.
Qed.

Lemma btree_entries_sorted m : StronglySorted entry_le (btree_entries m).
Proof. apply Sorted_StronglySorted; [apply _|]. apply (Sorted_merge_sort entry_le). Qed.

Lemma btree_entries_NoDup m : NoDup (btree_entries m).*1.
Proof. rewrite btree_entries_perm. apply NoDup_fst_map_to_list. Qed.

Lemma btree_length m : length (btree_values m) = size m.
Proof.
  unfold btree_values. rewrite length_fmap, btree_entries_perm. by rewrite length_map_to_list.
Qed.

(** The entries of a map in order are the only sorted list of its entries. *)
Lemma btree_entries_unique m l :
  StronglySorted entry_le l → l ≡ₚ map_to_list m → l = btree_entries m.
Proof.
  intros Hs Hp. apply (StronglySorted_unique_strong entry_le).
  - intros [k1 v1] [k2 v2] H1 H2 H12 H21.
    assert (k1 = k2) as -> by by apply (anti_symm bytes_le). f_equal.
    rewrite Hp in H1. apply elem_of_map_to_list in H1. apply elem_of_btree_entries in H2. congruence.
  - done.
  - apply btree_entries_sorted.
  - by rewrite btree_entries_perm.
Qed.
End btree.

(** * BTreeSet of integers *)

Definition btree_elements (s : gset Z) : list Z := merge_sort Z.le (elements s).

Lemma elem_of_btree_elements s z : z ∈ btree_elements s ↔ z ∈ s.
Proof. unfold btree_elements. by rewrite merge_sort_Permutation, elem_of_elements. Qed.

Lemma btree_elements_sorted s : StronglySorted Z.le (btree_elements s).
Proof. apply Sorted_StronglySorted; [apply _|]. apply (Sorted_merge_sort Z.le). Qed.

Lemma btree_elements_NoDup s : NoDup (btree_elements s).
Proof. unfold btree_elements. rewrite merge_sort_Permutation. apply NoDup_elements. Qed.

(** A strictly increasing list is its own set in order. *)
Lemma btree_elements_unique (l : list Z) :
  StronglySorted Z.le l → NoDup l → btree_elements (list_to_set l) = l.
Proof.
  intros Hs Hn. apply (StronglySorted_unique Z.le); [apply btree_elements_sorted|done|].
  unfold btree_elements. rewrite merge_sort_Permutation. by apply elements_list_to_set.
Qed.
