(* ===== verification/Transcript.v ===== *)
(** Canonical Transcript V1, gen/rust/src/canonical_transcript.rs: the byte format whose hash and
    signature bind pairings and sessions; and the device identifiers derived from public keys,
    gen/rust/src/identity_derivation.rs.

    The specification of the format is [well_formed] and [layout]. *)
From S2P Require Import Prelude Limits Messages Crypto.

Local Open Scope Z_scope.

(** * Data *)

Definition TRANSCRIPT_MAGIC : bytes := [byte_of 80; byte_of 82; byte_of 68; byte_of 84].
Definition TRANSCRIPT_VERSION : Z := 1.
Definition HEADER_LENGTH : Z := 10.
Definition FIELD_HEADER_LENGTH : Z := 6.
Definition MAX_FIELDS : Z := 16.
Definition MAX_FIELD_LENGTH : Z := 1024.
Definition MAX_TRANSCRIPT_LENGTH : Z := 4096.

Inductive TranscriptPurpose := PairingSas | SessionOffer | SessionAnswer | SessionReconnect.

#[export] Instance TranscriptPurpose_eq_dec : EqDecision TranscriptPurpose.
Proof. solve_decision. Defined.

(** [purpose as u16] *)
Definition purpose_u16 (purpose : TranscriptPurpose) : Z :=
  match purpose with
  | PairingSas => 1 | SessionOffer => 2 | SessionAnswer => 3 | SessionReconnect => 4
  end.

Record TranscriptField := { tf_tag : Z; tf_value : bytes }.

#[export] Instance TranscriptField_eq_dec : EqDecision TranscriptField.
Proof. solve_decision. Defined.

Record CanonicalTranscript := { ct_purpose : TranscriptPurpose; ct_fields : list TranscriptField }.

#[export] Instance CanonicalTranscript_eq_dec : EqDecision CanonicalTranscript.
Proof. solve_decision. Defined.

Inductive TranscriptError :=
| TrE_InvalidMagic | TrE_UnknownVersion | TrE_UnknownPurpose | TrE_TooManyFields
| TrE_DuplicateField | TrE_FieldOrder | TrE_FieldTooLong | TrE_TranscriptTooLong
| TrE_UnknownField | TrE_MissingField | TrE_InvalidFieldLength | TrE_Truncated
| TrE_TrailingBytes.

#[export] Instance TranscriptError_eq_dec : EqDecision TranscriptError.
Proof. solve_decision. Defined.

Definition wire_name (error : TranscriptError) : text :=
  match error with
  | TrE_InvalidMagic => lit "bad_magic"
  | TrE_UnknownVersion => lit "unknown_version"
  | TrE_UnknownPurpose => lit "unknown_purpose"
  | TrE_TooManyFields => lit "too_many_fields"
  | TrE_DuplicateField => lit "duplicate_field"
  | TrE_FieldOrder => lit "field_order"
  | TrE_FieldTooLong => lit "field_too_long"
  | TrE_TranscriptTooLong => lit "transcript_too_long"
  | TrE_UnknownField => lit "unexpected_field"
  | TrE_MissingField => lit "missing_field"
  | TrE_InvalidFieldLength => lit "invalid_field_length"
  | TrE_Truncated => lit "truncated"
  | TrE_TrailingBytes => lit "trailing_bytes"
  end.

Definition TranscriptPurpose_try_from (value : Z) : result TranscriptError TranscriptPurpose :=
  if value =? 1 then Ok PairingSas
  else if value =? 2 then Ok SessionOffer
  else if value =? 3 then Ok SessionAnswer
  else if value =? 4 then Ok SessionReconnect
  else Err TrE_UnknownPurpose.

Definition required_tags (purpose : TranscriptPurpose) : list Z :=
  match purpose with
  | PairingSas => [1; 2; 3; 4; 5; 6; 7]
  | SessionOffer => [1; 2; 8; 9; 10; 11; 12; 13; 14]
  | SessionAnswer => [1; 2; 8; 9; 10; 11; 12; 13; 14; 15; 16]
  | SessionReconnect => [1; 2; 8; 9; 10; 11; 12; 13; 14; 15; 16; 17]
  end.

Definition field_length (tag : Z) : Z :=
  if (tag =? 3) || (tag =? 8) then 16
  else if (tag =? 10) || (tag =? 11) then 8
  else if (tag =? 12) || (tag =? 17) then 4
  else 32.

(** * Validation *)

(** The tags increase: the check against the previous tag, as both loops make it. *)
Definition check_order (previous_tag : option Z) (tag : Z) : result TranscriptError unit :=
  fail_if (bool_decide (previous_tag = Some tag)) TrE_DuplicateField;;
  fail_if (match previous_tag with Some previous => tag <? previous | None => false end)
          TrE_FieldOrder.

(** The loop of [validate_fields]. *)
Fixpoint validate_each (required : list Z) (previous_tag : option Z)
    (fields : list TranscriptField) : result TranscriptError unit :=
  match fields with
  | [] => Ok ()
  | field :: fields =>
      check_order previous_tag (tf_tag field);;
      fail_if (MAX_FIELD_LENGTH <? len (tf_value field)) TrE_FieldTooLong;;
      fail_if (negb (bool_decide (tf_tag field ∈ required))) TrE_UnknownField;;
      fail_if (negb (len (tf_value field) =? field_length (tf_tag field))) TrE_InvalidFieldLength;;
      validate_each required (Some (tf_tag field)) fields
  end.

Definition validate_fields (purpose : TranscriptPurpose) (fields : list TranscriptField)
    : result TranscriptError unit :=
  fail_if (MAX_FIELDS <? len fields) TrE_TooManyFields;;
  let required := required_tags purpose in
  validate_each required None fields;;
  fail_if (len fields <? len required) TrE_MissingField;;
  fail_if (len required <? len fields) TrE_UnknownField;;
  fail_if (existsb (λ ft, negb (tf_tag ft.1 =? ft.2)) (zip fields required)) TrE_MissingField.

(** * Encoding *)

Definition encode_field (field : TranscriptField) : result TranscriptError bytes :=
  length ← (if len (tf_value field) <=? U32_MAX then Ok (len (tf_value field))
            else Err TrE_FieldTooLong);
  mret (be_bytes 2 (tf_tag field) ++ be_bytes 4 length ++ tf_value field).

Fixpoint encode_fields (fields : list TranscriptField) : result TranscriptError bytes :=
  match fields with
  | [] => Ok []
  | field :: fields =>
      encoded ← encode_field field;
      rest ← encode_fields fields;
      mret (encoded ++ rest)
  end.

Definition encode_transcript (transcript : CanonicalTranscript) : result TranscriptError bytes :=
  validate_fields (ct_purpose transcript) (ct_fields transcript);;
  let encoded_length :=
    foldl (λ length field, length + FIELD_HEADER_LENGTH + len (tf_value field)) HEADER_LENGTH
      (ct_fields transcript) in
  fail_if (MAX_TRANSCRIPT_LENGTH <? encoded_length) TrE_TranscriptTooLong;;
  count ← (if len (ct_fields transcript) <=? 65535 then Ok (len (ct_fields transcript))
           else Err TrE_TooManyFields);
  fields ← encode_fields (ct_fields transcript);
  mret (TRANSCRIPT_MAGIC ++ be_bytes 2 TRANSCRIPT_VERSION ++
        be_bytes 2 (purpose_u16 (ct_purpose transcript)) ++ be_bytes 2 count ++ fields).

(** * Decoding *)

Record Reader := { rd_bytes : bytes; rd_offset : Z }.

Definition Reader_new (bs : bytes) : Reader := {| rd_bytes := bs; rd_offset := 0 |}.

Definition Reader_read_exact (length : Z) : M Reader TranscriptError bytes := λ r,
  match checked_add U64_MAX (rd_offset r) length with
  | Some stop =>
      if stop <=? len (rd_bytes r) then
        (Ok (take (Z.to_nat length) (drop (Z.to_nat (rd_offset r)) (rd_bytes r))),
         {| rd_bytes := rd_bytes r; rd_offset := stop |})
      else (Err TrE_Truncated, r)
  | None => (Err TrE_Truncated, r)
  end.

Definition Reader_read_u16 : M Reader TranscriptError Z :=
  bs ← Reader_read_exact 2;
  bs ← ok_or (array_of 2 bs) TrE_Truncated;
  mret (be_val bs).

Definition Reader_read_u32 : M Reader TranscriptError Z :=
  bs ← Reader_read_exact 4;
  bs ← ok_or (array_of 4 bs) TrE_Truncated;
  mret (be_val bs).

Definition Reader_is_finished (r : Reader) : bool := rd_offset r =? len (rd_bytes r).

Fixpoint read_fields (field_count : nat) (previous_tag : option Z)
    : M Reader TranscriptError (list TranscriptField) :=
  match field_count with
  | O => mret []
  | S field_count =>
      tag ← Reader_read_u16;
      lift (check_order previous_tag tag);;
      length ← Reader_read_u32;
      fail_if (MAX_FIELD_LENGTH <? length) TrE_FieldTooLong;;
      value ← Reader_read_exact length;
      fields ← read_fields field_count (Some tag);
      mret ({| tf_tag := tag; tf_value := value |} :: fields)
  end.

Definition read_transcript : M Reader TranscriptError CanonicalTranscript :=
  magic ← Reader_read_exact (len TRANSCRIPT_MAGIC);
  fail_if (negb (bool_decide (magic = TRANSCRIPT_MAGIC))) TrE_InvalidMagic;;
  version ← Reader_read_u16;
  fail_if (negb (version =? TRANSCRIPT_VERSION)) TrE_UnknownVersion;;
  purpose ← Reader_read_u16;
  purpose ← lift (TranscriptPurpose_try_from purpose);
  field_count ← Reader_read_u16;
  fail_if (MAX_FIELDS <? field_count) TrE_TooManyFields;;
  fields ← read_fields (Z.to_nat field_count) None;
  reader ← get;
  fail_if (negb (Reader_is_finished reader)) TrE_TrailingBytes;;
  lift (validate_fields purpose fields);;
  mret {| ct_purpose := purpose; ct_fields := fields |}.

Definition decode_transcript (bs : bytes) : result TranscriptError CanonicalTranscript :=
  fail_if (MAX_TRANSCRIPT_LENGTH <? len bs) TrE_TranscriptTooLong;;
  (read_transcript (Reader_new bs)).1.

(** * Device identifiers *)

Definition IDENTITY_DERIVATION_DOMAIN : bytes := as_bytes (lit "personal-remote-device-id-v1").
Definition ED25519_ALGORITHM : Z := 1.
Definition ED25519_PUBLIC_KEY_BYTES : Z := 32.

Inductive IdentityDerivationError := InvalidPublicKeyLength.

Definition derive_device_id_v1 `{Sha256} (public_key : bytes)
    : result IdentityDerivationError bytes :=
  fail_if (negb (len public_key =? ED25519_PUBLIC_KEY_BYTES)) InvalidPublicKeyLength;;
  mret (sha256 (IDENTITY_DERIVATION_DOMAIN ++ [byte_of 0] ++ be_bytes 2 ED25519_ALGORITHM ++
                public_key)).

(** * The format *)

(** The fields a purpose binds: exactly the required tags in order, each of its fixed length. *)
Record well_formed (t : CanonicalTranscript) : Prop := {
  wf_tags : tf_tag <$> ct_fields t = required_tags (ct_purpose t);
  wf_lengths : Forall (λ f, len (tf_value f) = field_length (tf_tag f)) (ct_fields t)
}.

Definition field_layout (f : TranscriptField) : bytes :=
  be_bytes 2 (tf_tag f) ++ be_bytes 4 (len (tf_value f)) ++ tf_value f.

Definition layout (t : CanonicalTranscript) : bytes :=
  TRANSCRIPT_MAGIC ++ be_bytes 2 TRANSCRIPT_VERSION ++ be_bytes 2 (purpose_u16 (ct_purpose t)) ++
  be_bytes 2 (len (ct_fields t)) ++ concat (field_layout <$> ct_fields t).

(** * Lemmas on validation *)

Fixpoint tags_ordered (previous_tag : option Z) (tags : list Z) : bool :=
  match tags with
  | [] => true
  | tag :: tags => is_ok (check_order previous_tag tag) && tags_ordered (Some tag) tags
  end.

Lemma is_ok_unit {E} (r : result E unit) : is_ok r = true ↔ r = Ok ().
Proof. destruct r as [[]|]; done. Qed.

Lemma validate_each_Ok required previous fields :
  validate_each required previous fields = Ok () ↔
  tags_ordered previous (tf_tag <$> fields) = true ∧
  Forall (λ f, len (tf_value f) <= MAX_FIELD_LENGTH ∧ tf_tag f ∈ required ∧
               len (tf_value f) = field_length (tf_tag f)) fields.
Proof.
  revert previous. induction fields as [|f fields IH]; intros previous.
  { split; [|done]. by intros _. }
  rewrite fmap_cons. cbn [validate_each tags_ordered].
  rewrite !res_seq, !res_fail_if, IH, Forall_cons, andb_true_iff, is_ok_unit, Z.ltb_ge, negb_false_iff,
    bool_decide_eq_true, negb_false_iff, Z.eqb_eq. tauto.
Qed.

Lemma zip_tags_required fields (required : list Z) :
  len fields = len required →
  existsb (λ ft : TranscriptField * Z, negb (tf_tag ft.1 =? ft.2)) (zip fields required) = false ↔
  tf_tag <$> fields = required.
Proof.
  revert required. induction fields as [|f fields IH]; intros [|tag required];
    unfold len; simpl; try lia; [done|].
  intros Hl. rewrite orb_false_iff, negb_false_iff, Z.eqb_eq, IH by (unfold len; lia).
  naive_solver.
Qed.

Lemma required_ordered purpose : tags_ordered None (required_tags purpose) = true.
Proof. by destruct purpose. Qed.

Lemma required_bounds purpose tag : tag ∈ required_tags purpose → 1 <= tag <= 17.
Proof. intros Ht. destruct purpose; repeat (apply elem_of_cons in Ht as [->|Ht]; [lia|]); set_solver. Qed.

Lemma required_count purpose : 7 <= len (required_tags purpose) <= 12.
Proof. by destruct purpose. Qed.

Lemma field_length_bound tag : 4 <= field_length tag <= 32.
Proof. unfold field_length. repeat case_match; lia. Qed.

Lemma validate_fields_Ok purpose fields :
  validate_fields purpose fields = Ok () ↔
  well_formed {| ct_purpose := purpose; ct_fields := fields |}.
Proof.
  pose proof (required_count purpose) as Hcount. unfold validate_fields.
  rewrite !res_seq, !res_fail_if, !Z.ltb_ge, validate_each_Ok. split.
  - intros (_&(_&Hf)&H1&H2&Hz). apply zip_tags_required in Hz; [|lia]. split; [done|]. simpl.
    eapply Forall_impl; [exact Hf|]. by intros f (_&_&?).
  - intros [Ht Hf]. simpl in *.
    assert (len fields = len (required_tags purpose)) as Hl by (by rewrite <- Ht; unfold len; rewrite length_fmap).
    rewrite zip_tags_required by done. rewrite Ht, required_ordered. unfold MAX_FIELDS.
    split; [lia|]. split; [split; [done|]|split; [lia|split; [lia|done]]].
    apply Forall_forall. intros f Hin. rewrite Forall_forall in Hf. specialize (Hf f Hin).
    pose proof (field_length_bound (tf_tag f)). unfold MAX_FIELD_LENGTH.
    split; [lia|]. split; [|done]. rewrite <- Ht. by apply list_elem_of_fmap_2.
Qed.

(** * Lemmas on encoding *)

Lemma encode_fields_layout fields :
  Forall (λ f, len (tf_value f) <= U32_MAX) fields →
  encode_fields fields = Ok (concat (field_layout <$> fields)).
Proof.
  induction 1 as [|f fields Hf _ IH]; [done|]. cbn [encode_fields]. unfold encode_field.
  rewrite (proj2 (Z.leb_le _ _) Hf), IH. done.
Qed.

Lemma field_layout_len f : len (field_layout f) = FIELD_HEADER_LENGTH + len (tf_value f).
Proof. unfold field_layout. rewrite !len_app, !len_be_bytes. unfold FIELD_HEADER_LENGTH. lia. Qed.

Lemma encoded_length_sum fields n :
  foldl (λ length field, length + FIELD_HEADER_LENGTH + len (tf_value field)) n fields =
  n + len (concat (field_layout <$> fields)).
Proof.
  revert n. induction fields as [|f fields IH]; intros n; cbn [foldl]; [simpl; rewrite len_nil; lia|].
  rewrite IH, fmap_cons. cbn [concat]. rewrite len_app, field_layout_len. lia.
Qed.

Lemma layout_size fields :
  Forall (λ f, len (tf_value f) = field_length (tf_tag f)) fields →
  len (concat (field_layout <$> fields)) <= 38 * len fields.
Proof.
  induction 1 as [|f fields Hf _ IH]; [done|]. rewrite fmap_cons. cbn [concat].
  rewrite len_app, len_cons, field_layout_len, Hf. unfold FIELD_HEADER_LENGTH.
  pose proof (field_length_bound (tf_tag f)). lia.
Qed.

Lemma well_formed_count t : well_formed t → 7 <= len (ct_fields t) <= 12.
Proof.
  intros [Ht _]. pose proof (required_count (ct_purpose t)) as Hc. rewrite <- Ht in Hc.
  unfold len in *. by rewrite length_fmap in Hc.
Qed.

Lemma layout_length t :
  len (layout t) = HEADER_LENGTH + len (concat (field_layout <$> ct_fields t)).
Proof.
  unfold layout. rewrite !len_app, !len_be_bytes. change (len TRANSCRIPT_MAGIC) with 4.
  unfold HEADER_LENGTH. lia.
Qed.

Lemma layout_len t : well_formed t → len (layout t) <= MAX_TRANSCRIPT_LENGTH.
Proof.
  intros Hw. pose proof (well_formed_count t Hw). destruct Hw as [_ Hf].
  pose proof (layout_size _ Hf). rewrite layout_length.
  unfold HEADER_LENGTH, MAX_TRANSCRIPT_LENGTH. lia.
Qed.

Lemma encode_Ok_iff t b : encode_transcript t = Ok b ↔ well_formed t ∧ b = layout t.
Proof.
  unfold encode_transcript. rewrite !res_seq, res_fail_if, Z.ltb_ge, validate_fields_Ok.
  destruct t as [purpose fields]. cbn [ct_purpose ct_fields].
  split.
  - intros (Hw&_&Hr). split; [done|]. pose proof (well_formed_count _ Hw) as Hc. simpl in Hc.
    rewrite (proj2 (Z.leb_le (len fields) 65535)) in Hr by lia.
    rewrite encode_fields_layout in Hr; [|destruct Hw as [_ Hf]; eapply Forall_impl; [exact Hf|];
      intros f Hl; pose proof (field_length_bound (tf_tag f)); simpl in Hl; unfold U32_MAX; lia].
    by injection Hr as <-.
  - intros [Hw ->]. pose proof (well_formed_count _ Hw) as Hc. simpl in Hc.
    pose proof (layout_len _ Hw) as Hl. split; [done|]. split.
    + rewrite encoded_length_sum. by rewrite layout_length in Hl.
    + rewrite (proj2 (Z.leb_le (len fields) 65535)) by lia.
      rewrite encode_fields_layout; [done|]. destruct Hw as [_ Hf]. eapply Forall_impl; [exact Hf|].
      intros f Hlf. pose proof (field_length_bound (tf_tag f)). simpl in Hlf. unfold U32_MAX. lia.
Qed.

(** * Lemmas on decoding *)

(** The reader stands before the last bytes [rest]. *)
Definition at_rest (r : Reader) (rest : bytes) : Prop :=
  0 <= rd_offset r ∧ len (rd_bytes r) <= MAX_TRANSCRIPT_LENGTH ∧
  rd_offset r + len rest = len (rd_bytes r) ∧
  drop (Z.to_nat (rd_offset r)) (rd_bytes r) = rest.

(** [m] succeeds exactly by consuming a chunk that, with what is left, stands in [R] to the
    value. *)
Definition parses {A} (m : M Reader TranscriptError A) (R : A → bytes → bytes → Prop) : Prop :=
  ∀ r rest, at_rest r rest →
    (∀ a r', m r = (Ok a, r') →
       ∃ chunk left, rest = chunk ++ left ∧ R a chunk left ∧ at_rest r' left) ∧
    (∀ a chunk left, rest = chunk ++ left → R a chunk left →
       ∃ r', m r = (Ok a, r') ∧ at_rest r' left).

Lemma parses_exact n :
  0 <= n → parses (Reader_read_exact n) (λ a chunk _, a = chunk ∧ len chunk = n).
Proof.
  intros Hn r rest (H0&Hmax&Hlen&Hdrop). unfold Reader_read_exact, checked_add.
  assert (rd_offset r + n <= len (rd_bytes r) → at_rest {| rd_bytes := rd_bytes r;
    rd_offset := rd_offset r + n |} (drop (Z.to_nat n) rest)) as Hat.
  { intros Hle. unfold at_rest. simpl. split; [lia|]. split; [done|]. split.
    - unfold len in *. rewrite length_drop. lia.
    - rewrite <- Hdrop, drop_drop. f_equal. lia. }
  split.
  - intros a r' Hr. destruct (_ <=? U64_MAX); [|done].
    destruct (_ <=? len (rd_bytes r)) eqn:Hle; [|done]. boolsimpl. simplify_eq.
    exists (take (Z.to_nat n) (drop (Z.to_nat (rd_offset r)) (rd_bytes r))), (drop (Z.to_nat n) (drop (Z.to_nat (rd_offset r)) (rd_bytes r))).
    split; [by rewrite take_drop|]. split; [split; [done|]|auto].
    unfold len in *. rewrite length_take, length_drop in *. lia.
  - intros a chunk left -> [-> Hc]. rewrite len_app in Hlen. pose proof (len_nonneg left).
    unfold U64_MAX, MAX_TRANSCRIPT_LENGTH in *. rewrite (proj2 (Z.leb_le _ _)) by lia.
    rewrite (proj2 (Z.leb_le _ _)) by lia. rewrite Hdrop. eexists. split.
    + f_equal. f_equal. apply take_app_length'. unfold len in Hc. lia.
    + specialize (Hat ltac:(lia)). by rewrite drop_app_length' in Hat by (unfold len in Hc; lia).
Qed.

Lemma parses_bind {A B} (m : M Reader TranscriptError A) (k : A → M Reader TranscriptError B) R S :
  parses m R → (∀ a, (∃ c l, R a c l) → parses (k a) (S a)) →
  parses (m ≫= k) (λ b chunk left, ∃ a c1 c2, chunk = c1 ++ c2 ∧ R a c1 (c2 ++ left) ∧
                                     S a b c2 left).
Proof.
  intros Hm Hk r rest Hat. destruct (Hm r rest Hat) as [Hs Hc]. split.
  - intros b r' Hr. rewrite bind_run in Hr. destruct (m r) as [[a|] r1] eqn:Hma; [|done].
    destruct (Hs a r1 eq_refl) as (c1&left1&->&HR&Hat1).
    destruct (Hk a ltac:(eauto) r1 left1 Hat1) as [Hs2 _].
    destruct (Hs2 b r' Hr) as (c2&left&->&HS&Hat2). exists (c1 ++ c2), left.
    split; [by rewrite app_assoc|]. split; [|done]. by exists a, c1, c2.
  - intros b chunk left -> (a&c1&c2&->&HR&HS).
    destruct (Hc a c1 (c2 ++ left)) as (r1&Hma&Hat1); [by rewrite app_assoc|done|].
    destruct (Hk a ltac:(eauto) r1 _ Hat1) as [_ Hc2]. destruct (Hc2 b c2 left eq_refl HS) as (r'&Hr&Hat2).
    exists r'. by rewrite bind_run, Hma.
Qed.

Lemma parses_lift {A} (v : result TranscriptError A) :
  parses (lift v) (λ a chunk _, v = Ok a ∧ chunk = []).
Proof.
  intros r rest Hat. split.
  - intros a r' Hr. unfold lift in Hr. simplify_eq. by exists [], rest.
  - intros a chunk left -> [-> ->]. by exists r.
Qed.

Lemma parses_iff {A} (m : M Reader TranscriptError A) R S :
  parses m R → (∀ a chunk left, R a chunk left ↔ S a chunk left) → parses m S.
Proof.
  intros Hm Heq r rest Hat. destruct (Hm r rest Hat) as [Hs Hc]. split.
  - intros a r' Hr. destruct (Hs a r' Hr) as (c&l&?&?%Heq&?). eauto.
  - intros a c l Hr HS%Heq. eauto.
Qed.

Lemma parses_lift_bind {A B} (v : result TranscriptError A) (k : A → M Reader TranscriptError B) S :
  (∀ a, parses (k a) (S a)) →
  parses (lift v ≫= k) (λ b chunk left, ∃ a, v = Ok a ∧ S a b chunk left).
Proof.
  intros Hk. eapply parses_iff; [apply parses_bind; [apply parses_lift|intros a _; apply Hk]|].
  intros b c l. split.
  - intros (a&c1&c2&->&[-> ->]&HS). by exists a.
  - intros (a&->&HS). by exists a, [], c.
Qed.

Lemma parses_check {B} (v : result TranscriptError unit) (k : M Reader TranscriptError B) S :
  parses k S → parses (lift v;; k) (λ b chunk left, v = Ok () ∧ S b chunk left).
Proof.
  intros Hk. eapply parses_iff; [apply (parses_lift_bind v (λ _, k) (λ _, S)); by intros|].
  intros b c l. split; [intros ([]&?&?); by split|intros [??]; by exists ()].
Qed.

Lemma parses_fail_if {B} (c : bool) (e : TranscriptError) (k : unit → M Reader TranscriptError B) S :
  parses (k ()) S → parses (fail_if c e ≫= k) (λ b chunk left, c = false ∧ S b chunk left).
Proof.
  intros Hk r rest Hat. destruct (Hk r rest Hat) as [Hs Hc]. rewrite bind_fail_if.
  destruct c; split; try done; naive_solver.
Qed.

Lemma parses_ret {A} (v : A) : parses (mret v) (λ a chunk _, a = v ∧ chunk = []).
Proof. eapply parses_iff; [apply (parses_lift (Ok v))|]. naive_solver. Qed.

(** A big-endian integer of [n] bytes. *)
Lemma parses_be (n : nat) :
  parses (bs ← Reader_read_exact (Z.of_nat n);
          bs ← ok_or (array_of (Z.of_nat n) bs) TrE_Truncated; mret (be_val bs))
    (λ v chunk _, chunk = be_bytes n v ∧ 0 <= v < 256 ^ Z.of_nat n).
Proof.
  eapply parses_iff.
  { apply parses_bind; [apply parses_exact; lia|]. intros a _.
    instantiate (1 := λ a v chunk _, len a = Z.of_nat n ∧ v = be_val a ∧ chunk = []).
    destruct (array_of (Z.of_nat n) a) as [bs|] eqn:Ha.
    - apply array_of_Some in Ha as [-> Hl]. eapply parses_iff; [apply (parses_ret (be_val a))|].
      naive_solver.
    - apply array_of_None in Ha. intros r rest Hat. split; [done|]. naive_solver. }
  intros v chunk left. split.
  - intros (a&c1&c2&->&[-> Hl]&_&->&->). rewrite app_nil_r.
    pose proof (be_val_bound c1) as Hb. rewrite Hl in Hb. split; [|done].
    rewrite <- (be_bytes_be_val c1) at 1. f_equal. unfold len in Hl. lia.
  - intros [-> Hv]. exists (be_bytes n v), (be_bytes n v), []. rewrite app_nil_r, len_be_bytes.
    by rewrite be_val_be_bytes.
Qed.

Lemma parses_u16 : parses Reader_read_u16 (λ v chunk _, chunk = be_bytes 2 v ∧ 0 <= v < 65536).
Proof. apply (parses_be 2). Qed.

Lemma parses_u32 : parses Reader_read_u32 (λ v chunk _, chunk = be_bytes 4 v ∧ 0 <= v < 4294967296).
Proof. apply (parses_be 4). Qed.

Definition field_bounds (f : TranscriptField) : Prop :=
  0 <= tf_tag f < 65536 ∧ len (tf_value f) <= MAX_FIELD_LENGTH.

(** The value of a field of length [l] and the fields after it. *)
Lemma parses_value n tag l :
  0 <= l →
  (∀ previous, parses (read_fields n previous)
    (λ fs chunk _, length fs = n ∧ chunk = concat (field_layout <$> fs) ∧
       tags_ordered previous (tf_tag <$> fs) = true ∧ Forall field_bounds fs)) →
  parses (value ← Reader_read_exact l; fields ← read_fields n (Some tag);
          mret ({| tf_tag := tag; tf_value := value |} :: fields))
    (λ fs chunk _, ∃ value rest, fs = {| tf_tag := tag; tf_value := value |} :: rest ∧
       len value = l ∧ chunk = value ++ concat (field_layout <$> rest) ∧ length rest = n ∧
       tags_ordered (Some tag) (tf_tag <$> rest) = true ∧ Forall field_bounds rest).
Proof.
  intros Hl IH. eapply parses_iff.
  { apply parses_bind; [by apply parses_exact|]. intros value _. apply parses_bind; [apply IH|].
    intros rest _. apply parses_ret. }
  intros fs chunk left. split.
  - intros (v&c1&c2&->&[-> Hv]&rest&c3&c4&->&(Hr&->&Ho&Hb)&->&->). exists c1, rest.
    rewrite app_nil_r. by split_and!.
  - intros (v&rest&->&Hv&->&Hr&Ho&Hb). exists v, v, (concat (field_layout <$> rest)).
    split_and!; [done..|]. exists rest, (concat (field_layout <$> rest)), [].
    rewrite app_nil_r. by split_and!.
Qed.

Lemma parses_fields n previous :
  parses (read_fields n previous)
    (λ fs chunk _, length fs = n ∧ chunk = concat (field_layout <$> fs) ∧
       tags_ordered previous (tf_tag <$> fs) = true ∧ Forall field_bounds fs).
Proof.
  revert previous. induction n as [|n IH]; intros previous; cbn [read_fields].
  { eapply parses_iff; [apply parses_ret|]. intros fs chunk left. split; [by intros [-> ->]|].
    by intros (->%length_zero_iff_nil&->&_). }
  eapply parses_iff.
  { apply parses_bind; [apply parses_u16|]. intros tag _. apply parses_check.
    apply parses_bind; [apply parses_u32|]. intros l (c&left&_&Hl). apply parses_fail_if.
    apply (parses_value n tag l); [lia|exact IH]. }
  intros fs chunk left. split.
  - intros (tag&c1&c2&->&[-> Ht]&Ho&l&c3&c4&->&[-> Hl]&Hm&v&rest&->&Hv&->&Hn&Hr&Hb).
    boolsimpl. subst l. rewrite !fmap_cons. cbn [concat length tags_ordered tf_tag]. rewrite Ho.
    split_and!; [by rewrite Hn|by unfold field_layout; rewrite <- !app_assoc|done|].
    by constructor.
  - intros (Hn&->&Ho&Hb). destruct fs as [|[tag v] rest]; [done|].
    rewrite fmap_cons in Ho. cbn [tags_ordered tf_tag] in Ho. apply andb_true_iff in Ho as [Ho Hr].
    apply is_ok_unit in Ho. apply Forall_cons in Hb as [[Ht Hv] Hb]. cbn [tf_tag tf_value] in *.
    rewrite fmap_cons. cbn [concat]. unfold field_layout at 1. cbn [tf_tag tf_value].
    rewrite <- !app_assoc. exists tag, (be_bytes 2 tag), (be_bytes 4 (len v) ++ v ++ concat (field_layout <$> rest)).
    split; [done|]. split; [done|]. split; [done|]. exists (len v), (be_bytes 4 (len v)), (v ++ concat (field_layout <$> rest)).
    pose proof (len_nonneg v). unfold MAX_FIELD_LENGTH in *. split; [done|].
    split; [split; [done|lia]|]. split.
    + by apply Z.ltb_ge.
    + exists v, rest. injection Hn as Hn. by split_and!.
Qed.

Lemma purpose_iff v p : TranscriptPurpose_try_from v = Ok p ↔ v = purpose_u16 p.
Proof.
  unfold TranscriptPurpose_try_from. split; [|by intros ->; destruct p].
  intros Hp. repeat case_match; boolsimpl; by simplify_eq.
Qed.

Lemma finished_iff r rest : at_rest r rest → Reader_is_finished r = true ↔ rest = [].
Proof.
  intros (_&_&Hl&_). unfold Reader_is_finished. rewrite Z.eqb_eq, <- len_0. lia.
Qed.

Lemma well_formed_bounds t :
  well_formed t →
  tags_ordered None (tf_tag <$> ct_fields t) = true ∧ Forall field_bounds (ct_fields t).
Proof.
  intros [Ht Hf]. rewrite Ht. split; [apply required_ordered|].
  rewrite Forall_forall in Hf |- *. intros f Hin. unfold field_bounds. rewrite (Hf f Hin).
  pose proof (field_length_bound (tf_tag f)).
  pose proof (required_bounds (ct_purpose t) (tf_tag f)) as Hb. rewrite <- Ht in Hb.
  specialize (Hb (list_elem_of_fmap_2 _ _ _ Hin)). unfold MAX_FIELD_LENGTH. lia.
Qed.

(** The end of a transcript: nothing may be left and the fields must be valid. *)
Lemma parses_end purpose fields :
  parses (reader ← get; fail_if (negb (Reader_is_finished reader)) TrE_TrailingBytes;;
          lift (validate_fields purpose fields);;
          mret {| ct_purpose := purpose; ct_fields := fields |})
    (λ t chunk left, t = {| ct_purpose := purpose; ct_fields := fields |} ∧ chunk = [] ∧
       left = [] ∧ well_formed t).
Proof.
  intros r rest Hat. rewrite bind_get, bind_fail_if, bind_lift.
  pose proof (finished_iff r rest Hat) as Hfin. pose proof (validate_fields_Ok purpose fields) as Hv.
  split.
  - intros t r' Hr. destruct (Reader_is_finished r); [|done]. cbn [negb] in Hr.
    destruct (validate_fields purpose fields) as [[]|]; [|done]. unfold mret, M_ret in Hr.
    simplify_eq. exists [], []. split; [by apply Hfin|]. split; [|by rewrite <- (proj1 Hfin)].
    by split_and!; [..|apply Hv].
  - intros t chunk left -> (->&->&->&Hw). rewrite (proj2 Hfin eq_refl). cbn [negb].
    rewrite (proj2 Hv Hw). by exists r.
Qed.

Lemma parses_transcript :
  parses read_transcript (λ t chunk left, chunk = layout t ∧ left = [] ∧ well_formed t).
Proof.
  unfold read_transcript. eapply parses_iff.
  { apply parses_bind; [by apply parses_exact|]. intros magic _. apply parses_fail_if.
    apply parses_bind; [apply parses_u16|]. intros version _. apply parses_fail_if.
    apply parses_bind; [apply parses_u16|]. intros purpose _. apply parses_lift_bind. intros p.
    apply parses_bind; [apply parses_u16|]. intros count _. apply parses_fail_if.
    apply parses_bind; [apply parses_fields|]. intros fields _. apply parses_end. }
  intros t chunk left. split.
  - intros (?&magic&c1&->&[-> _]&Hm&version&?&c2&->&[-> _]&Hver&v&?&c3&->&[-> _]&p&Hp&count&?&c4&->&
      [-> Hc]&Hmax&fields&c5&c6&->&(Hn&->&_&_)&->&->&->&Hw).
    boolsimpl. apply purpose_iff in Hp. subst. split; [|done]. unfold layout. cbn [ct_purpose ct_fields].
    assert (len fields = count) as -> by (unfold len; lia). by rewrite app_nil_r.
  - intros (->&->&Hw). pose proof (well_formed_count t Hw) as Hc.
    destruct (well_formed_bounds t Hw) as [Ho Hb]. destruct t as [p fields]. cbn [ct_purpose ct_fields] in *.
    unfold layout. cbn [ct_purpose ct_fields].
    do 3 eexists. split; [done|]. split; [done|]. split; [by rewrite bool_decide_eq_true_2|].
    do 3 eexists. split; [done|]. split; [done|]. split; [done|].
    do 3 eexists. split; [done|]. split; [split; [done|by destruct p]|].
    exists p. split; [by apply purpose_iff|].
    do 3 eexists. split; [done|]. split; [split; [done|lia]|]. unfold MAX_FIELDS.
    split; [by apply Z.ltb_ge; lia|]. exists fields. do 2 eexists.
    split; [symmetry; apply app_nil_r|]. split; [|done]. split_and!; [unfold len; lia|done..].
Qed.

Lemma decode_Ok_iff t b : decode_transcript b = Ok t ↔ well_formed t ∧ b = layout t.
Proof.
  unfold decode_transcript. rewrite res_seq, res_fail_if, Z.ltb_ge.
  assert (len b <= MAX_TRANSCRIPT_LENGTH → at_rest (Reader_new b) b) as Hat.
  { intros Hl. unfold at_rest. simpl. split_and!; [lia|done|lia|done]. }
  split.
  - intros [Hl Hr]. destruct (parses_transcript _ _ (Hat Hl)) as [Hs _].
    destruct (read_transcript (Reader_new b)) as [r0 r']. simpl in Hr. subst r0.
    destruct (Hs t r' eq_refl) as (c&left&->&(->&->&Hw)&_). by rewrite app_nil_r.
  - intros [Hw ->]. pose proof (layout_len t Hw) as Hl. split; [done|].
    destruct (parses_transcript _ _ (Hat Hl)) as [_ Hc].
    destruct (Hc t (layout t) []) as (r'&->&_); [by rewrite app_nil_r|done|done].
Qed.

(** * Properties *)

(** C30. The transcript format is canonical: [encode] accepts exactly the transcripts that carry
    the fields their purpose binds, each of its fixed length, and writes their layout; [decode]
    accepts exactly those layouts, whatever the input, and gives back that one transcript. So
    the two are inverse to each other, and no two byte strings stand for the same transcript. *)
Theorem transcript_canonical (t : CanonicalTranscript) (b : bytes) :
  (encode_transcript t = Ok b ↔ well_formed t ∧ b = layout t) ∧
  (decode_transcript b = Ok t ↔ well_formed t ∧ b = layout t).
Proof. split; [apply encode_Ok_iff|apply decode_Ok_iff]. Qed.

(** [encode] and [decode] are inverse. *)
Lemma decode_encode_iff t b : decode_transcript b = Ok t ↔ encode_transcript t = Ok b.
Proof. by rewrite encode_Ok_iff, decode_Ok_iff. Qed.

Lemma encode_inj t1 t2 b : encode_transcript t1 = Ok b → encode_transcript t2 = Ok b → t1 = t2.
Proof. rewrite <- !decode_encode_iff. congruence. Qed.
