(* ===== verification/GrantStore.v ===== *)
(** The persisted grants of the Host, crates/host-agent/src/grant_store.rs: the trait
    [GrantStore], the checksummed file behind it and the store in memory.

    The private file of crates/host-platform/src/restricted_fs.rs is the interface
    [PrivateFile]; [PrivateFileLaws] says that a write that fails after the rename may have
    replaced the file, and that a read never returns anything but the file. *)
From S2P Require Import Prelude Limits Messages Crypto.

Local Open Scope Z_scope.

(** * The private file *)

Inductive RestrictedFsError :=
| FS_SymbolicLink | FS_NotDirectory | FS_NotRegularFile | FS_FileTooLarge | FS_InvalidPath | FS_Io.

Class PrivateFile (F : Type) := {
  try_exists : M F unit bool;
  read_private_file : Z → M F RestrictedFsError bytes;
  atomic_write_private : bytes → M F RestrictedFsError unit
}.

Class PrivateFileLaws (F : Type) `{PrivateFile F} := {
  file_contents : F → option bytes;
  exists_keeps f : file_contents (try_exists f).2 = file_contents f;
  exists_tells f b : (try_exists f).1 = Ok b → b = is_some (file_contents f);
  read_keeps m f : file_contents (read_private_file m f).2 = file_contents f;
  read_tells m f b : (read_private_file m f).1 = Ok b → file_contents f = Some b;
  read_too_large m f :
    (read_private_file m f).1 = Err FS_FileTooLarge → ∃ b, file_contents f = Some b ∧ m < len b;
  write_old_or_new b f :
    file_contents (atomic_write_private b f).2 = Some b ∨
    file_contents (atomic_write_private b f).2 = file_contents f;
  write_ok b f r : (atomic_write_private b f).1 = Ok r →
    file_contents (atomic_write_private b f).2 = Some b
}.

(** * Data *)

Definition SNAPSHOT_MAGIC : bytes := [byte_of 80; byte_of 82; byte_of 68; byte_of 71].
Definition SNAPSHOT_VERSION : Z := 1.
Definition MAGIC_OFFSET : Z := 0.
Definition VERSION_OFFSET : Z := 4.
Definition LENGTH_OFFSET : Z := 6.
Definition CHECKSUM_OFFSET : Z := 10.
Definition CHECKSUM_BYTES : Z := 32.
Definition ENVELOPE_HEADER_BYTES : Z := CHECKSUM_OFFSET + CHECKSUM_BYTES.
Definition MAX_ENVELOPE_BYTES : Z := ENVELOPE_HEADER_BYTES + MAX_HOST_AUTHORIZATION_SNAPSHOT_BYTES.

Inductive GrantStoreError :=
| GS_Io | GS_SnapshotTooLarge | GS_InvalidEnvelope | GS_UnsupportedVersion | GS_ChecksumMismatch
| GS_InvalidPayload | GS_HostMismatch | GS_InjectedFailure.

#[export] Instance GrantStoreError_eq_dec : EqDecision GrantStoreError.
Proof. solve_decision. Defined.

Class GrantStore (W : Type) := {
  store_load : bytes → M W GrantStoreError (list ControllerGrantView);
  store_persist : bytes → list ControllerGrantView → M W GrantStoreError unit
}.

(** What the registry relies on: [stored] is what a load finds, and a persist that fails may
    still have taken effect. *)
Class GrantStoreLaws (W : Type) `{GrantStore W} := {
  stored : W → bytes → option (list ControllerGrantView);
  load_keeps host w h : stored (store_load host w).2 h = stored w h;
  load_tells host w gs : (store_load host w).1 = Ok gs → stored w host = Some gs;
  persist_ok host gs w r : (store_persist host gs w).1 = Ok r →
    stored (store_persist host gs w).2 host = Some gs;
  persist_old_or_new host gs w :
    stored (store_persist host gs w).2 host = Some gs ∨
    stored (store_persist host gs w).2 host = stored w host
}.

(** * The file store *)

(** [&envelope[a..b]]; the length was checked first. *)
Definition slice (a b : Z) (bs : bytes) : bytes := take (Z.to_nat (b - a)) (drop (Z.to_nat a) bs).

Definition snapshot_envelope `{Sha256} (payload_length : Z) (payload : bytes) : bytes :=
  SNAPSHOT_MAGIC ++ be_bytes 2 SNAPSHOT_VERSION ++ be_bytes 4 payload_length ++ sha256 payload ++
  payload.

Definition decode_envelope `{Sha256, Message HostAuthorizationSnapshot} (envelope : bytes)
    (expected_host_device_id : bytes) : result GrantStoreError (list ControllerGrantView) :=
  fail_if (len envelope <? ENVELOPE_HEADER_BYTES) GS_InvalidEnvelope;;
  fail_if (negb (bool_decide (slice MAGIC_OFFSET VERSION_OFFSET envelope = SNAPSHOT_MAGIC)))
    GS_InvalidEnvelope;;
  version ← ok_or (array_of 2 (slice VERSION_OFFSET LENGTH_OFFSET envelope)) GS_InvalidEnvelope;
  fail_if (negb (be_val version =? SNAPSHOT_VERSION)) GS_UnsupportedVersion;;
  length ← ok_or (array_of 4 (slice LENGTH_OFFSET CHECKSUM_OFFSET envelope)) GS_InvalidEnvelope;
  let payload_length := be_val length in
  fail_if (MAX_HOST_AUTHORIZATION_SNAPSHOT_BYTES <? payload_length) GS_SnapshotTooLarge;;
  fail_if (negb (len envelope =? ENVELOPE_HEADER_BYTES + payload_length)) GS_InvalidEnvelope;;
  let expected_checksum := slice CHECKSUM_OFFSET ENVELOPE_HEADER_BYTES envelope in
  let payload := drop (Z.to_nat ENVELOPE_HEADER_BYTES) envelope in
  fail_if (negb (bool_decide (sha256 payload = expected_checksum))) GS_ChecksumMismatch;;
  snapshot ← ok_or (decode payload) GS_InvalidPayload;
  fail_if (negb (bool_decide
    (HostAuthorizationSnapshot_host_device_id snapshot = expected_host_device_id))) GS_HostMismatch;;
  mret (HostAuthorizationSnapshot_grants snapshot).

Definition map_read_error (error : RestrictedFsError) : GrantStoreError :=
  match error with FS_FileTooLarge => GS_SnapshotTooLarge | _ => GS_Io end.

Section file_store.
Context {F : Type} `{PrivateFile F, Sha256, Message HostAuthorizationSnapshot}.

Definition FileGrantStore_load (host_device_id : bytes)
    : M F GrantStoreError (list ControllerGrantView) :=
  found ← map_err_m (λ _, GS_Io) try_exists;
  if negb found then mret [] else
  envelope ← map_err_m map_read_error (read_private_file MAX_ENVELOPE_BYTES);
  lift (decode_envelope envelope host_device_id).

Definition FileGrantStore_persist (host_device_id : bytes) (grants : list ControllerGrantView)
    : M F GrantStoreError unit :=
  let snapshot := {| HostAuthorizationSnapshot_host_device_id := host_device_id;
                     HostAuthorizationSnapshot_grants := grants |} in
  let payload := encode_to_vec snapshot in
  fail_if (MAX_HOST_AUTHORIZATION_SNAPSHOT_BYTES <? len payload) GS_SnapshotTooLarge;;
  payload_length ← ok_or (if len payload <=? U32_MAX then Some (len payload) else None)
                         GS_SnapshotTooLarge;
  map_err_m (λ _, GS_Io) (atomic_write_private (snapshot_envelope payload_length payload)).
End file_store.

#[export] Instance FileGrantStore {F : Type}
    `{PrivateFile F, Sha256, Message HostAuthorizationSnapshot} : GrantStore F := {
  store_load := FileGrantStore_load;
  store_persist := FileGrantStore_persist
}.

(** * The store in memory *)

Record MemoryGrantStore := {
  mgs_snapshot : option HostAuthorizationSnapshot;
  mgs_fail_next_persist : bool
}.

Definition MemoryGrantStore_new : MemoryGrantStore :=
  {| mgs_snapshot := None; mgs_fail_next_persist := false |}.

Definition MemoryGrantStore_fail_next_persist (s : MemoryGrantStore) : MemoryGrantStore :=
  {| mgs_snapshot := mgs_snapshot s; mgs_fail_next_persist := true |}.

Definition MemoryGrantStore_load (host_device_id : bytes)
    : M MemoryGrantStore GrantStoreError (list ControllerGrantView) :=
  s ← get;
  match mgs_snapshot s with
  | None => mret []
  | Some value =>
      if bool_decide (HostAuthorizationSnapshot_host_device_id value = host_device_id)
      then mret (HostAuthorizationSnapshot_grants value)
      else mthrow GS_HostMismatch
  end.

Definition MemoryGrantStore_persist `{Message HostAuthorizationSnapshot} (host_device_id : bytes)
    (grants : list ControllerGrantView) : M MemoryGrantStore GrantStoreError unit :=
  s ← get;
  put {| mgs_snapshot := mgs_snapshot s; mgs_fail_next_persist := false |};;
  fail_if (mgs_fail_next_persist s) GS_InjectedFailure;;
  let snapshot := {| HostAuthorizationSnapshot_host_device_id := host_device_id;
                     HostAuthorizationSnapshot_grants := grants |} in
  fail_if (MAX_HOST_AUTHORIZATION_SNAPSHOT_BYTES <? len (encode_to_vec snapshot))
    GS_SnapshotTooLarge;;
  put {| mgs_snapshot := Some snapshot; mgs_fail_next_persist := false |}.

#[export] Instance MemoryGrantStore_store `{Message HostAuthorizationSnapshot}
    : GrantStore MemoryGrantStore := {
  store_load := MemoryGrantStore_load;
  store_persist := MemoryGrantStore_persist
}.

(** * Lemmas *)

Definition authorization_snapshot (host : bytes) (grants : list ControllerGrantView)
    : HostAuthorizationSnapshot :=
  {| HostAuthorizationSnapshot_host_device_id := host; HostAuthorizationSnapshot_grants := grants |}.

Lemma slice_app_mid (a b : Z) (x y z : bytes) :
  len x = a → len y = b - a → slice a b (x ++ y ++ z) = y.
Proof.
  intros Ha Hb. unfold slice, len in *. rewrite drop_app_length' by lia.
  apply take_app_length'. lia.
Qed.

(** The header fields of a long enough envelope. *)
Lemma envelope_split (e : bytes) :
  ENVELOPE_HEADER_BYTES <= len e →
  e = slice MAGIC_OFFSET VERSION_OFFSET e ++ slice VERSION_OFFSET LENGTH_OFFSET e ++
      slice LENGTH_OFFSET CHECKSUM_OFFSET e ++ slice CHECKSUM_OFFSET ENVELOPE_HEADER_BYTES e ++
      drop (Z.to_nat ENVELOPE_HEADER_BYTES) e.
Proof.
  intros Hl. unfold slice.
  change (Z.to_nat (VERSION_OFFSET - MAGIC_OFFSET)) with 4%nat.
  change (Z.to_nat (LENGTH_OFFSET - VERSION_OFFSET)) with 2%nat.
  change (Z.to_nat (CHECKSUM_OFFSET - LENGTH_OFFSET)) with 4%nat.
  change (Z.to_nat (ENVELOPE_HEADER_BYTES - CHECKSUM_OFFSET)) with 32%nat.
  change (Z.to_nat MAGIC_OFFSET) with 0%nat. change (Z.to_nat VERSION_OFFSET) with 4%nat.
  change (Z.to_nat LENGTH_OFFSET) with 6%nat. change (Z.to_nat CHECKSUM_OFFSET) with 10%nat.
  change (Z.to_nat ENVELOPE_HEADER_BYTES) with 42%nat.
  transitivity (take 4 e ++ drop 4 e); [by rewrite take_drop|]. f_equal.
  transitivity (take 2 (drop 4 e) ++ drop 2 (drop 4 e)); [by rewrite take_drop|].
  rewrite drop_drop. f_equal.
  transitivity (take 4 (drop 6 e) ++ drop 4 (drop 6 e)); [by rewrite take_drop|].
  rewrite drop_drop. f_equal.
  transitivity (take 32 (drop 10 e) ++ drop 32 (drop 10 e)); [by rewrite take_drop|].
  by rewrite drop_drop.
Qed.

Lemma slice_len (a b : Z) (e : bytes) :
  0 <= a → a <= b → b <= len e → len (slice a b e) = b - a.
Proof. intros. unfold slice, len in *. rewrite length_take, length_drop. lia. Qed.

Section envelopes.
Context `{Sha256} `{!Sha256Laws} `{Message HostAuthorizationSnapshot}.

Lemma envelope_len n payload : len (snapshot_envelope n payload) = ENVELOPE_HEADER_BYTES + len payload.
Proof.
  unfold snapshot_envelope. rewrite !len_app, !len_be_bytes, sha256_len.
  change (len SNAPSHOT_MAGIC) with 4. unfold ENVELOPE_HEADER_BYTES, CHECKSUM_OFFSET, CHECKSUM_BYTES. lia.
Qed.

Lemma envelope_slices n payload :
  let e := snapshot_envelope n payload in
  slice MAGIC_OFFSET VERSION_OFFSET e = SNAPSHOT_MAGIC ∧
  slice VERSION_OFFSET LENGTH_OFFSET e = be_bytes 2 SNAPSHOT_VERSION ∧
  slice LENGTH_OFFSET CHECKSUM_OFFSET e = be_bytes 4 n ∧
  slice CHECKSUM_OFFSET ENVELOPE_HEADER_BYTES e = sha256 payload ∧
  drop (Z.to_nat ENVELOPE_HEADER_BYTES) e = payload.
Proof.
  cbn zeta. unfold snapshot_envelope. split; [by apply (slice_app_mid 0 4 [])|].
  split; [by apply slice_app_mid|]. split; [|split].
  - rewrite (app_assoc SNAPSHOT_MAGIC). by apply slice_app_mid.
  - rewrite (app_assoc SNAPSHOT_MAGIC), (app_assoc (SNAPSHOT_MAGIC ++ _)).
    apply slice_app_mid; [done|]. by rewrite sha256_len.
  - rewrite !app_assoc. apply drop_app_length'. pose proof (sha256_len payload) as Hs.
    unfold len in Hs. rewrite !length_app, !length_be_bytes.
    unfold ENVELOPE_HEADER_BYTES, CHECKSUM_OFFSET, CHECKSUM_BYTES. simpl. lia.
Qed.

Lemma decode_envelope_iff e host grants :
  decode_envelope e host = Ok grants ↔
  ∃ payload, e = snapshot_envelope (len payload) payload ∧
    len payload <= MAX_HOST_AUTHORIZATION_SNAPSHOT_BYTES ∧
    decode payload = Some (authorization_snapshot host grants).
Proof.
  unfold decode_envelope. split.
  - intros (G1%res_fail_if&(G2%res_fail_if&(v&[-> Hvl]%array_of_Some&(G3%res_fail_if&(l&[-> Hll]%array_of_Some&
      (G4%res_fail_if&(G5%res_fail_if&(G6%res_fail_if&([h gs]&G7&(G8%res_fail_if&[= G9])%res_seq)%res_ok_or)%res_seq)%res_seq)%res_seq)%res_ok_or)%res_seq)%res_ok_or)%res_seq)%res_seq.
    boolsimpl. simpl in *. subst h gs. pose proof (envelope_split e G1) as He.
    set (payload := drop (Z.to_nat ENVELOPE_HEADER_BYTES) e) in *.
    assert (len payload = be_val (slice LENGTH_OFFSET CHECKSUM_OFFSET e)) as Hp.
    { unfold payload. unfold len in *. rewrite length_drop.
      change (Z.to_nat ENVELOPE_HEADER_BYTES) with 42%nat. change ENVELOPE_HEADER_BYTES with 42 in *.
      lia. }
    exists payload. split; [|split; [lia|done]].
    rewrite He at 1. unfold snapshot_envelope. rewrite G2, Hp, G6. f_equal. f_equal; [|f_equal].
    + rewrite <- (be_bytes_be_val (slice VERSION_OFFSET LENGTH_OFFSET e)). f_equal; [|done].
      unfold len in Hvl. lia.
    + rewrite <- (be_bytes_be_val (slice LENGTH_OFFSET CHECKSUM_OFFSET e)) at 1. f_equal.
      unfold len in Hll. lia.
  - intros (payload&->&Hp&Hd). pose proof (len_nonneg payload) as Hnn.
    destruct (envelope_slices (len payload) payload) as (E1&E2&E3&E4&E5).
    assert (len payload < 4294967296) by (unfold MAX_HOST_AUTHORIZATION_SNAPSHOT_BYTES in Hp; lia).
    apply res_seq. split; [apply res_fail_if, Z.ltb_ge; rewrite envelope_len; lia|].
    apply res_seq. split; [by rewrite E1, bool_decide_eq_true_2|].
    apply res_ok_or. eexists. split; [by apply array_of_Some; rewrite E2|].
    apply res_seq. split; [by rewrite E2|].
    apply res_ok_or. eexists. split; [by apply array_of_Some; rewrite E3|]. cbn zeta.
    rewrite E3, be_val_be_bytes by lia.
    apply res_seq. split; [by apply res_fail_if, Z.ltb_ge|].
    apply res_seq. split; [by rewrite envelope_len, Z.eqb_refl|].
    apply res_seq. split; [by rewrite E4, E5, bool_decide_eq_true_2|].
    apply res_ok_or. eexists. split; [by rewrite E5|].
    apply res_seq. split; [by rewrite bool_decide_eq_true_2|done].
Qed.
End envelopes.

(** * The stores meet the registry's contract *)

Section file_laws.
Context {F : Type} `{PrivateFileLaws F, Sha256} `{!Sha256Laws}
  `{Message HostAuthorizationSnapshot} `{!MessageLaws HostAuthorizationSnapshot}.

Definition file_stored (f : F) (host : bytes) : option (list ControllerGrantView) :=
  match file_contents f with
  | None => Some []
  | Some e => match decode_envelope e host with Ok gs => Some gs | Err _ => None end
  end.

Lemma file_load_spec host f r f' :
  FileGrantStore_load host f = (r, f') →
  file_contents f' = file_contents f ∧ (∀ gs, r = Ok gs → file_stored f host = Some gs).
Proof.
  unfold FileGrantStore_load. intros Hr. rewrite bind_run in Hr. unfold map_err_m at 1 in Hr.
  pose proof (exists_keeps f) as Hk. pose proof (exists_tells f) as Ht. unfold file_stored.
  destruct (try_exists f) as [[found|e] f1]; simpl in Hr, Hk, Ht; [|by simplify_eq].
  specialize (Ht found eq_refl). destruct found; simpl in Hr.
  2: { unfold mret, M_ret in Hr. simplify_eq. split; [done|].
       intros gs [= <-]. by destruct (file_contents f). }
  rewrite bind_run in Hr. unfold map_err_m in Hr.
  pose proof (read_keeps MAX_ENVELOPE_BYTES f1) as Hk1.
  pose proof (read_tells MAX_ENVELOPE_BYTES f1) as Ht1.
  destruct (read_private_file MAX_ENVELOPE_BYTES f1) as [[e|e] f2]; simpl in Hr, Hk1, Ht1.
  - unfold lift in Hr. simplify_eq. split; [congruence|]. intros gs Hgs.
    rewrite <- Hk, (Ht1 e eq_refl). by rewrite Hgs.
  - simplify_eq. split; [congruence|done].
Qed.

Lemma persist_writes host gs f :
  (∃ e, FileGrantStore_persist host gs f = (Err e, f)) ∨
  ∃ e r, decode_envelope e host = Ok gs ∧ (atomic_write_private e f).1 = r ∧
    (FileGrantStore_persist host gs f).2 = (atomic_write_private e f).2 ∧
    (is_ok (FileGrantStore_persist host gs f).1 = is_ok r).
Proof.
  unfold FileGrantStore_persist. rewrite bind_fail_if.
  destruct (_ <? _) eqn:Hmax; [left; by eexists|]. boolsimpl.
  destruct (_ <=? U32_MAX); [|left; by eexists]. rewrite bind_some. right.
  eexists _, _. split; [|split; [reflexivity|]].
  - apply decode_envelope_iff. eexists. split; [done|]. split; [done|].
    by rewrite decode_encode.
  - unfold map_err_m. by destruct (atomic_write_private _ f) as [[]].
Qed.

#[export] Program Instance FileGrantStore_laws : GrantStoreLaws F := { stored := file_stored }.
Next Obligation.
  intros host w h. unfold store_load, FileGrantStore, file_stored.
  destruct (FileGrantStore_load host w) as [r f'] eqn:Hr. apply file_load_spec in Hr as [Hk _].
  simpl. by rewrite Hk.
Qed.
Next Obligation.
  intros host w gs Hgs. unfold store_load, FileGrantStore in Hgs.
  destruct (FileGrantStore_load host w) as [r f'] eqn:Hr. apply file_load_spec in Hr as [_ Ht]. auto.
Qed.
Next Obligation.
  intros host gs w r Hr. unfold store_persist, FileGrantStore in *.
  destruct (persist_writes host gs w) as [[e He]|(e&rw&Hd&Hrw&Hw&Hok)]; [by rewrite He in Hr|].
  rewrite Hr in Hok. destruct rw as [[]|]; [|done]. unfold file_stored.
  by rewrite Hw, (write_ok _ _ _ Hrw), Hd.
Qed.
Next Obligation.
  intros host gs w. unfold store_persist, FileGrantStore.
  destruct (persist_writes host gs w) as [[e He]|(e&rw&Hd&_&Hw&_)]; [right; by rewrite He|].
  unfold file_stored. rewrite Hw. destruct (write_old_or_new e w) as [-> | ->]; [left; by rewrite Hd|by right].
Qed.
End file_laws.

Definition memory_stored (s : MemoryGrantStore) (host : bytes) : option (list ControllerGrantView) :=
  match mgs_snapshot s with
  | None => Some []
  | Some v => if bool_decide (HostAuthorizationSnapshot_host_device_id v = host)
              then Some (HostAuthorizationSnapshot_grants v) else None
  end.

#[export] Program Instance MemoryGrantStore_laws `{Message HostAuthorizationSnapshot}
    : GrantStoreLaws MemoryGrantStore := { stored := memory_stored }.
Next Obligation.
  intros ? host [[v|] fl] h; [|done]. unfold store_load, MemoryGrantStore_store, MemoryGrantStore_load.
  rewrite bind_get. simpl. by case_bool_decide.
Qed.
Next Obligation.
  intros ? host [[v|] fl] gs; unfold store_load, MemoryGrantStore_store, MemoryGrantStore_load;
    rewrite bind_get; unfold memory_stored; simpl; [case_bool_decide|]; unmonad; by intros; simplify_eq.
Qed.
Next Obligation.
  intros ? host gs [sn []] r; [done|]. unfold store_persist, MemoryGrantStore_store, MemoryGrantStore_persist.
  rewrite bind_get. unmonad. destruct (_ <? _); [done|]. intros _. unfold memory_stored. simpl.
  by rewrite bool_decide_eq_true_2.
Qed.
Next Obligation.
  intros ? host gs [sn []]; [by right|].
  unfold store_persist, MemoryGrantStore_store, MemoryGrantStore_persist. rewrite bind_get.
  unmonad. destruct (_ <? _); [by right|]. left. unfold memory_stored. simpl.
  by rewrite bool_decide_eq_true_2.
Qed.

(** * Properties *)

(** The authorization file is read exactly: whatever the bytes on disk, an envelope is
    accepted for a Host with some grants if and only if it is the envelope (magic, version,
    length, SHA-256 checksum) of a bounded payload that decodes to the snapshot of this very
    Host with these very grants. In particular what [persist] writes is what [load] reads, and
    two accepted envelopes with the same checksum carry the same payload, or SHA-256 collides. *)
Theorem envelope_exact `{Sha256} `{!Sha256Laws} `{Message HostAuthorizationSnapshot} (host : bytes) :
  (∀ e grants, decode_envelope e host = Ok grants ↔
     ∃ payload, e = snapshot_envelope (len payload) payload ∧
       len payload <= MAX_HOST_AUTHORIZATION_SNAPSHOT_BYTES ∧
       decode payload = Some (authorization_snapshot host grants)) ∧
  (∀ e1 e2 gs1 gs2,
     decode_envelope e1 host = Ok gs1 → decode_envelope e2 host = Ok gs2 →
     slice CHECKSUM_OFFSET ENVELOPE_HEADER_BYTES e1 = slice CHECKSUM_OFFSET ENVELOPE_HEADER_BYTES e2 →
     gs1 = gs2 ∨ collision).
Proof.
  split; [intros; apply decode_envelope_iff|].
  intros e1 e2 gs1 gs2 (p1&->&_&Hd1)%decode_envelope_iff (p2&->&_&Hd2)%decode_envelope_iff.
  destruct (envelope_slices (len p1) p1) as (_&_&_&->&_).
  destruct (envelope_slices (len p2) p2) as (_&_&_&->&_). intros Hs.
  destruct (decide (p1 = p2)) as [-> | Hne]; [|right; by exists p1, p2].
  left. rewrite Hd1 in Hd2. by injection Hd2.
Qed.

#[local] Instance toy_sha : Sha256 := { sha256 b := be_bytes 32 (len b) }.

#[local] Instance toy_sha_laws : Sha256Laws := { sha256_len b := len_be_bytes 32 (len b) }.

#[local] Instance toy_snapshot_code : Message HostAuthorizationSnapshot := {
  encode_to_vec s := HostAuthorizationSnapshot_host_device_id s;
  decode b := Some (authorization_snapshot b [])
}.

Lemma envelope_exact_witness :
  (decode_envelope (snapshot_envelope 3 [byte_of 1; byte_of 2; byte_of 3])
     [byte_of 1; byte_of 2; byte_of 3] = Ok [] ↔
   ∃ payload, snapshot_envelope 3 [byte_of 1; byte_of 2; byte_of 3] =
       snapshot_envelope (len payload) payload ∧
     len payload <= MAX_HOST_AUTHORIZATION_SNAPSHOT_BYTES ∧
     decode payload = Some (authorization_snapshot [byte_of 1; byte_of 2; byte_of 3] [])) ∧
  decode_envelope (snapshot_envelope 3 [byte_of 1; byte_of 2; byte_of 3])
    [byte_of 1; byte_of 2; byte_of 3] = Ok [].
Proof.
  split; [|vm_compute; reflexivity].
  exact (proj1 (envelope_exact [byte_of 1; byte_of 2; byte_of 3])
           (snapshot_envelope 3 [byte_of 1; byte_of 2; byte_of 3]) []).
Defined.
