(* ===== verification/Authorization.v ===== *)
(** The controllers a Host trusts, crates/host-agent/src/authorization.rs: the registry of
    one-way grants, validated when it is loaded and persisted before it changes.

    The registry works over any [GrantStore]; its theorems use the contract [GrantStoreLaws],
    which the file and the memory store of GrantStore.v meet. *)
From S2P Require Import Prelude Limits Messages Crypto Containers Transcript Validation GrantStore.

Local Open Scope Z_scope.

(** * Data *)

Definition GRANT_ID_BYTES : Z := 16.
Definition GRANT_ID_GENERATION_ATTEMPTS : nat := 16.

Inductive AuthorizationError :=
| AE_Store (error : GrantStoreError) | AE_InvalidHostIdentity | AE_InvalidStoredGrant
| AE_DuplicateGrantId | AE_DuplicateController | AE_InvalidController | AE_SelfGrant
| AE_InvalidPermissions | AE_GrantConflict | AE_GrantLimit | AE_RandomGeneration
| AE_GrantNotFound.

#[export] Instance AuthorizationError_eq_dec : EqDecision AuthorizationError.
Proof. solve_decision. Defined.

(** [grants_by_controller] is a [BTreeMap] keyed by the controller's device identifier. *)
Record AuthorizationRegistry := {
  ar_host_device_id : bytes;
  ar_grants_by_controller : gmap bytes ControllerGrantView
}.

(** * Validation of identities and permissions *)

Definition validate_controller `{Sha256, Ed25519} (controller : DeviceIdentity)
    : result AuthorizationError unit :=
  map_err (λ _, AE_InvalidController) (validate_device_identity controller);;
  public_key ← ok_or (array_of 32 (DeviceIdentity_public_key controller)) AE_InvalidController;
  fail_if (negb (is_verifying_key public_key)) AE_InvalidController;;
  derived ← map_err (λ _, AE_InvalidController) (derive_device_id_v1 public_key);
  fail_if (negb (bool_decide (DeviceIdentity_device_id controller = derived))) AE_InvalidController.

(** The loop that fills the ordered set. *)
Fixpoint normalize_each (values : list Z) (normalized : gset Z)
    : result AuthorizationError (gset Z) :=
  match values with
  | [] => Ok normalized
  | value :: values =>
      permission ← ok_or (SessionPermission_try_from value) AE_InvalidPermissions;
      fail_if (bool_decide (permission = SessionPermission_Unspecified) ||
               bool_decide (value ∈ normalized)) AE_InvalidPermissions;;
      normalize_each values ({[value]} ∪ normalized)
  end.

Definition normalize_stored_permissions (permissions : list Z)
    : result AuthorizationError (list Z) :=
  fail_if (bool_decide (permissions = [])) AE_InvalidPermissions;;
  normalized ← normalize_each permissions ∅;
  fail_if (bool_decide (to_i32 SessionPermission_ControlInput ∈ normalized) &&
           negb (bool_decide (to_i32 SessionPermission_ViewScreen ∈ normalized)))
          AE_InvalidPermissions;;
  mret (btree_elements normalized).

Definition normalize_grant_permissions (permissions : list SessionPermission)
    : result AuthorizationError (list Z) :=
  normalize_stored_permissions (to_i32 <$> permissions).

Definition validate_stored_grant `{Sha256, Ed25519} (view : ControllerGrantView)
    (expected_host_device_id : bytes) : result AuthorizationError bytes :=
  grant ← ok_or (ControllerGrantView_grant view) AE_InvalidStoredGrant;
  fail_if (negb (len (ControllerGrant_grant_id grant) =? GRANT_ID_BYTES) ||
           negb (bool_decide (ControllerGrant_host_device_id grant = expected_host_device_id)))
          AE_InvalidStoredGrant;;
  controller ← ok_or (ControllerGrant_controller grant) AE_InvalidStoredGrant;
  map_err (λ _, AE_InvalidStoredGrant) (validate_controller controller);;
  fail_if (bool_decide (DeviceIdentity_device_id controller = expected_host_device_id))
          AE_InvalidStoredGrant;;
  normalized ← map_err (λ _, AE_InvalidStoredGrant)
                 (normalize_stored_permissions (ControllerGrant_permissions grant));
  fail_if (negb (bool_decide (normalized = ControllerGrant_permissions grant)))
          AE_InvalidStoredGrant;;
  mret (DeviceIdentity_device_id controller).

Definition controller_device_id_for (view : ControllerGrantView) : option bytes :=
  grant ← ControllerGrantView_grant view;
  controller ← ControllerGrant_controller grant;
  Some (DeviceIdentity_device_id controller).

(** [Ord] of [Option<&[u8]>]. *)
Definition option_bytes_le (x y : option bytes) : Prop :=
  match x, y with
  | None, _ => True
  | Some _, None => False
  | Some x, Some y => bytes_le x y
  end.

Definition grant_le (left right : ControllerGrantView) : Prop :=
  option_bytes_le (controller_device_id_for left) (controller_device_id_for right).

#[export] Instance option_bytes_le_dec : RelDecision option_bytes_le.
Proof. intros [x|] [y|]; simpl; apply _. Defined.
#[export] Instance grant_le_dec : RelDecision grant_le := λ l r, option_bytes_le_dec _ _.

Definition sort_grants (grants : list ControllerGrantView) : list ControllerGrantView :=
  merge_sort grant_le grants.

Definition has_grant_id (grant_id : bytes) (view : ControllerGrantView) : bool :=
  match ControllerGrantView_grant view with
  | Some grant => bool_decide (ControllerGrant_grant_id grant = grant_id)
  | None => false
  end.

(** * The registry *)

Definition list_controller_grants (self : AuthorizationRegistry) : list ControllerGrantView :=
  btree_values (ar_grants_by_controller self).

Definition controller_grant (self : AuthorizationRegistry) (controller_device_id : bytes)
    : option ControllerGrantView :=
  ar_grants_by_controller self !! controller_device_id.

(** The loop of [load]: the identifiers seen and the grants by controller. *)
Fixpoint load_each `{Sha256, Ed25519} (host_device_id : bytes) (loaded : list ControllerGrantView)
    (grant_ids : gset bytes) (grants_by_controller : gmap bytes ControllerGrantView)
    : result AuthorizationError (gmap bytes ControllerGrantView) :=
  match loaded with
  | [] => Ok grants_by_controller
  | view :: loaded =>
      controller_id ← validate_stored_grant view host_device_id;
      grant ← ok_or (ControllerGrantView_grant view) AE_InvalidStoredGrant;
      let grant_id := ControllerGrant_grant_id grant in
      fail_if (bool_decide (grant_id ∈ grant_ids)) AE_DuplicateGrantId;;
      fail_if (is_some (grants_by_controller !! controller_id)) AE_DuplicateController;;
      load_each host_device_id loaded ({[grant_id]} ∪ grant_ids)
        (<[controller_id := view]> grants_by_controller)
  end.

Section registry.
Context `{Sha256, Ed25519} {W G : Type} `{GrantStore W, RandomSource G}.

(** The registry, its store and the random source. *)
Record RegistryState := {
  rs_registry : AuthorizationRegistry;
  rs_store : W;
  rs_random : G
}.

Abbreviation Rg A := (M RegistryState AuthorizationError A).

Definition set_rs_store (w : W) (s : RegistryState) : RegistryState :=
  {| rs_registry := rs_registry s; rs_store := w; rs_random := rs_random s |}.
Definition set_rs_random (g : G) (s : RegistryState) : RegistryState :=
  {| rs_registry := rs_registry s; rs_store := rs_store s; rs_random := g |}.
Definition set_rs_grants (m : gmap bytes ControllerGrantView) (s : RegistryState) : RegistryState :=
  {| rs_registry := {| ar_host_device_id := ar_host_device_id (rs_registry s);
                       ar_grants_by_controller := m |};
     rs_store := rs_store s; rs_random := rs_random s |}.

Definition AuthorizationRegistry_load (host_device_id : bytes)
    : M W AuthorizationError AuthorizationRegistry :=
  fail_if (negb (len host_device_id =? DEVICE_ID_BYTES)) AE_InvalidHostIdentity;;
  loaded ← map_err_m AE_Store (store_load host_device_id);
  fail_if (MAX_CONTROLLER_GRANTS <? len loaded) AE_InvalidStoredGrant;;
  grants ← lift (load_each host_device_id loaded ∅ ∅);
  mret {| ar_host_device_id := host_device_id; ar_grants_by_controller := grants |}.

Definition persist (grants : list ControllerGrantView) : Rg unit :=
  self ← get;
  map_err_m AE_Store
    (zoom rs_store set_rs_store (store_persist (ar_host_device_id (rs_registry self)) grants)).

(** [generate_grant_id] with the attempts that are left. *)
Fixpoint generate_grant_id (attempts : nat) : Rg bytes :=
  match attempts with
  | O => mthrow AE_RandomGeneration
  | S attempts =>
      grant_id ← map_err_m (λ _, AE_RandomGeneration)
        (zoom rs_random set_rs_random (random_bytes GRANT_ID_BYTES));
      self ← get;
      let already_exists :=
        existsb (has_grant_id grant_id) (list_controller_grants (rs_registry self)) in
      if negb already_exists then mret grant_id else generate_grant_id attempts
  end.

Definition create_controller_grant (controller : DeviceIdentity)
    (permissions : list SessionPermission) (created_at_unix_ms : Z) : Rg ControllerGrantView :=
  s ← get;
  let self := rs_registry s in
  lift (validate_controller controller);;
  fail_if (bool_decide (DeviceIdentity_device_id controller = ar_host_device_id self)) AE_SelfGrant;;
  normalized_permissions ← lift (normalize_grant_permissions permissions);
  match controller_grant self (DeviceIdentity_device_id controller) with
  | Some existing =>
      existing_grant ← ok_or (ControllerGrantView_grant existing) AE_InvalidStoredGrant;
      if bool_decide (ControllerGrant_controller existing_grant = Some controller) &&
         bool_decide (ControllerGrant_permissions existing_grant = normalized_permissions)
      then mret existing
      else mthrow AE_GrantConflict
  | None =>
      fail_if (MAX_CONTROLLER_GRANTS <=? Z.of_nat (size (ar_grants_by_controller self)))
              AE_GrantLimit;;
      grant_id ← generate_grant_id GRANT_ID_GENERATION_ATTEMPTS;
      let view :=
        {| ControllerGrantView_grant := Some
             {| ControllerGrant_grant_id := grant_id;
                ControllerGrant_host_device_id := ar_host_device_id self;
                ControllerGrant_controller := Some controller;
                ControllerGrant_created_at_unix_ms := created_at_unix_ms;
                ControllerGrant_permissions := normalized_permissions |};
           ControllerGrantView_last_successful_connection_at_unix_ms := 0 |} in
      persist (sort_grants (list_controller_grants self ++ [view]));;
      modify (set_rs_grants (<[DeviceIdentity_device_id controller := view]>
                               (ar_grants_by_controller self)));;
      mret view
  end.

(** [next.iter_mut().find(p)] and the assignment through it. *)
Fixpoint replace_first (p : ControllerGrantView → bool) (new : ControllerGrantView)
    (views : list ControllerGrantView) : option (list ControllerGrantView) :=
  match views with
  | [] => None
  | view :: views => if p view then Some (new :: views) else cons view <$> replace_first p new views
  end.

Definition is_controller (controller_device_id : bytes) (view : ControllerGrantView) : bool :=
  bool_decide (controller_device_id_for view = Some controller_device_id).

Definition record_authenticated_session (controller_device_id : bytes)
    (authenticated_at_unix_ms : Z) : Rg ControllerGrantView :=
  s ← get;
  let self := rs_registry s in
  existing ← ok_or (controller_grant self controller_device_id) AE_GrantNotFound;
  if authenticated_at_unix_ms <=?
       ControllerGrantView_last_successful_connection_at_unix_ms existing
  then mret existing
  else
    let updated :=
      {| ControllerGrantView_grant := ControllerGrantView_grant existing;
         ControllerGrantView_last_successful_connection_at_unix_ms := authenticated_at_unix_ms |} in
    next ← ok_or (replace_first (is_controller controller_device_id) updated
                    (list_controller_grants self)) AE_InvalidStoredGrant;
    persist next;;
    modify (set_rs_grants (<[controller_device_id := updated]> (ar_grants_by_controller self)));;
    mret updated.

Definition revoke_controller_grant (grant_id : bytes) : Rg ControllerGrantView :=
  s ← get;
  let self := rs_registry s in
  found ← ok_or (find (λ entry, has_grant_id grant_id entry.2)
                   (btree_entries (ar_grants_by_controller self))) AE_GrantNotFound;
  let controller_id := found.1 in
  let next := filter (λ view, is_controller controller_id view = false) (list_controller_grants self) in
  persist next;;
  modify (set_rs_grants (delete controller_id (ar_grants_by_controller self)));;
  ok_or (controller_grant self controller_id) AE_InvalidStoredGrant.
End registry.
Arguments RegistryState : clear implicits.

(** * Specification *)

(** A grant the Host [host] may hold for the controller [k]. *)
Definition stored_grant_ok `{Sha256, Ed25519} (host k : bytes) (v : ControllerGrantView) : Prop :=
  ∃ g c, ControllerGrantView_grant v = Some g ∧ len (ControllerGrant_grant_id g) = GRANT_ID_BYTES ∧
    ControllerGrant_host_device_id g = host ∧ ControllerGrant_controller g = Some c ∧
    validate_controller c = Ok () ∧ DeviceIdentity_device_id c = k ∧ k ≠ host ∧
    (ControllerGrant_permissions g = [1] ∨ ControllerGrant_permissions g = [1; 2]).

Record registry_wf `{Sha256, Ed25519} (r : AuthorizationRegistry) : Prop := {
  wf_host : len (ar_host_device_id r) = DEVICE_ID_BYTES;
  wf_valid k v : ar_grants_by_controller r !! k = Some v →
    stored_grant_ok (ar_host_device_id r) k v;
  wf_ids id k1 v1 k2 v2 :
    ar_grants_by_controller r !! k1 = Some v1 → ar_grants_by_controller r !! k2 = Some v2 →
    has_grant_id id v1 = true → has_grant_id id v2 = true → k1 = k2;
  wf_size : Z.of_nat (size (ar_grants_by_controller r)) <= MAX_CONTROLLER_GRANTS
}.

(** * Lemmas on permissions and stored grants *)

Lemma permission_cases value permission :
  SessionPermission_try_from value = Some permission →
  permission = SessionPermission_Unspecified ∨ value = 1 ∨ value = 2.
Proof. unfold SessionPermission_try_from. repeat case_match; intros; simplify_eq; boolsimpl; subst; auto. Qed.

Lemma normalize_each_Ok values s s' :
  normalize_each values s = Ok s' →
  s' = list_to_set values ∪ s ∧ ∀ v, v ∈ values → v = 1 ∨ v = 2.
Proof.
  revert s. induction values as [|v values IH]; intros s; cbn [normalize_each].
  - intros [= ->]. split; [set_solver|]. intros v Hv. by apply elem_of_nil in Hv.
  - intros (p&Hp&(Hf%res_fail_if&Hr)%res_seq)%res_ok_or. boolsimpl.
    apply IH in Hr as [-> Hall]. split; [simpl; set_solver|].
    intros w [->|Hw]%elem_of_cons; [|auto].
    destruct (permission_cases _ _ Hp) as [->|?]; [done|done].
Qed.

Lemma normalize_stored_Ok ps qs :
  normalize_stored_permissions ps = Ok qs → qs = [1] ∨ qs = [1; 2].
Proof.
  unfold normalize_stored_permissions. intros (Hne%res_fail_if&Hr)%res_seq. boolsimpl.
  apply result_bind_Ok in Hr as (s&Hs&(Hf%res_fail_if&[= <-])%res_seq).
  apply normalize_each_Ok in Hs as [-> Hall]. rewrite (right_id_L ∅ (∪)) in Hf |- *.
  change (to_i32 SessionPermission_ControlInput) with 2 in Hf.
  change (to_i32 SessionPermission_ViewScreen) with 1 in Hf.
  assert (1 ∈ ps) as H1.
  { destruct ps as [|p ps]; [done|]. destruct (Hall p) as [Hp|Hp]; [left|subst; left|].
    subst p. apply andb_false_iff in Hf as [Hf|Hf]; boolsimpl; [|by apply elem_of_list_to_set in Hf].
    exfalso. apply Hf. apply elem_of_list_to_set. left. }
  destruct (decide (2 ∈ ps)) as [H2|H2]; [right|left].
  - assert (list_to_set ps = ({[1; 2]} : gset Z)) as ->; [|by vm_compute].
    apply set_eq. intros x. rewrite elem_of_list_to_set. set_solver.
  - assert (list_to_set ps = ({[1]} : gset Z)) as ->; [|by vm_compute].
    apply set_eq. intros x. rewrite elem_of_list_to_set. set_solver.
Qed.

Lemma normalized_stored qs : qs = [1] ∨ qs = [1; 2] → normalize_stored_permissions qs = Ok qs.
Proof. by intros [-> | ->]; vm_compute. Qed.

Section stored.
Context `{Sha256, Ed25519}.

Lemma validate_stored_iff v host k : validate_stored_grant v host = Ok k ↔ stored_grant_ok host k v.
Proof.
  unfold validate_stored_grant, stored_grant_ok. split.
  - intros (g&Hg&(H1%res_fail_if&(c&Hc&Hr)%res_ok_or)%res_seq)%res_ok_or. boolsimpl.
    apply res_seq in Hr as [Hv Hr]. apply res_seq in Hr as [Hself%res_fail_if Hr]. boolsimpl.
    apply result_bind_Ok in Hr as (n&Hn&(Hnorm%res_fail_if&[= <-])%res_seq). boolsimpl.
    exists g, c. split_and!; try done.
    + by destruct (validate_controller c) as [[]|].
    + destruct (normalize_stored_permissions _) as [n'|] eqn:He; [|done]. simpl in Hn. simplify_eq.
      by apply normalize_stored_Ok in He.
  - intros (g&c&Hg&Hid&Hh&Hc&Hv&<-&Hne&Hp). apply res_ok_or. exists g. split; [done|].
    apply res_seq. split.
    { rewrite Hid, Hh, Z.eqb_refl, bool_decide_eq_true_2 by done. done. }
    apply res_ok_or. exists c. split; [done|]. rewrite Hv.
    apply res_seq. split; [done|]. apply res_seq. split; [by rewrite bool_decide_eq_false_2|].
    rewrite normalized_stored by done. apply res_seq. by rewrite bool_decide_eq_true_2.
Qed.

Lemma stored_key host k v : stored_grant_ok host k v → controller_device_id_for v = Some k.
Proof.
  intros (g&c&Hg&_&_&Hc&_&<-&_). unfold controller_device_id_for. rewrite Hg. simpl. by rewrite Hc.
Qed.

Lemma stored_has_id host k v : stored_grant_ok host k v → ∃ id, has_grant_id id v = true.
Proof.
  intros (g&c&Hg&_). exists (ControllerGrant_grant_id g). unfold has_grant_id. rewrite Hg.
  by apply bool_decide_eq_true_2.
Qed.

Lemma has_grant_id_fun id1 id2 v : has_grant_id id1 v = true → has_grant_id id2 v = true → id1 = id2.
Proof. unfold has_grant_id. destruct (ControllerGrantView_grant v); [|done]. intros; boolsimpl; congruence. Qed.

(** * Lemmas on loading *)

Definition id_of (v : ControllerGrantView) : bytes :=
  match ControllerGrantView_grant v with Some g => ControllerGrant_grant_id g | None => [] end.

Lemma has_id_iff host k v id : stored_grant_ok host k v → has_grant_id id v = true ↔ id_of v = id.
Proof.
  intros (g&c&Hg&_). unfold has_grant_id, id_of. rewrite Hg. apply bool_decide_eq_true.
Qed.

Lemma NoDup_fmap_eq {A B} (f : A → B) l x y : NoDup (f <$> l) → x ∈ l → y ∈ l → f x = f y → x = y.
Proof.
  induction l as [|z l IH]; [by intros _ ?%elem_of_nil|].
  rewrite fmap_cons, NoDup_cons, !elem_of_cons. intros [Hz Hl] [->|Hx] [->|Hy] He; [done|..].
  - exfalso. apply Hz. rewrite He. by apply list_elem_of_fmap_2.
  - exfalso. apply Hz. rewrite <- He. by apply list_elem_of_fmap_2.
  - auto.
Qed.

(** Loading succeeds exactly on valid grants of distinct controllers with distinct identifiers. *)
Lemma load_each_iff host l ids m m' :
  load_each host l ids m = Ok m' ↔
  ∃ L, l = L.*2 ∧ (∀ k v, (k, v) ∈ L → stored_grant_ok host k v) ∧ NoDup L.*1 ∧
    (∀ k, k ∈ L.*1 → m !! k = None) ∧ NoDup (id_of <$> L.*2) ∧ (∀ v, v ∈ L.*2 → id_of v ∉ ids) ∧
    m' = list_to_map L ∪ m.
Proof.
  revert ids m. induction l as [|v l IH]; intros ids m; cbn [load_each].
  - split.
    + intros [= <-]. exists []. simpl. rewrite (left_id_L ∅ (∪)). split_and!; try done;
        try constructor; intros; set_solver.
    + intros ([|]&He&_&_&_&_&_&->); [|done]. simpl. by rewrite (left_id_L ∅ (∪)).
  - split.
    + intros (k&Hk&(g&Hg&(H1%res_fail_if&(H2%res_fail_if&Hr)%res_seq)%res_seq)%res_ok_or)%result_bind_Ok.
      boolsimpl. apply validate_stored_iff in Hk. apply IH in Hr as (L&->&Hok&Hn&Hm&Hni&Hid&->).
      assert (id_of v = ControllerGrant_grant_id g) as Hidv by (unfold id_of; by rewrite Hg).
      assert (m !! k = None) as Hmk by (by destruct (m !! k)).
      assert (k ∉ L.*1) as Hkl.
      { intros Hin. apply Hm in Hin. by rewrite lookup_insert in Hin; rewrite decide_True in Hin. }
      exists ((k, v) :: L). rewrite !fmap_cons. cbn [fst snd]. split_and!.
      * done.
      * intros k' v' [[= -> ->]|Hin]%elem_of_cons; auto.
      * by constructor.
      * intros k' [->|Hin]%elem_of_cons; [done|]. specialize (Hm k' Hin).
        rewrite lookup_insert_ne in Hm; [done|by intros ->].
      * constructor; [|done]. intros (w&Hw&Hin)%list_elem_of_fmap. apply (Hid w Hin).
        rewrite <- Hw, Hidv. set_solver.
      * intros w [->|Hin]%elem_of_cons; [by rewrite Hidv|]. specialize (Hid w Hin). set_solver.
      * simpl. rewrite <- insert_union_l. rewrite insert_union_r; [done|]. by apply not_elem_of_list_to_map_1.
    + intros ([|[k v'] L]&He&Hok&Hn&Hm&Hni&Hid&->); [done|]. rewrite fmap_cons in He. simplify_eq/=.
      destruct (Hok k v') as (g&c&Hg&Hrest); [left|]. apply result_bind_Ok. exists k.
      rewrite validate_stored_iff. split; [apply Hok; left|]. apply res_ok_or. exists g. split; [done|].
      assert (id_of v' = ControllerGrant_grant_id g) as Hidv by (unfold id_of; by rewrite Hg).
      apply NoDup_cons in Hn as [Hk Hn]. apply NoDup_cons in Hni as [Hi Hni].
      apply res_seq. split.
      { apply res_fail_if, bool_decide_eq_false. rewrite <- Hidv. apply Hid. left. }
      apply res_seq. split; [by rewrite (Hm k (list_elem_of_here _ _))|].
      apply IH. exists L. split_and!; try done.
      * intros k1 v1 Hin. apply Hok. by right.
      * intros k1 Hin. rewrite lookup_insert_ne; [apply Hm; by right|]. by intros ->.
      * intros w Hin [Hw|Hw]%elem_of_union; [|by apply (Hid w); [right|]].
        apply elem_of_singleton in Hw. apply Hi. rewrite Hidv, <- Hw. by apply list_elem_of_fmap_2.
      * rewrite <- insert_union_l. rewrite insert_union_r; [done|]. by apply not_elem_of_list_to_map_1.
Qed.
End stored.

(** * Lemmas on the order of the grants *)

#[export] Instance option_bytes_le_total : Total option_bytes_le.
Proof. intros [x|] [y|]; simpl; auto. apply bytes_le_total. Qed.
#[export] Instance option_bytes_le_trans : Transitive option_bytes_le.
Proof. intros [x|] [y|] [z|]; simpl; try done. by etrans. Qed.
#[export] Instance grant_le_total : Total grant_le.
Proof. intros x y. apply option_bytes_le_total. Qed.
#[export] Instance grant_le_trans : Transitive grant_le.
Proof. intros x y z. unfold grant_le. by etrans. Qed.

(** A view with its controller. *)
Definition entry_of (v : ControllerGrantView) : bytes * ControllerGrantView :=
  (default [] (controller_device_id_for v), v).

#[export] Instance entry_of_inj : Inj (=) (=) entry_of.
Proof. by intros v w [= _ ->]. Qed.

Definition keyed (m : gmap bytes ControllerGrantView) : Prop :=
  ∀ k v, m !! k = Some v → controller_device_id_for v = Some k.

Lemma entries_keyed m : keyed m → entry_of <$> btree_values m = btree_entries m.
Proof.
  intros Hk. unfold btree_values. rewrite <- list_fmap_compose.
  rewrite <- (list_fmap_id (btree_entries m)) at 2. apply list_fmap_ext. intros i [k v] Hi.
  apply list_elem_of_lookup_2, elem_of_btree_entries, Hk in Hi. unfold entry_of. simpl. by rewrite Hi.
Qed.

Lemma sorted_by_controller (L : list ControllerGrantView) :
  StronglySorted grant_le L ↔ StronglySorted option_bytes_le (controller_device_id_for <$> L).
Proof.
  induction L as [|v L IH]; [split; constructor|]. rewrite fmap_cons, !StronglySorted_cons, IH.
  by rewrite Forall_fmap.
Qed.

Lemma sorted_entries (L : list ControllerGrantView) :
  Forall (λ v, is_Some (controller_device_id_for v)) L →
  StronglySorted grant_le L → StronglySorted entry_le (entry_of <$> L).
Proof.
  induction 1 as [|v L [k Hk] HL IH]; [constructor|].
  rewrite fmap_cons, !StronglySorted_cons, Forall_fmap. intros [Hv Hs]. split; [|auto].
  rewrite Forall_forall in Hv, HL |- *. intros w Hw. specialize (Hv w Hw).
  destruct (HL w Hw) as [k' Hk']. unfold grant_le in Hv. unfold entry_le, entry_of. simpl.
  by rewrite Hk, Hk' in Hv |- *.
Qed.

Lemma values_sorted m : keyed m → StronglySorted grant_le (btree_values m).
Proof.
  intros Hk. pose proof (btree_entries_sorted m) as Hs. rewrite <- entries_keyed in Hs by done.
  assert (Forall (λ v, is_Some (controller_device_id_for v)) (btree_values m)) as Hall.
  { apply Forall_forall. intros v [k Hv]%elem_of_btree_values. exists k. by apply Hk. }
  induction (btree_values m) as [|v L IH]; [constructor|]. apply Forall_cons in Hall as [[k Hv] HL].
  rewrite fmap_cons in Hs. apply StronglySorted_cons in Hs as [Hf Hs].
  rewrite StronglySorted_cons. split; [|auto]. rewrite Forall_fmap in Hf.
  rewrite Forall_forall in Hf, HL |- *. intros w Hw. specialize (Hf w Hw). destruct (HL w Hw) as [k' Hk'].
  unfold entry_le, entry_of in Hf. simpl in Hf. unfold grant_le. by rewrite Hv, Hk' in Hf |- *.
Qed.

(** The grants of a map in order are the only sorted list of them. *)
Lemma values_unique m (L : list ControllerGrantView) :
  keyed m → StronglySorted grant_le L → (entry_of <$> L) ≡ₚ map_to_list m → L = btree_values m.
Proof.
  intros Hk Hs Hp. unfold btree_values. rewrite <- (btree_entries_unique m (entry_of <$> L)).
  - rewrite <- list_fmap_compose. symmetry. apply list_fmap_id.
  - apply sorted_entries; [|done]. apply Forall_forall. intros v Hv.
    apply (list_elem_of_fmap_2 entry_of) in Hv. rewrite Hp in Hv. unfold entry_of in Hv.
    apply elem_of_map_to_list, Hk in Hv. by eexists.
  - done.
Qed.

Lemma entries_perm m : keyed m → (entry_of <$> btree_values m) ≡ₚ map_to_list m.
Proof. intros Hk. rewrite entries_keyed by done. apply btree_entries_perm. Qed.

Lemma sort_inserted m k v :
  keyed m → controller_device_id_for v = Some k → m !! k = None →
  sort_grants (btree_values m ++ [v]) = btree_values (<[k := v]> m).
Proof.
  intros Hk Hv Hm. apply values_unique.
  - intros k' v' [[<- <-]|[_ Hl]]%lookup_insert_Some; auto.
  - apply Sorted_StronglySorted; [apply _|]. apply (Sorted_merge_sort grant_le).
  - unfold sort_grants. rewrite merge_sort_Permutation, fmap_app, entries_perm by done.
    rewrite map_to_list_insert by done. unfold entry_of at 1. simpl. rewrite Hv. simpl.
    by rewrite Permutation_app_comm.
Qed.

Lemma replace_first_spec p new L :
  (∃ v, v ∈ L ∧ p v = true) →
  ∃ l1 old l2, L = l1 ++ old :: l2 ∧ p old = true ∧ replace_first p new L = Some (l1 ++ new :: l2).
Proof.
  induction L as [|v L IH]; intros (w&Hw&Hp); [by apply elem_of_nil in Hw|]. cbn [replace_first].
  destruct (p v) eqn:Hv; [by exists [], v, L|]. destruct IH as (l1&old&l2&->&Ho&->).
  { exists w. split; [|done]. apply elem_of_cons in Hw as [->|Hw]; [congruence|done]. }
  by exists (v :: l1), old, l2.
Qed.

Lemma replace_updated m k old v :
  keyed m → m !! k = Some old → controller_device_id_for v = Some k →
  replace_first (is_controller k) v (btree_values m) = Some (btree_values (<[k := v]> m)).
Proof.
  intros Hk Hm Hv.
  destruct (replace_first_spec (is_controller k) v (btree_values m)) as (l1&old'&l2&HL&Ho&->).
  { exists old. split; [apply elem_of_btree_values; eauto|]. apply bool_decide_eq_true. by apply Hk. }
  apply bool_decide_eq_true in Ho. f_equal. apply values_unique.
  - intros k' v' [[<- <-]|[_ Hl]]%lookup_insert_Some; auto.
  - pose proof (values_sorted m Hk) as Hs. rewrite HL in Hs. apply sorted_by_controller in Hs.
    apply sorted_by_controller. rewrite fmap_app, fmap_cons in Hs |- *. by rewrite Hv, <- Ho.
  - pose proof (entries_perm m Hk) as Hp. rewrite HL, fmap_app, fmap_cons in Hp.
    assert (old' = old) as ->.
    { assert (entry_of old' ∈ map_to_list m) as Hin by (rewrite <- Hp; set_solver).
      unfold entry_of in Hin. rewrite Ho in Hin. apply elem_of_map_to_list in Hin. simpl in Hin. congruence. }
    rewrite <- (insert_delete_id m k old Hm), map_to_list_insert in Hp by apply lookup_delete_eq.
    rewrite <- insert_delete_eq, map_to_list_insert by apply lookup_delete_eq.
    rewrite fmap_app, fmap_cons. unfold entry_of at 2 in Hp. unfold entry_of at 2. rewrite Hv, Ho in *.
    simpl in *. rewrite <- Permutation_middle in Hp |- *. apply Permutation_cons_inv in Hp. by rewrite Hp.
Qed.

Lemma filter_deleted m k old :
  keyed m → m !! k = Some old →
  filter (λ v, is_controller k v = false) (btree_values m) = btree_values (delete k m).
Proof.
  intros Hk Hm. apply values_unique.
  - intros k' v' [_ Hl]%lookup_delete_Some. auto.
  - pose proof (values_sorted m Hk) as Hs. clear Hm. induction (btree_values m) as [|v L IH]; [constructor|].
    apply StronglySorted_cons in Hs as [Hf Hs]. rewrite filter_cons. case_decide; [|auto].
    apply StronglySorted_cons. split; [|auto]. rewrite Forall_forall in Hf |- *.
    intros w [_ Hw]%list_elem_of_filter. auto.
  - pose proof (entries_perm m Hk) as Hp. apply NoDup_Permutation.
    + apply (NoDup_fmap_2 _), NoDup_filter, (NoDup_fmap_1 entry_of). rewrite Hp. apply NoDup_map_to_list.
    + apply NoDup_map_to_list.
    + intros [k' v']. rewrite elem_of_map_to_list, lookup_delete_Some, list_elem_of_fmap.
      setoid_rewrite list_elem_of_filter. setoid_rewrite elem_of_btree_values. unfold is_controller, entry_of.
      split.
      * intros (v&[= -> ->]&Hc&[k1 Hv]). boolsimpl. rewrite (Hk _ _ Hv) in Hc |- *. simpl. naive_solver.
      * intros [Hne Hv]. exists v'. rewrite (Hk _ _ Hv). simpl. split; [done|].
        split; [|by eexists]. apply bool_decide_eq_false. congruence.
Qed.

(** * Operations and their effect *)

Inductive RegistryOp :=
| RO_Create (controller : DeviceIdentity) (permissions : list SessionPermission) (created_at : Z)
| RO_Record (controller_device_id : bytes) (authenticated_at : Z)
| RO_Revoke (grant_id : bytes).

(** What a successful operation does to the grants. *)
Definition registry_effect `{Sha256, Ed25519} (host : bytes) (m : gmap bytes ControllerGrantView)
    (op : RegistryOp) (v : ControllerGrantView) (m' : gmap bytes ControllerGrantView) : Prop :=
  match op with
  | RO_Create c ps created =>
      let k := DeviceIdentity_device_id c in
      validate_controller c = Ok () ∧ k ≠ host ∧
      ∃ qs, normalize_grant_permissions ps = Ok qs ∧
        ((m !! k = Some v ∧ m' = m ∧ ∃ g, ControllerGrantView_grant v = Some g ∧
            ControllerGrant_controller g = Some c ∧ ControllerGrant_permissions g = qs) ∨
         (m !! k = None ∧ m' = <[k := v]> m ∧ Z.of_nat (size m) < MAX_CONTROLLER_GRANTS ∧
          ∃ id, len id = GRANT_ID_BYTES ∧ (∀ k w, m !! k = Some w → has_grant_id id w = false) ∧
            v = {| ControllerGrantView_grant := Some
                     {| ControllerGrant_grant_id := id; ControllerGrant_host_device_id := host;
                        ControllerGrant_controller := Some c;
                        ControllerGrant_created_at_unix_ms := created;
                        ControllerGrant_permissions := qs |};
                   ControllerGrantView_last_successful_connection_at_unix_ms := 0 |}))
  | RO_Record k at_ms =>
      ∃ old, m !! k = Some old ∧ m' = <[k := v]> m ∧
        v = {| ControllerGrantView_grant := ControllerGrantView_grant old;
               ControllerGrantView_last_successful_connection_at_unix_ms :=
                 Z.max (ControllerGrantView_last_successful_connection_at_unix_ms old) at_ms |}
  | RO_Revoke id => ∃ k, m !! k = Some v ∧ has_grant_id id v = true ∧ m' = delete k m
  end.

Section effects.
Context `{Sha256, Ed25519}.

Lemma wf_keyed r : registry_wf r → keyed (ar_grants_by_controller r).
Proof. intros Hw k v Hv. eapply stored_key, wf_valid; eauto. Qed.

(** Every effect keeps the registry well formed. *)
Lemma effect_wf r op v m' :
  registry_wf r → registry_effect (ar_host_device_id r) (ar_grants_by_controller r) op v m' →
  registry_wf {| ar_host_device_id := ar_host_device_id r; ar_grants_by_controller := m' |}.
Proof.
  intros Hw He. pose proof Hw as [Hh Hv Hi Hs]. destruct op as [c ps created|k at_ms|id]; simpl in He.
  - destruct He as (Hc&Hne&qs&Hq&[(_&->&_)|(Hm&->&Hlt&id&Hid&Hfresh&->)]); [by destruct r|].
    split; simpl; [done| | |].
    + intros k w [[<- <-]|[_ Hk]]%lookup_insert_Some; [|auto].
      eexists _, c. split_and!; [done..|]. by apply normalize_stored_Ok in Hq.
    + intros i k1 v1 k2 v2 [[<- <-]|[Hn1 Hk1]]%lookup_insert_Some [[<- <-]|[Hn2 Hk2]]%lookup_insert_Some H1 H2.
      * done.
      * unfold has_grant_id in H1. simpl in H1. boolsimpl. subst. by rewrite (Hfresh _ _ Hk2) in H2.
      * unfold has_grant_id in H2. simpl in H2. boolsimpl. subst. by rewrite (Hfresh _ _ Hk1) in H1.
      * by eapply Hi.
    + rewrite map_size_insert_None by done. lia.
  - destruct He as (old&Hm&->&->).
    assert (∀ k' v', <[k := {| ControllerGrantView_grant := ControllerGrantView_grant old;
      ControllerGrantView_last_successful_connection_at_unix_ms :=
        Z.max (ControllerGrantView_last_successful_connection_at_unix_ms old) at_ms |}]>
      (ar_grants_by_controller r) !! k' = Some v' →
      ∃ w, ar_grants_by_controller r !! k' = Some w ∧
        ControllerGrantView_grant v' = ControllerGrantView_grant w) as Hold.
    { intros k' v' [[<- <-]|[_ Hk]]%lookup_insert_Some; eauto. }
    split; simpl; [done| | |].
    + intros k' v' (w&Hk&Hg)%Hold. destruct (Hv _ _ Hk) as (g&c&?&Hrest). exists g, c.
      by rewrite Hg.
    + intros i k1 v1 k2 v2 (w1&Hk1&Hg1)%Hold (w2&Hk2&Hg2)%Hold H1 H2. eapply (Hi i); [done..| |].
      * unfold has_grant_id in *. by rewrite <- Hg1.
      * unfold has_grant_id in *. by rewrite <- Hg2.
    + by rewrite map_size_insert_Some by by eexists.
  - destruct He as (k&Hm&_&->). split; simpl; [done| | |].
    + intros k' v' [_ Hk]%lookup_delete_Some. auto.
    + intros i k1 v1 k2 v2 [_ Hk1]%lookup_delete_Some [_ Hk2]%lookup_delete_Some. by eapply Hi.
    + rewrite map_size_delete_Some by by eexists. lia.
Qed.

Lemma load_each_wf host m :
  len host = DEVICE_ID_BYTES → ∀ l, len l <= MAX_CONTROLLER_GRANTS → load_each host l ∅ ∅ = Ok m →
  registry_wf {| ar_host_device_id := host; ar_grants_by_controller := m |}.
Proof.
  intros Hh l Hl (L&->&Hok&Hn&_&Hni&_&->)%load_each_iff. rewrite (right_id_L ∅ (∪)).
  assert (∀ k v, (list_to_map L : gmap bytes ControllerGrantView) !! k = Some v → (k, v) ∈ L) as Hin
    by (intros k v; apply elem_of_list_to_map_2).
  split; simpl; [done| | |].
  - auto.
  - intros id k1 v1 k2 v2 Hk1%Hin Hk2%Hin H1 H2.
    rewrite (has_id_iff _ _ _ _ (Hok _ _ Hk1)) in H1. rewrite (has_id_iff _ _ _ _ (Hok _ _ Hk2)) in H2.
    rewrite <- list_fmap_compose in Hni.
    assert ((k1, v1) = (k2, v2)) as Heq; [|congruence].
    eapply NoDup_fmap_eq; [exact Hni|done|done|]. simpl. congruence.
  - rewrite <- length_map_to_list. rewrite map_to_list_to_map by done.
    unfold len in Hl. by rewrite length_fmap in Hl.
Qed.

(** Loading the grants a well-formed registry lists gives back its grants. *)
Lemma load_each_values r :
  registry_wf r →
  load_each (ar_host_device_id r) (list_controller_grants r) ∅ ∅ = Ok (ar_grants_by_controller r).
Proof.
  intros Hw. pose proof Hw as [Hh Hv Hi Hs]. apply load_each_iff.
  exists (btree_entries (ar_grants_by_controller r)).
  assert (∀ k v, (k, v) ∈ btree_entries (ar_grants_by_controller r) →
    stored_grant_ok (ar_host_device_id r) k v) as Hok.
  { intros k v Hin. apply Hv. by apply elem_of_btree_entries. }
  split_and!; [done|done|apply btree_entries_NoDup|by intros; apply lookup_empty| |set_solver|].
  - rewrite <- list_fmap_compose. apply NoDup_fmap_2_strong.
    + intros [k1 v1] [k2 v2] H1 H2 He. simpl in He.
      assert (k1 = k2) as ->.
      { eapply (Hi (id_of v1)); [by apply elem_of_btree_entries|by apply elem_of_btree_entries| |].
        - by eapply (has_id_iff _ _ _ _ (Hok _ _ H1)).
        - by eapply (has_id_iff _ _ _ _ (Hok _ _ H2)). }
      apply elem_of_btree_entries in H1, H2. congruence.
    + eapply NoDup_fmap_1, btree_entries_NoDup.
  - rewrite (right_id_L ∅ (∪)). rewrite <- (list_to_map_to_list (ar_grants_by_controller r)) at 1.
    apply list_to_map_proper; [apply NoDup_fst_map_to_list|]. by rewrite btree_entries_perm.
Qed.
End effects.

Section operations.
Context `{Sha256, Ed25519} {W G : Type} `{GrantStoreLaws W, RandomSource G} `{!RandomLaws G}.

Implicit Types s : RegistryState W G.

Definition registry_exec (op : RegistryOp) : M (RegistryState W G) AuthorizationError ControllerGrantView :=
  match op with
  | RO_Create c ps created => create_controller_grant c ps created
  | RO_Record k at_ms => record_authenticated_session k at_ms
  | RO_Revoke id => revoke_controller_grant id
  end.

Fixpoint registry_run (ops : list RegistryOp) s
    : list (result AuthorizationError ControllerGrantView) * RegistryState W G :=
  match ops with
  | [] => ([], s)
  | op :: ops =>
      let '(r, s) := registry_exec op s in
      let '(rs, s) := registry_run ops s in (r :: rs, s)
  end.

Definition is_store_error (r : result AuthorizationError ControllerGrantView) : bool :=
  match r with Err (AE_Store _) => true | _ => false end.

(** What the store holds loads as the registry's grants. *)
Definition in_store s : Prop :=
  let host := ar_host_device_id (rs_registry s) in
  ∃ gs, stored (rs_store s) host = Some gs ∧ len gs <= MAX_CONTROLLER_GRANTS ∧
    load_each host gs ∅ ∅ = Ok (ar_grants_by_controller (rs_registry s)).

(** The outcome of an operation: its effect on success, nothing on failure; the store follows,
    and after a failing store holds either the old grants or the ones that were to be stored. *)
Definition registry_outcome (op : RegistryOp) s
    (r : result AuthorizationError ControllerGrantView) (s' : RegistryState W G) : Prop :=
  let host := ar_host_device_id (rs_registry s) in
  let m := ar_grants_by_controller (rs_registry s) in
  let m' := ar_grants_by_controller (rs_registry s') in
  ar_host_device_id (rs_registry s') = host ∧
  match r with
  | Ok v =>
      registry_effect host m op v m' ∧
      (stored (rs_store s') host = Some (btree_values m') ∨ (m' = m ∧ rs_store s' = rs_store s))
  | Err e =>
      m' = m ∧
      (rs_store s' = rs_store s ∨
       (is_store_error (Err e) = true ∧
        (stored (rs_store s') host = stored (rs_store s) host ∨
         ∃ v next, registry_effect host m op v next ∧
           stored (rs_store s') host = Some (btree_values next))))
  end.

Lemma generate_spec n s r s' :
  generate_grant_id n s = (r, s') →
  rs_registry s' = rs_registry s ∧ rs_store s' = rs_store s ∧
  match r with
  | Ok id => len id = GRANT_ID_BYTES ∧
      ∀ k w, ar_grants_by_controller (rs_registry s) !! k = Some w → has_grant_id id w = false
  | Err e => e = AE_RandomGeneration
  end.
Proof.
  revert s. induction n as [|n IH]; intros s Hr; cbn [generate_grant_id] in Hr.
  { by injection Hr as <- <-. }
  rewrite bind_run in Hr. unfold map_err_m, zoom in Hr.
  destruct (random_bytes GRANT_ID_BYTES (rs_random s)) as [[id|e] g] eqn:Hf; simpl in Hr; [|by simplify_eq].
  apply random_len in Hf; [|done]. rewrite bind_get in Hr. cbn [rs_registry set_rs_random] in Hr.
  destruct (existsb _ _) eqn:Hx; cbn [negb] in Hr.
  - apply IH in Hr. exact Hr.
  - unfold mret, M_ret in Hr. simplify_eq. split_and!; [done..|]. intros k w Hk.
    apply not_true_is_false. intros Hg. apply not_true_iff_false in Hx. apply Hx.
    apply existsb_exists. exists w. split; [|done]. apply list_elem_of_In.
    apply elem_of_btree_values. eauto.
Qed.

Lemma persist_spec gs s r s' :
  persist gs s = (r, s') →
  rs_registry s' = rs_registry s ∧
  let host := ar_host_device_id (rs_registry s) in
  match r with
  | Ok _ => stored (rs_store s') host = Some gs
  | Err e => is_store_error (Err e) = true ∧
      (stored (rs_store s') host = Some gs ∨ stored (rs_store s') host = stored (rs_store s) host)
  end.
Proof.
  unfold persist. rewrite bind_get. unfold map_err_m, zoom. cbn zeta.
  pose proof (persist_ok (ar_host_device_id (rs_registry s)) gs (rs_store s)) as Hok.
  pose proof (persist_old_or_new (ar_host_device_id (rs_registry s)) gs (rs_store s)) as Hon.
  destruct (store_persist _ gs (rs_store s)) as [[[]|e] w]; simpl in *; intros; simplify_eq/=; eauto.
Qed.

(** Persisting, then changing the grants: the tail every operation shares. *)
Lemma persist_then next m v s r s' op :
  (persist next;; modify (set_rs_grants m);; mret v) s = (r, s') →
  next = btree_values m →
  registry_effect (ar_host_device_id (rs_registry s)) (ar_grants_by_controller (rs_registry s)) op v m →
  registry_outcome op s r s'.
Proof.
  intros Hr Hnext He. rewrite bind_run in Hr. destruct (persist next s) as [rp s1] eqn:Hp.
  apply persist_spec in Hp as [Hreg Hp]. destruct rp as [[]|e].
  - unfold modify, mret, M_ret in Hr. rewrite bind_run in Hr. simplify_eq. unfold registry_outcome.
    cbn [rs_registry rs_store set_rs_grants ar_grants_by_controller ar_host_device_id].
    rewrite Hreg. split; [done|]. split; [done|]. by left.
  - simplify_eq. unfold registry_outcome. rewrite Hreg. split; [done|]. split; [done|]. right.
    destruct Hp as [Hse Hs]. split; [done|]. destruct Hs as [Hs|Hs]; [right; eauto|by left].
Qed.

(** An operation that stops before it persists. *)
Lemma outcome_unchanged op s e s' :
  rs_registry s' = rs_registry s → rs_store s' = rs_store s → registry_outcome op s (Err e) s'.
Proof. intros Hr Hs. unfold registry_outcome. rewrite Hr. split_and!; [done..|by left]. Qed.

(** An operation that finds its effect already there. *)
Lemma outcome_same op s v :
  registry_effect (ar_host_device_id (rs_registry s)) (ar_grants_by_controller (rs_registry s)) op v
    (ar_grants_by_controller (rs_registry s)) →
  registry_outcome op s (Ok v) s.
Proof. intros He. split; [done|]. split; [done|]. by right. Qed.

Lemma create_outcome c ps created s r s' :
  registry_wf (rs_registry s) → create_controller_grant c ps created s = (r, s') →
  registry_outcome (RO_Create c ps created) s r s'.
Proof.
  intros Hw Hr. pose proof (wf_keyed _ Hw) as Hk. unfold create_controller_grant in Hr.
  rewrite bind_get, bind_lift in Hr.
  destruct (validate_controller c) as [[]|e] eqn:Hv; [|injection Hr as <- <-; by apply outcome_unchanged].
  rewrite bind_fail_if in Hr.
  destruct (bool_decide _) eqn:Hself; [injection Hr as <- <-; by apply outcome_unchanged|]. boolsimpl.
  rewrite bind_lift in Hr.
  destruct (normalize_grant_permissions ps) as [qs|e] eqn:Hq; [|injection Hr as <- <-; by apply outcome_unchanged].
  destruct (controller_grant _ _) as [existing|] eqn:Hm.
  - destruct (ControllerGrantView_grant existing) as [g|] eqn:Hg;
      [rewrite bind_some in Hr|injection Hr as <- <-; by apply outcome_unchanged].
    destruct (_ && _) eqn:Hsame in Hr; [|injection Hr as <- <-; by apply outcome_unchanged].
    boolsimpl. injection Hr as <- <-. apply outcome_same. split_and!; [done..|].
    exists qs. split; [done|]. left. split_and!; [done..|]. by exists g.
  - rewrite bind_fail_if in Hr.
    destruct (_ <=? _) eqn:Hfull in Hr; [injection Hr as <- <-; by apply outcome_unchanged|]. boolsimpl.
    rewrite bind_run in Hr. destruct (generate_grant_id _ s) as [[id|e] s1] eqn:Hid;
      apply generate_spec in Hid as (Hreg&Hst&Hfresh); [|injection Hr as <- <-; by apply outcome_unchanged].
    destruct Hfresh as [Hl Hfresh].
    assert (∀ op r s2, registry_outcome op s1 r s2 → registry_outcome op s r s2) as Hfrom.
    { unfold registry_outcome. by rewrite Hreg, Hst. }
    apply Hfrom. eapply persist_then; [exact Hr| |].
    + apply sort_inserted; [done|done|exact Hm].
    + rewrite Hreg. split_and!; [done..|]. exists qs. split; [done|]. right.
      split_and!; [exact Hm|done|lia|]. by exists id.
Qed.

Lemma record_outcome k at_ms s r s' :
  registry_wf (rs_registry s) → record_authenticated_session k at_ms s = (r, s') →
  registry_outcome (RO_Record k at_ms) s r s'.
Proof.
  intros Hw Hr. pose proof (wf_keyed _ Hw) as Hk. unfold record_authenticated_session in Hr.
  rewrite bind_get in Hr.
  destruct (controller_grant _ k) as [old|] eqn:Hm;
    [rewrite bind_some in Hr|injection Hr as <- <-; by apply outcome_unchanged].
  unfold controller_grant in Hm. destruct (_ <=? _) eqn:Hle in Hr; boolsimpl.
  - injection Hr as <- <-. apply outcome_same. exists old. rewrite insert_id by done.
    split_and!; [done..|]. rewrite Z.max_l by done. by destruct old.
  - cbn zeta in Hr. unfold list_controller_grants in Hr. rewrite (replace_updated _ _ old) in Hr;
      [|done|done|by unfold controller_device_id_for in *; simpl; apply (Hk _ _ Hm)].
    rewrite bind_some in Hr. eapply persist_then; [exact Hr|done|]. exists old.
    by rewrite Z.max_r by lia.
Qed.

Lemma revoke_outcome id s r s' :
  registry_wf (rs_registry s) → revoke_controller_grant id s = (r, s') →
  registry_outcome (RO_Revoke id) s r s'.
Proof.
  intros Hw Hr. pose proof (wf_keyed _ Hw) as Hk. unfold revoke_controller_grant in Hr.
  rewrite bind_get in Hr.
  destruct (find _ _) as [[k v]|] eqn:Hf; [rewrite bind_some in Hr|injection Hr as <- <-; by apply outcome_unchanged].
  apply find_some in Hf as [Hin Hid]. apply list_elem_of_In, elem_of_btree_entries in Hin. simpl in Hid, Hr.
  unfold list_controller_grants, controller_grant in Hr. rewrite (filter_deleted _ _ v) in Hr by done.
  rewrite Hin in Hr. eapply (persist_then _ _ v); [exact Hr|done|]. by exists k.
Qed.

Lemma registry_exec_outcome op s r s' :
  registry_wf (rs_registry s) → registry_exec op s = (r, s') →
  registry_outcome op s r s' ∧ registry_wf (rs_registry s').
Proof.
  intros Hw Hr.
  assert (registry_outcome op s r s') as Ho.
  { destruct op; simpl in Hr; [by apply create_outcome|by apply record_outcome|by apply revoke_outcome]. }
  split; [done|]. unfold registry_outcome in Ho. destruct Ho as [Hh Ho].
  destruct (rs_registry s') as [h' m'] eqn:Hs'. simpl in *. subst h'. destruct r as [v|e].
  - destruct Ho as [He _]. by eapply effect_wf.
  - destruct Ho as [-> _]. by destruct (rs_registry s).
Qed.

Lemma in_store_step op s r s' :
  registry_outcome op s r s' → registry_wf (rs_registry s') → is_store_error r = false →
  in_store s → in_store s'.
Proof.
  unfold registry_outcome, in_store. intros [Hh Ho] Hw Hne Hs. rewrite Hh.
  destruct r as [v|e].
  - destruct Ho as [_ [Hst|[-> ->]]]; [|done]. eexists. split; [exact Hst|].
    split; [|rewrite <- Hh; by apply load_each_values].
    unfold len. rewrite btree_length. apply (wf_size _ Hw).
  - destruct Ho as [-> [->|[He _]]]; congruence.
Qed.

Lemma registry_run_in_store ops s :
  registry_wf (rs_registry s) → in_store s → Forall (λ r, is_store_error r = false) (registry_run ops s).1 →
  let s' := (registry_run ops s).2 in
  registry_wf (rs_registry s') ∧ in_store s' ∧
  ar_host_device_id (rs_registry s') = ar_host_device_id (rs_registry s).
Proof.
  revert s. induction ops as [|op ops IH]; intros s Hw Hs; [done|]. cbn [registry_run].
  destruct (registry_exec op s) as [r s1] eqn:He. destruct (registry_run ops s1) as [rs s2] eqn:Hrun.
  cbn [fst snd]. intros [Hr Hrs]%Forall_cons.
  apply registry_exec_outcome in He as [Ho Hw1]; [|done].
  pose proof (IH s1 Hw1 (in_store_step _ _ _ _ Ho Hw1 Hr Hs)) as Hx. rewrite Hrun in Hx.
  destruct Hx as (?&?&Hh); [done|]. split_and!; [done..|]. simpl in Hh. rewrite Hh. apply Ho.
Qed.

Lemma load_spec host w r w' :
  AuthorizationRegistry_load host w = (r, w') →
  stored w' host = stored w host ∧
  match r with
  | Ok reg => ar_host_device_id reg = host ∧ registry_wf reg ∧
      ∃ gs, stored w host = Some gs ∧ len gs <= MAX_CONTROLLER_GRANTS ∧
        load_each host gs ∅ ∅ = Ok (ar_grants_by_controller reg)
  | Err (AE_Store _) => True
  | Err e => len host ≠ DEVICE_ID_BYTES ∨
      ∃ gs, stored w host = Some gs ∧
        (MAX_CONTROLLER_GRANTS < len gs ∨ load_each host gs ∅ ∅ = Err e)
  end.
Proof.
  unfold AuthorizationRegistry_load. intros Hr. rewrite bind_fail_if in Hr.
  destruct (negb _) eqn:Hh; [injection Hr as <- <-; boolsimpl; auto|]. boolsimpl.
  rewrite bind_run in Hr. unfold map_err_m in Hr.
  pose proof (load_keeps host w host) as Hk. pose proof (load_tells host w) as Ht.
  destruct (store_load host w) as [[gs|e] w1]; simpl in Hr, Hk, Ht; [|by injection Hr as <- <-].
  specialize (Ht gs eq_refl). rewrite bind_fail_if in Hr.
  destruct (_ <? _) eqn:Hmax; [injection Hr as <- <-; boolsimpl; split; [done|right; eauto]|]. boolsimpl.
  rewrite bind_lift in Hr. destruct (load_each host gs ∅ ∅) as [m|e] eqn:Hl.
  - unfold mret, M_ret in Hr. injection Hr as <- <-. split; [done|]. simpl. split; [done|].
    split; [by eapply load_each_wf|]. eauto.
  - injection Hr as <- <-. split; [done|]. destruct e; eauto 6.
Qed.
End operations.

(** * Properties *)

(** C23. The registry does exactly what its operations say, on every branch: from a well-formed
    registry, a created grant is validated, not the Host's own, within the limit and under an
    identifier no other grant has, or is the identical grant that was there; an authenticated
    session only advances the time of its controller's grant; a revocation removes exactly the
    grant named. The store then holds the new grants in order. A failure changes no grant, and
    the store only if the store itself failed, and then only to the grants it was asked to
    hold. The registry stays well formed. *)
Theorem registry_exec_exact `{Sha256, Ed25519} {W G : Type} `{GrantStoreLaws W, RandomSource G}
    `{!RandomLaws G} (op : RegistryOp) (s : RegistryState W G) :
  registry_wf (rs_registry s) →
  let '(r, s') := registry_exec op s in
  registry_outcome op s r s' ∧ registry_wf (rs_registry s').
Proof.
  intros Hw. destruct (registry_exec op s) as [r s'] eqn:Hr. by apply registry_exec_outcome.
Qed.

(** The outcome of loading the registry again from the store of [s]. *)
Definition reloads `{Sha256, Ed25519} {W G : Type} `{GrantStore W} (s : RegistryState W G) : Prop :=
  match (AuthorizationRegistry_load (ar_host_device_id (rs_registry s)) (rs_store s)).1 with
  | Ok r => r = rs_registry s
  | Err e => ∃ error, e = AE_Store error
  end.

(** C24. The grants survive a restart: after a registry was loaded and any operations ran whose
    persisting did not fail, loading again finds exactly the grants the registry held, in
    memory as on disk, or fails in the store. No grant is lost, no revoked grant comes back,
    and the store never holds grants the Host would refuse. *)
Theorem registry_survives_restart `{Sha256, Ed25519} {W G : Type} `{GrantStoreLaws W, RandomSource G}
    `{!RandomLaws G} (host : bytes) (w w0 : W) (registry : AuthorizationRegistry) (g : G)
    (ops : list RegistryOp) :
  AuthorizationRegistry_load host w = (Ok registry, w0) →
  let '(rs, s) := registry_run ops {| rs_registry := registry; rs_store := w0; rs_random := g |} in
  Forall (λ r, is_store_error r = false) rs → reloads s.
Proof.
  intros (Hkeep&<-&Hw&Hin)%load_spec. destruct (registry_run ops _) as [rs s] eqn:Hrun. intros Hrs.
  destruct (registry_run_in_store ops {| rs_registry := registry; rs_store := w0; rs_random := g |})
    as (Hw'&(gs&Hgs&Hmax&Hl)&_); [done| |by rewrite Hrun|].
  { unfold in_store. simpl. by rewrite Hkeep. }
  rewrite Hrun in *. simpl in *. unfold reloads.
  destruct (AuthorizationRegistry_load _ (rs_store s)) as [r w2] eqn:Hload.
  apply load_spec in Hload as [_ Hr]. simpl. destruct r as [reg|e].
  - destruct Hr as (Hh&_&gs'&Hgs'&_&Hl'). rewrite Hgs in Hgs'. simplify_eq.
    rewrite Hl in Hl'. simplify_eq. destruct reg, (rs_registry s). simpl in *. by subst.
  - destruct e; [by eexists|..]; destruct Hr as [Hr|(gs'&Hgs'&[Hr|Hr])];
      try (by destruct Hw'); rewrite Hgs in Hgs'; simplify_eq; first [lia|congruence].
Qed.

(** * A concrete registry *)

#[local] Instance toy_digest : Sha256 := { sha256 b := be_bytes 32 (len b) }.

#[export] Instance toy_ed25519 : Ed25519 := {
  is_verifying_key _ := true;
  is_signature s := len s =? 64;
  ed25519_verify key message signature :=
    bool_decide (signature = be_bytes 64 (be_val key + be_val message));
  ed25519_public seed := be_bytes 32 (be_val seed);
  ed25519_sign seed message := be_bytes 64 (be_val (be_bytes 32 (be_val seed)) + be_val message)
}.

#[local] Instance toy_registry_code : Message HostAuthorizationSnapshot := {
  encode_to_vec s := HostAuthorizationSnapshot_host_device_id s; decode _ := None
}.

#[export] Instance toy_random : RandomSource Z := { random_bytes n z := (Ok (be_bytes (Z.to_nat n) z), z + 1) }.

Definition toy_device (n : Z) : DeviceIdentity :=
  {| DeviceIdentity_device_id := be_bytes 32 63;
     DeviceIdentity_public_key_algorithm := to_i32 PublicKeyAlgorithm_Ed25519;
     DeviceIdentity_public_key := be_bytes 32 n; DeviceIdentity_display_name := lit "phone";
     DeviceIdentity_platform := to_i32 DevicePlatform_Ios |}.

Definition toy_registry : RegistryState MemoryGrantStore Z :=
  {| rs_registry := {| ar_host_device_id := be_bytes 32 7; ar_grants_by_controller := ∅ |};
     rs_store := MemoryGrantStore_new; rs_random := 5 |}.

Definition toy_registry_ops : list RegistryOp :=
  [RO_Create (toy_device 1) [SessionPermission_ControlInput; SessionPermission_ViewScreen] 10;
   RO_Record (be_bytes 32 63) 20; RO_Revoke (be_bytes 16 9)].

Example toy_registry_runs :
  map is_ok (registry_run toy_registry_ops toy_registry).1 = [true; true; false].
Proof. vm_compute. reflexivity. Qed.

#[export] Instance toy_random_laws : RandomLaws Z.
Proof.
  split. intros n g b g' Hn. unfold random_bytes, toy_random. intros; simplify_eq.
  rewrite len_be_bytes. lia.
Qed.

Lemma toy_registry_wf : registry_wf (rs_registry toy_registry).
Proof. split; simpl; done. Qed.

Lemma registry_exec_exact_witness :
  registry_wf (rs_registry toy_registry) ∧
  let op := RO_Create (toy_device 1) [SessionPermission_ViewScreen] 10 in
  let '(r, s') := registry_exec op toy_registry in
  registry_outcome op toy_registry r s' ∧ registry_wf (rs_registry s').
Proof.
  split; [exact toy_registry_wf|].
  exact (registry_exec_exact (RO_Create (toy_device 1) [SessionPermission_ViewScreen] 10)
           toy_registry toy_registry_wf).
Defined.

Lemma registry_survives_restart_witness :
  let '(rs, s) := registry_run toy_registry_ops toy_registry in
  Forall (λ r, is_store_error r = false) rs ∧ reloads s.
Proof.
  pose proof (registry_survives_restart (be_bytes 32 7) MemoryGrantStore_new MemoryGrantStore_new
    (rs_registry toy_registry) 5 toy_registry_ops eq_refl) as Hr.
  change (registry_run toy_registry_ops _) with (registry_run toy_registry_ops toy_registry) in Hr.
  assert (forallb (λ r, negb (is_store_error r)) (registry_run toy_registry_ops toy_registry).1 = true)
    as Hf by (vm_compute; reflexivity).
  destruct (registry_run toy_registry_ops toy_registry) as [rs s].
  assert (Forall (λ r, is_store_error r = false) rs) as Hrs.
  { apply Forall_forall. intros r Hin. apply list_elem_of_In in Hin.
    apply (proj1 (forallb_forall _ _) Hf) in Hin. by apply negb_true_iff in Hin. }
  split; [exact Hrs|exact (Hr Hrs)].
Defined.
