(* ===== verification/SessionAuth.v ===== *)
(** Authentication of a remote session, crates/host-agent/src/session_auth.rs: the offer a
    controller signs, checked against the grants of Authorization.v before a peer connection
    exists, and the transcripts of Transcript.v that offer, answer and reconnect sign. *)
From S2P Require Import Prelude Limits Messages Crypto Containers Transcript Authorization.

Local Open Scope Z_scope.

(** * Data *)

Definition SESSION_AUTH_MAX_LIFETIME_MS : Z := 30000.
Definition SESSION_AUTH_FUTURE_SKEW_MS : Z := 10000.
Definition MAX_REPLAY_CACHE_ENTRIES : Z := 1024.

Inductive SessionAuthenticationError :=
| SA_InvalidHostIdentity | SA_InvalidOffer | SA_HostMismatch | SA_NotYetValid | SA_Expired
| SA_LifetimeTooLong | SA_InvalidPermissions | SA_ControllerNotAuthorized | SA_PermissionDenied
| SA_OfferHashMismatch | SA_FingerprintMismatch | SA_InvalidSignature | SA_Replay
| SA_ReplayCacheFull | SA_InvalidTranscript.

#[export] Instance SessionAuthenticationError_eq_dec : EqDecision SessionAuthenticationError.
Proof. solve_decision. Defined.

Record VerifiedSessionOffer := {
  vo_controller : DeviceIdentity;
  vo_session_id : bytes;
  vo_permissions : list SessionPermission
}.

(** [used_nonces]: the nonce keys with the expiry of their offer. *)
Record OfferVerifier := {
  ov_host_device_id : bytes;
  ov_used_nonces : gmap bytes Z
}.

Definition OfferVerifier_new (host_device_id : bytes)
    : result SessionAuthenticationError OfferVerifier :=
  fail_if (negb (len host_device_id =? DEVICE_ID_BYTES)) SA_InvalidHostIdentity;;
  mret {| ov_host_device_id := host_device_id; ov_used_nonces := ∅ |}.

(** * The checks *)

Definition validate_fixed_fields (a : SessionOfferAuthentication)
    : result SessionAuthenticationError unit :=
  fail_if (negb (len (SessionOfferAuthentication_controller_device_id a) =? DEVICE_ID_BYTES) ||
           negb (len (SessionOfferAuthentication_host_device_id a) =? DEVICE_ID_BYTES) ||
           negb (len (SessionOfferAuthentication_session_id a) =? SESSION_ID_BYTES) ||
           negb (len (SessionOfferAuthentication_nonce a) =? NONCE_OR_HASH_BYTES) ||
           negb (len (SessionOfferAuthentication_offer_sha256 a) =? NONCE_OR_HASH_BYTES) ||
           negb (len (SessionOfferAuthentication_controller_dtls_fingerprint_sha256 a) =?
                 NONCE_OR_HASH_BYTES) ||
           negb (len (SessionOfferAuthentication_signature a) =? SIGNATURE_BYTES)) SA_InvalidOffer.

Definition validate_time (a : SessionOfferAuthentication) (now_unix_ms : Z)
    : result SessionAuthenticationError unit :=
  lifetime ← ok_or (checked_sub (SessionOfferAuthentication_expires_at_unix_ms a)
                                (SessionOfferAuthentication_issued_at_unix_ms a)) SA_Expired;
  fail_if (SESSION_AUTH_MAX_LIFETIME_MS <? lifetime) SA_LifetimeTooLong;;
  fail_if (saturating_add U64_MAX now_unix_ms SESSION_AUTH_FUTURE_SKEW_MS <?
           SessionOfferAuthentication_issued_at_unix_ms a) SA_NotYetValid;;
  fail_if (SessionOfferAuthentication_expires_at_unix_ms a <? now_unix_ms) SA_Expired.

Fixpoint normalize_requested (values : list Z) (previous : option Z)
    : result SessionAuthenticationError (list SessionPermission) :=
  match values with
  | [] => Ok []
  | value :: values =>
      permission ← ok_or (SessionPermission_try_from value) SA_InvalidPermissions;
      fail_if (bool_decide (permission = SessionPermission_Unspecified) ||
               match previous with Some previous => value <=? previous | None => false end)
              SA_InvalidPermissions;;
      permissions ← normalize_requested values (Some value);
      mret (permission :: permissions)
  end.

Definition normalize_permissions (values : list Z)
    : result SessionAuthenticationError (list SessionPermission) :=
  fail_if (bool_decide (values = [])) SA_InvalidPermissions;;
  permissions ← normalize_requested values None;
  fail_if (bool_decide (SessionPermission_ControlInput ∈ permissions) &&
           negb (bool_decide (SessionPermission_ViewScreen ∈ permissions))) SA_InvalidPermissions;;
  mret permissions.

Definition permission_bits (values : list Z) : result SessionAuthenticationError Z :=
  permissions ← normalize_permissions values;
  mret (foldl (λ bits permission, Z.lor bits (to_i32 permission)) 0 permissions).

Definition verify_signature `{Ed25519} (controller : DeviceIdentity) (transcript signature : bytes)
    : result SessionAuthenticationError unit :=
  public_key ← ok_or (array_of 32 (DeviceIdentity_public_key controller)) SA_InvalidSignature;
  fail_if (negb (is_verifying_key public_key)) SA_InvalidSignature;;
  fail_if (negb (is_signature signature)) SA_InvalidSignature;;
  fail_if (negb (ed25519_verify public_key transcript signature)) SA_InvalidSignature.

Definition nonce_key (a : SessionOfferAuthentication) : bytes :=
  SessionOfferAuthentication_controller_device_id a ++ SessionOfferAuthentication_nonce a.

(** * Transcripts *)

Definition field (tag : Z) (value : bytes) : TranscriptField := {| tf_tag := tag; tf_value := value |}.

Definition encode_session_offer_transcript (a : SessionOfferAuthentication)
    : result SessionAuthenticationError bytes :=
  bits ← permission_bits (SessionOfferAuthentication_requested_permissions a);
  map_err (λ _, SA_InvalidTranscript) (encode_transcript
    {| ct_purpose := SessionOffer;
       ct_fields :=
         [field 1 (SessionOfferAuthentication_controller_device_id a);
          field 2 (SessionOfferAuthentication_host_device_id a);
          field 8 (SessionOfferAuthentication_session_id a);
          field 9 (SessionOfferAuthentication_nonce a);
          field 10 (be_bytes 8 (SessionOfferAuthentication_issued_at_unix_ms a));
          field 11 (be_bytes 8 (SessionOfferAuthentication_expires_at_unix_ms a));
          field 12 (be_bytes 4 bits);
          field 13 (SessionOfferAuthentication_offer_sha256 a);
          field 14 (SessionOfferAuthentication_controller_dtls_fingerprint_sha256 a)] |}).

Definition encode_session_answer_transcript (a : SessionAnswerAuthentication)
    : result SessionAuthenticationError bytes :=
  bits ← permission_bits (SessionAnswerAuthentication_requested_permissions a);
  map_err (λ _, SA_InvalidTranscript) (encode_transcript
    {| ct_purpose := SessionAnswer;
       ct_fields :=
         [field 1 (SessionAnswerAuthentication_controller_device_id a);
          field 2 (SessionAnswerAuthentication_host_device_id a);
          field 8 (SessionAnswerAuthentication_session_id a);
          field 9 (SessionAnswerAuthentication_nonce a);
          field 10 (be_bytes 8 (SessionAnswerAuthentication_issued_at_unix_ms a));
          field 11 (be_bytes 8 (SessionAnswerAuthentication_expires_at_unix_ms a));
          field 12 (be_bytes 4 bits);
          field 13 (SessionAnswerAuthentication_offer_sha256 a);
          field 14 (SessionAnswerAuthentication_controller_dtls_fingerprint_sha256 a);
          field 15 (SessionAnswerAuthentication_answer_sha256 a);
          field 16 (SessionAnswerAuthentication_host_dtls_fingerprint_sha256 a)] |}).

Definition encode_session_reconnect_transcript (a : SessionReconnectAuthentication)
    : result SessionAuthenticationError bytes :=
  bits ← permission_bits (SessionReconnectAuthentication_requested_permissions a);
  map_err (λ _, SA_InvalidTranscript) (encode_transcript
    {| ct_purpose := SessionReconnect;
       ct_fields :=
         [field 1 (SessionReconnectAuthentication_controller_device_id a);
          field 2 (SessionReconnectAuthentication_host_device_id a);
          field 8 (SessionReconnectAuthentication_session_id a);
          field 9 (SessionReconnectAuthentication_nonce a);
          field 10 (be_bytes 8 (SessionReconnectAuthentication_issued_at_unix_ms a));
          field 11 (be_bytes 8 (SessionReconnectAuthentication_expires_at_unix_ms a));
          field 12 (be_bytes 4 bits);
          field 13 (SessionReconnectAuthentication_offer_sha256 a);
          field 14 (SessionReconnectAuthentication_controller_dtls_fingerprint_sha256 a);
          field 15 (SessionReconnectAuthentication_answer_sha256 a);
          field 16 (SessionReconnectAuthentication_host_dtls_fingerprint_sha256 a);
          field 17 (be_bytes 4 (SessionReconnectAuthentication_reconnect_generation a))] |}).

(** * Verification *)

Section verify.
Context `{Sha256, Ed25519}.

(** The pure checks of [verify], in their order: the controller and the permissions. *)
Definition check_offer (host_device_id : bytes) (a : SessionOfferAuthentication) (offer_sdp : text)
    (controller_dtls_fingerprint_sha256 : bytes) (authorization : AuthorizationRegistry)
    (now_unix_ms : Z) : result SessionAuthenticationError (DeviceIdentity * list SessionPermission) :=
  validate_fixed_fields a;;
  fail_if (negb (bool_decide (SessionOfferAuthentication_host_device_id a = host_device_id)))
          SA_HostMismatch;;
  validate_time a now_unix_ms;;
  permissions ← normalize_permissions (SessionOfferAuthentication_requested_permissions a);
  fail_if (negb (bool_decide (SessionOfferAuthentication_offer_sha256 a = sha256 (as_bytes offer_sdp))))
          SA_OfferHashMismatch;;
  fail_if (negb (bool_decide (SessionOfferAuthentication_controller_dtls_fingerprint_sha256 a =
                              controller_dtls_fingerprint_sha256))) SA_FingerprintMismatch;;
  grant_view ← ok_or (controller_grant authorization (SessionOfferAuthentication_controller_device_id a))
                     SA_ControllerNotAuthorized;
  grant ← ok_or (ControllerGrantView_grant grant_view) SA_ControllerNotAuthorized;
  controller ← ok_or (ControllerGrant_controller grant) SA_ControllerNotAuthorized;
  fail_if (existsb (λ permission, negb (bool_decide (to_i32 permission ∈ ControllerGrant_permissions grant)))
             permissions) SA_PermissionDenied;;
  transcript ← encode_session_offer_transcript a;
  verify_signature controller transcript (SessionOfferAuthentication_signature a);;
  mret (controller, permissions).

Definition OfferVerifier_verify (a : SessionOfferAuthentication) (offer_sdp : text)
    (controller_dtls_fingerprint_sha256 : bytes) (authorization : AuthorizationRegistry)
    (now_unix_ms : Z) : M OfferVerifier SessionAuthenticationError VerifiedSessionOffer :=
  self ← get;
  checked ← lift (check_offer (ov_host_device_id self) a offer_sdp controller_dtls_fingerprint_sha256
                    authorization now_unix_ms);
  let '(controller, permissions) := checked in
  let used := filter (λ entry, now_unix_ms <= entry.2) (ov_used_nonces self) in
  put {| ov_host_device_id := ov_host_device_id self; ov_used_nonces := used |};;
  fail_if (is_some (used !! nonce_key a)) SA_Replay;;
  fail_if (MAX_REPLAY_CACHE_ENTRIES <=? Z.of_nat (size used)) SA_ReplayCacheFull;;
  put {| ov_host_device_id := ov_host_device_id self;
         ov_used_nonces :=
           <[nonce_key a := SessionOfferAuthentication_expires_at_unix_ms a]> used |};;
  mret {| vo_controller := controller; vo_session_id := SessionOfferAuthentication_session_id a;
          vo_permissions := permissions |}.
End verify.

(** * Specification *)

(** An offer the Host [host] accepts at [now] from the controller [c], apart from replays. *)
Record offer_ok `{Sha256, Ed25519} (host : bytes) (a : SessionOfferAuthentication) (sdp : text)
    (fingerprint : bytes) (authorization : AuthorizationRegistry) (now : Z) (c : DeviceIdentity)
    (permissions : list SessionPermission) : Prop := {
  ok_lengths : len (SessionOfferAuthentication_controller_device_id a) = DEVICE_ID_BYTES ∧
    len (SessionOfferAuthentication_host_device_id a) = DEVICE_ID_BYTES ∧
    len (SessionOfferAuthentication_session_id a) = SESSION_ID_BYTES ∧
    len (SessionOfferAuthentication_nonce a) = NONCE_OR_HASH_BYTES ∧
    len (SessionOfferAuthentication_signature a) = SIGNATURE_BYTES;
  ok_host : SessionOfferAuthentication_host_device_id a = host;
  ok_time : SessionOfferAuthentication_issued_at_unix_ms a <=
      Z.min (now + SESSION_AUTH_FUTURE_SKEW_MS) U64_MAX ∧
    now <= SessionOfferAuthentication_expires_at_unix_ms a ∧
    0 <= SessionOfferAuthentication_expires_at_unix_ms a -
         SessionOfferAuthentication_issued_at_unix_ms a <= SESSION_AUTH_MAX_LIFETIME_MS;
  ok_permissions :
    (SessionOfferAuthentication_requested_permissions a = [1] ∧
     permissions = [SessionPermission_ViewScreen]) ∨
    (SessionOfferAuthentication_requested_permissions a = [1; 2] ∧
     permissions = [SessionPermission_ViewScreen; SessionPermission_ControlInput]);
  ok_hashes : SessionOfferAuthentication_offer_sha256 a = sha256 (as_bytes sdp) ∧
    len (sha256 (as_bytes sdp)) = NONCE_OR_HASH_BYTES ∧
    SessionOfferAuthentication_controller_dtls_fingerprint_sha256 a = fingerprint ∧
    len fingerprint = NONCE_OR_HASH_BYTES;
  ok_grant : ∃ view g,
    controller_grant authorization (SessionOfferAuthentication_controller_device_id a) = Some view ∧
    ControllerGrantView_grant view = Some g ∧ ControllerGrant_controller g = Some c ∧
    ∀ p, p ∈ permissions → to_i32 p ∈ ControllerGrant_permissions g;
  ok_signature : ∃ transcript, encode_session_offer_transcript a = Ok transcript ∧
    verify_signature c transcript (SessionOfferAuthentication_signature a) = Ok ()
}.

(** The nonces that count at [now]. *)
Definition live_nonces (used : gmap bytes Z) (now : Z) : gmap bytes Z :=
  filter (λ entry, now <= entry.2) used.

(** * Lemmas *)

Lemma normalize_requested_Ok values previous ps :
  normalize_requested values previous = Ok ps →
  ps = (if bool_decide (1 ∈ values) then [SessionPermission_ViewScreen] else []) ++
       (if bool_decide (2 ∈ values) then [SessionPermission_ControlInput] else []) ∧
  values = (if bool_decide (1 ∈ values) then [1] else []) ++
           (if bool_decide (2 ∈ values) then [2] else []) ∧
  ∀ p v, previous = Some p → v ∈ values → p < v.
Proof.
  revert previous ps. induction values as [|v values IH]; intros previous ps; cbn [normalize_requested].
  { intros [= <-]. split_and!; [done..|]. intros p v _ Hv. by apply elem_of_nil in Hv. }
  intros (p&Hp&(Hf%res_fail_if&Hr)%res_seq)%res_ok_or. boolsimpl.
  apply result_bind_Ok in Hr as (qs&Hq&[= <-]). apply IH in Hq as (->&Hv&Hlt).
  assert (∀ w, w ∈ values → v < w) as Hgt by eauto.
  assert (∀ p v0, previous = Some p → v0 ∈ v :: values → p < v0) as Hprev.
  { intros q w -> [->|Hw]%elem_of_cons; boolsimpl; [lia|]. specialize (Hgt w Hw). lia. }
  destruct (permission_cases _ _ Hp) as [->|[->| ->]]; [done|..]; simpl in Hp; simplify_eq.
  - rewrite (bool_decide_eq_false_2 (1 ∈ values)) in Hv |- * by (intros Hin; specialize (Hgt _ Hin); lia).
    rewrite (bool_decide_eq_true_2 (1 ∈ 1 :: values)) by left.
    assert (bool_decide (2 ∈ 1 :: values) = bool_decide (2 ∈ values)) as ->
      by (apply bool_decide_ext; set_solver).
    split_and!; [done| |done]. simpl in *. by rewrite <- Hv.
  - assert (values = []) as ->.
    { rewrite Hv. rewrite !bool_decide_eq_false_2; [done|..]; intros Hin; specialize (Hgt _ Hin); lia. }
    rewrite (bool_decide_eq_false_2 (1 ∈ [2])) by set_solver.
    rewrite (bool_decide_eq_true_2 (2 ∈ [2])) by set_solver. split_and!; [done|done|done].
Qed.

Lemma normalize_permissions_iff values ps :
  normalize_permissions values = Ok ps ↔
  (values = [1] ∧ ps = [SessionPermission_ViewScreen]) ∨
  (values = [1; 2] ∧ ps = [SessionPermission_ViewScreen; SessionPermission_ControlInput]).
Proof.
  split; [|intros [[-> ->]|[-> ->]]; by vm_compute].
  unfold normalize_permissions. intros (Hne%res_fail_if&Hr)%res_seq. boolsimpl.
  apply result_bind_Ok in Hr as (qs&(->&Hv&_)%normalize_requested_Ok&(Hf%res_fail_if&[= <-])%res_seq).
  destruct (bool_decide (1 ∈ values)), (bool_decide (2 ∈ values)); simpl in *; subst; auto.
  all: by vm_compute in Hf.
Qed.

Lemma permission_bits_iff values bits :
  permission_bits values = Ok bits ↔ (values = [1] ∧ bits = 1) ∨ (values = [1; 2] ∧ bits = 3).
Proof.
  split; [|intros [[-> ->]|[-> ->]]; by vm_compute].
  unfold permission_bits. intros (ps&Hps&[= <-])%result_bind_Ok.
  apply normalize_permissions_iff in Hps as [[-> ->]|[-> ->]]; auto.
Qed.

Section offers.
Context `{Sha256, Ed25519}.

Lemma fixed_fields_iff a :
  validate_fixed_fields a = Ok () ↔
  len (SessionOfferAuthentication_controller_device_id a) = DEVICE_ID_BYTES ∧
  len (SessionOfferAuthentication_host_device_id a) = DEVICE_ID_BYTES ∧
  len (SessionOfferAuthentication_session_id a) = SESSION_ID_BYTES ∧
  len (SessionOfferAuthentication_nonce a) = NONCE_OR_HASH_BYTES ∧
  len (SessionOfferAuthentication_offer_sha256 a) = NONCE_OR_HASH_BYTES ∧
  len (SessionOfferAuthentication_controller_dtls_fingerprint_sha256 a) = NONCE_OR_HASH_BYTES ∧
  len (SessionOfferAuthentication_signature a) = SIGNATURE_BYTES.
Proof.
  unfold validate_fixed_fields. rewrite res_fail_if, !orb_false_iff, !negb_false_iff, !Z.eqb_eq. tauto.
Qed.

Lemma time_iff a now :
  validate_time a now = Ok () ↔
  SessionOfferAuthentication_issued_at_unix_ms a <= Z.min (now + SESSION_AUTH_FUTURE_SKEW_MS) U64_MAX ∧
  now <= SessionOfferAuthentication_expires_at_unix_ms a ∧
  0 <= SessionOfferAuthentication_expires_at_unix_ms a - SessionOfferAuthentication_issued_at_unix_ms a
    <= SESSION_AUTH_MAX_LIFETIME_MS.
Proof.
  unfold validate_time, checked_sub, saturating_add. rewrite res_ok_or. split.
  - intros (l&Hl&(H1%res_fail_if&(H2%res_fail_if&H3%res_fail_if)%res_seq)%res_seq).
    destruct (_ <=? _) eqn:Hle in Hl; [|done]. boolsimpl. simplify_eq. lia.
  - intros (H1&H2&H3). eexists. split; [by rewrite (proj2 (Z.leb_le _ _)) by lia|].
    apply res_seq. split; [apply res_fail_if, Z.ltb_ge; lia|].
    apply res_seq. split; [apply res_fail_if, Z.ltb_ge; lia|apply res_fail_if, Z.ltb_ge; lia].
Qed.

Lemma check_offer_iff host a sdp fp authorization now c ps :
  check_offer host a sdp fp authorization now = Ok (c, ps) ↔
  offer_ok host a sdp fp authorization now c ps.
Proof.
  unfold check_offer. split.
  - intros (Hlen%fixed_fields_iff&(Hh%res_fail_if&(Ht%time_iff&Hr)%res_seq)%res_seq)%res_seq. boolsimpl.
    apply result_bind_Ok in Hr as (qs&Hq%normalize_permissions_iff&(Hs%res_fail_if&(Hf%res_fail_if&Hr)%res_seq)%res_seq).
    boolsimpl. apply res_ok_or in Hr as (view&Hview&(g&Hg&(c'&Hc&(Hp%res_fail_if&Hr)%res_seq)%res_ok_or)%res_ok_or).
    apply result_bind_Ok in Hr as (t&Ht2&(Hsig&[= -> ->])%res_seq).
    destruct Hlen as (?&?&?&?&?&?&?). split; try done.
    + split_and!; try done; congruence.
    + exists view, g. split_and!; [done..|]. intros p Hin. apply not_true_iff_false in Hp.
      destruct (decide (to_i32 p ∈ ControllerGrant_permissions g)) as [?|Hno]; [done|]. exfalso.
      apply Hp, existsb_exists. exists p. split; [by apply list_elem_of_In|].
      by rewrite bool_decide_eq_false_2.
    + eauto.
  - intros [(?&?&?&?&?) Hh Ht Hps (Hs&?&Hf&?) (view&g&Hview&Hg&Hc&Hp) (t&Hte&Hsig)].
    apply res_seq. split; [apply fixed_fields_iff; split_and!; congruence|].
    apply res_seq. split; [by rewrite bool_decide_eq_true_2|].
    apply res_seq. split; [by apply time_iff|].
    apply result_bind_Ok. exists ps. split; [by apply normalize_permissions_iff|].
    apply res_seq. split; [by rewrite bool_decide_eq_true_2|].
    apply res_seq. split; [by rewrite bool_decide_eq_true_2|].
    apply res_ok_or. exists view. split; [done|]. apply res_ok_or. exists g. split; [done|].
    apply res_ok_or. exists c. split; [done|]. apply res_seq. split.
    + apply res_fail_if, not_true_iff_false. intros (p&Hin&Hn)%existsb_exists. boolsimpl.
      by apply Hn, Hp, list_elem_of_In.
    + apply result_bind_Ok. exists t. split; [done|]. by apply res_seq.
Qed.

(** One verification: accepted exactly for an acceptable offer with a nonce that is not live and
    room in the cache; otherwise no nonce is added. *)
Lemma verify_spec a sdp fp authorization now s r s' :
  OfferVerifier_verify a sdp fp authorization now s = (r, s') →
  let live := live_nonces (ov_used_nonces s) now in
  ov_host_device_id s' = ov_host_device_id s ∧
  match r with
  | Ok v => ∃ c ps, offer_ok (ov_host_device_id s) a sdp fp authorization now c ps ∧
      live !! nonce_key a = None ∧ Z.of_nat (size live) < MAX_REPLAY_CACHE_ENTRIES ∧
      v = {| vo_controller := c; vo_session_id := SessionOfferAuthentication_session_id a;
             vo_permissions := ps |} ∧
      ov_used_nonces s' = <[nonce_key a := SessionOfferAuthentication_expires_at_unix_ms a]> live
  | Err e =>
      (ov_used_nonces s' = ov_used_nonces s ∧
       check_offer (ov_host_device_id s) a sdp fp authorization now = Err e) ∨
      (ov_used_nonces s' = live ∧
       (∃ c ps, offer_ok (ov_host_device_id s) a sdp fp authorization now c ps) ∧
       ((e = SA_Replay ∧ is_Some (live !! nonce_key a)) ∨
        (e = SA_ReplayCacheFull ∧ live !! nonce_key a = None ∧
         MAX_REPLAY_CACHE_ENTRIES <= Z.of_nat (size live))))
  end.
Proof.
  unfold OfferVerifier_verify. rewrite bind_get, bind_lift.
  destruct (check_offer _ _ _ _ _ _) as [[c ps]|e] eqn:Hc; [|intros; simplify_eq; auto].
  apply check_offer_iff in Hc. cbn zeta. fold (live_nonces (ov_used_nonces s) now).
  set (live := live_nonces (ov_used_nonces s) now). rewrite bind_run. unfold put at 1.
  rewrite bind_fail_if. destruct (live !! nonce_key a) eqn:Hn; simpl.
  { intros; simplify_eq/=. split; [done|]. right. split_and!; eauto. }
  rewrite bind_fail_if. destruct (_ <=? _) eqn:Hfull; boolsimpl.
  { intros; simplify_eq/=. split; [done|]. right. split_and!; eauto. }
  rewrite bind_run. unfold put, mret, M_ret. intros; simplify_eq/=. split; [done|].
  exists c, ps. split_and!; [done..|lia|done|done].
Qed.
End offers.

(** * Runs of the verifier *)

(** One offer the verifier is asked about, with the grants and the time of the call. *)
Record OfferRequest := {
  rq_authentication : SessionOfferAuthentication;
  rq_sdp : text;
  rq_fingerprint : bytes;
  rq_authorization : AuthorizationRegistry;
  rq_now : Z
}.

Section runs.
Context `{Sha256, Ed25519}.

Definition verify_request (q : OfferRequest)
    : M OfferVerifier SessionAuthenticationError VerifiedSessionOffer :=
  OfferVerifier_verify (rq_authentication q) (rq_sdp q) (rq_fingerprint q) (rq_authorization q) (rq_now q).

Fixpoint verify_all (qs : list OfferRequest) (s : OfferVerifier)
    : list (result SessionAuthenticationError VerifiedSessionOffer) * OfferVerifier :=
  match qs with
  | [] => ([], s)
  | q :: qs =>
      let '(r, s) := verify_request q s in
      let '(rs, s) := verify_all qs s in (r :: rs, s)
  end.

Lemma live_lookup used now k e : live_nonces used now !! k = Some e ↔ used !! k = Some e ∧ now <= e.
Proof. unfold live_nonces. by rewrite map_lookup_filter_Some. Qed.

Lemma live_none used now k e : live_nonces used now !! k = None → used !! k = Some e → e < now.
Proof.
  intros Hn Hk. destruct (decide (now <= e)); [|lia].
  assert (live_nonces used now !! k = Some e) by by apply live_lookup. congruence.
Qed.

(** A remembered nonce is accepted again only after its offer expired. *)
Lemma remembered_nonce qs s k e :
  ov_used_nonces s !! k = Some e → Sorted Z.le (rq_now <$> qs) →
  ∀ j q v, qs !! j = Some q → (verify_all qs s).1 !! j = Some (Ok v) →
    nonce_key (rq_authentication q) = k → e < rq_now q.
Proof.
  revert s. induction qs as [|q0 qs IH]; intros s Hk Hs j q v Hq; [done|]. cbn [verify_all].
  destruct (verify_request q0 s) as [r s1] eqn:Hr. destruct (verify_all qs s1) as [rs s2] eqn:Hrs.
  cbn [fst]. rewrite fmap_cons in Hs.
  assert (StronglySorted Z.le (rq_now q0 :: (rq_now <$> qs))) as Hss
    by (apply Sorted_StronglySorted; [apply _|done]).
  apply StronglySorted_cons in Hss as [Hlow _]. apply Sorted_inv in Hs as [Hs _].
  apply verify_spec in Hr as [_ Hr]. destruct j as [|j]; simpl in Hq; intros Hv Hkey; simpl in Hv.
  - simplify_eq. destruct Hr as (c&ps&_&Hn&_). by eapply live_none.
  - destruct (decide (e < rq_now q0)) as [Hlt|Hge].
    { rewrite Forall_forall in Hlow. assert (rq_now q0 <= rq_now q); [|lia]. apply Hlow.
      apply list_elem_of_fmap_2. by eapply list_elem_of_lookup_2. }
    assert (live_nonces (ov_used_nonces s) (rq_now q0) !! k = Some e) as Hlive
      by (apply live_lookup; split; [done|lia]).
    eapply (IH s1); [|done|exact Hq|by rewrite Hrs|done].
    destruct r as [v0|e0].
    + destruct Hr as (c&ps&_&Hn&_&_&->). rewrite lookup_insert_ne; [done|]. intros Heq. congruence.
    + by destruct Hr as [[-> _]|[-> _]].
Qed.

(** An accepted offer had not expired. *)
Lemma verify_all_open qs s j q v :
  qs !! j = Some q → (verify_all qs s).1 !! j = Some (Ok v) →
  rq_now q <= SessionOfferAuthentication_expires_at_unix_ms (rq_authentication q).
Proof.
  revert s j. induction qs as [|q0 qs IH]; intros s j Hq; [done|]. cbn [verify_all].
  destruct (verify_request q0 s) as [r s1] eqn:Hr. specialize (IH s1).
  destruct (verify_all qs s1) as [rs s2]. destruct j as [|j]; simpl in Hq; simpl; intros Hv; [|by eapply IH].
  simplify_eq. apply verify_spec in Hr as [_ (c&ps&Hok&_)]. by destruct (ok_time _ _ _ _ _ _ _ _ Hok) as (_&?&_).
Qed.

Lemma verify_all_host qs s : ov_host_device_id (verify_all qs s).2 = ov_host_device_id s.
Proof.
  revert s. induction qs as [|q qs IH]; intros s; [done|]. cbn [verify_all].
  destruct (verify_request q s) as [r s1] eqn:Hr. specialize (IH s1).
  destruct (verify_all qs s1). apply verify_spec in Hr as [Hh _]. simpl in *. congruence.
Qed.

Lemma verify_size q s r s' :
  verify_request q s = (r, s') →
  Z.of_nat (size (ov_used_nonces s)) <= MAX_REPLAY_CACHE_ENTRIES →
  Z.of_nat (size (ov_used_nonces s')) <= MAX_REPLAY_CACHE_ENTRIES.
Proof.
  intros [_ Hr]%verify_spec Hs.
  assert (size (live_nonces (ov_used_nonces s) (rq_now q)) <= size (ov_used_nonces s))%nat as Hle
    by (apply map_subseteq_size, map_filter_subseteq).
  destruct r as [v|e].
  - destruct Hr as (c&ps&_&Hn&Hlt&_&->). rewrite map_size_insert_None by done. lia.
  - destruct Hr as [[-> _]|[-> _]]; lia.
Qed.
Lemma verify_all_size qs s :
  Z.of_nat (size (ov_used_nonces s)) <= MAX_REPLAY_CACHE_ENTRIES →
  Z.of_nat (size (ov_used_nonces (verify_all qs s).2)) <= MAX_REPLAY_CACHE_ENTRIES.
Proof.
  revert s. induction qs as [|q qs IH]; intros s Hs; [done|]. cbn [verify_all].
  destruct (verify_request q s) as [r s1] eqn:Hr. specialize (IH s1 (verify_size _ _ _ _ Hr Hs)).
  by destruct (verify_all qs s1).
Qed.

Lemma accepted_pair qs s i j qi qj vi vj :
  Sorted Z.le (rq_now <$> qs) → (i < j)%nat → qs !! i = Some qi → qs !! j = Some qj →
  (verify_all qs s).1 !! i = Some (Ok vi) → (verify_all qs s).1 !! j = Some (Ok vj) →
  nonce_key (rq_authentication qi) = nonce_key (rq_authentication qj) →
  SessionOfferAuthentication_expires_at_unix_ms (rq_authentication qi) < rq_now qj.
Proof.
  revert s i j. induction qs as [|q qs IH]; intros s i j Hs Hij Hqi Hqj; [done|]. cbn [verify_all].
  destruct (verify_request q s) as [r s1] eqn:Hr. specialize (IH s1).
  pose proof (remembered_nonce qs s1) as Hrem. destruct (verify_all qs s1) as [rs s2].
  assert (Sorted Z.le (rq_now <$> qs)) as Hs1 by by apply Sorted_inv in Hs as [? _].
  destruct j as [|j]; [lia|]. destruct i as [|i]; simpl in Hqi, Hqj |- *; intros Hvi Hvj Hkey.
  - simplify_eq. apply verify_spec in Hr as [_ (c&ps&_&_&_&_&Hu)].
    eapply Hrem; [|done|exact Hqj|exact Hvj|done]. rewrite Hu, Hkey. apply lookup_insert_eq.
  - eapply IH; [done| |exact Hqi|exact Hqj|exact Hvi|exact Hvj|done]. lia.
Qed.
End runs.

(** * The signed transcripts *)

Inductive SignedSession :=
| SS_Offer (a : SessionOfferAuthentication)
| SS_Answer (a : SessionAnswerAuthentication)
| SS_Reconnect (a : SessionReconnectAuthentication).

Definition encode_signed (x : SignedSession) : result SessionAuthenticationError bytes :=
  match x with
  | SS_Offer a => encode_session_offer_transcript a
  | SS_Answer a => encode_session_answer_transcript a
  | SS_Reconnect a => encode_session_reconnect_transcript a
  end.

(** The integers of the message are of their width. *)
Definition in_width (x : SignedSession) : Prop :=
  match x with
  | SS_Offer a => is_u64 (SessionOfferAuthentication_issued_at_unix_ms a) ∧
      is_u64 (SessionOfferAuthentication_expires_at_unix_ms a)
  | SS_Answer a => is_u64 (SessionAnswerAuthentication_issued_at_unix_ms a) ∧
      is_u64 (SessionAnswerAuthentication_expires_at_unix_ms a)
  | SS_Reconnect a => is_u64 (SessionReconnectAuthentication_issued_at_unix_ms a) ∧
      is_u64 (SessionReconnectAuthentication_expires_at_unix_ms a) ∧
      is_u32 (SessionReconnectAuthentication_reconnect_generation a)
  end.

(** Everything but the signature. *)
Definition unsigned (x : SignedSession) : SignedSession :=
  match x with
  | SS_Offer (Build_SessionOfferAuthentication c h s n i e p o f _) =>
      SS_Offer (Build_SessionOfferAuthentication c h s n i e p o f [])
  | SS_Answer (Build_SessionAnswerAuthentication c h s n i e p o f a g _) =>
      SS_Answer (Build_SessionAnswerAuthentication c h s n i e p o f a g [])
  | SS_Reconnect (Build_SessionReconnectAuthentication c h s n i e p o f a g r _) =>
      SS_Reconnect (Build_SessionReconnectAuthentication c h s n i e p o f a g r [])
  end.

Lemma map_err_encode t b :
  map_err (λ _, SA_InvalidTranscript) (encode_transcript t) = Ok b ↔ encode_transcript t = Ok b.
Proof. destruct (encode_transcript t); simpl; naive_solver. Qed.

Lemma bits_inj p1 p2 b1 b2 :
  permission_bits p1 = Ok b1 → permission_bits p2 = Ok b2 → be_bytes 4 b1 = be_bytes 4 b2 → p1 = p2.
Proof.
  intros [[-> ->]|[-> ->]]%permission_bits_iff [[-> ->]|[-> ->]]%permission_bits_iff Hb; try done;
    by apply be_bytes_inj in Hb.
Qed.

Lemma u64_bytes_inj x y : is_u64 x → is_u64 y → be_bytes 8 x = be_bytes 8 y → x = y.
Proof. unfold is_u64, U64_MAX. intros. apply (be_bytes_inj 8); [lia..|done]. Qed.

Lemma u32_bytes_inj x y : is_u32 x → is_u32 y → be_bytes 4 x = be_bytes 4 y → x = y.
Proof. unfold is_u32, U32_MAX. intros. apply (be_bytes_inj 4); [lia..|done]. Qed.

(** The transcript of a signed message: its purpose and fields. *)
Lemma encode_signed_bits x t :
  encode_signed x = Ok t →
  ∃ bits fields, permission_bits match x with
      | SS_Offer a => SessionOfferAuthentication_requested_permissions a
      | SS_Answer a => SessionAnswerAuthentication_requested_permissions a
      | SS_Reconnect a => SessionReconnectAuthentication_requested_permissions a
      end = Ok bits ∧ encode_transcript fields = Ok t ∧
    fields = match x with
      | SS_Offer a => {| ct_purpose := SessionOffer; ct_fields :=
         [field 1 (SessionOfferAuthentication_controller_device_id a);
          field 2 (SessionOfferAuthentication_host_device_id a);
          field 8 (SessionOfferAuthentication_session_id a);
          field 9 (SessionOfferAuthentication_nonce a);
          field 10 (be_bytes 8 (SessionOfferAuthentication_issued_at_unix_ms a));
          field 11 (be_bytes 8 (SessionOfferAuthentication_expires_at_unix_ms a));
          field 12 (be_bytes 4 bits);
          field 13 (SessionOfferAuthentication_offer_sha256 a);
          field 14 (SessionOfferAuthentication_controller_dtls_fingerprint_sha256 a)] |}
      | SS_Answer a => {| ct_purpose := SessionAnswer; ct_fields :=
         [field 1 (SessionAnswerAuthentication_controller_device_id a);
          field 2 (SessionAnswerAuthentication_host_device_id a);
          field 8 (SessionAnswerAuthentication_session_id a);
          field 9 (SessionAnswerAuthentication_nonce a);
          field 10 (be_bytes 8 (SessionAnswerAuthentication_issued_at_unix_ms a));
          field 11 (be_bytes 8 (SessionAnswerAuthentication_expires_at_unix_ms a));
          field 12 (be_bytes 4 bits);
          field 13 (SessionAnswerAuthentication_offer_sha256 a);
          field 14 (SessionAnswerAuthentication_controller_dtls_fingerprint_sha256 a);
          field 15 (SessionAnswerAuthentication_answer_sha256 a);
          field 16 (SessionAnswerAuthentication_host_dtls_fingerprint_sha256 a)] |}
      | SS_Reconnect a => {| ct_purpose := SessionReconnect; ct_fields :=
         [field 1 (SessionReconnectAuthentication_controller_device_id a);
          field 2 (SessionReconnectAuthentication_host_device_id a);
          field 8 (SessionReconnectAuthentication_session_id a);
          field 9 (SessionReconnectAuthentication_nonce a);
          field 10 (be_bytes 8 (SessionReconnectAuthentication_issued_at_unix_ms a));
          field 11 (be_bytes 8 (SessionReconnectAuthentication_expires_at_unix_ms a));
          field 12 (be_bytes 4 bits);
          field 13 (SessionReconnectAuthentication_offer_sha256 a);
          field 14 (SessionReconnectAuthentication_controller_dtls_fingerprint_sha256 a);
          field 15 (SessionReconnectAuthentication_answer_sha256 a);
          field 16 (SessionReconnectAuthentication_host_dtls_fingerprint_sha256 a);
          field 17 (be_bytes 4 (SessionReconnectAuthentication_reconnect_generation a))] |}
      end.
Proof.
  destruct x as [a|a|a]; simpl; intros (bits&Hb&Ht%map_err_encode)%result_bind_Ok; eauto.
Qed.

(** * Properties *)

(** C22. Offers are verified exactly: the Host accepts an offer if and only if every field has
    its length, it is addressed to this Host, its time window is at most 30 s, open and not
    more than 10 s ahead, it asks for viewing or viewing and control, it hashes this session
    description and names this DTLS fingerprint, its controller holds a grant that allows all
    it asks for, that controller's key signed its canonical transcript, the nonce is not live
    and the replay cache has room; and what is returned is the granted controller, the signed
    session and exactly the asked permissions. *)
Theorem verify_exact `{Sha256, Ed25519} (a : SessionOfferAuthentication) (sdp : text)
    (fingerprint : bytes) (authorization : AuthorizationRegistry) (now : Z) (s : OfferVerifier) v :
  let live := live_nonces (ov_used_nonces s) now in
  (OfferVerifier_verify a sdp fingerprint authorization now s).1 = Ok v ↔
  offer_ok (ov_host_device_id s) a sdp fingerprint authorization now (vo_controller v)
    (vo_permissions v) ∧ vo_session_id v = SessionOfferAuthentication_session_id a ∧
  live !! nonce_key a = None ∧ Z.of_nat (size live) < MAX_REPLAY_CACHE_ENTRIES.
Proof.
  cbn zeta. destruct (OfferVerifier_verify a sdp fingerprint authorization now s) as [r s'] eqn:Hr.
  apply verify_spec in Hr as [_ Hr]. simpl. split.
  - intros ->. by destruct Hr as (c&ps&Hok&Hn&Hl&->&_).
  - intros (Hok&Hs&Hn&Hl). destruct r as [w|e].
    + destruct Hr as (c&ps&Hok'&_&_&->&_). apply check_offer_iff in Hok, Hok'. destruct v; simpl in *.
      rewrite Hok in Hok'. by simplify_eq.
    + exfalso. destruct Hr as [[_ He]|(_&_&[[_ [e0 He]]|(_&_&He)])].
      * apply check_offer_iff in Hok. congruence.
      * congruence.
      * lia.
Qed.

(** No offer is accepted twice while it is valid: in any sequence of verifications at times
    that do not go back, whatever else is verified in between and however the grants change, a
    nonce of a controller is accepted again only after the offer it was accepted with expired,
    so the very same offer never; and the replay cache never holds more than 1024 nonces. *)
Theorem offers_accepted_once `{Sha256, Ed25519} (host : bytes) (verifier : OfferVerifier)
    (qs : list OfferRequest) (i j : nat) (qi qj : OfferRequest) (vi vj : VerifiedSessionOffer) :
  OfferVerifier_new host = Ok verifier →
  Sorted Z.le (rq_now <$> qs) → (i < j)%nat →
  qs !! i = Some qi → qs !! j = Some qj →
  (verify_all qs verifier).1 !! i = Some (Ok vi) → (verify_all qs verifier).1 !! j = Some (Ok vj) →
  nonce_key (rq_authentication qi) = nonce_key (rq_authentication qj) →
  SessionOfferAuthentication_expires_at_unix_ms (rq_authentication qi) < rq_now qj ∧
  rq_authentication qi ≠ rq_authentication qj ∧
  Z.of_nat (size (ov_used_nonces (verify_all qs verifier).2)) <= MAX_REPLAY_CACHE_ENTRIES.
Proof.
  intros Hnew Hs Hij Hqi Hqj Hvi Hvj Hkey.
  pose proof (accepted_pair qs verifier i j qi qj vi vj Hs Hij Hqi Hqj Hvi Hvj Hkey) as Hlt.
  pose proof (verify_all_open qs verifier j qj vj Hqj Hvj) as Hopen.
  split; [done|]. split; [intros Heq; rewrite Heq in Hlt; lia|]. apply verify_all_size.
  unfold OfferVerifier_new in Hnew. by apply res_seq in Hnew as [_ [= <-]].
Qed.

(** C25. A session signature binds everything: if two signed messages of the session handshake,
    offers, answers or reconnects in any combination, have the same transcript, they are of the
    same kind and agree in every field but the signature. So a signature made for one cannot be
    passed off as another, whatever the signature scheme does with equal messages. *)
Theorem signed_transcripts_bind (x y : SignedSession) (t : bytes) :
  encode_signed x = Ok t → encode_signed y = Ok t → in_width x → in_width y →
  unsigned x = unsigned y.
Proof.
  intros (b1&f1&Hb1&Ht1&Hf1)%encode_signed_bits (b2&f2&Hb2&Ht2&Hf2)%encode_signed_bits Hx Hy.
  pose proof (encode_inj _ _ _ Ht1 Ht2) as Heq. rewrite Hf1, Hf2 in Heq. clear Hf1 Hf2 Ht1 Ht2.
  pose proof (f_equal ct_purpose Heq) as Hp. apply (f_equal (λ t, tf_value <$> ct_fields t)) in Heq.
  destruct x as [[]|[]|[]], y as [[]|[]|[]]; try discriminate Hp; simpl in Hb1, Hb2, Hx, Hy, Heq |- *;
    repeat (apply cons_eq_inj in Heq as [? Heq]); subst.
  all: match goal with
       | G1 : permission_bits _ = Ok ?x, G2 : permission_bits _ = Ok ?y,
         G : be_bytes 4 ?x = be_bytes 4 ?y |- _ => pose proof (bits_inj _ _ _ _ G1 G2 G); subst
       end.
  all: clear Hp Heq; destruct_and?; repeat f_equal;
    first [apply u64_bytes_inj; assumption|apply u32_bytes_inj; assumption].
Qed.

(** * A concrete handshake *)

#[local] Instance toy_digest : Sha256 := { sha256 b := be_bytes 32 (len b) }.

(** A controller that asks for viewing and control, and the same offer with its signature. *)
Definition toy_offer (issued : Z) (signature : bytes) : SessionOfferAuthentication :=
  {| SessionOfferAuthentication_controller_device_id := be_bytes 32 63;
     SessionOfferAuthentication_host_device_id := be_bytes 32 7;
     SessionOfferAuthentication_session_id := be_bytes 16 1;
     SessionOfferAuthentication_nonce := be_bytes 32 2;
     SessionOfferAuthentication_issued_at_unix_ms := issued;
     SessionOfferAuthentication_expires_at_unix_ms := issued + 1000;
     SessionOfferAuthentication_requested_permissions := [1; 2];
     SessionOfferAuthentication_offer_sha256 := sha256 (as_bytes (lit "offer"));
     SessionOfferAuthentication_controller_dtls_fingerprint_sha256 := be_bytes 32 3;
     SessionOfferAuthentication_signature := signature |}.

Definition toy_signed_offer (issued : Z) : SessionOfferAuthentication :=
  match encode_session_offer_transcript (toy_offer issued []) with
  | Ok transcript => toy_offer issued (be_bytes 64 (1 + be_val transcript))
  | Err _ => toy_offer issued []
  end.

Definition toy_grants : AuthorizationRegistry :=
  {| ar_host_device_id := be_bytes 32 7;
     ar_grants_by_controller := {[ be_bytes 32 63 :=
       {| ControllerGrantView_grant := Some
            {| ControllerGrant_grant_id := be_bytes 16 5;
               ControllerGrant_host_device_id := be_bytes 32 7;
               ControllerGrant_controller := Some (toy_device 1);
               ControllerGrant_created_at_unix_ms := 1; ControllerGrant_permissions := [1; 2] |};
          ControllerGrantView_last_successful_connection_at_unix_ms := 0 |} ]} |}.

Definition toy_request (issued now : Z) : OfferRequest :=
  {| rq_authentication := toy_signed_offer issued; rq_sdp := lit "offer"; rq_fingerprint := be_bytes 32 3;
     rq_authorization := toy_grants; rq_now := now |}.

(** An offer, its replay, another controller's description, and a later offer with the same
    nonce. *)
Definition toy_requests : list OfferRequest :=
  [toy_request 1000 1500; toy_request 1000 1600;
   {| rq_authentication := toy_signed_offer 1700; rq_sdp := lit "other one"; rq_fingerprint := be_bytes 32 3;
      rq_authorization := toy_grants; rq_now := 1700 |};
   toy_request 3000 3000].

Definition toy_verifier : OfferVerifier :=
  {| ov_host_device_id := be_bytes 32 7; ov_used_nonces := ∅ |}.

Example toy_requests_run :
  map (λ r, match r with Ok _ => None | Err e => Some e end) (verify_all toy_requests toy_verifier).1 =
  [None; Some SA_Replay; Some SA_OfferHashMismatch; None].
Proof. vm_compute. reflexivity. Qed.

(** What the toy controller is verified as. *)
Definition toy_verified : VerifiedSessionOffer :=
  {| vo_controller := toy_device 1; vo_session_id := be_bytes 16 1;
     vo_permissions := [SessionPermission_ViewScreen; SessionPermission_ControlInput] |}.

Lemma offers_accepted_once_witness :
  SessionOfferAuthentication_expires_at_unix_ms (toy_signed_offer 1000) < 3000 ∧
  toy_signed_offer 1000 ≠ toy_signed_offer 3000 ∧
  Z.of_nat (size (ov_used_nonces (verify_all toy_requests toy_verifier).2)) <= MAX_REPLAY_CACHE_ENTRIES.
Proof.
  assert ((verify_all toy_requests toy_verifier).1 !! 0%nat = Some (Ok toy_verified)) as Hi
    by (vm_compute; reflexivity).
  assert ((verify_all toy_requests toy_verifier).1 !! 3%nat = Some (Ok toy_verified)) as Hj
    by (vm_compute; reflexivity).
  refine (offers_accepted_once (be_bytes 32 7) toy_verifier toy_requests 0 3 (toy_request 1000 1500)
            (toy_request 3000 3000) toy_verified toy_verified eq_refl _ _ eq_refl eq_refl Hi Hj _).
  - simpl. repeat constructor; lia.
  - lia.
  - vm_compute. reflexivity.
Defined.

Lemma signed_transcripts_bind_witness :
  is_ok (encode_signed (SS_Offer (toy_signed_offer 1000))) = true ∧
  unsigned (SS_Offer (toy_signed_offer 1000)) = unsigned (SS_Offer (toy_offer 1000 [])).
Proof.
  split; [vm_compute; reflexivity|].
  assert (∃ t, encode_signed (SS_Offer (toy_signed_offer 1000)) = Ok t ∧
               encode_signed (SS_Offer (toy_offer 1000 [])) = Ok t) as (t&Hx&Hy).
  { eexists. split; vm_compute; reflexivity. }
  refine (signed_transcripts_bind _ _ t Hx Hy _ _); vm_compute; repeat split; discriminate.
Defined.
