(* ===== verification/Identity.v ===== *)
(** The identity of the Host, crates/host-agent/src/identity.rs: an Ed25519 key behind the
    protected secret store of crates/host-platform/src/secret_store.rs, and the only three
    kinds of transcripts it signs. *)
From S2P Require Import Prelude Limits Messages Crypto Containers Transcript Validation GrantStore Authorization.

Local Open Scope Z_scope.

(** * The secret store *)

Definition PROTECTED_SECRET_BYTES : Z := 32.

Inductive SecretStoreError :=
| SS_InvalidSecretLength | SS_Unavailable | SS_AccessDenied | SS_Corrupt | SS_UnsupportedPlatform.

Class ProtectedSecretStore (W : Type) := {
  secret_load : M W SecretStoreError (option bytes);
  secret_store : bytes → M W SecretStoreError unit;
  secret_delete : M W SecretStoreError unit
}.

(** What a store promises: [secret_of] is what it protects. *)
Class SecretStoreLaws (W : Type) `{ProtectedSecretStore W} := {
  secret_of : W → option bytes;
  load_secret w r w' : secret_load w = (r, w') →
    secret_of w' = secret_of w ∧ ∀ o, r = Ok o → o = secret_of w;
  store_secret s w r w' : secret_store s w = (r, w') →
    r = Ok () → secret_of w' = Some s ∧ len s = PROTECTED_SECRET_BYTES
}.

Definition MemorySecretStore : Type := option bytes.

Definition MemorySecretStore_load : M MemorySecretStore SecretStoreError (option bytes) :=
  value ← get;
  mret value.

Definition MemorySecretStore_store (secret : bytes) : M MemorySecretStore SecretStoreError unit :=
  fail_if (negb (len secret =? PROTECTED_SECRET_BYTES)) SS_InvalidSecretLength;;
  put (Some secret).

Definition MemorySecretStore_delete : M MemorySecretStore SecretStoreError unit := put None.

#[export] Instance MemorySecretStore_secrets : ProtectedSecretStore MemorySecretStore := {
  secret_load := MemorySecretStore_load;
  secret_store := MemorySecretStore_store;
  secret_delete := MemorySecretStore_delete
}.

#[export] Instance MemorySecretStore_laws : SecretStoreLaws MemorySecretStore.
Proof.
  refine {| secret_of := λ w : MemorySecretStore, w |}.
  - intros w r w' [= <- <-]. split; [done|]. by intros o [= <-].
  - intros s w r w'. unfold secret_store, MemorySecretStore_secrets, MemorySecretStore_store.
    rewrite bind_fail_if. destruct (negb _) eqn:Hl; [by intros [= <- <-]|].
    intros [= <- <-] _. split; [done|]. boolsimpl. lia.
Defined.

(** * Data *)

Inductive IdentityError :=
| IE_SecretStore (error : SecretStoreError) | IE_RandomGeneration | IE_InvalidSeed
| IE_InvalidPlatform | IE_InvalidDisplayName | IE_InvalidTranscript (error : TranscriptError)
| IE_UnsupportedTranscriptPurpose | IE_HostDeviceIdMismatch | IE_ControllerDeviceIdMismatch
| IE_InvalidPairingRole.

(** [signing_key]: the seed of the key. *)
Record HostIdentity := { hi_signing_key : bytes; hi_device_identity : DeviceIdentity }.

(** * Creation *)

Definition validate_identity_metadata (display_name : text) (platform : DevicePlatform)
    : result IdentityError unit :=
  fail_if (bool_decide (display_name = []) || (MAX_DEVICE_NAME_UTF8_BYTES <? text_len display_name))
          IE_InvalidDisplayName;;
  fail_if (negb (bool_decide (platform = DevicePlatform_Windows ∨ platform = DevicePlatform_Macos)))
          IE_InvalidPlatform.

Definition signing_key_from_seed (seed : bytes) : result IdentityError bytes :=
  fail_if (negb (len seed =? PROTECTED_SECRET_BYTES)) IE_InvalidSeed;;
  mret seed.

Section identity.
Context `{Sha256, Ed25519}.

Definition HostIdentity_load_or_create {W G : Type} `{ProtectedSecretStore W, RandomSource G}
    (display_name : text) (platform : DevicePlatform) : M (W * G) IdentityError HostIdentity :=
  lift (validate_identity_metadata display_name platform);;
  loaded ← map_err_m IE_SecretStore (zoom fst (λ w s, (w, s.2)) secret_load);
  signing_key ←
    match loaded with
    | Some seed => lift (signing_key_from_seed seed)
    | None =>
        seed ← map_err_m (λ _, IE_RandomGeneration)
                 (zoom snd (λ g s, (s.1, g)) (random_bytes PROTECTED_SECRET_BYTES));
        map_err_m IE_SecretStore (zoom fst (λ w s, (w, s.2)) (secret_store seed));;
        mret seed
    end;
  let public_key := ed25519_public signing_key in
  device_id ← lift (map_err (λ _, IE_InvalidSeed) (derive_device_id_v1 public_key));
  mret {| hi_signing_key := signing_key;
          hi_device_identity :=
            {| DeviceIdentity_device_id := device_id;
               DeviceIdentity_public_key_algorithm := to_i32 PublicKeyAlgorithm_Ed25519;
               DeviceIdentity_public_key := public_key;
               DeviceIdentity_display_name := display_name;
               DeviceIdentity_platform := to_i32 platform |} |}.

(** * Signatures *)

Definition has_tag (tag : Z) (field : TranscriptField) : bool := tf_tag field =? tag.

(** The device identifier of the signer. *)
Definition own_id (self : HostIdentity) : bytes := DeviceIdentity_device_id (hi_device_identity self).

Definition sign_canonical_transcript (self : HostIdentity) (canonical_transcript : bytes)
    : result IdentityError CanonicalTranscriptSignature :=
  decoded ← map_err IE_InvalidTranscript (decode_transcript canonical_transcript);
  fail_if (negb (bool_decide (ct_purpose decoded = SessionAnswer ∨ ct_purpose decoded = SessionReconnect)))
          IE_UnsupportedTranscriptPurpose;;
  transcript_host ← ok_or (find (has_tag 2) (ct_fields decoded)) IE_HostDeviceIdMismatch;
  fail_if (negb (bool_decide (tf_value transcript_host = own_id self))) IE_HostDeviceIdMismatch;;
  mret {| CanonicalTranscriptSignature_host_device_id := own_id self;
          CanonicalTranscriptSignature_host_public_key :=
            DeviceIdentity_public_key (hi_device_identity self);
          CanonicalTranscriptSignature_signature :=
            ed25519_sign (hi_signing_key self) canonical_transcript;
          CanonicalTranscriptSignature_transcript_sha256 := sha256 canonical_transcript |}.

Definition sign_session_offer (self : HostIdentity) (canonical_transcript : bytes)
    : result IdentityError SessionOfferSignature :=
  decoded ← map_err IE_InvalidTranscript (decode_transcript canonical_transcript);
  fail_if (negb (bool_decide (ct_purpose decoded = SessionOffer))) IE_UnsupportedTranscriptPurpose;;
  transcript_controller ← ok_or (find (has_tag 1) (ct_fields decoded)) IE_ControllerDeviceIdMismatch;
  fail_if (negb (bool_decide (tf_value transcript_controller = own_id self)))
          IE_ControllerDeviceIdMismatch;;
  mret {| SessionOfferSignature_controller_device_id := own_id self;
          SessionOfferSignature_controller_public_key :=
            DeviceIdentity_public_key (hi_device_identity self);
          SessionOfferSignature_signature := ed25519_sign (hi_signing_key self) canonical_transcript;
          SessionOfferSignature_transcript_sha256 := sha256 canonical_transcript |}.

Definition pairing_identity_mismatch (role : PairingIdentityRole) : IdentityError :=
  match role with
  | PairingIdentityRole_Controller => IE_ControllerDeviceIdMismatch
  | PairingIdentityRole_Host => IE_HostDeviceIdMismatch
  | PairingIdentityRole_Unspecified => IE_InvalidPairingRole
  end.

Definition sign_pairing_transcript (self : HostIdentity) (canonical_transcript : bytes)
    (role : PairingIdentityRole) : result IdentityError PairingTranscriptSignature :=
  decoded ← map_err IE_InvalidTranscript (decode_transcript canonical_transcript);
  fail_if (negb (bool_decide (ct_purpose decoded = PairingSas))) IE_UnsupportedTranscriptPurpose;;
  device_id_tag ←
    match role with
    | PairingIdentityRole_Controller => Ok 1
    | PairingIdentityRole_Host => Ok 2
    | PairingIdentityRole_Unspecified => Err IE_InvalidPairingRole
    end;
  transcript_identity ← ok_or (find (has_tag device_id_tag) (ct_fields decoded))
                          (pairing_identity_mismatch role);
  fail_if (negb (bool_decide (tf_value transcript_identity = own_id self)))
          (pairing_identity_mismatch role);;
  mret {| PairingTranscriptSignature_role := to_i32 role;
          PairingTranscriptSignature_signer_device_id := own_id self;
          PairingTranscriptSignature_signer_public_key :=
            DeviceIdentity_public_key (hi_device_identity self);
          PairingTranscriptSignature_signature :=
            ed25519_sign (hi_signing_key self) canonical_transcript;
          PairingTranscriptSignature_transcript_sha256 := sha256 canonical_transcript |}.
End identity.

(** * Specification *)

(** The public half belongs to the key. *)
Definition identity_wf `{Sha256, Ed25519} (self : HostIdentity) : Prop :=
  DeviceIdentity_public_key (hi_device_identity self) = ed25519_public (hi_signing_key self) ∧
  derive_device_id_v1 (ed25519_public (hi_signing_key self)) = Ok (own_id self).

(** What an identity can be asked to sign. *)
Inductive SignRequest :=
| SR_Canonical (transcript : bytes)
| SR_Offer (transcript : bytes)
| SR_Pairing (transcript : bytes) (role : PairingIdentityRole).

Definition request_bytes (req : SignRequest) : bytes :=
  match req with SR_Canonical b | SR_Offer b | SR_Pairing b _ => b end.

Definition sign_request `{Sha256, Ed25519} (self : HostIdentity) (req : SignRequest)
    : result IdentityError bytes :=
  match req with
  | SR_Canonical b => CanonicalTranscriptSignature_signature <$> sign_canonical_transcript self b
  | SR_Offer b => SessionOfferSignature_signature <$> sign_session_offer self b
  | SR_Pairing b role => PairingTranscriptSignature_signature <$> sign_pairing_transcript self b role
  end.

(** The field that must name the signer, and the purposes of a request. *)
Definition signer_tag (req : SignRequest) : option Z :=
  match req with
  | SR_Canonical _ | SR_Pairing _ PairingIdentityRole_Host => Some 2
  | SR_Offer _ | SR_Pairing _ PairingIdentityRole_Controller => Some 1
  | SR_Pairing _ PairingIdentityRole_Unspecified => None
  end.

Definition signed_purpose (req : SignRequest) (p : TranscriptPurpose) : Prop :=
  match req with
  | SR_Canonical _ => p = SessionAnswer ∨ p = SessionReconnect
  | SR_Offer _ => p = SessionOffer
  | SR_Pairing _ _ => p = PairingSas
  end.

Definition may_sign (self : HostIdentity) (req : SignRequest) (t : CanonicalTranscript) : Prop :=
  encode_transcript t = Ok (request_bytes req) ∧ signed_purpose req (ct_purpose t) ∧
  ∃ tag f, signer_tag req = Some tag ∧ find (has_tag tag) (ct_fields t) = Some f ∧
           tf_value f = own_id self.

(** * Lemmas *)

Section lemmas.
Context `{Sha256, Ed25519}.

Lemma res_map_err {E E' A} (f : E → E') (r : result E A) a : map_err f r = Ok a ↔ r = Ok a.
Proof. destruct r; naive_solver. Qed.

Lemma res_fmap {E A B} (f : A → B) (r : result E A) b : f <$> r = Ok b ↔ ∃ a, r = Ok a ∧ f a = b.
Proof. destruct r; unfold fmap, result_fmap; naive_solver. Qed.

(** The steps the three signatures share. *)
Lemma sign_steps {A} (P : TranscriptPurpose → Prop) `{∀ p, Decision (P p)} b tag own (e1 e2 : IdentityError)
    (x a : A) :
  (decoded ← map_err IE_InvalidTranscript (decode_transcript b);
   fail_if (negb (bool_decide (P (ct_purpose decoded)))) e1;;
   f ← ok_or (find (has_tag tag) (ct_fields decoded)) e2;
   fail_if (negb (bool_decide (tf_value f = own))) e2;;
   mret x : result IdentityError A) = Ok a ↔
  (∃ t f, encode_transcript t = Ok b ∧ P (ct_purpose t) ∧ find (has_tag tag) (ct_fields t) = Some f ∧
          tf_value f = own) ∧ x = a.
Proof.
  split.
  - intros (t&Ht%res_map_err%decode_encode_iff&[Hp%res_fail_if%negb_false_iff%bool_decide_eq_true
      (f&Hf&[Hv%res_fail_if%negb_false_iff%bool_decide_eq_true [= ->]]%res_seq)%res_ok_or]%res_seq)%result_bind_Ok.
    eauto 8.
  - intros [(t&f&Ht%decode_encode_iff&Hp&Hf&Hv) ->]. rewrite Ht. cbn [map_err mbind result_bind].
    rewrite bool_decide_eq_true_2 by done. rewrite Hf. cbn [negb fail_if mret result_ret ok_or mbind result_bind].
    by rewrite bool_decide_eq_true_2.
Qed.

Lemma sign_shape {A} (g : A → bytes) (P : TranscriptPurpose → Prop) `{∀ p, Decision (P p)} b tag own
    (e1 e2 : IdentityError) (x : A) sig :
  g <$> (decoded ← map_err IE_InvalidTranscript (decode_transcript b);
   fail_if (negb (bool_decide (P (ct_purpose decoded)))) e1;;
   f ← ok_or (find (has_tag tag) (ct_fields decoded)) e2;
   fail_if (negb (bool_decide (tf_value f = own))) e2;;
   mret x : result IdentityError A) = Ok sig ↔
  (∃ t f, encode_transcript t = Ok b ∧ P (ct_purpose t) ∧ find (has_tag tag) (ct_fields t) = Some f ∧
          tf_value f = own) ∧ sig = g x.
Proof. rewrite res_fmap. setoid_rewrite sign_steps. naive_solver. Qed.

Lemma sign_request_iff self req sig :
  sign_request self req = Ok sig ↔
  (∃ t, may_sign self req t) ∧ sig = ed25519_sign (hi_signing_key self) (request_bytes req).
Proof.
  assert (∀ tag, signer_tag req = Some tag →
    (∃ t, may_sign self req t) ↔
    (∃ t f, encode_transcript t = Ok (request_bytes req) ∧ signed_purpose req (ct_purpose t) ∧
            find (has_tag tag) (ct_fields t) = Some f ∧ tf_value f = own_id self)) as Hspec.
  { intros tag Htag. unfold may_sign. rewrite Htag. naive_solver. }
  unfold sign_request. destruct req as [b|b|b role].
  - rewrite (Hspec 2 eq_refl). unfold sign_canonical_transcript.
    exact (sign_shape _ (λ p, p = SessionAnswer ∨ p = SessionReconnect) _ _ _ _ _ _ _).
  - rewrite (Hspec 1 eq_refl). unfold sign_session_offer. exact (sign_shape _ (λ p, p = SessionOffer) _ _ _ _ _ _ _).
  - unfold sign_pairing_transcript. destruct role.
    + split; [|by intros [(t&_&_&tag&f&[=]&_) _]].
      intros (s&(t&_&[_ Hr]%res_seq)%result_bind_Ok&_)%res_fmap. done.
    + rewrite (Hspec 1 eq_refl). exact (sign_shape _ (λ p, p = PairingSas) _ _ _ _ _ _ _).
    + rewrite (Hspec 2 eq_refl). exact (sign_shape _ (λ p, p = PairingSas) _ _ _ _ _ _ _).
Qed.

Lemma signed_purpose_kind req1 req2 p :
  signed_purpose req1 p → signed_purpose req2 p →
  match req1, req2 with
  | SR_Canonical _, SR_Canonical _ | SR_Offer _, SR_Offer _ | SR_Pairing _ _, SR_Pairing _ _ => True
  | _, _ => False
  end.
Proof. destruct req1, req2; simpl; naive_solver. Qed.
End lemmas.

Section creation.
Context `{Sha256Laws, Ed25519Laws} {W G : Type} `{SecretStoreLaws W, RandomLaws G}.

Lemma derive_public seed :
  ∃ id, derive_device_id_v1 (ed25519_public seed) = Ok id ∧ len id = DEVICE_ID_BYTES.
Proof.
  unfold derive_device_id_v1. rewrite public_len. eexists. split; [done|]. apply sha256_len.
Qed.

Lemma metadata_Ok name platform :
  validate_identity_metadata name platform = Ok () →
  text_len name <= MAX_DEVICE_NAME_UTF8_BYTES ∧
  (platform = DevicePlatform_Windows ∨ platform = DevicePlatform_Macos).
Proof.
  unfold validate_identity_metadata. intros [Hn%res_fail_if Hp%res_fail_if]%res_seq. boolsimpl.
  by split; [lia|].
Qed.

(** An identity of this key, name and platform. *)
Definition created (key : bytes) (name : text) (platform : DevicePlatform) (self : HostIdentity) : Prop :=
  identity_wf self ∧ hi_signing_key self = key ∧
  DeviceIdentity_public_key_algorithm (hi_device_identity self) = to_i32 PublicKeyAlgorithm_Ed25519 ∧
  DeviceIdentity_display_name (hi_device_identity self) = name ∧
  DeviceIdentity_platform (hi_device_identity self) = to_i32 platform.

(** The end of [load_or_create], once the key is known. *)
Lemma created_end (seed : bytes) (name : text) (platform : DevicePlatform) (s : W * G) :
  ∃ self, (device_id ← lift (map_err (λ _, IE_InvalidSeed) (derive_device_id_v1 (ed25519_public seed)));
      mret {| hi_signing_key := seed; hi_device_identity :=
        {| DeviceIdentity_device_id := device_id;
           DeviceIdentity_public_key_algorithm := to_i32 PublicKeyAlgorithm_Ed25519;
           DeviceIdentity_public_key := ed25519_public seed; DeviceIdentity_display_name := name;
           DeviceIdentity_platform := to_i32 platform |} |} : M (W * G) IdentityError HostIdentity) s =
    (Ok self, s) ∧ created seed name platform self.
Proof.
  destruct (derive_public seed) as (id&Hid&Hl). rewrite bind_lift, Hid. simpl.
  eexists. split; [done|]. by unfold created, identity_wf, own_id.
Qed.

Lemma load_or_create_spec (name : text) (platform : DevicePlatform) (w : W) (g : G) r w' g' :
  HostIdentity_load_or_create name platform (w, g) = (r, (w', g')) →
  match r with
  | Ok self => validate_identity_metadata name platform = Ok () ∧
      secret_of w' = Some (hi_signing_key self) ∧
      (∀ seed, secret_of w = Some seed → hi_signing_key self = seed) ∧
      len (hi_signing_key self) = PROTECTED_SECRET_BYTES ∧
      created (hi_signing_key self) name platform self
  | Err e => validate_identity_metadata name platform = Err e ∨ (∃ error, e = IE_SecretStore error) ∨
      (secret_of w = None ∧ e = IE_RandomGeneration) ∨
      (∃ seed, secret_of w = Some seed ∧ len seed ≠ PROTECTED_SECRET_BYTES)
  end.
Proof.
  unfold HostIdentity_load_or_create. rewrite bind_lift. intros Hr.
  destruct (validate_identity_metadata name platform) as [[]|e] eqn:Hm; [|by simplify_eq; left].
  rewrite bind_map_err_zoom in Hr. simpl in Hr.
  destruct (secret_load w) as [[o|e] w1] eqn:Hl; apply load_secret in Hl as [Hk Ht]; simpl in Hr;
    [specialize (Ht o eq_refl); subst o|by simplify_eq; eauto].
  destruct (secret_of w) as [seed|] eqn:Hs; rewrite bind_run in Hr.
  - unfold lift at 1 in Hr. unfold signing_key_from_seed in Hr.
    destruct (len seed =? PROTECTED_SECRET_BYTES) eqn:Hlen; simpl in Hr; boolsimpl.
    + destruct (created_end seed name platform (w1, g)) as (self&Hself&Hc). simpl in Hself, Hr.
      rewrite Hself in Hr. simplify_eq. pose proof Hc as (_&->&_). split_and!; naive_solver.
    + simplify_eq. eauto 8.
  - rewrite bind_map_err_zoom in Hr. simpl in Hr.
    destruct (random_bytes PROTECTED_SECRET_BYTES g) as [[seed|e] g1] eqn:Hg; simpl in Hr;
      [|simplify_eq; eauto 8].
    rewrite bind_map_err_zoom in Hr. simpl in Hr.
    destruct (secret_store seed w1) as [[[]|e] w2] eqn:Hst; simpl in Hr; [|simplify_eq; eauto].
    apply store_secret in Hst as [Hsec Hlen]; [|done]. unfold mret, M_ret in Hr.
    destruct (created_end seed name platform (w2, g1)) as (self&Hself&Hc).
    simpl in Hself, Hr. unfold mret, M_ret in Hself. rewrite Hself in Hr. simplify_eq.
    pose proof Hc as (_&->&_). split_and!; naive_solver.
Qed.

(** Any created identity is one a Host accepts as a controller. *)
Lemma created_valid key (name : text) (platform : DevicePlatform) self :
  created key name platform self → validate_identity_metadata name platform = Ok () →
  validate_controller (hi_device_identity self) = Ok ().
Proof.
  intros ([Hpub Hid]&Hkey&Halg&Hname&Hplat) [Hn Hp]%metadata_Ok. unfold validate_controller.
  assert (len (own_id self) = DEVICE_ID_BYTES) as Hown.
  { destruct (derive_public (hi_signing_key self)) as (id&Hid'&Hl). congruence. }
  apply res_seq. split.
  { unfold validate_device_identity, validate_length, validate_utf8_length, validate_nonzero_enum.
    rewrite Halg, Hname, Hplat, Hpub, public_len. fold (own_id self). rewrite Hown.
    rewrite (proj2 (Z.ltb_ge _ _)) by done. by destruct Hp as [-> | ->]. }
  rewrite Hpub. apply res_ok_or. eexists. split; [by apply array_of_Some; rewrite public_len|].
  rewrite Hpub, public_ok. simpl. rewrite Hid. simpl. fold (own_id self). by rewrite bool_decide_eq_true_2.
Qed.
End creation.

(** * Properties *)

(** A Host keeps its identity: creating it stores the seed, and from then on every start
    that reaches the same secret store has the same key, device identifier and public key, or
    reports an error; the created identity is well formed, and any other Host would accept it
    as a controller. *)
Theorem identity_persistent `{Sha256Laws, Ed25519Laws} {W G : Type} `{SecretStoreLaws W, RandomLaws G}
    (name name' : text) (platform platform' : DevicePlatform) (w w1 w2 : W) (g g1 g2 : G)
    (self : HostIdentity) :
  HostIdentity_load_or_create name platform (w, g) = (Ok self, (w1, g1)) →
  secret_of w2 = secret_of w1 →
  identity_wf self ∧ validate_controller (hi_device_identity self) = Ok () ∧
  match (HostIdentity_load_or_create name' platform' (w2, g2)).1 with
  | Ok self' => hi_signing_key self' = hi_signing_key self ∧ own_id self' = own_id self ∧
      DeviceIdentity_public_key (hi_device_identity self') =
      DeviceIdentity_public_key (hi_device_identity self)
  | Err e => validate_identity_metadata name' platform' = Err e ∨ ∃ error, e = IE_SecretStore error
  end.
Proof.
  intros (Hm&Hsec&_&Hlen&Hc)%load_or_create_spec Hsame.
  assert (identity_wf self) as Hw by apply Hc.
  split; [done|]. split; [by eapply created_valid|].
  destruct (HostIdentity_load_or_create name' platform' (w2, g2)) as [r [w3 g3]] eqn:Hr.
  apply load_or_create_spec in Hr. rewrite Hsame, Hsec in Hr. simpl. destruct r as [self'|e].
  - destruct Hr as (_&_&Hkey&_&Hw'&_). specialize (Hkey _ eq_refl). destruct Hw as [Hp Hd], Hw' as [Hp' Hd'].
    rewrite Hkey in *. split_and!; congruence.
  - destruct Hr as [?|[?|[[[=] _]|(seed&[= <-]&Hl)]]]; auto. congruence.
Qed.

(** The Host's key signs exactly three kinds of transcripts, each naming the Host itself: a
    request is signed if and only if its bytes are the canonical encoding of a transcript of the
    purpose the request stands for, whose field for the role of the signer holds the Host's own
    identifier; the signature verifies under the Host's public key; and no bytes are ever
    signed under two kinds of requests. *)
Theorem signing_confined `{Sha256, Ed25519Laws} (self : HostIdentity) (req : SignRequest) (sig : bytes) :
  identity_wf self →
  (sign_request self req = Ok sig ↔
   (∃ t, may_sign self req t) ∧ sig = ed25519_sign (hi_signing_key self) (request_bytes req)) ∧
  (sign_request self req = Ok sig →
   ed25519_verify (DeviceIdentity_public_key (hi_device_identity self)) (request_bytes req) sig = true ∧
   ∀ req' sig', request_bytes req' = request_bytes req → sign_request self req' = Ok sig' →
     match req, req' with
     | SR_Canonical _, SR_Canonical _ | SR_Offer _, SR_Offer _ | SR_Pairing _ _, SR_Pairing _ _ => True
     | _, _ => False
     end).
Proof.
  intros [Hpub _]. split; [apply sign_request_iff|].
  intros [(t&He&Hp&_) ->]%sign_request_iff. split; [rewrite Hpub; apply sign_verifies|].
  intros req' sig' Hb [(t'&He'&Hp'&_) _]%sign_request_iff. rewrite Hb in He'.
  rewrite (encode_inj _ _ _ He' He) in Hp'. by eapply signed_purpose_kind.
Qed.

(** * A concrete identity *)

#[local] Instance toy_digest : Sha256 := { sha256 b := be_bytes 32 (len b) }.

#[local] Instance toy_digest_laws : Sha256Laws.
Proof. split. intros b. apply len_be_bytes. Qed.

#[local] Instance toy_signature_laws : Ed25519Laws.
Proof.
  split; intros seed; [apply len_be_bytes|done|..]; intros message.
  - apply len_be_bytes.
  - unfold is_signature, toy_ed25519, ed25519_sign. by rewrite len_be_bytes.
  - unfold ed25519_verify, toy_ed25519. by apply bool_decide_eq_true_2.
Qed.

Definition toy_start : M (MemorySecretStore * Z) IdentityError HostIdentity :=
  HostIdentity_load_or_create (lit "desk") DevicePlatform_Macos.

Definition toy_identity : HostIdentity :=
  {| hi_signing_key := be_bytes 32 5;
     hi_device_identity :=
       {| DeviceIdentity_device_id := be_bytes 32 63;
          DeviceIdentity_public_key_algorithm := to_i32 PublicKeyAlgorithm_Ed25519;
          DeviceIdentity_public_key := be_bytes 32 5;
          DeviceIdentity_display_name := lit "desk"; DeviceIdentity_platform := to_i32 DevicePlatform_Macos |} |}.

Lemma identity_persistent_witness :
  toy_start (None, 5) = (Ok toy_identity, (Some (be_bytes 32 5), 6)) ∧
  validate_controller (hi_device_identity toy_identity) = Ok () ∧
  is_ok (toy_start (Some (be_bytes 32 5), 9)).1 = true.
Proof.
  assert (toy_start (None, 5) = (Ok toy_identity, (Some (be_bytes 32 5), 6))) as Hs
    by (vm_compute; reflexivity).
  destruct (identity_persistent (lit "desk") (lit "desk") DevicePlatform_Macos DevicePlatform_Macos None
    (Some (be_bytes 32 5)) (Some (be_bytes 32 5)) 5 6 9 toy_identity Hs eq_refl) as (_&Hv&_).
  split; [exact Hs|]. split; [exact Hv|]. vm_compute. reflexivity.
Defined.

(** The answer of a session this Host may sign, and one that names another Host. *)
Definition toy_answer (host : bytes) : CanonicalTranscript :=
  {| ct_purpose := SessionAnswer;
     ct_fields := map (λ tag, {| tf_tag := tag;
       tf_value := if tag =? 2 then host else be_bytes (Z.to_nat (field_length tag)) tag |})
       (required_tags SessionAnswer) |}.

Definition toy_sign (host : bytes) : result IdentityError bytes :=
  match encode_transcript (toy_answer host) with
  | Ok b => sign_request toy_identity (SR_Canonical b)
  | Err _ => Err IE_InvalidSeed
  end.

Example toy_sign_other : toy_sign (be_bytes 32 64) = Err IE_HostDeviceIdMismatch.
Proof. vm_compute. reflexivity. Qed.

Lemma signing_confined_witness :
  identity_wf toy_identity ∧
  ∃ b sig, encode_transcript (toy_answer (be_bytes 32 63)) = Ok b ∧
    sign_request toy_identity (SR_Canonical b) = Ok sig ∧
    ed25519_verify (be_bytes 32 5) b sig = true.
Proof.
  assert (identity_wf toy_identity) as Hw by (split; vm_compute; reflexivity).
  split; [exact Hw|].
  assert (is_ok (toy_sign (be_bytes 32 63)) = true) as Hok by (vm_compute; reflexivity).
  unfold toy_sign in Hok. destruct (encode_transcript (toy_answer (be_bytes 32 63))) as [b|e] eqn:He;
    [|discriminate Hok].
  destruct (sign_request toy_identity (SR_Canonical b)) as [sig|e] eqn:Hs; [|discriminate Hok].
  exists b, sig. split; [reflexivity|]. split; [exact Hs|].
  exact (proj1 (proj2 (signing_confined toy_identity (SR_Canonical b) sig Hw) Hs)).
Defined.
