(* ===== verification/PairingCrypto.v ===== *)
(** The cryptography of pairing: the key schedule, nonces, associated data and short
    authentication string of gen/rust/src/pairing_crypto.rs, and the messages built on them in
    crates/host-agent/src/pairing_crypto.rs.

    X25519, HKDF and AES-GCM are interfaces; the theorems are about what the code makes of
    them: which inputs are bound, which nonces are used, what is accepted. *)
From S2P Require Import Prelude Limits Messages Crypto Transcript Validation Wordlist.

Local Open Scope Z_scope.

(** * Primitives *)

(** [PublicKey::from(&StaticSecret)] and [diffie_hellman] of x25519-dalek. *)
Class X25519 := { x25519_base : bytes → bytes; x25519 : bytes → bytes → bytes }.

(** [Hkdf::<Sha256>::new(Some(salt), ikm).expand(info, &mut [0; 32])]. *)
Class HkdfSha256 := { hkdf_expand : bytes → bytes → bytes → option bytes }.

(** [encrypt] and [decrypt] of the aes-gcm crate: key, nonce, associated data, message. *)
Class Aes256Gcm := {
  aes_encrypt : bytes → bytes → bytes → bytes → option bytes;
  aes_decrypt : bytes → bytes → bytes → bytes → option bytes
}.

Class Aes256GcmLaws `{Aes256Gcm} : Prop := {
  decrypt_encrypt key nonce aad msg c :
    aes_encrypt key nonce aad msg = Some c → aes_decrypt key nonce aad c = Some msg;
  encrypt_len key nonce aad msg c :
    aes_encrypt key nonce aad msg = Some c → len c = len msg + 16
}.

(** * Pairing Crypto V1 *)

Definition AAD_MAGIC : bytes := as_bytes (lit "PRDP").
Definition CRYPTO_VERSION : Z := 1.
Definition AES_GCM_TAG_BYTES : Z := 16.
Definition MAX_PAIRING_SEQUENCE : Z := 9223372036854775807.
Definition CONTROLLER_TO_HOST_INFO : bytes :=
  as_bytes (lit "personal-remote-desktop/pairing/v1/controller-to-host").
Definition HOST_TO_CONTROLLER_INFO : bytes :=
  as_bytes (lit "personal-remote-desktop/pairing/v1/host-to-controller").

Inductive CryptoDirection := ControllerToHost | HostToController.

#[export] Instance CryptoDirection_eq_dec : EqDecision CryptoDirection.
Proof. solve_decision. Defined.

Definition direction_code (d : CryptoDirection) : Z :=
  match d with ControllerToHost => 1 | HostToController => 2 end.

Definition nonce_prefix (d : CryptoDirection) : bytes :=
  match d with
  | ControllerToHost => as_bytes (lit "C2H") ++ [byte_of 1]
  | HostToController => as_bytes (lit "H2C") ++ [byte_of 1]
  end.

Inductive PairingCryptoError :=
| PC_InvalidLength | PC_InvalidSequence | PC_InvalidPublicKey | PC_InvalidWordList
| PC_KeyDerivation | PC_AuthenticationFailed.

#[export] Instance PairingCryptoError_eq_dec : EqDecision PairingCryptoError.
Proof. solve_decision. Defined.

Record PairingKeySchedule := { pk_controller_to_host : bytes; pk_host_to_controller : bytes }.

Record PairingSequenceValidator := { sv_next : Z; sv_exhausted : bool }.

Definition PairingSequenceValidator_new : PairingSequenceValidator :=
  {| sv_next := 1; sv_exhausted := false |}.

Definition PairingSequenceValidator_accept (sequence : Z)
    : M PairingSequenceValidator PairingCryptoError unit :=
  self ← get;
  fail_if (sv_exhausted self || negb (sequence =? sv_next self) || (MAX_PAIRING_SEQUENCE <? sequence))
          PC_InvalidSequence;;
  if sequence =? MAX_PAIRING_SEQUENCE
  then put {| sv_next := sv_next self; sv_exhausted := true |}
  else put {| sv_next := sv_next self + 1; sv_exhausted := sv_exhausted self |}.

Definition require_length (value : bytes) (expected : Z) : result PairingCryptoError unit :=
  fail_if (negb (len value =? expected)) PC_InvalidLength.

Definition all_zero (bs : bytes) : bool := forallb (λ byte, byte_val byte =? 0) bs.

Definition x25519_public_key `{X25519} (private_key : bytes) : result PairingCryptoError bytes :=
  private ← ok_or (array_of 32 private_key) PC_InvalidLength;
  mret (x25519_base private).

Definition x25519_shared_secret `{X25519} (private_key remote_public_key : bytes)
    : result PairingCryptoError bytes :=
  private ← ok_or (array_of 32 private_key) PC_InvalidLength;
  public ← ok_or (array_of 32 remote_public_key) PC_InvalidLength;
  let shared := x25519 private public in
  fail_if (all_zero shared) PC_InvalidPublicKey;;
  mret shared.

(** Byte [i] of a digest whose length was checked. *)
Definition byte_at (bs : bytes) (i : nat) : Z := byte_val (nth i bs (byte_of 0)).

Definition sas_indexes (transcript_sha256 : bytes) : result PairingCryptoError (list Z) :=
  require_length transcript_sha256 NONCE_OR_HASH_BYTES;;
  let b := byte_at transcript_sha256 in
  mret [Z.lor (Z.shiftl (b 0%nat) 3) (Z.shiftr (b 1%nat) 5);
        Z.lor (Z.shiftl (Z.land (b 1%nat) 31) 6) (Z.shiftr (b 2%nat) 2);
        Z.lor (Z.lor (Z.shiftl (Z.land (b 2%nat) 3) 9) (Z.shiftl (b 3%nat) 1)) (Z.shiftr (b 4%nat) 7);
        Z.lor (Z.shiftl (Z.land (b 4%nat) 127) 4) (Z.shiftr (b 5%nat) 4)].

(** [u8::is_ascii_lowercase]. *)
Definition is_ascii_lowercase (b : byte) : bool := (97 <=? byte_val b) && (byte_val b <=? 122).

Definition bad_word (word : text) : bool :=
  bool_decide (word = []) || (8 <? text_len word) || negb (forallb is_ascii_lowercase (as_bytes word)).

(** The words at the indexes; that they are in range is part of [sas_exact]. *)
Definition sas_words (transcript_sha256 : bytes) (word_list : list text)
    : result PairingCryptoError (list text) :=
  fail_if (negb (len word_list =? 2048) || existsb bad_word word_list) PC_InvalidWordList;;
  indexes ← sas_indexes transcript_sha256;
  mret (map (λ i, nth (Z.to_nat i) word_list []) indexes).

Definition derive_pairing_keys `{HkdfSha256} (shared_secret transcript_sha256 : bytes)
    : result PairingCryptoError PairingKeySchedule :=
  require_length shared_secret PUBLIC_KEY_BYTES;;
  require_length transcript_sha256 NONCE_OR_HASH_BYTES;;
  fail_if (all_zero shared_secret) PC_InvalidPublicKey;;
  controller_to_host ← ok_or (hkdf_expand transcript_sha256 shared_secret CONTROLLER_TO_HOST_INFO)
                         PC_KeyDerivation;
  host_to_controller ← ok_or (hkdf_expand transcript_sha256 shared_secret HOST_TO_CONTROLLER_INFO)
                         PC_KeyDerivation;
  mret {| pk_controller_to_host := controller_to_host; pk_host_to_controller := host_to_controller |}.

Definition pairing_nonce (direction : CryptoDirection) (sequence : Z)
    : result PairingCryptoError bytes :=
  fail_if ((sequence =? 0) || (MAX_PAIRING_SEQUENCE <? sequence)) PC_InvalidSequence;;
  mret (nonce_prefix direction ++ be_bytes 8 sequence).

Definition pairing_aad (direction : CryptoDirection) (sequence : Z)
    (rendezvous_id controller_device_id host_device_id : bytes) : result PairingCryptoError bytes :=
  require_length rendezvous_id RENDEZVOUS_ID_BYTES;;
  require_length controller_device_id DEVICE_ID_BYTES;;
  require_length host_device_id DEVICE_ID_BYTES;;
  pairing_nonce direction sequence ≫= λ _,
  mret (AAD_MAGIC ++ be_bytes 2 CRYPTO_VERSION ++ [byte_of (direction_code direction)] ++
        be_bytes 8 sequence ++ rendezvous_id ++ controller_device_id ++ host_device_id).

Definition seal_pairing_payload `{Aes256Gcm} (key : bytes) (direction : CryptoDirection) (sequence : Z)
    (aad plaintext : bytes) : result PairingCryptoError bytes :=
  require_length key 32;;
  fail_if (MAX_PAIRING_CIPHERTEXT_BYTES - AES_GCM_TAG_BYTES <? len plaintext) PC_InvalidLength;;
  cipher ← ok_or (array_of 32 key) PC_InvalidLength;
  nonce ← pairing_nonce direction sequence;
  ok_or (aes_encrypt cipher nonce aad plaintext) PC_AuthenticationFailed.

Definition open_pairing_payload `{Aes256Gcm} (key : bytes) (direction : CryptoDirection) (sequence : Z)
    (aad ciphertext_and_tag : bytes) : result PairingCryptoError bytes :=
  require_length key 32;;
  fail_if (negb ((AES_GCM_TAG_BYTES <=? len ciphertext_and_tag) &&
                 (len ciphertext_and_tag <=? MAX_PAIRING_CIPHERTEXT_BYTES))) PC_InvalidLength;;
  cipher ← ok_or (array_of 32 key) PC_InvalidLength;
  nonce ← pairing_nonce direction sequence;
  ok_or (aes_decrypt cipher nonce aad ciphertext_and_tag) PC_AuthenticationFailed.

(** * The messages of the Host *)

Inductive HostPairingCryptoError :=
| HPC_InvalidMessage | HPC_InvalidIdentity | HPC_TranscriptMismatch | HPC_InvalidSignature
| HPC_Cryptography.

#[export] Instance HostPairingCryptoError_eq_dec : EqDecision HostPairingCryptoError.
Proof. solve_decision. Defined.

Record VerifiedControllerHello := {
  vh_controller : DeviceIdentity;
  vh_controller_ephemeral_public_key : bytes;
  vh_transcript : bytes;
  vh_transcript_sha256 : bytes;
  vh_keys : PairingKeySchedule
}.

Definition strict_decode {T} `{Message T} (encoded : bytes) : result HostPairingCryptoError T :=
  value ← ok_or (decode encoded) HPC_InvalidMessage;
  fail_if (negb (bool_decide (encode_to_vec value = encoded))) HPC_InvalidMessage;;
  mret value.

Definition decode_pairing_message `{Message PairingMessage} (encoded : bytes)
    : result HostPairingCryptoError PairingMessage := strict_decode encoded.

Definition encode_pairing_payload `{Message PairingMessage} (payload : PairingMessage_Payload) : bytes :=
  encode_to_vec {| PairingMessage_payload := Some payload |}.

(** [values.into_iter().enumerate()] into fields. *)
Fixpoint numbered_fields (index : Z) (values : list bytes) : list TranscriptField :=
  match values with
  | [] => []
  | value :: values => {| tf_tag := index + 1; tf_value := value |} :: numbered_fields (index + 1) values
  end.

Definition encode_pairing_transcript (controller host : DeviceIdentity)
    (rendezvous_id controller_ephemeral_public_key host_ephemeral_public_key : bytes)
    : result HostPairingCryptoError bytes :=
  fail_if (negb (len (DeviceIdentity_device_id controller) =? DEVICE_ID_BYTES) ||
           negb (len (DeviceIdentity_device_id host) =? DEVICE_ID_BYTES) ||
           negb (len rendezvous_id =? RENDEZVOUS_ID_BYTES)) HPC_InvalidMessage;;
  map_err (λ _, HPC_InvalidMessage) (encode_transcript
    {| ct_purpose := PairingSas;
       ct_fields := numbered_fields 0
         [DeviceIdentity_device_id controller; DeviceIdentity_device_id host; rendezvous_id;
          DeviceIdentity_public_key controller; DeviceIdentity_public_key host;
          controller_ephemeral_public_key; host_ephemeral_public_key] |}).

Section messages.
Context `{Sha256, Ed25519, X25519, HkdfSha256, Aes256Gcm, Message PairingMessage, Message PairingPlaintext}.

Definition verify_controller_hello (hello : ControllerPairingHello)
    (sender_device_id expected_rendezvous_id : bytes) (host_identity : DeviceIdentity)
    (host_ephemeral_private_key host_ephemeral_public_key : bytes)
    : result HostPairingCryptoError VerifiedControllerHello :=
  fail_if (negb (bool_decide (ControllerPairingHello_rendezvous_id hello = expected_rendezvous_id)) ||
           negb (len (ControllerPairingHello_rendezvous_id hello) =? RENDEZVOUS_ID_BYTES) ||
           negb (len (ControllerPairingHello_ephemeral_public_key hello) =? PUBLIC_KEY_BYTES) ||
           negb (len (ControllerPairingHello_transcript_sha256 hello) =? NONCE_OR_HASH_BYTES) ||
           negb (len (ControllerPairingHello_signature hello) =? SIGNATURE_BYTES)) HPC_InvalidMessage;;
  controller ← ok_or (ControllerPairingHello_identity hello) HPC_InvalidIdentity;
  map_err (λ _, HPC_InvalidIdentity) (validate_device_identity controller);;
  fail_if (bool_decide (DeviceIdentity_display_name controller = []) ||
           negb (bool_decide (DeviceIdentity_device_id controller = sender_device_id)) ||
           bool_decide (DeviceIdentity_device_id controller = DeviceIdentity_device_id host_identity))
          HPC_InvalidIdentity;;
  controller_public_key ← ok_or (array_of PUBLIC_KEY_BYTES (DeviceIdentity_public_key controller))
                            HPC_InvalidIdentity;
  derived ← map_err (λ _, HPC_InvalidIdentity) (derive_device_id_v1 controller_public_key);
  fail_if (negb (bool_decide (derived = DeviceIdentity_device_id controller))) HPC_InvalidIdentity;;
  transcript ← encode_pairing_transcript controller host_identity expected_rendezvous_id
                 (ControllerPairingHello_ephemeral_public_key hello) host_ephemeral_public_key;
  let transcript_digest := sha256 transcript in
  fail_if (negb (bool_decide (ControllerPairingHello_transcript_sha256 hello = transcript_digest)))
          HPC_TranscriptMismatch;;
  fail_if (negb (is_signature (ControllerPairingHello_signature hello))) HPC_InvalidSignature;;
  fail_if (negb (is_verifying_key controller_public_key)) HPC_InvalidIdentity;;
  fail_if (negb (ed25519_verify controller_public_key transcript (ControllerPairingHello_signature hello)))
          HPC_InvalidSignature;;
  shared_secret ← map_err (λ _, HPC_Cryptography)
    (x25519_shared_secret host_ephemeral_private_key (ControllerPairingHello_ephemeral_public_key hello));
  keys ← map_err (λ _, HPC_Cryptography) (derive_pairing_keys shared_secret transcript_digest);
  mret {| vh_controller := controller;
          vh_controller_ephemeral_public_key := ControllerPairingHello_ephemeral_public_key hello;
          vh_transcript := transcript; vh_transcript_sha256 := transcript_digest; vh_keys := keys |}.

Definition seal_host_plaintext (key : bytes) (sequence : Z)
    (rendezvous_id controller_device_id host_device_id : bytes) (plaintext : PairingPlaintext)
    : result HostPairingCryptoError bytes :=
  aad ← map_err (λ _, HPC_Cryptography)
          (pairing_aad HostToController sequence rendezvous_id controller_device_id host_device_id);
  ciphertext ← map_err (λ _, HPC_Cryptography)
    (seal_pairing_payload key HostToController sequence aad (encode_to_vec plaintext));
  mret (encode_pairing_payload (PairingMessage_Payload_EncryptedEnvelope
    {| EncryptedPairingEnvelope_protocol_version :=
         Some {| ProtocolVersion_major := PROTOCOL_MAJOR_VERSION; ProtocolVersion_minor := 0 |};
       EncryptedPairingEnvelope_rendezvous_id := rendezvous_id;
       EncryptedPairingEnvelope_direction := to_i32 PairingDirection_HostToController;
       EncryptedPairingEnvelope_sequence := sequence;
       EncryptedPairingEnvelope_ciphertext := ciphertext |})).

Definition open_controller_plaintext (key : bytes) (expected_sequence : Z)
    (rendezvous_id controller_device_id host_device_id encoded : bytes)
    : result HostPairingCryptoError PairingPlaintext :=
  message ← decode_pairing_message encoded;
  match PairingMessage_payload message with
  | Some (PairingMessage_Payload_EncryptedEnvelope envelope) =>
      version ← ok_or (EncryptedPairingEnvelope_protocol_version envelope) HPC_InvalidMessage;
      fail_if (negb (ProtocolVersion_major version =? PROTOCOL_MAJOR_VERSION) ||
               negb (bool_decide (EncryptedPairingEnvelope_rendezvous_id envelope = rendezvous_id)) ||
               negb (EncryptedPairingEnvelope_direction envelope =? to_i32 PairingDirection_ControllerToHost) ||
               negb (EncryptedPairingEnvelope_sequence envelope =? expected_sequence)) HPC_InvalidMessage;;
      aad ← map_err (λ _, HPC_Cryptography)
        (pairing_aad ControllerToHost expected_sequence rendezvous_id controller_device_id host_device_id);
      plaintext ← map_err (λ _, HPC_Cryptography)
        (open_pairing_payload key ControllerToHost expected_sequence aad
           (EncryptedPairingEnvelope_ciphertext envelope));
      strict_decode plaintext
  | _ => Err HPC_InvalidMessage
  end.
End messages.

Definition pairing_sas_words (transcript_sha256 : bytes) : result HostPairingCryptoError (list text) :=
  let word_list := lit <$> BIP39_ENGLISH in
  map_err (λ _, HPC_Cryptography) (sas_words transcript_sha256 word_list).

Definition public_key_fingerprint `{Sha256} (public_key : bytes) : bytes := sha256 public_key.

(** * The short authentication string *)

(** The first 44 bits of a digest, and the words they stand for. *)
Definition first_44_bits (digest : bytes) : Z := be_val (take 6 digest) `div` 16.

Definition word_of (i : Z) : text := nth (Z.to_nat i) (lit <$> BIP39_ENGLISH) [].

Definition words_of (bits : Z) : list text :=
  map word_of [bits `div` 8589934592; bits `div` 4194304 `mod` 2048; bits `div` 2048 `mod` 2048;
               bits `mod` 2048].

(** Linear arithmetic with divisions by constants. *)
Ltac eucl :=
  first [reflexivity|rewrite ?Z.shiftl_mul_pow2 by lia; Z.to_euclidean_division_equations; lia].

Lemma lor_disjoint a b n : 0 <= n → 0 <= b < 2 ^ n → Z.lor (Z.shiftl a n) b = a * 2 ^ n + b.
Proof.
  intros Hn Hb. rewrite <- Z.shiftl_mul_pow2 by done. rewrite <- Z.add_lor_land.
  assert (Z.land (Z.shiftl a n) b = 0) as ->; [|lia].
  apply Z.bits_inj'. intros i Hi. rewrite Z.land_spec, Z.bits_0.
  destruct (decide (i < n)) as [Hlt|Hge].
  - by rewrite Z.shiftl_spec_low.
  - replace (Z.testbit b i) with false; [apply andb_false_r|].
    symmetry. destruct (decide (b = 0)) as [->|Hnz]; [apply Z.bits_0|].
    apply Z.bits_above_log2; [lia|]. apply Z.log2_lt_pow2; [lia|].
    apply Z.lt_le_trans with (2 ^ n); [lia|]. apply Z.pow_le_mono_r; lia.
Qed.

Lemma lor_add a b n k : 0 <= n → 2 ^ n = k → 0 <= b < k → Z.lor (Z.shiftl a n) b = a * k + b.
Proof. intros Hn <- Hb. by apply lor_disjoint. Qed.

Lemma byte_at_bound d i : 0 <= byte_at d i < 256.
Proof. apply byte_val_bound. Qed.

(** The bit operations of [sas_indexes] cut the first 44 bits into four. *)
Lemma sas_indexes_spec d :
  len d = NONCE_OR_HASH_BYTES →
  sas_indexes d = Ok [first_44_bits d `div` 8589934592; first_44_bits d `div` 4194304 `mod` 2048;
                      first_44_bits d `div` 2048 `mod` 2048; first_44_bits d `mod` 2048].
Proof.
  intros Hl. unfold sas_indexes, require_length. rewrite (proj2 (Z.eqb_eq _ _)) by done.
  cbn [negb fail_if mret mbind result_bind result_ret]. f_equal.
  assert (∃ b0 b1 b2 b3 b4 b5 r, d = b0 :: b1 :: b2 :: b3 :: b4 :: b5 :: r)
    as (b0&b1&b2&b3&b4&b5&r&->).
  { unfold len in Hl. do 6 (destruct d as [|? d]; [simpl in Hl; done|]). eauto 8. }
  unfold first_44_bits, byte_at. simpl nth.
  change (take 6 (b0 :: b1 :: b2 :: b3 :: b4 :: b5 :: r)) with [b0; b1; b2; b3; b4; b5].
  replace (be_val [b0; b1; b2; b3; b4; b5]) with
    (((((byte_val b0 * 256 + byte_val b1) * 256 + byte_val b2) * 256 + byte_val b3) * 256 + byte_val b4) * 256 +
     byte_val b5) by (unfold be_val; simpl; lia).
  pose proof (byte_val_bound b0). pose proof (byte_val_bound b1). pose proof (byte_val_bound b2).
  pose proof (byte_val_bound b3). pose proof (byte_val_bound b4). pose proof (byte_val_bound b5).
  generalize dependent (byte_val b0). generalize dependent (byte_val b1).
  generalize dependent (byte_val b2). generalize dependent (byte_val b3).
  generalize dependent (byte_val b4). generalize dependent (byte_val b5).
  intros x5 Hx5 x4 Hx4 x3 Hx3 x2 Hx2 x1 Hx1 x0 Hx0. clear Hl r.
  change 31 with (Z.ones 5). change 3 with (Z.ones 2) at 2. change 127 with (Z.ones 7).
  rewrite !Z.land_ones, !Z.shiftr_div_pow2 by lia.
  change (2 ^ 2) with 4. change (2 ^ 4) with 16. change (2 ^ 5) with 32. change (2 ^ 7) with 128.
  rewrite (lor_add x0 _ 3 8), (lor_add (x1 mod 32) _ 6 64), (lor_add (x4 mod 128) _ 4 16)
    by eucl.
  rewrite (lor_add (x2 mod 4) _ 9 512) by eucl.
  replace (x2 mod 4 * 512 + Z.shiftl x3 1) with (Z.shiftl (x2 mod 4 * 256 + x3) 1)
    by (rewrite !Z.shiftl_mul_pow2; lia).
  rewrite (lor_add _ _ 1 2) by eucl.
  repeat f_equal; eucl.
Qed.

Lemma first_44_bound d : 0 <= first_44_bits d < 17592186044416.
Proof.
  unfold first_44_bits. pose proof (be_val_bound (take 6 d)) as Hb.
  assert (256 ^ len (take 6 d) <= 256 ^ 6) as Hp.
  { apply Z.pow_le_mono_r; [lia|]. unfold len. rewrite length_take. lia. }
  split; [apply Z.div_pos; lia|apply Z.div_lt_upper_bound; lia].
Qed.

Lemma word_list_ok : negb (len (lit <$> BIP39_ENGLISH) =? 2048) || existsb bad_word (lit <$> BIP39_ENGLISH) = false.
Proof. vm_compute. reflexivity. Qed.

(** A word as a number that orders words of at most eight letters alphabetically. *)
Definition word_code (word : text) : Z :=
  foldl (λ acc c, acc * 256 + c) 0 (word ++ replicate (8 - length word) 0).

Fixpoint increasing (bound : Z) (codes : list Z) : bool :=
  match codes with
  | [] => true
  | code :: codes => (bound <? code) && increasing code codes
  end.

Lemma increasing_above bound codes :
  increasing bound codes = true → NoDup codes ∧ Forall (λ code, bound < code) codes.
Proof.
  revert bound. induction codes as [|code codes IH]; intros bound Hi; simpl in Hi.
  - by split; [apply NoDup_nil|].
  - boolsimpl. destruct (IH code) as [Hd Hf]; [done|]. split.
    + apply NoDup_cons. split; [|done]. intros Hin. rewrite Forall_forall in Hf. specialize (Hf _ Hin). lia.
    + apply Forall_cons. split; [done|]. eapply Forall_impl; [done|]. simpl. lia.
Qed.

(** The list is in alphabetical order. *)
Lemma word_list_sorted : increasing 0 (word_code <$> (lit <$> BIP39_ENGLISH)) = true.
Proof. vm_compute. reflexivity. Qed.

Lemma word_list_NoDup : NoDup (lit <$> BIP39_ENGLISH).
Proof. eapply NoDup_fmap_1, increasing_above, word_list_sorted. Qed.

Lemma word_list_length : length (lit <$> BIP39_ENGLISH) = 2048%nat.
Proof. vm_compute. reflexivity. Qed.

Lemma word_of_inj i j : 0 <= i < 2048 → 0 <= j < 2048 → word_of i = word_of j → i = j.
Proof.
  intros Hi Hj He. pose proof word_list_NoDup as Hd. pose proof word_list_length as Hl.
  assert (∀ k, 0 <= k < 2048 → (lit <$> BIP39_ENGLISH) !! Z.to_nat k = Some (word_of k)) as Hk.
  { intros k Hk. unfold word_of.
    destruct (nth_lookup_or_length (lit <$> BIP39_ENGLISH) (Z.to_nat k) []) as [?|Hge]; [done|lia]. }
  apply Z2Nat.inj; [lia..|]. eapply NoDup_lookup; [exact Hd|by apply Hk|]. by rewrite He, Hk.
Qed.

Lemma words_of_inj n m :
  0 <= n < 17592186044416 → 0 <= m < 17592186044416 → words_of n = words_of m → n = m.
Proof.
  unfold words_of. intros Hn Hm [= H0 H1 H2 H3].
  apply word_of_inj in H0, H1, H2, H3; [|eucl..]. eucl.
Qed.

Lemma pairing_sas_words_spec d :
  pairing_sas_words d =
  if len d =? NONCE_OR_HASH_BYTES then Ok (words_of (first_44_bits d)) else Err HPC_Cryptography.
Proof.
  unfold pairing_sas_words, sas_words. rewrite word_list_ok. cbn [fail_if mret mbind result_bind result_ret].
  destruct (len d =? NONCE_OR_HASH_BYTES) eqn:Hl.
  - boolsimpl. by rewrite sas_indexes_spec.
  - unfold sas_indexes, require_length. by rewrite Hl.
Qed.

(** * The contexts of encryption *)

Lemma pairing_nonce_Ok d n b :
  pairing_nonce d n = Ok b ↔ n ≠ 0 ∧ n <= MAX_PAIRING_SEQUENCE ∧ b = nonce_prefix d ++ be_bytes 8 n.
Proof.
  unfold pairing_nonce. rewrite res_seq, res_fail_if, res_ret, orb_false_iff, Z.eqb_neq, Z.ltb_ge. naive_solver.
Qed.

Lemma pairing_aad_Ok d n r c h b :
  pairing_aad d n r c h = Ok b ↔
  len r = RENDEZVOUS_ID_BYTES ∧ len c = DEVICE_ID_BYTES ∧ len h = DEVICE_ID_BYTES ∧
  n ≠ 0 ∧ n <= MAX_PAIRING_SEQUENCE ∧
  b = AAD_MAGIC ++ be_bytes 2 CRYPTO_VERSION ++ [byte_of (direction_code d)] ++ be_bytes 8 n ++ r ++ c ++ h.
Proof.
  unfold pairing_aad, require_length.
  rewrite !res_seq, !res_fail_if, !negb_false_iff, !Z.eqb_eq, result_bind_Ok.
  setoid_rewrite pairing_nonce_Ok. setoid_rewrite res_ret. naive_solver.
Qed.

Lemma sequence_bytes_inj n m :
  0 <= n <= MAX_PAIRING_SEQUENCE → 0 <= m <= MAX_PAIRING_SEQUENCE → be_bytes 8 n = be_bytes 8 m → n = m.
Proof. unfold MAX_PAIRING_SEQUENCE. intros. apply (be_bytes_inj 8); [lia..|done]. Qed.

(** * The hello of a controller *)

(** What the two sides of a pairing sign: both identities and both ephemeral keys. *)
Definition pairing_transcript (controller host : DeviceIdentity) (rendezvous_id controller_key host_key : bytes)
    : CanonicalTranscript :=
  {| ct_purpose := PairingSas;
     ct_fields :=
       [{| tf_tag := 1; tf_value := DeviceIdentity_device_id controller |};
        {| tf_tag := 2; tf_value := DeviceIdentity_device_id host |};
        {| tf_tag := 3; tf_value := rendezvous_id |};
        {| tf_tag := 4; tf_value := DeviceIdentity_public_key controller |};
        {| tf_tag := 5; tf_value := DeviceIdentity_public_key host |};
        {| tf_tag := 6; tf_value := controller_key |};
        {| tf_tag := 7; tf_value := host_key |}] |}.

Record hello_ok `{Sha256, Ed25519, X25519, HkdfSha256} (hello : ControllerPairingHello)
    (sender rendezvous_id : bytes) (host : DeviceIdentity) (host_private host_public : bytes)
    (v : VerifiedControllerHello) : Prop := {
  ho_identity : ControllerPairingHello_identity hello = Some (vh_controller v) ∧
    validate_device_identity (vh_controller v) = Ok () ∧
    DeviceIdentity_display_name (vh_controller v) ≠ [];
  ho_sender : DeviceIdentity_device_id (vh_controller v) = sender ∧
    sender ≠ DeviceIdentity_device_id host ∧
    derive_device_id_v1 (DeviceIdentity_public_key (vh_controller v)) = Ok sender;
  ho_rendezvous : ControllerPairingHello_rendezvous_id hello = rendezvous_id;
  ho_key : vh_controller_ephemeral_public_key v = ControllerPairingHello_ephemeral_public_key hello;
  ho_transcript : encode_transcript
    (pairing_transcript (vh_controller v) host rendezvous_id (vh_controller_ephemeral_public_key v)
       host_public) = Ok (vh_transcript v);
  ho_digest : vh_transcript_sha256 v = sha256 (vh_transcript v) ∧
    ControllerPairingHello_transcript_sha256 hello = vh_transcript_sha256 v ∧
    len (vh_transcript_sha256 v) = NONCE_OR_HASH_BYTES;
  ho_signature : len (ControllerPairingHello_signature hello) = SIGNATURE_BYTES ∧
    is_signature (ControllerPairingHello_signature hello) = true ∧
    is_verifying_key (DeviceIdentity_public_key (vh_controller v)) = true ∧
    ed25519_verify (DeviceIdentity_public_key (vh_controller v)) (vh_transcript v)
      (ControllerPairingHello_signature hello) = true;
  ho_keys : ∃ shared, x25519_shared_secret host_private (vh_controller_ephemeral_public_key v) = Ok shared ∧
    derive_pairing_keys shared (vh_transcript_sha256 v) = Ok (vh_keys v)
}.

Section hello.
Context `{Sha256, Ed25519, X25519, HkdfSha256}.

Lemma res_map_err_iff {E E' A} (f : E → E') (r : result E A) a : map_err f r = Ok a ↔ r = Ok a.
Proof. destruct r; naive_solver. Qed.

Lemma validated_lengths (d : DeviceIdentity) :
  validate_device_identity d = Ok () →
  len (DeviceIdentity_device_id d) = DEVICE_ID_BYTES ∧ len (DeviceIdentity_public_key d) = PUBLIC_KEY_BYTES.
Proof.
  unfold validate_device_identity, validate_length. rewrite !res_seq, !res_fail_if.
  intros (?&?&_). boolsimpl. done.
Qed.

Lemma transcript_lengths c h r k1 k2 b :
  encode_transcript (pairing_transcript c h r k1 k2) = Ok b →
  len (DeviceIdentity_device_id c) = DEVICE_ID_BYTES ∧ len (DeviceIdentity_device_id h) = DEVICE_ID_BYTES ∧
  len r = RENDEZVOUS_ID_BYTES ∧ len k1 = PUBLIC_KEY_BYTES.
Proof.
  intros [[_ Hw] _]%encode_Ok_iff. unfold pairing_transcript in Hw. simpl in Hw.
  apply Forall_cons in Hw as [? Hw]. apply Forall_cons in Hw as [? Hw]. apply Forall_cons in Hw as [? Hw].
  apply Forall_cons in Hw as [_ Hw]. apply Forall_cons in Hw as [_ Hw]. apply Forall_cons in Hw as [? _].
  done.
Qed.

Lemma pairing_transcript_Ok c h r k1 k2 b :
  encode_pairing_transcript c h r k1 k2 = Ok b ↔ encode_transcript (pairing_transcript c h r k1 k2) = Ok b.
Proof.
  unfold encode_pairing_transcript.
  change {| ct_purpose := PairingSas; ct_fields := numbered_fields 0 _ |} with (pairing_transcript c h r k1 k2).
  rewrite res_seq, res_fail_if, res_map_err_iff. split; [by intros [_ ?]|]. intros Hb. split; [|done].
  apply transcript_lengths in Hb as (->&->&->&_). done.
Qed.

Lemma verify_hello_iff hello sender rid host priv pub v :
  verify_controller_hello hello sender rid host priv pub = Ok v ↔ hello_ok hello sender rid host priv pub v.
Proof.
  unfold verify_controller_hello. rewrite res_seq, res_fail_if. split.
  - intros [Hf (c&Hc&(Hv%res_map_err_iff&(Hn%res_fail_if&(pk&[-> Hpk]%array_of_Some&Hr)%res_ok_or)%res_seq)%res_seq)%res_ok_or].
    boolsimpl.
    apply result_bind_Ok in Hr as (id&Hid%res_map_err_iff&(Hi%res_fail_if&Hr)%res_seq). boolsimpl.
    apply result_bind_Ok in Hr as (t&Ht%pairing_transcript_Ok&(Hd%res_fail_if&(Hs%res_fail_if&(Hk%res_fail_if&
      (Hver%res_fail_if&Hr)%res_seq)%res_seq)%res_seq)%res_seq). boolsimpl.
    apply result_bind_Ok in Hr as (sh&Hsh%res_map_err_iff&(keys&Hkeys%res_map_err_iff&[= <-])%result_bind_Ok).
    split; simpl; try done; try (split_and!; congruence). by exists sh.
  - intros [(Hi&Hval&Hname) (Hs&Hh&Hder) Hr Hk Ht (Hd&Hd'&Hl) (Hsl&Hsig&Hvk&Hver) (sh&Hsh&Hkeys)].
    pose proof (validated_lengths _ Hval) as [Hid Hpk].
    pose proof (transcript_lengths _ _ _ _ _ _ Ht) as (_&_&Hrl&Hkl).
    rewrite <- Hk, Hr, Hd', Hi. split; [by rewrite Hrl, Hkl, Hl, Hsl, bool_decide_eq_true_2|].
    cbn [ok_or mret mbind result_bind result_ret]. rewrite Hval. cbn [map_err mbind result_bind].
    rewrite bool_decide_eq_false_2, (bool_decide_eq_true_2 (_ = sender)), bool_decide_eq_false_2 by congruence.
    cbn [orb negb fail_if mret mbind result_bind result_ret]. unfold array_of. rewrite decide_True by done.
    cbn [ok_or mret mbind result_bind result_ret]. rewrite Hder. cbn [map_err mbind result_bind].
    rewrite bool_decide_eq_true_2 by done. cbn [negb fail_if mret mbind result_bind result_ret].
    rewrite (proj2 (pairing_transcript_Ok _ _ _ _ _ _) Ht). cbn [mbind result_bind].
    rewrite bool_decide_eq_true_2, Hsig, Hvk, Hver by congruence.
    cbn [negb fail_if mret mbind result_bind result_ret].
    rewrite Hsh. cbn [map_err mbind result_bind]. rewrite <- Hd, Hkeys. cbn [map_err mbind result_bind mret result_ret].
    by destruct v.
Qed.
End hello.

(** * Properties *)

(** The words a user compares carry exactly 44 bits of the transcript: for every 32-byte
    digest the four words are those of the fixed list at the four 11-bit parts of its first 44
    bits, every index in range, any other length is an error, and since the 2048 words of the
    list are distinct, two digests show the same words exactly if those 44 bits agree. *)
Theorem sas_exact (d1 d2 : bytes) :
  pairing_sas_words d1 =
    (if len d1 =? NONCE_OR_HASH_BYTES then Ok (words_of (first_44_bits d1)) else Err HPC_Cryptography) ∧
  (words_of (first_44_bits d1) = words_of (first_44_bits d2) ↔ first_44_bits d1 = first_44_bits d2) ∧
  Forall (λ word, word ∈ lit <$> BIP39_ENGLISH) (words_of (first_44_bits d1)).
Proof.
  split; [apply pairing_sas_words_spec|]. pose proof (first_44_bound d1) as H1. pose proof (first_44_bound d2).
  split; [split; [by apply words_of_inj|congruence]|].
  assert (∀ i, 0 <= i < 2048 → word_of i ∈ lit <$> BIP39_ENGLISH) as Hin.
  { intros i Hi. pose proof word_list_length. unfold word_of. apply list_elem_of_In, nth_In. lia. }
  unfold words_of. simpl. repeat (apply Forall_cons; split; [apply Hin; eucl|]). by apply Forall_nil.
Qed.

(** A sealed pairing message opens exactly where it belongs: under the same key, direction,
    sequence and associated data it opens to the plaintext, it stays within the size the
    protocol allows, and its associated data fixes the direction, the sequence, the rendezvous
    and both devices, as its nonce fixes the direction and the sequence, so no two messages of
    a pairing share a nonce. *)
Theorem pairing_payload_bound `{Aes256GcmLaws} (key : bytes) (d d' : CryptoDirection) (n n' : Z)
    (r r' c c' h h' aad plaintext sealed : bytes) :
  0 <= n → 0 <= n' →
  pairing_aad d n r c h = Ok aad → seal_pairing_payload key d n aad plaintext = Ok sealed →
  open_pairing_payload key d n aad sealed = Ok plaintext ∧ len sealed <= MAX_PAIRING_CIPHERTEXT_BYTES ∧
  (pairing_aad d' n' r' c' h' = Ok aad → d' = d ∧ n' = n ∧ r' = r ∧ c' = c ∧ h' = h) ∧
  (pairing_nonce d' n' = pairing_nonce d n → d' = d ∧ n' = n).
Proof.
  intros Hn Hn' Ha Hs. pose proof Ha as (Hr&Hc&Hh&Hn0&Hmax&->)%pairing_aad_Ok.
  unfold seal_pairing_payload in Hs. unfold open_pairing_payload.
  apply res_seq in Hs as [Hk (Hl%res_fail_if&(cipher&[-> Hkey]%array_of_Some&(o&Ho&Hs)%result_bind_Ok)%res_ok_or)%res_seq].
  destruct (aes_encrypt _ _ _ _) as [ct|] eqn:Hct in Hs; [|done]. injection Hs as ->.
  pose proof (encrypt_len _ _ _ _ _ Hct) as Hlen. apply decrypt_encrypt in Hct. boolsimpl.
  unfold AES_GCM_TAG_BYTES in *. pose proof (len_nonneg plaintext).
  split_and!; [|lia|..].
  - rewrite Hk. cbn [mbind result_bind]. rewrite !(proj2 (Z.leb_le _ _)) by lia.
    cbn [andb negb fail_if mret mbind result_bind result_ret]. unfold array_of. rewrite decide_True by done.
    cbn [ok_or mret mbind result_bind result_ret]. rewrite Ho. cbn [mbind result_bind]. by rewrite Hct.
  - intros (Hr'&Hc'&Hh'&_&Hmax'&Heq)%pairing_aad_Ok.
    apply app_inj_len in Heq as [_ Heq]; [|done]. apply app_inj_len in Heq as [_ Heq]; [|done].
    apply app_inj_len in Heq as [Hd Heq]; [|done].
    apply app_inj_len in Heq as [Hb Heq]; [|by rewrite !len_be_bytes].
    apply app_inj_len in Heq as [-> Heq]; [|congruence]. apply app_inj_len in Heq as [-> ->]; [|congruence].
    apply sequence_bytes_inj in Hb; [|lia..]. split_and!; [by destruct d, d'|done..].
  - unfold pairing_nonce at 2. rewrite (proj2 (Z.eqb_neq _ _)), (proj2 (Z.ltb_ge _ _)) by done.
    cbn [orb fail_if mret mbind result_bind result_ret]. intros (_&Hmax'&Heq)%pairing_nonce_Ok.
    symmetry in Heq. apply app_inj_len in Heq as [Hp Hb]; [|by destruct d, d'].
    apply sequence_bytes_inj in Hb; [|lia..]. split; [by destruct d, d'|done].
Qed.

(** C31. A controller's hello is verified exactly: it is accepted if and only if it names this
    rendezvous, comes from the device whose identifier derives from the public key it presents,
    which is not the Host itself, its transcript of both identities and both ephemeral keys is
    the one the Host computes, its digest is that transcript's, its signature verifies under
    the presented key, and the shared secret and the keys derive; what is returned is that
    controller and those keys. *)
Theorem hello_verified_exact `{Sha256, Ed25519, X25519, HkdfSha256} (hello : ControllerPairingHello)
    (sender rendezvous_id : bytes) (host : DeviceIdentity) (host_private host_public : bytes)
    (v : VerifiedControllerHello) :
  verify_controller_hello hello sender rendezvous_id host host_private host_public = Ok v ↔
  hello_ok hello sender rendezvous_id host host_private host_public v.
Proof. apply verify_hello_iff. Qed.

(** * A concrete cipher *)

#[local] Instance toy_cipher : Aes256Gcm := {
  aes_encrypt key nonce aad msg := Some (msg ++ be_bytes 16 (be_val key + be_val nonce + be_val aad));
  aes_decrypt key nonce aad c := Some (take (length c - 16) c)
}.

#[local] Instance toy_cipher_laws : Aes256GcmLaws.
Proof.
  split.
  - intros key nonce aad msg c [= <-]. unfold aes_decrypt, toy_cipher.
    rewrite length_app, length_be_bytes, Nat.add_sub. by rewrite take_app_length.
  - intros key nonce aad msg c [= <-]. by rewrite len_app, len_be_bytes.
Qed.

Lemma pairing_payload_bound_witness :
  ∃ aad sealed, pairing_aad HostToController 2 (be_bytes 16 1) (be_bytes 32 2) (be_bytes 32 3) = Ok aad ∧
    seal_pairing_payload (be_bytes 32 4) HostToController 2 aad (as_bytes (lit "hello")) = Ok sealed ∧
    open_pairing_payload (be_bytes 32 4) HostToController 2 aad sealed = Ok (as_bytes (lit "hello")).
Proof.
  destruct (pairing_aad HostToController 2 (be_bytes 16 1) (be_bytes 32 2) (be_bytes 32 3)) as [aad|] eqn:Ha;
    [|discriminate Ha].
  destruct (seal_pairing_payload (be_bytes 32 4) HostToController 2 aad (as_bytes (lit "hello")))
    as [sealed|] eqn:Hs; [|discriminate Hs].
  exists aad, sealed. split; [reflexivity|]. split; [exact Hs|].
  exact (proj1 (pairing_payload_bound (be_bytes 32 4) HostToController ControllerToHost 2 1 (be_bytes 16 1)
    (be_bytes 16 1) (be_bytes 32 2) (be_bytes 32 2) (be_bytes 32 3) (be_bytes 32 3) aad (as_bytes (lit "hello")) sealed
    ltac:(lia) ltac:(lia) Ha Hs)).
Defined.

Example toy_words :
  pairing_sas_words (be_bytes 32 (2 ^ 255)) = Ok [lit "length"; lit "abandon"; lit "abandon"; lit "abandon"].
Proof. vm_compute. reflexivity. Qed.
