(* ===== verification/Signaling.v ===== *)
(** The signaling client of the Host agent, crates/host-agent/src/signaling.rs, and the
    endpoint policy of signaling/transport.rs.

    [SignalingProtocol] is the state machine of one WebSocket connection: it builds the
    client's frames and judges the server's.  The socket itself belongs to tokio-tungstenite;
    URL parsing belongs to the url crate and is the class [UrlParser]. *)
From S2P Require Import Prelude Limits Messages.

Local Open Scope Z_scope.

(** * Errors and events *)

Inductive SignalingClientError :=
| SC_InvalidDeviceId | SC_InvalidRequestId | SC_InvalidRendezvousId | SC_InvalidPairingKind
| SC_InvalidPairingCode | SC_InvalidPairingCompletion | SC_UnexpectedPairingPeer
| SC_InvalidState | SC_CorrelationMismatch | SC_FrameTooLarge | SC_OpaqueEnvelopeTooLarge
| SC_InvalidFrame | SC_ProtocolUnsupported | SC_UnexpectedPayload | SC_InvalidErrorCode
| SC_InvalidQueueCapacity | SC_QueueFull | SC_InvalidEndpoint | SC_InsecureEndpoint
| SC_EndpointCredentials | SC_Transport | SC_SubprotocolRequired | SC_Closed.

#[export] Instance SignalingClientError_eq_dec : EqDecision SignalingClientError.
Proof. solve_decision. Defined.

Inductive SignalingEvent :=
| SE_Registered (presence_expires_at_unix_ms : Z)
| SE_HeartbeatAcknowledged (server_time_unix_ms presence_expires_at_unix_ms : Z)
| SE_RoutedSession (sender_device_id opaque_envelope : bytes)
| SE_PairingCreated (rendezvous_id : bytes) (kind : PairingRendezvousKind)
    (expires_at_unix_ms : Z)
| SE_PairingJoined (rendezvous_id peer_device_id : bytes) (expires_at_unix_ms : Z)
| SE_RoutedPairing (rendezvous_id sender_device_id opaque_envelope : bytes)
| SE_PairingClosed (rendezvous_id : bytes) (completion : PairingRendezvousCompletion)
| SE_RemoteError (code : ErrorCode) (retryable : bool).

#[export] Instance SignalingEvent_eq_dec : EqDecision SignalingEvent.
Proof. solve_decision. Defined.

(** * State *)

Inductive SignalingState :=
| SS_Disconnected
| SS_Registering (request_id : text)
| SS_Ready.

#[export] Instance SignalingState_eq_dec : EqDecision SignalingState.
Proof. solve_decision. Defined.

Inductive PairingPhase :=
| PP_Creating (request_id : text)
| PP_Inviting
| PP_Joined (peer_device_id : bytes)
| PP_Completing (request_id : text) (completion : PairingRendezvousCompletion).

#[export] Instance PairingPhase_eq_dec : EqDecision PairingPhase.
Proof. solve_decision. Defined.

Record ActivePairing := {
  ap_rendezvous_id : bytes;
  ap_kind : PairingRendezvousKind;
  ap_expires_at_unix_ms : Z;
  ap_phase : PairingPhase
}.

Record SignalingProtocol := {
  sp_device_id : bytes;
  sp_state : SignalingState;
  sp_pairing : option ActivePairing;
  sp_pending_heartbeat : option text
}.

Definition with_state (state : SignalingState) (s : SignalingProtocol) : SignalingProtocol :=
  {| sp_device_id := sp_device_id s; sp_state := state; sp_pairing := sp_pairing s;
     sp_pending_heartbeat := sp_pending_heartbeat s |}.

Definition with_pairing (pairing : option ActivePairing) (s : SignalingProtocol)
    : SignalingProtocol :=
  {| sp_device_id := sp_device_id s; sp_state := sp_state s; sp_pairing := pairing;
     sp_pending_heartbeat := sp_pending_heartbeat s |}.

Definition with_heartbeat (pending : option text) (s : SignalingProtocol) : SignalingProtocol :=
  {| sp_device_id := sp_device_id s; sp_state := sp_state s; sp_pairing := sp_pairing s;
     sp_pending_heartbeat := pending |}.

Definition with_phase (phase : PairingPhase) (a : ActivePairing) : ActivePairing :=
  {| ap_rendezvous_id := ap_rendezvous_id a; ap_kind := ap_kind a;
     ap_expires_at_unix_ms := ap_expires_at_unix_ms a; ap_phase := phase |}.

Abbreviation SP := (M SignalingProtocol SignalingClientError).

(** * Validation *)

Definition validate_request_id (request_id : text) : result SignalingClientError unit :=
  fail_if (bool_decide (request_id = []) || (MAX_REQUEST_ID_UTF8_BYTES <? text_len request_id))
          SC_InvalidRequestId.

Definition validate_rendezvous_id (rendezvous_id : bytes) : result SignalingClientError unit :=
  fail_if (negb (len rendezvous_id =? RENDEZVOUS_ID_BYTES)) SC_InvalidRendezvousId.

(** [u8::is_ascii_uppercase] or one of [b'2'..=b'7']. *)
Definition code_byte (value : byte) : bool :=
  ((65 <=? byte_val value) && (byte_val value <=? 90))
  || ((50 <=? byte_val value) && (byte_val value <=? 55)).

Definition validate_pairing_code (kind : PairingRendezvousKind) (pairing_code : text)
    : result SignalingClientError unit :=
  match kind with
  | PairingRendezvousKind_Qr =>
      fail_if (negb (bool_decide (pairing_code = []))) SC_InvalidPairingCode
  | PairingRendezvousKind_DesktopCode =>
      fail_if (negb ((text_len pairing_code =? DESKTOP_PAIRING_CODE_BYTES)
                     && forallb code_byte (as_bytes pairing_code))) SC_InvalidPairingCode
  | PairingRendezvousKind_Unspecified => mthrow SC_InvalidPairingKind
  end.

Definition client_frame (request_id : text) (payload : SignalingClientFrame_Payload)
    : SignalingClientFrame :=
  {| SignalingClientFrame_protocol_version :=
       Some {| ProtocolVersion_major := PROTOCOL_MAJOR_VERSION;
               ProtocolVersion_minor := MINIMUM_PROTOCOL_MINOR_VERSION |};
     SignalingClientFrame_request_id := request_id;
     SignalingClientFrame_payload := Some payload |}.

(** * Requests *)

Definition SignalingProtocol_new (device_id : bytes)
    : result SignalingClientError SignalingProtocol :=
  fail_if (negb (len device_id =? DEVICE_ID_BYTES)) SC_InvalidDeviceId;;
  mret {| sp_device_id := device_id; sp_state := SS_Disconnected; sp_pairing := None;
          sp_pending_heartbeat := None |}.

Definition registration (request_id : text) : SP SignalingClientFrame :=
  self ← get;
  fail_if (negb (bool_decide (sp_state self = SS_Disconnected))) SC_InvalidState;;
  lift (validate_request_id request_id);;
  modify (with_state (SS_Registering request_id));;
  mret (client_frame request_id (SignalingClientFrame_Payload_Register
    {| RegisterDevice_device_id := sp_device_id self |})).

Definition relay_session (recipient_device_id opaque_envelope : bytes) (request_id : text)
    : SP SignalingClientFrame :=
  self ← get;
  fail_if (MAX_OPAQUE_SIGNALING_ENVELOPE_BYTES <? len opaque_envelope) SC_OpaqueEnvelopeTooLarge;;
  fail_if (negb (bool_decide (sp_state self = SS_Ready))) SC_InvalidState;;
  fail_if (negb (len recipient_device_id =? DEVICE_ID_BYTES)) SC_InvalidDeviceId;;
  lift (validate_request_id request_id);;
  mret (client_frame request_id (SignalingClientFrame_Payload_RelaySession
    {| RelaySessionEnvelope_recipient_device_id := recipient_device_id;
       RelaySessionEnvelope_opaque_envelope := opaque_envelope |})).

Definition create_pairing (rendezvous_id : bytes) (kind : PairingRendezvousKind)
    (pairing_code : text) (request_id : text) : SP SignalingClientFrame :=
  self ← get;
  fail_if (negb (bool_decide (sp_state self = SS_Ready)) || is_some (sp_pairing self))
          SC_InvalidState;;
  lift (validate_rendezvous_id rendezvous_id);;
  lift (validate_pairing_code kind pairing_code);;
  lift (validate_request_id request_id);;
  modify (with_pairing (Some {| ap_rendezvous_id := rendezvous_id; ap_kind := kind;
                                ap_expires_at_unix_ms := 0;
                                ap_phase := PP_Creating request_id |}));;
  mret (client_frame request_id (SignalingClientFrame_Payload_CreateRendezvous
    {| CreatePairingRendezvous_rendezvous_id := rendezvous_id;
       CreatePairingRendezvous_kind := to_i32 kind;
       CreatePairingRendezvous_pairing_code := pairing_code |})).

Definition is_joined (phase : PairingPhase) : bool :=
  match phase with PP_Joined _ => true | _ => false end.

Definition is_inviting_or_joined (phase : PairingPhase) : bool :=
  match phase with PP_Inviting | PP_Joined _ => true | _ => false end.

Definition relay_pairing (rendezvous_id opaque_envelope : bytes) (request_id : text)
    : SP SignalingClientFrame :=
  self ← get;
  fail_if (MAX_OPAQUE_SIGNALING_ENVELOPE_BYTES <? len opaque_envelope) SC_OpaqueEnvelopeTooLarge;;
  lift (validate_rendezvous_id rendezvous_id);;
  lift (validate_request_id request_id);;
  active ← ok_or (sp_pairing self) SC_InvalidState;
  fail_if (negb (bool_decide (sp_state self = SS_Ready))
           || negb (bool_decide (ap_rendezvous_id active = rendezvous_id))
           || negb (is_joined (ap_phase active))) SC_InvalidState;;
  mret (client_frame request_id (SignalingClientFrame_Payload_RelayPairing
    {| RelayPairingEnvelope_rendezvous_id := rendezvous_id;
       RelayPairingEnvelope_opaque_envelope := opaque_envelope |})).

Definition host_completion (completion : PairingRendezvousCompletion) : bool :=
  match completion with
  | PairingRendezvousCompletion_Succeeded | PairingRendezvousCompletion_Rejected => true
  | _ => false
  end.

Definition complete_pairing (rendezvous_id : bytes) (completion : PairingRendezvousCompletion)
    (request_id : text) : SP SignalingClientFrame :=
  self ← get;
  lift (validate_rendezvous_id rendezvous_id);;
  fail_if (negb (host_completion completion)) SC_InvalidPairingCompletion;;
  lift (validate_request_id request_id);;
  active ← ok_or (sp_pairing self) SC_InvalidState;
  fail_if (negb (bool_decide (sp_state self = SS_Ready))
           || negb (bool_decide (ap_rendezvous_id active = rendezvous_id))
           || negb (is_inviting_or_joined (ap_phase active))) SC_InvalidState;;
  modify (with_pairing (Some (with_phase (PP_Completing request_id completion) active)));;
  mret (client_frame request_id (SignalingClientFrame_Payload_CompleteRendezvous
    {| CompletePairingRendezvous_rendezvous_id := rendezvous_id;
       CompletePairingRendezvous_completion := to_i32 completion |})).

Definition disconnected : SP unit :=
  modify (λ s, {| sp_device_id := sp_device_id s; sp_state := SS_Disconnected;
                  sp_pairing := None; sp_pending_heartbeat := None |}).

Definition heartbeat (request_id : text) : SP SignalingClientFrame :=
  self ← get;
  fail_if (negb (bool_decide (sp_state self = SS_Ready)) || is_some (sp_pending_heartbeat self))
          SC_InvalidState;;
  lift (validate_request_id request_id);;
  modify (with_heartbeat (Some request_id));;
  mret (client_frame request_id (SignalingClientFrame_Payload_Heartbeat Build_Heartbeat)).

(** * Server frames *)

Definition handle_heartbeat_acknowledged (request_id : text) (acknowledged : HeartbeatAcknowledged)
    : SP SignalingEvent :=
  self ← get;
  fail_if (negb (bool_decide (sp_state self = SS_Ready))) SC_InvalidState;;
  expected_request_id ← ok_or (sp_pending_heartbeat self) SC_InvalidState;
  fail_if (negb (bool_decide (request_id = expected_request_id))) SC_CorrelationMismatch;;
  fail_if ((HeartbeatAcknowledged_server_time_unix_ms acknowledged =? 0)
           || (HeartbeatAcknowledged_presence_expires_at_unix_ms acknowledged <=?
               HeartbeatAcknowledged_server_time_unix_ms acknowledged)) SC_InvalidFrame;;
  modify (with_heartbeat None);;
  mret (SE_HeartbeatAcknowledged (HeartbeatAcknowledged_server_time_unix_ms acknowledged)
          (HeartbeatAcknowledged_presence_expires_at_unix_ms acknowledged)).

Definition handle_pairing_created (request_id : text) (created : PairingRendezvousCreated)
    : SP SignalingEvent :=
  self ← get;
  kind ← ok_or (try_from (E:=PairingRendezvousKind) (PairingRendezvousCreated_kind created))
           SC_InvalidPairingKind;
  fail_if (bool_decide (kind = PairingRendezvousKind_Unspecified)
           || (PairingRendezvousCreated_expires_at_unix_ms created =? 0)) SC_InvalidFrame;;
  active ← ok_or (sp_pairing self) SC_InvalidState;
  match ap_phase active with
  | PP_Creating expected_request_id =>
      fail_if (negb (bool_decide (request_id = expected_request_id))) SC_CorrelationMismatch;;
      fail_if (negb (bool_decide (PairingRendezvousCreated_rendezvous_id created =
                                  ap_rendezvous_id active))
               || negb (bool_decide (kind = ap_kind active))) SC_CorrelationMismatch;;
      modify (with_pairing (Some
        {| ap_rendezvous_id := ap_rendezvous_id active; ap_kind := ap_kind active;
           ap_expires_at_unix_ms := PairingRendezvousCreated_expires_at_unix_ms created;
           ap_phase := PP_Inviting |}));;
      mret (SE_PairingCreated (PairingRendezvousCreated_rendezvous_id created) kind
              (PairingRendezvousCreated_expires_at_unix_ms created))
  | _ => mthrow SC_InvalidState
  end.

Definition handle_pairing_joined (request_id : text) (joined : PairingRendezvousJoined)
    : SP SignalingEvent :=
  self ← get;
  fail_if (negb (bool_decide (request_id = []))) SC_CorrelationMismatch;;
  active ← ok_or (sp_pairing self) SC_InvalidState;
  fail_if (negb (bool_decide (ap_phase active = PP_Inviting))) SC_InvalidState;;
  fail_if (negb (bool_decide (PairingRendezvousJoined_rendezvous_id joined =
                              ap_rendezvous_id active))
           || negb (PairingRendezvousJoined_expires_at_unix_ms joined =?
                    ap_expires_at_unix_ms active)) SC_CorrelationMismatch;;
  fail_if (negb (len (PairingRendezvousJoined_peer_device_id joined) =? DEVICE_ID_BYTES)
           || bool_decide (PairingRendezvousJoined_peer_device_id joined = sp_device_id self))
          SC_UnexpectedPairingPeer;;
  modify (with_pairing (Some (with_phase
            (PP_Joined (PairingRendezvousJoined_peer_device_id joined)) active)));;
  mret (SE_PairingJoined (PairingRendezvousJoined_rendezvous_id joined)
          (PairingRendezvousJoined_peer_device_id joined)
          (PairingRendezvousJoined_expires_at_unix_ms joined)).

Definition handle_routed_pairing (request_id : text) (routed : RoutedPairingEnvelope)
    : SP SignalingEvent :=
  self ← get;
  fail_if (negb (bool_decide (request_id = []))) SC_CorrelationMismatch;;
  fail_if (MAX_OPAQUE_SIGNALING_ENVELOPE_BYTES <?
           len (RoutedPairingEnvelope_opaque_envelope routed)) SC_OpaqueEnvelopeTooLarge;;
  active ← ok_or (sp_pairing self) SC_InvalidState;
  match ap_phase active with
  | PP_Joined peer_device_id =>
      fail_if (negb (bool_decide (RoutedPairingEnvelope_rendezvous_id routed =
                                  ap_rendezvous_id active))) SC_CorrelationMismatch;;
      fail_if (negb (bool_decide (RoutedPairingEnvelope_sender_device_id routed =
                                  peer_device_id))) SC_UnexpectedPairingPeer;;
      mret (SE_RoutedPairing (RoutedPairingEnvelope_rendezvous_id routed)
              (RoutedPairingEnvelope_sender_device_id routed)
              (RoutedPairingEnvelope_opaque_envelope routed))
  | _ => mthrow SC_InvalidState
  end.

Definition service_completion (completion : PairingRendezvousCompletion) : bool :=
  match completion with
  | PairingRendezvousCompletion_Expired | PairingRendezvousCompletion_Disconnected => true
  | _ => false
  end.

(** The [match &active.phase] of [handle_pairing_closed]. *)
Definition close_allowed (phase : PairingPhase) (request_id : text)
    (completion : PairingRendezvousCompletion) : result SignalingClientError unit :=
  match phase with
  | PP_Completing expected_request_id expected_completion =>
      fail_if (negb (bool_decide (request_id = expected_request_id)
                     && bool_decide (completion = expected_completion))) SC_CorrelationMismatch
  | PP_Inviting | PP_Joined _ =>
      fail_if (negb (bool_decide (request_id = []) && service_completion completion))
              SC_InvalidState
  | PP_Creating _ => mthrow SC_InvalidState
  end.

Definition handle_pairing_closed (request_id : text) (closed : PairingRendezvousClosed)
    : SP SignalingEvent :=
  self ← get;
  completion ← ok_or (try_from (E:=PairingRendezvousCompletion)
                        (PairingRendezvousClosed_completion closed)) SC_InvalidPairingCompletion;
  fail_if (bool_decide (completion = PairingRendezvousCompletion_Unspecified))
          SC_InvalidPairingCompletion;;
  active ← ok_or (sp_pairing self) SC_InvalidState;
  fail_if (negb (bool_decide (PairingRendezvousClosed_rendezvous_id closed =
                              ap_rendezvous_id active))) SC_CorrelationMismatch;;
  lift (close_allowed (ap_phase active) request_id completion);;
  modify (with_pairing None);;
  mret (SE_PairingClosed (PairingRendezvousClosed_rendezvous_id closed) completion).

(** The rendezvous waits for the answer to exactly this request. *)
Definition clears_pairing (request_id : text) (active : ActivePairing) : bool :=
  match ap_phase active with
  | PP_Creating id | PP_Completing id _ => bool_decide (id = request_id)
  | _ => false
  end.

Section Decoding.
Context `{Message SignalingServerFrame}.

Definition handle_registered (request_id : text) (registered : RegistrationAccepted)
    : SP SignalingEvent :=
  self ← get;
  match sp_state self with
  | SS_Registering expected_request_id =>
      fail_if (negb (bool_decide (request_id = expected_request_id))) SC_CorrelationMismatch;;
      fail_if (negb (bool_decide (RegistrationAccepted_device_id registered = sp_device_id self)))
              SC_InvalidDeviceId;;
      modify (with_state SS_Ready);;
      mret (SE_Registered (RegistrationAccepted_presence_expires_at_unix_ms registered))
  | _ => mthrow SC_InvalidState
  end.

Definition handle_routed_session (request_id : text) (routed : RoutedSessionEnvelope)
    : SP SignalingEvent :=
  self ← get;
  fail_if (negb (bool_decide (sp_state self = SS_Ready))) SC_InvalidState;;
  fail_if (negb (bool_decide (request_id = []))
           || negb (len (RoutedSessionEnvelope_sender_device_id routed) =? DEVICE_ID_BYTES))
          SC_InvalidFrame;;
  fail_if (MAX_OPAQUE_SIGNALING_ENVELOPE_BYTES <?
           len (RoutedSessionEnvelope_opaque_envelope routed)) SC_OpaqueEnvelopeTooLarge;;
  mret (SE_RoutedSession (RoutedSessionEnvelope_sender_device_id routed)
          (RoutedSessionEnvelope_opaque_envelope routed)).

Definition handle_error (request_id : text) (error : UnifiedError) : SP SignalingEvent :=
  self ← get;
  fail_if (bool_decide (request_id = [])
           || negb (bool_decide (UnifiedError_request_id error = request_id)))
          SC_CorrelationMismatch;;
  lift (validate_request_id request_id);;
  code ← ok_or (try_from (E:=ErrorCode) (UnifiedError_code error)) SC_InvalidErrorCode;
  fail_if (bool_decide (code = ErrorCode_Unspecified)) SC_InvalidErrorCode;;
  (if match sp_pairing self with
      | Some active => clears_pairing request_id active
      | None => false
      end
   then modify (with_pairing None) else mret ());;
  mret (SE_RemoteError code (UnifiedError_retryable error)).

Definition handle_payload (request_id : text) (payload : SignalingServerFrame_Payload)
    : SP SignalingEvent :=
  match payload with
  | SignalingServerFrame_Payload_Registered registered => handle_registered request_id registered
  | SignalingServerFrame_Payload_HeartbeatAcknowledged acknowledged =>
      handle_heartbeat_acknowledged request_id acknowledged
  | SignalingServerFrame_Payload_RoutedSession routed => handle_routed_session request_id routed
  | SignalingServerFrame_Payload_RendezvousCreated created =>
      handle_pairing_created request_id created
  | SignalingServerFrame_Payload_RendezvousJoined joined =>
      handle_pairing_joined request_id joined
  | SignalingServerFrame_Payload_RoutedPairing routed => handle_routed_pairing request_id routed
  | SignalingServerFrame_Payload_RendezvousClosed closed =>
      handle_pairing_closed request_id closed
  | SignalingServerFrame_Payload_Error error => handle_error request_id error
  | SignalingServerFrame_Payload_PresenceResult _ => mthrow SC_UnexpectedPayload
  end.

(** The checks of [handle_binary] before its [match payload]. *)
Definition decode_server_frame (encoded : bytes)
    : result SignalingClientError (text * SignalingServerFrame_Payload) :=
  fail_if (MAX_SIGNALING_SERVICE_FRAME_BYTES <? len encoded) SC_FrameTooLarge;;
  frame ← ok_or (decode (A:=SignalingServerFrame) encoded) SC_InvalidFrame;
  version ← ok_or (SignalingServerFrame_protocol_version frame) SC_ProtocolUnsupported;
  fail_if (negb (ProtocolVersion_major version =? PROTOCOL_MAJOR_VERSION))
          SC_ProtocolUnsupported;;
  payload ← ok_or (SignalingServerFrame_payload frame) SC_UnexpectedPayload;
  mret (SignalingServerFrame_request_id frame, payload).

Definition handle_binary (encoded : bytes) : SP SignalingEvent :=
  '(request_id, payload) ← lift (decode_server_frame encoded);
  handle_payload request_id payload.
End Decoding.

(** * The outbox *)

Record SignalingOutbox := { so_capacity : Z; so_frames : list bytes }.

Definition SignalingOutbox_new (capacity : Z) : result SignalingClientError SignalingOutbox :=
  fail_if (capacity =? 0) SC_InvalidQueueCapacity;;
  mret {| so_capacity := capacity; so_frames := [] |}.

Definition SignalingOutbox_try_push (frame : bytes)
    : M SignalingOutbox SignalingClientError unit :=
  self ← get;
  fail_if (MAX_SIGNALING_SERVICE_FRAME_BYTES <? len frame) SC_FrameTooLarge;;
  fail_if (so_capacity self <=? len (so_frames self)) SC_QueueFull;;
  put {| so_capacity := so_capacity self; so_frames := so_frames self ++ [frame] |}.

Definition SignalingOutbox_pop (self : SignalingOutbox) : option bytes * SignalingOutbox :=
  match so_frames self with
  | [] => (None, self)
  | frame :: rest => (Some frame, {| so_capacity := so_capacity self; so_frames := rest |})
  end.

(** * The endpoint policy *)

(** [std::net::Ipv4Addr] by its octets, [Ipv6Addr] by its segments. *)
Record Ipv4Addr := { v4_0 : Z; v4_1 : Z; v4_2 : Z; v4_3 : Z }.

Record Ipv6Addr := { v6_0 : Z; v6_1 : Z; v6_2 : Z; v6_3 : Z; v6_4 : Z; v6_5 : Z; v6_6 : Z;
                     v6_7 : Z }.

(** [Ipv4Addr::is_private] and [is_loopback], [Ipv6Addr::is_unique_local] and [is_loopback]. *)
Definition v4_is_private (a : Ipv4Addr) : bool :=
  (v4_0 a =? 10)
  || ((v4_0 a =? 172) && (16 <=? v4_1 a) && (v4_1 a <=? 31))
  || ((v4_0 a =? 192) && (v4_1 a =? 168)).

Definition v4_is_loopback (a : Ipv4Addr) : bool := v4_0 a =? 127.

Definition v6_is_unique_local (a : Ipv6Addr) : bool := Z.land (v6_0 a) 65024 =? 64512.

Definition v6_is_loopback (a : Ipv6Addr) : bool :=
  (v6_0 a =? 0) && (v6_1 a =? 0) && (v6_2 a =? 0) && (v6_3 a =? 0) && (v6_4 a =? 0)
  && (v6_5 a =? 0) && (v6_6 a =? 0) && (v6_7 a =? 1).

(** The [Host] of the url crate, as [match url.host()] takes it apart. *)
Inductive UrlHost :=
| Host_Domain (domain : text)
| Host_Ipv4 (address : Ipv4Addr)
| Host_Ipv6 (address : Ipv6Addr).

(** [url::Url] with the accessors the policy calls. *)
Class UrlParser (Url : Type) := {
  url_parse : text → option Url;
  url_username : Url → text;
  url_password : Url → option text;
  url_scheme : Url → text;
  url_host : Url → option UrlHost
}.

(** [cfg!(debug_assertions)] is [debug_build]; the environment variable is [requested]. *)
Definition insecure_lan_signaling_enabled (debug_build : bool) (requested : option text) : bool :=
  debug_build && bool_decide (requested = Some (lit "true")).

Section Endpoint.
Context `{UrlParser Url}.

Definition is_private_network_address (url : Url) : bool :=
  match url_host url with
  | Some (Host_Ipv4 address) => v4_is_private address
  | Some (Host_Ipv6 address) => v6_is_unique_local address
  | Some (Host_Domain _) | None => false
  end.

Definition is_loopback (url : Url) : bool :=
  match url_host url with
  | Some (Host_Domain domain) => eq_ignore_ascii_case domain (lit "localhost")
  | Some (Host_Ipv4 address) => v4_is_loopback address
  | Some (Host_Ipv6 address) => v6_is_loopback address
  | None => false
  end.

Definition validate_signaling_endpoint_with_policy (endpoint : text) (allow_insecure_lan : bool)
    : result SignalingClientError unit :=
  fail_if (MAX_SIGNALING_ENDPOINT_UTF8_BYTES <? text_len endpoint) SC_InvalidEndpoint;;
  url ← ok_or (url_parse endpoint) SC_InvalidEndpoint;
  fail_if (negb (bool_decide (url_username url = [])) || is_some (url_password url))
          SC_EndpointCredentials;;
  if decide (url_scheme url = lit "wss") then mret ()
  else if decide (url_scheme url = lit "ws") then
    if is_loopback url then mret ()
    else if allow_insecure_lan && is_private_network_address url then mret ()
    else mthrow SC_InsecureEndpoint
  else mthrow SC_InvalidEndpoint.

Definition validate_signaling_endpoint (debug_build : bool) (requested : option text)
    (endpoint : text) : result SignalingClientError unit :=
  validate_signaling_endpoint_with_policy endpoint
    (insecure_lan_signaling_enabled debug_build requested).
End Endpoint.

(** * What a connection may say and believe

    The log of a connection, newest entry first: the frames it sent, the events it reported
    with the request id of the frame they came in, and the disconnections. *)
Inductive entry :=
| Sent (frame : SignalingClientFrame)
| Got (request_id : text) (event : SignalingEvent)
| Dropped.

Inductive sig_op :=
| Op_registration (request_id : text)
| Op_relay_session (recipient_device_id opaque_envelope : bytes) (request_id : text)
| Op_create_pairing (rendezvous_id : bytes) (kind : PairingRendezvousKind)
    (pairing_code request_id : text)
| Op_relay_pairing (rendezvous_id opaque_envelope : bytes) (request_id : text)
| Op_complete_pairing (rendezvous_id : bytes) (completion : PairingRendezvousCompletion)
    (request_id : text)
| Op_heartbeat (request_id : text)
| Op_disconnected
| Op_handle_binary (encoded : bytes).

Section Log.
Context `{Message SignalingServerFrame}.

Definition sig_sent (m : SP SignalingClientFrame) (s : SignalingProtocol)
    : option entry * SignalingProtocol :=
  match m s with (Ok frame, s') => (Some (Sent frame), s') | (Err _, s') => (None, s') end.

Definition sig_exec (op : sig_op) (s : SignalingProtocol) : option entry * SignalingProtocol :=
  match op with
  | Op_registration request_id => sig_sent (registration request_id) s
  | Op_relay_session device envelope request_id => sig_sent (relay_session device envelope request_id) s
  | Op_create_pairing id kind code request_id => sig_sent (create_pairing id kind code request_id) s
  | Op_relay_pairing id envelope request_id => sig_sent (relay_pairing id envelope request_id) s
  | Op_complete_pairing id completion request_id => sig_sent (complete_pairing id completion request_id) s
  | Op_heartbeat request_id => sig_sent (heartbeat request_id) s
  | Op_disconnected => (Some Dropped, (disconnected s).2)
  | Op_handle_binary encoded =>
      match decode_server_frame encoded, handle_binary encoded s with
      | Ok (request_id, _), (Ok event, s') => (Some (Got request_id event), s')
      | _, (_, s') => (None, s')
      end
  end.

(** [log] extended by one operation. *)
Definition sig_step (acc : list entry * SignalingProtocol) (op : sig_op)
    : list entry * SignalingProtocol :=
  let '(e, s') := sig_exec op acc.2 in
  (match e with Some e => e :: acc.1 | None => acc.1 end, s').

Definition sig_run (ops : list sig_op) (s : SignalingProtocol) : list entry * SignalingProtocol :=
  foldl sig_step ([], s) ops.
End Log.

(** Some earlier entry satisfies [P], and none after it is in [stop]. *)
Fixpoint since (P : entry → Prop) (stop : entry → bool) (log : list entry) : Prop :=
  match log with
  | [] => False
  | e :: log' => P e ∨ (stop e = false ∧ since P stop log')
  end.

Definition payload_of (e : entry) : option (text * SignalingClientFrame_Payload) :=
  match e with
  | Sent frame =>
      (λ p, (SignalingClientFrame_request_id frame, p)) <$> SignalingClientFrame_payload frame
  | _ => None
  end.

Definition sends (request_id : text) (p : SignalingClientFrame_Payload) (e : entry) : Prop :=
  payload_of e = Some (request_id, p).

Definition is_drop (e : entry) : bool := match e with Dropped => true | _ => false end.

Definition is_got (ok : SignalingEvent → bool) (e : entry) : bool :=
  match e with Got _ event => ok event | _ => false end.

(** The service answered the request [request_id] with an error. *)
Definition is_error_for (request_id : text) (e : entry) : bool :=
  match e with Got id (SE_RemoteError _ _) => bool_decide (id = request_id) | _ => false end.

Definition is_pairing_request (e : entry) : bool :=
  match payload_of e with
  | Some (_, SignalingClientFrame_Payload_CreateRendezvous _)
  | Some (_, SignalingClientFrame_Payload_CompleteRendezvous _) => true
  | _ => false
  end.

(** The events that move a rendezvous, and the entries after which its last stage is over. *)
Definition moves_pairing (event : SignalingEvent) : bool :=
  match event with
  | SE_PairingCreated _ _ _ | SE_PairingJoined _ _ _ | SE_PairingClosed _ _ => true
  | _ => false
  end.

Definition stage_over (e : entry) : bool :=
  is_drop e || is_pairing_request e || is_got moves_pairing e.

Definition request_over (request_id : text) (e : entry) : bool :=
  stage_over e || is_error_for request_id e.

Definition is_registered (event : SignalingEvent) : bool :=
  match event with SE_Registered _ => true | _ => false end.

Definition is_acknowledged (event : SignalingEvent) : bool :=
  match event with SE_HeartbeatAcknowledged _ _ => true | _ => false end.

Definition registered (log : list entry) : Prop :=
  since (λ e, is_got is_registered e = true) is_drop log.

(** The stages a rendezvous is in, by what was sent and heard last about it. *)
Definition creating (request_id : text) (id : bytes) (kind : PairingRendezvousKind)
    (log : list entry) : Prop :=
  since (λ e, ∃ code, sends request_id (SignalingClientFrame_Payload_CreateRendezvous
           {| CreatePairingRendezvous_rendezvous_id := id;
              CreatePairingRendezvous_kind := to_i32 kind;
              CreatePairingRendezvous_pairing_code := code |}) e)
        (request_over request_id) log.

Definition inviting (id : bytes) (kind : PairingRendezvousKind) (expires : Z) (log : list entry)
    : Prop :=
  since (λ e, ∃ request_id, e = Got request_id (SE_PairingCreated id kind expires)) stage_over log.

Definition joined (id peer : bytes) (expires : Z) (log : list entry) : Prop :=
  since (λ e, ∃ request_id, e = Got request_id (SE_PairingJoined id peer expires)) stage_over log.

Definition completing (request_id : text) (id : bytes) (completion : PairingRendezvousCompletion)
    (log : list entry) : Prop :=
  since (sends request_id (SignalingClientFrame_Payload_CompleteRendezvous
           {| CompletePairingRendezvous_rendezvous_id := id;
              CompletePairingRendezvous_completion := to_i32 completion |}))
        (request_over request_id) log.

Definition open_pairing (id : bytes) (log : list entry) : Prop :=
  (∃ kind expires, inviting id kind expires log) ∨ (∃ peer expires, joined id peer expires log).

Definition frame_wf (frame : SignalingClientFrame) : Prop :=
  SignalingClientFrame_protocol_version frame =
    Some {| ProtocolVersion_major := 1; ProtocolVersion_minor := 0 |} ∧
  SignalingClientFrame_request_id frame ≠ [] ∧
  text_len (SignalingClientFrame_request_id frame) <= 64.

(** What entitles the connection to a frame it sends. *)
Definition may_send (device : bytes) (log : list entry) (p : SignalingClientFrame_Payload) : Prop :=
  match p with
  | SignalingClientFrame_Payload_Register r => RegisterDevice_device_id r = device
  | SignalingClientFrame_Payload_Heartbeat _ => registered log
  | SignalingClientFrame_Payload_RelaySession r =>
      registered log ∧ len (RelaySessionEnvelope_recipient_device_id r) = 32 ∧
      len (RelaySessionEnvelope_opaque_envelope r) <= 262144
  | SignalingClientFrame_Payload_CreateRendezvous c =>
      registered log ∧ len (CreatePairingRendezvous_rendezvous_id c) = 16
  | SignalingClientFrame_Payload_RelayPairing r =>
      (∃ peer expires, joined (RelayPairingEnvelope_rendezvous_id r) peer expires log) ∧
      len (RelayPairingEnvelope_opaque_envelope r) <= 262144
  | SignalingClientFrame_Payload_CompleteRendezvous c =>
      open_pairing (CompletePairingRendezvous_rendezvous_id c) log ∧
      (CompletePairingRendezvous_completion c = to_i32 PairingRendezvousCompletion_Succeeded ∨
       CompletePairingRendezvous_completion c = to_i32 PairingRendezvousCompletion_Rejected)
  | _ => False
  end.

(** What entitles the connection to an event it reports. *)
Definition may_report (device : bytes) (log : list entry) (request_id : text)
    (event : SignalingEvent) : Prop :=
  match event with
  | SE_Registered _ =>
      since (sends request_id (SignalingClientFrame_Payload_Register
               {| RegisterDevice_device_id := device |}))
            (λ e, is_drop e || is_got is_registered e) log
  | SE_HeartbeatAcknowledged now expires =>
      since (sends request_id (SignalingClientFrame_Payload_Heartbeat Build_Heartbeat))
            (λ e, is_drop e || is_got is_acknowledged e) log ∧ now < expires
  | SE_RoutedSession sender envelope =>
      registered log ∧ request_id = [] ∧ len sender = 32 ∧ len envelope <= 262144
  | SE_PairingCreated id kind _ => creating request_id id kind log
  | SE_PairingJoined id peer expires =>
      (∃ kind, inviting id kind expires log) ∧ request_id = [] ∧ len peer = 32 ∧ peer ≠ device
  | SE_RoutedPairing id sender envelope =>
      (∃ expires, joined id sender expires log) ∧ request_id = [] ∧ len envelope <= 262144
  | SE_PairingClosed id completion =>
      completing request_id id completion log ∨
      open_pairing id log ∧ request_id = [] ∧ service_completion completion = true
  | SE_RemoteError _ _ => request_id ≠ []
  end.

Definition justified (device : bytes) (log : list entry) (e : entry) : Prop :=
  match e with
  | Sent frame =>
      frame_wf frame ∧
      ∃ p, SignalingClientFrame_payload frame = Some p ∧ may_send device log p
  | Got request_id event => may_report device log request_id event
  | Dropped => True
  end.

Fixpoint log_justified (device : bytes) (log : list entry) : Prop :=
  match log with
  | [] => True
  | e :: log' => justified device log' e ∧ log_justified device log'
  end.

(** ** The state of the machine is what the log says *)
Definition pairing_inv (log : list entry) (a : ActivePairing) : Prop :=
  match ap_phase a with
  | PP_Creating request_id => creating request_id (ap_rendezvous_id a) (ap_kind a) log
  | PP_Inviting => inviting (ap_rendezvous_id a) (ap_kind a) (ap_expires_at_unix_ms a) log
  | PP_Joined peer => joined (ap_rendezvous_id a) peer (ap_expires_at_unix_ms a) log
  | PP_Completing request_id completion =>
      completing request_id (ap_rendezvous_id a) completion log
  end.

Definition state_inv (log : list entry) (s : SignalingProtocol) : Prop :=
  match sp_state s with
  | SS_Disconnected => True
  | SS_Registering request_id =>
      since (sends request_id (SignalingClientFrame_Payload_Register
               {| RegisterDevice_device_id := sp_device_id s |}))
            (λ e, is_drop e || is_got is_registered e) log
  | SS_Ready => registered log
  end.

Definition heartbeat_inv (log : list entry) (s : SignalingProtocol) : Prop :=
  match sp_pending_heartbeat s with
  | None => True
  | Some request_id =>
      since (sends request_id (SignalingClientFrame_Payload_Heartbeat Build_Heartbeat))
            (λ e, is_drop e || is_got is_acknowledged e) log
  end.

Record sig_inv (device : bytes) (log : list entry) (s : SignalingProtocol) : Prop := {
  si_device : sp_device_id s = device;
  si_state : state_inv log s;
  si_pairing : match sp_pairing s with
               | None => True
               | Some a => sp_state s = SS_Ready ∧ pairing_inv log a
               end;
  si_heartbeat : heartbeat_inv log s
}.

Definition goes_well (device : bytes) (acc : list entry * SignalingProtocol) : Prop :=
  sig_inv device acc.1 acc.2 ∧ log_justified device acc.1.

(** What the state says survives an entry that does not end it. *)
Lemma since_keep (P : entry → Prop) stop e log :
  stop e = false → since P stop log → since P stop (e :: log).
Proof. simpl. auto. Qed.

Lemma since_now (P : entry → Prop) stop e log : P e → since P stop (e :: log).
Proof. simpl. auto. Qed.

Lemma state_keep e log s :
  is_drop e = false → is_got is_registered e = false → state_inv log s → state_inv (e :: log) s.
Proof.
  unfold state_inv, registered. intros Hd Hg. destruct (sp_state s); try done.
  all: apply since_keep; by rewrite ?Hd, ?Hg.
Qed.

Lemma heartbeat_keep e log s :
  is_drop e = false → is_got is_acknowledged e = false →
  heartbeat_inv log s → heartbeat_inv (e :: log) s.
Proof.
  unfold heartbeat_inv. intros Hd Hg. destruct (sp_pending_heartbeat s); try done.
  apply since_keep; by rewrite ?Hd, ?Hg.
Qed.

Lemma pairing_keep e log a :
  stage_over e = false → (∀ id, is_error_for id e = true → clears_pairing id a = false) →
  pairing_inv log a → pairing_inv (e :: log) a.
Proof.
  unfold pairing_inv, clears_pairing. intros Hs Herr.
  assert (∀ id, match ap_phase a with
                | PP_Creating id' | PP_Completing id' _ => id' = id
                | _ => False end → is_error_for id e = false).
  { intros id Hid. destruct (is_error_for id e) eqn:He; [|done]. specialize (Herr _ He).
    destruct (ap_phase a); try done; subst; by rewrite bool_decide_true in Herr. }
  destruct (ap_phase a); apply since_keep; unfold request_over; rewrite ?Hs; eauto.
Qed.

#[local] Hint Resolve state_keep heartbeat_keep pairing_keep since_now : core.

Lemma request_id_ok request_id :
  validate_request_id request_id = Ok () → request_id ≠ [] ∧ text_len request_id <= 64.
Proof.
  unfold validate_request_id. intros [Hne Hl]%res_fail_if%orb_false_iff.
  apply bool_decide_eq_false in Hne. apply Z.ltb_ge in Hl. done.
Qed.

Definition builds_wf (request_id : text) : Prop := ∀ p, frame_wf (client_frame request_id p).

Lemma client_frame_wf request_id : validate_request_id request_id = Ok () → builds_wf request_id.
Proof. by intros []%request_id_ok. Qed.

Section Justification.
Context `{Message SignalingServerFrame}.

(** ** What a successful request does *)
Ltac outcomes H := run H; try discriminate; simplify_eq/=.
Ltac request m := intros Hr; unfold m in Hr; outcomes Hr; eauto 10.

Lemma registration_run request_id s frame s' :
  registration request_id s = (Ok frame, s') →
  validate_request_id request_id = Ok () ∧
  frame = client_frame request_id (SignalingClientFrame_Payload_Register
            {| RegisterDevice_device_id := sp_device_id s |}) ∧
  sp_state s = SS_Disconnected ∧ s' = with_state (SS_Registering request_id) s.
Proof. request registration. Qed.

Lemma relay_session_run device envelope request_id s frame s' :
  relay_session device envelope request_id s = (Ok frame, s') →
  validate_request_id request_id = Ok () ∧
  frame = client_frame request_id (SignalingClientFrame_Payload_RelaySession
            {| RelaySessionEnvelope_recipient_device_id := device;
               RelaySessionEnvelope_opaque_envelope := envelope |}) ∧
  sp_state s = SS_Ready ∧ len device = 32 ∧ len envelope <= 262144 ∧ s' = s.
Proof. request relay_session. Qed.

Lemma create_pairing_run id kind code request_id s frame s' :
  create_pairing id kind code request_id s = (Ok frame, s') →
  validate_request_id request_id = Ok () ∧
  frame = client_frame request_id (SignalingClientFrame_Payload_CreateRendezvous
            {| CreatePairingRendezvous_rendezvous_id := id;
               CreatePairingRendezvous_kind := to_i32 kind;
               CreatePairingRendezvous_pairing_code := code |}) ∧
  sp_state s = SS_Ready ∧ sp_pairing s = None ∧ len id = 16 ∧
  s' = with_pairing (Some {| ap_rendezvous_id := id; ap_kind := kind; ap_expires_at_unix_ms := 0;
                             ap_phase := PP_Creating request_id |}) s.
Proof.
  intros Hr. unfold create_pairing, validate_rendezvous_id in Hr.
  destruct (validate_pairing_code kind code) eqn:Hcode; outcomes Hr; eauto 10.
Qed.

Lemma relay_pairing_run id envelope request_id s frame s' :
  relay_pairing id envelope request_id s = (Ok frame, s') →
  validate_request_id request_id = Ok () ∧
  frame = client_frame request_id (SignalingClientFrame_Payload_RelayPairing
            {| RelayPairingEnvelope_rendezvous_id := id;
               RelayPairingEnvelope_opaque_envelope := envelope |}) ∧
  len envelope <= 262144 ∧ s' = s ∧
  ∃ a peer, sp_pairing s = Some a ∧ ap_rendezvous_id a = id ∧ ap_phase a = PP_Joined peer.
Proof. intros Hr. unfold relay_pairing, is_joined in Hr. outcomes Hr. eauto 15. Qed.

Lemma complete_pairing_run id completion request_id s frame s' :
  complete_pairing id completion request_id s = (Ok frame, s') →
  validate_request_id request_id = Ok () ∧
  frame = client_frame request_id (SignalingClientFrame_Payload_CompleteRendezvous
            {| CompletePairingRendezvous_rendezvous_id := id;
               CompletePairingRendezvous_completion := to_i32 completion |}) ∧
  host_completion completion = true ∧
  ∃ a, sp_pairing s = Some a ∧ ap_rendezvous_id a = id ∧ sp_state s = SS_Ready ∧
    (ap_phase a = PP_Inviting ∨ ∃ peer, ap_phase a = PP_Joined peer) ∧
    s' = with_pairing (Some (with_phase (PP_Completing request_id completion) a)) s.
Proof.
  intros Hr. unfold complete_pairing, is_inviting_or_joined in Hr.
  destruct (host_completion completion) eqn:Hc; outcomes Hr; eauto 15.
Qed.

Lemma heartbeat_run request_id s frame s' :
  heartbeat request_id s = (Ok frame, s') →
  validate_request_id request_id = Ok () ∧
  frame = client_frame request_id (SignalingClientFrame_Payload_Heartbeat Build_Heartbeat) ∧
  sp_state s = SS_Ready ∧ s' = with_heartbeat (Some request_id) s.
Proof. request heartbeat. Qed.

(** ** What an accepted server frame does *)
Lemma registered_run id r s event s' :
  handle_registered id r s = (Ok event, s') →
  sp_state s = SS_Registering id ∧ RegistrationAccepted_device_id r = sp_device_id s ∧
  event = SE_Registered (RegistrationAccepted_presence_expires_at_unix_ms r) ∧
  s' = with_state SS_Ready s.
Proof. request handle_registered. Qed.

Lemma acknowledged_run id r s event s' :
  handle_heartbeat_acknowledged id r s = (Ok event, s') →
  sp_state s = SS_Ready ∧ sp_pending_heartbeat s = Some id ∧
  (∃ now expires, event = SE_HeartbeatAcknowledged now expires ∧ now < expires) ∧
  s' = with_heartbeat None s.
Proof. request handle_heartbeat_acknowledged. Qed.

Lemma routed_session_run id r s event s' :
  handle_routed_session id r s = (Ok event, s') →
  sp_state s = SS_Ready ∧ id = [] ∧ s' = s ∧
  ∃ sender envelope, event = SE_RoutedSession sender envelope ∧ len sender = 32 ∧
    len envelope <= 262144.
Proof. request handle_routed_session. Qed.

Lemma created_run id r s event s' :
  handle_pairing_created id r s = (Ok event, s') →
  ∃ a, sp_pairing s = Some a ∧ ap_phase a = PP_Creating id ∧
    let expires := PairingRendezvousCreated_expires_at_unix_ms r in
    event = SE_PairingCreated (ap_rendezvous_id a) (ap_kind a) expires ∧
    s' = with_pairing (Some {| ap_rendezvous_id := ap_rendezvous_id a; ap_kind := ap_kind a;
                               ap_expires_at_unix_ms := expires; ap_phase := PP_Inviting |}) s.
Proof.
  unfold handle_pairing_created.
  destruct (try_from (E:=PairingRendezvousKind) _) as [kind|]; intros Hr; outcomes Hr.
  eexists; split_and!; try done. by f_equal.
Qed.

Lemma joined_run id r s event s' :
  handle_pairing_joined id r s = (Ok event, s') →
  ∃ a peer, sp_pairing s = Some a ∧ ap_phase a = PP_Inviting ∧ id = [] ∧ len peer = 32 ∧
    peer ≠ sp_device_id s ∧
    event = SE_PairingJoined (ap_rendezvous_id a) peer (ap_expires_at_unix_ms a) ∧
    s' = with_pairing (Some (with_phase (PP_Joined peer) a)) s.
Proof.
  intros Hr; unfold handle_pairing_joined in Hr; outcomes Hr.
  eexists _, _; split_and!; try done. by f_equal.
Qed.

Lemma routed_pairing_run id r s event s' :
  handle_routed_pairing id r s = (Ok event, s') →
  ∃ a peer envelope, sp_pairing s = Some a ∧ ap_phase a = PP_Joined peer ∧ id = [] ∧ s' = s ∧
    event = SE_RoutedPairing (ap_rendezvous_id a) peer envelope ∧ len envelope <= 262144.
Proof.
  intros Hr; unfold handle_routed_pairing in Hr; outcomes Hr.
  eexists _, _, _; split_and!; try done. by f_equal.
Qed.

Lemma closed_run id r s event s' :
  handle_pairing_closed id r s = (Ok event, s') →
  ∃ a completion, sp_pairing s = Some a ∧ close_allowed (ap_phase a) id completion = Ok () ∧
    event = SE_PairingClosed (ap_rendezvous_id a) completion ∧ s' = with_pairing None s.
Proof.
  unfold handle_pairing_closed.
  destruct (try_from (E:=PairingRendezvousCompletion) _) as [completion|]; intros Hr.
  - destruct (sp_pairing s) as [a|] eqn:Ha; [destruct (close_allowed (ap_phase a) id completion) as [[]|] eqn:Hc|].
    all: unmonad; rewrite ?Ha in Hr; simpl in Hr; rewrite ?Hc in Hr; outcomes Hr.
    eexists _, _; split_and!; try done. by f_equal.
  - outcomes Hr.
Qed.

Lemma error_run id r s event s' :
  handle_error id r s = (Ok event, s') →
  id ≠ [] ∧ (∃ code retryable, event = SE_RemoteError code retryable) ∧
  (s' = s ∧ (∀ a, sp_pairing s = Some a → clears_pairing id a = false)
   ∨ s' = with_pairing None s ∧ ∃ a, sp_pairing s = Some a ∧ clears_pairing id a = true).
Proof.
  unfold handle_error.
  destruct (try_from (E:=ErrorCode) _) as [code|]; intros Hr; [|outcomes Hr].
  destruct (sp_pairing s) as [a|] eqn:Ha; [destruct (clears_pairing id a) eqn:Hc|].
  all: unmonad; rewrite ?Ha in Hr; simpl in Hr; rewrite ?Hc in Hr; outcomes Hr; naive_solver.
Qed.

(** ** A failing operation changes nothing *)
Definition atomic {A} (m : SP A) : Prop := ∀ s e s', m s = (Err e, s') → s' = s.

Ltac atomic m := intros ? ? ? Hr; unfold m in Hr; repeat case_match; outcomes Hr.

Lemma payload_atomic id payload : atomic (handle_payload id payload).
Proof.
  destruct payload; simpl.
  - atomic handle_registered.
  - atomic handle_heartbeat_acknowledged.
  - by intros s e s' [=].
  - unfold handle_pairing_created. destruct (try_from (E:=PairingRendezvousKind) _).
    all: intros s e s' Hr; outcomes Hr.
  - atomic handle_pairing_joined.
  - atomic handle_routed_pairing.
  - unfold handle_pairing_closed. destruct (try_from (E:=PairingRendezvousCompletion) _) as [c|].
    2: by intros s e s' [= _ ->].
    intros s e s' Hr. unfold lift in Hr. destruct (sp_pairing s) as [a|] eqn:Ha.
    + destruct (close_allowed (ap_phase a) id c) as [[]|] eqn:Hc.
      all: unmonad; rewrite ?Ha in Hr; simpl in Hr; rewrite ?Hc in Hr; outcomes Hr.
    + unmonad; rewrite ?Ha in Hr; outcomes Hr.
  - atomic handle_routed_session.
  - unfold handle_error. destruct (try_from (E:=ErrorCode) _).
    all: intros s err s' Hr; outcomes Hr.
Qed.

Lemma binary_atomic encoded : atomic (handle_binary encoded).
Proof.
  intros s e s'. unfold handle_binary. rewrite bind_lift.
  destruct (decode_server_frame encoded) as [[id payload]|]; [apply payload_atomic|by intros [= _ ->]].
Qed.

Lemma sig_sent_atomic m s : atomic m → (sig_sent m s).1 = None → (sig_sent m s).2 = s.
Proof. unfold sig_sent. intros Hm. destruct (m s) as [[]] eqn:Hr; [done|]. by intros _; apply Hm in Hr. Qed.

Lemma exec_none op s : (sig_exec op s).1 = None → (sig_exec op s).2 = s.
Proof.
  destruct op; simpl; try (apply sig_sent_atomic).
  - atomic registration.
  - atomic relay_session.
  - unfold create_pairing. destruct (validate_pairing_code kind pairing_code).
    all: intros s0 err s' Hr; outcomes Hr.
  - atomic relay_pairing.
  - unfold complete_pairing. destruct (host_completion completion).
    all: intros s0 err s' Hr; outcomes Hr.
  - atomic heartbeat.
  - done.
  - destruct (handle_binary encoded s) as [[event|e] s'] eqn:Hr.
    + unfold handle_binary in Hr. rewrite bind_lift in Hr.
      by destruct (decode_server_frame encoded) as [[]|].
    + apply binary_atomic in Hr as ->. by destruct (decode_server_frame encoded) as [[]|].
Qed.

(** ** Every step is justified *)
Lemma sig_sent_Some m s e s' :
  sig_sent m s = (Some e, s') → ∃ frame, e = Sent frame ∧ m s = (Ok frame, s').
Proof. unfold sig_sent. destruct (m s) as [[]]; naive_solver. Qed.

(** The obligations of a frame: it is entitled, and the state after it is what the log says. *)
Ltac obligations := split;
  [split; [match goal with Hv : builds_wf _ |- _ => apply Hv end|eexists; split; [done|]]; simpl
  |split; simpl; [done|try (apply state_keep; done)| |try (apply heartbeat_keep; done)]].

Lemma ready_registered log s : sp_state s = SS_Ready → state_inv log s → registered log.
Proof. unfold state_inv. by intros ->. Qed.

Lemma idle_keep e log s :
  stage_over e = false → (∀ id, is_error_for id e = false) →
  match sp_pairing s with None => True | Some a => sp_state s = SS_Ready ∧ pairing_inv log a end →
  match sp_pairing s with None => True | Some a => sp_state s = SS_Ready ∧ pairing_inv (e :: log) a end.
Proof.
  destruct (sp_pairing s) as [a|]; [|done]. intros Hs He [Hr Ha].
  split; [done|]. apply pairing_keep; [done| |done]. intros id. by rewrite He.
Qed.

Lemma request_justified device log s op e s' :
  (∀ encoded, op ≠ Op_handle_binary encoded) → sig_exec op s = (Some e, s') →
  sig_inv device log s → justified device log e ∧ sig_inv device (e :: log) s'.
Proof.
  intros Hop Hr [Hd Hs Hp Hh]. revert Hr.
  destruct op; try by destruct (Hop encoded).
  - intros (frame & -> & (Hv%client_frame_wf & -> & Hst & ->)%registration_run)%sig_sent_Some.
    obligations; [by rewrite Hd|by apply since_now|].
    rewrite Hst in Hp. destruct (sp_pairing s); [by destruct Hp|done].
  - intros (frame & -> & (Hv%client_frame_wf & -> & Hst & ? & ? & ->)%relay_session_run)%sig_sent_Some.
    pose proof (ready_registered _ _ Hst Hs). obligations; [done|by apply idle_keep].
  - intros (frame & -> & (Hv%client_frame_wf & -> & Hst & Hn & ? & ->)%create_pairing_run)%sig_sent_Some.
    pose proof (ready_registered _ _ Hst Hs). obligations; [done|].
    split; [done|]. apply since_now. by eexists.
  - intros (frame & -> &
      (Hv%client_frame_wf & -> & Hl & -> & a & peer & Ha & <- & Hj)%relay_pairing_run)%sig_sent_Some.
    pose proof Hp as Hp'. rewrite Ha in Hp'. unfold pairing_inv in Hp'. rewrite Hj in Hp'.
    obligations; [naive_solver|by apply idle_keep].
  - intros (frame & -> &
      (Hv%client_frame_wf & -> & Hc & a & Ha & <- & Hst & Hph & ->)%complete_pairing_run)%sig_sent_Some.
    rewrite Ha in Hp. destruct Hp as [_ Hp]. unfold pairing_inv in Hp. obligations.
    + split; [|by destruct completion; auto]. unfold open_pairing.
      destruct Hph as [Hph|[peer Hph]]; rewrite Hph in Hp; eauto.
    + split; [done|]. by apply since_now.
  - intros (frame & -> & (Hv%client_frame_wf & -> & Hst & ->)%heartbeat_run)%sig_sent_Some.
    pose proof (ready_registered _ _ Hst Hs). obligations; [done|by apply idle_keep|].
    by apply since_now.
  - by intros [= <- <-].
Qed.

(** The obligations of a reported event. *)
Ltac reported := split; [simpl
  |split; simpl; [done|try (apply state_keep; done)| |try (apply heartbeat_keep; done)]].

(** What the log says about the rendezvous of the state. *)
Lemma stage_open device log s a :
  sig_inv device log s → sp_pairing s = Some a →
  sp_state s = SS_Ready ∧ pairing_inv log a.
Proof. intros [_ _ Hp _] Ha. by rewrite Ha in Hp. Qed.

Lemma closed_justified log a request_id completion :
  pairing_inv log a → close_allowed (ap_phase a) request_id completion = Ok () →
  completing request_id (ap_rendezvous_id a) completion log ∨
  open_pairing (ap_rendezvous_id a) log ∧ request_id = [] ∧ service_completion completion = true.
Proof.
  unfold pairing_inv, close_allowed, open_pairing.
  destruct (ap_phase a); intros Hp Hc; [done| | |]; apply res_fail_if in Hc; boolsimpl; subst.
  - right. eauto 10.
  - right. eauto 10.
  - by left.
Qed.

Lemma payload_justified device log s request_id payload event s' :
  handle_payload request_id payload s = (Ok event, s') → sig_inv device log s →
  justified device log (Got request_id event) ∧ sig_inv device (Got request_id event :: log) s'.
Proof.
  intros Hr Hi. pose proof Hi as [Hd Hs Hp Hh]. destruct payload; simpl in Hr.
  - apply registered_run in Hr as (Hst & _ & -> & ->). unfold state_inv in Hs. rewrite Hst in Hs, Hp.
    reported; [by rewrite <- Hd|by apply since_now|].
    destruct (sp_pairing s); [by destruct Hp|done].
  - apply acknowledged_run in Hr as (_ & Hpend & (now & expires & -> & Hlt) & ->).
    unfold heartbeat_inv in Hh. rewrite Hpend in Hh. reported; [done| |done]. by apply idle_keep.
  - done.
  - apply created_run in Hr as (a & Ha & Hph & -> & ->).
    destruct (stage_open _ _ _ _ Hi Ha) as [Hst Hinv]. unfold pairing_inv in Hinv. rewrite Hph in Hinv.
    reported; [done|]. split; [done|]. apply since_now. by eexists.
  - apply joined_run in Hr as (a & peer & Ha & Hph & -> & Hl & Hne & -> & ->).
    destruct (stage_open _ _ _ _ Hi Ha) as [Hst Hinv]. unfold pairing_inv in Hinv. rewrite Hph in Hinv.
    rewrite Hd in Hne. reported; [by eauto|]. split; [done|]. apply since_now. by eexists.
  - apply routed_pairing_run in Hr as (a & peer & envelope & Ha & Hph & -> & -> & -> & Hl).
    destruct (stage_open _ _ _ _ Hi Ha) as [Hst Hinv]. unfold pairing_inv in Hinv. rewrite Hph in Hinv.
    reported; [by eauto|by apply idle_keep].
  - apply closed_run in Hr as (a & completion & Ha & Hc & -> & ->).
    destruct (stage_open _ _ _ _ Hi Ha) as [Hst Hinv].
    reported; [by apply closed_justified|done].
  - apply routed_session_run in Hr as (Hst & -> & -> & sender & envelope & -> & ? & ?).
    pose proof (ready_registered _ _ Hst Hs). reported; [done|by apply idle_keep].
  - apply error_run in Hr as (Hne & (code & retryable & ->) & [[-> Hc] | [-> _]]).
    + reported; [done|]. destruct (sp_pairing s) as [a|] eqn:Ha; [|done]. destruct Hp as [? Hp].
      split; [done|]. apply pairing_keep; [done| |done].
      intros id Hid. simpl in Hid. apply bool_decide_eq_true in Hid as <-. by apply Hc.
    + by reported.
Qed.

Lemma step_justified device acc op : goes_well device acc → goes_well device (sig_step acc op).
Proof.
  intros [Hi Hl]. unfold sig_step. destruct (sig_exec op acc.2) as [[e|] s'] eqn:Hr.
  - enough (justified device acc.1 e ∧ sig_inv device (e :: acc.1) s') as [? ?] by (by split; [|split]).
    assert ((∀ encoded, op ≠ Op_handle_binary encoded) ∨ ∃ encoded, op = Op_handle_binary encoded)
      as [Hop|[encoded ->]] by (destruct op; eauto; left; congruence).
    + by eapply request_justified.
    + simpl in Hr. unfold handle_binary in Hr. rewrite bind_lift in Hr.
      destruct (decode_server_frame encoded) as [[request_id payload]|]; [|done].
      destruct (handle_payload request_id payload acc.2) as [[event|] s1] eqn:Hp; simplify_eq.
      by eapply payload_justified.
  - pose proof (exec_none op acc.2) as Hsame. rewrite Hr in Hsame. simpl in Hsame.
    by rewrite Hsame.
Qed.
End Justification.

(** * Properties *)

Section Properties.
Context `{Message SignalingServerFrame}.

(** C32. Whatever requests are made and whatever bytes the service sends, every frame the client
    sends and every event it reports is entitled by what came before on this connection: frames
    are well formed and follow a registration of this device; an acknowledgement answers the
    outstanding request with its identifier; pairing events belong to the stage of the one
    rendezvous this Host created, in order, with a peer that is another device; and pairing data
    comes only from the peer that joined. *)
Theorem signaling_log_justified device s0 ops :
  SignalingProtocol_new device = Ok s0 →
  len device = 32 ∧ log_justified device (sig_run ops s0).1.
Proof.
  intros Hnew. unfold SignalingProtocol_new in Hnew.
  assert (len device = 32 ∧ sp_device_id s0 = device ∧ sp_state s0 = SS_Disconnected ∧
          sp_pairing s0 = None ∧ sp_pending_heartbeat s0 = None) as (Hl & Hd & Hs & Hp & Hh)
    by (run Hnew; done).
  split; [done|]. unfold sig_run.
  assert (goes_well device ([], s0)) as Hw.
  { split; [|done]. split; simpl; unfold state_inv, heartbeat_inv; by rewrite ?Hs, ?Hp, ?Hh. }
  revert Hw. generalize ([] : list entry, s0). induction ops as [|op ops IH]; intros acc Hw; simpl.
  - apply Hw.
  - apply IH. by apply step_justified.
Qed.

(** An operation of the signaling client that fails leaves the state machine as it was: no
    error of a request or of a received frame moves a registration, a rendezvous or a heartbeat. *)
Theorem signaling_failures_change_nothing op s :
  match sig_exec op s with (None, s') => s' = s | (Some _, _) => True end.
Proof.
  pose proof (exec_none op s) as Hn. destruct (sig_exec op s) as [[e|] s']; [done|]. by apply Hn.
Qed.
End Properties.

(** ** A late pairing frame ends the connection

    Between the request to complete a rendezvous and the answer to it, the service may still
    route what the peer sent, or report that the peer left.  Both are errors of [handle_binary],
    which the runtime treats like a broken connection. *)
Lemma late_pairing_frame_fails id r s a request_id completion :
  sp_pairing s = Some a → ap_phase a = PP_Completing request_id completion →
  (∃ e, handle_routed_pairing id r s = (Err e, s)) ∧
  ∀ c, PairingRendezvousClosed_completion c = to_i32 PairingRendezvousCompletion_Disconnected →
    completion ≠ PairingRendezvousCompletion_Disconnected →
    handle_pairing_closed id c s = (Err SC_CorrelationMismatch, s).
Proof.
  intros Ha Hph. split.
  - unfold handle_routed_pairing. rewrite bind_get.
    rewrite !bind_fail_if. repeat case_match; eauto. rewrite Ha, bind_some, Hph. by eexists.
  - intros c Hc Hne. unfold handle_pairing_closed.
    rewrite bind_get, Hc, try_from_to_i32, bind_some, bind_fail_if, Ha, bind_some. simpl.
    rewrite bind_fail_if. case_match; [done|]. rewrite Hph. simpl.
    rewrite (bool_decide_false _ (not_eq_sym Hne)), andb_false_r. done.
Qed.

(** ** Endpoints *)
Definition octet (z : Z) : Prop := 0 <= z < 256.

Definition segment (z : Z) : Prop := 0 <= z < 65536.

(** The address as a number, and the blocks of RFC 1918, RFC 4193 and the loopback block. *)
Definition v4_number (a : Ipv4Addr) : Z :=
  v4_0 a * 2 ^ 24 + v4_1 a * 2 ^ 16 + v4_2 a * 2 ^ 8 + v4_3 a.

Definition v4_wf (a : Ipv4Addr) : Prop :=
  octet (v4_0 a) ∧ octet (v4_1 a) ∧ octet (v4_2 a) ∧ octet (v4_3 a).

(** The first [bits] bits of an address of width [width] are those of [network]. *)
Definition in_block (width bits network number : Z) : Prop :=
  number / 2 ^ (width - bits) = network / 2 ^ (width - bits).

Definition v4 (a b c d : Z) : Z := a * 2 ^ 24 + b * 2 ^ 16 + c * 2 ^ 8 + d.

Definition private_block (n : Z) : Prop :=
  in_block 32 8 (v4 10 0 0 0) n ∨ in_block 32 12 (v4 172 16 0 0) n ∨
  in_block 32 16 (v4 192 168 0 0) n.

Definition loopback_block (n : Z) : Prop := in_block 32 8 (v4 127 0 0 0) n.

Lemma v4_private_block a : v4_wf a → v4_is_private a = true ↔ private_block (v4_number a).
Proof.
  unfold v4_wf, octet, v4_is_private, private_block, in_block, v4_number, v4. intros Hwf.
  rewrite !orb_true_iff, !andb_true_iff, !Z.eqb_eq, !Z.leb_le.
  change (32 - 8) with 24. change (32 - 12) with 20. change (32 - 16) with 16.
  change (2 ^ 24) with 16777216. change (2 ^ 20) with 1048576. change (2 ^ 16) with 65536.
  change (2 ^ 8) with 256.
  Z.to_euclidean_division_equations. lia.
Qed.

Lemma v4_loopback_block a : v4_wf a → v4_is_loopback a = true ↔ loopback_block (v4_number a).
Proof.
  unfold v4_wf, octet, v4_is_loopback, loopback_block, in_block, v4_number, v4. intros Hwf.
  rewrite Z.eqb_eq. change (32 - 8) with 24. change (2 ^ 24) with 16777216.
  change (2 ^ 16) with 65536. change (2 ^ 8) with 256.
  Z.to_euclidean_division_equations. lia.
Qed.

Definition v6_number (a : Ipv6Addr) : Z :=
  v6_0 a * 2 ^ 112 + v6_1 a * 2 ^ 96 + v6_2 a * 2 ^ 80 + v6_3 a * 2 ^ 64 + v6_4 a * 2 ^ 48
  + v6_5 a * 2 ^ 32 + v6_6 a * 2 ^ 16 + v6_7 a.

Definition v6_wf (a : Ipv6Addr) : Prop :=
  segment (v6_0 a) ∧ segment (v6_1 a) ∧ segment (v6_2 a) ∧ segment (v6_3 a) ∧
  segment (v6_4 a) ∧ segment (v6_5 a) ∧ segment (v6_6 a) ∧ segment (v6_7 a).

(** fc00::/7. *)
Definition unique_local_block (n : Z) : Prop := in_block 128 7 (64512 * 2 ^ 112) n.

Lemma v6_loopback_one a : v6_wf a → v6_is_loopback a = true ↔ v6_number a = 1.
Proof.
  unfold v6_wf, segment, v6_is_loopback, v6_number. intros Hwf.
  rewrite !andb_true_iff, !Z.eqb_eq. lia.
Qed.

Lemma top_seven_bits z : segment z → (Z.land z 65024 =? 64512) = (z / 512 =? 126).
Proof.
  unfold segment. intros Hz.
  assert (Z.land z 65024 = z / 512 * 512) as ->.
  { change 65024 with (Z.land (Z.ones 16) (Z.lnot (Z.ones 9))).
    rewrite Z.land_assoc, Z.land_ones, Z.mod_small, <- Z.ldiff_land, Z.ldiff_ones_r,
      Z.shiftl_mul_pow2, Z.shiftr_div_pow2 by lia. done. }
  apply eq_true_iff_eq. rewrite !Z.eqb_eq. lia.
Qed.

Lemma v6_unique_local_block a :
  v6_wf a → v6_is_unique_local a = true ↔ unique_local_block (v6_number a).
Proof.
  intros Hwf. unfold v6_is_unique_local. rewrite top_seven_bits by apply Hwf. rewrite Z.eqb_eq.
  unfold v6_wf, segment, unique_local_block, in_block, v6_number in *.
  assert (64512 * 2 ^ 112 / 2 ^ (128 - 7) = 126) as -> by (vm_compute; reflexivity).
  change (2 ^ (128 - 7)) with (2 ^ 112 * 512).
  set (low := v6_1 a * 2 ^ 96 + v6_2 a * 2 ^ 80 + v6_3 a * 2 ^ 64 + v6_4 a * 2 ^ 48
              + v6_5 a * 2 ^ 32 + v6_6 a * 2 ^ 16 + v6_7 a).
  assert (0 <= low < 2 ^ 112) as Hlow by (subst low; lia).
  rewrite <- Z.div_div by lia.
  replace (_ + v6_7 a) with (v6_0 a * 2 ^ 112 + low) by (subst low; lia).
  rewrite Z.div_add_l, (Z.div_small low), Z.add_0_r by lia. done.
Qed.

Section EndpointPolicy.
Context `{UrlParser Url}.

(** The addresses of a parsed URL are addresses. *)
Class UrlParserLaws : Prop := {
  url_host_v4 url a : url_host url = Some (Host_Ipv4 a) → v4_wf a;
  url_host_v6 url a : url_host url = Some (Host_Ipv6 a) → v6_wf a
}.

(** Hosts a client may talk to without TLS; [lan] is the development override. *)
Definition plaintext_host (lan : Prop) (host : UrlHost) : Prop :=
  match host with
  | Host_Domain domain => to_ascii_lowercase <$> domain = lit "localhost"
  | Host_Ipv4 a => loopback_block (v4_number a) ∨ lan ∧ private_block (v4_number a)
  | Host_Ipv6 a => v6_number a = 1 ∨ lan ∧ unique_local_block (v6_number a)
  end.

Lemma plaintext_host_iff `{UrlParserLaws} (lan : bool) url :
  is_loopback url || (lan && is_private_network_address url) = true ↔
  ∃ host, url_host url = Some host ∧ plaintext_host (lan = true) host.
Proof.
  unfold is_loopback, is_private_network_address.
  destruct (url_host url) as [[domain|a|a]|] eqn:Hh; rewrite orb_true_iff, andb_true_iff.
  - unfold eq_ignore_ascii_case. rewrite bool_decide_eq_true. simpl.
    change (to_ascii_lowercase <$> lit "localhost") with (lit "localhost"). naive_solver.
  - pose proof (url_host_v4 _ _ Hh). rewrite v4_loopback_block, v4_private_block by done.
    naive_solver.
  - pose proof (url_host_v6 _ _ Hh). rewrite v6_loopback_one, v6_unique_local_block by done.
    naive_solver.
  - naive_solver.
Qed.

(** An endpoint is accepted exactly if it is short enough, parses, carries no credentials and
    either uses TLS or is plaintext to the loopback host, or, in a debug build with the
    environment variable set to true, to an address literal of a private network (RFC 1918 or
    RFC 4193 blocks, by the number of the address). *)
Theorem endpoint_policy_exact `{UrlParserLaws} debug_build requested endpoint :
  validate_signaling_endpoint debug_build requested endpoint = Ok () ↔
  text_len endpoint <= 2048 ∧ ∃ url, url_parse endpoint = Some url ∧
    url_username url = [] ∧ url_password url = None ∧
    (url_scheme url = lit "wss" ∨
     url_scheme url = lit "ws" ∧ ∃ host, url_host url = Some host ∧
       plaintext_host (debug_build = true ∧ requested = Some (lit "true")) host).
Proof.
  unfold validate_signaling_endpoint, validate_signaling_endpoint_with_policy.
  rewrite res_seq, res_fail_if, res_ok_or, Z.ltb_ge.
  apply and_iff_compat_l, exist_proper. intros url. apply and_iff_compat_l.
  rewrite res_seq, res_fail_if, orb_false_iff, negb_false_iff, bool_decide_eq_true, Logic.and_assoc.
  apply and_iff_compat_l.
  assert (is_some (url_password url) = false ↔ url_password url = None) as ->
    by (destruct (url_password url); naive_solver).
  apply and_iff_compat_l.
  assert (∀ host, plaintext_host (debug_build = true ∧ requested = Some (lit "true")) host ↔
          plaintext_host (insecure_lan_signaling_enabled debug_build requested = true) host) as Hlan.
  { intros host. unfold insecure_lan_signaling_enabled.
    destruct host; simpl; by rewrite ?andb_true_iff, ?bool_decide_eq_true. }
  setoid_rewrite Hlan. rewrite <- plaintext_host_iff.
  assert (lit "wss" ≠ lit "ws") by done.
  destruct (decide (url_scheme url = lit "wss")) as [->|]; [naive_solver|].
  destruct (decide (url_scheme url = lit "ws")) as [->|]; [|naive_solver].
  destruct (is_loopback url); simpl; [naive_solver|].
  destruct (insecure_lan_signaling_enabled debug_build requested && is_private_network_address url);
    naive_solver.
Qed.
End EndpointPolicy.
Arguments UrlParserLaws Url {_}.

(** * Witnesses *)
Module Example.
Definition device : bytes := replicate 32 x01.
Definition peer : bytes := replicate 32 x02.
Definition rendezvous : bytes := replicate 16 x03.

Definition sample_frame (request_id : text) (p : SignalingServerFrame_Payload)
    : SignalingServerFrame :=
  {| SignalingServerFrame_protocol_version :=
       Some {| ProtocolVersion_major := 1; ProtocolVersion_minor := 0 |};
     SignalingServerFrame_request_id := request_id; SignalingServerFrame_payload := Some p |}.

(** Four frames of the service, by their first byte. *)
Definition decode_frame (bs : bytes) : option SignalingServerFrame :=
  match bs with
  | [x00] => Some (sample_frame (lit "r") (SignalingServerFrame_Payload_Registered
      {| RegistrationAccepted_device_id := device;
         RegistrationAccepted_presence_expires_at_unix_ms := 9 |}))
  | [x01] => Some (sample_frame (lit "c") (SignalingServerFrame_Payload_RendezvousCreated
      {| PairingRendezvousCreated_rendezvous_id := rendezvous; PairingRendezvousCreated_kind := 1;
         PairingRendezvousCreated_expires_at_unix_ms := 100 |}))
  | [x02] => Some (sample_frame [] (SignalingServerFrame_Payload_RendezvousJoined
      {| PairingRendezvousJoined_rendezvous_id := rendezvous;
         PairingRendezvousJoined_peer_device_id := peer;
         PairingRendezvousJoined_expires_at_unix_ms := 100 |}))
  | [x03] => Some (sample_frame [] (SignalingServerFrame_Payload_RoutedPairing
      {| RoutedPairingEnvelope_rendezvous_id := rendezvous;
         RoutedPairingEnvelope_sender_device_id := peer;
         RoutedPairingEnvelope_opaque_envelope := [x07] |}))
  | _ => None
  end.

#[local] Instance codec : Message SignalingServerFrame :=
  {| encode_to_vec := λ _, []; decode := decode_frame |}.

Definition idle : SignalingProtocol :=
  {| sp_device_id := device; sp_state := SS_Disconnected; sp_pairing := None;
     sp_pending_heartbeat := None |}.

Definition ops : list sig_op :=
  [Op_registration (lit "r"); Op_handle_binary [x00];
   Op_create_pairing rendezvous PairingRendezvousKind_Qr [] (lit "c"); Op_handle_binary [x01];
   Op_handle_binary [x02]; Op_handle_binary [x03]; Op_handle_binary [x02];
   Op_complete_pairing rendezvous PairingRendezvousCompletion_Succeeded (lit "d")].

Lemma signaling_log_justified_witness :
  (length (sig_run ops idle).1 = 7)%nat ∧
  nth_error (sig_run ops idle).1 1 = Some (Got [] (SE_RoutedPairing rendezvous peer [x07])) ∧
  len device = 32 ∧ log_justified device (sig_run ops idle).1.
Proof.
  split; [vm_compute; reflexivity|]. split; [vm_compute; reflexivity|].
  apply (signaling_log_justified device idle ops). vm_compute. reflexivity.
Defined.

(** A parser that knows one private address. *)
#[local] Instance parser : UrlParser unit :=
  {| url_parse := λ _, Some (); url_username := λ _, []; url_password := λ _, None;
     url_scheme := λ _, lit "ws";
     url_host := λ _, Some (Host_Ipv4 {| v4_0 := 172; v4_1 := 31; v4_2 := 255; v4_3 := 254 |}) |}.

#[local] Instance parser_laws : UrlParserLaws unit.
Proof.
  split; simpl; intros [] a; [|done]. intros [= <-]. repeat split; simpl; lia.
Qed.

Definition endpoint : text := lit "ws://172.31.255.254:8080/v1/ws".

Lemma endpoint_policy_exact_witness :
  (validate_signaling_endpoint true (Some (lit "true")) endpoint = Ok () ↔
   text_len endpoint <= 2048 ∧ ∃ url, url_parse endpoint = Some url ∧
     url_username url = [] ∧ url_password url = None ∧
     (url_scheme url = lit "wss" ∨
      url_scheme url = lit "ws" ∧ ∃ host, url_host url = Some host ∧
        plaintext_host (true = true ∧ Some (lit "true") = Some (lit "true")) host)) ∧
  validate_signaling_endpoint true (Some (lit "true")) endpoint = Ok () ∧
  validate_signaling_endpoint false (Some (lit "true")) endpoint = Err SC_InsecureEndpoint.
Proof.
  split; [exact (endpoint_policy_exact true (Some (lit "true")) endpoint)|].
  by split; vm_compute.
Defined.
End Example.
