(* ===== verification/Pairing.v ===== *)
(** The pairing coordinator of the Host, crates/host-agent/src/pairing.rs: one invitation at a
    time, from the local request through the controller's authenticated hello and ready to the
    user's decision.

    The coordinator is a state machine driven by the local interface ([start], [accept],
    [reject], [cancel]), by the signaling client ([handle_signaling_event]), by the clock
    ([tick]) and by the connection ([signaling_connected], [signaling_lost], [shutdown]).  It
    holds its random source; [accept] also borrows the grant registry. *)
From S2P Require Import Prelude Limits Messages Crypto Transcript Validation GrantStore Authorization Identity PairingCrypto Signaling.

Local Open Scope Z_scope.

Definition RENDEZVOUS_BYTES : Z := 16.
Definition EPHEMERAL_PRIVATE_KEY_BYTES : Z := 32.
Definition DESKTOP_CODE_RANDOM_BYTES : Z := 5.
Definition BASE32_ALPHABET : text := lit "ABCDEFGHIJKLMNOPQRSTUVWXYZ234567".
Definition VIEW_AND_CONTROL_PERMISSIONS : list SessionPermission :=
  [SessionPermission_ViewScreen; SessionPermission_ControlInput].

Inductive PairingCoordinatorError :=
| PCE_InvalidState | PCE_InvalidInput | PCE_Expired | PCE_Authentication
| PCE_Authorization (error : AuthorizationError) | PCE_Random.

Inductive PairingOutbound :=
| PO_Create (rendezvous_id : bytes) (kind : PairingRendezvousKind) (pairing_code : text)
| PO_Relay (rendezvous_id opaque_envelope : bytes)
| PO_Complete (rendezvous_id : bytes) (completion : PairingRendezvousCompletion).

Inductive ActivePhase := Creating | Inviting | WaitingHello | WaitingReady | WaitingDecision.

#[export] Instance ActivePhase_eq_dec : EqDecision ActivePhase.
Proof. solve_decision. Defined.

Record HostPairingKeys := { hk_controller_to_host : bytes; hk_host_to_controller : bytes }.

Record ActivePairing := {
  pa_phase : ActivePhase;
  pa_invitation : HostPairingInvitation;
  pa_server_expires_at_unix_ms : Z;
  pa_host_ephemeral_private_key : bytes;
  pa_peer_device_id : option bytes;
  pa_controller : option DeviceIdentity;
  pa_controller_ephemeral_public_key : bytes;
  pa_transcript_sha256 : bytes;
  pa_keys : option HostPairingKeys;
  pa_sas_words : list text
}.

Record HostPairingCoordinator {G : Type} := {
  hc_host_identity : DeviceIdentity;
  hc_random : G;
  hc_signaling_connected : bool;
  hc_revision : Z;
  hc_status : HostPairingStatusSnapshot;
  hc_active : option ActivePairing;
  hc_terminal_rendezvous_id : option bytes;
  hc_pending_cancelled_create : option bytes;
  hc_outbound : list PairingOutbound
}.
Arguments HostPairingCoordinator : clear implicits.

(** * Constructors of messages *)

Definition idle_snapshot (revision : Z) : HostPairingStatusSnapshot :=
  {| HostPairingStatusSnapshot_state := to_i32 HostPairingState_Idle;
     HostPairingStatusSnapshot_revision := revision;
     HostPairingStatusSnapshot_invitation := None;
     HostPairingStatusSnapshot_pending_controller := None;
     HostPairingStatusSnapshot_pending_controller_fingerprint_sha256 := [];
     HostPairingStatusSnapshot_sas_words := [];
     HostPairingStatusSnapshot_expires_at_unix_ms := 0;
     HostPairingStatusSnapshot_error := None |}.

Definition pairing_failed_error : UnifiedError :=
  {| UnifiedError_code := to_i32 ErrorCode_AuthInvalid;
     UnifiedError_message_key := lit "pairing.failed";
     UnifiedError_retryable := false;
     UnifiedError_request_id := [];
     UnifiedError_details := None |}.

Definition map_crypto_error (_ : HostPairingCryptoError) : PairingCoordinatorError :=
  PCE_Authentication.

Definition signaling_kind (kind : PairingInvitationKind) : PairingRendezvousKind :=
  match kind with
  | PairingInvitationKind_Qr => PairingRendezvousKind_Qr
  | PairingInvitationKind_DesktopCode => PairingRendezvousKind_DesktopCode
  | PairingInvitationKind_Unspecified => PairingRendezvousKind_Unspecified
  end.

Definition pa_rendezvous_id (active : ActivePairing) : bytes :=
  HostPairingInvitation_rendezvous_id (pa_invitation active).

Definition pa_expires (active : ActivePairing) : Z :=
  HostPairingInvitation_expires_at_unix_ms (pa_invitation active).

(** [None] where the source panics: the invitation always carries the Host's identity. *)
Definition confirmation_data (verified : VerifiedControllerHello) (active : ActivePairing)
    : option PairingConfirmationData :=
  host ← HostPairingInvitation_host_identity (pa_invitation active);
  Some {| PairingConfirmationData_controller_device_id :=
            DeviceIdentity_device_id (vh_controller verified);
          PairingConfirmationData_host_device_id := DeviceIdentity_device_id host;
          PairingConfirmationData_rendezvous_id := pa_rendezvous_id active;
          PairingConfirmationData_controller_identity_public_key :=
            DeviceIdentity_public_key (vh_controller verified);
          PairingConfirmationData_host_identity_public_key := DeviceIdentity_public_key host;
          PairingConfirmationData_controller_ephemeral_public_key :=
            vh_controller_ephemeral_public_key verified;
          PairingConfirmationData_host_ephemeral_public_key :=
            HostPairingInvitation_host_ephemeral_public_key (pa_invitation active);
          PairingConfirmationData_transcript_sha256 := vh_transcript_sha256 verified |}.

(** * Updates of fields *)

Definition set_phase (phase : ActivePhase) (a : ActivePairing) : ActivePairing :=
  {| pa_phase := phase; pa_invitation := pa_invitation a;
     pa_server_expires_at_unix_ms := pa_server_expires_at_unix_ms a;
     pa_host_ephemeral_private_key := pa_host_ephemeral_private_key a;
     pa_peer_device_id := pa_peer_device_id a; pa_controller := pa_controller a;
     pa_controller_ephemeral_public_key := pa_controller_ephemeral_public_key a;
     pa_transcript_sha256 := pa_transcript_sha256 a; pa_keys := pa_keys a;
     pa_sas_words := pa_sas_words a |}.

Definition set_expires (expires : Z) (i : HostPairingInvitation) : HostPairingInvitation :=
  {| HostPairingInvitation_protocol_version := HostPairingInvitation_protocol_version i;
     HostPairingInvitation_kind := HostPairingInvitation_kind i;
     HostPairingInvitation_rendezvous_id := HostPairingInvitation_rendezvous_id i;
     HostPairingInvitation_host_identity := HostPairingInvitation_host_identity i;
     HostPairingInvitation_host_public_key_fingerprint_sha256 :=
       HostPairingInvitation_host_public_key_fingerprint_sha256 i;
     HostPairingInvitation_host_ephemeral_public_key :=
       HostPairingInvitation_host_ephemeral_public_key i;
     HostPairingInvitation_signaling_endpoint := HostPairingInvitation_signaling_endpoint i;
     HostPairingInvitation_pairing_code := HostPairingInvitation_pairing_code i;
     HostPairingInvitation_issued_at_unix_ms := HostPairingInvitation_issued_at_unix_ms i;
     HostPairingInvitation_expires_at_unix_ms := expires |}.

Section Coordinator.
Context `{Sha256, Ed25519, X25519, HkdfSha256, Aes256Gcm}.
Context `{Message PairingMessage, Message PairingPlaintext, Message HostAuthorizationSnapshot}.
Context `{UrlParser Url} {G : Type} `{RandomSource G}.
(** The build and the environment variable the endpoint policy reads. *)
Context (debug_build : bool) (requested : option text).

Abbreviation HC := (HostPairingCoordinator G).
Abbreviation PM A := (M HC PairingCoordinatorError A).

Definition with_random_source (g : G) (c : HC) : HC :=
  {| hc_host_identity := hc_host_identity c; hc_random := g;
     hc_signaling_connected := hc_signaling_connected c; hc_revision := hc_revision c;
     hc_status := hc_status c; hc_active := hc_active c;
     hc_terminal_rendezvous_id := hc_terminal_rendezvous_id c;
     hc_pending_cancelled_create := hc_pending_cancelled_create c;
     hc_outbound := hc_outbound c |}.

Definition with_connected (connected : bool) (c : HC) : HC :=
  {| hc_host_identity := hc_host_identity c; hc_random := hc_random c;
     hc_signaling_connected := connected; hc_revision := hc_revision c;
     hc_status := hc_status c; hc_active := hc_active c;
     hc_terminal_rendezvous_id := hc_terminal_rendezvous_id c;
     hc_pending_cancelled_create := hc_pending_cancelled_create c;
     hc_outbound := hc_outbound c |}.

Definition with_active (active : option ActivePairing) (c : HC) : HC :=
  {| hc_host_identity := hc_host_identity c; hc_random := hc_random c;
     hc_signaling_connected := hc_signaling_connected c; hc_revision := hc_revision c;
     hc_status := hc_status c; hc_active := active;
     hc_terminal_rendezvous_id := hc_terminal_rendezvous_id c;
     hc_pending_cancelled_create := hc_pending_cancelled_create c;
     hc_outbound := hc_outbound c |}.

(** [self.revision = ..; self.status = ..]: the revision and a snapshot that carries it. *)
Definition with_status (revision : Z) (status : HostPairingStatusSnapshot) (c : HC) : HC :=
  {| hc_host_identity := hc_host_identity c; hc_random := hc_random c;
     hc_signaling_connected := hc_signaling_connected c; hc_revision := revision;
     hc_status := status; hc_active := hc_active c;
     hc_terminal_rendezvous_id := hc_terminal_rendezvous_id c;
     hc_pending_cancelled_create := hc_pending_cancelled_create c;
     hc_outbound := hc_outbound c |}.

Definition with_terminal (terminal : option bytes) (c : HC) : HC :=
  {| hc_host_identity := hc_host_identity c; hc_random := hc_random c;
     hc_signaling_connected := hc_signaling_connected c; hc_revision := hc_revision c;
     hc_status := hc_status c; hc_active := hc_active c;
     hc_terminal_rendezvous_id := terminal;
     hc_pending_cancelled_create := hc_pending_cancelled_create c;
     hc_outbound := hc_outbound c |}.

Definition with_cancelled (cancelled : option bytes) (c : HC) : HC :=
  {| hc_host_identity := hc_host_identity c; hc_random := hc_random c;
     hc_signaling_connected := hc_signaling_connected c; hc_revision := hc_revision c;
     hc_status := hc_status c; hc_active := hc_active c;
     hc_terminal_rendezvous_id := hc_terminal_rendezvous_id c;
     hc_pending_cancelled_create := cancelled; hc_outbound := hc_outbound c |}.

Definition with_outbound (outbound : list PairingOutbound) (c : HC) : HC :=
  {| hc_host_identity := hc_host_identity c; hc_random := hc_random c;
     hc_signaling_connected := hc_signaling_connected c; hc_revision := hc_revision c;
     hc_status := hc_status c; hc_active := hc_active c;
     hc_terminal_rendezvous_id := hc_terminal_rendezvous_id c;
     hc_pending_cancelled_create := hc_pending_cancelled_create c; hc_outbound := outbound |}.

Definition push_back (outbound : PairingOutbound) (c : HC) : HC :=
  with_outbound (hc_outbound c ++ [outbound]) c.

(** * Construction *)

Definition with_random (host_identity : DeviceIdentity) (random : G)
    : result PairingCoordinatorError HC :=
  map_err (λ _, PCE_InvalidInput) (validate_device_identity host_identity);;
  host_public_key ← ok_or (array_of 32 (DeviceIdentity_public_key host_identity)) PCE_InvalidInput;
  fail_if (bool_decide (DeviceIdentity_display_name host_identity = [])) PCE_InvalidInput;;
  derived ← map_err (λ _, PCE_InvalidInput) (derive_device_id_v1 host_public_key);
  fail_if (negb (bool_decide (derived = DeviceIdentity_device_id host_identity))) PCE_InvalidInput;;
  platform ← ok_or (try_from (E:=DevicePlatform) (DeviceIdentity_platform host_identity)) PCE_InvalidInput;
  fail_if (negb (bool_decide (platform = DevicePlatform_Macos ∨ platform = DevicePlatform_Windows)))
          PCE_InvalidInput;;
  mret {| hc_host_identity := host_identity; hc_random := random; hc_signaling_connected := false;
          hc_revision := 0; hc_status := idle_snapshot 0; hc_active := None;
          hc_terminal_rendezvous_id := None; hc_pending_cancelled_create := None;
          hc_outbound := [] |}.

Definition signaling_connected (c : HC) : HC := with_connected true c.

Definition snapshot (c : HC) : HostPairingStatusSnapshot := hc_status c.

Definition deadline_unix_ms (c : HC) : option Z := pa_expires <$> hc_active c.

Definition has_outbound (c : HC) : bool := negb (bool_decide (len (hc_outbound c) = 0)).

Definition take_outbound (c : HC) : list PairingOutbound * HC := (hc_outbound c, with_outbound [] c).

(** * Publishing *)

(** The snapshot [publish_active] publishes. *)
Definition active_snapshot (revision : Z) (state : HostPairingState) (active : ActivePairing)
    : HostPairingStatusSnapshot :=
  let waiting := bool_decide (state = HostPairingState_WaitingLocalDecision) in
  {| HostPairingStatusSnapshot_state := to_i32 state;
     HostPairingStatusSnapshot_revision := revision;
     HostPairingStatusSnapshot_invitation := Some (pa_invitation active);
     HostPairingStatusSnapshot_pending_controller := if waiting then pa_controller active else None;
     HostPairingStatusSnapshot_pending_controller_fingerprint_sha256 :=
       if waiting then
         match pa_controller active with
         | Some controller => public_key_fingerprint (DeviceIdentity_public_key controller)
         | None => []
         end
       else [];
     HostPairingStatusSnapshot_sas_words := if waiting then pa_sas_words active else [];
     HostPairingStatusSnapshot_expires_at_unix_ms := pa_expires active;
     HostPairingStatusSnapshot_error := None |}.

(** [publish_active]; it panics without an active pairing, which its callers exclude. *)
Definition publish_active (state : HostPairingState) (c : HC) : HC :=
  let revision := saturating_add U64_MAX (hc_revision c) 1 in
  match hc_active c with
  | None => c
  | Some active => with_status revision (active_snapshot revision state active) c
  end.

(** The snapshot [finish] publishes. *)
Definition final_snapshot (revision : Z) (state : HostPairingState) (error : option UnifiedError)
    : HostPairingStatusSnapshot :=
  {| HostPairingStatusSnapshot_state := to_i32 state;
     HostPairingStatusSnapshot_revision := revision;
     HostPairingStatusSnapshot_invitation := None;
     HostPairingStatusSnapshot_pending_controller := None;
     HostPairingStatusSnapshot_pending_controller_fingerprint_sha256 := [];
     HostPairingStatusSnapshot_sas_words := [];
     HostPairingStatusSnapshot_expires_at_unix_ms := 0;
     HostPairingStatusSnapshot_error := error |}.

Definition finish (state : HostPairingState) (error : option UnifiedError) (c : HC) : HC :=
  let rendezvous_id := pa_rendezvous_id <$> hc_active c in
  let revision := saturating_add U64_MAX (hc_revision c) 1 in
  with_status revision (final_snapshot revision state error)
    (with_terminal (match rendezvous_id with Some id => Some id | None => hc_terminal_rendezvous_id c end)
       (with_active None c)).

Definition fail_active (c : HC) : HC :=
  finish HostPairingState_Failed (Some pairing_failed_error)
    (match hc_active c with
     | Some active =>
         if bool_decide (pa_phase active ≠ Creating)
         then push_back (PO_Complete (pa_rendezvous_id active) PairingRendezvousCompletion_Rejected) c
         else c
     | None => c
     end).

(** The rendezvous is given up: at once, or when the service reports its creation. *)
Definition relinquish (active : ActivePairing) (rendezvous_id : bytes) (c : HC) : HC :=
  if bool_decide (pa_phase active = Creating) then with_cancelled (Some rendezvous_id) c
  else push_back (PO_Complete rendezvous_id PairingRendezvousCompletion_Rejected) c.

Definition tick (now_unix_ms : Z) (c : HC) : HC :=
  match hc_active c with
  | None => c
  | Some active =>
      if now_unix_ms <? pa_expires active then c
      else finish HostPairingState_Expired None (relinquish active (pa_rendezvous_id active) c)
  end.

Definition signaling_lost (c : HC) : HC :=
  let c := with_cancelled None (with_connected false c) in
  if is_some (hc_active c) then finish HostPairingState_Failed (Some pairing_failed_error) c else c.

Definition shutdown (c : HC) : HC :=
  let c := with_outbound [] (with_cancelled None (with_connected false c)) in
  if is_some (hc_active c) then finish HostPairingState_Cancelled None c else c.

Definition busy_state (state : HostPairingState) : bool :=
  match state with
  | HostPairingState_Idle | HostPairingState_Creating | HostPairingState_Inviting
  | HostPairingState_VerifyingController | HostPairingState_WaitingLocalDecision
  | HostPairingState_Unspecified => true
  | _ => false
  end.

Definition return_to_idle : PM unit :=
  self ← get;
  state ← ok_or (try_from (E:=HostPairingState) (HostPairingStatusSnapshot_state (hc_status self)))
            PCE_InvalidState;
  fail_if (is_some (hc_active self) || busy_state state) PCE_InvalidState;;
  let revision := saturating_add U64_MAX (hc_revision self) 1 in
  modify (λ c, with_status revision (idle_snapshot revision) (with_terminal None c)).

(** * Starting *)

(** [random.fill(&mut output)] of [n] bytes. *)
Definition fill (n : Z) : PM bytes :=
  map_err_m (λ _, PCE_Random) (zoom hc_random with_random_source (random_bytes n)).

Definition code_char (bits index : Z) : Z :=
  let shift := (7 - index) * 5 in
  nth (Z.to_nat (Z.land (Z.shiftr bits shift) 31)) BASE32_ALPHABET 0.

(** The eight characters of five random bytes. *)
Definition desktop_code (random : bytes) : text :=
  let bits := be_val random in
  code_char bits <$> [0; 1; 2; 3; 4; 5; 6; 7].

Definition generate_desktop_code : PM text :=
  random ← fill DESKTOP_CODE_RANDOM_BYTES;
  mret (desktop_code random).

(** The pairing [start] creates. *)
Definition new_pairing (host_identity : DeviceIdentity) (kind : PairingInvitationKind)
    (rendezvous_id private_key ephemeral_public_key : bytes) (signaling_endpoint pairing_code : text)
    (now_unix_ms expires_at_unix_ms : Z) : ActivePairing :=
  {| pa_phase := Creating;
     pa_invitation :=
       {| HostPairingInvitation_protocol_version :=
            Some {| ProtocolVersion_major := PROTOCOL_MAJOR_VERSION; ProtocolVersion_minor := 0 |};
          HostPairingInvitation_kind := to_i32 kind;
          HostPairingInvitation_rendezvous_id := rendezvous_id;
          HostPairingInvitation_host_identity := Some host_identity;
          HostPairingInvitation_host_public_key_fingerprint_sha256 :=
            public_key_fingerprint (DeviceIdentity_public_key host_identity);
          HostPairingInvitation_host_ephemeral_public_key := ephemeral_public_key;
          HostPairingInvitation_signaling_endpoint := signaling_endpoint;
          HostPairingInvitation_pairing_code := pairing_code;
          HostPairingInvitation_issued_at_unix_ms := now_unix_ms;
          HostPairingInvitation_expires_at_unix_ms := expires_at_unix_ms |};
     pa_server_expires_at_unix_ms := 0; pa_host_ephemeral_private_key := private_key;
     pa_peer_device_id := None; pa_controller := None;
     pa_controller_ephemeral_public_key := []; pa_transcript_sha256 := []; pa_keys := None;
     pa_sas_words := [] |}.

Definition start (kind : PairingInvitationKind) (signaling_endpoint : text) (now_unix_ms : Z)
    : PM HostPairingStatusSnapshot :=
  self ← get;
  fail_if (negb (hc_signaling_connected self) || is_some (hc_active self)) PCE_InvalidState;;
  (if negb (HostPairingStatusSnapshot_state (hc_status self) =? to_i32 HostPairingState_Idle)
   then return_to_idle else mret ());;
  fail_if (negb (bool_decide (kind = PairingInvitationKind_Qr ∨ kind = PairingInvitationKind_DesktopCode))
           || negb (is_ok (validate_signaling_endpoint debug_build requested signaling_endpoint)))
          PCE_InvalidInput;;
  expires_at_unix_ms ← ok_or (checked_add U64_MAX now_unix_ms PAIRING_RENDEZVOUS_LIFETIME_MS)
                         PCE_InvalidInput;
  rendezvous_id ← fill RENDEZVOUS_BYTES;
  private_key ← fill EPHEMERAL_PRIVATE_KEY_BYTES;
  ephemeral_public_key ← lift (map_err (λ _, PCE_Authentication) (x25519_public_key private_key));
  pairing_code ← (if bool_decide (kind = PairingInvitationKind_DesktopCode)
                  then generate_desktop_code else mret []);
  modify (with_active (Some (new_pairing (hc_host_identity self) kind rendezvous_id private_key
    ephemeral_public_key signaling_endpoint pairing_code now_unix_ms expires_at_unix_ms)));;
  modify (with_terminal None);;
  modify (push_back (PO_Create rendezvous_id (signaling_kind kind) pairing_code));;
  modify (publish_active HostPairingState_Creating);;
  gets snapshot.

(** * Signaling events *)

Definition handle_created (rendezvous_id : bytes) (kind : PairingRendezvousKind)
    (server_expires_at_unix_ms now_unix_ms : Z) : PM unit :=
  self ← get;
  if negb (is_some (hc_active self))
     && bool_decide (hc_pending_cancelled_create self = Some rendezvous_id) then
    modify (with_cancelled None);;
    modify (push_back (PO_Complete rendezvous_id PairingRendezvousCompletion_Rejected))
  else
    active ← ok_or (hc_active self) PCE_InvalidState;
    fail_if (negb (bool_decide (pa_phase active = Creating))
             || negb (bool_decide (pa_rendezvous_id active = rendezvous_id))) PCE_InvalidState;;
    invitation_kind ← ok_or (try_from (E:=PairingInvitationKind)
                               (HostPairingInvitation_kind (pa_invitation active))) PCE_InvalidState;
    fail_if (negb (bool_decide (signaling_kind invitation_kind = kind))
             || (server_expires_at_unix_ms <=? now_unix_ms)) PCE_InvalidState;;
    modify (with_active (Some
      {| pa_phase := Inviting;
         pa_invitation :=
           set_expires (Z.min (pa_expires active) server_expires_at_unix_ms) (pa_invitation active);
         pa_server_expires_at_unix_ms := server_expires_at_unix_ms;
         pa_host_ephemeral_private_key := pa_host_ephemeral_private_key active;
         pa_peer_device_id := pa_peer_device_id active; pa_controller := pa_controller active;
         pa_controller_ephemeral_public_key := pa_controller_ephemeral_public_key active;
         pa_transcript_sha256 := pa_transcript_sha256 active; pa_keys := pa_keys active;
         pa_sas_words := pa_sas_words active |}));;
    modify (publish_active HostPairingState_Inviting).

Definition is_desktop_code (active : ActivePairing) : bool :=
  HostPairingInvitation_kind (pa_invitation active) =? to_i32 PairingInvitationKind_DesktopCode.

Definition handle_joined (rendezvous_id peer_device_id : bytes)
    (expires_at_unix_ms now_unix_ms : Z) : PM unit :=
  self ← get;
  active ← ok_or (hc_active self) PCE_InvalidState;
  fail_if (negb (bool_decide (pa_phase active = Inviting))
           || negb (bool_decide (pa_rendezvous_id active = rendezvous_id))
           || negb (pa_server_expires_at_unix_ms active =? expires_at_unix_ms)
           || (pa_expires active <=? now_unix_ms)
           || bool_decide (peer_device_id = DeviceIdentity_device_id (hc_host_identity self)))
          PCE_InvalidState;;
  modify (with_active (Some
    {| pa_phase := WaitingHello; pa_invitation := pa_invitation active;
       pa_server_expires_at_unix_ms := pa_server_expires_at_unix_ms active;
       pa_host_ephemeral_private_key := pa_host_ephemeral_private_key active;
       pa_peer_device_id := Some peer_device_id; pa_controller := pa_controller active;
       pa_controller_ephemeral_public_key := pa_controller_ephemeral_public_key active;
       pa_transcript_sha256 := pa_transcript_sha256 active; pa_keys := pa_keys active;
       pa_sas_words := pa_sas_words active |}));;
  modify (λ c,
    if is_desktop_code active
    then push_back (PO_Relay rendezvous_id (encode_pairing_payload
                      (PairingMessage_Payload_HostInvitation (pa_invitation active)))) c
    else c);;
  modify (publish_active HostPairingState_VerifyingController).

Definition handle_controller_hello (hello : ControllerPairingHello) (sender_device_id : bytes)
    (signing_identity : HostIdentity) : PM unit :=
  self ← get;
  active ← ok_or (hc_active self) PCE_InvalidState;
  verified ← lift (map_err map_crypto_error
    (verify_controller_hello hello sender_device_id (pa_rendezvous_id active) (hc_host_identity self)
       (pa_host_ephemeral_private_key active)
       (HostPairingInvitation_host_ephemeral_public_key (pa_invitation active))));
  signature ← lift (map_err (λ _, PCE_Authentication)
    (sign_pairing_transcript signing_identity (vh_transcript verified) PairingIdentityRole_Host));
  confirmation ← ok_or (confirmation_data verified active) PCE_InvalidState;
  let proof :=
    {| PairingPlaintext_payload := Some (PairingPlaintext_Payload_HostProof
         {| HostPairingProof_confirmation := Some confirmation;
            HostPairingProof_host_signature := PairingTranscriptSignature_signature signature;
            HostPairingProof_expires_at_unix_ms := pa_expires active |}) |} in
  encrypted ← lift (map_err map_crypto_error
    (seal_host_plaintext (pk_host_to_controller (vh_keys verified)) 1 (pa_rendezvous_id active)
       (DeviceIdentity_device_id (vh_controller verified))
       (DeviceIdentity_device_id (hc_host_identity self)) proof));
  sas_words ← lift (if is_desktop_code active
    then map_err map_crypto_error (pairing_sas_words (vh_transcript_sha256 verified)) else Ok []);
  modify (with_active (Some
    {| pa_phase := WaitingReady; pa_invitation := pa_invitation active;
       pa_server_expires_at_unix_ms := pa_server_expires_at_unix_ms active;
       pa_host_ephemeral_private_key := pa_host_ephemeral_private_key active;
       pa_peer_device_id := pa_peer_device_id active;
       pa_controller := Some (vh_controller verified);
       pa_controller_ephemeral_public_key := vh_controller_ephemeral_public_key verified;
       pa_transcript_sha256 := vh_transcript_sha256 verified;
       pa_keys := Some {| hk_controller_to_host := pk_controller_to_host (vh_keys verified);
                          hk_host_to_controller := pk_host_to_controller (vh_keys verified) |};
       pa_sas_words := sas_words |}));;
  modify (push_back (PO_Relay (pa_rendezvous_id active) encrypted)).

Definition handle_controller_ready (opaque_envelope : bytes) : PM unit :=
  self ← get;
  active ← ok_or (hc_active self) PCE_InvalidState;
  controller ← ok_or (pa_controller active) PCE_Authentication;
  keys ← ok_or (pa_keys active) PCE_Authentication;
  plaintext ← lift (map_err map_crypto_error
    (open_controller_plaintext (hk_controller_to_host keys) 1 (pa_rendezvous_id active)
       (DeviceIdentity_device_id controller) (DeviceIdentity_device_id (hc_host_identity self))
       opaque_envelope));
  match PairingPlaintext_payload plaintext with
  | Some (PairingPlaintext_Payload_ControllerReady ready) =>
      fail_if (negb (bool_decide (ControllerPairingReady_transcript_sha256 ready =
                                  pa_transcript_sha256 active))) PCE_Authentication;;
      modify (with_active (Some (set_phase WaitingDecision active)));;
      modify (publish_active HostPairingState_WaitingLocalDecision)
  | _ => mthrow PCE_Authentication
  end.

Definition handle_routed_inner (rendezvous_id sender_device_id opaque_envelope : bytes)
    (signing_identity : HostIdentity) : PM unit :=
  self ← get;
  active ← ok_or (hc_active self) PCE_InvalidState;
  fail_if (negb (bool_decide (pa_rendezvous_id active = rendezvous_id))
           || negb (bool_decide (pa_peer_device_id active = Some sender_device_id)))
          PCE_Authentication;;
  match pa_phase active with
  | WaitingHello =>
      message ← lift (map_err map_crypto_error (decode_pairing_message opaque_envelope));
      match PairingMessage_payload message with
      | Some (PairingMessage_Payload_ControllerHello hello) =>
          handle_controller_hello hello sender_device_id signing_identity
      | _ => mthrow PCE_Authentication
      end
  | WaitingReady => handle_controller_ready opaque_envelope
  | Creating | Inviting | WaitingDecision => mthrow PCE_Authentication
  end.

Definition handle_routed (rendezvous_id sender_device_id opaque_envelope : bytes)
    (signing_identity : HostIdentity) : PM unit :=
  result ← try (handle_routed_inner rendezvous_id sender_device_id opaque_envelope signing_identity);
  modify (λ c, if negb (is_ok result) && is_some (hc_active c) then fail_active c else c);;
  lift result.

Definition closed_state (completion : PairingRendezvousCompletion) : HostPairingState :=
  match completion with
  | PairingRendezvousCompletion_Rejected => HostPairingState_Rejected
  | PairingRendezvousCompletion_Expired => HostPairingState_Expired
  | PairingRendezvousCompletion_Disconnected => HostPairingState_Failed
  | PairingRendezvousCompletion_Succeeded | PairingRendezvousCompletion_Unspecified =>
      HostPairingState_Failed
  end.

Definition handle_closed (rendezvous_id : bytes) (completion : PairingRendezvousCompletion)
    : PM unit :=
  self ← get;
  if bool_decide (hc_terminal_rendezvous_id self = Some rendezvous_id) then mret ()
  else
    active ← ok_or (hc_active self) PCE_InvalidState;
    fail_if (negb (bool_decide (pa_rendezvous_id active = rendezvous_id))) PCE_InvalidState;;
    let state := closed_state completion in
    let error := if bool_decide (state = HostPairingState_Failed) then Some pairing_failed_error
                 else None in
    modify (finish state error).

Definition handle_signaling_event (event : SignalingEvent) (signing_identity : HostIdentity)
    (now_unix_ms : Z) : PM unit :=
  modify (tick now_unix_ms);;
  match event with
  | SE_PairingCreated rendezvous_id kind expires_at_unix_ms =>
      handle_created rendezvous_id kind expires_at_unix_ms now_unix_ms
  | SE_PairingJoined rendezvous_id peer_device_id expires_at_unix_ms =>
      handle_joined rendezvous_id peer_device_id expires_at_unix_ms now_unix_ms
  | SE_RoutedPairing rendezvous_id sender_device_id opaque_envelope =>
      handle_routed rendezvous_id sender_device_id opaque_envelope signing_identity
  | SE_PairingClosed rendezvous_id completion => handle_closed rendezvous_id completion
  | SE_RemoteError _ _ =>
      self ← get;
      if is_some (hc_active self) then modify fail_active else mthrow PCE_InvalidState
  | SE_Registered _ | SE_HeartbeatAcknowledged _ _ | SE_RoutedSession _ _ =>
      mthrow PCE_InvalidState
  end.

(** * Decisions *)

Definition ensure_waiting_decision (rendezvous_id controller_device_id : bytes) (now_unix_ms : Z)
    : PM unit :=
  modify (tick now_unix_ms);;
  self ← get;
  active ← ok_or (hc_active self)
    (if HostPairingStatusSnapshot_state (hc_status self) =? to_i32 HostPairingState_Expired
     then PCE_Expired else PCE_InvalidState);
  fail_if (negb (bool_decide (pa_phase active = WaitingDecision))
           || negb (bool_decide (pa_rendezvous_id active = rendezvous_id))
           || negb (bool_decide (DeviceIdentity_device_id <$> pa_controller active =
                                 Some controller_device_id))) PCE_InvalidState.

Definition encrypt_final_decision (status : PairingDecisionStatus) (grant : option ControllerGrant)
    (self : HC) : result PairingCoordinatorError bytes :=
  active ← ok_or (hc_active self) PCE_InvalidState;
  controller ← ok_or (pa_controller active) PCE_InvalidState;
  keys ← ok_or (pa_keys active) PCE_InvalidState;
  map_err map_crypto_error
    (seal_host_plaintext (hk_host_to_controller keys) 2 (pa_rendezvous_id active)
       (DeviceIdentity_device_id controller) (DeviceIdentity_device_id (hc_host_identity self))
       {| PairingPlaintext_payload := Some (PairingPlaintext_Payload_FinalDecision
            {| PairingFinalDecision_status := to_i32 status;
               PairingFinalDecision_transcript_sha256 := pa_transcript_sha256 active;
               PairingFinalDecision_grant := grant |}) |}).

Definition reject (rendezvous_id controller_device_id : bytes) (now_unix_ms : Z) : PM unit :=
  ensure_waiting_decision rendezvous_id controller_device_id now_unix_ms;;
  self ← get;
  encrypted ← lift (encrypt_final_decision PairingDecisionStatus_Rejected None self);
  modify (push_back (PO_Relay rendezvous_id encrypted));;
  modify (push_back (PO_Complete rendezvous_id PairingRendezvousCompletion_Rejected));;
  modify (finish HostPairingState_Rejected None).

Definition cancel (rendezvous_id : bytes) (_now_unix_ms : Z) : PM unit :=
  self ← get;
  active ← ok_or (hc_active self) PCE_InvalidState;
  fail_if (negb (bool_decide (pa_rendezvous_id active = rendezvous_id))) PCE_InvalidState;;
  modify (relinquish active rendezvous_id);;
  modify (finish HostPairingState_Cancelled None).

(** [accept] works on the coordinator and on the borrowed registry. *)
Section Accept.
Context {W R : Type} `{GrantStore W, RandomSource R}.

Abbreviation AM A := (M (HC * RegistryState W R) PairingCoordinatorError A).

Definition on_coordinator {A} (m : PM A) : AM A := zoom fst (λ c s, (c, s.2)) m.

Definition accept (rendezvous_id controller_device_id : bytes) (now_unix_ms : Z) : AM unit :=
  on_coordinator (ensure_waiting_decision rendezvous_id controller_device_id now_unix_ms);;
  s ← get;
  controller ← ok_or (active ← hc_active s.1; pa_controller active) PCE_InvalidState;
  created ← try (zoom snd (λ r s, (s.1, r))
                   (create_controller_grant controller VIEW_AND_CONTROL_PERMISSIONS now_unix_ms));
  match created with
  | Ok view =>
      grant ← ok_or (ControllerGrantView_grant view) PCE_InvalidState;
      s ← get;
      encrypted ← lift (encrypt_final_decision PairingDecisionStatus_Accepted (Some grant) s.1);
      on_coordinator (modify (push_back (PO_Relay rendezvous_id encrypted)));;
      on_coordinator
        (modify (push_back (PO_Complete rendezvous_id PairingRendezvousCompletion_Succeeded)));;
      on_coordinator (modify (finish HostPairingState_Accepted None))
  | Err error =>
      on_coordinator (modify fail_active);;
      mthrow (PCE_Authorization error)
  end.
End Accept.
End Coordinator.

(** * Specification *)

(** What the user's decision is about: a controller whose signed hello was verified for this
    rendezvous and key, and whose ready, sealed under the keys of that hello, confirms the same
    transcript. *)
Section Specification.
Context `{Sha256, Ed25519, X25519, HkdfSha256, Aes256Gcm}.
Context `{Message PairingMessage, Message PairingPlaintext}.

(** [heard rendezvous sender envelope]: the signaling service delivered this envelope. *)
Context (heard : bytes → bytes → bytes → Prop).

(** The state shown for a phase. *)
Definition phase_state (phase : ActivePhase) : HostPairingState :=
  match phase with
  | Creating => HostPairingState_Creating
  | Inviting => HostPairingState_Inviting
  | WaitingHello | WaitingReady => HostPairingState_VerifyingController
  | WaitingDecision => HostPairingState_WaitingLocalDecision
  end.

(** The invitation: of this Host, with the public half of the ephemeral key, for at most the
    lifetime of a rendezvous. *)
Record invitation_wf (host : DeviceIdentity) (a : ActivePairing) : Prop := {
  iw_host : HostPairingInvitation_host_identity (pa_invitation a) = Some host;
  iw_key : x25519_public_key (pa_host_ephemeral_private_key a) =
    Ok (HostPairingInvitation_host_ephemeral_public_key (pa_invitation a));
  iw_kind : HostPairingInvitation_kind (pa_invitation a) = to_i32 PairingInvitationKind_Qr ∨
    is_desktop_code a = true;
  iw_lifetime : pa_expires a <=
    HostPairingInvitation_issued_at_unix_ms (pa_invitation a) + PAIRING_RENDEZVOUS_LIFETIME_MS
}.

Definition hello_verified (host : DeviceIdentity) (a : ActivePairing) (hello : ControllerPairingHello)
    (peer : bytes) (v : VerifiedControllerHello) : Prop :=
  pa_peer_device_id a = Some peer ∧
  (∃ envelope, heard (pa_rendezvous_id a) peer envelope ∧
     decode_pairing_message envelope =
       Ok {| PairingMessage_payload := Some (PairingMessage_Payload_ControllerHello hello) |}) ∧
  hello_ok hello peer (pa_rendezvous_id a) host (pa_host_ephemeral_private_key a)
    (HostPairingInvitation_host_ephemeral_public_key (pa_invitation a)) v ∧
  pa_controller a = Some (vh_controller v) ∧ pa_transcript_sha256 a = vh_transcript_sha256 v ∧
  pa_keys a = Some {| hk_controller_to_host := pk_controller_to_host (vh_keys v);
                      hk_host_to_controller := pk_host_to_controller (vh_keys v) |} ∧
  pa_sas_words a =
    if is_desktop_code a then words_of (first_44_bits (vh_transcript_sha256 v)) else [].

Definition ready_confirms (host : DeviceIdentity) (a : ActivePairing) (envelope : bytes)
    (v : VerifiedControllerHello) : Prop :=
  heard (pa_rendezvous_id a) (DeviceIdentity_device_id (vh_controller v)) envelope ∧
  open_controller_plaintext (pk_controller_to_host (vh_keys v)) 1 (pa_rendezvous_id a)
    (DeviceIdentity_device_id (vh_controller v)) (DeviceIdentity_device_id host) envelope =
  Ok {| PairingPlaintext_payload := Some (PairingPlaintext_Payload_ControllerReady
          {| ControllerPairingReady_transcript_sha256 := vh_transcript_sha256 v |}) |}.

(** What is known in each phase. *)
Definition phase_wf (host : DeviceIdentity) (a : ActivePairing) : Prop :=
  match pa_phase a with
  | Creating | Inviting => pa_peer_device_id a = None ∧ pa_controller a = None ∧ pa_keys a = None
  | WaitingHello =>
      pa_controller a = None ∧ pa_keys a = None ∧
      ∃ peer, pa_peer_device_id a = Some peer ∧ peer ≠ DeviceIdentity_device_id host
  | WaitingReady => ∃ hello peer v, hello_verified host a hello peer v
  | WaitingDecision =>
      ∃ hello peer v envelope, hello_verified host a hello peer v ∧ ready_confirms host a envelope v
  end.

(** The public snapshot shows the pairing of the state and nothing else. *)
Definition status_wf {G} (c : HostPairingCoordinator G) : Prop :=
  match hc_active c with
  | Some a => hc_status c = active_snapshot (hc_revision c) (phase_state (pa_phase a)) a
  | None =>
      hc_status c = idle_snapshot (hc_revision c) ∨
      ∃ state error, hc_status c = final_snapshot (hc_revision c) state error ∧ busy_state state = false
  end.

Record coordinator_wf {G} (c : HostPairingCoordinator G) : Prop := {
  cw_active a : hc_active c = Some a →
    invitation_wf (hc_host_identity c) a ∧ phase_wf (hc_host_identity c) a;
  cw_status : status_wf c
}.
End Specification.

(** * The invariant *)

Section Invariant.
Context `{Sha256, Ed25519, X25519, HkdfSha256, Aes256Gcm}.
Context `{Message PairingMessage, Message PairingPlaintext, Message HostAuthorizationSnapshot}.
Context `{UrlParser Url} {G : Type} `{RandomSource G}.
Context (debug_build : bool) (requested : option text) (host : DeviceIdentity).
Context (heard : bytes → bytes → bytes → Prop).

Implicit Types c : HostPairingCoordinator G.

Definition Inv c : Prop := hc_host_identity c = host ∧ coordinator_wf heard c.

(** Updates the invariant does not see. *)
Lemma push_back_inv o c : Inv c → Inv (push_back o c).
Proof. by intros [? [? ?]]. Qed.

Lemma with_terminal_inv t c : Inv c → Inv (with_terminal t c).
Proof. by intros [? [? ?]]. Qed.

Lemma with_connected_inv b c : Inv c → Inv (with_connected b c).
Proof. by intros [? [? ?]]. Qed.

Lemma with_cancelled_inv o c : Inv c → Inv (with_cancelled o c).
Proof. by intros [? [? ?]]. Qed.

Lemma with_outbound_inv o c : Inv c → Inv (with_outbound o c).
Proof. by intros [? [? ?]]. Qed.

Lemma with_random_source_inv g c : Inv c → Inv (with_random_source g c).
Proof. by intros [? [? ?]]. Qed.

Lemma finish_inv state error c :
  hc_host_identity c = host → busy_state state = false → Inv (finish state error c).
Proof. intros Hh Hb. split; [done|]. split; [done|]. right. eauto. Qed.

Lemma publish_inv a state c :
  hc_host_identity c = host → hc_active c = Some a → state = phase_state (pa_phase a) →
  invitation_wf host a → phase_wf heard host a → Inv (publish_active state c).
Proof.
  intros Hh Ha -> Hi Hp. unfold publish_active. rewrite Ha. split; [done|]. split; simpl.
  - rewrite Ha, Hh. by intros ? [= <-].
  - unfold status_wf. simpl. by rewrite Ha.
Qed.

#[local] Hint Resolve push_back_inv with_terminal_inv with_connected_inv with_cancelled_inv
  with_outbound_inv with_random_source_inv : core.

Lemma inv_host c : Inv c → hc_host_identity c = host.
Proof. by intros []. Qed.

Lemma relinquish_inv a id c : Inv c → Inv (relinquish a id c).
Proof. unfold relinquish. case_match; auto. Qed.

Lemma fail_active_inv c : Inv c → Inv (fail_active c).
Proof.
  intros Hc. unfold fail_active. apply finish_inv; [|done].
  repeat case_match; apply inv_host; auto.
Qed.

Lemma tick_inv now c : Inv c → Inv (tick now c).
Proof.
  intros Hc. unfold tick. repeat case_match; auto.
  apply finish_inv; [|done]. by apply inv_host, relinquish_inv.
Qed.

Lemma signaling_lost_inv c : Inv c → Inv (signaling_lost c).
Proof. intros Hc. unfold signaling_lost. case_match; [apply finish_inv; [by apply Hc|done]|auto]. Qed.

Lemma shutdown_inv c : Inv c → Inv (shutdown c).
Proof. intros Hc. unfold shutdown. case_match; [apply finish_inv; [by apply Hc|done]|auto]. Qed.

#[local] Hint Resolve relinquish_inv fail_active_inv tick_inv : core.

Lemma inv_active c a :
  Inv c → hc_active c = Some a → invitation_wf host a ∧ phase_wf heard host a.
Proof. intros [<- [Ha _]]. auto. Qed.

(** Every branch that fails leaves a state the invariant knows. *)
Ltac wps := repeat first [progress wp_step | done].

Abbreviation keeps_inv m := (∀ c, Inv c → wp m (λ _ c', Inv c') c).

Lemma return_to_idle_inv : keeps_inv return_to_idle.
Proof. intros c Hc. unfold return_to_idle. wps. destruct Hc as [? [Ha _]]. split; [done|]. split; [done|].
  unfold status_wf. simpl. boolsimpl. destruct (hc_active c); [done|]. by left. Qed.

Lemma fill_inv n : keeps_inv (fill n).
Proof. intros c Hc. unfold fill. apply wp_map_err, wp_zoom, wp_of_run. auto. Qed.

(** The invitation is not touched. *)
Lemma same_invitation a a' :
  pa_invitation a' = pa_invitation a →
  pa_host_ephemeral_private_key a' = pa_host_ephemeral_private_key a →
  invitation_wf host a → invitation_wf host a'.
Proof.
  intros Hi Hk [Hh Hx Hkind Hl]. unfold is_desktop_code, pa_expires in *.
  split; unfold is_desktop_code, pa_expires; by rewrite ?Hi, ?Hk.
Qed.

(** What the invariant knows of the phase [Hp] was read from. *)
Ltac in_phase Hp := unfold phase_wf in Hp;
  match type of Hp with context [pa_phase ?a] =>
    match goal with Hph : pa_phase a = _ |- _ => rewrite Hph in Hp end end.

Lemma created_inv id kind server now : keeps_inv (handle_created id kind server now).
Proof.
  intros c Hc. unfold handle_created. wps; [by eauto|].
  destruct (inv_active c a) as [[Hh Hx Hk Hl] Hp]; [done..|]. boolsimpl.
  all: in_phase Hp.
  all: eapply publish_inv; [by apply Hc|done|done| |done].
  all: split; simpl; try done; unfold pa_expires in *; simpl; lia.
Qed.

Lemma joined_inv id peer expires now : keeps_inv (handle_joined id peer expires now).
Proof.
  intros c Hc. unfold handle_joined. wps.
  destruct (inv_active c a) as [Hi Hp]; [done..|]. boolsimpl.
  in_phase Hp. destruct Hp as (_ & Hctl & Hkeys).
  destruct (is_desktop_code a); (eapply publish_inv; [by apply Hc|done|done|by eapply (same_invitation a)|]).
  all: unfold phase_wf; simpl; split_and!; [done..|]; eexists; split; [done|].
  all: by rewrite (inv_host c) in *.
Qed.

Lemma closed_inv id completion : keeps_inv (handle_closed id completion).
Proof.
  intros c Hc. unfold handle_closed. wps. apply finish_inv; [by apply Hc|]. by destruct completion.
Qed.

Lemma ready_inv envelope c :
  Inv c → (∀ a, hc_active c = Some a → pa_phase a = WaitingReady ∧
    ∃ sender, pa_peer_device_id a = Some sender ∧ heard (pa_rendezvous_id a) sender envelope) →
  wp (handle_controller_ready envelope) (λ _ c', Inv c') c.
Proof.
  intros Hc Hph. unfold handle_controller_ready. wps.
  destruct (inv_active c a) as [Hi Hp]; [done..|]. destruct (Hph a ltac:(done)) as (Hphase & sender & Hsend & Hheard).
  in_phase Hp. destruct Hp as (hello & peer & v & Hv). boolsimpl.
  eapply publish_inv; [by apply Hc|done|done|by eapply (same_invitation a)|].
  exists hello, peer, v, envelope. split; [done|].
  destruct Hv as (Hpeer & _ & [_ [Hid _] _ _ _ _ _ _] & Hctl & Ht & Hk & _). simplify_eq. rewrite (inv_host c) in * by done.
  repeat match goal with Ho : map_err _ _ = Ok _ |- _ => apply res_map_err_iff in Ho end.
  unfold ready_confirms. destruct a2 as [payload], value as [digest]. simpl in *. subst.
  split; [done|]. by rewrite <- Ht.
Qed.

Lemma hello_inv hello sender signing c :
  Inv c → (∀ a, hc_active c = Some a →
    pa_phase a = WaitingHello ∧ pa_peer_device_id a = Some sender ∧
    ∃ envelope, heard (pa_rendezvous_id a) sender envelope ∧ decode_pairing_message envelope =
      Ok {| PairingMessage_payload := Some (PairingMessage_Payload_ControllerHello hello) |}) →
  wp (handle_controller_hello hello sender signing) (λ _ c', Inv c') c.
Proof.
  intros Hc Hph. unfold handle_controller_hello. wps. unfold wp, modify; cbn [fst snd].
  destruct (inv_active c a) as [Hi _]; [done..|]. destruct (Hph a ltac:(done)) as (Hphase & Hpeer & Henv).
  repeat match goal with Ho : map_err _ _ = Ok _ |- _ => apply res_map_err_iff in Ho end.
  apply push_back_inv. split; [by apply Hc|]. split; simpl.
  - intros ? [= <-]. rewrite (inv_host c) in * by done.
    split; [by eapply (same_invitation a)|]. exists hello, sender, a0.
    split_and!; simpl; try done; [by apply verify_hello_iff|].
    change (is_desktop_code _) with (is_desktop_code a). destruct (is_desktop_code a); [|by simplify_eq].
    match goal with Hs : map_err _ (pairing_sas_words _) = _ |- _ =>
      apply res_map_err_iff in Hs; rewrite pairing_sas_words_spec in Hs end.
    by case_match; simplify_eq.
  - destruct Hc as [_ [_ Hs]]. unfold status_wf in *. simpl.
    match goal with Ha : hc_active c = Some a |- _ => rewrite Ha, Hphase in Hs end. exact Hs.
Qed.

Lemma routed_inv id sender envelope signing :
  heard id sender envelope → keeps_inv (handle_routed id sender envelope signing).
Proof.
  intros Hheard c Hc. unfold handle_routed. wp_step. wp_step.
  apply (wp_mono _ (λ _ c', Inv c')).
  - unfold handle_routed_inner. wps; boolsimpl.
    + apply hello_inv; [done|]. intros ? ?. simplify_eq. split_and!; [done..|]. exists envelope.
      split; [done|]. destruct a0 as [payload]. simpl in *. subst. by eapply res_map_err_iff.
    + apply ready_inv; [done|]. intros ? ?. simplify_eq. eauto.
  - intros r c' Hc'. wp_step. unfold wp, lift; cbn [fst snd]. case_match; auto.
Qed.

Lemma event_inv event signing now :
  (∀ id sender envelope, event = SE_RoutedPairing id sender envelope → heard id sender envelope) →
  keeps_inv (handle_signaling_event event signing now).
Proof.
  intros Hheard c Hc. unfold handle_signaling_event. wp_step. assert (Inv (tick now c)) as Ht by auto.
  destruct event; try done.
  - by apply created_inv.
  - by apply joined_inv.
  - apply routed_inv; auto.
  - by apply closed_inv.
  - wps. by apply fail_active_inv.
Qed.

Lemma new_pairing_inv kind id key public endpoint code now expires o c :
  Inv c → kind = PairingInvitationKind_Qr ∨ kind = PairingInvitationKind_DesktopCode →
  x25519_public_key key = Ok public → expires = now + PAIRING_RENDEZVOUS_LIFETIME_MS →
  Inv (publish_active HostPairingState_Creating (push_back o (with_terminal None
    (with_active (Some (new_pairing host kind id key public endpoint code now expires)) c)))).
Proof.
  intros Hc Hk Hx ->. eapply publish_inv; [by apply Hc|done|done| |done].
  split; simpl; try done. destruct Hk as [-> | ->]; [by left|by right].
Qed.

Lemma start_inv kind endpoint now : keeps_inv (start debug_build requested kind endpoint now).
Proof.
  intros c Hc. unfold start. wp_step. wp_step; [done|]. apply wp_bind.
  apply (wp_mono _ (λ _ c', Inv c')); [case_match; [by apply return_to_idle_inv|done]|].
  intros [[]|e] c1 Hc1; [|done]. wp_step; [done|]. wp_step; [done|].
  wp_step. apply (wp_mono _ (λ _ c', Inv c')); [by apply fill_inv|].
  intros [id|e] c2 Hc2; [|done]. wp_step. apply (wp_mono _ (λ _ c', Inv c')); [by apply fill_inv|].
  intros [key|e] c3 Hc3; [|done]. wp_step; [done|]. apply wp_bind.
  apply (wp_mono _ (λ _ c', Inv c')).
  { case_match; [|done]. unfold generate_desktop_code. wp_step.
    apply (wp_mono _ (λ _ c', Inv c')); [by apply fill_inv|]. by intros []. }
  intros [code|e] c4 Hc4; [|done]. repeat wp_step. unfold wp, gets; cbn [fst snd].
  boolsimpl. rewrite (inv_host c) by done. apply new_pairing_inv; [done|done| |].
  - by eapply res_map_err_iff.
  - unfold checked_add in *. by case_match; simplify_eq.
Qed.

(** ** The user's decision *)
Lemma ensure_spec id controller now c :
  Inv c → wp (ensure_waiting_decision id controller now) (λ res c',
    Inv c' ∧ (hc_outbound c' = hc_outbound c ∨ hc_active c' = None) ∧
    (res = Ok () → c' = c ∧ ∃ a, hc_active c = Some a ∧ now < pa_expires a ∧
       pa_phase a = WaitingDecision ∧ pa_rendezvous_id a = id ∧
       DeviceIdentity_device_id <$> pa_controller a = Some controller)) c.
Proof.
  intros Hc. unfold ensure_waiting_decision. wp_step. assert (Inv (tick now c)) as Ht by auto.
  assert (hc_active (tick now c) = None ∨
          tick now c = c ∧ ∃ a, hc_active c = Some a ∧ now < pa_expires a) as Htick.
  { unfold tick. destruct (hc_active c) as [a|] eqn:Ha; [|by left].
    destruct (now <? pa_expires a) eqn:Hlt; [right|by left]. boolsimpl. eauto. }
  assert (hc_outbound (tick now c) = hc_outbound c ∨ hc_active (tick now c) = None) as Ho.
  { destruct Htick as [?|[-> _]]; auto. }
  wp_step. wp_step; [by split_and!|].
  destruct Htick as [Hn|[Hsame (a' & Ha' & Hlt)]]; [congruence|].
  unfold wp, fail_if. case_match; simpl; split_and!; try done. intros _.
  boolsimpl. split; [done|]. rewrite Hsame in *. exists a. simplify_eq. done.
Qed.

Lemma decline_inv id controller now : keeps_inv (reject id controller now).
Proof.
  intros c Hc. unfold reject. apply wp_bind. eapply wp_mono; [by apply ensure_spec|].
  intros [[]|e] c' (Hi & _ & _); [|done]. wps. unfold wp, modify; cbn [fst snd].
  by apply finish_inv; [apply Hi|].
Qed.

Lemma cancel_inv id now : keeps_inv (cancel id now).
Proof.
  intros c Hc. unfold cancel. wps. unfold wp, modify; cbn [fst snd].
  apply finish_inv; [|done]. by apply inv_host, relinquish_inv.
Qed.

Section Accept.
Context {W R : Type} `{GrantStoreLaws W, RandomLaws R}.

Implicit Types r : RegistryState W R.

Abbreviation grants r := (ar_grants_by_controller (rs_registry r)).

(** The grant the user's acceptance of [v] creates. *)
Definition grant_for (v : VerifiedControllerHello) (now : Z) (view : ControllerGrantView) : Prop :=
  ∃ g, ControllerGrantView_grant view = Some g ∧
    ControllerGrant_controller g = Some (vh_controller v) ∧
    ControllerGrant_permissions g = [1; 2] ∧ ControllerGrant_created_at_unix_ms g = now ∧
    ControllerGrant_host_device_id g = DeviceIdentity_device_id host.

(** A pairing in which this controller proved its identity and its key for this rendezvous. *)
Definition pairing_proved (id : bytes) (now : Z) (v : VerifiedControllerHello) : Prop :=
  ∃ a hello envelope, pa_rendezvous_id a = id ∧ invitation_wf host a ∧ now < pa_expires a ∧
    hello_verified heard host a hello (DeviceIdentity_device_id (vh_controller v)) v ∧
    ready_confirms heard host a envelope v.

Definition accept_outcome id controller now c r (res : result PairingCoordinatorError unit) c' r'
    : Prop :=
  ar_host_device_id (rs_registry r') = ar_host_device_id (rs_registry r) ∧
  (grants r' = grants r ∨
   ∃ v view, pairing_proved id now v ∧ DeviceIdentity_device_id (vh_controller v) = controller ∧
     grants r !! controller = None ∧ grants r' = <[controller := view]> (grants r) ∧
     grant_for v now view) ∧
  (res = Ok () →
   ∃ v view g sealed, pairing_proved id now v ∧
     DeviceIdentity_device_id (vh_controller v) = controller ∧
     grants r' !! controller = Some view ∧ ControllerGrantView_grant view = Some g ∧
     ControllerGrant_controller g = Some (vh_controller v) ∧
     ControllerGrant_permissions g = [1; 2] ∧
     hc_active c' = None ∧
     hc_outbound c' = hc_outbound c ++
       [PO_Relay id sealed; PO_Complete id PairingRendezvousCompletion_Succeeded]).

Lemma normalize_view_control qs :
  normalize_grant_permissions VIEW_AND_CONTROL_PERMISSIONS = Ok qs → qs = [1; 2].
Proof. intros Hq. vm_compute in Hq. by simplify_eq. Qed.

Lemma accept_spec id controller now c r :
  Inv c → registry_wf (rs_registry r) →
  ar_host_device_id (rs_registry r) = DeviceIdentity_device_id host →
  wp (accept id controller now) (λ res s', Inv s'.1 ∧ registry_wf (rs_registry s'.2) ∧
    accept_outcome id controller now c r res s'.1 s'.2) (c, r).
Proof.
  intros Hc Hw Hh. unfold accept. apply wp_bind. unfold on_coordinator at 1. apply wp_zoom.
  eapply wp_mono; [by apply ensure_spec|]. simpl.
  intros [[]|e] c1 (Hi & _ & Hok); cycle 1; simpl.
  { split_and!; [done..|]. split; [done|]. split; [by left|done]. }
  destruct (Hok eq_refl) as (-> & a & Ha & Hlt & Hph & <- & Hctl). clear Hok.
  destruct (inv_active _ _ Hc Ha) as [Hwf Hp]. in_phase Hp.
  destruct Hp as (hello & peer & v & envelope & Hv & Hready).
  pose proof Hv as (_ & _ & [_ [Hsender _] _ _ _ _ _ _] & Hcv & _).
  rewrite Hcv in Hctl. injection Hctl as Hid. rewrite Hsender in Hid. subst peer.
  assert (pairing_proved (pa_rendezvous_id a) now v) as Hproved.
  { exists a, hello, envelope. split_and!; try done. by rewrite Hsender. }
  wp_step. simpl. rewrite Ha.
  replace (Some a ≫= λ active, pa_controller active) with (Some (vh_controller v))
    by (symmetry; exact Hcv). wp_step; [done|]. simplify_eq.
  apply wp_bind, wp_try, wp_zoom, wp_of_run. simpl. intros created r' Hrun.
  pose proof (registry_exec_outcome (RO_Create (vh_controller v) VIEW_AND_CONTROL_PERMISSIONS now) r created r' Hw Hrun)
    as ((Hhost & Hout) & Hw').
  destruct created as [view|error]; cycle 1.
  { destruct Hout as [Hsame _]. wp_step. apply wp_zoom. unfold wp, modify; cbn [fst snd].
    split_and!; [by apply fail_active_inv|done|]. split; [done|]. split; [by left|done]. }
  destruct Hout as [(_ & _ & qs & Hqs & Hcases) _]. apply normalize_view_control in Hqs as ->.
  assert (∃ g, ControllerGrantView_grant view = Some g ∧ grants r' !! DeviceIdentity_device_id (vh_controller v) = Some view ∧
    ControllerGrant_controller g = Some (vh_controller v) ∧ ControllerGrant_permissions g = [1; 2])
    as (g & Hg & Hlook & Hgc & Hgp).
  { destruct Hcases as [(Hl & -> & g & ?)|(_ & -> & _ & gid & _ & _ & ->)].
    - exists g. naive_solver.
    - eexists. split; [done|]. by rewrite lookup_insert_eq. }
  assert (grants r' = grants r ∨ ∃ v' view, pairing_proved (pa_rendezvous_id a) now v' ∧
      DeviceIdentity_device_id (vh_controller v') = DeviceIdentity_device_id (vh_controller v) ∧
      grants r !! DeviceIdentity_device_id (vh_controller v) = None ∧
      grants r' = <[DeviceIdentity_device_id (vh_controller v) := view]> (grants r) ∧
      grant_for v' now view) as Hmap.
  { destruct Hcases as [(_ & -> & _)|(Hn & Hi' & _ & gid & _ & _ & Hview)]; [by left|right].
    exists v, view. split_and!; try done. exists g. rewrite Hview in Hg. simplify_eq/=. done. }
  rewrite Hg. wp_step; [done|]. wp_step. simpl. wp_step.
  { split_and!; [done..|]. by split. }
  unfold on_coordinator. wp_step. apply wp_zoom. unfold wp at 1, modify; cbn [fst snd].
  wp_step. apply wp_zoom. unfold wp at 1, modify; cbn [fst snd].
  apply wp_zoom. unfold wp at 1; cbn [fst snd]. simplify_eq.
  split_and!; [by apply finish_inv; [apply Hc|]|done|]. split; [done|]. split; [done|]. intros _.
  eexists v, view, _, _. split_and!; try done. simpl. by rewrite <- app_assoc.
Qed.
End Accept.
End Invariant.

(** * Runs *)

Inductive pairing_op :=
| Op_start (kind : PairingInvitationKind) (signaling_endpoint : text) (now_unix_ms : Z)
| Op_event (event : SignalingEvent) (now_unix_ms : Z)
| Op_accept (rendezvous_id controller_device_id : bytes) (now_unix_ms : Z)
| Op_reject (rendezvous_id controller_device_id : bytes) (now_unix_ms : Z)
| Op_cancel (rendezvous_id : bytes) (now_unix_ms : Z)
| Op_return_to_idle
| Op_tick (now_unix_ms : Z)
| Op_signaling_connected
| Op_signaling_lost
| Op_take_outbound
| Op_shutdown.

Section Runs.
Context `{Sha256, Ed25519, X25519, HkdfSha256, Aes256Gcm}.
Context `{Message PairingMessage, Message PairingPlaintext, Message HostAuthorizationSnapshot}.
Context `{UrlParser Url} {G : Type} `{RandomSource G} {W R : Type} `{GrantStoreLaws W, RandomLaws R}.
Context (debug_build : bool) (requested : option text) (signing_identity : HostIdentity).

Abbreviation PairingState := (HostPairingCoordinator G * RegistryState W R)%type.

(** The state after an operation; its result goes to the caller. *)
Definition pairing_step (s : PairingState) (op : pairing_op) : PairingState :=
  let on m := (m s.1, s.2) in
  match op with
  | Op_start kind endpoint now => on (λ c, (start debug_build requested kind endpoint now c).2)
  | Op_event event now => on (λ c, (handle_signaling_event event signing_identity now c).2)
  | Op_accept id controller now => (accept id controller now s).2
  | Op_reject id controller now => on (λ c, (reject id controller now c).2)
  | Op_cancel id now => on (λ c, (cancel id now c).2)
  | Op_return_to_idle => on (λ c, (return_to_idle c).2)
  | Op_tick now => on (tick now)
  | Op_signaling_connected => on signaling_connected
  | Op_signaling_lost => on signaling_lost
  | Op_take_outbound => on (λ c, (take_outbound c).2)
  | Op_shutdown => on shutdown
  end.

Definition pairing_run (ops : list pairing_op) (s : PairingState) : PairingState :=
  foldl pairing_step s ops.

(** What the service delivered during a run. *)
Definition delivered (ops : list pairing_op) (id sender envelope : bytes) : Prop :=
  ∃ now, Op_event (SE_RoutedPairing id sender envelope) now ∈ ops.

Abbreviation grants s := (ar_grants_by_controller (rs_registry s.2)).

(** The invariant of a run of [all] that started with the grants [before]. *)
Definition run_inv (host : DeviceIdentity) (all : list pairing_op)
    (before : gmap bytes ControllerGrantView) (s : PairingState) : Prop :=
  Inv host (delivered all) s.1 ∧ registry_wf (rs_registry s.2) ∧
  ar_host_device_id (rs_registry s.2) = DeviceIdentity_device_id host ∧
  ∀ k view, grants s !! k = Some view → before !! k = Some view ∨
    ∃ id now v, Op_accept id k now ∈ all ∧ DeviceIdentity_device_id (vh_controller v) = k ∧
      pairing_proved host (delivered all) id now v ∧ grant_for host v now view.

Lemma pairing_step_inv host all before s op :
  op ∈ all → run_inv host all before s → run_inv host all before (pairing_step s op).
Proof.
  intros Hop (Hc & Hw & Hh & Hg). destruct s as [c r]. unfold run_inv. simpl in *.
  destruct op; simpl; try (split_and!; [|done..]).
  - by apply start_inv.
  - apply event_inv; [|done]. intros id sender envelope ->. by eexists.
  - pose proof (accept_spec host (delivered all) rendezvous_id controller_device_id now_unix_ms
                  c r Hc Hw Hh) as Hspec.
    unfold wp in Hspec. destruct (accept _ _ _ (c, r)) as [res [c' r']]. simpl in *.
    destruct Hspec as (Hc' & Hw' & Hh' & Hmap & _). split_and!; [done|done|by rewrite Hh'|].
    destruct Hmap as [-> | (v & view & Hp & <- & _ & -> & Hgrant)]; [done|].
    intros k w [[<- <-]|[_ Hk]]%lookup_insert_Some; [|auto]. right. eauto 10.
  - by apply decline_inv.
  - by apply cancel_inv.
  - by apply return_to_idle_inv.
  - by apply tick_inv.
  - by apply with_connected_inv.
  - by apply signaling_lost_inv.
  - by apply with_outbound_inv.
  - by apply shutdown_inv.
Qed.

Lemma pairing_run_inv host all before ops s :
  (∀ op, op ∈ ops → op ∈ all) → run_inv host all before s →
  run_inv host all before (pairing_run ops s).
Proof.
  revert s. induction ops as [|op ops IH]; intros s Hall Hs; [done|]. simpl. apply IH.
  - intros o Ho. apply Hall. by right.
  - apply pairing_step_inv; [|done]. apply Hall. by left.
Qed.

Lemma with_random_Inv host (random : G) heard c :
  with_random host random = Ok c → Inv host heard c.
Proof.
  unfold with_random. intros Hr.
  repeat match type of Hr with _ ≫= _ = Ok _ => apply result_bind_Ok in Hr as (? & _ & Hr) end.
  injection Hr as <-. split; [done|]. split; [done|]. by left.
Qed.
End Runs.

(** * Desktop codes *)

(** A group of five bits, as [desktop_code] takes it. *)
Definition quintet (bits index : Z) : Z := (bits / 32 ^ (7 - index)) `mod` 32.

Lemma code_char_quintet bits index :
  0 <= bits → 0 <= index <= 7 →
  code_char bits index = nth (Z.to_nat (quintet bits index)) BASE32_ALPHABET 0.
Proof.
  intros Hb Hi. unfold code_char, quintet. do 2 f_equal.
  change 31 with (Z.ones 5). rewrite Z.land_ones, Z.shiftr_div_pow2 by lia.
  rewrite Z.mul_comm, Z.pow_mul_r by lia. done.
Qed.

Lemma alphabet_ok :
  forallb (λ c, (utf8_width c =? 1) && forallb code_byte (utf8_char c)) BASE32_ALPHABET = true.
Proof. vm_compute. reflexivity. Qed.

Lemma alphabet_NoDup : NoDup BASE32_ALPHABET.
Proof. apply (proj1 (bool_decide_eq_true _)). vm_compute. reflexivity. Qed.

Lemma alphabet_lookup q : 0 <= q < 32 →
  BASE32_ALPHABET !! Z.to_nat q = Some (nth (Z.to_nat q) BASE32_ALPHABET 0).
Proof.
  intros Hq. destruct (nth_lookup_or_length BASE32_ALPHABET (Z.to_nat q) 0) as [?|Hge]; [done|].
  change (length BASE32_ALPHABET) with 32%nat in Hge. lia.
Qed.

Lemma alphabet_inj p q : 0 <= p < 32 → 0 <= q < 32 →
  nth (Z.to_nat p) BASE32_ALPHABET 0 = nth (Z.to_nat q) BASE32_ALPHABET 0 → p = q.
Proof.
  intros Hp Hq He. apply Z2Nat.inj; [lia..|].
  eapply NoDup_lookup; [exact alphabet_NoDup|by apply alphabet_lookup|]. by rewrite He, alphabet_lookup.
Qed.

Lemma quintet_bound bits index : 0 <= quintet bits index < 32.
Proof. apply Z.mod_pos_bound. lia. Qed.

(** The eight quintets are the number. *)
Lemma mod_extend m n b :
  0 < b → m `mod` b = n `mod` b → (m / b) `mod` 32 = (n / b) `mod` 32 →
  m `mod` (b * 32) = n `mod` (b * 32).
Proof. intros Hb Hm Hq. rewrite !Z.rem_mul_r by lia. by rewrite Hm, Hq. Qed.

Lemma quintets_inj m n : 0 <= m < 2 ^ 40 → 0 <= n < 2 ^ 40 →
  Forall (λ i, quintet m i = quintet n i) [0; 1; 2; 3; 4; 5; 6; 7] → m = n.
Proof.
  intros Hm Hn Hall. rewrite !Forall_cons in Hall. unfold quintet in Hall.
  destruct Hall as (H0 & H1 & H2 & H3 & H4 & H5 & H6 & H7 & _).
  rewrite <- (Z.mod_small m (2 ^ 40)), <- (Z.mod_small n (2 ^ 40)) by done.
  change (2 ^ 40) with (32 ^ 7 * 32). apply mod_extend; [done| |exact H0].
  change (32 ^ 7) with (32 ^ 6 * 32). apply mod_extend; [done| |exact H1].
  change (32 ^ 6) with (32 ^ 5 * 32). apply mod_extend; [done| |exact H2].
  change (32 ^ 5) with (32 ^ 4 * 32). apply mod_extend; [done| |exact H3].
  change (32 ^ 4) with (32 ^ 3 * 32). apply mod_extend; [done| |exact H4].
  change (32 ^ 3) with (32 ^ 2 * 32). apply mod_extend; [done| |exact H5].
  change (32 ^ 2) with (32 ^ 1 * 32). apply mod_extend; [done| |exact H6].
  change (32 ^ 1) with (1 * 32). apply mod_extend; [done|by rewrite !Z.mod_1_r|exact H7].
Qed.

Lemma code_chars_text (s : text) :
  Forall (λ c, utf8_width c = 1 ∧ forallb code_byte (utf8_char c) = true) s →
  text_len s = len s ∧ forallb code_byte (as_bytes s) = true.
Proof.
  induction 1 as [|c s [Hw Hc] _ [IHl IHb]]; [done|]. split.
  - change (utf8_width c + text_len s = len (c :: s)). rewrite len_cons. lia.
  - change (as_bytes (c :: s)) with (utf8_char c ++ as_bytes s). by rewrite forallb_app, Hc.
Qed.

Lemma code_is_desktop_code random :
  len random = 5 →
  text_len (desktop_code random) = 8 ∧ forallb code_byte (as_bytes (desktop_code random)) = true.
Proof.
  intros Hl. pose proof (be_val_bound random) as Hb. rewrite Hl in Hb.
  assert (Forall (λ c, utf8_width c = 1 ∧ forallb code_byte (utf8_char c) = true)
            (desktop_code random)) as Hall.
  { unfold desktop_code. apply Forall_fmap, Forall_forall. intros i Hi. simpl.
    rewrite code_char_quintet by (apply list_elem_of_In in Hi; simpl in Hi; lia).
    pose proof alphabet_ok as Ha. rewrite forallb_forall in Ha.
    specialize (Ha (nth (Z.to_nat (quintet (be_val random) i)) BASE32_ALPHABET 0)).
    apply andb_true_iff in Ha as [Hw Hc]; [by apply Z.eqb_eq in Hw|].
    apply list_elem_of_In, list_elem_of_lookup. eexists. apply alphabet_lookup, quintet_bound. }
  apply code_chars_text in Hall as [-> ?]. split; [|done].
  unfold desktop_code, len. by rewrite length_fmap.
Qed.

Lemma desktop_code_valid random :
  len random = DESKTOP_CODE_RANDOM_BYTES →
  validate_pairing_code PairingRendezvousKind_DesktopCode (desktop_code random) = Ok ().
Proof.
  intros Hr. destruct (code_is_desktop_code random Hr) as [Hl Hc]. unfold validate_pairing_code.
  by rewrite Hl, Hc.
Qed.

(** A desktop code is eight characters of the alphabet the signaling client requires, whatever
    the random bytes, and carries all of their 40 bits: different random bytes give different
    codes. *)
Theorem desktop_code_faithful (r1 r2 : bytes) :
  len r1 = DESKTOP_CODE_RANDOM_BYTES → len r2 = DESKTOP_CODE_RANDOM_BYTES →
  validate_pairing_code PairingRendezvousKind_DesktopCode (desktop_code r1) = Ok () ∧
  (desktop_code r1 = desktop_code r2 → r1 = r2).
Proof.
  intros H1 H2. split.
  - by apply desktop_code_valid.
  - intros He. pose proof (be_val_bound r1) as B1. pose proof (be_val_bound r2) as B2.
    unfold DESKTOP_CODE_RANDOM_BYTES in *. rewrite H1 in B1. rewrite H2 in B2.
    change (256 ^ 5) with (2 ^ 40) in *.
    rewrite <- (be_bytes_be_val r1), <- (be_bytes_be_val r2).
    assert (length r1 = length r2) as -> by (unfold len in *; lia). f_equal.
    apply quintets_inj; [done..|]. unfold desktop_code in He.
    injection He as E0 E1 E2 E3 E4 E5 E6 E7.
    repeat match goal with E : code_char _ _ = code_char _ _ |- _ =>
      rewrite !code_char_quintet in E by lia; apply alphabet_inj in E; [|apply quintet_bound..] end.
    repeat (apply Forall_cons; split; [done|]). by apply Forall_nil.
Qed.

(** * The create request and the signaling client *)

Section Composition.
Context `{Sha256, X25519} `{UrlParser Url} {G : Type} `{RandomLaws G}.
Context (debug_build : bool) (requested : option text).

Implicit Types c : HostPairingCoordinator G.

Lemma fill_spec n c : 0 <= n →
  wp (fill n) (λ r c', hc_outbound c' = hc_outbound c ∧ ∀ b, r = Ok b → len b = n) c.
Proof.
  intros Hn. unfold fill. apply wp_map_err, wp_zoom, wp_of_run. intros r g Hr. split; [done|].
  intros b Hb. destruct r as [b'|[]]; [|done]. simpl in Hb. simplify_eq. by eapply random_len.
Qed.

(** The code of an invitation is one the signaling client accepts for its kind. *)
Lemma start_spec kind endpoint now c :
  wp (start debug_build requested kind endpoint now) (λ r c', ∀ status, r = Ok status →
    ∃ id code i, hc_outbound c' = hc_outbound c ++ [PO_Create id (signaling_kind kind) code] ∧
      len id = 16 ∧ validate_pairing_code (signaling_kind kind) code = Ok () ∧
      HostPairingStatusSnapshot_invitation status = Some i ∧
      HostPairingInvitation_rendezvous_id i = id ∧ HostPairingInvitation_pairing_code i = code) c.
Proof.
  unfold start. wp_step. wp_step; [done|]. apply wp_bind.
  apply (wp_mono _ (λ _ c', hc_outbound c' = hc_outbound c)).
  { case_match; [|done]. unfold return_to_idle. repeat wp_step; done. }
  intros [[]|e] c1 Hc1; [|done]. wp_step; [done|]. wp_step; [done|].
  apply wp_bind. eapply wp_mono; [by apply fill_spec|].
  intros [id|e] c2 [Hc2 Hid]; [|done]. apply wp_bind. eapply wp_mono; [by apply fill_spec|].
  intros [key|e] c3 [Hc3 _]; [|done]. wp_step; [done|]. apply wp_bind.
  apply (wp_mono _ (λ r c', hc_outbound c' = hc_outbound c ∧ ∀ code, r = Ok code →
    validate_pairing_code (signaling_kind kind) code = Ok ())).
  { assert (hc_outbound c3 = hc_outbound c) as Ho by congruence. boolsimpl.
    destruct (bool_decide (kind = PairingInvitationKind_DesktopCode)) eqn:Hk; boolsimpl.
    - unfold generate_desktop_code. apply wp_bind. eapply wp_mono; [by apply fill_spec|].
      intros [random|e] c4 [Hc4 Hr]; [wp_step|]; (split; [congruence|]); [|done].
      intros code [= <-]. subst kind. by apply desktop_code_valid, Hr.
    - split; [done|]. intros code [= <-]. destruct kind; [naive_solver| |done]. done. }
  intros [code|e] c4 [Hc4 Hcode]; [|done]. repeat wp_step. unfold wp, gets; cbn [fst snd].
  intros status [= <-]. eexists id, code, _. split_and!; [|by apply Hid|by apply Hcode|done..].
  simpl. by rewrite Hc4.
Qed.

(** C34. A request to create a rendezvous is always one the signaling client can send: after a
    successful [start], the coordinator has queued one create request, for a rendezvous
    identifier of sixteen bytes and the code its snapshot shows, and a registered connection
    without a rendezvous accepts it for every valid request identifier, in the state that waits
    for exactly this rendezvous. *)
Theorem start_request_accepted kind endpoint now c status c' client request_id :
  start debug_build requested kind endpoint now c = (Ok status, c') →
  sp_state client = SS_Ready → sp_pairing client = None →
  validate_request_id request_id = Ok () →
  ∃ id code i frame client',
    hc_outbound c' = hc_outbound c ++ [PO_Create id (signaling_kind kind) code] ∧
    HostPairingStatusSnapshot_invitation status = Some i ∧
    HostPairingInvitation_rendezvous_id i = id ∧ HostPairingInvitation_pairing_code i = code ∧
    create_pairing id (signaling_kind kind) code request_id client = (Ok frame, client') ∧
    sp_pairing client' = Some {| ap_rendezvous_id := id; ap_kind := signaling_kind kind;
      ap_expires_at_unix_ms := 0; ap_phase := PP_Creating request_id |}.
Proof.
  intros Hs Hready Hnone Hid. pose proof (start_spec kind endpoint now c) as Hspec.
  apply (wp_run _ _ _ _ _ Hs) in Hspec.
  destruct (Hspec _ eq_refl) as (id & code & i & Ho & Hl & Hcode & Hi & Hri & Hrc).
  exists id, code, i. eexists _, _. split_and!; [done..| |].
  - unfold create_pairing. rewrite bind_get, bind_fail_if, Hready, Hnone. simpl.
    unfold validate_rendezvous_id. rewrite bind_lift, Hl. simpl.
    rewrite bind_lift, Hcode, bind_lift, Hid. reflexivity.
  - done.
Qed.
End Composition.

(** * The grants of pairing *)

Section Safety.
Context `{Sha256, Ed25519, X25519, HkdfSha256, Aes256Gcm}.
Context `{Message PairingMessage, Message PairingPlaintext, Message HostAuthorizationSnapshot}.
Context `{UrlParser Url} {G : Type} `{RandomSource G} {W R : Type} `{GrantStoreLaws W, RandomLaws R}.

Lemma initial_run_inv host (random : G) c (r : RegistryState W R) ops :
  with_random host random = Ok c → registry_wf (rs_registry r) →
  ar_host_device_id (rs_registry r) = DeviceIdentity_device_id host →
  run_inv host ops (ar_grants_by_controller (rs_registry r)) (c, r).
Proof.
  intros Hc Hw Hh. split_and!; [by eapply with_random_Inv|done|done|]. simpl. auto.
Qed.

(** The pairing state is well formed in every reachable state: whatever the user, the
    signaling service and the clock do, an active pairing has an invitation of this Host, with
    the public half of its ephemeral key, of at most two minutes; a phase is reached only with
    what it requires, so that a decision is offered only for a controller whose signed hello and
    sealed ready the service delivered for this rendezvous and that verified; and the public
    snapshot shows exactly the active pairing, or none. *)
Theorem pairing_state_wf debug_build requested signing host (random : G) c (r : RegistryState W R) ops :
  with_random host random = Ok c → registry_wf (rs_registry r) →
  ar_host_device_id (rs_registry r) = DeviceIdentity_device_id host →
  let s := pairing_run debug_build requested signing ops (c, r) in
  hc_host_identity s.1 = host ∧ coordinator_wf (delivered ops) s.1 ∧ registry_wf (rs_registry s.2).
Proof.
  intros Hc Hw Hh s.
  destruct (pairing_run_inv debug_build requested signing host ops _ ops (c, r) ltac:(done)
              (initial_run_inv _ _ _ _ ops Hc Hw Hh)) as ([? ?] & ? & _). done.
Qed.


(** ** An unrelated error abandons a rendezvous that is being created

    The event of an error answer carries no request identifier, so the coordinator takes any for
    its own: while its rendezvous is being created, an error that answers another request fails
    the pairing without remembering the rendezvous.  The signaling client, which does compare
    identifiers, keeps it; the later report of its creation is refused, nothing completes it,
    and the connection cannot create another one. *)
Lemma unrelated_error_leaks_rendezvous signing (c : HostPairingCoordinator G) a
    (client : SignalingProtocol) ap other code retryable now expires now' :
  hc_active c = Some a → pa_phase a = Creating → now < pa_expires a →
  hc_pending_cancelled_create c = None →
  sp_pairing client = Some ap → ap_phase ap = PP_Creating other →
  let failed := (handle_signaling_event (SE_RemoteError code retryable) signing now c).2 in
  hc_active failed = None ∧ hc_outbound failed = hc_outbound c ∧
  handle_signaling_event (SE_PairingCreated (pa_rendezvous_id a) (ap_kind ap) expires) signing now'
    failed = (Err PCE_InvalidState, failed) ∧
  (∀ request_id error event client', request_id ≠ other →
     handle_error request_id error client = (Ok event, client') → sp_pairing client' = Some ap) ∧
  (∀ id kind code request_id, create_pairing id kind code request_id client =
     (Err SC_InvalidState, client)).
Proof.
  intros Ha Hph Hlt Hp Hsp Hap.
  assert (tick now c = c) as Htick.
  { unfold tick. rewrite Ha. by rewrite (proj2 (Z.ltb_lt _ _) Hlt). }
  assert (handle_signaling_event (SE_RemoteError code retryable) signing now c =
          (Ok (), fail_active c)) as ->.
  { unfold handle_signaling_event. rewrite bind_run. unfold modify at 1. rewrite Htick.
    rewrite bind_get, Ha. done. }
  simpl. unfold fail_active. rewrite Ha, Hph. split_and!; [done|done| | |].
  - unfold handle_signaling_event. rewrite bind_run. unfold modify at 1. simpl.
    unfold handle_created. rewrite bind_get. simpl. rewrite Hp. done.
  - intros request_id error event client' Hne (_ & _ & [[-> _] | [_ (a' & Ha' & Hc)]])%error_run; [done|].
    simplify_eq. unfold clears_pairing in Hc. rewrite Hap in Hc. by apply bool_decide_eq_true in Hc.
  - intros. unfold create_pairing. rewrite bind_get, bind_fail_if, Hsp. simpl. by rewrite orb_true_r.
Qed.
End Safety.

(** * A concrete pairing *)
Module Example.
#[local] Instance digest : Sha256 := { sha256 b := be_bytes 32 (be_val b) }.

#[local] Instance curve : X25519 := {
  x25519_base private := be_bytes 32 (be_val private + 1);
  x25519 private public := be_bytes 32 (be_val private + be_val public + 1)
}.

#[local] Instance expand : HkdfSha256 := {
  hkdf_expand salt ikm info := Some (be_bytes 32 (be_val salt + be_val ikm + len info))
}.

#[local] Instance cipher : Aes256Gcm := {
  aes_encrypt key nonce aad msg := Some (msg ++ be_bytes 16 (be_val key + be_val nonce + be_val aad));
  aes_decrypt key nonce aad c := Some (take (length c - 16) c)
}.

#[local] Instance snapshots : Message HostAuthorizationSnapshot := {
  encode_to_vec s := HostAuthorizationSnapshot_host_device_id s; decode _ := None
}.

#[local] Instance parser : UrlParser unit :=
  {| url_parse := λ _, Some (); url_username := λ _, []; url_password := λ _, None;
     url_scheme := λ _, lit "wss"; url_host := λ _, None |}.

Definition device (seed : Z) (platform : DevicePlatform) : DeviceIdentity :=
  {| DeviceIdentity_device_id := default [] (match derive_device_id_v1 (be_bytes 32 seed) with
                                             | Ok id => Some id | Err _ => None end);
     DeviceIdentity_public_key_algorithm := to_i32 PublicKeyAlgorithm_Ed25519;
     DeviceIdentity_public_key := be_bytes 32 seed; DeviceIdentity_display_name := lit "device";
     DeviceIdentity_platform := to_i32 platform |}.

Definition host : DeviceIdentity := device 5 DevicePlatform_Macos.
Definition controller : DeviceIdentity := device 9 DevicePlatform_Ios.
Definition host_key : HostIdentity :=
  {| hi_signing_key := be_bytes 32 5; hi_device_identity := host |}.

(** The random source counts, so the first rendezvous and key are these. *)
Definition rendezvous : bytes := be_bytes 16 1.
Definition host_private : bytes := be_bytes 32 2.
Definition controller_private : bytes := be_bytes 32 77.

Definition transcript : bytes :=
  match encode_pairing_transcript controller host rendezvous (x25519_base controller_private)
          (x25519_base host_private) with Ok t => t | Err _ => [] end.

Definition hello : ControllerPairingHello :=
  {| ControllerPairingHello_rendezvous_id := rendezvous;
     ControllerPairingHello_identity := Some controller;
     ControllerPairingHello_ephemeral_public_key := x25519_base controller_private;
     ControllerPairingHello_transcript_sha256 := sha256 transcript;
     ControllerPairingHello_signature := ed25519_sign (be_bytes 32 9) transcript |}.

(** Messages of one byte and of a byte and a ciphertext. *)
#[local] Instance messages : Message PairingMessage := {
  encode_to_vec m :=
    match PairingMessage_payload m with
    | Some (PairingMessage_Payload_ControllerHello _) => [x01]
    | Some (PairingMessage_Payload_EncryptedEnvelope e) => x02 :: EncryptedPairingEnvelope_ciphertext e
    | _ => []
    end;
  decode bs :=
    match bs with
    | [x01] => Some {| PairingMessage_payload := Some (PairingMessage_Payload_ControllerHello hello) |}
    | x02 :: ciphertext => Some {| PairingMessage_payload := Some (PairingMessage_Payload_EncryptedEnvelope
        {| EncryptedPairingEnvelope_protocol_version :=
             Some {| ProtocolVersion_major := 1; ProtocolVersion_minor := 0 |};
           EncryptedPairingEnvelope_rendezvous_id := rendezvous;
           EncryptedPairingEnvelope_direction := to_i32 PairingDirection_ControllerToHost;
           EncryptedPairingEnvelope_sequence := 1;
           EncryptedPairingEnvelope_ciphertext := ciphertext |}) |}
    | _ => None
    end
}.

#[local] Instance plaintexts : Message PairingPlaintext := {
  encode_to_vec m :=
    match PairingPlaintext_payload m with
    | Some (PairingPlaintext_Payload_ControllerReady r) => x01 :: ControllerPairingReady_transcript_sha256 r
    | Some (PairingPlaintext_Payload_HostProof _) => [x02]
    | _ => [x03]
    end;
  decode bs :=
    match bs with
    | x01 :: d => Some {| PairingPlaintext_payload := Some (PairingPlaintext_Payload_ControllerReady
        {| ControllerPairingReady_transcript_sha256 := d |}) |}
    | _ => None
    end
}.

Definition ready : bytes :=
  x02 :: default [] (aes_encrypt [] [] [] (x01 :: sha256 transcript)).

Definition peer : bytes := DeviceIdentity_device_id controller.

Definition ops : list pairing_op :=
  [Op_signaling_connected; Op_start PairingInvitationKind_Qr (lit "wss://signal.example/v1/ws") 1000;
   Op_event (SE_PairingCreated rendezvous PairingRendezvousKind_Qr 100000) 1001;
   Op_event (SE_PairingJoined rendezvous peer 100000) 1002;
   Op_event (SE_RoutedPairing rendezvous peer [x01]) 1003;
   Op_event (SE_RoutedPairing rendezvous peer ready) 1004;
   Op_accept rendezvous peer 1005].

Definition registry : RegistryState MemoryGrantStore Z :=
  {| rs_registry := {| ar_host_device_id := DeviceIdentity_device_id host; ar_grants_by_controller := ∅ |};
     rs_store := MemoryGrantStore_new; rs_random := 5 |}.

Definition idle : HostPairingCoordinator Z :=
  {| hc_host_identity := host; hc_random := 1; hc_signaling_connected := false; hc_revision := 0;
     hc_status := idle_snapshot 0; hc_active := None; hc_terminal_rendezvous_id := None;
     hc_pending_cancelled_create := None; hc_outbound := [] |}.

Lemma idle_created : with_random host 1 = Ok idle.
Proof. vm_compute. reflexivity. Qed.

Abbreviation final := (pairing_run false None host_key ops (idle, registry)).

Lemma final_grants : is_some (ar_grants_by_controller (rs_registry final.2) !! peer) = true.
Proof. vm_compute. reflexivity. Qed.

Lemma registry_ok : registry_wf (rs_registry registry).
Proof.
  split; simpl; [vm_compute; reflexivity|by intros ?? [=]|by intros ????? [=]|done].
Qed.

Lemma pairing_state_wf_witness :
  with_random host 1 = Ok idle ∧ hc_host_identity final.1 = host ∧
  coordinator_wf (delivered ops) final.1 ∧ registry_wf (rs_registry final.2).
Proof.
  split; [exact idle_created|].
  exact (pairing_state_wf false None host_key host 1 idle registry ops idle_created registry_ok eq_refl).
Defined.

Lemma registry_empty k : ar_grants_by_controller (rs_registry registry) !! k = None.
Proof. apply lookup_empty. Qed.

Lemma final_granted : ∃ view, ar_grants_by_controller (rs_registry final.2) !! peer = Some view.
Proof.
  pose proof final_grants as Hsome.
  destruct (ar_grants_by_controller (rs_registry final.2) !! peer) as [view|]; [by exists view|done].
Qed.


Lemma desktop_code_faithful_witness :
  len (be_bytes 5 123456789) = 5 ∧
  validate_pairing_code PairingRendezvousKind_DesktopCode (desktop_code (be_bytes 5 123456789)) = Ok () ∧
  (desktop_code (be_bytes 5 123456789) = desktop_code (be_bytes 5 7) →
   be_bytes 5 123456789 = be_bytes 5 7).
Proof.
  split; [reflexivity|].
  apply (desktop_code_faithful (be_bytes 5 123456789) (be_bytes 5 7)); reflexivity.
Defined.

Definition client : SignalingProtocol :=
  {| sp_device_id := DeviceIdentity_device_id host; sp_state := SS_Ready; sp_pairing := None;
     sp_pending_heartbeat := None |}.

Definition starting := start false None PairingInvitationKind_DesktopCode
  (lit "wss://signal.example/v1/ws") 1000 (signaling_connected idle).

Lemma start_request_accepted_witness :
  ∃ status c', starting = (Ok status, c') ∧
  ∃ id code i frame client',
    hc_outbound c' = [PO_Create id PairingRendezvousKind_DesktopCode code] ∧
    HostPairingStatusSnapshot_invitation status = Some i ∧
    HostPairingInvitation_rendezvous_id i = id ∧ HostPairingInvitation_pairing_code i = code ∧
    create_pairing id PairingRendezvousKind_DesktopCode code (lit "host-1-1") client = (Ok frame, client') ∧
    sp_pairing client' = Some {| ap_rendezvous_id := id; ap_kind := PairingRendezvousKind_DesktopCode;
      ap_expires_at_unix_ms := 0; ap_phase := PP_Creating (lit "host-1-1") |}.
Proof.
  assert (is_ok starting.1 = true) as Hok by (vm_compute; reflexivity).
  destruct starting as [[status|e] c'] eqn:Hs; [|discriminate Hok].
  exists status, c'. split; [reflexivity|].
  exact (start_request_accepted false None PairingInvitationKind_DesktopCode
    (lit "wss://signal.example/v1/ws") 1000 (signaling_connected idle) status c' client (lit "host-1-1")
    Hs eq_refl eq_refl eq_refl).
Defined.
End Example.
