(* ===== verification/Sessions.v ===== *)
(** The registry of active remote sessions, crates/host-agent/src/sessions.rs.

    [SessionRegistry] maps the identifier of a live session to the device that controls it and
    announces every termination on a broadcast channel; [sr_terminations] is what was sent on
    the channel, in order.  A session leaves the registry in one of two ways: its coordinator
    unregisters it, or a termination removes it and announces it. *)
From S2P Require Import Prelude Limits Messages Containers.

Local Open Scope Z_scope.

(** [Unavailable] reports a poisoned lock, which no operation of the registry can leave. *)
Inductive SessionRegistryError := SRE_InvalidIdentity | SRE_DuplicateSession | SRE_Unavailable.

#[export] Instance SessionRegistryError_eq_dec : EqDecision SessionRegistryError.
Proof. solve_decision. Defined.

Record SessionRegistry := {
  sr_sessions : gmap bytes bytes;
  sr_terminations : list SessionTerminatedEvent
}.

Abbreviation SR A := (M SessionRegistry SessionRegistryError A).

Definition SessionRegistry_new : SessionRegistry := {| sr_sessions := ∅; sr_terminations := [] |}.

Definition set_sessions (m : gmap bytes bytes) (s : SessionRegistry) : SessionRegistry :=
  {| sr_sessions := m; sr_terminations := sr_terminations s |}.

(** [for event in &events { let _ = self.terminations.send(event.clone()); }] *)
Definition send_all (events : list SessionTerminatedEvent) (s : SessionRegistry) : SessionRegistry :=
  {| sr_sessions := sr_sessions s; sr_terminations := sr_terminations s ++ events |}.

Definition termination (session_id controller_device_id : bytes) (reason : ErrorCode)
    : SessionTerminatedEvent :=
  {| SessionTerminatedEvent_session_id := session_id;
     SessionTerminatedEvent_controller_device_id := controller_device_id;
     SessionTerminatedEvent_reason := to_i32 reason |}.

Definition register (session_id controller_device_id : bytes) : SR unit :=
  fail_if (negb (len session_id =? SESSION_ID_BYTES) ||
           negb (len controller_device_id =? DEVICE_ID_BYTES)) SRE_InvalidIdentity;;
  self ← get;
  fail_if (is_some (sr_sessions self !! session_id)) SRE_DuplicateSession;;
  modify (set_sessions (<[session_id := controller_device_id]> (sr_sessions self))).

Definition is_controlled_by (controller_device_id : bytes) (entry : bytes * bytes) : Prop :=
  entry.2 = controller_device_id.

#[export] Instance is_controlled_by_dec k entry : Decision (is_controlled_by k entry).
Proof. unfold is_controlled_by. apply _. Defined.

Definition terminate_controller (controller_device_id : bytes) : SR (list SessionTerminatedEvent) :=
  self ← get;
  let session_ids :=
    (filter (is_controlled_by controller_device_id) (btree_entries (sr_sessions self))).*1 in
  modify (set_sessions (foldl (λ m id, delete id m) (sr_sessions self) session_ids));;
  let events :=
    (λ session_id, termination session_id controller_device_id ErrorCode_AuthRevoked) <$> session_ids in
  modify (send_all events);;
  mret events.

Definition terminate_all (reason : ErrorCode) : SR (list SessionTerminatedEvent) :=
  self ← get;
  modify (set_sessions ∅);;
  let events :=
    (λ entry : bytes * bytes, termination entry.1 entry.2 reason) <$> btree_entries (sr_sessions self) in
  modify (send_all events);;
  mret events.

Definition unregister (session_id : bytes) : SR bool :=
  fail_if (negb (len session_id =? SESSION_ID_BYTES)) SRE_InvalidIdentity;;
  self ← get;
  modify (set_sessions (delete session_id (sr_sessions self)));;
  mret (is_some (sr_sessions self !! session_id)).

Definition count (self : SessionRegistry) : Z := Z.of_nat (size (sr_sessions self)).

(** * The effect of each operation *)

Lemma delete_all_lookup {V} (ids : list bytes) (m : gmap bytes V) k :
  foldl (λ m id, delete id m) m ids !! k = if decide (k ∈ ids) then None else m !! k.
Proof.
  revert m. induction ids as [|i ids IH]; intros m; [done|]. simpl. rewrite IH.
  destruct (decide (k = i)) as [->|Hne].
  - rewrite (decide_True (P := i ∈ i :: ids)) by (by left). rewrite lookup_delete_eq. by case_decide.
  - rewrite lookup_delete_ne by done. repeat case_decide; set_solver.
Qed.

(** The sessions of a controller, and the others. *)
Definition sessions_of (k : bytes) (m : gmap bytes bytes) : gmap bytes bytes :=
  filter (λ entry, entry.2 = k) m.
Definition sessions_not_of (k : bytes) (m : gmap bytes bytes) : gmap bytes bytes :=
  filter (λ entry, entry.2 ≠ k) m.

Lemma elem_of_controlled k m id :
  id ∈ (filter (is_controlled_by k) (btree_entries m)).*1 ↔ m !! id = Some k.
Proof.
  rewrite list_elem_of_fmap. split.
  - intros ([i c] & -> & [Hc Hin]%list_elem_of_filter). apply elem_of_btree_entries in Hin.
    unfold is_controlled_by in Hc. by simpl in *; subst.
  - intros Hid. exists (id, k). split; [done|]. apply list_elem_of_filter.
    split; [done|by apply elem_of_btree_entries].
Qed.

(** What a termination announces: these sessions, in the order of their identifiers. *)
Definition announces (reason : ErrorCode) (m : gmap bytes bytes) (events : list SessionTerminatedEvent)
    : Prop :=
  events = (λ entry : bytes * bytes, termination entry.1 entry.2 reason) <$> btree_entries m.

Lemma filter_sorted {A} (R : relation A) (P : A → Prop) `{∀ x, Decision (P x)} (l : list A) :
  StronglySorted R l → StronglySorted R (filter P l).
Proof.
  induction 1 as [|x l Hs IH Hall]; [constructor|]. rewrite filter_cons. case_decide; [|done].
  constructor; [done|]. rewrite Forall_forall in Hall |- *. intros y [_ Hy]%list_elem_of_filter. auto.
Qed.

Lemma controlled_entries k m :
  filter (is_controlled_by k) (btree_entries m) = btree_entries (sessions_of k m).
Proof.
  apply btree_entries_unique; [apply filter_sorted, btree_entries_sorted|].
  apply NoDup_Permutation.
  - eapply NoDup_filter, (NoDup_fmap_1 fst), btree_entries_NoDup.
  - apply NoDup_map_to_list.
  - intros [i c]. rewrite elem_of_map_to_list, list_elem_of_filter, elem_of_btree_entries.
    unfold sessions_of. rewrite map_lookup_filter_Some. unfold is_controlled_by. naive_solver.
Qed.

Lemma terminate_controller_spec k s :
  wp (terminate_controller k) (λ r s', ∃ events, r = Ok events ∧
    announces ErrorCode_AuthRevoked (sessions_of k (sr_sessions s)) events ∧
    sr_sessions s' = sessions_not_of k (sr_sessions s) ∧
    sr_terminations s' = sr_terminations s ++ events) s.
Proof.
  unfold terminate_controller. repeat wp_step. eexists. split; [done|]. split_and!.
  - unfold announces. rewrite <- controlled_entries, <- list_fmap_compose. apply list_fmap_ext.
    intros i [id c] Hin. apply list_elem_of_lookup_2, list_elem_of_filter in Hin as [Hc _].
    unfold is_controlled_by in Hc. by simpl in *; subst.
  - simpl. apply map_eq. intros i. rewrite delete_all_lookup.
    destruct (decide _) as [Hin|Hout].
    + apply elem_of_controlled in Hin. symmetry. apply map_lookup_filter_None. right.
      intros c Hc. simpl. naive_solver.
    + destruct (sr_sessions s !! i) as [c|] eqn:Hi; symmetry.
      * apply map_lookup_filter_Some. split; [done|]. simpl. intros ->. by apply Hout, elem_of_controlled.
      * apply map_lookup_filter_None. by left.
  - done.
Qed.

Lemma terminate_all_spec reason s :
  wp (terminate_all reason) (λ r s', ∃ events, r = Ok events ∧
    announces reason (sr_sessions s) events ∧ sr_sessions s' = ∅ ∧
    sr_terminations s' = sr_terminations s ++ events) s.
Proof. unfold terminate_all. repeat wp_step. by eexists. Qed.

Lemma register_spec id k s :
  wp (register id k) (λ r s', match r with
    | Ok _ => len id = SESSION_ID_BYTES ∧ len k = DEVICE_ID_BYTES ∧ sr_sessions s !! id = None ∧
        sr_sessions s' = <[id := k]> (sr_sessions s) ∧ sr_terminations s' = sr_terminations s
    | Err _ => s' = s
    end) s.
Proof.
  unfold register. wp_step; [done|]. wp_step. wp_step; [done|]. wp_step. boolsimpl.
  destruct (sr_sessions s !! id) eqn:?; [done|]. split_and!; try done; lia.
Qed.

Lemma unregister_spec id s :
  wp (unregister id) (λ r s', match r with
    | Ok b => b = is_some (sr_sessions s !! id) ∧ sr_sessions s' = delete id (sr_sessions s) ∧
        sr_terminations s' = sr_terminations s
    | Err _ => s' = s
    end) s.
Proof. unfold unregister. wp_step; [done|]. by repeat wp_step. Qed.

(** * Runs *)

Inductive SessionOp :=
| SO_Register (session_id controller_device_id : bytes)
| SO_Unregister (session_id : bytes)
| SO_TerminateController (controller_device_id : bytes)
| SO_TerminateAll (reason : ErrorCode).

(** The session an event is about. *)
Definition event_entry (e : SessionTerminatedEvent) : bytes * bytes :=
  (SessionTerminatedEvent_session_id e, SessionTerminatedEvent_controller_device_id e).

(** An operation, with the sessions it reports to have entered and left the registry. *)
Definition registry_op (op : SessionOp) (s : SessionRegistry)
    : (list (bytes * bytes) * list (bytes * bytes)) * SessionRegistry :=
  match op with
  | SO_Register id k =>
      let '(r, s') := register id k s in ((if is_ok r then [(id, k)] else [], []), s')
  | SO_Unregister id =>
      let '(r, s') := unregister id s in
      (([], match r with Ok true => [(id, default [] (sr_sessions s !! id))] | _ => [] end), s')
  | SO_TerminateController k =>
      let '(r, s') := terminate_controller k s in
      (([], match r with Ok events => event_entry <$> events | Err _ => [] end), s')
  | SO_TerminateAll reason =>
      let '(r, s') := terminate_all reason s in
      (([], match r with Ok events => event_entry <$> events | Err _ => [] end), s')
  end.

Fixpoint registry_ops (ops : list SessionOp) (s : SessionRegistry)
    : (list (bytes * bytes) * list (bytes * bytes)) * SessionRegistry :=
  match ops with
  | [] => (([], []), s)
  | op :: ops =>
      let '((e1, l1), s1) := registry_op op s in
      let '((e2, l2), s2) := registry_ops ops s1 in ((e1 ++ e2, l1 ++ l2), s2)
  end.

Lemma announced_entries reason m events :
  announces reason m events → event_entry <$> events ≡ₚ map_to_list m.
Proof.
  intros ->. rewrite <- list_fmap_compose.
  rewrite (list_fmap_ext _ id); [by rewrite list_fmap_id, btree_entries_perm|]. by intros i [].
Qed.

Lemma sessions_split k m :
  map_to_list m ≡ₚ map_to_list (sessions_of k m) ++ map_to_list (sessions_not_of k m).
Proof.
  apply NoDup_Permutation; [apply NoDup_map_to_list|apply NoDup_app; split_and!|].
  1,3: apply NoDup_map_to_list.
  all: intros [i c]; rewrite ?elem_of_app, !elem_of_map_to_list; unfold sessions_of, sessions_not_of;
    rewrite !map_lookup_filter_Some; simpl; destruct (decide (c = k)); naive_solver.
Qed.

Lemma registry_op_accounted op s entered ended s' :
  registry_op op s = ((entered, ended), s') →
  entered ++ map_to_list (sr_sessions s) ≡ₚ ended ++ map_to_list (sr_sessions s').
Proof.
  destruct op as [id k|id|k|reason]; unfold registry_op.
  - pose proof (register_spec id k s) as Hs. unfold wp in Hs.
    destruct (register id k s) as [[[]|e] s1]; simpl in Hs; intros; simplify_eq; [|done].
    destruct Hs as (_ & _ & Hn & -> & _). simpl. by rewrite map_to_list_insert.
  - pose proof (unregister_spec id s) as Hs. unfold wp in Hs.
    destruct (unregister id s) as [[b|e] s1]; simpl in Hs; intros; simplify_eq; [|done].
    destruct Hs as (-> & -> & _). destruct (sr_sessions s !! id) as [k|] eqn:Hk; simpl.
    + symmetry. by apply map_to_list_delete.
    + by rewrite delete_id.
  - pose proof (terminate_controller_spec k s) as Hs. unfold wp in Hs.
    destruct (terminate_controller k s) as [r s1].
    destruct Hs as (events & Hr & Ha & Hm & _). simpl in Hr, Hm. subst r. intros. simplify_eq. simpl.
    by rewrite Hm, (announced_entries _ _ _ Ha), <- sessions_split.
  - pose proof (terminate_all_spec reason s) as Hs. unfold wp in Hs.
    destruct (terminate_all reason s) as [r s1].
    destruct Hs as (events & Hr & Ha & Hm & _). simpl in Hr, Hm. subst r. intros. simplify_eq. simpl.
    by rewrite Hm, (announced_entries _ _ _ Ha), map_to_list_empty, app_nil_r.
Qed.

Lemma registry_ops_accounted ops s entered ended s' :
  registry_ops ops s = ((entered, ended), s') →
  entered ++ map_to_list (sr_sessions s) ≡ₚ ended ++ map_to_list (sr_sessions s').
Proof.
  revert s entered ended. induction ops as [|op ops IH]; intros s entered ended; simpl.
  { intros [= <- <- <-]. done. }
  destruct (registry_op op s) as [[e1 l1] s1] eqn:H1.
  destruct (registry_ops ops s1) as [[e2 l2] s2] eqn:H2. intros [= <- <- <-].
  apply registry_op_accounted in H1. apply IH in H2. rewrite <- !app_assoc, <- H2.
  rewrite (Permutation_app_comm e1), <- app_assoc, (Permutation_app_comm _ e1), H1.
  by rewrite !app_assoc, (Permutation_app_comm e2).
Qed.

(** No session is lost or ends twice: over any sequence of operations from an empty registry,
    the sessions that were registered are, as a multiset, exactly the ones still live and the
    ones reported to have ended, by an unregistration or by an announced termination; and a
    session identifier is live for at most one controller. *)
Theorem sessions_accounted (ops : list SessionOp) :
  let '((entered, ended), s) := registry_ops ops SessionRegistry_new in
  entered ≡ₚ ended ++ map_to_list (sr_sessions s) ∧ NoDup (map_to_list (sr_sessions s)).*1.
Proof.
  destruct (registry_ops ops SessionRegistry_new) as [[entered ended] s] eqn:Hr. split.
  - apply registry_ops_accounted in Hr. simpl in Hr. by rewrite map_to_list_empty, app_nil_r in Hr.
  - apply NoDup_fst_map_to_list.
Qed.
