(* ===== verification/Service.v ===== *)
(** The Host service, crates/host-agent/src/service.rs: what the local interface, the signaling
    runtime and the remote session coordinator share.

    [HostService] owns the identity, the grant registry, the session registry, the public
    snapshots and the pairing coordinator, each behind its own lock.  [handle_frame] answers a
    request of the local interface; the other operations serve the runtime.  A lock is only
    poisoned by a panic in a critical section, so the errors for a poisoned lock are
    constructors no operation returns.  Channels are logs of what was sent; the notification of
    pairing activity is the permit it stores. *)
From S2P Require Import Prelude Limits Messages Validation Crypto Containers Transcript GrantStore Authorization SessionAuth Identity PairingCrypto Signaling Pairing Sessions.

Local Open Scope Z_scope.

(** * Data *)

Definition PROTOCOL_MAJOR_VERSION : Z := 1.
Definition PROTOCOL_MINOR_VERSION : Z := 0.

Inductive BridgeStatusError := BS_InvalidStatus | BS_StaleGeneration | BS_Unavailable.

Inductive RemoteServiceError :=
| RS_Authentication (error : SessionAuthenticationError) | RS_Authorization | RS_Identity
| RS_Session | RS_InvalidStatus | RS_Unavailable.

Inductive ServiceError :=
| SV_InvalidRequest | SV_Authorization (error : AuthorizationError) | SV_Identity
| SV_Pairing (error : PairingCoordinatorError) | SV_Session | SV_Internal.

Record HostService {G W R : Type} := {
  hs_identity : HostIdentity;
  hs_authorization : RegistryState W R;
  hs_sessions : SessionRegistry;
  hs_remote_status : RemoteSessionStatusSnapshot;
  hs_privileged_bridge_status : PrivilegedBridgeStatusSnapshot;
  hs_privileged_bridge_generation : Z;
  hs_pairing : HostPairingCoordinator G;
  hs_pairing_events : list HostPairingStatusSnapshot;
  hs_pairing_activity : bool;
  hs_instance_id : bytes;
  hs_started_at_unix_ms : Z
}.
Arguments HostService : clear implicits.

Definition service_protocol_version : ProtocolVersion :=
  {| ProtocolVersion_major := PROTOCOL_MAJOR_VERSION; ProtocolVersion_minor := PROTOCOL_MINOR_VERSION |}.

Definition idle_remote_status : RemoteSessionStatusSnapshot :=
  {| RemoteSessionStatusSnapshot_session_status := Some
       {| SessionStatus_session_id := []; SessionStatus_state := to_i32 SessionState_Idle;
          SessionStatus_error := None |};
     RemoteSessionStatusSnapshot_controller_device_id := [] |}.

Definition user_session_only_bridge_status : PrivilegedBridgeStatusSnapshot :=
  {| PrivilegedBridgeStatusSnapshot_state := to_i32 PrivilegedBridgeState_UserSessionOnly;
     PrivilegedBridgeStatusSnapshot_interactive_session := None;
     PrivilegedBridgeStatusSnapshot_helper_connected := false;
     PrivilegedBridgeStatusSnapshot_active_controller_display_name := [];
     PrivilegedBridgeStatusSnapshot_error := None |}.

(** The sanitized error of a local response. *)
Definition error_class (error : ServiceError) : ErrorCode * string * bool :=
  match error with
  | SV_InvalidRequest => (ErrorCode_InvalidRequest, "local_ipc.invalid_request"%string, false)
  | SV_Authorization AE_GrantNotFound =>
      (ErrorCode_AuthRevoked, "local_ipc.grant_not_found"%string, false)
  | SV_Authorization (AE_Store _) | SV_Internal
  | SV_Pairing (PCE_Authorization (AE_Store _)) | SV_Pairing PCE_Random =>
      (ErrorCode_ServerUnavailable, "local_ipc.temporarily_unavailable"%string, true)
  | SV_Authorization _ => (ErrorCode_InvalidRequest, "local_ipc.invalid_grant"%string, false)
  | SV_Identity => (ErrorCode_AuthInvalid, "local_ipc.invalid_transcript"%string, false)
  | SV_Pairing PCE_Expired => (ErrorCode_PairingCodeExpired, "local_ipc.pairing_expired"%string, false)
  | SV_Pairing PCE_Authentication =>
      (ErrorCode_AuthInvalid, "local_ipc.pairing_authentication_failed"%string, false)
  | SV_Pairing _ => (ErrorCode_InvalidRequest, "local_ipc.invalid_pairing_state"%string, false)
  | SV_Session => (ErrorCode_InvalidRequest, "local_ipc.invalid_session"%string, false)
  end.

Definition to_unified_error (error : ServiceError) (request_id : text) : UnifiedError :=
  let '(code, message_key, retryable) := error_class error in
  {| UnifiedError_code := to_i32 code; UnifiedError_message_key := lit message_key;
     UnifiedError_retryable := retryable; UnifiedError_request_id := request_id;
     UnifiedError_details := None |}.

Section Service.
Context `{Sha256, Ed25519, X25519, HkdfSha256, Aes256Gcm}.
Context `{Message PairingMessage, Message PairingPlaintext, Message HostAuthorizationSnapshot}.
Context `{UrlParser Url} {G : Type} `{RandomSource G} {W R : Type} `{GrantStore W, RandomSource R}.
(** The build and the environment variable the endpoint policy reads. *)
Context (debug_build : bool) (requested : option text).

Abbreviation HS := (HostService G W R).
Abbreviation SM E A := (M HS E A).
Abbreviation HC := (HostPairingCoordinator G).

(** ** Fields *)

Definition set_authorization (a : RegistryState W R) (s : HS) : HS :=
  {| hs_identity := hs_identity s; hs_authorization := a; hs_sessions := hs_sessions s;
     hs_remote_status := hs_remote_status s;
     hs_privileged_bridge_status := hs_privileged_bridge_status s;
     hs_privileged_bridge_generation := hs_privileged_bridge_generation s;
     hs_pairing := hs_pairing s; hs_pairing_events := hs_pairing_events s;
     hs_pairing_activity := hs_pairing_activity s; hs_instance_id := hs_instance_id s;
     hs_started_at_unix_ms := hs_started_at_unix_ms s |}.

Definition set_session_registry (r : SessionRegistry) (s : HS) : HS :=
  {| hs_identity := hs_identity s; hs_authorization := hs_authorization s; hs_sessions := r;
     hs_remote_status := hs_remote_status s;
     hs_privileged_bridge_status := hs_privileged_bridge_status s;
     hs_privileged_bridge_generation := hs_privileged_bridge_generation s;
     hs_pairing := hs_pairing s; hs_pairing_events := hs_pairing_events s;
     hs_pairing_activity := hs_pairing_activity s; hs_instance_id := hs_instance_id s;
     hs_started_at_unix_ms := hs_started_at_unix_ms s |}.

Definition set_remote_status (x : RemoteSessionStatusSnapshot) (s : HS) : HS :=
  {| hs_identity := hs_identity s; hs_authorization := hs_authorization s;
     hs_sessions := hs_sessions s; hs_remote_status := x;
     hs_privileged_bridge_status := hs_privileged_bridge_status s;
     hs_privileged_bridge_generation := hs_privileged_bridge_generation s;
     hs_pairing := hs_pairing s; hs_pairing_events := hs_pairing_events s;
     hs_pairing_activity := hs_pairing_activity s; hs_instance_id := hs_instance_id s;
     hs_started_at_unix_ms := hs_started_at_unix_ms s |}.

Definition set_bridge (generation : Z) (x : PrivilegedBridgeStatusSnapshot) (s : HS) : HS :=
  {| hs_identity := hs_identity s; hs_authorization := hs_authorization s;
     hs_sessions := hs_sessions s; hs_remote_status := hs_remote_status s;
     hs_privileged_bridge_status := x; hs_privileged_bridge_generation := generation;
     hs_pairing := hs_pairing s; hs_pairing_events := hs_pairing_events s;
     hs_pairing_activity := hs_pairing_activity s; hs_instance_id := hs_instance_id s;
     hs_started_at_unix_ms := hs_started_at_unix_ms s |}.

Definition set_pairing (c : HC) (s : HS) : HS :=
  {| hs_identity := hs_identity s; hs_authorization := hs_authorization s;
     hs_sessions := hs_sessions s; hs_remote_status := hs_remote_status s;
     hs_privileged_bridge_status := hs_privileged_bridge_status s;
     hs_privileged_bridge_generation := hs_privileged_bridge_generation s;
     hs_pairing := c; hs_pairing_events := hs_pairing_events s;
     hs_pairing_activity := hs_pairing_activity s; hs_instance_id := hs_instance_id s;
     hs_started_at_unix_ms := hs_started_at_unix_ms s |}.

Definition set_pairing_news (events : list HostPairingStatusSnapshot) (activity : bool) (s : HS) : HS :=
  {| hs_identity := hs_identity s; hs_authorization := hs_authorization s;
     hs_sessions := hs_sessions s; hs_remote_status := hs_remote_status s;
     hs_privileged_bridge_status := hs_privileged_bridge_status s;
     hs_privileged_bridge_generation := hs_privileged_bridge_generation s;
     hs_pairing := hs_pairing s; hs_pairing_events := events; hs_pairing_activity := activity;
     hs_instance_id := hs_instance_id s; hs_started_at_unix_ms := hs_started_at_unix_ms s |}.

(** [HostPairingCoordinator::from_validated_host]; [None] is its [unreachable!]. *)
Definition from_validated_host (host_identity : DeviceIdentity) (random : G) : option HC :=
  match with_random host_identity random with Ok coordinator => Some coordinator | Err _ => None end.

Definition HostService_new (identity : HostIdentity) (authorization : RegistryState W R)
    (random : G) (instance_id : bytes) (started_at_unix_ms : Z) : option HS :=
  pairing ← from_validated_host (hi_device_identity identity) random;
  mret {| hs_identity := identity; hs_authorization := authorization;
          hs_sessions := SessionRegistry_new; hs_remote_status := idle_remote_status;
          hs_privileged_bridge_status := user_session_only_bridge_status;
          hs_privileged_bridge_generation := 0; hs_pairing := pairing; hs_pairing_events := [];
          hs_pairing_activity := false; hs_instance_id := instance_id;
          hs_started_at_unix_ms := started_at_unix_ms |}.

(** A call on one of the locked components. *)
Definition on_authorization {E A} (m : M (RegistryState W R) E A) : SM E A :=
  zoom hs_authorization set_authorization m.
Definition on_sessions {E A} (m : M SessionRegistry E A) : SM E A :=
  zoom hs_sessions set_session_registry m.

(** ** Sessions *)

Definition register_active_session (session_id controller_device_id : bytes)
    : SM SessionRegistryError unit :=
  on_sessions (register session_id controller_device_id).

Definition active_session_count (self : HS) : Z := count (hs_sessions self).

Definition unregister_active_session (session_id : bytes) : SM RemoteServiceError unit :=
  map_err_m (λ _, RS_Session) (on_sessions (unregister session_id));;
  mret ().

Definition record_authenticated_remote_session (controller_device_id : bytes) (now_unix_ms : Z)
    : SM RemoteServiceError unit :=
  map_err_m (λ _, RS_Authorization)
    (on_authorization (record_authenticated_session controller_device_id now_unix_ms));;
  mret ().

Definition update_remote_status (session_id controller_device_id : bytes) (state : SessionState)
    (error : option UnifiedError) : SM RemoteServiceError unit :=
  let snapshot :=
    {| RemoteSessionStatusSnapshot_session_status := Some
         {| SessionStatus_session_id := session_id; SessionStatus_state := to_i32 state;
            SessionStatus_error := error |};
       RemoteSessionStatusSnapshot_controller_device_id := controller_device_id |} in
  lift (map_err (λ _, RS_InvalidStatus) (validate_remote_session_status_snapshot snapshot));;
  modify (set_remote_status snapshot).

(** ** Signed negotiation *)

Definition verify_remote_offer (authentication : SessionOfferAuthentication) (offer_sdp : text)
    (controller_fingerprint : bytes) (now_unix_ms : Z)
    : M (OfferVerifier * HS) RemoteServiceError VerifiedSessionOffer :=
  s ← get;
  map_err_m RS_Authentication
    (zoom fst (λ v s, (v, s.2))
       (OfferVerifier_verify authentication offer_sdp controller_fingerprint
          (rs_registry (hs_authorization s.2)) now_unix_ms)).

Definition unsigned_answer (offer : SessionOfferAuthentication) (answer_sdp : text)
    (host_fingerprint : bytes) (signature : bytes) : SessionAnswerAuthentication :=
  {| SessionAnswerAuthentication_controller_device_id :=
       SessionOfferAuthentication_controller_device_id offer;
     SessionAnswerAuthentication_host_device_id := SessionOfferAuthentication_host_device_id offer;
     SessionAnswerAuthentication_session_id := SessionOfferAuthentication_session_id offer;
     SessionAnswerAuthentication_nonce := SessionOfferAuthentication_nonce offer;
     SessionAnswerAuthentication_issued_at_unix_ms := SessionOfferAuthentication_issued_at_unix_ms offer;
     SessionAnswerAuthentication_expires_at_unix_ms :=
       SessionOfferAuthentication_expires_at_unix_ms offer;
     SessionAnswerAuthentication_requested_permissions :=
       SessionOfferAuthentication_requested_permissions offer;
     SessionAnswerAuthentication_offer_sha256 := SessionOfferAuthentication_offer_sha256 offer;
     SessionAnswerAuthentication_controller_dtls_fingerprint_sha256 :=
       SessionOfferAuthentication_controller_dtls_fingerprint_sha256 offer;
     SessionAnswerAuthentication_answer_sha256 := sha256 (as_bytes answer_sdp);
     SessionAnswerAuthentication_host_dtls_fingerprint_sha256 := host_fingerprint;
     SessionAnswerAuthentication_signature := signature |}.

(** The answer is built without a signature, and the signature of its transcript is stored. *)
Definition sign_remote_answer (offer : SessionOfferAuthentication) (answer_sdp : text)
    (host_fingerprint : bytes) (self : HS) : result RemoteServiceError SessionAnswerAuthentication :=
  transcript ← map_err RS_Authentication
    (encode_session_answer_transcript (unsigned_answer offer answer_sdp host_fingerprint []));
  signed ← map_err (λ _, RS_Identity) (sign_canonical_transcript (hs_identity self) transcript);
  mret (unsigned_answer offer answer_sdp host_fingerprint
          (CanonicalTranscriptSignature_signature signed)).

Definition unsigned_reconnect (offer : SessionOfferAuthentication) (answer_sdp : text)
    (host_fingerprint : bytes) (reconnect_generation : Z) (signature : bytes)
    : SessionReconnectAuthentication :=
  {| SessionReconnectAuthentication_controller_device_id :=
       SessionOfferAuthentication_controller_device_id offer;
     SessionReconnectAuthentication_host_device_id := SessionOfferAuthentication_host_device_id offer;
     SessionReconnectAuthentication_session_id := SessionOfferAuthentication_session_id offer;
     SessionReconnectAuthentication_nonce := SessionOfferAuthentication_nonce offer;
     SessionReconnectAuthentication_issued_at_unix_ms :=
       SessionOfferAuthentication_issued_at_unix_ms offer;
     SessionReconnectAuthentication_expires_at_unix_ms :=
       SessionOfferAuthentication_expires_at_unix_ms offer;
     SessionReconnectAuthentication_requested_permissions :=
       SessionOfferAuthentication_requested_permissions offer;
     SessionReconnectAuthentication_offer_sha256 := SessionOfferAuthentication_offer_sha256 offer;
     SessionReconnectAuthentication_controller_dtls_fingerprint_sha256 :=
       SessionOfferAuthentication_controller_dtls_fingerprint_sha256 offer;
     SessionReconnectAuthentication_answer_sha256 := sha256 (as_bytes answer_sdp);
     SessionReconnectAuthentication_host_dtls_fingerprint_sha256 := host_fingerprint;
     SessionReconnectAuthentication_reconnect_generation := reconnect_generation;
     SessionReconnectAuthentication_signature := signature |}.

Definition sign_remote_reconnect (offer : SessionOfferAuthentication) (answer_sdp : text)
    (host_fingerprint : bytes) (reconnect_generation : Z) (self : HS)
    : result RemoteServiceError SessionReconnectAuthentication :=
  transcript ← map_err RS_Authentication
    (encode_session_reconnect_transcript
       (unsigned_reconnect offer answer_sdp host_fingerprint reconnect_generation []));
  signed ← map_err (λ _, RS_Identity) (sign_canonical_transcript (hs_identity self) transcript);
  mret (unsigned_reconnect offer answer_sdp host_fingerprint reconnect_generation
          (CanonicalTranscriptSignature_signature signed)).

(** ** The status of the privileged bridge *)

Definition set_display_name (name : text) (x : PrivilegedBridgeStatusSnapshot)
    : PrivilegedBridgeStatusSnapshot :=
  {| PrivilegedBridgeStatusSnapshot_state := PrivilegedBridgeStatusSnapshot_state x;
     PrivilegedBridgeStatusSnapshot_interactive_session :=
       PrivilegedBridgeStatusSnapshot_interactive_session x;
     PrivilegedBridgeStatusSnapshot_helper_connected :=
       PrivilegedBridgeStatusSnapshot_helper_connected x;
     PrivilegedBridgeStatusSnapshot_active_controller_display_name := name;
     PrivilegedBridgeStatusSnapshot_error := PrivilegedBridgeStatusSnapshot_error x |}.

Definition granted_controller (view : ControllerGrantView) : option DeviceIdentity :=
  grant ← ControllerGrantView_grant view; ControllerGrant_controller grant.

(** The display name the permanent grants give a device. *)
Definition granted_name (controller_device_id : bytes) (self : HS) : option text :=
  DeviceIdentity_display_name <$>
    find (λ controller, bool_decide (DeviceIdentity_device_id controller = controller_device_id))
      (omap granted_controller (list_controller_grants (rs_registry (hs_authorization self)))).

Definition next_generation (snapshot : PrivilegedBridgeStatusSnapshot) : Z :=
  match PrivilegedBridgeStatusSnapshot_interactive_session snapshot with
  | Some session => PrivilegedSessionDescriptor_generation session
  | None => 0
  end.

Definition update_privileged_bridge_status (snapshot : PrivilegedBridgeStatusSnapshot)
    (controller_device_id : option bytes) : SM BridgeStatusError unit :=
  fail_if (negb (bool_decide
    (PrivilegedBridgeStatusSnapshot_active_controller_display_name snapshot = []))) BS_InvalidStatus;;
  state ← ok_or (PrivilegedBridgeState_try_from (PrivilegedBridgeStatusSnapshot_state snapshot))
            BS_InvalidStatus;
  self ← get;
  snapshot ←
    (if bool_decide (state = PrivilegedBridgeState_Controlled) then
       controller_device_id ← ok_or controller_device_id BS_InvalidStatus;
       name ← ok_or (granted_name controller_device_id self) BS_InvalidStatus;
       mret (set_display_name name snapshot)
     else
       fail_if (is_some controller_device_id) BS_InvalidStatus;;
       mret snapshot);
  lift (map_err (λ _, BS_InvalidStatus) (validate_privileged_bridge_status_snapshot snapshot));;
  let generation := next_generation snapshot in
  fail_if (negb (generation =? 0) && (generation <? hs_privileged_bridge_generation self))
          BS_StaleGeneration;;
  modify (set_bridge
    (if negb (generation =? 0) then generation else hs_privileged_bridge_generation self) snapshot).

(** ** Pairing *)

Definition publish_pairing_snapshot (previous_revision : Z) (s : HS) : HS :=
  if negb (hc_revision (hs_pairing s) =? previous_revision) then
    set_pairing_news (hs_pairing_events s ++ [snapshot (hs_pairing s)]) true s
  else if has_outbound (hs_pairing s) then set_pairing_news (hs_pairing_events s) true s
  else s.

(** A call on the coordinator that publishes what it changed. *)
Definition published {A} (m : SM PairingCoordinatorError A) : SM PairingCoordinatorError A :=
  self ← get;
  result ← try m;
  modify (publish_pairing_snapshot (hc_revision (hs_pairing self)));;
  lift result.

Definition on_pairing {E A} (m : M HC E A) : SM E A := zoom hs_pairing set_pairing m.

Definition pairing_signaling_connected : SM PairingCoordinatorError unit :=
  on_pairing (modify signaling_connected).

Definition pairing_signaling_lost : SM PairingCoordinatorError unit :=
  published (on_pairing (modify signaling_lost)).

Definition pairing_shutdown : SM PairingCoordinatorError unit :=
  published (on_pairing (modify shutdown)).

Definition handle_pairing_signaling_event (event : SignalingEvent) (now_unix_ms : Z)
    : SM PairingCoordinatorError unit :=
  self ← get;
  published (on_pairing (handle_signaling_event event (hs_identity self) now_unix_ms)).

Definition poll_pairing_outbound (now_unix_ms : Z)
    : SM PairingCoordinatorError (list PairingOutbound) :=
  published (on_pairing (modify (tick now_unix_ms)));;
  on_pairing (λ c, let '(outbound, c') := take_outbound c in (Ok outbound, c')).

Definition host_pairing_status (self : HS) : HostPairingStatusSnapshot := snapshot (hs_pairing self).

Definition start_host_pairing (kind : PairingInvitationKind) (signaling_endpoint : text)
    (now_unix_ms : Z) : SM PairingCoordinatorError HostPairingStatusSnapshot :=
  published (on_pairing (start debug_build requested kind signaling_endpoint now_unix_ms)).

Definition accept_host_pairing (rendezvous_id controller_device_id : bytes) (now_unix_ms : Z)
    : SM PairingCoordinatorError unit :=
  published (zoom (λ s, (hs_pairing s, hs_authorization s))
               (λ p s, set_authorization p.2 (set_pairing p.1 s))
               (accept rendezvous_id controller_device_id now_unix_ms)).

Definition reject_host_pairing (rendezvous_id controller_device_id : bytes) (now_unix_ms : Z)
    : SM PairingCoordinatorError unit :=
  published (on_pairing (reject rendezvous_id controller_device_id now_unix_ms)).

Definition cancel_host_pairing (rendezvous_id : bytes) (now_unix_ms : Z)
    : SM PairingCoordinatorError unit :=
  published (on_pairing (cancel rendezvous_id now_unix_ms)).

Definition pairing_deadline_unix_ms (self : HS) : option Z := deadline_unix_ms (hs_pairing self).

(** ** Requests of the local interface *)

Definition create_controller_grant_for_maintenance (controller : DeviceIdentity)
    (permissions : list SessionPermission) (now_unix_ms : Z)
    : SM AuthorizationError ControllerGrantView :=
  on_authorization (create_controller_grant controller permissions now_unix_ms).

Abbreviation Reply := LocalIpcServerFrame_Payload.

Definition host_status : SM ServiceError Reply :=
  self ← get;
  let grant_count := len (list_controller_grants (rs_registry (hs_authorization self))) in
  fail_if (U32_MAX <? grant_count) SV_Internal;;
  mret (LocalIpcServerFrame_Payload_HostStatus
    {| HostStatus_identity := Some (hi_device_identity (hs_identity self));
       HostStatus_agent_instance_id := hs_instance_id self;
       HostStatus_agent_started_at_unix_ms := hs_started_at_unix_ms self;
       HostStatus_controller_grant_count := grant_count;
       HostStatus_privileged_bridge := Some (hs_privileged_bridge_status self) |}).

(** The bridge status an emergency stop leaves: ready, or no bridge. *)
Definition stopped_bridge_status (bridge : PrivilegedBridgeStatusSnapshot)
    : PrivilegedBridgeStatusSnapshot :=
  if is_some (PrivilegedBridgeStatusSnapshot_interactive_session bridge) &&
     PrivilegedBridgeStatusSnapshot_helper_connected bridge
  then {| PrivilegedBridgeStatusSnapshot_state := to_i32 PrivilegedBridgeState_Ready;
          PrivilegedBridgeStatusSnapshot_interactive_session :=
            PrivilegedBridgeStatusSnapshot_interactive_session bridge;
          PrivilegedBridgeStatusSnapshot_helper_connected :=
            PrivilegedBridgeStatusSnapshot_helper_connected bridge;
          PrivilegedBridgeStatusSnapshot_active_controller_display_name := [];
          PrivilegedBridgeStatusSnapshot_error := None |}
  else user_session_only_bridge_status.

Definition emergency_stop : SM ServiceError Reply :=
  terminated ← map_err_m (λ _, SV_Session) (on_sessions (terminate_all ErrorCode_LocalEmergencyStop));
  modify (set_remote_status idle_remote_status);;
  self ← get;
  modify (set_bridge (hs_privileged_bridge_generation self)
            (stopped_bridge_status (hs_privileged_bridge_status self)));;
  fail_if (U32_MAX <? len terminated) SV_Internal;;
  mret (LocalIpcServerFrame_Payload_EmergencyStopRemoteSessionResult
    {| EmergencyStopRemoteSessionResult_terminated_session_count := len terminated |}).

Definition revoke (grant_id : bytes) : SM ServiceError Reply :=
  revoked ← map_err_m SV_Authorization (on_authorization (revoke_controller_grant grant_id));
  controller ← ok_or (granted_controller revoked) SV_Internal;
  terminated ← map_err_m (λ _, SV_Session)
    (on_sessions (terminate_controller (DeviceIdentity_device_id controller)));
  fail_if (U32_MAX <? len terminated) SV_Internal;;
  mret (LocalIpcServerFrame_Payload_ControllerGrantRevoked
    {| ControllerGrantRevoked_grant_id := grant_id;
       ControllerGrantRevoked_terminated_session_count := len terminated |}).

Definition pairing_status_payload : SM ServiceError Reply :=
  self ← get;
  mret (LocalIpcServerFrame_Payload_HostPairingStatus (host_pairing_status self)).

Definition handle_pairing_payload (payload : LocalIpcClientFrame_Payload) (now_unix_ms : Z)
    : SM ServiceError Reply :=
  match payload with
  | LocalIpcClientFrame_Payload_StartHostQrPairing request =>
      status ← map_err_m SV_Pairing
        (start_host_pairing PairingInvitationKind_Qr
           (StartHostQrPairingRequest_signaling_endpoint request) now_unix_ms);
      mret (LocalIpcServerFrame_Payload_HostPairingStatus status)
  | LocalIpcClientFrame_Payload_StartHostDesktopCodePairing request =>
      status ← map_err_m SV_Pairing
        (start_host_pairing PairingInvitationKind_DesktopCode
           (StartHostDesktopCodePairingRequest_signaling_endpoint request) now_unix_ms);
      mret (LocalIpcServerFrame_Payload_HostPairingStatus status)
  | LocalIpcClientFrame_Payload_CancelHostPairing request =>
      map_err_m SV_Pairing
        (cancel_host_pairing (CancelHostPairingRequest_rendezvous_id request) now_unix_ms);;
      pairing_status_payload
  | LocalIpcClientFrame_Payload_GetHostPairingStatus _ =>
      self ← get;
      on_pairing (modify (tick now_unix_ms));;
      ticked ← get;
      let status := snapshot (hs_pairing ticked) in
      modify (publish_pairing_snapshot (hc_revision (hs_pairing self)));;
      mret (LocalIpcServerFrame_Payload_HostPairingStatus status)
  | LocalIpcClientFrame_Payload_AcceptHostPairing request =>
      map_err_m SV_Pairing
        (accept_host_pairing (AcceptHostPairingRequest_rendezvous_id request)
           (AcceptHostPairingRequest_controller_device_id request) now_unix_ms);;
      pairing_status_payload
  | LocalIpcClientFrame_Payload_RejectHostPairing request =>
      map_err_m SV_Pairing
        (reject_host_pairing (RejectHostPairingRequest_rendezvous_id request)
           (RejectHostPairingRequest_controller_device_id request) now_unix_ms);;
      pairing_status_payload
  | _ => mthrow SV_InvalidRequest
  end.

(** [SessionPermission::try_from] of every value, the first failure ending the request. *)
Fixpoint permissions_of (values : list Z) : result ServiceError (list SessionPermission) :=
  match values with
  | [] => mret []
  | value :: values =>
      permission ← ok_or (SessionPermission_try_from value) SV_InvalidRequest;
      rest ← permissions_of values;
      mret (permission :: rest)
  end.

Definition handle_payload (payload : LocalIpcClientFrame_Payload) (now_unix_ms : Z)
    : SM ServiceError Reply :=
  self ← get;
  match payload with
  | LocalIpcClientFrame_Payload_Authenticate _ => mthrow SV_InvalidRequest
  | LocalIpcClientFrame_Payload_GetHostStatus _ => host_status
  | LocalIpcClientFrame_Payload_ListControllerGrants _ =>
      mret (LocalIpcServerFrame_Payload_ControllerGrantList
        {| ControllerGrantList_grants :=
             list_controller_grants (rs_registry (hs_authorization self)) |})
  | LocalIpcClientFrame_Payload_CreateControllerGrant request =>
      controller ← ok_or (CreateControllerGrantRequest_controller request) SV_InvalidRequest;
      permissions ← lift (permissions_of (CreateControllerGrantRequest_permissions request));
      grant ← map_err_m SV_Authorization
        (on_authorization (create_controller_grant controller permissions now_unix_ms));
      mret (LocalIpcServerFrame_Payload_ControllerGrantCreated
        {| ControllerGrantCreated_grant := Some grant |})
  | LocalIpcClientFrame_Payload_SignCanonicalTranscript request =>
      signature ← lift (map_err (λ _, SV_Identity)
        (sign_canonical_transcript (hs_identity self)
           (SignCanonicalTranscriptRequest_canonical_transcript request)));
      mret (LocalIpcServerFrame_Payload_CanonicalTranscriptSignature signature)
  | LocalIpcClientFrame_Payload_RevokeControllerGrant request =>
      revoke (RevokeControllerGrantRequest_grant_id request)
  | LocalIpcClientFrame_Payload_SignSessionOffer request =>
      signature ← lift (map_err (λ _, SV_Identity)
        (sign_session_offer (hs_identity self)
           (SignSessionOfferRequest_canonical_transcript request)));
      mret (LocalIpcServerFrame_Payload_SessionOfferSignature signature)
  | LocalIpcClientFrame_Payload_GetRemoteSessionStatus _ =>
      mret (LocalIpcServerFrame_Payload_RemoteSessionStatus (hs_remote_status self))
  | LocalIpcClientFrame_Payload_SignPairingTranscript request =>
      role ← ok_or (PairingIdentityRole_try_from (SignPairingTranscriptRequest_role request))
               SV_InvalidRequest;
      signature ← lift (map_err (λ _, SV_Identity)
        (sign_pairing_transcript (hs_identity self)
           (SignPairingTranscriptRequest_canonical_transcript request) role));
      mret (LocalIpcServerFrame_Payload_PairingTranscriptSignature signature)
  | LocalIpcClientFrame_Payload_StartHostQrPairing _
  | LocalIpcClientFrame_Payload_StartHostDesktopCodePairing _
  | LocalIpcClientFrame_Payload_CancelHostPairing _
  | LocalIpcClientFrame_Payload_GetHostPairingStatus _
  | LocalIpcClientFrame_Payload_AcceptHostPairing _
  | LocalIpcClientFrame_Payload_RejectHostPairing _ => handle_pairing_payload payload now_unix_ms
  | LocalIpcClientFrame_Payload_EmergencyStopRemoteSession _ => emergency_stop
  end.

(** The result of a frame, and the frame that answers it. *)
Definition frame_result (frame : LocalIpcClientFrame) (now_unix_ms : Z) : SM ServiceError Reply :=
  payload ← ok_or (LocalIpcClientFrame_payload frame) SV_InvalidRequest;
  handle_payload payload now_unix_ms.

Definition reply_frame (frame : LocalIpcClientFrame) (result : result ServiceError Reply)
    : LocalIpcServerFrame :=
  {| LocalIpcServerFrame_protocol_version := Some service_protocol_version;
     LocalIpcServerFrame_request_id := LocalIpcClientFrame_request_id frame;
     LocalIpcServerFrame_payload := Some
       match result with
       | Ok payload => payload
       | Err error => LocalIpcServerFrame_Payload_Error
           (to_unified_error error (LocalIpcClientFrame_request_id frame))
       end |}.

Definition handle_frame (frame : LocalIpcClientFrame) (now_unix_ms : Z) (s : HS)
    : LocalIpcServerFrame * HS :=
  let '(result, s') := frame_result frame now_unix_ms s in (reply_frame frame result, s').
End Service.

(** * What the operations do *)

(** The controller a stored grant names is the one it is stored for. *)
Lemma stored_granted `{Sha256, Ed25519} host k view :
  stored_grant_ok host k view → ∃ c, granted_controller view = Some c ∧ DeviceIdentity_device_id c = k.
Proof.
  intros (g & c & Hg & _ & _ & Hc & _ & Hk & _). exists c. split; [|done].
  unfold granted_controller. by rewrite Hg.
Qed.

(** Every successful result of a computation satisfies [P]. *)
Definition returns {S E A} (P : A → Prop) (m : M S E A) : Prop := ∀ s a, (m s).1 = Ok a → P a.

Lemma returns_bind {S E A B} (P : B → Prop) (m : M S E A) (k : A → M S E B) :
  (∀ a, returns P (k a)) → returns P (m ≫= k).
Proof.
  intros Hk s b. rewrite bind_run. destruct (m s) as [[a|e] s1]; [|done]. apply Hk.
Qed.

Lemma returns_ret {S E A} (P : A → Prop) a : P a → returns P (mret a : M S E A).
Proof. intros Ha s b [= <-]. done. Qed.

Lemma returns_throw {S E A} (P : A → Prop) (e : E) : returns P (mthrow e : M S E A).
Proof. by intros s b [=]. Qed.

Section Effects.
Context `{Sha256, Ed25519, X25519, HkdfSha256, Aes256Gcm}.
Context `{Message PairingMessage, Message PairingPlaintext, Message HostAuthorizationSnapshot}.
Context `{UrlParser Url} {G : Type} `{RandomSource G} {W R : Type} `{GrantStoreLaws W, RandomSource R}.
Context `{!RandomLaws R}.

Implicit Types s : HostService G W R.

Abbreviation grants s := (ar_grants_by_controller (rs_registry (hs_authorization s))).
Abbreviation sessions s := (sr_sessions (hs_sessions s)).
Abbreviation announced s := (sr_terminations (hs_sessions s)).

(** Everything but the grants and the sessions. *)
Definition rest_same s s' : Prop :=
  hs_identity s' = hs_identity s ∧ hs_remote_status s' = hs_remote_status s ∧
  hs_privileged_bridge_status s' = hs_privileged_bridge_status s ∧
  hs_privileged_bridge_generation s' = hs_privileged_bridge_generation s ∧
  hs_pairing s' = hs_pairing s ∧ hs_pairing_events s' = hs_pairing_events s ∧
  hs_instance_id s' = hs_instance_id s.

(** What a revocation does: it removes the grant it names and ends exactly the sessions of its
    controller, announcing each; a request that fails changes neither. *)
Definition revoke_outcome_at (grant_id : bytes) s (r : result ServiceError LocalIpcServerFrame_Payload) s'
    : Prop :=
  rest_same s s' ∧
  ar_host_device_id (rs_registry (hs_authorization s')) =
    ar_host_device_id (rs_registry (hs_authorization s)) ∧
  ((∃ k view events, grants s !! k = Some view ∧ has_grant_id grant_id view = true ∧
      grants s' = delete k (grants s) ∧ sessions s' = sessions_not_of k (sessions s) ∧
      announces ErrorCode_AuthRevoked (sessions_of k (sessions s)) events ∧
      announced s' = announced s ++ events ∧
      r = if U32_MAX <? len events then Err SV_Internal else
        Ok (LocalIpcServerFrame_Payload_ControllerGrantRevoked
          {| ControllerGrantRevoked_grant_id := grant_id;
             ControllerGrantRevoked_terminated_session_count := len events |})) ∨
   (grants s' = grants s ∧ hs_sessions s' = hs_sessions s ∧
    ∃ error, r = Err (SV_Authorization error))).

Lemma revoke_spec grant_id s :
  registry_wf (rs_registry (hs_authorization s)) →
  wp (revoke grant_id) (λ r s', revoke_outcome_at grant_id s r s' ∧
    registry_wf (rs_registry (hs_authorization s'))) s.
Proof.
  intros Hw. unfold revoke. apply wp_bind, wp_map_err, wp_zoom, wp_of_run. intros r a Hr.
  pose proof (registry_exec_outcome (RO_Revoke grant_id) _ r a Hw Hr) as ((Hh & Ho) & Hw').
  destruct r as [view|error]; cbn [map_err].
  - destruct Ho as [(k & Hk & Hid & Hm) _].
    destruct (stored_granted _ _ _ (wf_valid _ Hw _ _ Hk)) as (c & Hc & Hck). rewrite Hc.
    apply wp_bind, wp_ret, wp_bind, wp_map_err, wp_zoom. rewrite Hck.
    eapply wp_mono; [apply terminate_controller_spec|].
    intros r1 sr (events & -> & Ha & Hs & Ht). cbn [map_err]. cbn in Hs, Ht.
    wp_step; [|wp_step]; (split; [|done]); (split; [done|]); (split; [done|]); left;
      exists k, view, events; split_and!; try done; by case_match.
  - destruct Ho as [Hm _]. split; [|done]. split; [done|]. split; [done|]. right. eauto.
Qed.

(** What an emergency stop does. *)
Definition stop_outcome s (r : result ServiceError LocalIpcServerFrame_Payload) s' : Prop :=
  ∃ events, announces ErrorCode_LocalEmergencyStop (sessions s) events ∧
    sessions s' = ∅ ∧ announced s' = announced s ++ events ∧
    hs_remote_status s' = idle_remote_status ∧
    PrivilegedBridgeStatusSnapshot_active_controller_display_name (hs_privileged_bridge_status s') = [] ∧
    hs_identity s' = hs_identity s ∧ hs_authorization s' = hs_authorization s ∧
    hs_pairing s' = hs_pairing s ∧
    r = if U32_MAX <? len events then Err SV_Internal else
      Ok (LocalIpcServerFrame_Payload_EmergencyStopRemoteSessionResult
        {| EmergencyStopRemoteSessionResult_terminated_session_count := len events |}).

Lemma emergency_spec s : wp emergency_stop (stop_outcome s) s.
Proof.
  unfold emergency_stop. apply wp_bind, wp_map_err, wp_zoom.
  eapply wp_mono; [apply terminate_all_spec|]. intros r sr (events & -> & Ha & Hs & Ht). cbn [map_err].
  wp_step. wp_step. wp_step. wp_step; [|wp_step]; exists events; split_and!; try done;
    solve [simpl; unfold stopped_bridge_status; by case_match|by case_match].
Qed.

(** * The invariant of the service *)

(** The published snapshots are ones the protocol accepts, the generation of the bridge never
    falls behind its snapshot, the registries are well formed and the pairing coordinator is the
    one of this Host's identity. *)
Record service_wf s : Prop := {
  sw_registry : registry_wf (rs_registry (hs_authorization s));
  sw_host : ar_host_device_id (rs_registry (hs_authorization s)) = own_id (hs_identity s);
  sw_sessions id k : sessions s !! id = Some k → len id = SESSION_ID_BYTES ∧ len k = DEVICE_ID_BYTES;
  sw_remote : validate_remote_session_status_snapshot (hs_remote_status s) = Ok ();
  sw_bridge : validate_privileged_bridge_status_snapshot (hs_privileged_bridge_status s) = Ok ();
  sw_generation : next_generation (hs_privileged_bridge_status s) = 0 ∨
    next_generation (hs_privileged_bridge_status s) <= hs_privileged_bridge_generation s;
  sw_pairing : Inv (hi_device_identity (hs_identity s)) (λ _ _ _, True) (hs_pairing s)
}.

Context (debug_build : bool) (requested : option text).

Lemma registry_keeps op : keeps service_wf (on_authorization (registry_exec op) : M (HostService G W R) _ _).
Proof.
  apply keeps_zoom. intros s Hs. pose proof Hs as [Hw Hh ? ? ? ? ?].
  destruct (registry_exec op (hs_authorization s)) as [r a] eqn:Hr. apply registry_exec_outcome in Hr; [|done].
  destruct Hr as ((Hha & _) & Hwa). split; try done. simpl. by rewrite Hha.
Qed.

Lemma pairing_keeps {E A} (m : M (HostPairingCoordinator G) E A) :
  (∀ host, keeps (Inv host (λ _ _ _, True)) m) →
  keeps service_wf (on_pairing m : M (HostService G W R) _ _).
Proof. intros Hm. apply keeps_zoom. intros s []. split; try done. by apply (Hm _ _ sw_pairing0). Qed.

Lemma publish_wf n s : service_wf s → service_wf (publish_pairing_snapshot n s).
Proof. intros []. unfold publish_pairing_snapshot. by repeat case_match. Qed.

Lemma published_keeps {A} (m : M (HostService G W R) PairingCoordinatorError A) :
  keeps service_wf m → keeps service_wf (published m).
Proof.
  intros Hm. unfold published. apply keeps_get. intros s0 _. apply keeps_bind; [by apply keeps_try|].
  intros r. apply keeps_bind; [|intros _; apply keeps_pure]. apply keeps_modify. intros. by apply publish_wf.
Qed.

Lemma sessions_keep {E A} (m : M SessionRegistry E A) :
  (∀ sr, wp m (λ _ sr', ∀ id k, sr_sessions sr' !! id = Some k →
     sr_sessions sr !! id = Some k ∨ (len id = SESSION_ID_BYTES ∧ len k = DEVICE_ID_BYTES)) sr) →
  keeps service_wf (on_sessions m : M (HostService G W R) _ _).
Proof.
  intros Hm. apply keeps_zoom. intros s Hs. pose proof Hs as [? ? Hss ? ? ? ?]. split; try done. simpl.
  intros id k Hk. destruct (Hm _ _ _ Hk); eauto.
Qed.

Lemma set_registry_wf sr s :
  service_wf s → (∀ id k, sr_sessions sr !! id = Some k → len id = SESSION_ID_BYTES ∧ len k = DEVICE_ID_BYTES) →
  service_wf (set_session_registry sr s).
Proof. intros [] Hsr. by split. Qed.

Lemma user_session_only_valid :
  validate_privileged_bridge_status_snapshot user_session_only_bridge_status = Ok ().
Proof. reflexivity. Qed.

Lemma stopped_valid x :
  validate_privileged_bridge_status_snapshot x = Ok () →
  validate_privileged_bridge_status_snapshot (stopped_bridge_status x) = Ok () ∧
  (next_generation (stopped_bridge_status x) = 0 ∨
   next_generation (stopped_bridge_status x) = next_generation x).
Proof.
  intros (_ & state & _ & Hx)%status_snapshot_accepted_iff. unfold stopped_bridge_status.
  destruct x as [st session connected name error]. simpl in *.
  destruct session as [d|]; simpl; [|by auto]. destruct connected; [|by auto]. split; [|by right].
  apply status_snapshot_accepted_iff. split; [done|]. exists PrivilegedBridgeState_Ready. split; [done|].
  split_and!; try done. exists d. split; [done|]. destruct state; naive_solver.
Qed.

Lemma bridge_keeps snapshot controller :
  keeps service_wf (update_privileged_bridge_status snapshot controller : M (HostService G W R) _ _).
Proof.
  intros s Hs. apply (wp_run (update_privileged_bridge_status snapshot controller) (λ _ s', service_wf s')
    s _ _ (surjective_pairing _)).
  unfold update_privileged_bridge_status. wp_step; [done|]. wp_step; [done|]. wp_step. apply wp_bind.
  apply (wp_mono _ (λ _ s', s' = s)).
  { repeat case_match; repeat (wp_step; try done). }
  intros [x|e] ? ->; [|done]. wp_step; [done|]. wp_step; [done|]. wp_step.
  destruct Hs. split; try done; simpl in *.
  - match goal with a : unit |- _ => destruct a end. by eapply res_map_err_iff.
  - destruct (next_generation x =? 0) eqn:Hg; simpl; lia.
Qed.

Lemma remote_status_keeps id k state error :
  keeps service_wf (update_remote_status id k state error : M (HostService G W R) _ _).
Proof.
  unfold update_remote_status. apply keeps_lift. intros [] Hv%res_map_err_iff.
  apply keeps_modify. by intros s [].
Qed.

Lemma revoke_keeps grant_id : keeps service_wf (revoke grant_id : M (HostService G W R) _ _).
Proof.
  intros s Hs. pose proof Hs as [Hw Hh Hss Hr Hb Hg Hp]. pose proof (revoke_spec grant_id s Hw) as Hspec.
  unfold wp in Hspec. destruct (revoke grant_id s) as [r s']. cbn [fst snd] in *.
  destruct Hspec as [((Hid & Hrs & Hbs & Hbg & Hpa & _) & Hhost & Hout) Hw'].
  split; rewrite ?Hhost, ?Hid, ?Hrs, ?Hbs, ?Hbg, ?Hpa; try done.
  destruct Hout as [(k & view & events & _ & _ & _ & -> & _)|(_ & -> & _)]; [|done].
  intros id c [Hl _]%map_lookup_filter_Some. by apply Hss in Hl.
Qed.

Lemma terminate_all_keeps reason :
  keeps service_wf (on_sessions (terminate_all reason) : M (HostService G W R) _ _).
Proof.
  apply sessions_keep. intros sr. eapply wp_mono; [apply terminate_all_spec|].
  intros r sr' (events & _ & _ & -> & _) id k. by rewrite lookup_empty.
Qed.

Lemma register_keeps id k : keeps service_wf (register_active_session id k : M (HostService G W R) _ _).
Proof.
  apply sessions_keep. intros sr. eapply wp_mono; [apply register_spec|].
  intros [[]|e] sr'; [|by intros ->; auto]. intros (? & ? & _ & -> & _) i c.
  intros [[<- <-]|[_ ?]]%lookup_insert_Some; auto.
Qed.

Lemma unregister_keeps id : keeps service_wf (unregister_active_session id : M (HostService G W R) _ _).
Proof.
  apply keeps_bind; [|intros; apply keeps_ret]. apply keeps_map_err, sessions_keep. intros sr.
  eapply wp_mono; [apply unregister_spec|].
  intros [b|e] sr'; [|by intros ->; auto]. intros (_ & -> & _) i c [_ ?]%lookup_delete_Some. auto.
Qed.

Lemma record_keeps k now :
  keeps service_wf (record_authenticated_remote_session k now : M (HostService G W R) _ _).
Proof.
  apply keeps_bind; [|intros; apply keeps_ret]. apply keeps_map_err, (registry_keeps (RO_Record k now)).
Qed.

Lemma accept_keeps id k now : keeps service_wf (accept_host_pairing id k now : M (HostService G W R) _ _).
Proof.
  apply published_keeps, keeps_zoom. intros s Hs. pose proof Hs as [Hw Hh ? ? ? ? Hp].
  pose proof (accept_spec _ _ id k now _ _ Hp Hw Hh) as Ha. unfold wp in Ha.
  destruct (accept id k now _) as [r [c a]]. cbn [fst snd] in *. destruct Ha as (Hc & Hwa & Hha & _).
  split; try done. simpl. by rewrite Hha.
Qed.

Lemma emergency_keeps : keeps service_wf (emergency_stop : M (HostService G W R) _ _).
Proof.
  unfold emergency_stop. apply keeps_bind; [apply keeps_map_err, terminate_all_keeps|intros events].
  apply keeps_bind; [apply keeps_modify; by intros s []|intros _]. apply keeps_get. intros s Hs.
  apply keeps_bind; [|intros _; by keeps]. intros s' []. unfold modify. cbn [snd].
  destruct (stopped_valid _ (sw_bridge _ Hs)) as [? Hn]. split; try done. simpl.
  destruct Hn as [->| ->]; [by left|apply Hs].
Qed.

Lemma create_keeps c ps now :
  keeps service_wf (on_authorization (create_controller_grant c ps now) : M (HostService G W R) _ _).
Proof. exact (registry_keeps (RO_Create c ps now)). Qed.

Lemma publish_keeps {E} n : keeps service_wf (modify (publish_pairing_snapshot n) : M _ E _).
Proof. apply keeps_modify. intros. by apply publish_wf. Qed.

#[local] Hint Resolve create_keeps publish_keeps pairing_keeps published_keeps revoke_keeps emergency_keeps accept_keeps : keeps.

Lemma tick_keeps {E} host now :
  keeps (Inv host (λ _ _ _, True)) (modify (tick now) : M (HostPairingCoordinator G) E _).
Proof. apply keeps_modify. intros. by apply tick_inv. Qed.

Lemma host_start_keeps host kind endpoint now :
  keeps (Inv (G:=G) host (λ _ _ _, True)) (start debug_build requested kind endpoint now).
Proof. exact (start_inv _ _ host _ kind endpoint now). Qed.

Lemma host_reject_keeps host id k now : keeps (Inv (G:=G) host (λ _ _ _, True)) (reject id k now).
Proof. exact (decline_inv host _ id k now). Qed.

Lemma cancel_keeps host id now : keeps (Inv (G:=G) host (λ _ _ _, True)) (cancel id now).
Proof. exact (cancel_inv host _ id now). Qed.

Lemma event_keeps host event signing now :
  keeps (Inv (G:=G) host (λ _ _ _, True)) (handle_signaling_event event signing now).
Proof. intros c Hc. by apply (event_inv host (λ _ _ _, True) event signing now). Qed.

#[local] Hint Resolve tick_keeps host_start_keeps host_reject_keeps cancel_keeps event_keeps : keeps.

Lemma handle_payload_keeps payload now :
  keeps service_wf (handle_payload debug_build requested payload now : M (HostService G W R) _ _).
Proof.
  unfold handle_payload. apply keeps_get. intros s _.
  destruct payload; simpl; keeps; unfold host_status, pairing_status_payload; keeps.
Qed.

(** ** Runs *)

Inductive ServiceOp :=
| SvO_Frame (frame : LocalIpcClientFrame) (now_unix_ms : Z)
| SvO_Register (session_id controller_device_id : bytes)
| SvO_Unregister (session_id : bytes)
| SvO_Record (controller_device_id : bytes) (now_unix_ms : Z)
| SvO_RemoteStatus (session_id controller_device_id : bytes) (state : SessionState)
    (error : option UnifiedError)
| SvO_BridgeStatus (snapshot : PrivilegedBridgeStatusSnapshot) (controller_device_id : option bytes)
| SvO_Maintenance (controller : DeviceIdentity) (permissions : list SessionPermission) (now_unix_ms : Z)
| SvO_SignalingConnected | SvO_SignalingLost | SvO_Shutdown
| SvO_PairingEvent (event : SignalingEvent) (now_unix_ms : Z)
| SvO_PollPairing (now_unix_ms : Z).

Definition service_step s (op : ServiceOp) : HostService G W R :=
  match op with
  | SvO_Frame frame now => (handle_frame debug_build requested frame now s).2
  | SvO_Register id k => (register_active_session id k s).2
  | SvO_Unregister id => (unregister_active_session id s).2
  | SvO_Record k now => (record_authenticated_remote_session k now s).2
  | SvO_RemoteStatus id k state error => (update_remote_status id k state error s).2
  | SvO_BridgeStatus snapshot k => (update_privileged_bridge_status snapshot k s).2
  | SvO_Maintenance c ps now => (create_controller_grant_for_maintenance c ps now s).2
  | SvO_SignalingConnected => (pairing_signaling_connected s).2
  | SvO_SignalingLost => (pairing_signaling_lost s).2
  | SvO_Shutdown => (pairing_shutdown s).2
  | SvO_PairingEvent event now => (handle_pairing_signaling_event event now s).2
  | SvO_PollPairing now => (poll_pairing_outbound now s).2
  end.

Lemma coordinator_keeps {E} host (f : HostPairingCoordinator G → HostPairingCoordinator G) :
  (∀ c, Inv host (λ _ _ _, True) c → Inv host (λ _ _ _, True) (f c)) →
  keeps (Inv host (λ _ _ _, True)) (modify f : M _ E _).
Proof. apply keeps_modify. Qed.

Lemma handle_frame_run frame now s :
  handle_frame debug_build requested frame now s =
  (reply_frame frame (frame_result debug_build requested frame now s).1,
   (frame_result debug_build requested frame now s).2).
Proof using Type. unfold handle_frame. by destruct (frame_result _ _ _ _ _). Qed.

Lemma service_step_wf op s : service_wf s → service_wf (service_step s op).
Proof.
  intros Hs. destruct op; unfold service_step.
  - rewrite handle_frame_run. revert s Hs. apply keeps_some. intros payload _. apply handle_payload_keeps.
  - by apply register_keeps.
  - by apply unregister_keeps.
  - by apply record_keeps.
  - by apply remote_status_keeps.
  - by apply bridge_keeps.
  - by apply create_keeps.
  - revert s Hs. apply pairing_keeps. intros host. apply coordinator_keeps. intros. by apply with_connected_inv.
  - revert s Hs. apply published_keeps, pairing_keeps. intros host. apply coordinator_keeps.
    intros. by apply signaling_lost_inv.
  - revert s Hs. apply published_keeps, pairing_keeps. intros host. apply coordinator_keeps.
    intros. by apply shutdown_inv.
  - revert s Hs. unfold handle_pairing_signaling_event. apply keeps_get. intros s _.
    apply published_keeps, pairing_keeps. intros host. apply event_keeps.
  - revert s Hs. unfold poll_pairing_outbound. apply keeps_bind; [eauto with keeps|intros _].
    apply pairing_keeps. intros host c Hc. by apply with_outbound_inv.
Qed.

(** ** Relations of the service

    What the local interface and the signaling runtime keep, from what the calls that touch the
    grants or the sessions keep. *)

(** The operations of the local interface and of the signaling runtime. *)
Definition is_local (op : ServiceOp) : bool :=
  match op with SvO_Register _ _ | SvO_Unregister _ | SvO_Record _ _ => false | _ => true end.

Definition is_revocation (frame : LocalIpcClientFrame) : bool :=
  match LocalIpcClientFrame_payload frame with
  | Some (LocalIpcClientFrame_Payload_RevokeControllerGrant _) => true
  | _ => false
  end.

Lemma bridge_frame x controller s :
  hs_identity (update_privileged_bridge_status x controller s).2 = hs_identity s ∧
  hs_authorization (update_privileged_bridge_status x controller s).2 = hs_authorization s ∧
  hs_sessions (update_privileged_bridge_status x controller s).2 = hs_sessions s.
Proof.
  apply (wp_run (update_privileged_bridge_status x controller) (λ _ s', hs_identity s' = hs_identity s ∧
    hs_authorization s' = hs_authorization s ∧ hs_sessions s' = hs_sessions s) s _ _ (surjective_pairing _)).
  unfold update_privileged_bridge_status. wp_step; [done|]. wp_step; [done|]. wp_step. apply wp_bind.
  apply (wp_mono _ (λ _ s', s' = s)).
  { repeat case_match; repeat (wp_step; try done). }
  intros [y|e] ? ->; [|done]. wp_step; [done|]. wp_step; [done|]. by wp_step.
Qed.

Section Relation.
Context (I : HostService G W R → Prop).
Context (I_same : ∀ E A (m : M (HostService G W R) E A), keeps service_wf m →
  (∀ s, hs_identity (m s).2 = hs_identity s ∧ hs_authorization (m s).2 = hs_authorization s ∧
        hs_sessions (m s).2 = hs_sessions s) → keeps I m).
Context (I_create : ∀ c ps now, keeps I (on_authorization (create_controller_grant c ps now))).
Context (I_accept : ∀ id k now, keeps I (accept_host_pairing id k now : M (HostService G W R) _ _)).
Context (I_emergency : keeps I (emergency_stop : M (HostService G W R) _ _)).

Lemma relation_pairing {E A} (m : M (HostPairingCoordinator G) E A) :
  (∀ host, keeps (Inv host (λ _ _ _, True)) m) → keeps I (on_pairing m : M (HostService G W R) _ _).
Proof.
  intros Hm. apply I_same; [by apply pairing_keeps|]. intros s. unfold on_pairing, zoom.
  by destruct (m (hs_pairing s)).
Qed.

Lemma relation_publish {E} n : keeps I (modify (publish_pairing_snapshot n) : M _ E _).
Proof.
  apply I_same; [by apply publish_keeps|]. intros s. unfold modify, publish_pairing_snapshot. simpl.
  by repeat case_match.
Qed.

Lemma relation_published {A} (m : M (HostService G W R) PairingCoordinatorError A) :
  keeps I m → keeps I (published m).
Proof.
  intros Hm. unfold published. apply keeps_get. intros s _. apply keeps_bind; [by apply keeps_try|].
  intros r. apply keeps_bind; [apply relation_publish|intros _; apply keeps_pure].
Qed.

#[local] Hint Resolve relation_pairing relation_publish relation_published I_create I_accept I_emergency : keeps.

Lemma relation_payload payload now :
  (∀ request, payload = LocalIpcClientFrame_Payload_RevokeControllerGrant request →
     keeps I (revoke (RevokeControllerGrantRequest_grant_id request))) →
  keeps I (handle_payload debug_build requested payload now : M (HostService G W R) _ _).
Proof.
  intros Hp. unfold handle_payload. apply keeps_get. intros s _.
  destruct payload; simpl; try (by eapply Hp); keeps;
    unfold host_status, pairing_status_payload; keeps.
Qed.

Lemma relation_local s op :
  is_local op = true →
  (∀ frame now, op = SvO_Frame frame now → is_revocation frame = true → ∀ id, keeps I (revoke id)) →
  I s → I (service_step s op).
Proof.
  intros Hop Hrev. destruct op; try discriminate Hop; unfold service_step.
  - rewrite handle_frame_run. revert s. apply keeps_some. intros payload Hp. apply relation_payload.
    intros request ->. eapply Hrev; [done|]. unfold is_revocation. by rewrite Hp.
  - revert s. apply I_same; [by apply remote_status_keeps|]. intros s.
    unfold update_remote_status. rewrite bind_lift. by case_match.
  - revert s. apply I_same; [by apply bridge_keeps|]. intros s. apply bridge_frame.
  - revert s. apply I_create.
  - revert s. apply relation_pairing. intros host. apply coordinator_keeps. intros. by apply with_connected_inv.
  - revert s. apply relation_published, relation_pairing. intros host. apply coordinator_keeps.
    intros. by apply signaling_lost_inv.
  - revert s. apply relation_published, relation_pairing. intros host. apply coordinator_keeps.
    intros. by apply shutdown_inv.
  - revert s. unfold handle_pairing_signaling_event. apply keeps_get. intros s _.
    apply relation_published, relation_pairing. intros host. apply event_keeps.
  - revert s. unfold poll_pairing_outbound. apply keeps_bind.
    + apply relation_published, relation_pairing. intros host. apply tick_keeps.
    + intros _. apply relation_pairing. intros host c Hc. by apply with_outbound_inv.
Qed.
End Relation.

(** * The bridge snapshot *)

(** The snapshot that is published for [x]: a controlled one carries the name the grants give. *)
Definition named (x : PrivilegedBridgeStatusSnapshot) (controller : option bytes) s
    (y : PrivilegedBridgeStatusSnapshot) : Prop :=
  PrivilegedBridgeStatusSnapshot_active_controller_display_name x = [] ∧
  (if bool_decide (PrivilegedBridgeState_try_from (PrivilegedBridgeStatusSnapshot_state x) =
                   Some PrivilegedBridgeState_Controlled)
   then ∃ id name, controller = Some id ∧ granted_name id s = Some name ∧ y = set_display_name name x
   else controller = None ∧ y = x).

Lemma status_state x : status_ok x →
  ∃ state, PrivilegedBridgeState_try_from (PrivilegedBridgeStatusSnapshot_state x) = Some state.
Proof.
  intros (_ & state & Hst & _). exists state. by apply (@try_from_iff _ PrivilegedBridgeState_enum).
Qed.

Definition bridge_outcome (x : PrivilegedBridgeStatusSnapshot) (controller : option bytes) s
    (r : result BridgeStatusError unit) s' : Prop :=
  match r with
  | Ok _ => ∃ y, named x controller s y ∧ status_ok y ∧
      (next_generation y = 0 ∨ hs_privileged_bridge_generation s <= next_generation y) ∧
      s' = set_bridge (if next_generation y =? 0 then hs_privileged_bridge_generation s
                       else next_generation y) y s
  | Err e => s' = s ∧
      ((e = BS_InvalidStatus ∧ ∀ y, named x controller s y → ¬ status_ok y) ∨
       (e = BS_StaleGeneration ∧ ∃ y, named x controller s y ∧ status_ok y ∧
          next_generation y ≠ 0 ∧ next_generation y < hs_privileged_bridge_generation s))
  end.

Lemma bridge_spec x controller s :
  wp (update_privileged_bridge_status x controller) (bridge_outcome x controller s) s.
Proof.
  unfold update_privileged_bridge_status, bridge_outcome.
  wp_step; [split; [done|]; left; split; [done|]; intros y [Hn _]; boolsimpl; done|]. boolsimpl.
  destruct (PrivilegedBridgeState_try_from (PrivilegedBridgeStatusSnapshot_state x)) as [state|] eqn:Hst; cycle 1.
  { wp_step; [|done]. split; [done|]. left. split; [done|]. intros y [_ Hy] [? ?]%status_state.
    rewrite Hst in Hy. naive_solver. }
  wp_step; [done|]. simplify_eq. wp_step. apply wp_bind.
  apply (wp_mono _ (λ r s', s' = s ∧ match r with
    | Ok y => named x controller s y
    | Err e => e = BS_InvalidStatus ∧ ∀ y, ¬ named x controller s y end)).
  { unfold named. rewrite Hst. repeat case_bool_decide; simplify_eq.
    - wp_step; [|wp_step]; [|by naive_solver|wp_step; naive_solver].
      naive_solver.
    - wp_step; [|wp_step]; boolsimpl; destruct controller; naive_solver. }
  intros [y|e] ? [-> Hy]; [|destruct Hy as [-> Hy]; split; [done|]; left; split; [done|]; intros y Hn; by apply Hy in Hn].
  assert (∀ y', named x controller s y' → y' = y) as Huniq.
  { intros y' [_ Hy']. destruct Hy as [_ Hy]. case_bool_decide; naive_solver. }
  pose proof (status_snapshot_accepted_iff y) as Hiff.
  destruct (validate_privileged_bridge_status_snapshot y) as [[]|e] eqn:Hv; wp_step; try done.
  - assert (status_ok y) by by apply Hiff. wp_step; [|wp_step].
    + split; [done|]. right. split; [done|]. exists y. split_and!; try done; lia.
    + exists y. split_and!; [done..|lia|]. by destruct (next_generation y =? 0).
  - split; [done|]. left. split; [by simplify_eq/=|]. intros y' Hy'%Huniq Hok. subst y'.
    apply Hiff in Hok. done.
Qed.

(** * Requests and their answers *)

(** The kind of reply a request is answered with. *)
Definition answers (payload : LocalIpcClientFrame_Payload) (reply : LocalIpcServerFrame_Payload) : bool :=
  match payload, reply with
  | LocalIpcClientFrame_Payload_GetHostStatus _, LocalIpcServerFrame_Payload_HostStatus _
  | LocalIpcClientFrame_Payload_ListControllerGrants _, LocalIpcServerFrame_Payload_ControllerGrantList _
  | LocalIpcClientFrame_Payload_CreateControllerGrant _, LocalIpcServerFrame_Payload_ControllerGrantCreated _
  | LocalIpcClientFrame_Payload_SignCanonicalTranscript _,
    LocalIpcServerFrame_Payload_CanonicalTranscriptSignature _
  | LocalIpcClientFrame_Payload_RevokeControllerGrant _, LocalIpcServerFrame_Payload_ControllerGrantRevoked _
  | LocalIpcClientFrame_Payload_SignSessionOffer _, LocalIpcServerFrame_Payload_SessionOfferSignature _
  | LocalIpcClientFrame_Payload_GetRemoteSessionStatus _, LocalIpcServerFrame_Payload_RemoteSessionStatus _
  | LocalIpcClientFrame_Payload_SignPairingTranscript _,
    LocalIpcServerFrame_Payload_PairingTranscriptSignature _
  | LocalIpcClientFrame_Payload_StartHostQrPairing _, LocalIpcServerFrame_Payload_HostPairingStatus _
  | LocalIpcClientFrame_Payload_StartHostDesktopCodePairing _, LocalIpcServerFrame_Payload_HostPairingStatus _
  | LocalIpcClientFrame_Payload_CancelHostPairing _, LocalIpcServerFrame_Payload_HostPairingStatus _
  | LocalIpcClientFrame_Payload_GetHostPairingStatus _, LocalIpcServerFrame_Payload_HostPairingStatus _
  | LocalIpcClientFrame_Payload_AcceptHostPairing _, LocalIpcServerFrame_Payload_HostPairingStatus _
  | LocalIpcClientFrame_Payload_RejectHostPairing _, LocalIpcServerFrame_Payload_HostPairingStatus _
  | LocalIpcClientFrame_Payload_EmergencyStopRemoteSession _,
    LocalIpcServerFrame_Payload_EmergencyStopRemoteSessionResult _ => true
  | _, _ => false
  end.

Lemma payload_answered payload now :
  returns (λ reply, answers payload reply = true)
    (handle_payload debug_build requested payload now : M (HostService G W R) _ _).
Proof.
  unfold handle_payload. apply returns_bind. intros s.
  destruct payload; simpl; unfold host_status, revoke, emergency_stop, pairing_status_payload;
    repeat (apply returns_bind; intros ?); first [apply returns_throw|by apply returns_ret].
Qed.

(** An error of the local interface: one of the five codes, retryable exactly when the service
    was unavailable, about the request, without details, and one the protocol accepts. *)
Definition sanitized (request_id : text) (e : UnifiedError) : Prop :=
  UnifiedError_code e ∈ to_i32 <$> [ErrorCode_InvalidRequest; ErrorCode_AuthRevoked;
    ErrorCode_ServerUnavailable; ErrorCode_AuthInvalid; ErrorCode_PairingCodeExpired] ∧
  UnifiedError_retryable e = bool_decide (UnifiedError_code e = to_i32 ErrorCode_ServerUnavailable) ∧
  UnifiedError_request_id e = request_id ∧ UnifiedError_details e = None ∧
  (text_len request_id <= MAX_REQUEST_ID_UTF8_BYTES → validate_unified_error e = Ok ()).

Lemma error_sanitized error request_id : sanitized request_id (to_unified_error error request_id).
Proof.
  assert (∀ code key retryable, code ∈ [ErrorCode_InvalidRequest; ErrorCode_AuthRevoked;
      ErrorCode_ServerUnavailable; ErrorCode_AuthInvalid; ErrorCode_PairingCodeExpired] →
    retryable = bool_decide (to_i32 code = to_i32 ErrorCode_ServerUnavailable) →
    text_len (lit key) <= MAX_MESSAGE_KEY_UTF8_BYTES →
    sanitized request_id {| UnifiedError_code := to_i32 code; UnifiedError_message_key := lit key;
      UnifiedError_retryable := retryable; UnifiedError_request_id := request_id;
      UnifiedError_details := None |}) as Hgen.
  { intros code key retryable Hc Hr Hk. unfold sanitized. cbn [UnifiedError_code UnifiedError_retryable
      UnifiedError_request_id UnifiedError_details]. split_and!; try done.
    - by apply list_elem_of_fmap_2.
    - intros Hl. unfold validate_unified_error, validate_utf8_length. simpl.
      rewrite (proj2 (Z.ltb_ge _ _)) by done. rewrite (proj2 (Z.ltb_ge _ _)) by done.
      rewrite !elem_of_cons, elem_of_nil in Hc. by destruct_or!; subst. }
  unfold to_unified_error.
  destruct error as [|[] | |[| | | |[]|] | |]; apply Hgen; first [by vm_compute|set_solver|done].
Qed.
End Effects.

(** * Signed answers *)

Section Answers.
Context `{Sha256Laws, Ed25519Laws}.

(** The fields every signed message of a session repeats from the offer. *)
Lemma offer_fields host a sdp fp registry now c ps :
  offer_ok host a sdp fp registry now c ps →
  Forall (λ f, len (tf_value f) = field_length (tf_tag f))
    [field 1 (SessionOfferAuthentication_controller_device_id a);
     field 2 (SessionOfferAuthentication_host_device_id a);
     field 8 (SessionOfferAuthentication_session_id a); field 9 (SessionOfferAuthentication_nonce a);
     field 10 (be_bytes 8 (SessionOfferAuthentication_issued_at_unix_ms a));
     field 11 (be_bytes 8 (SessionOfferAuthentication_expires_at_unix_ms a));
     field 13 (SessionOfferAuthentication_offer_sha256 a);
     field 14 (SessionOfferAuthentication_controller_dtls_fingerprint_sha256 a)] ∧
  ∃ bits, permission_bits (SessionOfferAuthentication_requested_permissions a) = Ok bits.
Proof.
  intros [(Hc & Hh & Hs & Hn & _) _ _ Hp (Ho & Hol & Hf & Hfl) _ _]. split.
  - rewrite !Forall_cons. simpl. rewrite Hc, Hh, Hs, Hn, Ho, Hol, Hf, Hfl, !len_be_bytes. done.
  - setoid_rewrite permission_bits_iff. destruct Hp as [[-> _]|[-> _]]; eauto.
Qed.

Lemma signs_own_transcript self purpose fields t :
  purpose = SessionAnswer ∨ purpose = SessionReconnect →
  identity_wf self → encode_transcript {| ct_purpose := purpose; ct_fields := fields |} = Ok t →
  (tf_value <$> find (has_tag 2) fields) = Some (own_id self) →
  ∃ signed, sign_canonical_transcript self t = Ok signed ∧
    ed25519_verify (DeviceIdentity_public_key (hi_device_identity self)) t
      (CanonicalTranscriptSignature_signature signed) = true.
Proof.
  intros Hp [Hpub _] Ht Hfind. apply fmap_Some in Hfind as (f & Hf & Hown).
  destruct (sign_request_iff self (SR_Canonical t) (ed25519_sign (hi_signing_key self) t)) as [_ Hs].
  destruct (proj1 (res_fmap _ _ _) (Hs ltac:(split; [|done]; eexists; split; [exact Ht|];
    split; [exact Hp|]; exists 2, f; done))) as (signed & Hsigned & Hsig).
  exists signed. split; [done|]. rewrite Hsig, Hpub. apply sign_verifies.
Qed.

Context {G W R : Type}.
Implicit Types s : HostService G W R.

Lemma answer_signed s a sdp fp registry now c ps answer_sdp host_fp :
  identity_wf (hs_identity s) → offer_ok (own_id (hs_identity s)) a sdp fp registry now c ps →
  len host_fp = NONCE_OR_HASH_BYTES →
  ∃ answer t, sign_remote_answer a answer_sdp host_fp s = Ok answer ∧
    answer = unsigned_answer a answer_sdp host_fp (SessionAnswerAuthentication_signature answer) ∧
    encode_session_answer_transcript answer = Ok t ∧
    ed25519_verify (DeviceIdentity_public_key (hi_device_identity (hs_identity s))) t
      (SessionAnswerAuthentication_signature answer) = true.
Proof.
  intros Hid Ho Hfp. pose proof (ok_host _ _ _ _ _ _ _ _ Ho) as Hhost.
  apply offer_fields in Ho as [Hall [bits Hb]]. rewrite !Forall_cons in Hall. destruct_and! Hall.
  assert (∃ t, ∀ signature, encode_session_answer_transcript
    (unsigned_answer a answer_sdp host_fp signature) = Ok t) as [t Ht].
  { eexists. intros signature. unfold encode_session_answer_transcript. simpl. rewrite Hb. simpl.
    rewrite map_err_encode. apply encode_Ok_iff. split; [|reflexivity]. split; [done|]. simpl.
    rewrite !Forall_cons. simpl in *. rewrite sha256_len, Hfp, len_be_bytes. by split_and!. }
  pose proof (Ht []) as He. unfold encode_session_answer_transcript in He.
  apply result_bind_Ok in He as (bits' & _ & He%map_err_encode).
  destruct (signs_own_transcript (hs_identity s) SessionAnswer _ t ltac:(by left) Hid He) as (signed & Hs & Hv).
  { simpl. by rewrite Hhost. }
  exists (unsigned_answer a answer_sdp host_fp (CanonicalTranscriptSignature_signature signed)), t.
  split_and!; [|done|apply Ht|exact Hv]. unfold sign_remote_answer. rewrite Ht. simpl. by rewrite Hs.
Qed.

Lemma reconnect_signed s a sdp fp registry now c ps answer_sdp host_fp generation :
  identity_wf (hs_identity s) → offer_ok (own_id (hs_identity s)) a sdp fp registry now c ps →
  len host_fp = NONCE_OR_HASH_BYTES →
  ∃ answer t, sign_remote_reconnect a answer_sdp host_fp generation s = Ok answer ∧
    answer = unsigned_reconnect a answer_sdp host_fp generation
               (SessionReconnectAuthentication_signature answer) ∧
    encode_session_reconnect_transcript answer = Ok t ∧
    ed25519_verify (DeviceIdentity_public_key (hi_device_identity (hs_identity s))) t
      (SessionReconnectAuthentication_signature answer) = true.
Proof.
  intros Hid Ho Hfp. pose proof (ok_host _ _ _ _ _ _ _ _ Ho) as Hhost.
  apply offer_fields in Ho as [Hall [bits Hb]]. rewrite !Forall_cons in Hall. destruct_and! Hall.
  assert (∃ t, ∀ signature, encode_session_reconnect_transcript
    (unsigned_reconnect a answer_sdp host_fp generation signature) = Ok t) as [t Ht].
  { eexists. intros signature. unfold encode_session_reconnect_transcript. simpl. rewrite Hb. simpl.
    rewrite map_err_encode. apply encode_Ok_iff. split; [|reflexivity]. split; [done|]. simpl.
    rewrite !Forall_cons. simpl in *. rewrite sha256_len, Hfp, !len_be_bytes. by split_and!. }
  pose proof (Ht []) as He. unfold encode_session_reconnect_transcript in He.
  apply result_bind_Ok in He as (bits' & _ & He%map_err_encode).
  destruct (signs_own_transcript (hs_identity s) SessionReconnect _ t ltac:(by right) Hid He) as (signed & Hs & Hv).
  { simpl. by rewrite Hhost. }
  exists (unsigned_reconnect a answer_sdp host_fp generation (CanonicalTranscriptSignature_signature signed)), t.
  split_and!; [|done|apply Ht|exact Hv]. unfold sign_remote_reconnect. rewrite Ht. simpl. by rewrite Hs.
Qed.
End Answers.

(** * Properties *)

Section Frames.
Context `{Sha256, Ed25519, X25519, HkdfSha256, Aes256Gcm}.
Context `{Message PairingMessage, Message PairingPlaintext, Message HostAuthorizationSnapshot}.
Context `{UrlParser Url} {G : Type} `{RandomSource G} {W R : Type} `{GrantStore W, RandomSource R}.

(** C36. Every frame is answered once, with its own request identifier and the supported version:
    either by the kind of reply its request asks for, or by an error that names one of five
    codes, is retryable exactly when the service was unavailable, carries no detail of the
    failure, and is one the protocol accepts whenever the request identifier is. *)
Theorem frames_answered debug_build requested (frame : LocalIpcClientFrame) (now : Z)
    (s : HostService G W R) :
  let reply := (handle_frame debug_build requested frame now s).1 in
  LocalIpcServerFrame_protocol_version reply = Some service_protocol_version ∧
  LocalIpcServerFrame_request_id reply = LocalIpcClientFrame_request_id frame ∧
  ((∃ payload answer, LocalIpcClientFrame_payload frame = Some payload ∧
      LocalIpcServerFrame_payload reply = Some answer ∧ answers payload answer = true) ∨
   ∃ e, LocalIpcServerFrame_payload reply = Some (LocalIpcServerFrame_Payload_Error e) ∧
     sanitized (LocalIpcClientFrame_request_id frame) e).
Proof.
  cbv zeta. rewrite handle_frame_run. unfold frame_result, reply_frame. cbn [fst].
  split; [done|]. split; [done|]. cbn [LocalIpcServerFrame_payload].
  destruct (_ s).1 as [answer|error] eqn:Hr; [left|right; eexists; split; [done|apply error_sanitized]].
  destruct (LocalIpcClientFrame_payload frame) as [payload|]; [|done].
  exists payload, answer. split; [done|]. split; [done|]. exact (payload_answered _ _ _ _ s answer Hr).
Qed.

End Frames.

Section Properties.
Context `{Sha256, Ed25519, X25519, HkdfSha256, Aes256Gcm}.
Context `{Message PairingMessage, Message PairingPlaintext, Message HostAuthorizationSnapshot}.
Context `{UrlParser Url} {G : Type} `{RandomSource G} {W R : Type} `{GrantStoreLaws W, RandomSource R}.
Context `{!RandomLaws R}.

Lemma service_new_wf identity (authorization : RegistryState W R) (random : G) instance_id started s :
  HostService_new identity authorization random instance_id started = Some s →
  registry_wf (rs_registry authorization) →
  ar_host_device_id (rs_registry authorization) = own_id identity → service_wf s.
Proof.
  unfold HostService_new, from_validated_host. intros Hs Hw Hh.
  destruct (with_random _ random) as [c|e] eqn:Hc; [|done]. injection Hs as <-.
  split; try done; [by left|]. by eapply with_random_Inv.
Qed.

(** C35. The service stays well formed whatever the local interface, the signaling runtime and the
    session coordinator ask of it: the status snapshots it publishes are always ones the
    protocol accepts, the generation of the bridge never falls behind its snapshot, live sessions
    have identifiers of the right size, the grant registry stays valid, and the pairing
    coordinator keeps its own invariant. *)
Theorem service_well_formed debug_build requested identity (authorization : RegistryState W R)
    (random : G) instance_id started s (ops : list ServiceOp) :
  HostService_new identity authorization random instance_id started = Some s →
  registry_wf (rs_registry authorization) →
  ar_host_device_id (rs_registry authorization) = own_id identity →
  service_wf (foldl (service_step debug_build requested) s ops).
Proof.
  intros Hn Hw Hh. pose proof (service_new_wf _ _ _ _ _ _ Hn Hw Hh) as Hs. clear Hn Hw Hh.
  revert s Hs. induction ops as [|op ops IH]; intros s Hs; [done|]. by apply IH, service_step_wf.
Qed.

(** The status of the privileged bridge is published exactly when it may be: a snapshot is
    accepted if and only if it names nobody itself, is consistent with its state, is not of an
    older graphical session than one already seen, and is controlled exactly when the device
    that controls it is given and holds a grant; the name shown is then the one of the grant,
    never one the privileged side sent. A refused snapshot changes nothing. *)
Theorem bridge_status_exact (x : PrivilegedBridgeStatusSnapshot) (controller : option bytes)
    (s : HostService G W R) :
  let '(r, s') := update_privileged_bridge_status x controller s in
  bridge_outcome x controller s r s'.
Proof.
  destruct (update_privileged_bridge_status x controller s) as [r s'] eqn:Hr.
  exact (wp_run _ _ _ _ _ Hr (bridge_spec x controller s)).
Qed.

(** C6. The two local controls do what they say, on every branch. Revoking a grant removes exactly
    the grant named and ends exactly the sessions of its controller, with one announcement each,
    or fails and changes nothing. An emergency stop ends every session with one announcement
    each, shows no remote session and no controller, and touches neither the grants nor the
    pairing. *)
Theorem local_controls_exact debug_build requested (frame : LocalIpcClientFrame) (now : Z)
    (s : HostService G W R) :
  registry_wf (rs_registry (hs_authorization s)) →
  let '(r, s') := frame_result debug_build requested frame now s in
  (∀ request, LocalIpcClientFrame_payload frame =
     Some (LocalIpcClientFrame_Payload_RevokeControllerGrant request) →
     revoke_outcome_at (RevokeControllerGrantRequest_grant_id request) s r s') ∧
  (∀ request, LocalIpcClientFrame_payload frame =
     Some (LocalIpcClientFrame_Payload_EmergencyStopRemoteSession request) → stop_outcome s r s').
Proof.
  intros Hw. destruct (frame_result debug_build requested frame now s) as [r s'] eqn:Hr.
  unfold frame_result in Hr. split; intros request Hreq; rewrite Hreq in Hr.
  - exact (proj1 (wp_run _ _ _ _ _ Hr (revoke_spec _ s Hw))).
  - exact (wp_run _ _ _ _ _ Hr (emergency_spec s)).
Qed.
End Properties.


(** * A concrete service *)

Module Example.
#[local] Existing Instances Pairing.Example.digest Pairing.Example.curve Pairing.Example.expand
  Pairing.Example.cipher Pairing.Example.snapshots Pairing.Example.parser Pairing.Example.messages
  Pairing.Example.plaintexts.

#[local] Instance digest_laws : Sha256Laws.
Proof. split. intros b. apply len_be_bytes. Qed.

#[local] Instance signature_laws : Ed25519Laws.
Proof.
  split; intros seed; [apply len_be_bytes|done|..]; intros message.
  - apply len_be_bytes.
  - unfold is_signature, toy_ed25519, ed25519_sign. by rewrite len_be_bytes.
  - unfold ed25519_verify, toy_ed25519. by apply bool_decide_eq_true_2.
Qed.

(** The Host and the controller of the pairing example, with a grant. *)
Definition peer : bytes := Pairing.Example.peer.

Definition view : ControllerGrantView :=
  {| ControllerGrantView_grant := Some
       {| ControllerGrant_grant_id := be_bytes 16 5;
          ControllerGrant_host_device_id := DeviceIdentity_device_id Pairing.Example.host;
          ControllerGrant_controller := Some Pairing.Example.controller;
          ControllerGrant_created_at_unix_ms := 1; ControllerGrant_permissions := [1; 2] |};
     ControllerGrantView_last_successful_connection_at_unix_ms := 0 |}.

Definition authorization : RegistryState MemoryGrantStore Z :=
  {| rs_registry := {| ar_host_device_id := DeviceIdentity_device_id Pairing.Example.host;
                       ar_grants_by_controller := {[ peer := view ]} |};
     rs_store := MemoryGrantStore_new; rs_random := 5 |}.

Definition service : HostService Z MemoryGrantStore Z :=
  {| hs_identity := Pairing.Example.host_key; hs_authorization := authorization;
     hs_sessions := SessionRegistry_new; hs_remote_status := idle_remote_status;
     hs_privileged_bridge_status := user_session_only_bridge_status;
     hs_privileged_bridge_generation := 0; hs_pairing := Pairing.Example.idle;
     hs_pairing_events := []; hs_pairing_activity := false; hs_instance_id := be_bytes 16 3;
     hs_started_at_unix_ms := 1000 |}.

Lemma service_created :
  HostService_new Pairing.Example.host_key authorization 1 (be_bytes 16 3) 1000 = Some service.
Proof.
  unfold HostService_new, from_validated_host.
  change (hi_device_identity Pairing.Example.host_key) with Pairing.Example.host.
  by rewrite Pairing.Example.idle_created.
Qed.

Lemma view_ok : stored_grant_ok (DeviceIdentity_device_id Pairing.Example.host) peer view.
Proof. apply validate_stored_iff. vm_compute. reflexivity. Qed.

Lemma authorization_wf : registry_wf (rs_registry authorization).
Proof.
  split; unfold authorization; cbn [rs_registry ar_host_device_id ar_grants_by_controller].
  - vm_compute. reflexivity.
  - intros k v [<- <-]%lookup_singleton_Some. exact view_ok.
  - intros id k1 v1 k2 v2 [<- _]%lookup_singleton_Some [<- _]%lookup_singleton_Some _ _. done.
  - rewrite map_size_singleton. vm_compute. discriminate.
Qed.

Definition revoke_frame : LocalIpcClientFrame :=
  {| LocalIpcClientFrame_protocol_version := Some service_protocol_version;
     LocalIpcClientFrame_request_id := lit "revoke";
     LocalIpcClientFrame_payload := Some (LocalIpcClientFrame_Payload_RevokeControllerGrant
       {| RevokeControllerGrantRequest_grant_id := be_bytes 16 5 |}) |}.

Definition live : HostService Z MemoryGrantStore Z :=
  set_session_registry {| sr_sessions := {[ be_bytes 16 1 := peer ]}; sr_terminations := [] |} service.

Lemma service_well_formed_witness :
  HostService_new Pairing.Example.host_key authorization 1 (be_bytes 16 3) 1000 = Some service ∧
  service_wf (foldl (service_step false None) service
    [SvO_Register (be_bytes 16 1) peer; SvO_Frame revoke_frame 2000]).
Proof.
  split; [exact service_created|].
  exact (service_well_formed false None _ _ _ _ _ service _ service_created authorization_wf eq_refl).
Defined.

Abbreviation revoked := (frame_result false None revoke_frame 2000 live).

(** The session of the revoked controller ends with one announcement. *)
Lemma revoked_once :
  is_ok revoked.1 = true ∧
  SessionTerminatedEvent_session_id <$> sr_terminations (hs_sessions revoked.2) = [be_bytes 16 1].
Proof. vm_compute. done. Qed.

Lemma local_controls_exact_witness :
  is_ok revoked.1 = true ∧ revoke_outcome_at (be_bytes 16 5) live revoked.1 revoked.2.
Proof.
  split; [exact (proj1 revoked_once)|].
  pose proof (local_controls_exact false None revoke_frame 2000 live authorization_wf) as Hc.
  destruct revoked as [r s']. exact (proj1 Hc _ eq_refl).
Defined.

Definition offer (signature : bytes) : SessionOfferAuthentication :=
  {| SessionOfferAuthentication_controller_device_id := peer;
     SessionOfferAuthentication_host_device_id := DeviceIdentity_device_id Pairing.Example.host;
     SessionOfferAuthentication_session_id := be_bytes 16 1;
     SessionOfferAuthentication_nonce := be_bytes 32 2;
     SessionOfferAuthentication_issued_at_unix_ms := 1000;
     SessionOfferAuthentication_expires_at_unix_ms := 2000;
     SessionOfferAuthentication_requested_permissions := [1; 2];
     SessionOfferAuthentication_offer_sha256 := sha256 (as_bytes (lit "offer"));
     SessionOfferAuthentication_controller_dtls_fingerprint_sha256 := be_bytes 32 3;
     SessionOfferAuthentication_signature := signature |}.

Definition signed_offer : SessionOfferAuthentication :=
  match encode_session_offer_transcript (offer []) with
  | Ok transcript => offer (ed25519_sign (be_bytes 32 9) transcript)
  | Err _ => offer []
  end.

Definition verifier : OfferVerifier :=
  {| ov_host_device_id := DeviceIdentity_device_id Pairing.Example.host; ov_used_nonces := ∅ |}.

Abbreviation verified :=
  (verify_remote_offer signed_offer (lit "offer") (be_bytes 32 3) 1500 (verifier, service)).

Lemma offer_verified : is_ok verified.1 = true.
Proof. vm_compute. reflexivity. Qed.

Lemma host_wf : identity_wf (hs_identity service).
Proof. split; vm_compute; reflexivity. Qed.

End Example.
