(* ===== verification/Revocation.v ===== *)
(** Revocation against session activation.

    The local interface and the session coordinator run on different threads and share the
    Host service, whose components have a lock each.  A revocation
    ([HostService::revoke], crates/host-agent/src/service.rs) takes the lock of the grants and
    then the one of the sessions; an activation (crates/host-agent/src/remote_session.rs,
    [activate_verified_session]) verifies the offer, registers the session and records the
    authenticated session under three separate locks.  [race_step] interleaves them at the
    granularity of the locks. *)
From S2P Require Import Prelude Limits Messages Validation Crypto Containers GrantStore Authorization SessionAuth Identity PairingCrypto Signaling Pairing Sessions Service.

Local Open Scope Z_scope.

(** Where the coordinator is between two critical sections of an activation. *)
Inductive Activation :=
| A_Idle
| A_Verified (session_id controller_device_id : bytes)
| A_Registered (session_id controller_device_id : bytes)
| A_Aborting (session_id : bytes).

Record Race {G W R : Type} := {
  rc_service : HostService G W R;
  rc_verifier : OfferVerifier;
  rc_revoking : list bytes;
  rc_activation : Activation
}.
Arguments Race : clear implicits.

Section Race.
Context `{Sha256, Ed25519, X25519, HkdfSha256, Aes256Gcm}.
Context `{Message PairingMessage, Message PairingPlaintext, Message HostAuthorizationSnapshot}.
Context `{UrlParser Url} {G : Type} `{RandomSource G} {W R : Type} `{GrantStoreLaws W, RandomSource R}.
Context `{!RandomLaws R} (debug_build : bool) (requested : option text).

Implicit Types r : Race G W R.

Definition with_service (s : HostService G W R) r : Race G W R :=
  {| rc_service := s; rc_verifier := rc_verifier r; rc_revoking := rc_revoking r;
     rc_activation := rc_activation r |}.
Definition with_verifier (v : OfferVerifier) r : Race G W R :=
  {| rc_service := rc_service r; rc_verifier := v; rc_revoking := rc_revoking r;
     rc_activation := rc_activation r |}.
Definition with_revoking (ks : list bytes) r : Race G W R :=
  {| rc_service := rc_service r; rc_verifier := rc_verifier r; rc_revoking := ks;
     rc_activation := rc_activation r |}.
Definition with_activation (a : Activation) r : Race G W R :=
  {| rc_service := rc_service r; rc_verifier := rc_verifier r; rc_revoking := rc_revoking r;
     rc_activation := a |}.

(** Operations of other parts of the runtime. *)
Definition unrelated (op : ServiceOp) : bool :=
  match op with
  | SvO_Frame frame _ => negb (is_revocation frame)
  | SvO_Register _ _ | SvO_Unregister _ | SvO_Record _ _ => false
  | _ => true
  end.

Inductive race_step : relation (Race G W R) :=
(** The two critical sections of a revocation. *)
| race_revoke r grant_id result a :
    revoke_controller_grant grant_id (hs_authorization (rc_service r)) = (result, a) →
    race_step r (with_revoking
      (match result with
       | Ok view => match granted_controller view with
                    | Some c => DeviceIdentity_device_id c :: rc_revoking r
                    | None => rc_revoking r end
       | Err _ => rc_revoking r
       end) (with_service (set_authorization a (rc_service r)) r))
| race_terminate r k rest result s :
    rc_revoking r ≡ₚ k :: rest →
    on_sessions (terminate_controller k) (rc_service r) = (result, s) →
    race_step r (with_revoking rest (with_service s r))
(** Any other request, and any other operation of the runtime. *)
| race_other r op :
    unrelated op = true →
    race_step r (with_service (service_step debug_build requested (rc_service r) op) r)
(** The critical sections of an activation. *)
| race_verify r a sdp fp now result verifier s :
    rc_activation r = A_Idle →
    verify_remote_offer a sdp fp now (rc_verifier r, rc_service r) = (result, (verifier, s)) →
    race_step r (with_activation
      (match result with
       | Ok v => A_Verified (vo_session_id v) (DeviceIdentity_device_id (vo_controller v))
       | Err _ => A_Idle end) (with_verifier verifier (with_service s r)))
| race_register r id k result s :
    rc_activation r = A_Verified id k →
    register_active_session id k (rc_service r) = (result, s) →
    race_step r (with_activation (if is_ok result then A_Registered id k else A_Idle)
                   (with_service s r))
| race_record r id k now result s :
    rc_activation r = A_Registered id k →
    record_authenticated_remote_session k now (rc_service r) = (result, s) →
    race_step r (with_activation (if is_ok result then A_Idle else A_Aborting id) (with_service s r))
| race_abort r id result s :
    rc_activation r = A_Aborting id →
    unregister_active_session id (rc_service r) = (result, s) →
    race_step r (with_activation A_Idle (with_service s r))
(** The end of a session whose activation completed. *)
| race_close r id result s :
    rc_activation r = A_Idle →
    unregister_active_session id (rc_service r) = (result, s) →
    race_step r (with_service s r).

(** * Growth *)

Abbreviation grants s := (ar_grants_by_controller (rs_registry (hs_authorization s))).
Abbreviation sessions s := (sr_sessions (hs_sessions s)).

(** Nothing ungranted appears: grants stay and no session is added. *)
Definition grows (s0 s : HostService G W R) : Prop :=
  service_wf s ∧ (∀ k, is_Some (grants s0 !! k) → is_Some (grants s !! k)) ∧
  ∀ id k, sessions s !! id = Some k → sessions s0 !! id = Some k.

Section Growth.
Context (s0 : HostService G W R).

Lemma grows_refl : service_wf s0 → grows s0 s0.
Proof. by intros. Qed.

(** A call that keeps the service well formed, adds no session and removes no grant. *)
Lemma grows_leaf {E A} (m : M (HostService G W R) E A) :
  keeps service_wf m →
  (∀ s, service_wf s → (∀ k, is_Some (grants s !! k) → is_Some (grants (m s).2 !! k)) ∧
     ∀ id k, sessions (m s).2 !! id = Some k → sessions s !! id = Some k) →
  keeps (grows s0) m.
Proof.
  intros Hk Hm s (Hw & Hg & Hs). destruct (Hm s Hw) as [Hg' Hs']. split_and!; [by apply Hk|eauto|eauto].
Qed.

(** Calls that touch neither the grants nor the sessions. *)
Lemma grows_same {E A} (m : M (HostService G W R) E A) :
  keeps service_wf m → (∀ s, hs_authorization (m s).2 = hs_authorization s ∧
    hs_sessions (m s).2 = hs_sessions s) → keeps (grows s0) m.
Proof. intros Hk Hm. apply grows_leaf; [done|]. intros s _. by destruct (Hm s) as [-> ->]. Qed.

Lemma insert_grown {V} (m : gmap bytes V) i x k : is_Some (m !! k) → is_Some (<[i := x]> m !! k).
Proof. intros. rewrite lookup_insert_is_Some. destruct (decide (i = k)); auto. Qed.

Lemma grows_registry op :
  (∀ id, op ≠ RO_Revoke id) →
  keeps (grows s0) (on_authorization (registry_exec op) : M (HostService G W R) _ _).
Proof.
  intros Hop. apply grows_leaf; [apply registry_keeps|]. intros s Hw. unfold on_authorization, zoom.
  destruct (registry_exec op (hs_authorization s)) as [r a] eqn:Hr.
  apply registry_exec_outcome in Hr as ((_ & Ho) & _); [|apply Hw]. simpl. split; [|done]. intros k Hk.
  destruct r as [v|e]; [|by destruct Ho as [-> _]]. destruct Ho as [He _]. destruct op as [c ps n|c n|id].
  - destruct He as (_ & _ & qs & _ & [(_ & -> & _)|(_ & -> & _)]); [done|by apply insert_grown].
  - destruct He as (old & _ & -> & _). by apply insert_grown.
  - by destruct (Hop id).
Qed.

Lemma publish_same n (s : HostService G W R) :
  hs_authorization (publish_pairing_snapshot n s) = hs_authorization s ∧
  hs_sessions (publish_pairing_snapshot n s) = hs_sessions s.
Proof. unfold publish_pairing_snapshot. by repeat case_match. Qed.

Lemma grows_accept id k now :
  keeps (grows s0) (accept_host_pairing id k now : M (HostService G W R) _ _).
Proof.
  apply grows_leaf; [apply accept_keeps|]. intros s Hw.
  pose proof (accept_spec _ _ id k now _ _ (sw_pairing _ Hw) (sw_registry _ Hw) (sw_host _ Hw)) as Ha.
  unfold accept_host_pairing, published. rewrite bind_get, bind_try, bind_run. unfold modify, wp, zoom in *.
  destruct (accept id k now _) as [r [c a]]. cbn [fst snd] in *. destruct Ha as (_ & _ & _ & Hm & _).
  destruct r; cbn [lift snd]; destruct (publish_same (hc_revision (hs_pairing s))
    (set_authorization a (set_pairing c s))) as [-> ->]; (split; [|done]); intros k' Hk'; simpl;
    (destruct Hm as [-> | (v & view & _ & _ & _ & -> & _)]; [done|by apply insert_grown]).
Qed.

Lemma grows_emergency : keeps (grows s0) (emergency_stop : M (HostService G W R) _ _).
Proof.
  apply grows_leaf; [apply emergency_keeps|]. intros s _. pose proof (emergency_spec s) as Hs. unfold wp in Hs.
  destruct (emergency_stop s) as [r s1]. cbn [fst snd] in *.
  destruct Hs as (events & _ & Hs & _ & _ & _ & _ & -> & _). split; [done|]. intros id k. by rewrite Hs, lookup_empty.
Qed.

Lemma grows_create c ps now :
  keeps (grows s0) (on_authorization (create_controller_grant c ps now) : M (HostService G W R) _ _).
Proof. exact (grows_registry (RO_Create c ps now) ltac:(done)). Qed.

End Growth.

Lemma grows_other s0 s op :
  unrelated op = true → grows s0 s → grows s0 (service_step debug_build requested s op).
Proof.
  intros Hop. apply relation_local; auto using grows_create, grows_accept, grows_emergency.
  - intros E A m Hm Hs. apply grows_same; [done|]. intros s'. apply Hs.
  - by destruct op.
  - intros frame now -> Hrev. unfold unrelated in Hop. by rewrite Hrev in Hop.
Qed.

(** * The invariant *)

(** A live session without a grant is about to end: a revocation of its controller is between
    its two critical sections, or its activation has not recorded it yet or is giving it up. *)
Definition race_inv r : Prop :=
  service_wf (rc_service r) ∧
  ∀ id k, sessions (rc_service r) !! id = Some k →
    is_Some (grants (rc_service r) !! k) ∨ k ∈ rc_revoking r ∨
    rc_activation r = A_Registered id k ∨ rc_activation r = A_Aborting id.

Lemma grown_inv r s :
  race_inv r → grows (rc_service r) s → race_inv (with_service s r).
Proof.
  intros [_ Hi] (Hw & Hg & Hs). split; [done|]. intros id k Hk.
  destruct (Hi id k (Hs id k Hk)) as [?|[?|[?|?]]]; auto.
Qed.

Lemma revoked_inv r grant_id result a :
  revoke_controller_grant grant_id (hs_authorization (rc_service r)) = (result, a) →
  race_inv r → race_inv (with_revoking
    (match result with
     | Ok view => match granted_controller view with
                  | Some c => DeviceIdentity_device_id c :: rc_revoking r
                  | None => rc_revoking r end
     | Err _ => rc_revoking r
     end) (with_service (set_authorization a (rc_service r)) r)).
Proof.
  intros Hr [Hw Hi].
  pose proof (registry_keeps (G:=G) (RO_Revoke grant_id) _ Hw) as Hw'.
  unfold on_authorization, zoom in Hw'. simpl in Hw'. rewrite Hr in Hw'. split; [done|].
  apply (registry_exec_outcome (RO_Revoke grant_id)) in Hr as ((_ & Ho) & _); [|apply Hw].
  intros id k Hk. simpl in *. specialize (Hi id k Hk). destruct result as [view|e].
  - destruct Ho as [(k0 & Hk0 & _ & ->) _].
    destruct (stored_granted _ _ _ (wf_valid _ (sw_registry _ Hw) _ _ Hk0)) as (c & -> & ->).
    destruct (decide (k = k0)) as [->|Hne]; [right; left; by left|].
    rewrite lookup_delete_ne by done. rewrite elem_of_cons. naive_solver.
  - destruct Ho as [-> _]. naive_solver.
Qed.

Lemma terminated_inv r k rest result s :
  rc_revoking r ≡ₚ k :: rest →
  on_sessions (terminate_controller k) (rc_service r) = (result, s) →
  race_inv r → race_inv (with_revoking rest (with_service s r)).
Proof.
  intros Hp Hr [Hw Hi]. unfold on_sessions, zoom in Hr.
  pose proof (terminate_controller_spec k (hs_sessions (rc_service r))) as Hs. unfold wp in Hs.
  destruct (terminate_controller k _) as [res sr]. destruct Hs as (events & _ & _ & Hm & _).
  simplify_eq/=. split.
  - destruct Hw. split; try done. simpl. intros id c. rewrite Hm.
    intros [? _]%map_lookup_filter_Some. eauto.
  - simpl. intros id c. rewrite Hm. intros [Hc Hne]%map_lookup_filter_Some. simpl in Hne.
    destruct (Hi id c Hc) as [?|[Hin|[?|?]]]; auto. rewrite Hp in Hin. set_solver.
Qed.

Lemma registered_inv r id k result s :
  rc_activation r = A_Verified id k → register_active_session id k (rc_service r) = (result, s) →
  race_inv r →
  race_inv (with_activation (if is_ok result then A_Registered id k else A_Idle) (with_service s r)).
Proof.
  intros Ha Hr [Hw Hi]. pose proof (register_keeps id k _ Hw) as Hw'. rewrite Hr in Hw'.
  split; [done|]. simpl. intros i c.
  pose proof (register_spec id k (hs_sessions (rc_service r))) as Hs.
  unfold register_active_session, on_sessions, zoom in Hr. unfold wp in Hs.
  destruct (register id k _) as [res sr]. simplify_eq/=. destruct result as [[]|e].
  - destruct Hs as (_ & _ & _ & -> & _). simpl. intros [[<- <-]|[_ Hc]]%lookup_insert_Some; [auto|].
    destruct (Hi i c Hc) as [?|[?|[?|?]]]; auto; congruence.
  - subst sr. intros Hc. destruct (Hi i c Hc) as [?|[?|[?|?]]]; auto; congruence.
Qed.

Lemma recorded_inv r id k now result s :
  rc_activation r = A_Registered id k →
  record_authenticated_remote_session k now (rc_service r) = (result, s) → race_inv r →
  race_inv (with_activation (if is_ok result then A_Idle else A_Aborting id) (with_service s r)).
Proof.
  intros Ha Hr [Hw Hi]. pose proof (record_keeps k now _ Hw) as Hw'. rewrite Hr in Hw'. split; [done|].
  unfold record_authenticated_remote_session, on_authorization in Hr. rewrite bind_map_err_zoom in Hr.
  destruct (record_authenticated_session k now _) as [res a] eqn:Hrec.
  apply (registry_exec_outcome (RO_Record k now)) in Hrec as ((_ & Ho) & _); [|apply Hw].
  unfold mret, M_ret in Hr. destruct res as [v|e]; simplify_eq/=; intros i c Hc.
  - destruct Ho as [(old & Hold & -> & _) _]. rewrite lookup_insert_is_Some'.
    destruct (Hi i c Hc) as [?|[?|[?|?]]]; try congruence; auto.
    rewrite Ha in *. simplify_eq. auto.
  - destruct Ho as [-> _]. destruct (Hi i c Hc) as [?|[?|[?|?]]]; try congruence; auto.
    right; right; right. congruence.
Qed.

(** Unregistering a session, whatever the activation is doing with it. *)
Lemma unregistered_inv r id result s :
  rc_activation r = A_Idle ∨ rc_activation r = A_Aborting id →
  unregister_active_session id (rc_service r) = (result, s) → race_inv r →
  race_inv (with_activation A_Idle (with_service s r)).
Proof.
  intros Ha Hr [Hw Hi]. pose proof (unregister_keeps id _ Hw) as Hw'. rewrite Hr in Hw'. split; [done|].
  unfold unregister_active_session, on_sessions in Hr. rewrite bind_map_err_zoom in Hr.
  pose proof (unregister_spec id (hs_sessions (rc_service r))) as Hs. unfold wp in Hs.
  pose proof (λ k, sw_sessions _ Hw id k) as Hlen.
  unfold unregister in *. rewrite bind_fail_if in Hr, Hs. destruct (negb _) eqn:Hl.
  - simplify_eq/=. intros i c Hc. specialize (Hi i c Hc). boolsimpl.
    destruct Hi as [?|[?|[?|?]]]; auto; destruct Ha as [Ha|Ha]; simplify_eq; try congruence.
    rewrite Ha in *. simplify_eq. by destruct (Hlen c Hc).
  - simpl in Hs. unfold mret, M_ret in Hr. simplify_eq/=. intros i c [Hne Hc]%lookup_delete_Some.
    destruct (Hi i c Hc) as [?|[?|[?|?]]]; auto; destruct Ha as [Ha|Ha]; congruence.
Qed.

Lemma finished_inv r id result s :
  rc_activation r = A_Idle → unregister_active_session id (rc_service r) = (result, s) → race_inv r →
  race_inv (with_service s r).
Proof.
  intros Ha Hr Hi. destruct (unregistered_inv r id result s (or_introl Ha) Hr Hi) as [Hw Hx].
  split; [done|]. intros i c Hc. destruct (Hx i c Hc) as [?|[?|[?|?]]]; auto; done.
Qed.

Lemma race_step_inv r r' : race_step r r' → race_inv r → race_inv r'.
Proof.
  intros Hstep Hi. destruct Hstep.
  - by eapply revoked_inv.
  - by eapply terminated_inv.
  - apply grown_inv; [done|]. apply grows_other; [done|]. apply grows_refl, Hi.
  - unfold verify_remote_offer in *. rewrite bind_get in *. unfold map_err_m, zoom in *.
    destruct (OfferVerifier_verify _ _ _ _ _ _) as [r0 v0]. destruct r0; simplify_eq/=;
      destruct Hi as [Hw Hi]; (split; [done|]); intros id k Hk; simpl in *;
      destruct (Hi id k Hk) as [?|[?|[?|?]]]; auto; congruence.
  - by eapply registered_inv.
  - by eapply recorded_inv.
  - eapply unregistered_inv; eauto.
  - by eapply finished_inv.
Qed.

(** A revocation of the local interface is its two critical sections in a row. *)
Lemma revoke_steps grant_id r reply s' :
  race_inv r → revoke grant_id (rc_service r) = (reply, s') →
  rtc race_step r (with_revoking (rc_revoking r) (with_service s' r)).
Proof.
  intros [Hw _] Hr. unfold revoke, on_authorization in Hr. rewrite bind_map_err_zoom in Hr.
  destruct (revoke_controller_grant grant_id (hs_authorization (rc_service r))) as [result a] eqn:Ha.
  pose proof (race_revoke r grant_id result a Ha) as Hstep.
  apply (registry_exec_outcome (RO_Revoke grant_id)) in Ha as ((_ & Ho) & _); [|apply Hw].
  destruct result as [view|e]; cycle 1.
  { simplify_eq. by eapply rtc_l. }
  destruct Ho as [(k & Hk & _) _].
  destruct (stored_granted _ _ _ (wf_valid _ (sw_registry _ Hw) _ _ Hk)) as (c & Hc & Hck).
  rewrite Hc in Hr, Hstep. eapply rtc_l; [exact Hstep|]. rewrite bind_some in Hr.
  unfold on_sessions in Hr. rewrite bind_map_err_zoom in Hr. apply rtc_once.
  destruct (terminate_controller (DeviceIdentity_device_id c) _) as [res sr] eqn:Ht.
  assert (s' = set_session_registry sr (set_authorization a (rc_service r))) as ->.
  { destruct res; [|by simplify_eq]. rewrite bind_fail_if in Hr. unfold mret, M_ret in Hr. by case_match; simplify_eq. }
  assert (on_sessions (terminate_controller (DeviceIdentity_device_id c)) (set_authorization a (rc_service r)) =
    (res, set_session_registry sr (set_authorization a (rc_service r)))) as Hon
    by (unfold on_sessions, zoom; by rewrite Ht).
  exact (race_terminate (with_revoking (DeviceIdentity_device_id c :: rc_revoking r)
    (with_service (set_authorization a (rc_service r)) r)) _ (rc_revoking r) _ _ (Permutation_refl _) Hon).
Qed.

(** C2. Revoking a controller ends its sessions, whatever an activation is doing at the same time.
    In every interleaving of requests, revocations and activations at the granularity of the
    service's locks: a live session whose controller holds no grant is one a revocation in
    progress is about to end, or one whose activation has not yet recorded it, which then fails,
    or is unregistering it; so whenever no revocation and no activation is in progress, every
    live session's controller holds a valid grant. *)
Theorem revocation_ends_sessions (s : HostService G W R) (verifier : OfferVerifier) r :
  service_wf s → (∀ id k, sessions s !! id = Some k → is_Some (grants s !! k)) →
  rtc race_step {| rc_service := s; rc_verifier := verifier; rc_revoking := [];
                   rc_activation := A_Idle |} r →
  (∀ id k, sessions (rc_service r) !! id = Some k → grants (rc_service r) !! k = None →
     k ∈ rc_revoking r ∨ rc_activation r = A_Aborting id ∨
     (rc_activation r = A_Registered id k ∧
      ∀ now, (record_authenticated_remote_session k now (rc_service r)).1 = Err RS_Authorization)) ∧
  (rc_revoking r = [] → rc_activation r = A_Idle → ∀ id k, sessions (rc_service r) !! id = Some k →
   ∃ view, grants (rc_service r) !! k = Some view ∧
     stored_grant_ok (own_id (hs_identity (rc_service r))) k view).
Proof.
  intros Hw Hs Hrtc.
  assert (race_inv r) as [Hwr Hi].
  { eapply (rtc_invariant race_step); [exact race_step_inv|exact Hrtc|]. split; [done|]. simpl. eauto. }
  split.
  - intros id k Hk Hn. destruct (Hi id k Hk) as [[? ?]|[?|[?|?]]]; [congruence|auto| |auto].
    right; right. split; [done|]. intros now. unfold record_authenticated_remote_session, on_authorization.
    rewrite bind_map_err_zoom. unfold record_authenticated_session. rewrite bind_get.
    unfold controller_grant. by rewrite Hn.
  - intros Hrev Hact id k Hk. rewrite Hrev, Hact in Hi.
    destruct (Hi id k Hk) as [[view Hv]|[Hin|[?|?]]]; [|by apply elem_of_nil in Hin|done..].
    exists view. split; [done|]. rewrite <- (sw_host _ Hwr). by apply (wf_valid _ (sw_registry _ Hwr)).
Qed.
End Race.

(** * A concrete race *)

Module Example.
#[local] Existing Instances Pairing.Example.digest Pairing.Example.curve Pairing.Example.expand
  Pairing.Example.cipher Pairing.Example.snapshots Pairing.Example.parser Pairing.Example.messages
  Pairing.Example.plaintexts.

Abbreviation live := Service.Example.live.
Abbreviation peer := Service.Example.peer.

Lemma live_sessions id k :
  sr_sessions (hs_sessions live) !! id = Some k → len id = SESSION_ID_BYTES ∧ len k = DEVICE_ID_BYTES.
Proof.
  unfold Service.Example.live. cbn [hs_sessions set_session_registry sr_sessions].
  intros [<- <-]%lookup_singleton_Some. split; vm_compute; reflexivity.
Qed.

Lemma live_wf : service_wf live.
Proof.
  pose proof (service_new_wf _ _ _ _ _ _ Service.Example.service_created
                Service.Example.authorization_wf eq_refl) as Hw.
  exact (set_registry_wf _ _ Hw live_sessions).
Qed.

Lemma live_granted id k :
  sr_sessions (hs_sessions live) !! id = Some k →
  is_Some (ar_grants_by_controller (rs_registry (hs_authorization live)) !! k).
Proof.
  unfold Service.Example.live. cbn [hs_sessions set_session_registry sr_sessions].
  intros [_ <-]%lookup_singleton_Some. exists Service.Example.view. apply lookup_singleton_eq.
Qed.

Definition start_race : Race Z MemoryGrantStore Z :=
  {| rc_service := live; rc_verifier := Service.Example.verifier; rc_revoking := [];
     rc_activation := A_Idle |}.

Abbreviation ended := (revoke (be_bytes 16 5) live).

Abbreviation ended_race := (with_revoking [] (with_service ended.2 start_race)).

Lemma ended_run : rtc (race_step false None) start_race ended_race.
Proof.
  apply (revoke_steps false None (be_bytes 16 5) start_race ended.1 ended.2 ).
  - split; [exact live_wf|]. intros id k Hk. left. by apply live_granted in Hk.
  - apply surjective_pairing.
Qed.

Lemma revocation_ends_sessions_witness :
  rtc (race_step false None) start_race ended_race ∧
  ∀ id k, sr_sessions (hs_sessions ended.2) !! id = Some k →
    ∃ view, ar_grants_by_controller (rs_registry (hs_authorization ended.2)) !! k = Some view ∧
      stored_grant_ok (own_id (hs_identity ended.2)) k view.
Proof.
  split; [exact ended_run|].
  exact (proj2 (revocation_ends_sessions false None live Service.Example.verifier
    ended_race live_wf live_granted ended_run) eq_refl eq_refl).
Defined.
End Example.
