(* ===== verification/RemoteSession.v ===== *)
(** The remote session engine of the Host agent, crates/host-agent/src/remote_session.rs with
    remote_session_state.rs and remote_reconnect.rs.

    [RemoteSessionCoordinator] admits one remote session at a time: it collects the signed offer,
    the description and the candidates of one Controller, verifies them with the service, runs
    the Host's peer session ([HostPeerSession]) over the platform's parts, and holds the session
    through signaling loss and graphical session changes, frozen, for a bounded time.

    The factory, and the peer, the input sink and the event source of the parts it creates, are
    the operations of the classes [PeerBackend], [RemoteInputSink] and [RemoteSessionFactory]
    over one world: parts are created only while no session is active, and at most one session
    owns them.  [HostService] is shared with the local interface; between two operations of the
    coordinator its state is whatever that interface left. *)
From S2P Require Import Prelude Limits Messages Validation Crypto Containers Transcript GrantStore Authorization SessionAuth Identity PairingCrypto Signaling Pairing Sessions Service Webrtc PeerSession.

Local Open Scope Z_scope.

(** * Data *)

Definition MAX_PENDING_ICE_CANDIDATES : Z := 64.
Definition MAX_PENDING_ICE_BYTES : Z := 65536.
Definition PENDING_SESSION_LIFETIME_MS : Z := 30000.
Definition ACTIVE_RECONNECT_LIFETIME_MS : Z := 45000.
Definition LOCAL_TERMINATION_REQUEST_ID : string := "host-termination".
Definition MAX_EVENTS : nat := 64.

Inductive RemotePeerEvent :=
| RPE_Connected | RPE_Disconnected | RPE_Failed | RPE_LocalStop
| RPE_LocalIceCandidate (candidate : PeerIceCandidate)
| RPE_ReliableInput (encoded : bytes) | RPE_FastPointer (encoded : bytes).

Inductive RemoteSessionError :=
| RSE_InvalidEnvelope | RSE_DeviceBusy | RSE_Authentication | RSE_Authorization | RSE_Replay
| RSE_PendingIceLimit | RSE_Peer | RSE_Input | RSE_InputPermission | RSE_Service | RSE_Closed.

#[export] Instance RemoteSessionError_eq_dec : EqDecision RemoteSessionError.
Proof. solve_decision. Defined.

Record RemoteSessionContext := {
  rx_session_id : bytes;
  rx_permissions : list SessionPermission;
  rx_controller_display_name : text
}.

Definition from_verified (verified : VerifiedSessionOffer) : RemoteSessionContext :=
  {| rx_session_id := vo_session_id verified; rx_permissions := vo_permissions verified;
     rx_controller_display_name := DeviceIdentity_display_name (vo_controller verified) |}.

(** [RemoteSessionFactory] and [RemotePeerEventSource]: what creates the parts of a session, and
    the events of the parts created last. *)
Class RemoteSessionFactory (V : Type) := {
  factory_create : SessionConfig → RemoteSessionContext → M V RemoteSessionError unit;
  events_try_recv : M V RemoteSessionError (option RemotePeerEvent)
}.

Record RemoteSessionOutbound := {
  ro_recipient_device_id : bytes;
  ro_opaque_envelope : bytes
}.

Record PendingSession := {
  ps_controller_device_id : bytes;
  ps_session_id : bytes;
  ps_request_id : text;
  ps_created_at_unix_ms : Z;
  ps_authentication : option SessionOfferAuthentication;
  ps_description : option WebRtcSessionDescription;
  ps_candidates : list PeerIceCandidate;
  ps_candidate_bytes : Z
}.

Definition PendingSession_new (controller_device_id session_id : bytes) (request_id : text)
    (created_at_unix_ms : Z) : PendingSession :=
  {| ps_controller_device_id := controller_device_id; ps_session_id := session_id;
     ps_request_id := request_id; ps_created_at_unix_ms := created_at_unix_ms;
     ps_authentication := None; ps_description := None; ps_candidates := [];
     ps_candidate_bytes := 0 |}.

Definition set_request (request_id : text) (p : PendingSession) : PendingSession :=
  {| ps_controller_device_id := ps_controller_device_id p; ps_session_id := ps_session_id p;
     ps_request_id := request_id; ps_created_at_unix_ms := ps_created_at_unix_ms p;
     ps_authentication := ps_authentication p; ps_description := ps_description p;
     ps_candidates := ps_candidates p; ps_candidate_bytes := ps_candidate_bytes p |}.

Definition set_offer (authentication : option SessionOfferAuthentication)
    (description : option WebRtcSessionDescription) (p : PendingSession) : PendingSession :=
  {| ps_controller_device_id := ps_controller_device_id p; ps_session_id := ps_session_id p;
     ps_request_id := ps_request_id p; ps_created_at_unix_ms := ps_created_at_unix_ms p;
     ps_authentication := authentication; ps_description := description;
     ps_candidates := ps_candidates p; ps_candidate_bytes := ps_candidate_bytes p |}.

Definition set_candidates (candidates : list PeerIceCandidate) (candidate_bytes : Z)
    (p : PendingSession) : PendingSession :=
  {| ps_controller_device_id := ps_controller_device_id p; ps_session_id := ps_session_id p;
     ps_request_id := ps_request_id p; ps_created_at_unix_ms := ps_created_at_unix_ms p;
     ps_authentication := ps_authentication p; ps_description := ps_description p;
     ps_candidates := candidates; ps_candidate_bytes := candidate_bytes |}.

Definition candidate_size (candidate : PeerIceCandidate) : Z :=
  text_len (pic_candidate candidate) + text_len (pic_sdp_mid candidate).

(** The lengths are of strings in memory: [checked_add] on usize, taken to have 64 bits. *)
Definition push_candidate (candidate : PeerIceCandidate)
    : M PendingSession RemoteSessionError unit :=
  self ← get;
  length ← ok_or (checked_add U64_MAX (text_len (pic_candidate candidate))
                    (text_len (pic_sdp_mid candidate))) RSE_PendingIceLimit;
  candidate_bytes ← ok_or (checked_add U64_MAX length (ps_candidate_bytes self)) RSE_PendingIceLimit;
  fail_if ((MAX_PENDING_ICE_CANDIDATES <=? len (ps_candidates self)) ||
           (MAX_PENDING_ICE_BYTES <? candidate_bytes)) RSE_PendingIceLimit;;
  put (set_candidates (ps_candidates self ++ [candidate]) candidate_bytes self).

Definition is_ready (self : PendingSession) : bool :=
  is_some (ps_authentication self) && is_some (ps_description self).

Record FailedSessionAttempt := {
  fa_controller_device_id : bytes;
  fa_session_id : bytes;
  fa_failed_at_unix_ms : Z
}.

Definition FailedSessionAttempt_matches (controller_device_id session_id : bytes)
    (self : FailedSessionAttempt) : bool :=
  bool_decide (fa_controller_device_id self = controller_device_id) &&
  bool_decide (fa_session_id self = session_id).

Definition is_expired (now_unix_ms : Z) (self : FailedSessionAttempt) : bool :=
  PENDING_SESSION_LIFETIME_MS <? saturating_sub now_unix_ms (fa_failed_at_unix_ms self).

(** The peer, the input sink and the events of the session are in the world. *)
Record ActiveSession := {
  as_controller_device_id : bytes;
  as_session_id : bytes;
  as_session : HostPeerSession;
  as_reconnect : option PendingSession;
  as_reconnect_generation : Z;
  as_reconnect_deadline_unix_ms : option Z
}.

Definition set_session (session : HostPeerSession) (a : ActiveSession) : ActiveSession :=
  {| as_controller_device_id := as_controller_device_id a; as_session_id := as_session_id a;
     as_session := session; as_reconnect := as_reconnect a;
     as_reconnect_generation := as_reconnect_generation a;
     as_reconnect_deadline_unix_ms := as_reconnect_deadline_unix_ms a |}.

Definition set_reconnect (reconnect : option PendingSession) (a : ActiveSession) : ActiveSession :=
  {| as_controller_device_id := as_controller_device_id a; as_session_id := as_session_id a;
     as_session := as_session a; as_reconnect := reconnect;
     as_reconnect_generation := as_reconnect_generation a;
     as_reconnect_deadline_unix_ms := as_reconnect_deadline_unix_ms a |}.

Definition set_generation (generation : Z) (a : ActiveSession) : ActiveSession :=
  {| as_controller_device_id := as_controller_device_id a; as_session_id := as_session_id a;
     as_session := as_session a; as_reconnect := as_reconnect a;
     as_reconnect_generation := generation;
     as_reconnect_deadline_unix_ms := as_reconnect_deadline_unix_ms a |}.

Definition set_deadline (deadline : option Z) (a : ActiveSession) : ActiveSession :=
  {| as_controller_device_id := as_controller_device_id a; as_session_id := as_session_id a;
     as_session := as_session a; as_reconnect := as_reconnect a;
     as_reconnect_generation := as_reconnect_generation a;
     as_reconnect_deadline_unix_ms := deadline |}.

Record StartedSession := {
  ss_controller_device_id : bytes;
  ss_session_id : bytes;
  ss_answer : PeerAnswer;
  ss_answer_authentication : SessionAnswerAuthentication
}.

Record RestartedSession := {
  rr_controller_device_id : bytes;
  rr_session_id : bytes;
  rr_answer : PeerAnswer;
  rr_authentication : SessionReconnectAuthentication
}.

Record RemoteSessionCoordinator {G W R V : Type} := {
  co_service : HostService G W R;
  co_verifier : OfferVerifier;
  co_config : SessionConfig;
  co_pending : option PendingSession;
  co_failed_attempt : option FailedSessionAttempt;
  co_active : option ActiveSession;
  co_closed : bool;
  co_world : V
}.
Arguments RemoteSessionCoordinator : clear implicits.

(** * Errors *)

Definition message_key (code : ErrorCode) : string :=
  match code with
  | ErrorCode_DeviceBusy => "remote_session.device_busy"
  | ErrorCode_AuthInvalid => "remote_session.authentication_failed"
  | ErrorCode_AuthRevoked => "remote_session.authorization_revoked"
  | ErrorCode_SessionReplayed => "remote_session.replayed"
  | ErrorCode_IceFailed => "remote_session.ice_failed"
  | ErrorCode_InputInjectionFailed => "remote_session.input_failed"
  | ErrorCode_ServerUnavailable => "remote_session.temporarily_unavailable"
  | _ => "remote_session.failed"
  end.

Definition retryable_code (code : ErrorCode) : bool :=
  match code with ErrorCode_DeviceBusy | ErrorCode_ServerUnavailable => true | _ => false end.

Definition session_error (code : ErrorCode) : UnifiedError :=
  {| UnifiedError_code := to_i32 code; UnifiedError_message_key := lit (message_key code);
     UnifiedError_retryable := retryable_code code; UnifiedError_request_id := [];
     UnifiedError_details := None |}.

Definition protocol_error_for (error : RemoteSessionError) : ErrorCode :=
  match error with
  | RSE_DeviceBusy => ErrorCode_DeviceBusy
  | RSE_Authentication => ErrorCode_AuthInvalid
  | RSE_Authorization => ErrorCode_AuthRevoked
  | RSE_Replay => ErrorCode_SessionReplayed
  | RSE_PendingIceLimit | RSE_InvalidEnvelope => ErrorCode_InvalidRequest
  | RSE_Input => ErrorCode_InputInjectionFailed
  | RSE_InputPermission => ErrorCode_InputPermissionRequired
  | RSE_Peer => ErrorCode_CaptureFailed
  | RSE_Service | RSE_Closed => ErrorCode_ServerUnavailable
  end.

Definition map_service_error (error : RemoteServiceError) : RemoteSessionError :=
  match error with
  | RS_Authentication SA_Replay => RSE_Replay
  | RS_Authentication (SA_ControllerNotAuthorized | SA_PermissionDenied) => RSE_Authorization
  | RS_Authentication _ => RSE_Authentication
  | RS_Authorization | RS_Identity | RS_Session | RS_InvalidStatus | RS_Unavailable => RSE_Service
  end.

Definition map_peer_error (error : HostWebRtcError) : RemoteSessionError :=
  match error with
  | HW_InputPermissionDenied => RSE_InputPermission
  | HW_InputFailure => RSE_Input
  | _ => RSE_Peer
  end.

Definition session_protocol_version : ProtocolVersion :=
  {| ProtocolVersion_major := 1; ProtocolVersion_minor := MINIMUM_PROTOCOL_MINOR_VERSION |}.

Section Coordinator.
Context `{Sha256, Ed25519, X25519, HkdfSha256, Aes256Gcm}.
Context `{Message PairingMessage, Message PairingPlaintext, Message HostAuthorizationSnapshot}.
Context `{Message ReliableInputEnvelope, Message PointerFastEnvelope, Message SignalingEnvelope}.
Context `{UrlParser Url} {G : Type} `{RandomSource G} {W R : Type} `{GrantStore W, RandomSource R}.
Context {V : Type} `{PeerBackend V, RemoteInputSink V, RemoteSessionFactory V}.

Abbreviation CO := (RemoteSessionCoordinator G W R V).
Abbreviation CM A := (M CO RemoteSessionError A).
Abbreviation HS := (HostService G W R).

(** ** Fields *)

Definition set_service (x : HS) (s : CO) : CO :=
  {| co_service := x; co_verifier := co_verifier s; co_config := co_config s;
     co_pending := co_pending s; co_failed_attempt := co_failed_attempt s;
     co_active := co_active s; co_closed := co_closed s; co_world := co_world s |}.

Definition set_verifier (x : OfferVerifier) (s : CO) : CO :=
  {| co_service := co_service s; co_verifier := x; co_config := co_config s;
     co_pending := co_pending s; co_failed_attempt := co_failed_attempt s;
     co_active := co_active s; co_closed := co_closed s; co_world := co_world s |}.

Definition set_pending (x : option PendingSession) (s : CO) : CO :=
  {| co_service := co_service s; co_verifier := co_verifier s; co_config := co_config s;
     co_pending := x; co_failed_attempt := co_failed_attempt s;
     co_active := co_active s; co_closed := co_closed s; co_world := co_world s |}.

Definition set_failed_attempt (x : option FailedSessionAttempt) (s : CO) : CO :=
  {| co_service := co_service s; co_verifier := co_verifier s; co_config := co_config s;
     co_pending := co_pending s; co_failed_attempt := x;
     co_active := co_active s; co_closed := co_closed s; co_world := co_world s |}.

Definition set_active (x : option ActiveSession) (s : CO) : CO :=
  {| co_service := co_service s; co_verifier := co_verifier s; co_config := co_config s;
     co_pending := co_pending s; co_failed_attempt := co_failed_attempt s;
     co_active := x; co_closed := co_closed s; co_world := co_world s |}.

Definition set_closed (x : bool) (s : CO) : CO :=
  {| co_service := co_service s; co_verifier := co_verifier s; co_config := co_config s;
     co_pending := co_pending s; co_failed_attempt := co_failed_attempt s;
     co_active := co_active s; co_closed := x; co_world := co_world s |}.

Definition set_world (x : V) (s : CO) : CO :=
  {| co_service := co_service s; co_verifier := co_verifier s; co_config := co_config s;
     co_pending := co_pending s; co_failed_attempt := co_failed_attempt s;
     co_active := co_active s; co_closed := co_closed s; co_world := x |}.

(** A call on the service, on the service with the verifier, and on the world. *)
Definition on_service {E A} (m : M HS E A) : M CO E A := zoom co_service set_service m.

Definition on_verifier {E A} (m : M (OfferVerifier * HS) E A) : M CO E A :=
  zoom (λ s, (co_verifier s, co_service s)) (λ p s, set_verifier p.1 (set_service p.2 s)) m.

Definition on_world {E A} (m : M V E A) : M CO E A := zoom co_world set_world m.

(** [let _ = ...]. *)
Definition ignored {E A} (m : M CO E A) : CM unit := λ s, (Ok (), (m s).2).

(** A call on a session that is not in the coordinator yet, or no longer. *)
Definition on_session {A} (session : HostPeerSession)
    (m : M (HostPeerSession * V) HostWebRtcError A)
    : CM (result HostWebRtcError A * HostPeerSession) := λ s,
  let '(r, (session', w)) := m (session, co_world s) in (Ok (r, session'), set_world w s).

(** An update of the active session, and a call on its peer session. *)
Definition update_active (f : ActiveSession → ActiveSession) : CM unit :=
  modify (λ s, set_active (f <$> co_active s) s).

Definition on_active {A} (active : ActiveSession) (m : M (HostPeerSession * V) HostWebRtcError A)
    : CM (result HostWebRtcError A) :=
  '(r, session) ← on_session (as_session active) m;
  update_active (set_session session);;
  mret r.

(** The end of a peer session's life: its [close], whose result is ignored, and its [Drop]. *)
Definition discard_session (session : HostPeerSession) : CM unit :=
  '(_, session) ← on_session session HostPeerSession_close;
  on_session session HostPeerSession_close;;
  mret ().

Definition with_config (service : HS) (config : SessionConfig) (factory : V)
    : result RemoteSessionError CO :=
  verifier ← map_err (λ _, RSE_Authentication)
    (OfferVerifier_new (DeviceIdentity_device_id (hi_device_identity (hs_identity service))));
  mret {| co_service := service; co_verifier := verifier; co_config := config;
          co_pending := None; co_failed_attempt := None; co_active := None;
          co_closed := false; co_world := factory |}.

Definition RemoteSessionCoordinator_new (service : HS) (factory : V) : result RemoteSessionError CO :=
  with_config service {| ice_transport_policy := ITP_All |} factory.

Definition host_device_id (self : CO) : bytes :=
  DeviceIdentity_device_id (hi_device_identity (hs_identity (co_service self))).

(** ** Envelopes to the Controller *)

Definition outbound_envelope (recipient_device_id : bytes) (request_id : text) (now_unix_ms : Z)
    (payload : SignalingEnvelope_Payload) (self : CO) : SignalingEnvelope :=
  {| SignalingEnvelope_protocol_version := Some session_protocol_version;
     SignalingEnvelope_sender_device_id := host_device_id self;
     SignalingEnvelope_recipient_device_id := recipient_device_id;
     SignalingEnvelope_request_id := request_id;
     SignalingEnvelope_sent_at_unix_ms := now_unix_ms;
     SignalingEnvelope_payload := Some payload |}.

Definition outbound (recipient_device_id : bytes) (request_id : text) (now_unix_ms : Z)
    (payload : SignalingEnvelope_Payload) : CM RemoteSessionOutbound :=
  self ← get;
  let opaque_envelope :=
    encode_to_vec (outbound_envelope recipient_device_id request_id now_unix_ms payload self) in
  fail_if (MAX_OPAQUE_SIGNALING_ENVELOPE_BYTES <? len opaque_envelope) RSE_InvalidEnvelope;;
  mret {| ro_recipient_device_id := recipient_device_id; ro_opaque_envelope := opaque_envelope |}.

Definition error_outbound (recipient_device_id : bytes) (request_id : text) (code : ErrorCode)
    (now_unix_ms : Z) : CM RemoteSessionOutbound :=
  outbound recipient_device_id request_id now_unix_ms
    (SignalingEnvelope_Payload_Error
       {| UnifiedError_code := to_i32 code; UnifiedError_message_key := lit (message_key code);
          UnifiedError_retryable := retryable_code code; UnifiedError_request_id := request_id;
          UnifiedError_details := None |}).

(** ** The end of the active session *)

Definition close_active (final_error : option UnifiedError) : CM unit :=
  self ← get;
  modify (set_active None);;
  match co_active self with
  | None =>
      if is_some final_error then mret () else
      map_err_m (λ _, RSE_Service) (on_service (update_remote_status [] [] SessionState_Idle None))
  | Some active =>
      ignored (on_service (update_remote_status (as_session_id active)
                 (as_controller_device_id active) SessionState_Closing None));;
      '(close_result, session) ← on_session (as_session active) HostPeerSession_close;
      unregister_result ← try (on_service (unregister_active_session (as_session_id active)));
      status_result ← try (on_service
        (match final_error with
         | Some error => update_remote_status (as_session_id active)
             (as_controller_device_id active) SessionState_Failed (Some error)
         | None => update_remote_status [] [] SessionState_Idle None
         end));
      on_session session HostPeerSession_close;;
      lift (map_err map_peer_error close_result;;
            map_err (λ _, RSE_Service) unregister_result;;
            map_err (λ _, RSE_Service) status_result)
  end.

Definition expire_active_reconnect (now_unix_ms : Z) : CM bool :=
  self ← get;
  let expired :=
    match active ← co_active self; as_reconnect_deadline_unix_ms active with
    | Some deadline => deadline <=? now_unix_ms
    | None => false
    end in
  (if expired then close_active (Some (session_error ErrorCode_IceFailed)) else mret ());;
  mret expired.

Definition termination_status (session_id : bytes) : SignalingEnvelope_Payload :=
  SignalingEnvelope_Payload_SessionStatus
    {| SessionStatus_session_id := session_id; SessionStatus_state := to_i32 SessionState_Closing;
       SessionStatus_error := None |}.

Definition close_active_with_remote_notification (now_unix_ms : Z)
    (final_error : option UnifiedError) : CM (list RemoteSessionOutbound) :=
  self ← get;
  match co_active self with
  | None => mret []
  | Some active =>
      outbound ← outbound (as_controller_device_id active) (lit LOCAL_TERMINATION_REQUEST_ID)
        now_unix_ms (termination_status (as_session_id active));
      close_active final_error;;
      mret [outbound]
  end.

Definition termination_error (reason : Z) : option UnifiedError :=
  match ErrorCode_try_from reason with
  | Some ErrorCode_LocalEmergencyStop => None
  | Some ErrorCode_Unspecified | None => Some (session_error ErrorCode_AuthRevoked)
  | Some reason => Some (session_error reason)
  end.

Definition handle_termination (event : SessionTerminatedEvent) (now_unix_ms : Z)
    : CM (list RemoteSessionOutbound) :=
  self ← get;
  match co_active self with
  | Some active =>
      if bool_decide (as_session_id active = SessionTerminatedEvent_session_id event) &&
         bool_decide (as_controller_device_id active =
                      SessionTerminatedEvent_controller_device_id event)
      then close_active_with_remote_notification now_unix_ms
             (termination_error (SessionTerminatedEvent_reason event))
      else mret []
  | None => mret []
  end.

(** ** The start of a session *)

Definition PendingSession_matches (controller_device_id session_id : bytes) (p : PendingSession)
    : bool :=
  bool_decide (ps_controller_device_id p = controller_device_id) &&
  bool_decide (ps_session_id p = session_id).

Definition expire_pending (now_unix_ms : Z) : CM unit :=
  modify (λ s,
    if match co_pending s with
       | Some pending => PENDING_SESSION_LIFETIME_MS <?
                           saturating_sub now_unix_ms (ps_created_at_unix_ms pending)
       | None => false end
    then set_pending None s else s);;
  modify (λ s,
    if match co_failed_attempt s with
       | Some attempt => is_expired now_unix_ms attempt
       | None => false end
    then set_failed_attempt None s else s).

Definition prepare_pending (controller_device_id session_id : bytes) (request_id : text)
    (now_unix_ms : Z) : CM bool :=
  self ← get;
  match co_pending self with
  | Some pending =>
      if PendingSession_matches controller_device_id session_id pending then
        modify (set_pending (Some (set_request request_id pending)));;
        mret true
      else mret false
  | None =>
      modify (set_pending (Some
        (PendingSession_new controller_device_id session_id request_id now_unix_ms)));;
      mret true
  end.

Fixpoint add_candidates (candidates : list PeerIceCandidate) (session : HostPeerSession)
    : CM (bool * HostPeerSession) :=
  match candidates with
  | [] => mret (true, session)
  | candidate :: candidates =>
      '(result, session) ← on_session session (HostPeerSession_add_remote_ice_candidate candidate);
      if is_ok result then add_candidates candidates session else mret (false, session)
  end.

(** The part of [activate_verified_session] once the answer is signed: the session is registered,
    recorded, given its candidates and published; a failure takes back what was done. *)
Definition register_verified_session (candidates : list PeerIceCandidate)
    (verified : VerifiedSessionOffer) (session : HostPeerSession) (answer : PeerAnswer)
    (answer_authentication : SessionAnswerAuthentication) (now_unix_ms : Z) : CM StartedSession :=
  let session_id := vo_session_id verified in
  let controller_device_id := DeviceIdentity_device_id (vo_controller verified) in
  registered ← try (on_service (register_active_session session_id controller_device_id));
  if negb (is_ok registered) then discard_session session;; mthrow RSE_Service else
  recorded ← try (on_service (record_authenticated_remote_session controller_device_id now_unix_ms));
  match recorded with
  | Err error =>
      ignored (on_service (unregister_active_session session_id));;
      discard_session session;;
      mthrow (map_service_error error)
  | Ok _ =>
  '(added, session) ← add_candidates candidates session;
  if negb added then
    ignored (on_service (unregister_active_session session_id));;
    discard_session session;;
    mthrow RSE_Peer
  else
  status ← try (on_service
    (update_remote_status session_id controller_device_id SessionState_Connecting None));
  if negb (is_ok status) then
    ignored (on_service (unregister_active_session session_id));;
    discard_session session;;
    mthrow RSE_Service
  else
  modify (set_active (Some
    {| as_controller_device_id := controller_device_id; as_session_id := session_id;
       as_session := session; as_reconnect := None; as_reconnect_generation := 0;
       as_reconnect_deadline_unix_ms := None |}));;
  mret {| ss_controller_device_id := controller_device_id; ss_session_id := session_id;
          ss_answer := answer; ss_answer_authentication := answer_authentication |}
  end.

Definition activate_verified_session (authentication : SessionOfferAuthentication)
    (description : WebRtcSessionDescription) (candidates : list PeerIceCandidate)
    (verified : VerifiedSessionOffer) (now_unix_ms : Z) : CM StartedSession :=
  self ← get;
  on_world (factory_create (co_config self) (from_verified verified));;
  session ← lift (map_err map_peer_error
    (HostPeerSession_new (vo_session_id verified) (vo_permissions verified) (co_config self)));
  '(answer, session) ← on_session session
    (HostPeerSession_accept_offer (WebRtcSessionDescription_sdp description));
  match answer with
  | Err error => discard_session session;; mthrow (map_peer_error error)
  | Ok answer =>
  match sign_remote_answer authentication (pa_sdp answer) (pa_dtls_fingerprint_sha256 answer)
          (co_service self) with
  | Err error => discard_session session;; mthrow (map_service_error error)
  | Ok answer_authentication =>
  register_verified_session candidates verified session answer answer_authentication now_unix_ms
  end
  end.

Definition answer_description (session_id : bytes) (answer : PeerAnswer)
    : SignalingEnvelope_Payload :=
  SignalingEnvelope_Payload_WebrtcNegotiation
    {| WebRtcNegotiation_session_id := session_id;
       WebRtcNegotiation_payload := Some (WebRtcNegotiation_Payload_Description
         {| WebRtcSessionDescription_type := to_i32 SessionDescriptionType_Answer;
            WebRtcSessionDescription_sdp := pa_sdp answer;
            WebRtcSessionDescription_dtls_fingerprint_sha256 := pa_dtls_fingerprint_sha256 answer |}) |}.

Definition authentication_payload (payload : SessionAuthentication_Payload)
    : SignalingEnvelope_Payload :=
  SignalingEnvelope_Payload_SessionAuthentication
    {| SessionAuthentication_payload := Some payload |}.

Definition start_pending (pending : PendingSession) (now_unix_ms : Z)
    : CM (list RemoteSessionOutbound) :=
  authentication ← ok_or (ps_authentication pending) RSE_InvalidEnvelope;
  description ← ok_or (ps_description pending) RSE_InvalidEnvelope;
  map_err_m (λ _, RSE_Service) (on_service
    (update_remote_status (ps_session_id pending) (ps_controller_device_id pending)
       SessionState_Authenticating None));;
  verified ← map_err_m map_service_error
    (on_verifier (verify_remote_offer authentication (WebRtcSessionDescription_sdp description)
       (WebRtcSessionDescription_dtls_fingerprint_sha256 description) now_unix_ms));
  fail_if (negb (bool_decide (DeviceIdentity_device_id (vo_controller verified) =
                              ps_controller_device_id pending)) ||
           negb (bool_decide (vo_session_id verified = ps_session_id pending))) RSE_Authentication;;
  started ← activate_verified_session authentication description (ps_candidates pending) verified
    now_unix_ms;
  answer ← outbound (ss_controller_device_id started) (ps_request_id pending) now_unix_ms
    (authentication_payload (SessionAuthentication_Payload_Answer (ss_answer_authentication started)));
  description ← outbound (ss_controller_device_id started) (ps_request_id pending) now_unix_ms
    (answer_description (ss_session_id started) (ss_answer started));
  mret [answer; description].

Definition try_start_pending (now_unix_ms : Z) : CM (list RemoteSessionOutbound) :=
  self ← get;
  match co_pending self with
  | Some pending =>
      if is_ready pending then
        modify (set_pending None);;
        result ← try (start_pending pending now_unix_ms);
        match result with
        | Ok outbound => mret outbound
        | Err error =>
            modify (set_failed_attempt (Some
              {| fa_controller_device_id := ps_controller_device_id pending;
                 fa_session_id := ps_session_id pending; fa_failed_at_unix_ms := now_unix_ms |}));;
            ignored (on_service
              (update_remote_status (ps_session_id pending) (ps_controller_device_id pending)
                 SessionState_Failed (Some (session_error (protocol_error_for error)))));;
            answer ← error_outbound (ps_controller_device_id pending) (ps_request_id pending)
              (protocol_error_for error) now_unix_ms;
            mret [answer]
        end
      else mret []
  | None => mret []
  end.

(** ** Reconnection of the active session *)

Definition begin_active_reconnect (now_unix_ms : Z) : CM unit :=
  self ← get;
  active ← ok_or (co_active self) RSE_Peer;
  result ← on_active active HostPeerSession_begin_reconnect;
  lift (map_err map_peer_error result);;
  update_active (λ active, set_deadline
    (Some (default (saturating_add U64_MAX now_unix_ms ACTIVE_RECONNECT_LIFETIME_MS)
             (as_reconnect_deadline_unix_ms active))) active);;
  map_err_m (λ _, RSE_Service) (on_service
    (update_remote_status (as_session_id active) (as_controller_device_id active)
       SessionState_Reconnecting None)).

(** The reconnect of the active session, opened when there is none. *)
Definition prepare_active_reconnect (request_id : text) (now_unix_ms : Z) : CM PendingSession :=
  self ← get;
  active ← ok_or (co_active self) RSE_Peer;
  let pending := set_request request_id
    (default (PendingSession_new (as_controller_device_id active) (as_session_id active) request_id
                now_unix_ms) (as_reconnect active)) in
  update_active (set_reconnect (Some pending));;
  mret pending.

(** A call on the reconnect [prepare_active_reconnect] returned. *)
Definition on_reconnect {A} (pending : PendingSession) (m : M PendingSession RemoteSessionError A)
    : CM A :=
  let '(r, pending) := m pending in
  update_active (set_reconnect (Some pending));;
  lift r.

Definition peer_candidate (candidate : IceCandidate) : PeerIceCandidate :=
  {| pic_candidate := IceCandidate_candidate candidate;
     pic_sdp_mid := IceCandidate_sdp_mid candidate;
     pic_sdp_m_line_index := IceCandidate_sdp_m_line_index candidate |}.

Definition is_offer (description : WebRtcSessionDescription) : bool :=
  bool_decide (SessionDescriptionType_try_from (WebRtcSessionDescription_type description) =
               Some SessionDescriptionType_Offer).

Definition accepts_candidates (active : ActiveSession) : bool :=
  negb (is_some (as_reconnect active)) &&
  bool_decide (hp_state (as_session active) = HS_Negotiating ∨
               hp_state (as_session active) = HS_Connected).

Definition handle_active_negotiation (negotiation : WebRtcNegotiation) (request_id : text)
    (now_unix_ms : Z) : CM unit :=
  self ← get;
  active ← ok_or (co_active self) RSE_Peer;
  fail_if (negb (bool_decide (WebRtcNegotiation_session_id negotiation = as_session_id active)))
          RSE_InvalidEnvelope;;
  payload ← ok_or (WebRtcNegotiation_payload negotiation) RSE_InvalidEnvelope;
  match payload with
  | WebRtcNegotiation_Payload_IceCandidate candidate =>
      if accepts_candidates active then
        result ← on_active active
          (HostPeerSession_add_remote_ice_candidate (peer_candidate candidate));
        lift (map_err (λ _, RSE_Peer) result)
      else
        pending ← prepare_active_reconnect request_id now_unix_ms;
        on_reconnect pending (push_candidate (peer_candidate candidate))
  | WebRtcNegotiation_Payload_Description description =>
      fail_if (negb (is_offer description)) RSE_InvalidEnvelope;;
      begin_active_reconnect now_unix_ms;;
      pending ← prepare_active_reconnect request_id now_unix_ms;
      on_reconnect pending
        (modify (λ p, set_offer (ps_authentication p) (Some description) p);;
         fail_if (is_some (ps_description pending)) RSE_InvalidEnvelope)
  | WebRtcNegotiation_Payload_EndOfCandidates _ => mret ()
  end.

Fixpoint add_active_candidates (candidates : list PeerIceCandidate) : CM unit :=
  match candidates with
  | [] => mret ()
  | candidate :: candidates =>
      self ← get;
      active ← ok_or (co_active self) RSE_Peer;
      result ← on_active active (HostPeerSession_add_remote_ice_candidate candidate);
      lift (map_err (λ _, RSE_Peer) result);;
      add_active_candidates candidates
  end.

Definition restart_active (pending : PendingSession) (now_unix_ms : Z) : CM RestartedSession :=
  authentication ← ok_or (ps_authentication pending) RSE_InvalidEnvelope;
  description ← ok_or (ps_description pending) RSE_InvalidEnvelope;
  verified ← map_err_m map_service_error
    (on_verifier (verify_remote_offer authentication (WebRtcSessionDescription_sdp description)
       (WebRtcSessionDescription_dtls_fingerprint_sha256 description) now_unix_ms));
  self ← get;
  active ← ok_or (co_active self) RSE_Peer;
  fail_if (negb (bool_decide (DeviceIdentity_device_id (vo_controller verified) =
                              as_controller_device_id active)) ||
           negb (bool_decide (vo_session_id verified = as_session_id active))) RSE_Authentication;;
  generation ← ok_or (checked_add U32_MAX (as_reconnect_generation active) 1) RSE_Service;
  answer ← on_active active
    (HostPeerSession_accept_reconnect_offer (WebRtcSessionDescription_sdp description));
  answer ← lift (map_err (λ _, RSE_Peer) answer);
  reconnect_authentication ← lift (map_err map_service_error
    (sign_remote_reconnect authentication (pa_sdp answer) (pa_dtls_fingerprint_sha256 answer)
       generation (co_service self)));
  add_active_candidates (ps_candidates pending);;
  update_active (set_generation generation);;
  mret {| rr_controller_device_id := as_controller_device_id active;
          rr_session_id := as_session_id active; rr_answer := answer;
          rr_authentication := reconnect_authentication |}.

Definition reconnect_outbound (restarted : RestartedSession) (request_id : text) (now_unix_ms : Z)
    : CM (list RemoteSessionOutbound) :=
  authentication ← outbound (rr_controller_device_id restarted) request_id now_unix_ms
    (authentication_payload (SessionAuthentication_Payload_Reconnect (rr_authentication restarted)));
  description ← outbound (rr_controller_device_id restarted) request_id now_unix_ms
    (answer_description (rr_session_id restarted) (rr_answer restarted));
  mret [authentication; description].

Definition reconnect_error (error : RemoteSessionError) : ErrorCode :=
  if bool_decide (error = RSE_Peer) then ErrorCode_IceFailed else protocol_error_for error.

Definition try_restart_active (now_unix_ms : Z) : CM (list RemoteSessionOutbound) :=
  self ← get;
  match active ← co_active self; as_reconnect active with
  | Some pending =>
      if is_ready pending then
        update_active (set_reconnect None);;
        result ← try (restart_active pending now_unix_ms);
        match result with
        | Ok restarted => reconnect_outbound restarted (ps_request_id pending) now_unix_ms
        | Err error =>
            answer ← error_outbound (ps_controller_device_id pending) (ps_request_id pending)
              (reconnect_error error) now_unix_ms;
            mret [answer]
        end
      else mret []
  | None => mret []
  end.

Definition handle_active_reconnect_envelope (envelope : SignalingEnvelope) (now_unix_ms : Z)
    : CM (list RemoteSessionOutbound) :=
  let request_id := SignalingEnvelope_request_id envelope in
  payload ← ok_or (SignalingEnvelope_payload envelope) RSE_InvalidEnvelope;
  match payload with
  | SignalingEnvelope_Payload_SessionAuthentication authentication =>
      match SessionAuthentication_payload authentication with
      | Some (SessionAuthentication_Payload_Offer offer) =>
          begin_active_reconnect now_unix_ms;;
          pending ← prepare_active_reconnect request_id now_unix_ms;
          on_reconnect pending
            (fail_if (negb (bool_decide (SessionOfferAuthentication_controller_device_id offer =
                                         ps_controller_device_id pending)) ||
                      negb (bool_decide (SessionOfferAuthentication_session_id offer =
                                         ps_session_id pending))) RSE_InvalidEnvelope;;
             modify (λ p, set_offer (Some offer) (ps_description p) p);;
             fail_if (is_some (ps_authentication pending)) RSE_InvalidEnvelope)
      | _ => mthrow RSE_InvalidEnvelope
      end
  | SignalingEnvelope_Payload_WebrtcNegotiation negotiation =>
      handle_active_negotiation negotiation request_id now_unix_ms
  | _ => mthrow RSE_InvalidEnvelope
  end;;
  try_restart_active now_unix_ms.

(** ** Routed envelopes *)

Definition is_closing (status : SessionStatus) : bool :=
  bool_decide (SessionState_try_from (SessionStatus_state status) = Some SessionState_Closing).

Definition handle_active_envelope (envelope : SignalingEnvelope) (now_unix_ms : Z)
    : CM (list RemoteSessionOutbound) :=
  match SignalingEnvelope_payload envelope with
  | Some (SignalingEnvelope_Payload_SessionAuthentication _)
  | Some (SignalingEnvelope_Payload_WebrtcNegotiation _) =>
      handle_active_reconnect_envelope envelope now_unix_ms
  | Some (SignalingEnvelope_Payload_SessionStatus status) =>
      fail_if (negb (is_closing status)) RSE_InvalidEnvelope;;
      self ← get;
      active ← ok_or (co_active self) RSE_Peer;
      fail_if (negb (bool_decide (SessionStatus_session_id status = as_session_id active)))
              RSE_InvalidEnvelope;;
      close_active None;;
      mret []
  | _ => mthrow RSE_InvalidEnvelope
  end.

(** The session an envelope is about: [None] fails the envelope. *)
Definition pending_session_id (payload : SignalingEnvelope_Payload) : option bytes :=
  match payload with
  | SignalingEnvelope_Payload_SessionAuthentication authentication =>
      match SessionAuthentication_payload authentication with
      | Some (SessionAuthentication_Payload_Offer offer) =>
          Some (SessionOfferAuthentication_session_id offer)
      | _ => None
      end
  | SignalingEnvelope_Payload_WebrtcNegotiation negotiation =>
      Some (WebRtcNegotiation_session_id negotiation)
  | _ => None
  end.

(** What an envelope adds to the pending session. *)
Definition collect (payload : SignalingEnvelope_Payload) : M PendingSession RemoteSessionError unit :=
  pending ← get;
  match payload with
  | SignalingEnvelope_Payload_SessionAuthentication authentication =>
      match SessionAuthentication_payload authentication with
      | Some (SessionAuthentication_Payload_Offer offer) =>
          modify (set_offer (Some offer) (ps_description pending));;
          fail_if (is_some (ps_authentication pending)) RSE_InvalidEnvelope
      | _ => mthrow RSE_InvalidEnvelope
      end
  | SignalingEnvelope_Payload_WebrtcNegotiation negotiation =>
      payload ← ok_or (WebRtcNegotiation_payload negotiation) RSE_InvalidEnvelope;
      match payload with
      | WebRtcNegotiation_Payload_Description description =>
          fail_if (negb (is_offer description)) RSE_InvalidEnvelope;;
          modify (set_offer (ps_authentication pending) (Some description));;
          fail_if (is_some (ps_description pending)) RSE_InvalidEnvelope
      | WebRtcNegotiation_Payload_IceCandidate candidate => push_candidate (peer_candidate candidate)
      | WebRtcNegotiation_Payload_EndOfCandidates _ => mret ()
      end
  | _ => mthrow RSE_InvalidEnvelope
  end.

(** A call on the pending session. *)
Definition on_pending {A} (pending : PendingSession) (m : M PendingSession RemoteSessionError A)
    : CM A :=
  let '(r, pending) := m pending in
  modify (set_pending (Some pending));;
  lift r.

Definition handle_pending_envelope (envelope : SignalingEnvelope) (now_unix_ms : Z)
    : CM (list RemoteSessionOutbound) :=
  let sender := SignalingEnvelope_sender_device_id envelope in
  let request_id := SignalingEnvelope_request_id envelope in
  payload ← ok_or (SignalingEnvelope_payload envelope) RSE_InvalidEnvelope;
  match payload with
  | SignalingEnvelope_Payload_SessionStatus status =>
      fail_if (negb (is_closing status)) RSE_InvalidEnvelope;;
      modify (λ s,
        if match co_pending s with
           | Some pending => PendingSession_matches sender (SessionStatus_session_id status) pending
           | None => false end
        then set_pending None s else s);;
      mret []
  | _ =>
      session_id ← ok_or (pending_session_id payload) RSE_InvalidEnvelope;
      prepared ← prepare_pending sender session_id request_id now_unix_ms;
      if negb prepared then
        busy ← error_outbound sender request_id ErrorCode_DeviceBusy now_unix_ms;
        mret [busy]
      else
      self ← get;
      pending ← ok_or (co_pending self) RSE_Service;
      on_pending pending (collect payload);;
      try_start_pending now_unix_ms
  end.

(** The session an envelope may not retry. *)
Definition failed_session_id (payload : option SignalingEnvelope_Payload) : option bytes :=
  payload ← payload; pending_session_id payload.

Definition is_failed_attempt (sender : bytes) (payload : option SignalingEnvelope_Payload)
    (self : CO) : bool :=
  match failed_session_id payload, co_failed_attempt self with
  | Some session_id, Some attempt => FailedSessionAttempt_matches sender session_id attempt
  | _, _ => false
  end.

Definition handle_routed (routed_sender_device_id encoded : bytes) (now_unix_ms : Z)
    : CM (list RemoteSessionOutbound) :=
  self ← get;
  fail_if (co_closed self) RSE_Closed;;
  envelope ← lift (map_err (λ _, RSE_InvalidEnvelope)
    (decode_and_validate_signaling_envelope encoded));
  let sender := SignalingEnvelope_sender_device_id envelope in
  fail_if (negb (bool_decide (sender = routed_sender_device_id)) ||
           negb (bool_decide (SignalingEnvelope_recipient_device_id envelope = host_device_id self)))
          RSE_InvalidEnvelope;;
  expire_pending now_unix_ms;;
  expire_active_reconnect now_unix_ms;;
  self ← get;
  if is_failed_attempt sender (SignalingEnvelope_payload envelope) self then mret [] else
  match co_active self with
  | Some active =>
      if negb (bool_decide (as_controller_device_id active = sender)) then
        busy ← error_outbound sender (SignalingEnvelope_request_id envelope) ErrorCode_DeviceBusy
          now_unix_ms;
        mret [busy]
      else handle_active_envelope envelope now_unix_ms
  | None => handle_pending_envelope envelope now_unix_ms
  end.

(** ** Events of the peer *)

Definition local_candidate (session_id : bytes) (candidate : PeerIceCandidate)
    : SignalingEnvelope_Payload :=
  SignalingEnvelope_Payload_WebrtcNegotiation
    {| WebRtcNegotiation_session_id := session_id;
       WebRtcNegotiation_payload := Some (WebRtcNegotiation_Payload_IceCandidate
         {| IceCandidate_candidate := pic_candidate candidate;
            IceCandidate_sdp_mid := pic_sdp_mid candidate;
            IceCandidate_sdp_m_line_index := pic_sdp_m_line_index candidate |}) |}.

Definition is_frozen (self : CO) : bool :=
  match co_active self with
  | Some active => is_some (as_reconnect_deadline_unix_ms active)
  | None => false
  end.

Definition handle_peer_event (event : RemotePeerEvent) (now_unix_ms : Z)
    : CM (list RemoteSessionOutbound) :=
  self ← get;
  fail_if (co_closed self) RSE_Closed;;
  expired ← expire_active_reconnect now_unix_ms;
  if expired : bool then mret [] else
  self ← get;
  match event with
  | RPE_Connected =>
      active ← ok_or (co_active self) RSE_Peer;
      result ← on_active active HostPeerSession_mark_connected;
      lift (map_err (λ _, RSE_Peer) result);;
      update_active (set_reconnect None);;
      update_active (set_deadline None);;
      map_err_m (λ _, RSE_Service) (on_service
        (update_remote_status (as_session_id active) (as_controller_device_id active)
           SessionState_Connected None));;
      mret []
  | RPE_LocalIceCandidate candidate =>
      active ← ok_or (co_active self) RSE_Peer;
      outbound ← outbound (as_controller_device_id active) (lit "host-ice") now_unix_ms
        (local_candidate (as_session_id active) candidate);
      mret [outbound]
  | RPE_ReliableInput encoded =>
      if is_frozen self then mret [] else
      active ← ok_or (co_active self) RSE_Input;
      result ← on_active active (HostPeerSession_handle_reliable encoded);
      match result with
      | Err _ =>
          close_active (Some (session_error ErrorCode_InputInjectionFailed));;
          mthrow RSE_Input
      | Ok _ =>
          self ← get;
          (if match co_active self with
              | Some active => bool_decide (hp_state (as_session active) = HS_Closed)
              | None => false end
           then close_active None else mret ());;
          mret []
      end
  | RPE_FastPointer encoded =>
      if is_frozen self then mret [] else
      active ← ok_or (co_active self) RSE_Input;
      result ← on_active active (HostPeerSession_handle_pointer_fast encoded);
      match result with
      | Err _ =>
          close_active (Some (session_error ErrorCode_InputInjectionFailed));;
          mthrow RSE_Input
      | Ok _ => mret []
      end
  | RPE_Disconnected | RPE_Failed =>
      begin_active_reconnect now_unix_ms;;
      mret []
  | RPE_LocalStop => close_active_with_remote_notification now_unix_ms None
  end.

Definition next_peer_event (now_unix_ms : Z) : CM (option RemotePeerEvent) :=
  self ← get;
  result ← (if is_some (co_active self) then try (on_world events_try_recv) else mret (Ok None));
  match result with
  | Ok event => mret event
  | Err error =>
      close_active (Some (session_error (protocol_error_for error)));;
      mthrow error
  end.

Definition poll_peer_event (now_unix_ms : Z) : CM (list RemoteSessionOutbound) :=
  expired ← expire_active_reconnect now_unix_ms;
  if expired : bool then mret [] else
  event ← next_peer_event now_unix_ms;
  match event with
  | None => mret []
  | Some event => handle_peer_event event now_unix_ms
  end.

(** The loop over at most [fuel] events; [elapsed fuel]: the time budget is spent when [fuel]
    events are left. *)
Fixpoint drain_events (fuel : nat) (elapsed : nat → bool) (now_unix_ms : Z)
    (outbound : list RemoteSessionOutbound) : CM (list RemoteSessionOutbound) :=
  match fuel with
  | O => mret outbound
  | S fuel =>
      event ← next_peer_event now_unix_ms;
      match event with
      | None => mret outbound
      | Some event =>
          sent ← handle_peer_event event now_unix_ms;
          let outbound := outbound ++ sent in
          if negb (bool_decide (outbound = [])) || elapsed fuel then mret outbound
          else drain_events fuel elapsed now_unix_ms outbound
      end
  end.

Definition poll_peer_events_with_budget (elapsed : nat → bool) (now_unix_ms : Z)
    : CM (list RemoteSessionOutbound) :=
  expired ← expire_active_reconnect now_unix_ms;
  if expired : bool then mret [] else
  drain_events MAX_EVENTS elapsed now_unix_ms [].

(** ** Signaling and shutdown *)

Definition signaling_lost (now_unix_ms : Z) : CM unit :=
  modify (set_pending None);;
  self ← get;
  if is_some (co_active self) then
    result ← try (begin_active_reconnect now_unix_ms);
    match result with
    | Ok _ => mret ()
    | Err reconnect_error =>
        close_result ← try (close_active (Some (session_error ErrorCode_IceFailed)));
        match close_result with
        | Ok _ => mthrow reconnect_error
        | Err close_error => mthrow close_error
        end
    end
  else mret ().

Definition privileged_route_changed (now_unix_ms : Z) : CM unit :=
  self ← get;
  if is_some (co_active self) then begin_active_reconnect now_unix_ms else mret ().

Definition shutdown : CM unit :=
  modify (set_pending None);;
  modify (set_failed_attempt None);;
  close_active None;;
  modify (set_closed true).

(** [Drop]: the result of the close is ignored. *)
Definition RemoteSessionCoordinator_drop (s : CO) : CO :=
  (close_active None (set_failed_attempt None (set_pending None s))).2.

Definition has_active_session (self : CO) : bool := is_some (co_active self).

Definition reconnect_deadline_unix_ms (self : CO) : option Z :=
  active ← co_active self; as_reconnect_deadline_unix_ms active.
End Coordinator.
