(* ===== verification/Coordinator.v ===== *)
(** The theorems on the remote session engine of RemoteSession.v: the invariant of the
    coordinator, with the local interface and the native threads acting between its operations,
    what may start and renew a session, what a lost connection leaves, and how a session ends. *)
From S2P Require Import Prelude Limits Messages Validation Crypto Containers Transcript GrantStore Authorization SessionAuth Identity PairingCrypto Signaling Pairing Sessions Service Webrtc PeerSession RemoteSession.

Local Open Scope Z_scope.

(** * What the rest of the Host does to the service

    Operations outside the coordinator never add a session; one they end is announced. *)

Abbreviation live s := (sr_sessions (hs_sessions s)).
Abbreviation ended s := (event_entry <$> sr_terminations (hs_sessions s)).

Section Local.
Context `{Sha256, Ed25519, X25519, HkdfSha256, Aes256Gcm}.
Context `{Message PairingMessage, Message PairingPlaintext, Message HostAuthorizationSnapshot}.
Context `{UrlParser Url} {G : Type} `{RandomSource G} {W R : Type} `{GrantStoreLaws W, RandomSource R}.
Context `{!RandomLaws R} (debug_build : bool) (requested : option text).
Implicit Types s : HostService G W R.

Definition remains s0 s : Prop :=
  service_wf s ∧ hs_identity s = hs_identity s0 ∧
  (∀ id k, live s !! id = Some k → live s0 !! id = Some k) ∧
  (∀ id k, live s0 !! id = Some k → live s !! id = Some k ∨ (id, k) ∈ ended s) ∧
  ∀ x, x ∈ ended s0 → x ∈ ended s.

Lemma remains_refl s : service_wf s → remains s s.
Proof. intros. split_and!; auto. Qed.

Section From.
Context (s0 : HostService G W R).

(** A call that ends sessions only with an announcement. *)
Lemma remains_leaf {E A} (m : M (HostService G W R) E A) :
  keeps service_wf m →
  (∀ s, service_wf s → hs_identity (m s).2 = hs_identity s ∧
     (∀ id k, live (m s).2 !! id = Some k → live s !! id = Some k) ∧
     (∀ id k, live s !! id = Some k → live (m s).2 !! id = Some k ∨ (id, k) ∈ ended (m s).2) ∧
     ∀ x, x ∈ ended s → x ∈ ended (m s).2) → keeps (remains s0) m.
Proof.
  intros Hk Hm s (Hw & Hi & Hl & He & Ha). destruct (Hm s Hw) as (Hi' & Hl' & He' & Ha').
  split_and!; [by apply Hk|congruence|eauto| |eauto]. intros id k Hid.
  destruct (He id k Hid) as [?|?]; eauto.
Qed.

Lemma remains_same {E A} (m : M (HostService G W R) E A) :
  keeps service_wf m → (∀ s, hs_identity (m s).2 = hs_identity s ∧
    hs_sessions (m s).2 = hs_sessions s) → keeps (remains s0) m.
Proof. intros Hk Hm. apply remains_leaf; [done|]. intros s _. destruct (Hm s) as [-> ->]. auto. Qed.

Lemma remains_accept id k now :
  keeps (remains s0) (accept_host_pairing id k now : M (HostService G W R) _ _).
Proof.
  apply remains_same; [apply accept_keeps|]. intros s. unfold accept_host_pairing, published.
  rewrite bind_get, bind_try, bind_run. unfold zoom, modify.
  destruct (accept id k now _) as [r [c a]]. cbn [fst snd]. unfold publish_pairing_snapshot.
  by destruct r; repeat case_match.
Qed.

Lemma remains_create c ps now :
  keeps (remains s0) (on_authorization (create_controller_grant c ps now) : M (HostService G W R) _ _).
Proof.
  apply remains_same; [apply create_keeps|]. intros s. unfold on_authorization, zoom.
  by destruct (create_controller_grant c ps now _).
Qed.

Lemma announced_ended reason m events id k (l : list SessionTerminatedEvent) :
  announces reason m events → m !! id = Some k → (id, k) ∈ event_entry <$> (l ++ events).
Proof.
  intros Ha Hk. rewrite fmap_app. apply elem_of_app. right. rewrite (announced_entries _ _ _ Ha).
  by apply elem_of_map_to_list.
Qed.

Lemma remains_emergency : keeps (remains s0) (emergency_stop : M (HostService G W R) _ _).
Proof.
  apply remains_leaf; [apply emergency_keeps|]. intros s _. pose proof (emergency_spec s) as Hs. unfold wp in Hs.
  destruct (emergency_stop s) as [r s1]. cbn [fst snd] in *.
  destruct Hs as (events & Ha & -> & -> & _ & _ & -> & _). split_and!; [done| | |].
  - intros id k. by rewrite lookup_empty.
  - intros id k Hk. right. by eapply announced_ended.
  - intros x Hx. rewrite fmap_app. apply elem_of_app. by left.
Qed.

Lemma remains_revoke grant_id : keeps (remains s0) (revoke grant_id : M (HostService G W R) _ _).
Proof.
  apply remains_leaf; [apply revoke_keeps|]. intros s Hw.
  pose proof (revoke_spec grant_id s (sw_registry _ Hw)) as Hs. unfold wp in Hs.
  destruct (revoke grant_id s) as [r s1]. cbn [fst snd] in *.
  destruct Hs as [((-> & _) & _ & [(k & view & events & _ & _ & _ & -> & Ha & -> & _)|(_ & -> & _)]) _];
    [|by auto]. split_and!; [done| | |].
  - intros id c [Hk _]%map_lookup_filter_Some. done.
  - intros id c Hk. destruct (decide (c = k)) as [->|Hn].
    + right. eapply announced_ended; [done|]. by apply map_lookup_filter_Some.
    + left. by apply map_lookup_filter_Some.
  - intros x Hx. rewrite fmap_app. apply elem_of_app. by left.
Qed.

End From.

Lemma remains_local s0 s op :
  is_local op = true → remains s0 s → remains s0 (service_step debug_build requested s op).
Proof.
  intros Hop. apply relation_local; auto using remains_create, remains_accept, remains_emergency, remains_revoke.
  intros E A m Hm Hs. apply remains_same; [done|]. intros s'. by destruct (Hs s') as (? & _ & ?).
Qed.
End Local.

(** * What each call does to the peer session *)

Section Peer.
Context {V : Type} `{PeerBackend V, RemoteInputSink V}.
Context `{Message ReliableInputEnvelope, Message PointerFastEnvelope}.
Implicit Types (p : HostPeerSession) (w : V).

(** The two fields that say whose session it is and what it may do. *)
Definition same_rights p p' : Prop :=
  hp_session_id p' = hp_session_id p ∧ hp_input_allowed p' = hp_input_allowed p.

Lemma close_rights p w r p' w' :
  HostPeerSession_close (p, w) = (r, (p', w')) → same_rights p p' ∧ hp_state p' = HS_Closed.
Proof. intros (?&_&_&_&?&?&_)%close_state. done. Qed.

Lemma offer_run sdp p w r p' w' :
  HostPeerSession_accept_offer sdp (p, w) = (r, (p', w')) →
  same_rights p p' ∧ (is_ok r = true → hp_state p' = HS_Negotiating).
Proof.
  unfold HostPeerSession_accept_offer, self_get, self_set, world. unmonad.
  destruct (bool_decide (hp_state p = HS_New)); simpl; [|by intros [= <- <- <-]].
  destruct (invalid_offer sdp); simpl; [by intros [= <- <- <-]|].
  destruct (peer_start (hp_config p) sdp w) as [[a|e] w1]; [destruct (invalid_answer a)|]; simpl;
    try (destruct (HostPeerSession_close (p, w1)) as [rc [p1 w2]] eqn:Hc; apply close_rights in Hc as [? _]);
    by intros [= <- <- <-].
Qed.

Lemma begin_reconnect_run p w r p' w' :
  HostPeerSession_begin_reconnect (p, w) = (r, (p', w')) →
  same_rights p p' ∧
  match r with
  | Ok _ => hp_state p' = HS_Reconnecting
  | Err _ => hp_state p' = hp_state p
  end.
Proof.
  unfold HostPeerSession_begin_reconnect, self_get, self_set. unmonad.
  case_bool_decide as Hre; [by intros [= <- <- <-]|].
  destruct (bool_decide _); simpl; [|by intros [= <- <- <-]].
  rewrite release_all_spec. destruct (sink_release_all w) as [[]?]; by intros [= <- <- <-].
Qed.

Lemma mark_connected_run p w r p' w' :
  HostPeerSession_mark_connected (p, w) = (r, (p', w')) →
  same_rights p p' ∧ w' = w ∧
  match r with Ok _ => hp_state p' = HS_Connected | Err _ => p' = p end.
Proof.
  unfold HostPeerSession_mark_connected, self_get, self_set. unmonad.
  destruct (bool_decide _); by intros [= <- <- <-].
Qed.

Lemma reconnect_offer_run sdp p w r p' w' :
  HostPeerSession_accept_reconnect_offer sdp (p, w) = (r, (p', w')) →
  same_rights p p' ∧
  match r with
  | Ok _ => hp_state p' = HS_Negotiating
  | Err _ => p' = p ∨ hp_state p' = HS_Reconnecting
  end.
Proof.
  unfold HostPeerSession_accept_reconnect_offer, self_get, self_set, world. unmonad.
  destruct (bool_decide _); simpl; [|by intros [= <- <- <-]; split; [|left]].
  destruct (invalid_offer sdp); simpl; [by intros [= <- <- <-]; split; [|left]|].
  destruct (peer_restart (hp_config p) sdp w) as [[a|e] w1]; [destruct (invalid_answer a)|]; simpl;
    intros [= <- <- <-]; (split; [done|]); auto.
Qed.

Lemma candidate_run c p w r p' w' :
  HostPeerSession_add_remote_ice_candidate c (p, w) = (r, (p', w')) → p' = p.
Proof.
  unfold HostPeerSession_add_remote_ice_candidate, self_get, world. unmonad.
  destruct (bool_decide _); simpl; [|by intros [= <- <- <-]].
  destruct (peer_add_remote_ice_candidate c w). by intros [= <- <- <-].
Qed.

Lemma reliable_run encoded p w r p' w' :
  HostPeerSession_handle_reliable encoded (p, w) = (r, (p', w')) →
  same_rights p p' ∧ (is_ok r = true → hp_state p' = HS_Connected ∨ hp_state p' = HS_Closed).
Proof.
  rewrite handle_reliable_spec.
  destruct (reliable_guard p encoded) as [[env ev]|e] eqn:Hg; [|by intros [= <- <- <-]].
  apply reliable_guard_Ok in Hg as (Hst&_).
  destruct (apply_reliable_event ev (p, w)) as [r1 [p1 w1]] eqn:Hap.
  apply apply_event_same in Hap as (Hs1&Hid&Ha&_). destruct r1 as [[]|e].
  - destruct (HostPeerSession_close (set_sequences (ReliableInputEnvelope_sequence env)
      (last_pointer_sequence p1) p1, w1)) as [rc [p2 w2]] eqn:Hc. cbv zeta. rewrite Hc. apply close_rights in Hc as [[? ?] ?].
    intros [= <- <- <-]. unfold same_rights in *. simpl in *. split; [split; congruence|auto].
  - intros [= <- <- <-]. unfold same_rights. simpl. split; [done|]. rewrite Hs1. auto.
  - case_decide; [|by intros [= <- <- <-]].
    destruct (HostPeerSession_close (p1, w1)) as [rc [p2 w2]] eqn:Hc. apply close_rights in Hc as [[? ?] ?].
    intros [= <- <- <-]. split; [split; congruence|done].
Qed.

Lemma pointer_run encoded p w r p' w' :
  HostPeerSession_handle_pointer_fast encoded (p, w) = (r, (p', w')) →
  same_rights p p' ∧ (is_ok r = true → hp_state p' = hp_state p).
Proof.
  rewrite handle_pointer_spec.
  destruct (pointer_guard p encoded) as [[[env ev]|]|e] eqn:Hg; [|by intros [= <- <- <-]..].
  destruct (apply_pointer_event ev (p, w)) as [r1 [p1 w1]] eqn:Hap. apply apply_pointer_same in Hap as ->.
  destruct r1 as [[[]|e]|e]; [by intros [= <- <- <-]| |by intros [= <- <- <-]].
  case_decide; [|by intros [= <- <- <-]].
  destruct (HostPeerSession_close (p, w1)) as [rc [p2 w2]] eqn:Hc. apply close_rights in Hc as [? _].
  intros [= <- <- <-]. done.
Qed.
End Peer.

(** * The invariant of the coordinator *)

(** What the factory and the event source promise: a sink just created holds nothing down, and
    neither presses anything. *)
Class FactoryLaws (V : Type) `{RemoteSessionFactory V} (inv : V → Prop) (held : V → gset Held) : Prop := {
  law_create config context w r w' :
    factory_create config context w = (r, w') → inv w →
    inv w' ∧ held w' ⊆ held w ∧ (is_ok r = true → held w' = ∅);
  law_events w : inv w → inv (events_try_recv w).2 ∧ held (events_try_recv w).2 ⊆ held w
}.

Definition total_size (candidates : list PeerIceCandidate) : Z :=
  foldr (λ c n, candidate_size c + n) 0 candidates.

Lemma total_size_snoc l c : total_size (l ++ [c]) = total_size l + candidate_size c.
Proof. induction l as [|x l IH]; simpl; lia. Qed.

(** The candidates waiting for a session are bounded in number and in bytes. *)
Definition pending_ok (p : PendingSession) : Prop :=
  len (ps_candidates p) <= MAX_PENDING_ICE_CANDIDATES ∧
  ps_candidate_bytes p = total_size (ps_candidates p) ∧
  ps_candidate_bytes p <= MAX_PENDING_ICE_BYTES.

(** The state of the peer session against the reconnect deadline: a deadline is running exactly
    while the session is frozen. *)
Definition phase_ok (state : HostSessionState) (deadline : option Z) : Prop :=
  match deadline with
  | None => state = HS_Negotiating ∨ state = HS_Connected
  | Some _ => state = HS_Negotiating ∨ state = HS_Reconnecting
  end.

Lemma push_candidate_ok c : keeps pending_ok (push_candidate c).
Proof.
  intros p Hp. apply (wp_run (push_candidate c) (λ _ p', pending_ok p') p _ _ (surjective_pairing _)).
  unfold push_candidate. wp_step. wp_step; [done|]. wp_step; [done|]. wp_step; [done|].
  destruct Hp as (Hn & Hb & _). unfold checked_add in *. boolsimpl. repeat case_match; simplify_eq.
  unfold wp, put, pending_ok. simpl. rewrite len_app, len_cons, len_nil, total_size_snoc.
  unfold candidate_size. lia.
Qed.

Section Engine.
Context `{Sha256, Ed25519, X25519, HkdfSha256, Aes256Gcm}.
Context `{Message PairingMessage, Message PairingPlaintext, Message HostAuthorizationSnapshot}.
Context `{Message ReliableInputEnvelope, Message PointerFastEnvelope, Message SignalingEnvelope}.
Context `{UrlParser Url} {G : Type} `{RandomSource G} {W R : Type} `{GrantStoreLaws W, RandomSource R}.
Context `{!RandomLaws R} (debug_build : bool) (requested : option text).
Context {V : Type} `{PeerBackend V, RemoteInputSink V, RemoteSessionFactory V}.
Context (inv : V → Prop) (held : V → gset Held).
Context `{!SinkLaws V inv held, !FactoryLaws V inv held}.

Abbreviation CO := (RemoteSessionCoordinator G W R V).
Implicit Types (s : CO) (a : ActiveSession) (p : HostPeerSession) (w : V).

(** The reconnect of the active session is for the same session; it can only become complete
    while the session is frozen. *)
Definition reconnect_of a (q : PendingSession) : Prop :=
  ps_controller_device_id q = as_controller_device_id a ∧ ps_session_id q = as_session_id a ∧
  pending_ok q ∧ (is_ready q = true → is_Some (as_reconnect_deadline_unix_ms a)).

Record active_ok a w : Prop := {
  ao_session : hp_session_id (as_session a) = as_session_id a;
  ao_session_id : len (as_session_id a) = SESSION_ID_BYTES;
  ao_controller : len (as_controller_device_id a) = DEVICE_ID_BYTES;
  ao_phase : phase_ok (hp_state (as_session a)) (as_reconnect_deadline_unix_ms a);
  ao_reconnect q : as_reconnect a = Some q → reconnect_of a q;
  ao_peer : PeerSession.Inv inv held (as_session a, w);
  ao_generation : 0 <= as_reconnect_generation a <= U32_MAX
}.

(** Every release succeeds. *)
Definition reliable_release : Prop := ∀ w, inv w → is_ok (sink_release_all w).1 = true.

(** At most one session is live, and it is the active one: registered with the service, or ended
    by it with an announcement the coordinator has yet to handle.  Without one nothing is held
    down, unless a release failed. *)
Record co_wf s : Prop := {
  cw_service : service_wf (co_service s);
  cw_verifier : ov_host_device_id (co_verifier s) = host_device_id s;
  cw_pending q : co_pending s = Some q → pending_ok q ∧ co_active s = None;
  cw_active a : co_active s = Some a → active_ok a (co_world s);
  cw_announced a : co_active s = Some a →
    live (co_service s) !! as_session_id a = Some (as_controller_device_id a) ∨
    (as_session_id a, as_controller_device_id a) ∈ ended (co_service s);
  cw_live id k : live (co_service s) !! id = Some k →
    ∃ a, co_active s = Some a ∧ as_session_id a = id ∧ as_controller_device_id a = k;
  cw_world : inv (co_world s);
  cw_quiet : reliable_release → co_active s = None → held (co_world s) = ∅;
  cw_closed : co_closed s = true → co_active s = None ∧ co_pending s = None
}.

(** ** The calls of a session outside the coordinator *)

(** A release that succeeds leaves nothing held down when the session is discarded. *)
Lemma closed_quiet p w :
  PeerSession.Inv inv held (p, w) → hp_state p = HS_Closed →
  ∃ w', (HostPeerSession_close (p, w)).2.2 = w' ∧ inv w' ∧ (reliable_release → held w' = ∅).
Proof.
  intros [Hw [Hi Hh]] Hc. rewrite close_spec, decide_True by done. simpl in *.
  destruct (input_cleanup_pending p) eqn:Hp.
  - rewrite release_all_spec. destruct (sink_release_all w) as [r w'] eqn:Hr. exists w'. simpl.
    pose proof (law_release_all (inv:=inv) (held:=held) w r w' Hr Hi) as [Hi' Hh']. split_and!; [done|done|].
    intros Hrel. apply Hh'. specialize (Hrel w Hi). rewrite Hr in Hrel. by destruct r as [[]|].
  - exists w. split_and!; [done|done|]. intros _. apply Hh; [by rewrite Hc|done].
Qed.

(** The two closes of a session that is given up: its own and that of [Drop]. *)
Lemma discarded p w p1 w1 r :
  PeerSession.Inv inv held (p, w) → HostPeerSession_close (p, w) = (r, (p1, w1)) →
  PeerSession.Inv inv held (p1, w1) ∧ inv (HostPeerSession_close (p1, w1)).2.2 ∧
  (reliable_release → held (HostPeerSession_close (p1, w1)).2.2 = ∅).
Proof.
  intros Hi Hc. pose proof Hc as [_ Hs]%close_rights.
  pose proof (close_Inv inv held p w r p1 w1 Hc (Inv_core _ _ _ Hi) (λ _, Hi)) as Hi1.
  destruct (closed_quiet p1 w1 Hi1 Hs) as (w' & Hw' & ? & ?). by rewrite Hw'.
Qed.

(** ** The public status *)

Definition shown (id k : bytes) (state : SessionState) (error : option UnifiedError)
    : RemoteSessionStatusSnapshot :=
  {| RemoteSessionStatusSnapshot_session_status := Some
       {| SessionStatus_session_id := id; SessionStatus_state := to_i32 state;
          SessionStatus_error := error |};
     RemoteSessionStatusSnapshot_controller_device_id := k |}.

Definition valid_shown (state : SessionState) (error : option UnifiedError) : Prop :=
  match state with
  | SessionState_Unspecified | SessionState_Idle => False
  | SessionState_Failed => ∃ code, code ≠ ErrorCode_Unspecified ∧ error = Some (session_error code)
  | _ => error = None
  end.

Lemma session_error_valid code :
  code ≠ ErrorCode_Unspecified → validate_unified_error (session_error code) = Ok ().
Proof. intros Hc. destruct code; first [done|vm_compute; reflexivity]. Qed.

Lemma shown_valid id k state error :
  len id = SESSION_ID_BYTES → len k = DEVICE_ID_BYTES → valid_shown state error →
  validate_remote_session_status_snapshot (shown id k state error) = Ok ().
Proof.
  intros Hid Hk Hv. unfold validate_remote_session_status_snapshot, validate_session_status,
    validate_length, shown.
  assert (SessionState_try_from (SessionState_to_i32 state) = Some state) as Ht by exact (try_from_to_i32 state).
  simpl. rewrite Ht, Hid, Hk, !Z.eqb_refl, andb_false_r. simpl.
  destruct state; simpl in *; try done; subst; try done.
  destruct Hv as (code & Hc & ->). simpl. by rewrite session_error_valid.
Qed.

Lemma status_run id k state error (x : HostService G W R) :
  validate_remote_session_status_snapshot (shown id k state error) = Ok () →
  update_remote_status id k state error x = (Ok (), set_remote_status (shown id k state error) x).
Proof. intros Hv. unfold update_remote_status. rewrite bind_lift. unfold shown in Hv. by rewrite Hv. Qed.

Lemma idle_run (x : HostService G W R) :
  update_remote_status [] [] SessionState_Idle None x = (Ok (), set_remote_status idle_remote_status x).
Proof. by apply status_run. Qed.

Lemma unregister_run id (x : HostService G W R) :
  len id = SESSION_ID_BYTES →
  unregister_active_session id x =
  (Ok (), set_session_registry (set_sessions (delete id (live x)) (hs_sessions x)) x).
Proof.
  intros Hid. unfold unregister_active_session, on_sessions. rewrite bind_map_err_zoom.
  unfold unregister. by rewrite bind_fail_if, Hid.
Qed.

(** A change of the service that keeps the identity and the sessions. *)
Lemma service_wf_co s (x : HostService G W R) :
  service_wf x → hs_identity x = hs_identity (co_service s) →
  hs_sessions x = hs_sessions (co_service s) → co_wf s → co_wf (set_service x s).
Proof.
  intros Hx Hi Hs []. split; simpl; rewrite ?Hi, ?Hs; try done.
  unfold host_device_id in *. simpl. by rewrite Hi.
Qed.

Lemma status_co id k state error s :
  co_wf s → co_wf (set_service (update_remote_status id k state error (co_service s)).2 s).
Proof.
  intros Hs. assert (hs_identity (update_remote_status id k state error (co_service s)).2 =
    hs_identity (co_service s) ∧ hs_sessions (update_remote_status id k state error (co_service s)).2 =
    hs_sessions (co_service s)) as [? ?].
  { unfold update_remote_status. rewrite bind_lift. by case_match. }
  apply service_wf_co; try done. apply remote_status_keeps, Hs.
Qed.

(** ** The end of the active session *)

Definition final_ok (final : option UnifiedError) : Prop :=
  final = None ∨ ∃ code, code ≠ ErrorCode_Unspecified ∧ final = Some (session_error code).

Definition final_status (final : option UnifiedError) a : RemoteSessionStatusSnapshot :=
  match final with
  | None => idle_remote_status
  | Some error => shown (as_session_id a) (as_controller_device_id a) SessionState_Failed (Some error)
  end.

Definition ended_service (final : option UnifiedError) a (x : HostService G W R) : HostService G W R :=
  set_remote_status (final_status final a)
    (set_session_registry (set_sessions (delete (as_session_id a) (live x)) (hs_sessions x)) x).

Lemma on_service_run {E A} (m : M (HostService G W R) E A) s r x :
  m (co_service s) = (r, x) → on_service m s = (r, set_service x s).
Proof. intros Hm. unfold on_service, zoom. by rewrite Hm. Qed.

Lemma bind_ignored {E A B} (m : M CO E A) (k : unit → M CO RemoteSessionError B) s :
  (ignored m ≫= k) s = k () (m s).2.
Proof. done. Qed.

Lemma bind_on_session {A B} p (m : M (HostPeerSession * V) HostWebRtcError A)
    (k : result HostWebRtcError A * HostPeerSession → M CO RemoteSessionError B) s :
  (on_session p m ≫= k) s =
  k ((m (p, co_world s)).1, (m (p, co_world s)).2.1) (set_world (m (p, co_world s)).2.2 s).
Proof. rewrite bind_run. unfold on_session. by destruct (m (p, co_world s)) as [r [p' w']]. Qed.

Lemma close_active_run final a s :
  co_active s = Some a → len (as_session_id a) = SESSION_ID_BYTES →
  len (as_controller_device_id a) = DEVICE_ID_BYTES → final_ok final →
  let closed := HostPeerSession_close (as_session a, co_world s) in
  close_active final s =
  (map_err map_peer_error closed.1,
   set_world (HostPeerSession_close closed.2).2.2
     (set_service (ended_service final a (co_service s)) (set_active None s))).
Proof.
  intros Ha Hid Hk Hf. cbv zeta. unfold close_active. rewrite bind_get, bind_run. unfold modify.
  rewrite Ha, bind_ignored.
  erewrite on_service_run by (apply (status_run _ _ SessionState_Closing); by apply shown_valid).
  rewrite bind_on_session. cbn [snd co_world set_service set_active].
  destruct (HostPeerSession_close (as_session a, co_world s)) as [r [p w]]. cbn [fst snd].
  rewrite bind_try. erewrite on_service_run by by apply unregister_run. cbn [fst snd]. rewrite bind_try.
  assert (∀ x : HostService G W R, (match final with
    | Some error => update_remote_status (as_session_id a) (as_controller_device_id a)
                      SessionState_Failed (Some error)
    | None => update_remote_status [] [] SessionState_Idle None end) x =
    (Ok (), set_remote_status (final_status final a) x)) as Hfin.
  { intros x. destruct Hf as [-> | (code & Hc & ->)]; [apply idle_run|]. apply status_run, shown_valid; eauto.
    by exists code. }
  erewrite on_service_run by apply Hfin. cbn [fst snd]. rewrite bind_on_session.
  cbn [co_world set_service set_world]. by destruct r as [[]|e].
Qed.

Lemma close_idle_run final s :
  co_active s = None →
  close_active final s = (Ok (), if is_some final then set_active None s else
    set_service (set_remote_status idle_remote_status (co_service s)) (set_active None s)).
Proof.
  intros Ha. unfold close_active. rewrite bind_get, bind_run. unfold modify. rewrite Ha.
  destruct final; [done|]. simpl. unfold map_err_m, on_service, zoom. by rewrite idle_run.
Qed.

Lemma ended_wf final a (x : HostService G W R) :
  len (as_session_id a) = SESSION_ID_BYTES → len (as_controller_device_id a) = DEVICE_ID_BYTES →
  final_ok final → service_wf x → service_wf (ended_service final a x).
Proof.
  intros Hid Hk Hf [? ? Hs ? ? ? ?]. split; try done; simpl.
  - intros id k [_ Hl]%lookup_delete_Some. by apply Hs in Hl.
  - destruct Hf as [-> | (code & Hc & ->)]; [reflexivity|]. apply shown_valid; eauto. by exists code.
Qed.

(** The coordinator once a session of its own has ended. *)
Lemma ended_co_wf final s a w :
  co_wf s → co_active s = Some a → final_ok final → inv w → (reliable_release → held w = ∅) →
  co_wf (set_world w (set_service (ended_service final a (co_service s)) (set_active None s))).
Proof.
  intros [Hsv Hv Hp Ha Han Hl Hw Hq Hc] Hact Hf Hi Hh. destruct (Ha a Hact) as [_ Hid Hk _ _ _ _].
  split; simpl; try done.
  - by apply ended_wf.
  - intros q Hq'. split; [|done]. by destruct (Hp q Hq').
  - intros id k [Hne Hlk]%lookup_delete_Some. destruct (Hl id k Hlk) as (a' & ? & ? & ?). congruence.
  - auto.
  - intros Hcl. by destruct (Hc Hcl).
Qed.

(** Closing leaves the coordinator idle and well formed, with the session unregistered. *)
Lemma close_active_wf final s :
  co_wf s → final_ok final → co_wf (close_active final s).2 ∧ co_active (close_active final s).2 = None.
Proof.
  intros Hs Hf. destruct (co_active s) as [a|] eqn:Hact.
  - destruct (cw_active _ Hs a Hact) as [_ Hid Hk _ _ Hpe _]. rewrite (close_active_run final a s) by done.
    destruct (HostPeerSession_close (as_session a, co_world s)) as [r [p1 w1]] eqn:Hcl.
    destruct (discarded _ _ _ _ _ Hpe Hcl) as (_ & ? & ?). cbn [fst snd]. split; [|done].
    by apply ended_co_wf.
  - rewrite close_idle_run by done. cbn [snd]. split; [|by destruct final].
    assert (co_wf (set_active None s)) as Hn.
    { destruct Hs as [Hsv Hv Hp Ha Han Hl Hw Hq Hc]. rewrite Hact in *. by split. }
    destruct final; [done|]. simpl. apply (status_co [] [] SessionState_Idle None) in Hn. by rewrite idle_run in Hn.
Qed.

(** ** What an operation carries over

    From [s0] on, the session stays the one it was, with the rights and the generation it had,
    and neither the grants nor the verified offers change.  A [strict] operation does not move
    the reconnect deadline either; only an event of the peer, which may report that it is
    connected again, is not strict. *)

Context (strict : bool).

Definition successor a a' : Prop :=
  as_controller_device_id a' = as_controller_device_id a ∧ as_session_id a' = as_session_id a ∧
  hp_input_allowed (as_session a') = hp_input_allowed (as_session a) ∧
  as_reconnect_generation a' = as_reconnect_generation a ∧
  (strict = true → ∀ d, as_reconnect_deadline_unix_ms a = Some d → as_reconnect_deadline_unix_ms a' = Some d).

Definition carries s0 s : Prop :=
  hs_identity (co_service s) = hs_identity (co_service s0) ∧
  hs_authorization (co_service s) = hs_authorization (co_service s0) ∧
  co_verifier s = co_verifier s0 ∧
  ∀ a', co_active s = Some a' → ∃ a, co_active s0 = Some a ∧ successor a a'.

Definition from s0 s : Prop := co_wf s ∧ carries s0 s.

Lemma from_refl s : co_wf s → from s s.
Proof. intros. split; [done|]. split_and!; try done. intros a' ?. by exists a'. Qed.

Lemma successor_trans a b c : successor a b → successor b c → successor a c.
Proof. intros (?&?&?&?&Hd) (?&?&?&?&Hd'). split_and!; [congruence..|]. eauto. Qed.

Lemma from_trans s0 s1 s2 : from s0 s1 → from s1 s2 → from s0 s2.
Proof.
  intros [_ (Hi & Hh & Hv & Hs)] [Hw (Hi' & Hh' & Hv' & Hs')]. split; [done|].
  split_and!; [congruence..|]. intros a2 (a1 & Ha1 & Hsucc)%Hs'. destruct (Hs a1 Ha1) as (a & ? & ?).
  exists a. split; [done|]. by eapply successor_trans.
Qed.

Section From.
Context (s0 : CO).

(** A change that touches the service only in its public status, and no session. *)
Lemma from_leaf {E A} (m : M CO E A) :
  (∀ s, co_wf s → co_wf (m s).2 ∧ hs_identity (co_service (m s).2) = hs_identity (co_service s) ∧
     hs_authorization (co_service (m s).2) = hs_authorization (co_service s) ∧
     co_verifier (m s).2 = co_verifier s ∧
     (co_active (m s).2 = co_active s ∨ co_active (m s).2 = None)) → keeps (from s0) m.
Proof.
  intros Hm s Hs. eapply from_trans; [exact Hs|]. destruct (Hm s (proj1 Hs)) as (Hw & Hi & Hh & Hv & Ha).
  split; [done|]. split_and!; try done. intros a' Ha'. exists a'. split; [|done].
  destruct Ha; congruence.
Qed.

Lemma status_unchanged id k state error s :
  hs_identity (co_service (on_service (update_remote_status id k state error) s).2) = hs_identity (co_service s) ∧
  hs_authorization (co_service (on_service (update_remote_status id k state error) s).2) =
    hs_authorization (co_service s).
Proof.
  unfold on_service, zoom, update_remote_status. rewrite bind_lift. by destruct (map_err _ _).
Qed.

Lemma on_service_state {E A} (m : M (HostService G W R) E A) s :
  (on_service m s).2 = set_service (m (co_service s)).2 s.
Proof. unfold on_service, zoom. by destruct (m (co_service s)). Qed.

Lemma from_status id k state error : keeps (from s0) (on_service (update_remote_status id k state error)).
Proof.
  apply from_leaf. intros s Hs. destruct (status_unchanged id k state error s) as [Hi Ha].
  rewrite on_service_state in *. split_and!; try done; [by apply status_co|by left].
Qed.

Lemma from_close final : final_ok final → keeps (from s0) (close_active final).
Proof.
  intros Hf. apply from_leaf. intros s Hs. pose proof (close_active_wf final s Hs Hf) as [Hw Hn].
  split; [done|]. destruct (co_active s) as [a|] eqn:Ha.
  - destruct (cw_active _ Hs a Ha). rewrite (close_active_run final a s) by done. simpl. auto.
  - rewrite close_idle_run by done. destruct final; simpl; auto.
Qed.

Lemma from_pending o s :
  (∀ q, o = Some q → pending_ok q ∧ co_active s = None ∧ co_closed s = false) →
  from s0 s → from s0 (set_pending o s).
Proof.
  intros Ho [Hw Hc]. split; [|exact Hc]. destruct Hw. split; try done; simpl.
  - intros q Hq. by destruct (Ho q Hq) as (? & ? & _).
  - intros Hcl. destruct o as [q|]; [|by destruct (cw_closed0 Hcl)].
    destruct (Ho q eq_refl) as (_ & _ & ?). congruence.
Qed.

Lemma from_no_pending s : from s0 s → from s0 (set_pending None s).
Proof. by apply from_pending. Qed.

Lemma from_failed_attempt x s : from s0 s → from s0 (set_failed_attempt x s).
Proof. by intros [[] ?]. Qed.

Lemma from_expire_pending now : keeps (from s0) (expire_pending now).
Proof.
  unfold expire_pending. apply keeps_bind; [|intros _]; apply keeps_modify; intros s Hs;
    repeat case_match; auto using from_no_pending, from_failed_attempt.
Qed.

Lemma final_error code : code ≠ ErrorCode_Unspecified → final_ok (Some (session_error code)).
Proof. intros. right. eauto. Qed.

Lemma final_none : final_ok None.
Proof. by left. Qed.

Lemma from_expired now : keeps (from s0) (expire_active_reconnect now).
Proof.
  unfold expire_active_reconnect. apply keeps_get. intros s _. apply keeps_bind; [|intros; apply keeps_ret].
  case_match; [by apply from_close, final_error|apply keeps_ret].
Qed.

Lemma from_outbound k id now payload : keeps (from s0) (outbound k id now payload).
Proof. unfold outbound. keeps. Qed.

Lemma from_error_outbound k id code now : keeps (from s0) (error_outbound k id code now).
Proof. apply from_outbound. Qed.

Lemma from_notified now final :
  final_ok final → keeps (from s0) (close_active_with_remote_notification now final).
Proof.
  intros Hf. unfold close_active_with_remote_notification. apply keeps_get. intros s _.
  destruct (co_active s); [|apply keeps_ret]. apply keeps_bind; [apply from_outbound|intros o].
  apply keeps_bind; [by apply from_close|intros; apply keeps_ret].
Qed.

Lemma termination_final reason : final_ok (termination_error reason).
Proof.
  unfold termination_error. destruct (ErrorCode_try_from reason) as [[]|]; first [by left|by apply final_error].
Qed.

(** ** Changes of the active session *)

Lemma on_active_run {A} a (m : M (HostPeerSession * V) HostWebRtcError A) s r p w :
  co_active s = Some a → m (as_session a, co_world s) = (r, (p, w)) →
  on_active a m s = (Ok r, set_active (Some (set_session p a)) (set_world w s)).
Proof.
  intros Ha Hm. unfold on_active. rewrite bind_on_session, Hm. cbn [fst snd].
  rewrite bind_run. unfold update_active, modify. cbn [co_active set_world]. by rewrite Ha.
Qed.

Lemma update_active_run f s a :
  co_active s = Some a → update_active f s = (Ok (), set_active (Some (f a)) s).
Proof. intros Ha. unfold update_active, modify. by rewrite Ha. Qed.

Lemma update_wf s a a' w :
  co_wf s → co_active s = Some a → as_controller_device_id a' = as_controller_device_id a →
  as_session_id a' = as_session_id a → active_ok a' w → co_wf (set_active (Some a') (set_world w s)).
Proof.
  intros [] Ha Hk Hid Hok. split; simpl; try done.
  - intros q Hq. destruct (cw_pending0 q Hq). congruence.
  - by intros ? [= <-].
  - intros ? [= <-]. rewrite Hk, Hid. by apply cw_announced0.
  - intros id k Hl. destruct (cw_live0 id k Hl) as (b & Hb & ? & ?). exists a'.
    rewrite Ha in Hb. injection Hb as <-. split_and!; congruence.
  - apply Hok.
  - intros Hcl. destruct (cw_closed0 Hcl). congruence.
Qed.

Lemma from_active s a a' w :
  from s0 s → co_active s = Some a → successor a a' → active_ok a' w →
  from s0 (set_active (Some a') (set_world w s)).
Proof.
  intros Hs Ha Hsucc Hok. eapply from_trans; [exact Hs|]. pose proof Hsucc as (Hk & Hid & _).
  split; [by eapply update_wf; [apply Hs|..]|]. split_and!; try done. intros ? [= <-]. by exists a.
Qed.

Lemma from_update s a a' :
  from s0 s → co_active s = Some a → successor a a' → active_ok a' (co_world s) →
  from s0 (set_active (Some a') s).
Proof.
  intros Hs Ha Hsucc Hok. replace (set_active (Some a') s) with (set_active (Some a') (set_world (co_world s) s))
    by by destruct s. by eapply from_active.
Qed.

Lemma set_session_ok a p w w0 :
  active_ok a w0 → PeerSession.Inv inv held (p, w) → same_rights (as_session a) p →
  phase_ok (hp_state p) (as_reconnect_deadline_unix_ms a) →
  active_ok (set_session p a) w ∧ successor a (set_session p a).
Proof. intros [] Hi [Hr1 Hr2] Hph. split; [|done]. split; try done. simpl. congruence. Qed.

Lemma active_of s a : from s0 s → co_active s = Some a → active_ok a (co_world s).
Proof. intros [[] _]. auto. Qed.

(** A call that leaves the session as it is. *)
Lemma from_candidate c s a r p w :
  from s0 s → co_active s = Some a →
  HostPeerSession_add_remote_ice_candidate c (as_session a, co_world s) = (r, (p, w)) →
  from s0 (set_active (Some (set_session p a)) (set_world w s)).
Proof.
  intros Hs Ha Hr. pose proof (active_of _ _ Hs Ha) as Hok. pose proof Hok as [_ _ _ Hph _ Hp _].
  pose proof (candidate_Inv inv held _ _ _ _ _ _ Hr Hp) as Hi. apply candidate_run in Hr as ->.
  destruct (set_session_ok a (as_session a) w _ Hok Hi) as [? ?]; [done|done|]. by eapply from_active.
Qed.

(** *** Freezing the session *)

Definition frozen_until (deadline : Z) p a : ActiveSession := set_deadline (Some deadline) (set_session p a).

Definition reconnect_deadline (now : Z) a : Z :=
  default (saturating_add U64_MAX now ACTIVE_RECONNECT_LIFETIME_MS) (as_reconnect_deadline_unix_ms a).

Lemma begin_run now s a r p w :
  co_active s = Some a → active_ok a (co_world s) →
  HostPeerSession_begin_reconnect (as_session a, co_world s) = (r, (p, w)) →
  begin_active_reconnect now s =
  match r with
  | Ok _ => (Ok (), set_service (set_remote_status (shown (as_session_id a) (as_controller_device_id a)
              SessionState_Reconnecting None) (co_service s))
              (set_active (Some (frozen_until (reconnect_deadline now a) p a)) (set_world w s)))
  | Err e => (Err (map_peer_error e), set_active (Some (set_session p a)) (set_world w s))
  end.
Proof.
  intros Ha [_ Hid Hk _ _ _ _] Hr. unfold begin_active_reconnect. rewrite bind_get, Ha, bind_some, bind_run.
  rewrite (on_active_run _ _ _ _ _ _ Ha Hr). rewrite bind_lift. destruct r as [[]|e]; [|done]. cbn [map_err].
  rewrite bind_run. erewrite update_active_run by done. unfold map_err_m.
  erewrite on_service_run by (apply (status_run _ _ SessionState_Reconnecting); by apply shown_valid). done.
Qed.

Lemma frozen_ok now s a p w :
  active_ok a (co_world s) → HostPeerSession_begin_reconnect (as_session a, co_world s) = (Ok (), (p, w)) →
  active_ok (frozen_until (reconnect_deadline now a) p a) w ∧
  successor a (frozen_until (reconnect_deadline now a) p a).
Proof.
  intros [] Hr. pose proof (begin_reconnect_Inv inv held _ _ _ _ _ Hr ao_peer0) as Hi.
  apply begin_reconnect_run in Hr as [[Hr1 Hr2] Hst]. split; cycle 1.
  { split_and!; [done..|]. intros _ d Hd. simpl. unfold reconnect_deadline. by rewrite Hd. }
  split; try done; simpl; [congruence|rewrite Hst; by right|].
  intros q Hq. destruct (ao_reconnect0 q Hq) as (? & ? & ? & _). by split_and!.
Qed.

Lemma from_begin now : keeps (from s0) (begin_active_reconnect now).
Proof.
  intros s Hs. destruct (co_active s) as [a|] eqn:Ha; cycle 1.
  { unfold begin_active_reconnect. by rewrite bind_get, Ha. }
  pose proof (active_of _ _ Hs Ha) as Hok.
  destruct (HostPeerSession_begin_reconnect (as_session a, co_world s)) as [r [p w]] eqn:Hr.
  rewrite (begin_run now s a r p w) by done. destruct r as [[]|e]; cbn [snd].
  - destruct (frozen_ok now s a p w Hok Hr) as [? ?].
    pose proof (from_active _ _ _ _ Hs Ha ltac:(done) ltac:(done)) as Hf.
    pose proof (from_status (as_session_id a) (as_controller_device_id a) SessionState_Reconnecting None _ Hf) as Hst.
    rewrite on_service_state in Hst. destruct Hok as [_ Hid Hk _ _ _ _].
    rewrite status_run in Hst by by apply shown_valid. exact Hst.
  - pose proof Hok as [_ _ _ Hph _ Hp _]. pose proof (begin_reconnect_Inv inv held _ _ _ _ _ Hr Hp) as Hi.
    apply begin_reconnect_run in Hr as [? Hst]. destruct (set_session_ok a p w _ Hok Hi) as [? ?]; [done|by rewrite Hst|].
    by eapply from_active.
Qed.

(** *** The reconnect of the active session *)

Lemma set_reconnect_ok a o w :
  active_ok a w → (∀ q, o = Some q → reconnect_of a q) →
  active_ok (set_reconnect o a) w ∧ successor a (set_reconnect o a).
Proof. intros [] Ho. split; [|done]. by split. Qed.

Lemma pending_ok_new k id request now : pending_ok (PendingSession_new k id request now).
Proof. done. Qed.

(** After [prepare_active_reconnect] its result is the reconnect of the active session. *)
Lemma from_prepare request now s :
  from s0 s →
  wp (prepare_active_reconnect request now) (λ r s', from s0 s' ∧
    ∀ q, r = Ok q → ∃ a, co_active s' = Some a ∧ reconnect_of a q ∧ is_frozen s' = is_frozen s) s.
Proof.
  intros Hs. unfold prepare_active_reconnect. wp_step. wp_step; [done|]. rename a into b.
  assert (Hb : co_active s = Some b) by done. pose proof (active_of _ _ Hs Hb) as Hok.
  set (q := set_request request _).
  assert (reconnect_of b q) as Hq.
  { unfold q. destruct (as_reconnect b) as [q0|] eqn:Hr; [|done]. by destruct (ao_reconnect _ _ Hok q0 Hr) as (? & ? & ?). }
  apply wp_bind. unfold wp at 1. rewrite (update_active_run _ _ b Hb). cbn [fst snd]. wp_step.
  destruct (set_reconnect_ok b (Some q) _ Hok) as [? ?]; [by intros ? [= <-]|]. split; [by eapply from_update|].
  intros ? [= <-]. eexists. split; [done|]. split; [done|]. unfold is_frozen. by rewrite Hb.
Qed.

Lemma from_on_reconnect {A} (m : M PendingSession RemoteSessionError A) q s a :
  from s0 s → co_active s = Some a → reconnect_of a (m q).2 → from s0 (on_reconnect q m s).2.
Proof.
  intros Hs Ha Hq. unfold on_reconnect. destruct (m q) as [r q']. cbn [snd] in Hq.
  rewrite bind_run, (update_active_run _ _ a Ha). pose proof (active_of _ _ Hs Ha) as Hok.
  destruct (set_reconnect_ok a (Some q') _ Hok) as [? ?]; [by intros ? [= <-]|]. by eapply from_update.
Qed.

Lemma push_candidate_frame c q :
  ps_controller_device_id (push_candidate c q).2 = ps_controller_device_id q ∧
  ps_session_id (push_candidate c q).2 = ps_session_id q ∧ is_ready (push_candidate c q).2 = is_ready q.
Proof.
  apply (wp_run (push_candidate c) (λ _ q', ps_controller_device_id q' = ps_controller_device_id q ∧
    ps_session_id q' = ps_session_id q ∧ is_ready q' = is_ready q) q _ _ (surjective_pairing _)).
  unfold push_candidate. repeat (wp_step; try done).
Qed.

Lemma reconnect_push c a q : reconnect_of a q → reconnect_of a (push_candidate c q).2.
Proof.
  intros (Hk & Hid & Hq & Hr). destruct (push_candidate_frame c q) as (Hk' & Hid' & Hr').
  unfold reconnect_of. rewrite Hk', Hid', Hr'. split_and!; [done..|by apply push_candidate_ok|done].
Qed.

Lemma reconnect_offered a q authentication description :
  reconnect_of a q → is_Some (as_reconnect_deadline_unix_ms a) →
  reconnect_of a (set_offer authentication description q).
Proof. by intros (? & ? & ? & _) ?. Qed.

(** A step of an operation, and its first call. *)
Definition stays {E A} (m : M CO E A) s : Prop := wp m (λ _ s', from s0 s') s.

Lemma stays_keeps {E A} (m : M CO E A) s : keeps (from s0) m → from s0 s → stays m s.
Proof. intros Hm. apply Hm. Qed.

Lemma stays_bind {E A B} (m : M CO E A) (k : A → M CO E B) s :
  wp m (λ r s', from s0 s' ∧ ∀ x, r = Ok x → stays (k x) s') s → stays (m ≫= k) s.
Proof.
  intros Hm. apply wp_bind. eapply wp_mono; [exact Hm|]. intros [x|e] s' [Hs Hk]; [by apply Hk|done].
Qed.

Lemma stays_seq {E A B} (m : M CO E A) (k : A → M CO E B) s :
  keeps (from s0) m → from s0 s → (∀ x s', from s0 s' → stays (k x) s') → stays (m ≫= k) s.
Proof. intros Hm Hs Hk. apply stays_bind. split; [by apply Hm|]. intros x _. apply Hk. by apply Hm. Qed.

Lemma stays_lift {A} (r : result RemoteSessionError A) s : from s0 s → stays (lift r) s.
Proof. done. Qed.

Lemma stays_reconnect {A} request now (m : PendingSession → M PendingSession RemoteSessionError A) s :
  (∀ q a, reconnect_of a q → (is_frozen s = true → is_Some (as_reconnect_deadline_unix_ms a)) →
    reconnect_of a (m q q).2) → from s0 s →
  stays (pending ← prepare_active_reconnect request now; on_reconnect pending (m pending)) s.
Proof.
  intros Hm Hs. apply stays_bind. eapply wp_mono; [by apply from_prepare|]. intros r s' [Hs' Hr].
  split; [done|]. intros q Hq. destruct (Hr q Hq) as (a & Ha & Hof & Hfr).
  eapply from_on_reconnect; [done|done|]. apply Hm; [done|]. rewrite <- Hfr. unfold is_frozen. rewrite Ha.
  by destruct (as_reconnect_deadline_unix_ms a).
Qed.

Lemma begin_frozen now s :
  from s0 s → wp (begin_active_reconnect now) (λ r s', from s0 s' ∧ ∀ u, r = Ok u → is_frozen s' = true) s.
Proof.
  intros Hs. unfold wp. split; [by apply from_begin|]. destruct (co_active s) as [a|] eqn:Ha; cycle 1.
  { unfold begin_active_reconnect. by rewrite bind_get, Ha. }
  pose proof (active_of _ _ Hs Ha) as Hok.
  destruct (HostPeerSession_begin_reconnect (as_session a, co_world s)) as [r [p w]] eqn:Hr.
  rewrite (begin_run now s a r p w) by done. by destruct r.
Qed.

(** Freezing the session, then adding to its reconnect. *)
Lemma stays_offer {A} request now (m : PendingSession → M PendingSession RemoteSessionError A) s :
  (∀ q a, reconnect_of a q → is_Some (as_reconnect_deadline_unix_ms a) → reconnect_of a (m q q).2) →
  from s0 s →
  stays (begin_active_reconnect now;;
         pending ← prepare_active_reconnect request now; on_reconnect pending (m pending)) s.
Proof.
  intros Hm Hs. apply stays_bind. eapply wp_mono; [by apply begin_frozen|]. intros r s' [Hs' Hr].
  split; [done|]. intros u Hu. apply (stays_reconnect request now m); [|done]. eauto.
Qed.

Lemma from_negotiation negotiation request now s :
  from s0 s → stays (handle_active_negotiation negotiation request now) s.
Proof.
  intros Hs. unfold handle_active_negotiation, stays. wp_step. wp_step; [done|]. rename a into b.
  assert (Hb : co_active s = Some b) by done. wp_step; [done|]. wp_step; [done|].
  destruct a as [description|candidate|e]; [| |done].
  - wp_step; [done|].
    apply (stays_offer request now (λ q, modify (λ x, set_offer (ps_authentication x) (Some description) x);;
      fail_if (is_some (ps_description q)) RSE_InvalidEnvelope)); [|done].
    intros q a Hq Hd. pose proof (reconnect_offered a q (ps_authentication q) (Some description) Hq Hd).
    unfold modify. by destruct (is_some (ps_description q)).
  - destruct (accepts_candidates b).
    + apply stays_bind. unfold wp.
      destruct (HostPeerSession_add_remote_ice_candidate (peer_candidate candidate)
                  (as_session b, co_world s)) as [r [p w]] eqn:Hr.
      rewrite (on_active_run _ _ _ _ _ _ Hb Hr). cbn [fst snd].
      pose proof (from_candidate _ _ _ _ _ _ Hs Hb Hr) as Hf. split; [done|]. intros; by apply stays_lift.
    + apply (stays_reconnect request now (λ q, push_candidate (peer_candidate candidate))); [|done].
      intros. by apply reconnect_push.
Qed.

(** ** Events of the peer *)

Lemma from_peer_call {A} (m : M (HostPeerSession * V) HostWebRtcError A) s a r p w :
  from s0 s → co_active s = Some a → m (as_session a, co_world s) = (r, (p, w)) →
  PeerSession.Inv inv held (p, w) → same_rights (as_session a) p →
  phase_ok (hp_state p) (as_reconnect_deadline_unix_ms a) →
  on_active a m s = (Ok r, set_active (Some (set_session p a)) (set_world w s)) ∧
  from s0 (set_active (Some (set_session p a)) (set_world w s)).
Proof.
  intros Hs Ha Hr Hi Hrights Hph. split; [by apply on_active_run|]. pose proof (active_of _ _ Hs Ha) as Hok.
  destruct (set_session_ok a p w _ Hok Hi) as [? ?]; [done|done|]. by eapply from_active.
Qed.

(** A session that a call may have closed or left in an error is closed. *)
Lemma from_close_after final s a p w :
  from s0 s → co_active s = Some a → final_ok final → PeerSession.Inv inv held (p, w) →
  same_rights (as_session a) p →
  from s0 (close_active final (set_active (Some (set_session p a)) (set_world w s))).2 ∧
  co_active (close_active final (set_active (Some (set_session p a)) (set_world w s))).2 = None.
Proof.
  intros Hs Ha Hf Hi Hr. pose proof (active_of _ _ Hs Ha) as [_ Hid Hk _ _ _ _].
  rewrite (close_active_run final (set_session p a)) by done. cbn [co_world set_active set_world as_session set_session].
  destruct (HostPeerSession_close (p, w)) as [r [p1 w1]] eqn:Hcl.
  destruct (discarded _ _ _ _ _ Hi Hcl) as (_ & ? & ?). cbn [fst snd]. split; [|done].
  destruct Hs as [Hw Hc]. split; [by apply (ended_co_wf final s a)|].
  destruct Hc as (? & ? & ? & _). by split_and!.
Qed.

Lemma from_world s w : from s0 s → inv w → held w ⊆ held (co_world s) → from s0 (set_world w s).
Proof.
  intros [[] Hc] Hi Hh. split; [|exact Hc]. split; try done; simpl.
  - intros a Ha. destruct (cw_active0 a Ha). split; try done. by eapply peer_call_Inv.
  - intros Hrel Ha. specialize (cw_quiet0 Hrel Ha). rewrite cw_quiet0 in Hh. by apply equiv_empty_L in Hh.
Qed.

Lemma from_connected s a p :
  strict = false → from s0 s → co_active s = Some a → PeerSession.Inv inv held (p, co_world s) →
  same_rights (as_session a) p → hp_state p = HS_Connected →
  from s0 (set_active (Some (set_deadline None (set_reconnect None (set_session p a)))) s).
Proof.
  intros Hstrict Hs Ha Hi [Hid Hr] Hst. pose proof (active_of _ _ Hs Ha) as [].
  eapply from_update; [done|done|split_and!; try done; congruence|].
  split; try done; simpl; [congruence|rewrite Hst; by right].
Qed.

(** Input of a session that is not frozen: an error closes the session. *)
Lemma input_event {A B} (m : M (HostPeerSession * V) HostWebRtcError A) code (k : M CO RemoteSessionError B) s :
  code ≠ ErrorCode_Unspecified → from s0 s → is_frozen s = false →
  (∀ p w r p' w', m (p, w) = (r, (p', w')) → PeerSession.Inv inv held (p, w) →
     PeerSession.Inv inv held (p', w') ∧ same_rights p p') →
  (∀ b x p w, co_active s = Some b → as_reconnect_deadline_unix_ms b = None →
     m (as_session b, co_world s) = (Ok x, (p, w)) →
     PeerSession.Inv inv held (p, w) → same_rights (as_session b) p →
     stays k (set_active (Some (set_session p b)) (set_world w s))) →
  stays (active ← ok_or (co_active s) RSE_Input;
         result ← on_active active m;
         match result with
         | Err _ => close_active (Some (session_error code));; mthrow RSE_Input
         | Ok _ => k
         end) s.
Proof.
  intros Hc Hs Hfr Hm Hk. unfold stays. wp_step; [done|]. rename a into b. assert (Hb : co_active s = Some b) by done.
  pose proof (active_of _ _ Hs Hb) as [_ _ _ Hph _ Hp _].
  assert (as_reconnect_deadline_unix_ms b = None) as Hd.
  { unfold is_frozen in Hfr. rewrite Hb in Hfr. by destruct (as_reconnect_deadline_unix_ms b). }
  destruct (m (as_session b, co_world s)) as [r [p w]] eqn:Hr.
  destruct (Hm _ _ _ _ _ Hr Hp) as [Hi Hrights]. apply wp_bind. unfold wp at 1.
  rewrite (on_active_run _ _ _ _ _ _ Hb Hr). cbn [fst snd]. destruct r as [x|e]; [by eapply Hk|].
  destruct (from_close_after (Some (session_error code)) s b p w) as [Hf _]; [done..|by apply final_error|done|done|].
  apply stays_bind. split; [exact Hf|]. done.
Qed.

Lemma from_peer_event event now : strict = false → keeps (from s0) (handle_peer_event event now).
Proof.
  intros Hstrict s1 Hs1. change (stays (handle_peer_event event now) s1). unfold handle_peer_event, stays.
  wp_step. wp_step; [done|]. apply stays_seq; [apply from_expired|done|]. intros expired s Hs.
  destruct expired; [done|]. unfold stays. wp_step. destruct event as [| | | |candidate|encoded|encoded].
  - wp_step; [done|]. rename a into b. assert (Hb : co_active s = Some b) by done.
    pose proof (active_of _ _ Hs Hb) as [_ _ _ _ _ Hp _].
    destruct (HostPeerSession_mark_connected (as_session b, co_world s)) as [r [p w]] eqn:Hr.
    pose proof (mark_connected_Inv inv held _ _ _ _ _ Hr Hp) as Hi.
    pose proof (mark_connected_run _ _ _ _ _ Hr) as (Hrights & -> & Hst).
    apply wp_bind. unfold wp at 1. rewrite (on_active_run _ _ _ _ _ _ Hb Hr). cbn [fst snd].
    destruct r as [[]|e]; cbn [map_err]; (apply wp_lift; [intros e' ?|intros u ?]); [done| |subst p|done].
    + apply wp_bind. unfold wp at 1. erewrite update_active_run by done. cbn [fst snd].
      apply wp_bind. unfold wp at 1. erewrite update_active_run by done. cbn [fst snd].
      apply stays_seq; [apply keeps_map_err, from_status| |by intros].
      pose proof (from_connected s b p Hstrict Hs Hb Hi Hrights Hst) as Hf. by destruct s.
    + pose proof (active_of _ _ Hs Hb) as [_ _ _ Hph _ _ _]. by eapply (from_peer_call HostPeerSession_mark_connected).
  - apply stays_seq; [apply from_begin|done|by intros].
  - apply stays_seq; [apply from_begin|done|by intros].
  - by apply from_notified; [apply final_none|].
  - wp_step; [done|]. apply stays_seq; [apply from_outbound|done|by intros].
  - destruct (is_frozen s) eqn:Hfr; [done|]. eapply input_event; [done|done|done| |].
    + intros p w r p' w' Hr Hp. split; [by eapply handle_reliable_Inv|]. by apply reliable_run in Hr as [? _].
    + intros b x p w Hb Hd Hr Hi Hrights. pose proof (reliable_run _ _ _ _ _ _ Hr) as [_ Hst]. unfold stays. wp_step.
      cbn [co_active set_active as_session set_session]. case_bool_decide as Hcl.
      * destruct (from_close_after None s b p w) as [Hf _]; [done..|by left|done|done|].
        apply stays_bind. split; [exact Hf|]. done.
      * wp_step. wp_step. eapply from_peer_call; [exact Hs|exact Hb|exact Hr|done|done|]. rewrite Hd. destruct (Hst eq_refl); [by right|done].
  - destruct (is_frozen s) eqn:Hfr; [done|]. eapply input_event; [done|done|done| |].
    + intros p w r p' w' Hr Hp. split; [by eapply handle_pointer_Inv|]. by apply pointer_run in Hr as [? _].
    + intros b x p w Hb Hd Hr Hi Hrights. pose proof (pointer_run _ _ _ _ _ _ Hr) as [_ Hst]. unfold stays. wp_step.
      eapply from_peer_call; [exact Hs|exact Hb|exact Hr|done|done|]. rewrite (Hst eq_refl). by eapply active_of.
Qed.

Lemma from_next_event now : keeps (from s0) (next_peer_event now).
Proof.
  intros s Hs. change (stays (next_peer_event now) s). unfold next_peer_event, stays. wp_step. apply wp_bind.
  apply (wp_mono _ (λ r s', from s0 s' ∧ is_ok r = true)).
  - destruct (is_some (co_active s)); [|by wp_step]. apply wp_try, wp_zoom. unfold wp.
    destruct Hs as [Hw Hc]. pose proof (law_events (inv:=inv) (held:=held) _ (cw_world _ Hw)) as [? ?].
    split; [|done]. by apply from_world.
  - intros [[event|e]|e] s' [Hs' Hr]; [by wp_step| |done]. apply stays_seq; [|done|done]. apply from_close, final_error.
    by destruct e.
Qed.

Lemma from_drain fuel elapsed now sent : strict = false → keeps (from s0) (drain_events fuel elapsed now sent).
Proof.
  intros Hstrict. revert sent. induction fuel as [|fuel IH]; intros sent; simpl; [apply keeps_ret|].
  apply keeps_bind; [apply from_next_event|intros [event|]; [|apply keeps_ret]].
  apply keeps_bind; [by apply from_peer_event|intros more]. case_match; [apply keeps_ret|apply IH].
Qed.

Lemma from_poll now : strict = false → keeps (from s0) (poll_peer_event now).
Proof.
  intros Hstrict.   unfold poll_peer_event. apply keeps_bind; [apply from_expired|intros []; [apply keeps_ret|]].
  apply keeps_bind; [apply from_next_event|intros [event|]; [by apply from_peer_event|apply keeps_ret]].
Qed.

Lemma from_poll_all elapsed now :
  strict = false → keeps (from s0) (poll_peer_events_with_budget elapsed now).
Proof.
  intros Hstrict.   unfold poll_peer_events_with_budget. apply keeps_bind; [apply from_expired|intros []; [apply keeps_ret|by apply from_drain]].
Qed.

Lemma from_termination event now : keeps (from s0) (handle_termination event now).
Proof.
  unfold handle_termination. apply keeps_get. intros s _. repeat case_match; try apply keeps_ret.
  apply from_notified, termination_final.
Qed.

Lemma from_signaling_lost now : keeps (from s0) (signaling_lost now).
Proof.
  unfold signaling_lost. apply keeps_bind; [apply keeps_modify; apply from_no_pending|intros _].
  apply keeps_get. intros s _. case_match; [|apply keeps_ret].
  apply keeps_bind; [apply keeps_try, from_begin|intros [[]|e]; [apply keeps_ret|]].
  apply keeps_bind; [by apply keeps_try, from_close, final_error|intros [[]|e']; apply keeps_throw].
Qed.

Lemma from_route_changed now : keeps (from s0) (privileged_route_changed now).
Proof. unfold privileged_route_changed. apply keeps_get. intros s _. case_match; [apply from_begin|apply keeps_ret]. Qed.

Lemma from_shutdown : keeps (from s0) shutdown.
Proof.
  intros s Hs. change (stays shutdown s). unfold shutdown, stays. wp_step. wp_step. apply wp_bind.
  apply from_no_pending, (from_failed_attempt None) in Hs.
  set (t := set_failed_attempt None (set_pending None s)) in *.
  assert (co_pending t = None) as Hp by done. clearbody t.
  unfold wp at 1. pose proof (from_close None final_none _ Hs) as Hf.
  pose proof (close_active_wf None _ (proj1 Hs) final_none) as [_ Hn].
  assert (co_pending (close_active None t).2 = None) as Hp'.
  { destruct (co_active t) as [a|] eqn:Ha.
    - destruct (active_of _ _ Hs Ha) as [_ Hid Hk _ _ _ _]. by rewrite (close_active_run None a t Ha Hid Hk final_none).
    - by rewrite close_idle_run. }
  destruct (close_active None t) as [[[]|e] t'].
  - unfold wp, modify. cbn [snd] in *. destruct Hf as [[] Hc]. split; [by split|exact Hc].
  - exact Hf.
Qed.
End From.

(** ** The start of a session *)

Lemma new_fields id permissions config p :
  HostPeerSession_new id permissions config = Ok p →
  hp_session_id p = id ∧ hp_input_allowed p = bool_decide (SessionPermission_ControlInput ∈ permissions).
Proof. unfold HostPeerSession_new. intros Hn. run Hn. Qed.

(** Starting the peer presses nothing, and a failed start releases. *)
Lemma offer_quiet sdp p w r p' w' :
  HostPeerSession_accept_offer sdp (p, w) = (r, (p', w')) → inv w →
  (reliable_release → held w = ∅) → reliable_release → held w' = ∅.
Proof.
  intros Hr Hi Hh Hrel. specialize (Hh Hrel). revert Hr.
  unfold HostPeerSession_accept_offer, self_get, self_set, world. unmonad.
  destruct (bool_decide (hp_state p = HS_New)) eqn:Hn; simpl; [|by intros [= <- <- <-]].
  destruct (invalid_offer sdp); simpl; [by intros [= <- <- <-]|].
  pose proof (law_peer_start (inv:=inv) (held:=held) (hp_config p) sdp w Hi) as [Hi1 Hh1].
  destruct (peer_start (hp_config p) sdp w) as [r1 w1]. simpl in *.
  assert (held w1 = ∅) as Hh1' by (apply equiv_empty_L; by rewrite <- Hh).
  assert (∀ rc p2 w2, HostPeerSession_close (p, w1) = (rc, (p2, w2)) → held w2 = ∅) as Hclose.
  { apply bool_decide_eq_true in Hn. intros rc p2 w2. rewrite close_spec.
    destruct (decide (hp_state p = HS_Closed)) as [Hc|_]; [congruence|].
    destruct (sink_release_all w1) as [r2 w3] eqn:Hs, (peer_close w3) as [r3 w4] eqn:Hpc. intros [= <- <- <-].
    pose proof (law_release_all (inv:=inv) (held:=held) _ _ _ Hs Hi1) as [Hi3 Hh3].
    pose proof (law_peer_close (held:=held) w3 Hi3) as [_ Hh4]. rewrite Hpc in Hh4. simpl in Hh4.
    rewrite Hh3 in Hh4; [by apply equiv_empty_L in Hh4|].
    specialize (Hrel w1 Hi1). rewrite Hs in Hrel. by destruct r2 as [[]|]. }
  destruct r1 as [a|e]; [destruct (invalid_answer a)|]; simpl;
    try (destruct (HostPeerSession_close (p, w1)) as [rc [p2 w2]] eqn:Hcl; pose proof (Hclose _ _ _ eq_refl));
    by intros [= <- <- <-].
Qed.

(** The coordinator between two sessions, with [m] the sessions the service knows. *)
Record between (m : gmap bytes bytes) s : Prop := {
  be_service : service_wf (co_service s);
  be_verifier : ov_host_device_id (co_verifier s) = host_device_id s;
  be_live : live (co_service s) = m;
  be_world : inv (co_world s);
  be_quiet : reliable_release → held (co_world s) = ∅;
  be_active : co_active s = None;
  be_pending : co_pending s = None;
  be_closed : co_closed s = false
}.

Lemma idle_between s :
  co_wf s → co_active s = None → co_pending s = None → co_closed s = false → between ∅ s.
Proof.
  intros [] Ha Hp Hc. split; try done; [|auto]. apply map_empty. intros id.
  destruct (live (co_service s) !! id) as [k|] eqn:Hk; [|done].
  destruct (cw_live0 id k Hk) as (a & ? & _). congruence.
Qed.

Lemma between_wf s : between ∅ s → co_wf s ∧ co_active s = None.
Proof.
  intros [Hs Hv Hl Hw Hq Ha Hp Hc]. split; [|done]. split; rewrite ?Ha, ?Hp, ?Hl, ?Hc; try done. auto.
Qed.

Lemma between_world m s w : between m s → inv w → (reliable_release → held w = ∅) → between m (set_world w s).
Proof. intros [] ? ?. by split. Qed.

Lemma between_service m m' s (x : HostService G W R) :
  between m s → service_wf x → hs_identity x = hs_identity (co_service s) → live x = m' →
  between m' (set_service x s).
Proof.
  intros [Hs Hv Hl Hw Hq Ha Hp Hc] Hx Hi Hm. split; try done. unfold host_device_id in *. simpl. by rewrite Hi.
Qed.

Lemma between_status m id k state error s :
  between m s → between m (on_service (update_remote_status id k state error) s).2.
Proof.
  intros Hs. rewrite on_service_state. pose proof (remote_status_keeps id k state error _ (be_service _ _ Hs)) as Hw.
  eapply between_service; [exact Hs|exact Hw|..];
    unfold update_remote_status; rewrite bind_lift; destruct (map_err _ _); try done; apply Hs.
Qed.

Lemma discard_between m p s :
  between m s → PeerSession.Inv inv held (p, co_world s) →
  wp (discard_session p) (λ r s', r = Ok () ∧ between m s') s.
Proof.
  intros Hs Hi. unfold wp, discard_session. rewrite bind_on_session.
  destruct (HostPeerSession_close (p, co_world s)) as [r [p1 w1]] eqn:Hc.
  destruct (discarded _ _ _ _ _ Hi Hc) as (_ & ? & ?). cbn [fst snd].
  rewrite bind_on_session. split; [done|].
  exact (between_world _ _ _ Hs ltac:(done) ltac:(done)).
Qed.

Lemma registered_between id k s :
  between ∅ s →
  wp (try (on_service (register_active_session id k)) : M CO RemoteSessionError _) (λ r s', co_world s' = co_world s ∧
    ∃ result, r = Ok result ∧ match result with
    | Ok _ => len id = SESSION_ID_BYTES ∧ len k = DEVICE_ID_BYTES ∧ between {[id := k]} s'
    | Err _ => between ∅ s'
    end) s.
Proof.
  intros Hs. pose proof Hs as [Hsv _ Hl _ _ _ _ _]. apply wp_try. unfold wp. rewrite on_service_state.
  pose proof (register_keeps id k _ Hsv) as Hw'.
  pose proof (register_spec id k (hs_sessions (co_service s))) as Hr. unfold wp in Hr.
  unfold register_active_session, on_service, on_sessions, zoom in *.
  destruct (register id k (hs_sessions (co_service s))) as [[[]|e] sr]; cbn [fst snd] in *;
    (split; [done|]); eexists; (split; [done|]).
  - destruct Hr as (? & ? & _ & Hm & _). split; [done|]. split; [done|]. eapply between_service; [exact Hs|done|done|].
    simpl. by rewrite Hm, Hl.
  - subst sr. by eapply between_service; [exact Hs|..].
Qed.

Lemma recorded_between m k now s :
  between m s →
  wp (try (on_service (record_authenticated_remote_session k now)) : M CO RemoteSessionError _)
     (λ r s', co_world s' = co_world s ∧ (∃ result, r = Ok result) ∧ between m s') s.
Proof.
  intros Hs. pose proof Hs as [Hsv _ Hl _ _ _ _ _]. apply wp_try. unfold wp. rewrite on_service_state.
  split; [done|]. split; [by eexists|]. eapply between_service; [exact Hs|by apply record_keeps|..].
  all: unfold record_authenticated_remote_session, on_authorization; rewrite bind_map_err_zoom;
    destruct (record_authenticated_session _ _ _) as [[]]; done.
Qed.

Lemma unregistered_between id k s :
  between {[id := k]} s → len id = SESSION_ID_BYTES →
  between ∅ (ignored (on_service (unregister_active_session id)) s).2.
Proof.
  intros Hs Hid. pose proof Hs as [Hsv _ Hl _ _ _ _ _]. unfold ignored. cbn [snd]. rewrite on_service_state.
  eapply between_service; [exact Hs|by apply unregister_keeps|..]; rewrite unregister_run by done; [done|].
  simpl. by rewrite Hl, delete_singleton_eq.
Qed.

Lemma add_candidates_spec m candidates p s :
  between m s → PeerSession.Inv inv held (p, co_world s) →
  wp (add_candidates candidates p) (λ r s', between m s' ∧ PeerSession.Inv inv held (p, co_world s') ∧
    ∃ b, r = Ok (b, p)) s.
Proof.
  revert s. induction candidates as [|c candidates IH]; intros s Hs Hi; [by split_and!; eauto|].
  cbn [add_candidates]. unfold wp. rewrite bind_on_session.
  destruct (HostPeerSession_add_remote_ice_candidate c (p, co_world s)) as [r [p1 w1]] eqn:Hr. cbn [fst snd].
  pose proof (candidate_Inv inv held _ _ _ _ _ _ Hr Hi) as Hi1.
  assert (p1 = p) as -> by by eapply candidate_run.
  assert (between m (set_world w1 s)) as Hs1.
  { eapply between_world; [done|apply Hi1|]. intros Hrel. pose proof (be_quiet _ _ Hs Hrel) as Hh.
    revert Hr. unfold HostPeerSession_add_remote_ice_candidate, self_get, world. unmonad.
    pose proof (law_peer_candidate (inv:=inv) (held:=held) c (co_world s) (be_world _ _ Hs)) as [_ Hc].
    destruct (bool_decide _); simpl; [|by intros [= <- <-]].
    destruct (peer_add_remote_ice_candidate c (co_world s)). intros [= <- <-]. simpl in Hc.
    rewrite Hh in Hc. by apply equiv_empty_L in Hc. }
  destruct r as [[]|e]; [by apply IH|]. by split_and!; eauto.
Qed.

(** A session that is given up leaves nothing behind. *)
Lemma abandon_between {A} m p (e : RemoteSessionError) s :
  between m s → PeerSession.Inv inv held (p, co_world s) →
  wp (discard_session p;; mthrow e : M CO RemoteSessionError A) (λ r s', r = Err e ∧ between m s') s.
Proof.
  intros Hs Hi. apply wp_bind. eapply wp_mono; [by eapply discard_between|].
  intros r s' [-> Hs']. by wp_step.
Qed.

(** What an offer starts: the session of its controller, with the rights it asked for. *)
Definition started_as (v : VerifiedSessionOffer) a : Prop :=
  as_session_id a = vo_session_id v ∧
  as_controller_device_id a = DeviceIdentity_device_id (vo_controller v) ∧
  hp_input_allowed (as_session a) = bool_decide (SessionPermission_ControlInput ∈ vo_permissions v) ∧
  as_reconnect_generation a = 0 ∧ as_reconnect_deadline_unix_ms a = None.

Definition activated v (r : result RemoteSessionError StartedSession) s : Prop :=
  match r with
  | Ok _ => co_wf s ∧ ∃ a, co_active s = Some a ∧ started_as v a
  | Err _ => between ∅ s
  end.

Lemma active_wf id k s p :
  between {[id := k]} s → PeerSession.Inv inv held (p, co_world s) → hp_session_id p = id →
  len id = SESSION_ID_BYTES → len k = DEVICE_ID_BYTES → hp_state p = HS_Negotiating →
  co_wf (set_active (Some
    {| as_controller_device_id := k; as_session_id := id; as_session := p; as_reconnect := None;
       as_reconnect_generation := 0; as_reconnect_deadline_unix_ms := None |}) s).
Proof.
  intros [Hs Hv Hl Hw Hq Ha Hp Hc] Hi Hid H16' Hk Hst.
  split; simpl; rewrite ?Hp, ?Hl, ?Hc; try done.
  - intros ? [= <-]. split; try done. simpl. by left.
  - intros ? [= <-]. left. simpl. apply lookup_singleton_eq.
  - intros id' k' [<- <-]%lookup_singleton_Some. by eexists.
Qed.

Lemma register_verified_spec candidates v p answer signed now s :
  between ∅ s → PeerSession.Inv inv held (p, co_world s) → hp_session_id p = vo_session_id v →
  hp_input_allowed p = bool_decide (SessionPermission_ControlInput ∈ vo_permissions v) →
  hp_state p = HS_Negotiating →
  wp (register_verified_session candidates v p answer signed now) (activated v) s.
Proof.
  intros Hs Hi Hid Hal Hst. unfold register_verified_session.
  set (id := vo_session_id v) in *. set (k := DeviceIdentity_device_id (vo_controller v)).
  assert (∀ m (e : RemoteSessionError) t, between m t → m = ∅ → PeerSession.Inv inv held (p, co_world t) →
    wp (discard_session p;; mthrow e : M CO RemoteSessionError StartedSession) (activated v) t) as Hgone.
  { intros m e t Ht -> Hit. eapply wp_mono; [by eapply abandon_between|]. by intros r t' [-> ?]. }
  assert (∀ (e : RemoteSessionError) t, between {[id := k]} t → len id = SESSION_ID_BYTES →
    PeerSession.Inv inv held (p, co_world t) →
    wp (ignored (on_service (unregister_active_session id));; discard_session p;; mthrow e
        : M CO RemoteSessionError StartedSession) (activated v) t) as Hback.
  { intros e t Ht Hl Hit. unfold wp. rewrite bind_ignored. rewrite on_service_state in *.
    apply (Hgone ∅); [|done|exact Hit]. pose proof (unregistered_between id k t Ht Hl) as Hu.
    unfold ignored in Hu. cbn [snd] in Hu. by rewrite on_service_state in Hu. }
  apply wp_bind. eapply wp_mono; [by apply (registered_between id k)|].
  intros ? s1 (Hw1 & [[]|e] & -> & Hs1); cbn [is_ok negb]; [|apply (Hgone ∅); [done..|by rewrite Hw1]].
  destruct Hs1 as (Hlid & Hlk & Hs1). apply wp_bind. eapply wp_mono; [by eapply recorded_between|].
  intros ? s2 (Hw2 & [[[]|e] ->] & Hs2); [|apply Hback; [done..|by rewrite Hw2, Hw1]].
  apply wp_bind. eapply wp_mono; [eapply add_candidates_spec; [exact Hs2|by rewrite Hw2, Hw1]|].
  intros ? s3 (Hs3 & Hi3 & b & ->). cbv beta iota. destruct b; cbn [negb]; [|by apply Hback].
  pose proof (between_status _ id k SessionState_Connecting None _ Hs3) as Hs4.
  rewrite on_service_state, status_run in Hs4 by by apply shown_valid.
  unfold wp. rewrite bind_try.
  erewrite on_service_run by (apply (status_run _ _ SessionState_Connecting); by apply shown_valid).
  split; [by apply (active_wf id k _ p Hs4)|]. eexists. split; [done|]. by split_and!.
Qed.

Lemma activate_spec offer description candidates v now s :
  between ∅ s → wp (activate_verified_session offer description candidates v now) (activated v) s.
Proof.
  intros Hs. unfold activate_verified_session. wp_step.
  (* the parts of the session *)
  apply wp_bind. unfold wp at 1, on_world, zoom.
  destruct (factory_create (co_config s) (from_verified v) (co_world s)) as [r w] eqn:Hcr.
  apply (law_create (inv:=inv) (held:=held)) in Hcr as (Hiw & Hsub & Hnew); [|apply Hs]. cbn [fst snd].
  assert (between ∅ (set_world w s)) as Hs1.
  { eapply between_world; [done..|]. intros Hrel. rewrite (be_quiet _ _ Hs Hrel) in Hsub. by apply equiv_empty_L in Hsub. }
  destruct r as [[]|e]; [|exact Hs1]. specialize (Hnew eq_refl).
  destruct (HostPeerSession_new (vo_session_id v) (vo_permissions v) (co_config s)) as [p0|e] eqn:Hp0; [|exact Hs1].
  cbn [map_err]. apply wp_bind, wp_ret.
  pose proof (new_fields _ _ _ _ Hp0) as [Hid0 Hal0].
  pose proof (new_Inv inv held _ _ _ _ _ Hp0 Hiw Hnew) as Hi0. clear Hp0.
  (* the offer *)
  unfold wp. rewrite bind_on_session. cbn [co_world set_world].
  destruct (HostPeerSession_accept_offer (WebRtcSessionDescription_sdp description) (p0, w)) as [r [p w1]] eqn:Hr.
  pose proof (accept_offer_Inv inv held _ _ _ _ _ _ Hr Hi0) as Hi.
  pose proof (offer_quiet _ _ _ _ _ _ Hr Hiw (λ _, Hnew)) as Hq1. apply offer_run in Hr as [[Hid Hal] Hneg].
  cbn [fst snd]. apply (between_world _ _ w1) in Hs1; [|apply Hi|done].
  change (set_world w1 (set_world w s)) with (set_world w1 s) in *.
  assert (∀ e : RemoteSessionError, wp (discard_session p;; mthrow e : M CO RemoteSessionError StartedSession) (activated v)
    (set_world w1 s)) as Hgone.
  { intros e. eapply wp_mono; [by eapply abandon_between|]. by intros r' t' [-> ?]. }
  destruct r as [answer|e]; [|apply Hgone].
  destruct (sign_remote_answer _ _ _ _) as [signed|e]; [|apply Hgone].
  apply register_verified_spec; [done..|congruence|congruence|by apply Hneg].
Qed.

(** ** Who may have a session *)

(** The offer the verifier of [s0] accepts, with the grants of [s0]. *)
Definition verified_offer s0 (offer : SessionOfferAuthentication) (description : WebRtcSessionDescription)
    (now : Z) (v : VerifiedSessionOffer) : Prop :=
  (OfferVerifier_verify offer (WebRtcSessionDescription_sdp description)
     (WebRtcSessionDescription_dtls_fingerprint_sha256 description)
     (rs_registry (hs_authorization (co_service s0))) now (co_verifier s0)).1 = Ok v.

(** A new session is what a verified offer of the sender started. *)
Definition started s0 (sender : bytes) (now : Z) a : Prop :=
  ∃ offer description v, verified_offer s0 offer description now v ∧ started_as v a ∧
    as_controller_device_id a = sender.

(** A renewed session is the same session, one generation later, by a verified offer for it. *)
Definition renewed s0 (sender : bytes) (now : Z) a' : Prop :=
  ∃ offer description v a, verified_offer s0 offer description now v ∧ co_active s0 = Some a ∧
    as_session_id a' = as_session_id a ∧ as_session_id a = vo_session_id v ∧
    as_controller_device_id a' = as_controller_device_id a ∧
    as_controller_device_id a = DeviceIdentity_device_id (vo_controller v) ∧
    as_controller_device_id a = sender ∧
    hp_input_allowed (as_session a') = hp_input_allowed (as_session a) ∧
    as_reconnect_generation a' = as_reconnect_generation a + 1 ∧
    (strict = true → ∀ d, as_reconnect_deadline_unix_ms a = Some d → as_reconnect_deadline_unix_ms a' = Some d).

Definition entitled s0 (sender : bytes) (now : Z) s : Prop :=
  co_wf s ∧ ∀ a', co_active s = Some a' →
    (∃ a, co_active s0 = Some a ∧ successor a a') ∨ started s0 sender now a' ∨ renewed s0 sender now a'.

Section Routed.
Context (s0 : CO) (sender : bytes) (now : Z).

Lemma entitled_from s : from s0 s → entitled s0 sender now s.
Proof. intros [Hw (_ & _ & _ & Hs)]. split; [done|]. auto. Qed.

Lemma entitled_same s s' : entitled s0 sender now s → co_wf s' → co_active s' = co_active s → entitled s0 sender now s'.
Proof. intros [_ He] Hw Ha. split; [done|]. by rewrite Ha. Qed.

Lemma entitled_idle s : co_wf s → co_active s = None → entitled s0 sender now s.
Proof. intros Hw Ha. split; [done|]. intros a'. by rewrite Ha. Qed.

Lemma entitled_between s : between ∅ s → entitled s0 sender now s.
Proof. intros [? ?]%between_wf. by apply entitled_idle. Qed.

Lemma entitled_status id k state error :
  keeps (entitled s0 sender now) (on_service (update_remote_status id k state error)).
Proof.
  intros s Hs. rewrite on_service_state. eapply entitled_same; [exact Hs| |done]. by apply status_co; destruct Hs.
Qed.

Lemma entitled_outbound k id payload : keeps (entitled s0 sender now) (outbound k id now payload).
Proof. unfold outbound. keeps. Qed.

Lemma map_err_m_run {E E' A} (f : E → E') (m : M CO E A) s r s' :
  m s = (r, s') → map_err_m f m s = (map_err f r, s').
Proof. intros Hm. unfold map_err_m. by rewrite Hm. Qed.

Lemma verify_run offer description s :
  ∃ r verifier, OfferVerifier_verify offer (WebRtcSessionDescription_sdp description)
      (WebRtcSessionDescription_dtls_fingerprint_sha256 description)
      (rs_registry (hs_authorization (co_service s))) now (co_verifier s) = (r, verifier) ∧
    map_err_m map_service_error (on_verifier (verify_remote_offer offer
      (WebRtcSessionDescription_sdp description)
      (WebRtcSessionDescription_dtls_fingerprint_sha256 description) now)) s =
      (map_err map_service_error (map_err RS_Authentication r), set_verifier verifier s) ∧
    ov_host_device_id verifier = ov_host_device_id (co_verifier s).
Proof.
  destruct (OfferVerifier_verify offer (WebRtcSessionDescription_sdp description)
    (WebRtcSessionDescription_dtls_fingerprint_sha256 description)
    (rs_registry (hs_authorization (co_service s))) now (co_verifier s)) as [r verifier] eqn:Hv.
  exists r, verifier. split; [done|]. split; [apply map_err_m_run|].
  - unfold on_verifier, verify_remote_offer, zoom. rewrite bind_get. unfold map_err_m. cbn [fst snd].
    rewrite Hv. cbn [fst snd]. by destruct s.
  - by apply verify_spec in Hv as [? _].
Qed.

Lemma map_err_m_state {E E' A} (f : E → E') (m : M CO E A) s : (map_err_m f m s).2 = (m s).2.
Proof. unfold map_err_m. by destruct (m s). Qed.

Definition ready s : Prop := from s0 s ∧ co_active s = None ∧ co_pending s = None ∧ co_closed s = false.

Lemma between_verifier m s verifier :
  between m s → ov_host_device_id verifier = ov_host_device_id (co_verifier s) →
  between m (set_verifier verifier s).
Proof. intros [Hs Hv Hl Hw Hq Ha Hp Hc] Hver. split; try done. simpl. by rewrite Hver. Qed.

Lemma start_pending_spec q s :
  ready s → ps_controller_device_id q = sender →
  wp (start_pending q now) (λ _ s', entitled s0 sender now s') s.
Proof.
  intros (Hs & Ha & Hp & Hc) Hq. unfold start_pending.
  wp_step; [by apply entitled_from|]. wp_step; [by apply entitled_from|]. rename a into offer, a0 into description.
  apply wp_bind. unfold wp at 1. set (t := (map_err_m _ _ s).2).
  assert (ready t) as Ht.
  { unfold t. rewrite map_err_m_state. pose proof (from_status s0 (ps_session_id q) (ps_controller_device_id q)
      SessionState_Authenticating None s Hs) as Hst. rewrite on_service_state in *. by split_and!. }
  clearbody t. clear Hs Ha Hp Hc. destruct Ht as (Hs & Ha & Hp & Hc).
  destruct (map_err_m _ _ s).1 as [[]|e]; [|by apply entitled_from].
  destruct (verify_run offer description t) as (r & verifier & Hv & Hrun & Hhost).
  apply wp_bind. unfold wp at 1. rewrite Hrun. cbn [fst snd].
  assert (between ∅ (set_verifier verifier t)) as Hb.
  { apply between_verifier; [|done]. by apply idle_between; [apply Hs|..]. }
  destruct r as [v|e]; cbn [map_err]; [|by apply entitled_between].
  wp_step; [by apply entitled_between|]. boolsimpl.
  apply wp_bind. eapply wp_mono; [by apply activate_spec|]. intros [st|e] s' Hact;
    [|by apply entitled_between].
  destruct Hact as (Hw' & a & Ha' & Hst).
  assert (entitled s0 sender now s') as He.
  { split; [done|]. intros a' Heq. rewrite Ha' in Heq. injection Heq as <-. right; left.
    destruct Hs as (_ & _ & Hauth & Hver & _). exists offer, description, v. split_and!; [|done|].
    - unfold verified_offer. by rewrite <- Hauth, <- Hver, Hv.
    - destruct Hst as (_ & -> & _). congruence. }
  revert s' He Hw' Ha'. intros s' He _ _.
  assert (keeps (entitled s0 sender now) (answer ← outbound (ss_controller_device_id st) (ps_request_id q) now
    (authentication_payload (SessionAuthentication_Payload_Answer (ss_answer_authentication st)));
    description ← outbound (ss_controller_device_id st) (ps_request_id q) now
    (answer_description (ss_session_id st) (ss_answer st)); mret [answer; description])) as Hk.
  { apply keeps_bind; [apply entitled_outbound|intros]. apply keeps_bind; [apply entitled_outbound|intros; apply keeps_ret]. }
  exact (Hk s' He).
Qed.

Lemma try_start_spec s q :
  from s0 s → co_active s = None → co_closed s = false → co_pending s = Some q →
  ps_controller_device_id q = sender → wp (try_start_pending now) (λ _ s', entitled s0 sender now s') s.
Proof.
  intros Hs Ha Hc Hp Hq. unfold try_start_pending. wp_step. rewrite Hp.
  destruct (is_ready q); [|wp_step; by apply entitled_from]. wp_step. apply wp_bind, wp_try.
  eapply wp_mono; [apply start_pending_spec; [|done]; by split_and!; [apply from_no_pending|..]|].
  intros [sent|e] s' He; [done|].
  assert (∀ x, entitled s0 sender now (set_failed_attempt x s')) as Hf.
  { intros x. destruct He as [[] He]. split; [by split|done]. }
  wp_step. unfold wp. rewrite bind_ignored. pose proof (entitled_status (ps_session_id q) (ps_controller_device_id q)
    SessionState_Failed (Some (session_error (protocol_error_for e))) _ (Hf (Some
      {| fa_controller_device_id := ps_controller_device_id q; fa_session_id := ps_session_id q;
         fa_failed_at_unix_ms := now |}))) as He'.
  revert He'. generalize ((on_service (update_remote_status (ps_session_id q) (ps_controller_device_id q)
    SessionState_Failed (Some (session_error (protocol_error_for e))))
    (set_failed_attempt (Some {| fa_controller_device_id := ps_controller_device_id q;
         fa_session_id := ps_session_id q; fa_failed_at_unix_ms := now |}) s')).2).
  apply keeps_bind; [apply entitled_outbound|intros; apply keeps_ret].
Qed.

(** *** Renewing the active session *)

Lemma entitled_trans s verifier s' :
  from s0 s → from (set_verifier verifier s) s' → entitled s0 sender now s'.
Proof.
  intros (_ & _ & _ & _ & Hs) (Hw & _ & _ & _ & Hs'). split; [done|]. intros a' Ha'. left.
  destruct (Hs' a' Ha') as (a & Ha & Haa'). destruct (Hs a Ha) as (a0 & ? & ?).
  exists a0. split; [done|]. by eapply successor_trans.
Qed.

Lemma verifier_wf s verifier :
  co_wf s → ov_host_device_id verifier = ov_host_device_id (co_verifier s) → co_wf (set_verifier verifier s).
Proof. intros [] Hv. split; try done. simpl. by rewrite Hv. Qed.

Lemma from_add_candidates s1 candidates : keeps (from s1) (add_active_candidates candidates).
Proof.
  induction candidates as [|c candidates IH]; [apply keeps_ret|]. intros s Hs.
  change (stays s1 (add_active_candidates (c :: candidates)) s). cbn [add_active_candidates].
  unfold stays. wp_step. wp_step; [done|]. rename a into b. assert (Hb : co_active s = Some b) by done.
  destruct (HostPeerSession_add_remote_ice_candidate c (as_session b, co_world s)) as [r [p w]] eqn:Hr.
  apply wp_bind. unfold wp at 1. rewrite (on_active_run _ _ _ _ _ _ Hb Hr). cbn [fst snd].
  pose proof (from_candidate s1 _ _ _ _ _ _ Hs Hb Hr) as Hf. destruct r as [[]|e]; [|done].
  exact (IH _ Hf).
Qed.

Lemma from_reconnect_offer s1 sdp s a r p w :
  from s1 s → co_active s = Some a → is_Some (as_reconnect_deadline_unix_ms a) →
  HostPeerSession_accept_reconnect_offer sdp (as_session a, co_world s) = (r, (p, w)) →
  from s1 (set_active (Some (set_session p a)) (set_world w s)).
Proof.
  intros Hs Ha [d Hd] Hr. pose proof (active_of _ _ _ Hs Ha) as [_ _ _ Hph _ Hp _].
  pose proof (reconnect_offer_Inv inv held _ _ _ _ _ _ Hr Hp) as Hi.
  pose proof (reconnect_offer_run _ _ _ _ _ _ Hr) as [Hrights Hst].
  eapply from_peer_call; [exact Hs|exact Ha|exact Hr|done|done|]. rewrite Hd in *. simpl in *.
  destruct r as [answer|e]; [by left|]. destruct Hst as [->| ->]; auto.
Qed.

Lemma set_generation_ok a g w : active_ok a w → 0 <= g <= U32_MAX → active_ok (set_generation g a) w.
Proof. intros [] ?. by split. Qed.

Lemma restart_spec q s a :
  from s0 s → co_active s = Some a → as_controller_device_id a = sender →
  is_Some (as_reconnect_deadline_unix_ms a) →
  wp (restart_active q now) (λ _ s', entitled s0 sender now s') s.
Proof.
  intros Hs Ha Hk Hd. unfold restart_active.
  wp_step; [by apply entitled_from|]. wp_step; [by apply entitled_from|]. rename a0 into offer, a1 into description.
  destruct (verify_run offer description s) as (r & verifier & Hv & Hrun & Hhost).
  apply wp_bind. unfold wp at 1. rewrite Hrun. cbn [fst snd].
  pose proof (from_refl _ (verifier_wf s verifier (proj1 Hs) Hhost)) as Hs1.
  set (s1 := set_verifier verifier s) in *. assert (co_active s1 = Some a) as Ha1 by done.
  assert (∀ s', from s1 s' → entitled s0 sender now s') as Hent by (intros; by eapply entitled_trans).
  destruct r as [v|e]; [|by apply Hent]. cbn [map_err]. wp_step. rewrite Ha1. wp_step; [done|].
  match goal with E : Some a = Some _ |- _ => injection E as <- end.
  wp_step; [by apply Hent|]. boolsimpl. wp_step; [by apply Hent|]. rename a0 into g.
  assert (0 <= g <= U32_MAX ∧ g = as_reconnect_generation a + 1) as [Hg Hge].
  { destruct (active_of _ _ _ Hs1 Ha1) as [_ _ _ _ _ _ Hgen]. unfold checked_add in *. case_match; [|done].
    simplify_eq. lia. }
  apply wp_bind. unfold wp at 1.
  destruct (HostPeerSession_accept_reconnect_offer (WebRtcSessionDescription_sdp description)
    (as_session a, co_world s1)) as [r [p w]] eqn:Hr.
  rewrite (on_active_run _ _ _ _ _ _ Ha1 Hr). cbn [fst snd].
  pose proof (from_reconnect_offer _ _ _ _ _ _ _ Hs1 Ha1 Hd Hr) as Hs2. clearbody s1.
  destruct r as [answer|e]; [|by apply Hent]. cbn [map_err]. wp_step; [by apply Hent|]. wp_step; [by apply Hent|].
  apply wp_bind. unfold wp at 1. pose proof (from_add_candidates s1 (ps_candidates q) _ Hs2) as Hs3.
  destruct (add_active_candidates (ps_candidates q) _) as [[[]|e] s3]; cbn [fst snd] in *; [|by apply Hent].
  unfold wp. rewrite bind_run. destruct (co_active s3) as [a3|] eqn:Ha3; cycle 1.
  { unfold update_active, modify. rewrite Ha3. apply Hent. by destruct s3; simpl in *; subst. }
  rewrite (update_active_run _ _ _ Ha3). cbn [snd].
  pose proof (active_of _ _ _ Hs3 Ha3) as Hok3. destruct Hs3 as [Hw3 (_ & _ & _ & Hsucc3)].
  destruct (Hsucc3 a3 Ha3) as (b & Hb & Hk3 & Hid3 & Hr3 & Hg3 & Hd3). rewrite Ha1 in Hb. injection Hb as <-.
  destruct Hs as [_ (_ & Hauth & Hver & Hsucc)]. destruct (Hsucc a Ha) as (a0' & Ha0 & Hk0 & Hid0 & Hr0 & Hg0 & Hd0).
  split.
  - replace s3 with (set_world (co_world s3) s3) by by destruct s3.
    by apply (update_wf s3 a3); [..|apply set_generation_ok].
  - intros a' [= <-]. right; right. exists offer, description, v, a0'. unfold verified_offer.
    rewrite <- Hauth, <- Hver, Hv. split_and!; simpl; try congruence. eauto.
Qed.

Definition answers_sender {E A} (m : M CO E A) s : Prop := wp m (λ _ s', entitled s0 sender now s') s.

Lemma answers_from {E A} (m : M CO E A) s : stays s0 m s → answers_sender m s.
Proof. unfold stays, answers_sender. intros Hm. eapply wp_mono; [exact Hm|]. intros. by apply entitled_from. Qed.

(** An active session of the sender, or none. *)
Definition of_sender s : Prop := ∀ a, co_active s = Some a → as_controller_device_id a = sender.

Lemma of_sender_from s s' : from s s' → of_sender s → of_sender s'.
Proof.
  intros (_ & _ & _ & _ & Hs) Ho a' Ha'. destruct (Hs a' Ha') as (a & Ha & -> & _). by apply Ho.
Qed.

Lemma try_restart_spec s : from s0 s → of_sender s → answers_sender (try_restart_active now) s.
Proof.
  intros Hs Ho. unfold try_restart_active, answers_sender. wp_step.
  destruct (co_active s) as [a|] eqn:Ha; [|wp_step; by apply entitled_from].
  cbn [mbind option_bind]. destruct (as_reconnect a) as [q|] eqn:Hq; [|wp_step; by apply entitled_from].
  destruct (is_ready q) eqn:Hready; [|wp_step; by apply entitled_from].
  pose proof (active_of _ _ _ Hs Ha) as Hok. destruct (ao_reconnect _ _ Hok q Hq) as (_ & _ & _ & Hd).
  destruct (set_reconnect_ok a None _ Hok) as [Hok' Hsucc]; [done|].
  apply wp_bind. unfold wp at 1. rewrite (update_active_run _ _ _ Ha). cbn [fst snd].
  pose proof (from_update s0 s a (set_reconnect None a) Hs Ha Hsucc Hok') as Hs'.
  apply wp_bind, wp_try. eapply wp_mono; [apply (restart_spec q _ (set_reconnect None a) Hs'); [done|exact (Ho a Ha)|by apply Hd]|].
  intros [restarted|e] s1 He.
  - assert (keeps (entitled s0 sender now) (reconnect_outbound restarted (ps_request_id q) now)) as Hk.
    { unfold reconnect_outbound. apply keeps_bind; [apply entitled_outbound|intros].
      apply keeps_bind; [apply entitled_outbound|intros; apply keeps_ret]. }
    exact (Hk s1 He).
  - assert (keeps (entitled s0 sender now) (answer ← error_outbound (ps_controller_device_id q) (ps_request_id q)
      (reconnect_error e) now; mret [answer])) as Hk.
    { apply keeps_bind; [apply entitled_outbound|intros; apply keeps_ret]. }
    exact (Hk s1 He).
Qed.

Lemma answers_bind {E A B} (m : M CO E A) (k : A → M CO E B) s :
  stays s m s → from s0 s → (∀ x s', from s s' → answers_sender (k x) s') → answers_sender (m ≫= k) s.
Proof.
  unfold stays. intros Hm Hs Hk. apply wp_bind. eapply wp_mono; [exact Hm|]. intros [x|e] s' Hs'; [by apply Hk|].
  apply entitled_from. by eapply from_trans.
Qed.

Lemma reconnect_envelope_spec envelope s :
  from s0 s → of_sender s → answers_sender (handle_active_reconnect_envelope envelope now) s.
Proof.
  intros Hs Ho. pose proof (from_refl s (proj1 Hs)) as Hss.
  unfold handle_active_reconnect_envelope, answers_sender. cbv zeta.
  wp_step; [by apply entitled_from|]. rename a into payload.
  apply answers_bind; [|done|].
  - destruct payload as [| |[[[offer| |]|]]|negotiation| |]; try done; [|by apply from_negotiation].
    apply (stays_offer s (SignalingEnvelope_request_id envelope) now (λ q,
      fail_if (negb (bool_decide (SessionOfferAuthentication_controller_device_id offer =
                                  ps_controller_device_id q)) ||
               negb (bool_decide (SessionOfferAuthentication_session_id offer = ps_session_id q)))
              RSE_InvalidEnvelope;;
      modify (λ x, set_offer (Some offer) (ps_description x) x);;
      fail_if (is_some (ps_authentication q)) RSE_InvalidEnvelope)); [|done].
    intros q a Hq Hd. pose proof (reconnect_offered a q (Some offer) (ps_description q) Hq Hd).
    rewrite bind_fail_if. destruct (_ || _); [done|]. unfold modify.
    by destruct (is_some (ps_authentication q)).
  - intros [] s' Hs'. apply try_restart_spec; [by eapply from_trans|by eapply of_sender_from].
Qed.

Lemma active_envelope_spec envelope s :
  from s0 s → of_sender s → answers_sender (handle_active_envelope envelope now) s.
Proof.
  intros Hs Ho. unfold handle_active_envelope.
  destruct (SignalingEnvelope_payload envelope) as [[| |authentication|negotiation|status|]|];
    try by apply answers_from. 1, 2: by apply reconnect_envelope_spec.
  apply answers_from. unfold stays. wp_step; [done|]. wp_step. wp_step; [done|]. wp_step; [done|].
  apply stays_seq; [by apply from_close; left|done|done].
Qed.

(** *** The pending session *)

Definition pending_of (q : PendingSession) : Prop := pending_ok q ∧ ps_controller_device_id q = sender.

Lemma collect_of payload q : pending_of q → pending_of (collect payload q).2.
Proof.
  intros Hq. unfold collect. rewrite bind_get.
  destruct payload as [| |[[[offer| |]|]]|[id o]| |]; try done.
  - cbn [SessionAuthentication_payload]. unfold modify. rewrite bind_run. destruct Hq.
    by destruct (is_some (ps_authentication q)).
  - cbn [WebRtcNegotiation_payload]. destruct o as [[description|candidate|e]|]; [| |done..].
    + rewrite bind_some, bind_fail_if. destruct (negb _); [done|]. unfold modify. rewrite bind_run.
      destruct Hq. by destruct (is_some (ps_description q)).
    + rewrite bind_some. destruct Hq as [Hq Hk]. destruct (push_candidate_frame (peer_candidate candidate) q) as [Hk' _].
      split; [by apply push_candidate_ok|congruence].
Qed.

Definition idle_from s : Prop := from s0 s ∧ co_active s = None ∧ co_closed s = false.

Lemma idle_pending q s : idle_from s → pending_ok q → idle_from (set_pending (Some q) s).
Proof. intros (Hs & Ha & Hc) Hq. split_and!; try done. apply from_pending; [|done]. by intros ? [= <-]. Qed.

Lemma prepare_spec id request s :
  idle_from s →
  wp (prepare_pending sender id request now) (λ r s', idle_from s' ∧ ∃ b, r = Ok b ∧
    (b = true → ∃ q, co_pending s' = Some q ∧ pending_of q)) s.
Proof.
  intros Hs. unfold prepare_pending. wp_step. destruct (co_pending s) as [q|] eqn:Hq.
  - unfold PendingSession_matches. case_bool_decide; cbn [andb]; [|wp_step; by split; [|eexists]].
    case_bool_decide; [|wp_step; by split; [|eexists]]. wp_step. wp_step.
    destruct Hs as (Hs & Ha & Hc). destruct (cw_pending _ (proj1 Hs) q Hq) as [Hok _].
    split; [by apply idle_pending|]. eexists. split; [done|]. intros _. eexists. by split; [done|split].
  - wp_step. wp_step. split; [by apply idle_pending|]. eexists. split; [done|]. intros _. eexists. by split; [done|split].
Qed.

Lemma pending_envelope_spec envelope s :
  idle_from s → SignalingEnvelope_sender_device_id envelope = sender →
  answers_sender (handle_pending_envelope envelope now) s.
Proof.
  intros Hs Hsender. unfold handle_pending_envelope, answers_sender. rewrite Hsender. cbv zeta.
  pose proof Hs as (Hf & Ha & Hc). wp_step; [by apply entitled_from|]. rename a into payload.
  assert (wp (session_id ← ok_or (pending_session_id payload) RSE_InvalidEnvelope;
    prepared ← prepare_pending sender session_id (SignalingEnvelope_request_id envelope) now;
    if negb prepared then
      busy ← error_outbound sender (SignalingEnvelope_request_id envelope) ErrorCode_DeviceBusy now;
      mret [busy]
    else
      self ← get;
      pending ← ok_or (co_pending self) RSE_Service;
      on_pending pending (collect payload);;
      try_start_pending now) (λ _ s', entitled s0 sender now s') s) as Hcollect.
  { wp_step; [by apply entitled_from|]. rename a into id. apply wp_bind. eapply wp_mono; [by apply prepare_spec|].
    intros ? s1 (Hs1 & b & -> & Hb). pose proof Hs1 as (Hf1 & Ha1 & Hc1). destruct b; cbn [negb].
    - destruct (Hb eq_refl) as (q & Hq & Hof). wp_step. rewrite Hq. apply wp_bind, wp_ret.
      pose proof (collect_of payload q Hof) as [Hok' Hk']. unfold on_pending, wp. rewrite bind_run.
      destruct (collect payload q) as [r q']. cbn [snd] in *. rewrite bind_run. cbn [modify].
      destruct (idle_pending q' s1 Hs1 Hok') as (Hf2 & Ha2 & Hc2).
      destruct r as [[]|e]; [|by apply entitled_from]. by apply (try_start_spec _ q').
    - apply (answers_from (busy ← error_outbound sender (SignalingEnvelope_request_id envelope) ErrorCode_DeviceBusy now; mret [busy])).
      apply stays_seq; [apply from_error_outbound|done|done]. }
  destruct payload as [| | | |status|]; try exact Hcollect.
  apply (answers_from (fail_if _ _ ;; _)). unfold stays. wp_step; [done|]. wp_step. wp_step.
  repeat case_match; auto using from_no_pending.
Qed.

Lemma close_frame final s :
  co_wf s → final_ok final → co_closed (close_active final s).2 = co_closed s.
Proof.
  intros Hs Hf. destruct (co_active s) as [a|] eqn:Ha.
  - destruct (cw_active _ Hs a Ha). by rewrite (close_active_run final a s).
  - rewrite close_idle_run by done. by destruct final.
Qed.

(** The session of another controller, or none, after the deadlines were checked. *)
Lemma expired_spec s :
  co_wf s → co_closed s = false →
  wp (expire_pending now;; expire_active_reconnect now) (λ _ s', from s s' ∧ co_closed s' = false) s.
Proof.
  intros Hs Hc. pose proof (from_expire_pending s now s (from_refl _ Hs)) as Hp.
  assert (∃ s1, expire_pending now s = (Ok (), s1) ∧ co_closed s1 = false) as (s1 & Hrun & Hc1).
  { unfold expire_pending. eexists. split; [reflexivity|]. by repeat case_match. }
  rewrite Hrun in Hp. cbn [snd] in Hp. unfold wp. rewrite bind_run, Hrun.
  split; [by apply from_expired|]. unfold expire_active_reconnect. rewrite bind_get.
  case_match; [|done]. case_match; [|done]. pose proof (close_frame (Some (session_error ErrorCode_IceFailed)) s1 (proj1 Hp)
    ltac:(by apply final_error)) as Hf.
  rewrite bind_run. destruct (close_active _ s1) as [[[]|e] s2]; by rewrite <- Hc1, <- Hf.
Qed.

Lemma routed_spec encoded : co_wf s0 → answers_sender (handle_routed sender encoded now) s0.
Proof.
  intros Hs. pose proof (from_refl _ Hs) as Hss. unfold handle_routed, answers_sender.
  wp_step. wp_step; [by apply entitled_from|]. rename select (co_closed s0 = false) into Hc.
  wp_step; [by apply entitled_from|]. rename a into envelope. cbv zeta.
  wp_step; [by apply entitled_from|]. boolsimpl.
  rename select (SignalingEnvelope_sender_device_id envelope = sender) into Hsender.
  pose proof (expired_spec s0 Hs Hc) as He. unfold wp in *. rewrite bind_run in He. rewrite bind_run.
  assert (is_ok (expire_pending now s0).1 = true) as Hok by done.
  destruct (expire_pending now s0) as [[[]|e] s1]; [|done]. rewrite bind_run. cbn [fst snd] in He.
  destruct (expire_active_reconnect now s1) as [[b|e] s2]; cbn [fst snd] in *; destruct He as [Hs2 Hc2];
    [|by apply entitled_from].
  rewrite bind_get. destruct (is_failed_attempt _ _ _); [by apply entitled_from|].
  destruct (co_active s2) as [a|] eqn:Ha; [case_bool_decide as Hk; cbn [negb]|].
  - apply active_envelope_spec; [done|]. unfold of_sender. intros a' Ha'. congruence.
  - apply (answers_from (busy ← error_outbound _ (SignalingEnvelope_request_id envelope) ErrorCode_DeviceBusy now; mret [busy])).
    apply stays_seq; [apply from_error_outbound|done|done].
  - by apply pending_envelope_spec.
Qed.
End Routed.
End Engine.
