(* ===== verification/Engine.v ===== *)
(** The theorems on the remote session engine of the Host agent, over the lemmas of
    Coordinator.v: every interleaving of the coordinator's operations with the local interface
    and the native threads, what may start or renew a session, what a lost connection leaves and
    for how long, and how a session that was terminated ends. *)
From S2P Require Import Prelude Limits Messages Validation Crypto Containers Transcript GrantStore Authorization SessionAuth Identity PairingCrypto Signaling Pairing Sessions Service Webrtc PeerSession RemoteSession Coordinator.

Local Open Scope Z_scope.

(** * Operations *)

(** The public operations of the coordinator that change it. *)
Inductive CoordinatorOp :=
| CoO_Routed (sender encoded : bytes) (now_unix_ms : Z)
| CoO_PeerEvent (event : RemotePeerEvent) (now_unix_ms : Z)
| CoO_Poll (now_unix_ms : Z)
| CoO_PollAll (elapsed : nat → bool) (now_unix_ms : Z)
| CoO_Expire (now_unix_ms : Z)
| CoO_Termination (event : SessionTerminatedEvent) (now_unix_ms : Z)
| CoO_SignalingLost (now_unix_ms : Z)
| CoO_RouteChanged (now_unix_ms : Z)
| CoO_Shutdown.

Definition is_routed (op : CoordinatorOp) : bool :=
  match op with CoO_Routed _ _ _ => true | _ => false end.

(** An event of the peer may report that it is connected again. *)
Definition from_peer (op : CoordinatorOp) : bool :=
  match op with CoO_PeerEvent _ _ | CoO_Poll _ | CoO_PollAll _ _ => true | _ => false end.

(** What the runtime does while the signaling connection is lost. *)
Definition offline (op : CoordinatorOp) : bool :=
  negb (is_routed op) && negb (from_peer op).

Section Runs.
Context `{Sha256, Ed25519, X25519, HkdfSha256, Aes256Gcm}.
Context `{Message PairingMessage, Message PairingPlaintext, Message HostAuthorizationSnapshot}.
Context `{Message ReliableInputEnvelope, Message PointerFastEnvelope, Message SignalingEnvelope}.
Context `{UrlParser Url} {G : Type} `{RandomSource G} {W R : Type} `{GrantStoreLaws W, RandomSource R}.
Context `{!RandomLaws R} (debug_build : bool) (requested : option text).
Context {V : Type} `{PeerBackend V, RemoteInputSink V, RemoteSessionFactory V}.
Context (inv : V → Prop) (held : V → gset Held).
Context `{!SinkLaws V inv held, !FactoryLaws V inv held}.

Abbreviation CO := (RemoteSessionCoordinator G W R V).
Abbreviation well_formed s := (co_wf inv held s).
Implicit Types (s : CO) (a : ActiveSession).

Definition co_exec (op : CoordinatorOp) s : CO :=
  match op with
  | CoO_Routed sender encoded now => (handle_routed sender encoded now s).2
  | CoO_PeerEvent event now => (handle_peer_event event now s).2
  | CoO_Poll now => (poll_peer_event now s).2
  | CoO_PollAll elapsed now => (poll_peer_events_with_budget elapsed now s).2
  | CoO_Expire now => (expire_active_reconnect now s).2
  | CoO_Termination event now => (handle_termination event now s).2
  | CoO_SignalingLost now => (signaling_lost now s).2
  | CoO_RouteChanged now => (privileged_route_changed now s).2
  | CoO_Shutdown => (shutdown s).2
  end.

(** One step of the Host: an operation of the coordinator that [allowed] admits, an operation of
    the local interface on the shared service, or a change the native threads make. *)
Inductive co_step (allowed : CoordinatorOp → bool) s : CO → Prop :=
| co_operation op : allowed op = true → co_step allowed s (co_exec op s)
| co_local op : is_local op = true →
    co_step allowed s (set_service (service_step debug_build requested (co_service s) op) s)
| co_native w : inv w → held w ⊆ held (co_world s) → co_step allowed s (set_world w s).

(** ** One operation *)

Lemma exec_from op s :
  well_formed s → is_routed op = false →
  from inv held (negb (from_peer op)) s (co_exec op s).
Proof.
  intros Hs Hop. pose proof (from_refl inv held (negb (from_peer op)) s Hs) as Hf.
  destruct op; simpl in *; [done|revert s Hs Hf..]; intros s Hs Hf.
  - by apply from_peer_event.
  - by apply from_poll.
  - by apply from_poll_all.
  - by apply from_expired.
  - by apply from_termination.
  - by apply from_signaling_lost.
  - by apply from_route_changed.
  - by apply from_shutdown.
Qed.

Lemma exec_routed sender encoded now s :
  well_formed s → entitled inv held true s sender now (co_exec (CoO_Routed sender encoded now) s).
Proof. intros Hs. exact (routed_spec inv held true s sender now encoded Hs). Qed.

Lemma exec_wf op s : well_formed s → well_formed (co_exec op s).
Proof.
  intros Hs. destruct op as [sender encoded now| | | | | | | |]; try by apply exec_from.
  by apply exec_routed.
Qed.

Lemma local_wf op s :
  is_local op = true → well_formed s →
  well_formed (set_service (service_step debug_build requested (co_service s) op) s).
Proof.
  intros Hop []. destruct (remains_local debug_build requested (co_service s) (co_service s) op Hop)
    as (Hw & Hi & Hl & He & Hx); [by apply remains_refl|].
  split; simpl; try done.
  - unfold host_device_id in *. simpl. by rewrite Hi.
  - intros a Ha. destruct (cw_announced a Ha) as [Hk|Hk]; [by apply He|auto].
  - auto.
Qed.

Lemma step_wf allowed s s' : co_step allowed s s' → well_formed s → well_formed s'.
Proof.
  intros Hstep Hs. destruct Hstep as [op _|op Hop|w Hi Hh]; [by apply exec_wf|by apply local_wf|].
  by apply (from_world inv held true s); [apply from_refl|..].
Qed.

Lemma run_wf allowed s s' : rtc (co_step allowed) s s' → well_formed s → well_formed s'.
Proof. intros Hrun. by apply (rtc_invariant (co_step allowed)); [apply step_wf|]. Qed.

Lemma created_wf service config factory s :
  service_wf service → live service = ∅ → inv factory → held factory = ∅ →
  with_config service config factory = Ok s → well_formed s.
Proof.
  intros Hsv Hl Hi Hh. unfold with_config, OfferVerifier_new.
  destruct (negb _); simpl; intros [= <-]. split; simpl; try done. by rewrite Hl.
Qed.

(** C4. One session at a time, whatever happens around it. From a coordinator just created, in
    every interleaving of its operations with requests of the local interface on the shared
    service and with the native threads, the coordinator stays well formed: at most one session
    is registered, it is the active one, and the active one is registered or was ended by the
    service with an announcement; a reconnect deadline is running exactly while the session is
    frozen; at most 64 candidates of at most 65536 bytes wait for a session; and when no session
    is active, nothing is held down on the Host unless a release failed. *)
Theorem coordinator_invariant (service : HostService G W R) (config : SessionConfig) (factory : V) s0 s :
  service_wf service → live service = ∅ → inv factory → held factory = ∅ →
  with_config service config factory = Ok s0 → rtc (co_step (λ _, true)) s0 s →
  well_formed s ∧ (size (live (co_service s)) ≤ 1)%nat.
Proof.
  intros Hsv Hl Hi Hh Hn Hrun. pose proof (run_wf _ _ _ Hrun (created_wf _ _ _ _ Hsv Hl Hi Hh Hn)) as Hs.
  split; [done|]. destruct (co_active s) as [a|] eqn:Ha.
  - rewrite <- (map_size_singleton (M:=gmap bytes) (as_session_id a) (as_controller_device_id a)).
    apply map_subseteq_size, map_subseteq_spec. intros id k Hk.
    destruct (cw_live _ _ _ Hs id k Hk) as (a' & Ha' & <- & <-). rewrite Ha in Ha'. injection Ha' as <-.
    apply lookup_singleton_eq.
  - enough (live (co_service s) = ∅) as -> by (rewrite map_size_empty; lia). apply map_empty. intros id.
    destruct (live (co_service s) !! id) as [k|] eqn:Hk; [|done].
    destruct (cw_live _ _ _ Hs id k Hk) as (a & ? & _). congruence.
Qed.

(** ** Who has a session *)

(** The offer the Host of [s] accepts at [now]: see [offer_ok]. *)
Definition accepted s (offer : SessionOfferAuthentication) (description : WebRtcSessionDescription)
    (now : Z) (v : VerifiedSessionOffer) : Prop :=
  offer_ok (host_device_id s) offer (WebRtcSessionDescription_sdp description)
    (WebRtcSessionDescription_dtls_fingerprint_sha256 description)
    (rs_registry (hs_authorization (co_service s))) now (vo_controller v) (vo_permissions v) ∧
  vo_session_id v = SessionOfferAuthentication_session_id offer ∧
  live_nonces (ov_used_nonces (co_verifier s)) now !! nonce_key offer = None.

Lemma verified_accepted s offer description now v :
  well_formed s → verified_offer s offer description now v → accepted s offer description now v.
Proof.
  intros Hs. unfold verified_offer, accepted. rewrite <- (cw_verifier _ _ _ Hs).
  destruct (OfferVerifier_verify offer _ _ _ now (co_verifier s)) as [r s'] eqn:Hr.
  apply verify_spec in Hr as [_ Hr]. simpl. intros ->. by destruct Hr as (c & ps & Hok & Hn & _ & -> & _).
Qed.

(** C1. Nobody has a session without a verified offer. Whatever an operation of the coordinator
    is given, the session that is active afterwards is the one that was active before, with the
    same controller, rights and generation; or the operation routed an envelope of the sender
    that completed an offer the Host accepts (the sender's signature, a grant for all it asks
    for, an unused nonce), and the session is the one the offer names, with exactly the rights it
    asks for; or the same for a reconnect, and the session is the one it was, with the rights it
    had, one generation later. Only an event of the peer may clear a reconnect deadline: no
    envelope moves it. *)
Theorem sessions_authorized (op : CoordinatorOp) s a' :
  well_formed s → co_active (co_exec op s) = Some a' →
  (∃ a, co_active s = Some a ∧ successor (negb (from_peer op)) a a') ∨
  ∃ sender encoded now offer description v, op = CoO_Routed sender encoded now ∧
    accepted s offer description now v ∧ DeviceIdentity_device_id (vo_controller v) = sender ∧
    as_controller_device_id a' = sender ∧ as_session_id a' = vo_session_id v ∧
    (started_as v a' ∨
     ∃ a, co_active s = Some a ∧ as_session_id a = vo_session_id v ∧ as_controller_device_id a = sender ∧
       hp_input_allowed (as_session a') = hp_input_allowed (as_session a) ∧
       as_reconnect_generation a' = as_reconnect_generation a + 1 ∧
       ∀ d, as_reconnect_deadline_unix_ms a = Some d → as_reconnect_deadline_unix_ms a' = Some d).
Proof.
  intros Hs Ha'. destruct (is_routed op) eqn:Hop; cycle 1.
  - destruct (exec_from op s Hs Hop) as (_ & _ & _ & _ & Hsucc). left. by apply Hsucc.
  - destruct op as [sender encoded now| | | | | | | |]; try done.
    destruct (exec_routed sender encoded now s Hs) as [_ He].
    destruct (He a' Ha') as [?|[(o & d & v & Hv & Has & Hk)|(o & d & v & a & Hv & Ha & Hid & Hidv & Hk & Hkv & Hsn & Hr & Hg & Hd)]];
      [by left|right; exists sender, encoded, now, o, d, v..].
    + pose proof Has as (Hid & Hk' & _). split_and!; try done; [by apply verified_accepted|congruence|by left].
    + split_and!; try done; [by apply verified_accepted|congruence..|]. right. exists a. split_and!; auto.
Qed.

(** ** A lost connection *)

(** What may remain of the session [a] while the connection is lost: its freeze. *)
Definition retained a d s : Prop :=
  well_formed s ∧ ∀ a', co_active s = Some a' →
    as_session_id a' = as_session_id a ∧ as_controller_device_id a' = as_controller_device_id a ∧
    hp_input_allowed (as_session a') = hp_input_allowed (as_session a) ∧
    as_reconnect_generation a' = as_reconnect_generation a ∧
    as_reconnect_deadline_unix_ms a' = Some d.

Lemma retained_from a d s s' : retained a d s → from inv held true s s' → retained a d s'.
Proof.
  intros [_ Hr] [Hw (_ & _ & _ & Hs)]. split; [done|]. intros a' Ha'.
  destruct (Hs a' Ha') as (b & Hb & Hk & Hid & Hal & Hg & Hd). destruct (Hr b Hb) as (?&?&?&?&?).
  split_and!; [congruence..|]. by apply Hd.
Qed.

Lemma step_retained a d s s' : co_step offline s s' → retained a d s → retained a d s'.
Proof.
  intros Hstep Hs. pose proof (proj1 Hs) as Hw. destruct Hstep as [op Hop|op Hop|w Hi Hh].
  - unfold offline in Hop. apply andb_prop in Hop as [Hr Hp]. boolsimpl.
    eapply retained_from; [exact Hs|]. pose proof (exec_from op s Hw Hr) as Hf. by rewrite Hp in Hf.
  - split; [by apply local_wf|]. apply Hs.
  - eapply retained_from; [exact Hs|]. by apply from_world; [apply from_refl|..].
Qed.

Lemma lost_retained now s a :
  well_formed s → co_active s = Some a → retained a (reconnect_deadline now a) (signaling_lost now s).2.
Proof.
  intros Hs Ha. unfold signaling_lost. rewrite bind_run. unfold modify. rewrite bind_get.
  pose proof (from_no_pending inv held true s s (from_refl inv held true s Hs)) as Hf.
  set (t := set_pending None s) in *. assert (co_active t = Some a) as Hat by done. rewrite Hat. cbn [is_some].
  pose proof (active_of inv held true _ _ _ Hf Hat) as Hok. pose proof (proj1 Hf) as Hw. clearbody t.
  rewrite bind_try. pose proof (from_begin inv held true t now t (from_refl inv held true t Hw)) as Hb.
  destruct (HostPeerSession_begin_reconnect (as_session a, co_world t)) as [r [p w]] eqn:Hr.
  rewrite (begin_run inv held now t a r p w) in * by done. destruct r as [[]|e].
  - split; [apply Hb|]. intros a' [= <-]. destruct (frozen_ok inv held true now t a p w Hok Hr) as [_ (?&?&?&?&_)].
    by split_and!.
  - cbn [fst snd] in *. rewrite bind_try.
    destruct (close_active_wf inv held (Some (session_error ErrorCode_IceFailed)) _ (proj1 Hb)) as [Hcw Hca];
      [by apply final_error|].
    destruct (close_active _ _) as [[[]|e'] t']; cbn [fst snd] in *; (split; [done|]); intros a' Ha';
      change (co_active t' = Some a') in Ha'; congruence.
Qed.

Lemma not_expired a d now s :
  co_active s = Some a → as_reconnect_deadline_unix_ms a = Some d → now < d →
  expire_active_reconnect now s = (Ok false, s).
Proof.
  intros Ha Hd Hn. unfold expire_active_reconnect. rewrite bind_get, Ha. cbn [mbind option_bind].
  by rewrite Hd, (proj2 (Z.leb_gt _ _)).
Qed.

(** At its deadline the session is closed. *)
Lemma expired_at a d now s :
  retained a d s → d <= now →
  let s' := (expire_active_reconnect now s).2 in
  well_formed s' ∧ co_active s' = None.
Proof.
  intros [Hw Hr] Hd. cbv zeta. split; [by apply (from_expired inv held true s), from_refl|].
  unfold expire_active_reconnect. rewrite bind_get. destruct (co_active s) as [a'|] eqn:Ha'; [|done].
  destruct (Hr a' eq_refl) as (_ & _ & _ & _ & Hd'). cbn [mbind option_bind]. rewrite Hd', (proj2 (Z.leb_le _ _)) by done.
  destruct (close_active_wf inv held (Some (session_error ErrorCode_IceFailed)) s Hw) as [_ Hn]; [by apply final_error|].
  rewrite bind_run. by destruct (close_active _ s) as [[[]|e] s'].
Qed.

Lemma idle_live s : well_formed s → co_active s = None → live (co_service s) = ∅.
Proof.
  intros Hw Ha. apply map_empty. intros id. destruct (live (co_service s) !! id) as [k|] eqn:Hk; [|done].
  destruct (cw_live _ _ _ Hw id k Hk) as (a & ? & _). congruence.
Qed.

(** C5. A session whose signaling connection is lost is frozen and bounded. Once the loss is
    handled, whatever the runtime does while it is offline (terminations, expiry, route changes,
    further losses, shutdown), whatever requests the local interface handles and whatever the
    native threads do: the session, if there still is one, is the same one with the deadline set
    at the loss, which nothing moves; until the deadline its input is ignored; at the deadline it
    is gone, no session is registered, and nothing is held down unless a release failed. *)
Theorem retained_session_bounded now s a s' :
  well_formed s → co_active s = Some a → rtc (co_step offline) (signaling_lost now s).2 s' →
  let d := reconnect_deadline now a in
  retained a d s' ∧
  (∀ a' event later, co_active s' = Some a' → later < d →
     match event with RPE_ReliableInput _ | RPE_FastPointer _ => True | _ => False end →
     handle_peer_event event later s' = (Ok [], s')) ∧
  (∀ later, d <= later → let gone := (expire_active_reconnect later s').2 in
     co_active gone = None ∧ live (co_service gone) = ∅ ∧
     (reliable_release inv → held (co_world gone) = ∅)).
Proof.
  intros Hs Ha Hrun d. assert (retained a d s') as Hret.
  { eapply (rtc_invariant (co_step offline)); [|exact Hrun|by apply lost_retained].
    intros; by eapply step_retained. }
  split; [done|]. split.
  - intros a' event later Ha' Hlater Hev. destruct Hret as [Hw Hr].
    assert (co_closed s' = false) as Hc.
    { destruct (co_closed s') eqn:Hc; [|done]. destruct (cw_closed _ _ _ Hw Hc). congruence. }
    destruct (Hr a' Ha') as (_ & _ & _ & _ & Hd).
    unfold handle_peer_event, is_frozen. rewrite bind_get, bind_fail_if, Hc, bind_run.
    rewrite (not_expired a' d) by done. rewrite bind_get, Ha', Hd.
    by destruct event.
  - intros later Hd gone. destruct (expired_at a d later s' Hret Hd) as [Hw Hn]. split_and!; [done|..].
    + by apply idle_live.
    + intros Hrel. by apply (cw_quiet _ _ _ Hw).
Qed.

(** ** The end of a session *)

(** The announcement the coordinator acts on: the one of its session. *)
Definition names_session (event : SessionTerminatedEvent) a : bool :=
  bool_decide (as_session_id a = SessionTerminatedEvent_session_id event) &&
  bool_decide (as_controller_device_id a = SessionTerminatedEvent_controller_device_id event).

(** The notice of the end that the Controller is sent. *)
Definition closing_notice (now : Z) a s : RemoteSessionOutbound :=
  {| ro_recipient_device_id := as_controller_device_id a;
     ro_opaque_envelope := encode_to_vec (outbound_envelope (as_controller_device_id a)
       (lit LOCAL_TERMINATION_REQUEST_ID) now (termination_status (as_session_id a)) s) |}.

(** The coordinator once the session [a] has ended. *)
Definition after_end (final : option UnifiedError) a s : CO :=
  set_world (HostPeerSession_close (HostPeerSession_close (as_session a, co_world s)).2).2.2
    (set_service (ended_service final a (co_service s)) (set_active None s)).

(** C8. A session the service ended is closed exactly once and its Controller is told. The
    coordinator acts on an announcement only when it names its own session and controller, and
    then: if the notice to the Controller fits its bound, the peer session is closed, the session
    is unregistered and no other, the status shows Idle for an emergency stop and otherwise the
    failure the announcement names (a revocation when it names none), and the notice is
    returned, or the error of the close with everything done the same; and nothing is held down
    on the Host then, unless a release failed. Any other announcement changes nothing. *)
Theorem termination_exact (event : SessionTerminatedEvent) (now : Z) s :
  well_formed s →
  match co_active s with
  | Some a =>
      let closed := HostPeerSession_close (as_session a, co_world s) in
      let final := termination_error (SessionTerminatedEvent_reason event) in
      if names_session event a then
        if MAX_OPAQUE_SIGNALING_ENVELOPE_BYTES <? len (ro_opaque_envelope (closing_notice now a s))
        then handle_termination event now s = (Err RSE_InvalidEnvelope, s)
        else handle_termination event now s =
               (match closed.1 with
                | Ok _ => Ok [closing_notice now a s]
                | Err e => Err (map_peer_error e)
                end, after_end final a s) ∧
             (reliable_release inv → held (co_world (after_end final a s)) = ∅)
      else handle_termination event now s = (Ok [], s)
  | None => handle_termination event now s = (Ok [], s)
  end.
Proof.
  intros Hs. unfold handle_termination. destruct (co_active s) as [a|] eqn:Ha; [|by rewrite bind_get, Ha].
  cbv zeta. unfold names_session. rewrite bind_get, Ha. destruct (_ && _); [|done].
  pose proof (cw_active _ _ _ Hs a Ha) as Hok. pose proof Hok as [_ Hid Hk _ _ Hp _].
  unfold close_active_with_remote_notification. rewrite bind_get, Ha. unfold outbound.
  rewrite bind_run, bind_get, bind_fail_if. unfold closing_notice. cbn [ro_opaque_envelope].
  destruct (_ <? _); [done|]. cbn [mret M_ret]. unfold mret, M_ret. rewrite bind_run.
  pose proof (close_active_run (termination_error (SessionTerminatedEvent_reason event)) a s Ha Hid Hk
    (termination_final _)) as Hc. cbv zeta in Hc. rewrite Hc. split.
  - unfold after_end. by destruct (HostPeerSession_close (as_session a, co_world s)).1 as [[]|e].
  - unfold after_end. cbn [co_world set_world].
    destruct (HostPeerSession_close (as_session a, co_world s)) as [r [p w]] eqn:Hcl.
    by destruct (discarded inv held _ _ _ _ _ Hp Hcl) as (_ & _ & ?).
Qed.

(** ** The start of a session *)

(** The session of the offer [v] is active, registered and shown as connecting. *)
Definition begun v s s' : Prop :=
  let id := vo_session_id v in
  let k := DeviceIdentity_device_id (vo_controller v) in
  live (co_service s') = <[id := k]> (live (co_service s)) ∧
  hs_remote_status (co_service s') = shown id k SessionState_Connecting None ∧
  (∃ a, co_active s' = Some a ∧ started_as v a) ∧
  hs_identity (co_service s') = hs_identity (co_service s).

Definition fits (o : RemoteSessionOutbound) : Prop :=
  len (ro_opaque_envelope o) <= MAX_OPAQUE_SIGNALING_ENVELOPE_BYTES.

Lemma outbound_run k request now payload s :
  fits {| ro_recipient_device_id := k;
          ro_opaque_envelope := encode_to_vec (outbound_envelope k request now payload s) |} →
  outbound k request now payload s =
  (Ok {| ro_recipient_device_id := k;
         ro_opaque_envelope := encode_to_vec (outbound_envelope k request now payload s) |}, s).
Proof.
  intros Hf. unfold outbound. rewrite bind_get, bind_fail_if. by rewrite (proj2 (Z.ltb_ge _ _)) by apply Hf.
Qed.

Lemma register_run id k (x : HostService G W R) :
  len id = SESSION_ID_BYTES → len k = DEVICE_ID_BYTES → live x !! id = None →
  register_active_session id k x =
  (Ok (), set_session_registry (set_sessions (<[id := k]> (live x)) (hs_sessions x)) x).
Proof.
  intros Hid Hk Hn. unfold register_active_session, on_sessions, zoom, register.
  rewrite bind_fail_if, Hid, Hk, !Z.eqb_refl. cbn [negb orb]. rewrite bind_get, bind_fail_if, Hn. done.
Qed.

Lemma record_run k now (x : HostService G W R) :
  is_ok (record_authenticated_session k now (hs_authorization x)).1 = true →
  record_authenticated_remote_session k now x =
  (Ok (), set_authorization (record_authenticated_session k now (hs_authorization x)).2 x).
Proof.
  unfold record_authenticated_remote_session, on_authorization. rewrite bind_map_err_zoom.
  by destruct (record_authenticated_session k now (hs_authorization x)) as [[v|e] a].
Qed.

Lemma add_candidates_run candidates p s :
  hp_state p = HS_Negotiating →
  (∀ c w, c ∈ candidates → is_ok (peer_add_remote_ice_candidate c w).1 = true) →
  ∃ w, add_candidates candidates p s = (Ok (true, p), set_world w s).
Proof.
  intros Hp. revert s. induction candidates as [|c candidates IH]; intros s add_ok.
  { exists (co_world s). by destruct s. }
  cbn [add_candidates]. rewrite bind_on_session.
  unfold HostPeerSession_add_remote_ice_candidate, self_get, world. unmonad. rewrite Hp. simpl.
  pose proof (add_ok c (co_world s) ltac:(by left)) as Hc.
  destruct (peer_add_remote_ice_candidate c (co_world s)) as [[[]|e] w]; [|done]. cbn.
  destruct (IH (set_world w s)) as [w' Hw']; [intros; apply add_ok; by right|]. exists w'. by rewrite Hw'.
Qed.

Lemma register_verified_run candidates v p answer signed now s :
  let id := vo_session_id v in
  let k := DeviceIdentity_device_id (vo_controller v) in
  len id = SESSION_ID_BYTES → len k = DEVICE_ID_BYTES → live (co_service s) !! id = None →
  is_ok (record_authenticated_session k now (hs_authorization (co_service s))).1 = true →
  hp_state p = HS_Negotiating →
  hp_input_allowed p = bool_decide (SessionPermission_ControlInput ∈ vo_permissions v) →
  (∀ c w, c ∈ candidates → is_ok (peer_add_remote_ice_candidate c w).1 = true) →
  wp (register_verified_session candidates v p answer signed now) (λ r s',
    r = Ok {| ss_controller_device_id := k; ss_session_id := id; ss_answer := answer;
              ss_answer_authentication := signed |} ∧ begun v s s') s.
Proof.
  intros id k Hid Hk Hn Hrec Hp Hal Hadd. unfold register_verified_session, wp. rewrite bind_try.
  erewrite on_service_run by by apply register_run. cbn [fst snd is_ok negb]. rewrite bind_try.
  erewrite on_service_run by by apply record_run. cbn [fst snd].
  match goal with |- context [(add_candidates candidates p ≫= _) ?t] =>
    destruct (add_candidates_run candidates p t Hp Hadd) as [w Hw] end.
  rewrite bind_run, Hw. cbn [negb]. rewrite bind_try.
  erewrite on_service_run by (apply (status_run _ _ SessionState_Connecting); by apply shown_valid).
  split; [done|]. split; [done|]. split; [done|]. split; [by eexists|done].
Qed.

(** What the platform does for the session of a verified offer. *)
Record served (v : VerifiedSessionOffer) (sdp : text) (candidates : list PeerIceCandidate)
    (answer : PeerAnswer) (now : Z) s : Prop := {
  sv_create : is_ok (factory_create (co_config s) (from_verified v) (co_world s)).1 = true;
  sv_offer : invalid_offer sdp = false;
  sv_start w : (peer_start (co_config s) sdp w).1 = Ok answer;
  sv_add c w : c ∈ candidates → is_ok (peer_add_remote_ice_candidate c w).1 = true;
  sv_answer : invalid_answer answer = false;
  sv_store : is_ok (record_authenticated_session (DeviceIdentity_device_id (vo_controller v)) now
                      (hs_authorization (co_service s))).1 = true
}.

Lemma new_run id permissions config :
  len id = SESSION_ID_BYTES →
  permissions = [SessionPermission_ViewScreen] ∨
  permissions = [SessionPermission_ViewScreen; SessionPermission_ControlInput] →
  ∃ p, HostPeerSession_new id permissions config = Ok p ∧ hp_state p = HS_New ∧ hp_config p = config.
Proof.
  intros Hid Hp. unfold HostPeerSession_new. rewrite Hid, Z.eqb_refl. cbn.
  by destruct Hp as [-> | ->]; eexists.
Qed.

Lemma accept_offer_run sdp p w answer :
  hp_state p = HS_New → invalid_offer sdp = false → (peer_start (hp_config p) sdp w).1 = Ok answer →
  invalid_answer answer = false →
  HostPeerSession_accept_offer sdp (p, w) =
  (Ok answer, (set_state HS_Negotiating p, (peer_start (hp_config p) sdp w).2)).
Proof.
  intros Hp Ho Hs Ha. unfold HostPeerSession_accept_offer, self_get, self_set, world. unmonad.
  rewrite Hp, Ho. simpl. destruct (peer_start (hp_config p) sdp w) as [r w']. simpl in *. subst r.
  by rewrite Ha.
Qed.

Lemma activate_run offer description candidates v answer signed now s :
  let id := vo_session_id v in
  let k := DeviceIdentity_device_id (vo_controller v) in
  let sdp := WebRtcSessionDescription_sdp description in
  len id = SESSION_ID_BYTES → len k = DEVICE_ID_BYTES → live (co_service s) !! id = None →
  vo_permissions v = [SessionPermission_ViewScreen] ∨
  vo_permissions v = [SessionPermission_ViewScreen; SessionPermission_ControlInput] →
  served v sdp candidates answer now s →
  sign_remote_answer offer (pa_sdp answer) (pa_dtls_fingerprint_sha256 answer) (co_service s) = Ok signed →
  wp (activate_verified_session offer description candidates v now) (λ r s',
    r = Ok {| ss_controller_device_id := k; ss_session_id := id; ss_answer := answer;
              ss_answer_authentication := signed |} ∧ begun v s s') s.
Proof.
  intros id k sdp Hid Hk Hn Hps [Hc Ho Hst Hadd Ha Hrec] Hsign. unfold activate_verified_session, on_world.
  wp_step. apply wp_bind. unfold wp at 1, zoom.
  destruct (factory_create (co_config s) (from_verified v) (co_world s)) as [[[]|e] w]; [|done]. cbn [fst snd].
  destruct (new_run id (vo_permissions v) (co_config s) Hid Hps) as (p & Hp & Hnew & Hcfg).
  unfold id in Hp. pose proof (new_fields _ _ _ _ Hp) as [_ Hal]. rewrite Hp. wp_step; [done|]. match goal with E : map_err _ (Ok p) = _ |- _ => injection E as <- end.
  unfold wp. rewrite bind_on_session. cbn [co_world set_world]. fold sdp.
  rewrite (accept_offer_run sdp p w answer) by (rewrite ?Hcfg; auto). cbn [fst snd co_service set_world].
  rewrite Hsign. apply (register_verified_run candidates v _ answer signed now (set_world _ (set_world w s))); done.
Qed.

Lemma accepted_lengths s offer description now v :
  accepted s offer description now v →
  len (vo_session_id v) = SESSION_ID_BYTES ∧
  (vo_permissions v = [SessionPermission_ViewScreen] ∨
   vo_permissions v = [SessionPermission_ViewScreen; SessionPermission_ControlInput]).
Proof.
  intros (Hok & Hid & _). destruct Hok as [(_ & _ & Hl & _) _ _ [[_ ->]|[_ ->]] _ _ _]; rewrite Hid; auto.
Qed.

Lemma answer_ok_fingerprint answer :
  invalid_answer answer = false → len (pa_dtls_fingerprint_sha256 answer) = NONCE_OR_HASH_BYTES.
Proof. unfold invalid_answer. intros Ha. boolsimpl. lia. Qed.

(** The two envelopes that answer an offer. *)
Definition answer_envelopes k id request now (answer : PeerAnswer) (signed : SessionAnswerAuthentication) s
    : list RemoteSessionOutbound :=
  [{| ro_recipient_device_id := k;
      ro_opaque_envelope := encode_to_vec (outbound_envelope k request now
        (authentication_payload (SessionAuthentication_Payload_Answer signed)) s) |};
   {| ro_recipient_device_id := k;
      ro_opaque_envelope := encode_to_vec (outbound_envelope k request now
        (answer_description id answer) s) |}].

Lemma start_run offer description q v answer signed now s :
  let id := vo_session_id v in
  let k := DeviceIdentity_device_id (vo_controller v) in
  ps_authentication q = Some offer → ps_description q = Some description →
  verified_offer s offer description now v → ps_controller_device_id q = k → ps_session_id q = id →
  len id = SESSION_ID_BYTES → len k = DEVICE_ID_BYTES → live (co_service s) !! id = None →
  vo_permissions v = [SessionPermission_ViewScreen] ∨
  vo_permissions v = [SessionPermission_ViewScreen; SessionPermission_ControlInput] →
  served v (WebRtcSessionDescription_sdp description) (ps_candidates q) answer now s →
  sign_remote_answer offer (pa_sdp answer) (pa_dtls_fingerprint_sha256 answer) (co_service s) = Ok signed →
  (∀ s', hs_identity (co_service s') = hs_identity (co_service s) →
     Forall fits (answer_envelopes k id (ps_request_id q) now answer signed s')) →
  ∃ s', start_pending q now s = (Ok (answer_envelopes k id (ps_request_id q) now answer signed s'), s') ∧
    begun v s s'.
Proof.
  intros id k Ho Hd Hv Hqk Hqid Hid Hk Hn Hps Hserved Hsign Hfits.
  set (s1 := set_service (set_remote_status (shown id k SessionState_Authenticating None) (co_service s)) s).
  destruct (verify_run now offer description s1) as (r & verifier & Hr & Hrun & _).
  assert (r = Ok v) as -> by (unfold verified_offer in Hv; simpl in Hr; rewrite Hr in Hv; exact Hv).
  pose proof (activate_run offer description (ps_candidates q) v answer signed now
    (set_verifier verifier s1) Hid Hk Hn Hps) as Hact. unfold wp in Hact.
  destruct Hact as [Hres Hb]; [by destruct Hserved|done|].
  destruct (activate_verified_session offer description (ps_candidates q) v now (set_verifier verifier s1))
    as [r s2] eqn:Hrun2. cbn [fst snd] in *. subst r. exists s2. split; [|exact Hb].
  pose proof (Hfits s2 ltac:(apply Hb)) as [Hf1 [Hf2 _]%Forall_cons]%Forall_cons.
  unfold start_pending. rewrite Ho, Hd, Hqk, Hqid, !bind_some, bind_run. unfold map_err_m at 1.
  erewrite on_service_run by (apply (status_run id k SessionState_Authenticating); by apply shown_valid).
  cbn [map_err]. fold s1. rewrite bind_run, Hrun. cbn [map_err]. rewrite bind_fail_if, !bool_decide_true by done.
  cbn [negb orb]. rewrite bind_run, Hrun2. cbn [ss_controller_device_id ss_session_id ss_answer ss_answer_authentication].
  fold id k. by rewrite bind_run, (outbound_run _ _ _ _ s2 Hf1), bind_run, (outbound_run _ _ _ _ s2 Hf2).
Qed.

(** C9. An offer that is accepted starts its session. When the pending session has a signed offer
    and a description, the Host accepts the offer and it is the pending one's, and the platform
    serves it (the parts are created, the peer answers, candidates are accepted, the grant store
    records the connection, envelopes fit their bound), then: the Controller is sent two
    envelopes, an answer whose signature over its transcript, which repeats the offer and binds
    the local description and its fingerprint, verifies under the Host's public key, and that
    description; the session is active and registered, with exactly the rights of the offer; and
    it is shown as connecting. *)
Theorem offers_start_sessions `{!Sha256Laws, !Ed25519Laws} (offer : SessionOfferAuthentication)
    (description : WebRtcSessionDescription) (q : PendingSession) (v : VerifiedSessionOffer)
    (answer : PeerAnswer) (now : Z) s :
  let id := vo_session_id v in
  let k := DeviceIdentity_device_id (vo_controller v) in
  well_formed s → identity_wf (hs_identity (co_service s)) → co_active s = None →
  co_pending s = Some q → ps_authentication q = Some offer → ps_description q = Some description →
  verified_offer s offer description now v → ps_controller_device_id q = k → ps_session_id q = id →
  len k = DEVICE_ID_BYTES → served v (WebRtcSessionDescription_sdp description) (ps_candidates q) answer now s →
  (∀ signed s', sign_remote_answer offer (pa_sdp answer) (pa_dtls_fingerprint_sha256 answer) (co_service s) = Ok signed →
     hs_identity (co_service s') = hs_identity (co_service s) →
     Forall fits (answer_envelopes k id (ps_request_id q) now answer signed s')) →
  ∃ signed t s',
    try_start_pending now s = (Ok (answer_envelopes k id (ps_request_id q) now answer signed s'), s') ∧
    signed = unsigned_answer offer (pa_sdp answer) (pa_dtls_fingerprint_sha256 answer)
               (SessionAnswerAuthentication_signature signed) ∧
    encode_session_answer_transcript signed = Ok t ∧
    ed25519_verify (DeviceIdentity_public_key (hi_device_identity (hs_identity (co_service s)))) t
      (SessionAnswerAuthentication_signature signed) = true ∧
    (∃ a, co_active s' = Some a ∧ started_as v a) ∧ live (co_service s') = {[id := k]} ∧
    hs_remote_status (co_service s') = shown id k SessionState_Connecting None.
Proof.
  intros id k Hs Hi Ha Hp Ho Hd Hv Hqk Hqid Hk Hserved Hfits.
  pose proof (verified_accepted s offer description now v Hs Hv) as Hacc.
  destruct (accepted_lengths _ _ _ _ _ Hacc) as [Hid Hps]. destruct Hacc as [Hok _].
  destruct (answer_signed (co_service s) offer _ _ _ now _ _ (pa_sdp answer) (pa_dtls_fingerprint_sha256 answer) Hi Hok)
    as (signed & t & Hsign & Hun & Ht & Hver); [by apply answer_ok_fingerprint; destruct Hserved|].
  pose proof (idle_live s Hs Ha) as Hl.
  destruct (start_run offer description q v answer signed now (set_pending None s)) as (s' & Hrun & Hlive & Hst & Hact & _);
    [done..|by simpl; rewrite Hl|done|by destruct Hserved|done|intros; by apply Hfits|].
  unfold try_start_pending. rewrite bind_get, Hp. unfold is_ready. rewrite Ho, Hd. cbn [is_some andb].
  rewrite bind_run. unfold modify. rewrite bind_try, Hrun.
  exists signed, t, s'. split_and!; try done. rewrite Hlive. simpl. by rewrite Hl.
Qed.
End Runs.

(** * A concrete coordinator *)

Module Example.
#[local] Existing Instances Pairing.Example.digest Pairing.Example.curve Pairing.Example.expand
  Pairing.Example.cipher Pairing.Example.snapshots Pairing.Example.parser Pairing.Example.messages
  Pairing.Example.plaintexts Service.Example.digest_laws Service.Example.signature_laws.

(** Parts are always created, holding nothing, and report no event. *)
#[local] Instance factory : RemoteSessionFactory (gset Held) := {
  factory_create _ _ _ := (Ok (), ∅);
  events_try_recv w := (Ok None, w)
}.

Abbreviation sound := (λ _ : gset Held, True).
Abbreviation keys := (λ w : gset Held, w).

#[local] Instance sink_laws : SinkLaws (gset Held) sound keys.
Proof. exact toy_laws. Qed.

#[local] Instance factory_laws : FactoryLaws (gset Held) sound keys.
Proof. split; simpl; [|done]. intros ? ? w r w' [= <- <-] _. split_and!; [done|set_solver|done]. Qed.

Abbreviation peer := Service.Example.peer.

Definition description : WebRtcSessionDescription :=
  {| WebRtcSessionDescription_type := to_i32 SessionDescriptionType_Offer;
     WebRtcSessionDescription_sdp := lit "offer";
     WebRtcSessionDescription_dtls_fingerprint_sha256 := be_bytes 32 3 |}.

Definition envelope (payload : SignalingEnvelope_Payload) : SignalingEnvelope :=
  {| SignalingEnvelope_protocol_version := Some session_protocol_version;
     SignalingEnvelope_sender_device_id := peer;
     SignalingEnvelope_recipient_device_id := DeviceIdentity_device_id Pairing.Example.host;
     SignalingEnvelope_request_id := lit "request";
     SignalingEnvelope_sent_at_unix_ms := 1500;
     SignalingEnvelope_payload := Some payload |}.

(** Two envelopes of the controller: its description, and its signed offer. *)
#[local] Instance envelopes : Message SignalingEnvelope := {
  encode_to_vec _ := [];
  decode bs :=
    match bs with
    | [x00] => Some (envelope (SignalingEnvelope_Payload_WebrtcNegotiation
        {| WebRtcNegotiation_session_id := be_bytes 16 1;
           WebRtcNegotiation_payload := Some (WebRtcNegotiation_Payload_Description description) |}))
    | [x01] => Some (envelope (authentication_payload
        (SessionAuthentication_Payload_Offer Service.Example.signed_offer)))
    | _ => None
    end
}.

Definition config : SessionConfig := {| ice_transport_policy := ITP_All |}.

Abbreviation CO := (RemoteSessionCoordinator Z MemoryGrantStore Z (gset Held)).

Definition idle : CO :=
  {| co_service := Service.Example.service; co_verifier := Service.Example.verifier;
     co_config := config; co_pending := None; co_failed_attempt := None; co_active := None;
     co_closed := false; co_world := ∅ |}.

Lemma coordinator_created : with_config Service.Example.service config ∅ = Ok idle.
Proof. reflexivity. Qed.

Lemma service_sound : service_wf Service.Example.service.
Proof.
  exact (service_new_wf _ _ _ _ _ _ Service.Example.service_created Service.Example.authorization_wf eq_refl).
Qed.

Abbreviation offered := (co_exec (CoO_Routed peer [x00] 1500) idle).
Abbreviation connected := (co_exec (CoO_Routed peer [x01] 1500) offered).

Lemma connected_run : rtc (co_step false None sound keys (λ _, true)) idle connected.
Proof.
  eapply rtc_l; [exact (co_operation false None sound keys (λ _, true) idle (CoO_Routed peer [x00] 1500) eq_refl)|].
  apply rtc_once. exact (co_operation false None sound keys (λ _, true) offered (CoO_Routed peer [x01] 1500) eq_refl).
Qed.

Lemma idle_wf : co_wf sound keys idle.
Proof. by apply (created_wf sound keys Service.Example.service config ∅ idle); [apply service_sound|..]. Qed.

Lemma offered_wf : co_wf sound keys offered.
Proof. exact (exec_wf sound keys (CoO_Routed peer [x00] 1500) idle idle_wf). Qed.

Lemma connected_wf : co_wf sound keys connected.
Proof. exact (exec_wf sound keys (CoO_Routed peer [x01] 1500) offered offered_wf). Qed.

Lemma coordinator_invariant_witness :
  rtc (co_step false None sound keys (λ _, true)) idle connected ∧
  co_wf sound keys connected ∧ (size (live (co_service connected)) ≤ 1)%nat.
Proof.
  split; [exact connected_run|].
  exact (coordinator_invariant false None sound keys Service.Example.service config ∅ idle connected
           service_sound eq_refl I eq_refl coordinator_created connected_run).
Defined.

Lemma connected_active : is_some (co_active connected) = true ∧ co_active offered = None.
Proof. vm_compute. done. Qed.

Lemma sessions_authorized_witness :
  ∃ a' v, co_active connected = Some a' ∧ as_session_id a' = vo_session_id v ∧
    as_controller_device_id a' = peer ∧ DeviceIdentity_device_id (vo_controller v) = peer.
Proof.
  pose proof connected_active as [Hact Hoff]. destruct (co_active connected) as [a'|] eqn:Ha'; [|discriminate Hact].
  destruct (sessions_authorized sound keys (CoO_Routed peer [x01] 1500) offered a' offered_wf Ha')
    as [(a & Ha & _)|(sender & e & now & o & d & v & Hop & _ & Hv & Hk & Hid & _)].
  - rewrite Hoff in Ha. discriminate Ha.
  - injection Hop as <- _ _. exists a', v. exact (conj eq_refl (conj Hid (conj Hk Hv))).
Defined.

Lemma retained_session_bounded_witness :
  ∃ a, co_active connected = Some a ∧
    retained sound keys a (reconnect_deadline 2000 a) (signaling_lost 2000 connected).2 ∧
    co_active (expire_active_reconnect 47000 (signaling_lost 2000 connected).2).2 = None.
Proof.
  pose proof connected_active as [Hact _].
  assert (∀ a, co_active connected = Some a → reconnect_deadline 2000 a <= 47000) as Hd
    by (vm_compute; intros a [= <-]; discriminate).
  destruct (co_active connected) as [a|] eqn:Ha; [|discriminate Hact]. exists a. split; [reflexivity|].
  destruct (retained_session_bounded false None sound keys 2000 connected a _ connected_wf Ha (rtc_refl _ _))
    as (Hr & _ & He).
  exact (conj Hr (proj1 (He 47000 (Hd a eq_refl)))).
Defined.

Definition stopped (k : bytes) : SessionTerminatedEvent :=
  {| SessionTerminatedEvent_session_id := be_bytes 16 1;
     SessionTerminatedEvent_controller_device_id := k;
     SessionTerminatedEvent_reason := to_i32 ErrorCode_LocalEmergencyStop |}.

Lemma stopped_named :
  match co_active connected with
  | Some a => names_session (stopped peer) a = true ∧
      is_ok (HostPeerSession_close (as_session a, co_world connected)).1 = true
  | None => False
  end.
Proof. vm_compute. done. Qed.

Lemma termination_exact_witness :
  ∃ a, co_active connected = Some a ∧
    handle_termination (stopped peer) 3000 connected =
    (Ok [closing_notice 3000 a connected], after_end None a connected).
Proof.
  pose proof stopped_named as Hn. pose proof (termination_exact sound keys (stopped peer) 3000 connected connected_wf) as Ht.
  destruct (co_active connected) as [a|] eqn:Ha; [|destruct Hn]. exists a. split; [reflexivity|].
  cbv zeta in Ht. rewrite (proj1 Hn) in Ht. cbv iota in Ht. destruct Ht as [Ht _].
  destruct (HostPeerSession_close (as_session a, co_world connected)).1 as [[]|e]; [|discriminate (proj2 Hn)].
  exact Ht.
Defined.

(** The offer and the description, collected. *)
Definition collected : PendingSession :=
  set_offer (Some Service.Example.signed_offer) (Some description)
    (PendingSession_new peer (be_bytes 16 1) (lit "request") 1500).

Definition pending : CO := set_pending (Some collected) idle.

Definition verified : VerifiedSessionOffer :=
  {| vo_controller := Pairing.Example.controller; vo_session_id := be_bytes 16 1;
     vo_permissions := [SessionPermission_ViewScreen; SessionPermission_ControlInput] |}.

Definition toy_answer : PeerAnswer :=
  {| pa_sdp := lit "v=0"; pa_dtls_fingerprint_sha256 := be_bytes 32 1 |}.

Lemma pending_wf : co_wf sound keys pending.
Proof.
  apply (from_pending sound keys true idle); [|by apply from_refl, idle_wf].
  intros q [= <-]. split_and!; [|done|done]. vm_compute. split_and!; first [done|discriminate].
Qed.

Lemma verified_ok : verified_offer pending Service.Example.signed_offer description 1500 verified.
Proof. vm_compute. reflexivity. Qed.

Lemma served_ok : served verified (WebRtcSessionDescription_sdp description) (ps_candidates collected)
  toy_answer 1500 pending.
Proof. split; try reflexivity; try done; vm_compute; reflexivity. Qed.

Lemma offers_start_sessions_witness :
  ∃ signed s',
    try_start_pending 1500 pending =
      (Ok (answer_envelopes peer (be_bytes 16 1) (lit "request") 1500 toy_answer signed s'), s') ∧
    live (co_service s') = {[be_bytes 16 1 := peer]}.
Proof.
  assert (len (DeviceIdentity_device_id (vo_controller verified)) = DEVICE_ID_BYTES) as Hk by (vm_compute; reflexivity).
  destruct (offers_start_sessions sound keys Service.Example.signed_offer description collected verified toy_answer
    1500 pending pending_wf Service.Example.host_wf eq_refl eq_refl eq_refl eq_refl verified_ok eq_refl eq_refl Hk served_ok)
    as (signed & t & s' & Hrun & _ & _ & _ & _ & Hl & _).
  - intros signed s' _ _. apply Forall_cons. split; [discriminate|]. apply Forall_cons. split; [discriminate|apply Forall_nil_2].
  - exact (ex_intro _ signed (ex_intro _ s' (conj Hrun Hl))).
Defined.
End Example.
