(* ===== verification/LocalRuntime.v ===== *)
(** The runtime of the Host agent, crates/host-agent/src/runtime.rs: starting the service from
    the protected store and the grant file, accepting local clients, and serving one connection.

    An async task is the sequence of what its [select!] took: a connection is a list of [Turn]s,
    the listener a list of [ListenerEvent]s.  What a stream still delivers is a list of reads,
    and a branch whose future is not ready is not taken.  A connection's [send]s go to the
    channel of its writer; a send that times out or finds the writer gone fails. *)
From S2P Require Import Prelude Limits Messages Validation Framing IpcAuth Crypto Containers Transcript GrantStore Authorization SessionAuth Identity PairingCrypto Signaling Pairing Sessions Service.

Local Open Scope Z_scope.

(** * Data *)

Definition INSTANCE_ID_BYTES : Z := 16.
Definition IPC_TOKEN_BYTES : Z := 32.
Definition MAX_LOCAL_CLIENTS : nat := 4.

Inductive LocalTransportError :=
| LT_Io | LT_PeerUserMismatch | LT_UnsafeStaleEndpoint | LT_EndpointAlreadyActive
| LT_UnsupportedPlatform.

Inductive RuntimeError :=
| RT_AlreadyRunning | RT_UnsupportedPlatform | RT_PrivatePaths | RT_ProtectedIdentity
| RT_AuthorizationData | RT_LocalTransport | RT_RandomGeneration | RT_SystemClock
| RT_LocalProtocol | RT_Task | RT_ShutdownSignal | RT_Environment | RT_RemoteConfiguration
| RT_TlsCryptoProvider | RT_NativeWebRtcUnavailable | RT_RemoteSession
| RT_PrivilegedBridgeUnavailable | RT_ProtectedSessionAgentUnavailable
| RT_DesktopPermissionsRequired.

#[export] Instance RuntimeError_eq_dec : EqDecision RuntimeError.
Proof. solve_decision. Defined.

Definition startup_code (error : RuntimeError) : string :=
  match error with
  | RT_AlreadyRunning => "already_running"
  | RT_UnsupportedPlatform => "unsupported_platform"
  | RT_PrivatePaths => "private_paths_unavailable"
  | RT_ProtectedIdentity => "protected_identity_unavailable"
  | RT_AuthorizationData => "authorization_data_unavailable"
  | RT_LocalTransport => "local_transport_unavailable"
  | RT_RandomGeneration => "random_generation_failed"
  | RT_SystemClock => "system_clock_unavailable"
  | RT_LocalProtocol => "local_protocol_failed"
  | RT_Task => "runtime_task_failed"
  | RT_ShutdownSignal => "shutdown_signal_unavailable"
  | RT_Environment => "environment_unavailable"
  | RT_RemoteConfiguration => "remote_configuration_invalid"
  | RT_TlsCryptoProvider => "tls_provider_unavailable"
  | RT_NativeWebRtcUnavailable => "native_webrtc_unavailable"
  | RT_RemoteSession => "remote_session_runtime_failed"
  | RT_PrivilegedBridgeUnavailable => "privileged_bridge_unavailable"
  | RT_ProtectedSessionAgentUnavailable => "protected_session_agent_unavailable"
  | RT_DesktopPermissionsRequired => "desktop_permissions_required"
  end.

Definition map_transport_error (error : LocalTransportError) : RuntimeError :=
  match error with
  | LT_EndpointAlreadyActive => RT_AlreadyRunning
  | LT_UnsupportedPlatform => RT_UnsupportedPlatform
  | _ => RT_LocalTransport
  end.

Definition local_protocol_version : ProtocolVersion :=
  {| ProtocolVersion_major := 1; ProtocolVersion_minor := 0 |}.

(** * Frames *)

Definition session_terminated_frame (event : SessionTerminatedEvent) : LocalIpcServerFrame :=
  {| LocalIpcServerFrame_protocol_version := Some local_protocol_version;
     LocalIpcServerFrame_request_id := [];
     LocalIpcServerFrame_payload := Some (LocalIpcServerFrame_Payload_SessionTerminated event) |}.

Definition host_pairing_state_frame (status : HostPairingStatusSnapshot) : LocalIpcServerFrame :=
  {| LocalIpcServerFrame_protocol_version := Some local_protocol_version;
     LocalIpcServerFrame_request_id := [];
     LocalIpcServerFrame_payload := Some (LocalIpcServerFrame_Payload_HostPairingStateChanged
       {| HostPairingStateChangedEvent_status := Some status |}) |}.

Definition protocol_error_class (error : ProtocolError) : ErrorCode * string :=
  match error with
  | PE_AuthenticationFailed | InvalidAuthenticationLength =>
      (ErrorCode_AuthInvalid, "local_ipc.authentication_failed")
  | UnsupportedVersion => (ErrorCode_ProtocolUnsupported, "local_ipc.version_unsupported")
  | _ => (ErrorCode_InvalidRequest, "local_ipc.invalid_request")
  end%string.

Definition protocol_error_frame (request_id : text) (error : ProtocolError) : LocalIpcServerFrame :=
  let '(code, message_key) := protocol_error_class error in
  {| LocalIpcServerFrame_protocol_version := Some local_protocol_version;
     LocalIpcServerFrame_request_id := request_id;
     LocalIpcServerFrame_payload := Some (LocalIpcServerFrame_Payload_Error
       {| UnifiedError_code := to_i32 code; UnifiedError_message_key := lit message_key;
          UnifiedError_retryable := false; UnifiedError_request_id := request_id;
          UnifiedError_details := None |}) |}.

Definition local_challenge_frame (challenge : LocalIpcChallenge) : LocalIpcServerFrame :=
  {| LocalIpcServerFrame_protocol_version := Some local_protocol_version;
     LocalIpcServerFrame_request_id := [];
     LocalIpcServerFrame_payload := Some (LocalIpcServerFrame_Payload_Challenge challenge) |}.

Definition local_authenticated_frame (request_id : text) (authenticated : LocalIpcAuthenticated)
    : LocalIpcServerFrame :=
  {| LocalIpcServerFrame_protocol_version := Some local_protocol_version;
     LocalIpcServerFrame_request_id := request_id;
     LocalIpcServerFrame_payload := Some (LocalIpcServerFrame_Payload_Authenticated authenticated) |}.

(** * Reading frames *)

(** The reads a stream will still answer: an empty read is its end; none left, and a read
    waits. *)
Record IncomingFrameReader := {
  fr_reader : list (result unit bytes);
  fr_decoder : FrameDecoder;
  fr_queued : list bytes
}.

Definition IncomingFrameReader_new (reader : list (result unit bytes)) : IncomingFrameReader :=
  {| fr_reader := reader; fr_decoder := FrameDecoder_new; fr_queued := [] |}.

Section Frames.
Context `{Message LocalIpcClientFrame}.

Definition decode_local_frame (encoded : bytes) : result RuntimeError (option LocalIpcClientFrame) :=
  match decode encoded with
  | Some frame => Ok (Some frame)
  | None => Err RT_LocalProtocol
  end.

(** The loop of [next_frame], over the reads that are left; [None]: it waits.  The decoder's
    loop never runs out of the fuel it takes from its chunk. *)
Fixpoint read_frame (reader : list (result unit bytes)) (decoder : FrameDecoder) (queued : list bytes)
    : option (result RuntimeError (option LocalIpcClientFrame)) * IncomingFrameReader :=
  match queued with
  | encoded :: queued =>
      (Some (decode_local_frame encoded),
       {| fr_reader := reader; fr_decoder := decoder; fr_queued := queued |})
  | [] =>
      match reader with
      | [] => (None, {| fr_reader := []; fr_decoder := decoder; fr_queued := [] |})
      | Err _ :: reader =>
          (Some (Err RT_LocalProtocol),
           {| fr_reader := reader; fr_decoder := decoder; fr_queued := [] |})
      | Ok [] :: reader =>
          (Some (match FrameDecoder_finish decoder with
                 | Ok _ => Ok None
                 | Err _ => Err RT_LocalProtocol
                 end), {| fr_reader := reader; fr_decoder := decoder; fr_queued := [] |})
      | Ok chunk :: reader =>
          match FrameDecoder_push chunk decoder with
          | Some (Ok frames, decoder) => read_frame reader decoder frames
          | Some (Err _, decoder) =>
              (Some (Err RT_LocalProtocol),
               {| fr_reader := reader; fr_decoder := decoder; fr_queued := [] |})
          | None => (None, {| fr_reader := reader; fr_decoder := decoder; fr_queued := [] |})
          end
      end
  end.

Definition next_frame (self : IncomingFrameReader)
    : option (result RuntimeError (option LocalIpcClientFrame)) * IncomingFrameReader :=
  read_frame (fr_reader self) (fr_decoder self) (fr_queued self).
End Frames.

(** [write_frames]: the bytes written for the frames the channel delivered, one [write_all]
    after the other, [writes] telling which succeed, and the [shutdown] of the writer last. *)
Fixpoint write_frames `{Message LocalIpcServerFrame} (frames : list LocalIpcServerFrame)
    (writes : list bool) (written : bytes) : result RuntimeError unit * bytes :=
  let '(ok, writes) := match writes with b :: writes => (b, writes) | [] => (true, []) end in
  match frames with
  | [] => (if ok then Ok () else Err RT_LocalProtocol, written)
  | frame :: frames =>
      match encode_frame (encode_to_vec frame) with
      | Err _ => (Err RT_LocalProtocol, written)
      | Ok encoded =>
          if ok : bool then write_frames frames writes (written ++ encoded)
          else (Err RT_LocalProtocol, written)
      end
  end.

(** * One connection *)

(** What a [broadcast] receiver delivers. *)
Inductive Received (A : Type) := Delivered (value : A) | Lagged | ChannelClosed.
Arguments Delivered {A}.
Arguments Lagged {A}.
Arguments ChannelClosed {A}.

(** What one iteration of the [select!] of a connection took: the cancellation, with what it now
    says; a frame, with the clock's reading (milliseconds) when the request ran and whether it
    ran within its timeout; an end of a session; a change of the pairing state. *)
Inductive Turn :=
| TurnCancel (cancelled : bool)
| TurnFrame (clock : option Z) (timely : bool)
| TurnTerminated (event : Received SessionTerminatedEvent)
| TurnPairing (status : Received HostPairingStatusSnapshot).

(** [now_unix_ms]. *)
Definition clock_reading (clock : option Z) : result RuntimeError Z :=
  match clock with Some now => Ok now | None => Err RT_SystemClock end.

Section Connection.
Context `{Hmac, Message LocalIpcClientFrame, Message LocalIpcServerFrame}.
Context `{Sha256, Ed25519, X25519, HkdfSha256, Aes256Gcm}.
Context `{Message PairingMessage, Message PairingPlaintext, Message HostAuthorizationSnapshot}.
Context `{UrlParser Url} {G : Type} `{RandomSource G} {W R : Type} `{GrantStore W, RandomSource R}.
Context (debug_build : bool) (requested : option text).

(** [cn_sends] tells which sends to the writer will succeed; [cn_sent] are the frames sent. *)
Record Connection := {
  cn_reader : IncomingFrameReader;
  cn_protocol : ServerProtocol;
  cn_service : HostService G W R;
  cn_sends : list bool;
  cn_sent : list LocalIpcServerFrame
}.

Abbreviation CM A := (M Connection RuntimeError A).

Definition set_reader (x : IncomingFrameReader) (c : Connection) : Connection :=
  {| cn_reader := x; cn_protocol := cn_protocol c; cn_service := cn_service c;
     cn_sends := cn_sends c; cn_sent := cn_sent c |}.

Definition set_protocol (x : ServerProtocol) (c : Connection) : Connection :=
  {| cn_reader := cn_reader c; cn_protocol := x; cn_service := cn_service c;
     cn_sends := cn_sends c; cn_sent := cn_sent c |}.

Definition set_cn_service (x : HostService G W R) (c : Connection) : Connection :=
  {| cn_reader := cn_reader c; cn_protocol := cn_protocol c; cn_service := x;
     cn_sends := cn_sends c; cn_sent := cn_sent c |}.

Definition set_sends (sends : list bool) (sent : list LocalIpcServerFrame) (c : Connection) : Connection :=
  {| cn_reader := cn_reader c; cn_protocol := cn_protocol c; cn_service := cn_service c;
     cn_sends := sends; cn_sent := sent |}.

Definition send_outbound (frame : LocalIpcServerFrame) : CM unit := λ c,
  match cn_sends c with
  | false :: sends => (Err RT_LocalProtocol, set_sends sends (cn_sent c) c)
  | sends => (Ok (), set_sends (drop 1 sends) (cn_sent c ++ [frame]) c)
  end.

(** Waiting for the next frame; [None]: none is there. *)
Definition await_frame : CM (option (result RuntimeError (option LocalIpcClientFrame))) := λ c,
  let '(r, reader) := next_frame (cn_reader c) in (Ok r, set_reader reader c).

Definition on_server_protocol {A} (m : M ServerProtocol ProtocolError A) : M Connection ProtocolError A :=
  zoom cn_protocol set_protocol m.

(** The blocking task of a request: it runs to its end even when nobody waits for it any more. *)
Definition run_request (frame : LocalIpcClientFrame) (clock : option Z) (timely : bool)
    : CM LocalIpcServerFrame := λ c,
  match clock_reading clock with
  | Err e => (Err (if timely then e else RT_LocalProtocol), c)
  | Ok now =>
      let '(response, service) := handle_frame debug_build requested frame now (cn_service c) in
      (if timely then Ok response else Err RT_LocalProtocol, set_cn_service service c)
  end.

(** One iteration of the loop; [true]: the session has ended. *)
Definition connection_turn (turn : Turn) : CM bool :=
  match turn with
  | TurnCancel cancelled => mret cancelled
  | TurnFrame clock timely =>
      ready ← await_frame;
      match ready with
      | None => mret false
      | Some frame =>
          frame ← lift frame;
          match frame with
          | None => mret true
          | Some frame =>
              begun ← try (on_server_protocol (ServerProtocol_begin_request frame));
              match begun with
              | Err error =>
                  send_outbound (protocol_error_frame (LocalIpcClientFrame_request_id frame) error);;
                  mret false
              | Ok _ =>
                  response ← run_request frame clock timely;
                  modify (λ c, set_protocol (ServerProtocol_complete_request
                    (LocalIpcClientFrame_request_id frame) (cn_protocol c)) c);;
                  send_outbound response;;
                  mret false
              end
          end
      end
  | TurnTerminated (Delivered event) => send_outbound (session_terminated_frame event);; mret false
  | TurnPairing (Delivered status) => send_outbound (host_pairing_state_frame status);; mret false
  | TurnTerminated Lagged | TurnPairing Lagged => mret false
  | TurnTerminated ChannelClosed | TurnPairing ChannelClosed => mret true
  end.

Fixpoint connection_loop (turns : list Turn) : CM bool :=
  match turns with
  | [] => mret false
  | turn :: turns =>
      ended ← connection_turn turn;
      if ended : bool then mret true else connection_loop turns
  end.

(** [connection_session]; [timely]: the first frame comes within the handshake timeout. *)
Definition connection_session (token instance_id : bytes) (server_nonce : result unit bytes)
    (timely : bool) (turns : list Turn) : CM bool :=
  server_nonce ← lift (map_err (λ _, RT_RandomGeneration) server_nonce);
  modify (set_protocol (ServerProtocol_new token instance_id server_nonce));;
  c ← get;
  send_outbound (local_challenge_frame (ServerProtocol_challenge (cn_protocol c)));;
  ready ← await_frame;
  ready ← ok_or (if timely then ready else None) RT_LocalProtocol;
  frame ← lift ready;
  frame ← ok_or frame RT_LocalProtocol;
  authenticated ← try (on_server_protocol (ServerProtocol_authenticate frame));
  match authenticated with
  | Err error =>
      send_outbound (protocol_error_frame (LocalIpcClientFrame_request_id frame) error);;
      mret true
  | Ok authenticated =>
      send_outbound (local_authenticated_frame (LocalIpcClientFrame_request_id frame) authenticated);;
      connection_loop turns
  end.

(** A connection just accepted. *)
Definition accepted_connection (reader : list (result unit bytes)) (service : HostService G W R)
    (sends : list bool) : Connection :=
  {| cn_reader := IncomingFrameReader_new reader; cn_protocol := ServerProtocol_new [] [] [];
     cn_service := service; cn_sends := sends; cn_sent := [] |}.

(** [handle_connection]: the session, then the writer's task, which joins within its timeout
    with a result, or does not. *)
Definition handle_connection (token instance_id : bytes) (server_nonce : result unit bytes)
    (timely : bool) (turns : list Turn) (writer : option (result RuntimeError unit)) : CM bool :=
  ended ← try (connection_session token instance_id server_nonce timely turns);
  match writer with
  | None => mthrow RT_LocalProtocol
  | Some writer => ended ← lift ended; lift writer;; mret ended
  end.
End Connection.
Arguments Connection : clear implicits.

(** * The listener *)

(** What happened next in the accept loop: a branch of its [select!], or a connection's task that
    ended, which frees its permit before it is joined. *)
Inductive ListenerEvent :=
| ListenerShutdown (stopped : bool)
| ListenerAccepted (accepted : result LocalTransportError unit)
| ListenerJoined
| ConnectionEnded.

(** The permits in use, the tasks not yet joined, and the error that stopped the loop. *)
Record Listener := {
  ln_permits : nat;
  ln_tasks : nat;
  ln_accept_error : option RuntimeError
}.

Definition set_tasks (permits tasks : nat) (l : Listener) : Listener :=
  {| ln_permits := permits; ln_tasks := tasks; ln_accept_error := ln_accept_error l |}.

Definition spawn_connection (l : Listener) : Listener :=
  if bool_decide (ln_permits l < MAX_LOCAL_CLIENTS)%nat
  then set_tasks (S (ln_permits l)) (S (ln_tasks l)) l else l.

Definition listener_turn (event : ListenerEvent) (l : Listener) : bool * Listener :=
  match event with
  | ListenerShutdown stopped => (stopped, l)
  | ListenerAccepted (Ok _) => (false, spawn_connection l)
  | ListenerAccepted (Err LT_PeerUserMismatch) => (false, l)
  | ListenerAccepted (Err error) =>
      (true, {| ln_permits := ln_permits l; ln_tasks := ln_tasks l;
                ln_accept_error := Some (map_transport_error error) |})
  | ListenerJoined =>
      (false, if bool_decide (ln_permits l < ln_tasks l)%nat
              then set_tasks (ln_permits l) (pred (ln_tasks l)) l else l)
  | ConnectionEnded => (false, set_tasks (pred (ln_permits l)) (ln_tasks l) l)
  end.

Fixpoint listener_loop (events : list ListenerEvent) (l : Listener) : bool * Listener :=
  match events with
  | [] => (false, l)
  | event :: events =>
      let '(stopped, l) := listener_turn event l in
      if stopped : bool then (true, l) else listener_loop events l
  end.

(** [stop_connections]: every task is cancelled and joined; [joined] tells how each ended. *)
Definition stop_connections (joined : list (result unit unit)) (l : Listener)
    : result RuntimeError unit :=
  if forallb is_ok (take (ln_tasks l) joined) then Ok () else Err RT_Task.

(** [run_listener]; [None]: its loop is still running. *)
Definition run_listener (events : list ListenerEvent) (joined : list (result unit unit))
    : option (result RuntimeError unit) :=
  let '(stopped, l) :=
    listener_loop events {| ln_permits := 0; ln_tasks := 0; ln_accept_error := None |} in
  if stopped : bool then
    Some (stop_connections joined l;;
          match ln_accept_error l with Some error => Err error | None => Ok () end)
  else None.

(** * Start *)

(** The private paths, the clock and the listener of the platform. *)
Class AgentPlatform (P : Type) := {
  prepare_paths : M P unit unit;
  clock_unix_ms : M P unit Z;
  bind_listener : bytes → bytes → M P LocalTransportError unit
}.

Section Start.
Context `{Sha256, Ed25519}.
Context {S G W R P : Type} `{ProtectedSecretStore S, RandomSource G, GrantStore W, AgentPlatform P}.

(** What [start_with_store] works on: the secret store, the random source, the grant file and the
    platform. *)
Record Startup := { su_secrets : S; su_random : G; su_grants : W; su_platform : P }.

Definition set_identity_state (x : S * G) (s : Startup) : Startup :=
  {| su_secrets := x.1; su_random := x.2; su_grants := su_grants s; su_platform := su_platform s |}.

Definition set_random (x : G) (s : Startup) : Startup :=
  {| su_secrets := su_secrets s; su_random := x; su_grants := su_grants s; su_platform := su_platform s |}.

Definition set_grants (x : W) (s : Startup) : Startup :=
  {| su_secrets := su_secrets s; su_random := su_random s; su_grants := x; su_platform := su_platform s |}.

Definition set_platform (x : P) (s : Startup) : Startup :=
  {| su_secrets := su_secrets s; su_random := su_random s; su_grants := su_grants s; su_platform := x |}.

(** [secure_random]. *)
Definition secure_random (size : Z) : M Startup RuntimeError bytes :=
  map_err_m (λ _, RT_RandomGeneration) (zoom su_random set_random (random_bytes size)).

(** [start_with_store], up to the start of its task: the service, the token and the instance.
    [pairing] and [registry] are the random sources of the pairing coordinator and the grant
    registry; a service that is [None] is the [unreachable!] of its pairing coordinator. *)
Definition start_with_store (display_name : text) (platform : DevicePlatform) (pairing : G) (registry : R)
    : M Startup RuntimeError (option (HostService G W R) * bytes * bytes) :=
  map_err_m (λ _, RT_PrivatePaths) (zoom su_platform set_platform prepare_paths);;
  identity ← map_err_m (λ _, RT_ProtectedIdentity)
    (zoom (λ s, (su_secrets s, su_random s)) set_identity_state
       (HostIdentity_load_or_create display_name platform));
  authorization ← map_err_m (λ _, RT_AuthorizationData)
    (zoom su_grants set_grants
       (AuthorizationRegistry_load (DeviceIdentity_device_id (hi_device_identity identity))));
  instance_id ← secure_random INSTANCE_ID_BYTES;
  token ← secure_random IPC_TOKEN_BYTES;
  started_at_unix_ms ← map_err_m (λ _, RT_SystemClock) (zoom su_platform set_platform clock_unix_ms);
  map_err_m map_transport_error (zoom su_platform set_platform (bind_listener instance_id token));;
  self ← get;
  mret (HostService_new identity
          {| rs_registry := authorization; rs_store := su_grants self; rs_random := registry |}
          pairing instance_id started_at_unix_ms, token, instance_id).
End Start.
Arguments Startup : clear implicits.

(** * Reading frames, as a specification *)

Section Received.
Context `{Message LocalIpcClientFrame}.

(** The frames successive calls of [next_frame] return, and what the call after them returns. *)
Inductive receives : IncomingFrameReader → list LocalIpcClientFrame →
    option (result RuntimeError (option LocalIpcClientFrame)) → Prop :=
| receives_frame self self' frame frames last :
    next_frame self = (Some (Ok (Some frame)), self') → receives self' frames last →
    receives self (frame :: frames) last
| receives_last self last : (next_frame self).1 = last → receives self [] last.

(** How a stream that ends after [rest] ends. *)
Definition stream_end (rest : bytes) : result RuntimeError (option LocalIpcClientFrame) :=
  if decide (rest = []) then Ok None else Err RT_LocalProtocol.

Lemma new_decoder_wf : FrameDecoder_wf FrameDecoder_new ∧ maximum FrameDecoder_new = MAX_LOCAL_IPC_FRAME_BYTES ∧
  Framing.pending FrameDecoder_new = [] ∧ fd_failed FrameDecoder_new = false.
Proof. split_and!; [split; simpl; try done; unfold MAX_LOCAL_IPC_FRAME_BYTES, U32_MAX; lia|done..]. Qed.

Lemma decodes_total d chunks :
  FrameDecoder_wf d → fd_failed d = false →
  ∃ fs r, decodes (maximum d) (Framing.pending d ++ concat chunks) fs r.
Proof.
  intros Hw Hf. destruct (push_chunks_spec chunks d Hw Hf) as (r & d' & _ & Hm & Hr). destruct r as [fs|e].
  - destruct Hr as (Hw' & _ & Hd). exists (fs ++ []), (Ok (Framing.pending d')).
    rewrite <- (app_nil_r (concat chunks)). apply Hd. rewrite app_nil_r, <- Hm. by apply pending_incomplete.
  - destruct Hr as (_ & fs & Hd). exists fs, (Err e). specialize (Hd []). by rewrite app_nil_r in Hd.
Qed.

Definition of_queue (reader : list (result unit bytes)) (d : FrameDecoder) (queued : list bytes) : IncomingFrameReader :=
  {| fr_reader := reader; fr_decoder := d; fr_queued := queued |}.

Lemma receives_same self self' frames last :
  next_frame self' = next_frame self → receives self frames last → receives self' frames last.
Proof.
  intros Hs Hr. inversion Hr as [? self'' ? ? ? Hn Ht|? ? Hn]; subst.
  - eapply receives_frame; [by rewrite Hs, Hn|done].
  - apply receives_last. by rewrite Hs.
Qed.

(** A queue is delivered before the stream is read again. *)
Lemma receives_queue reader d queued frames frames' last :
  Forall2 (λ p f, decode p = Some f) queued frames →
  receives (of_queue reader d []) frames' last → receives (of_queue reader d queued) (frames ++ frames') last.
Proof.
  intros Hq Hr. induction Hq as [|p f queued frames Hp _ IH]; [exact Hr|]. simpl.
  apply (receives_frame _ (of_queue reader d queued)); [|done].
  unfold next_frame, of_queue. by destruct reader; simpl; unfold decode_local_frame; rewrite Hp.
Qed.

Lemma receives_stream chunks d ps rest frames :
  FrameDecoder_wf d → fd_failed d = false → Forall (λ c, c ≠ []) chunks →
  decodes (maximum d) (Framing.pending d ++ concat chunks) ps (Ok rest) →
  Forall2 (λ p f, decode p = Some f) ps frames →
  receives (of_queue ((Ok <$> chunks) ++ [Ok []]) d []) frames (Some (stream_end rest)).
Proof.
  revert d ps frames. induction chunks as [|c chunks IH]; intros d ps frames Hw Hf Hc Hd Hp; simpl in *.
  - rewrite app_nil_r in Hd.
    destruct (decodes_det _ _ _ _ _ _ Hd (pending_incomplete d Hw)) as [-> [= ->]].
    apply Forall2_nil_inv_l in Hp as ->. apply receives_last. unfold next_frame, of_queue. simpl.
    unfold stream_end. case_decide as Hr.
    + by rewrite (proj2 (finish_iff d Hw Hf) Hr).
    + pose proof (proj1 (finish_iff d Hw Hf)) as Hfin. by destruct (FrameDecoder_finish d) as [[]|]; [destruct (Hr (Hfin eq_refl))|].
  - apply Forall_cons in Hc as [Hne Hc].
    destruct (push_spec c d Hw Hf) as (r & d' & Hpush & Hm & Hr). destruct r as [fs|e]; cycle 1.
    { destruct Hr as (_ & fs & Hr). by destruct (decodes_det _ _ _ _ _ _ Hd (Hr (concat chunks))). }
    destruct Hr as (Hw' & Hf' & Hr). destruct (decodes_total d' chunks Hw' Hf') as (ps' & r' & Hd').
    rewrite Hm in Hd'. destruct (decodes_det _ _ _ _ _ _ Hd (Hr _ _ _ Hd')) as [-> Hrr]. subst r'.
    apply Forall2_app_inv_l in Hp as (frames1 & frames2 & Hp1 & Hp2 & ->). rewrite <- Hm in Hd'.
    pose proof (receives_queue _ _ _ _ _ _ Hp1 (IH d' ps' frames2 Hw' Hf' Hc Hd' Hp2)) as Hrec.
    revert Hrec. apply receives_same.
    unfold next_frame, of_queue. simpl. destruct c; [done|]. by rewrite Hpush.
Qed.

(** C38. Local requests are read exactly as they were framed. However the stream is cut into reads,
    the requests a connection gets are the payloads of the stream's frames, each once and in
    order, decoded; and after them the end, which is clean exactly when the stream ended between
    two frames. *)
Theorem requests_read_exactly (chunks ps : list bytes) (rest : bytes) (frames : list LocalIpcClientFrame) :
  Forall (λ c, c ≠ []) chunks →
  decodes MAX_LOCAL_IPC_FRAME_BYTES (concat chunks) ps (Ok rest) →
  Forall2 (λ p f, decode p = Some f) ps frames →
  receives (IncomingFrameReader_new ((Ok <$> chunks) ++ [Ok []])) frames (Some (stream_end rest)).
Proof.
  intros Hc Hd Hp. destruct new_decoder_wf as (Hw & Hm & Hpd & Hf).
  apply (receives_stream chunks FrameDecoder_new ps rest frames Hw Hf Hc); [|done]. by rewrite Hm, Hpd.
Qed.
End Received.

(** ** The listener

    At most four connections are served at a time, each by a task that is joined at the end. *)
Definition listener_wf (l : Listener) : Prop :=
  (ln_permits l <= MAX_LOCAL_CLIENTS)%nat ∧ (ln_permits l <= ln_tasks l)%nat.

Lemma listener_turn_wf event l : listener_wf l → listener_wf (listener_turn event l).2.
Proof.
  unfold listener_wf, listener_turn, spawn_connection, set_tasks.
  destruct event as [|[[]|[]]| |]; simpl; try case_bool_decide; simpl; lia.
Qed.

(** * One connection, as a specification *)

(** A stream that has not failed. *)
Definition reader_ok (self : IncomingFrameReader) : Prop :=
  FrameDecoder_wf (fr_decoder self) ∧ fd_failed (fr_decoder self) = false.

(** Why the protocol of an authenticated client refuses a frame. *)
Definition refusal (frame : LocalIpcClientFrame) : option ProtocolError :=
  match validate_common_frame frame with
  | Err e => Some e
  | Ok _ => if is_authenticate frame then Some PE_AlreadyAuthenticated else None
  end.

(** What the Host says of its own accord. *)
Definition is_notice (frame : LocalIpcServerFrame) : Prop :=
  (∃ event, frame = session_terminated_frame event) ∨ ∃ status, frame = host_pairing_state_frame status.

Lemma read_frame_ok `{Message LocalIpcClientFrame} reader d queued r self' :
  read_frame reader d queued = (r, self') → reader_ok (of_queue reader d queued) →
  match r with
  | Some (Ok (Some _)) => reader_ok self'
  | None => reader_ok self' ∧ fr_reader self' = [] ∧ fr_queued self' = []
  | _ => True
  end.
Proof.
  revert d queued. induction reader as [|[[|b c]|e] reader IH]; intros d [|p q] Hr [Hw Hf]; simpl in Hr;
    try (simplify_eq; by repeat case_match); try (unfold decode_local_frame in Hr; simplify_eq; by case_match).
  destruct (push_spec (b :: c) d Hw Hf) as (x & d' & Hp & _ & Hx). rewrite Hp in Hr.
  destruct x as [fs|e]; [|by simplify_eq]. apply (IH d' fs Hr). by destruct Hx as (? & ? & _).
Qed.

Lemma next_frame_ok `{Message LocalIpcClientFrame} self frame self' :
  next_frame self = (Some (Ok (Some frame)), self') → reader_ok self → reader_ok self'.
Proof. intros Hn. destruct self as [reader d queued]. exact (read_frame_ok _ _ _ _ _ Hn). Qed.

(** Asking again after a wait changes nothing. *)
Lemma next_waits `{Message LocalIpcClientFrame} self self' :
  next_frame self = (None, self') → reader_ok self →
  reader_ok self' ∧ ∀ frames last, receives self' frames last → receives self frames last.
Proof.
  intros Hn Ho. destruct self as [reader d queued]. destruct (read_frame_ok _ _ _ _ _ Hn Ho) as (Ho' & Hr & Hq).
  split; [done|]. intros frames last Hrec. destruct self' as [reader' d' queued']. simpl in *. subst.
  inversion Hrec as [? ? ? ? ? Hn' _|? ? Hn']; subst; [done|]. apply receives_last. by rewrite Hn.
Qed.

Section Converses.
Context `{Hmac, Message LocalIpcClientFrame, Message LocalIpcServerFrame}.
Context `{Sha256, Ed25519, X25519, HkdfSha256, Aes256Gcm}.
Context `{Message PairingMessage, Message PairingPlaintext, Message HostAuthorizationSnapshot}.
Context `{UrlParser Url} {G : Type} `{RandomSource G} {W R : Type} `{GrantStore W, RandomSource R}.
Context (debug_build : bool) (requested : option text).
Abbreviation HS := (HostService G W R).

(** The answer to a frame, and what it does to the service. *)
Definition respond (frame : LocalIpcClientFrame) (now : Z) (s : HS) : LocalIpcServerFrame * HS :=
  match refusal frame with
  | Some e => (protocol_error_frame (LocalIpcClientFrame_request_id frame) e, s)
  | None => handle_frame debug_build requested frame now s
  end.

(** A conversation: every frame is answered once, in order, the service changing by the answers
    alone, with notices between them. *)
Inductive converses : list LocalIpcClientFrame → HS * list LocalIpcServerFrame →
    HS * list LocalIpcServerFrame → Prop :=
| converses_nil st : converses [] st st
| converses_request frame now frames s sent st :
    converses frames ((respond frame now s).2, sent ++ [(respond frame now s).1]) st →
    converses (frame :: frames) (s, sent) st
| converses_notice notice frames s sent st :
    is_notice notice → converses frames (s, sent ++ [notice]) st → converses frames (s, sent) st.

(** How a connection leaves the service and the frames sent: after a conversation, or, when it
    failed, after one whose last answer was not sent. *)
Definition leaves (frames : list LocalIpcClientFrame) st (r : result RuntimeError bool)
    (st' : HS * list LocalIpcServerFrame) : Prop :=
  converses frames st st' ∨
  ∃ e before frame now s, r = Err e ∧ frames = before ++ [frame] ∧ converses before st (s, st'.2) ∧
    st'.1 = (respond frame now s).2.

Lemma converses_trans frames frames' st st' st'' :
  converses frames st st' → converses frames' st' st'' → converses (frames ++ frames') st st''.
Proof. induction 1; simpl; eauto using converses. Qed.

Lemma leaves_trans frames frames' st st' r st'' :
  converses frames st st' → leaves frames' st' r st'' → leaves (frames ++ frames') st r st''.
Proof.
  intros Hc [?|(e & before & frame & now & s & -> & -> & ? & ?)]; [left; by eapply converses_trans|].
  right. exists e, (frames ++ before), frame, now, s. split_and!; [done| |by eapply converses_trans|done].
  apply app_assoc.
Qed.

(** ** The loop of a connection *)

Abbreviation Conn := (Connection G W R).
Abbreviation view c := (cn_service c, cn_sent c).

(** Between two turns of an authenticated connection: no request is pending. *)
Definition connection_ok (c : Conn) : Prop :=
  reader_ok (cn_reader c) ∧ sp_authenticated (cn_protocol c) = true ∧
  pending_request_ids (cn_protocol c) = ∅.

(** A connection that has ended as it should. *)
Definition ended_well (c : Conn) (r : result RuntimeError bool) (c' : Conn) : Prop :=
  ∃ frames last, receives (cn_reader c) frames last ∧ leaves frames (view c) r (view c').

Definition turned (c : Conn) (r : result RuntimeError bool) (c' : Conn) : Prop :=
  match r with
  | Ok false => connection_ok c' ∧ ∃ frames, converses frames (view c) (view c') ∧
      ∀ frames' last, receives (cn_reader c') frames' last → receives (cn_reader c) (frames ++ frames') last
  | _ => ended_well c r c'
  end.

Lemma ended_same c r c' : view c' = view c → ended_well c r c'.
Proof. intros Hv. eexists [], _. split; [by apply receives_last|]. left. rewrite Hv. constructor. Qed.

Lemma send_wp {A} frame (k : M Conn RuntimeError A) Q c :
  (∀ sends, Q (Err RT_LocalProtocol) (set_sends sends (cn_sent c) c)) →
  (∀ sends, wp k Q (set_sends sends (cn_sent c ++ [frame]) c)) → wp (send_outbound frame;; k) Q c.
Proof.
  intros He Hk. apply wp_bind. unfold wp at 1, send_outbound. destruct (cn_sends c) as [|[|] ?]; [apply Hk..|apply He].
Qed.

Lemma admitted_begin frame p :
  sp_authenticated p = true → pending_request_ids p = ∅ →
  ServerProtocol_begin_request frame p =
  match refusal frame with
  | Some e => (Err e, p)
  | None => (Ok (), set_pending {[LocalIpcClientFrame_request_id frame]} p)
  end.
Proof.
  intros Ha Hp. unfold ServerProtocol_begin_request, refusal. unmonad. rewrite Ha, Hp. simpl.
  destruct (validate_common_frame frame); [|done]. destruct (is_authenticate frame); [done|].
  rewrite bool_decide_eq_false_2 by set_solver. cbn. do 2 f_equal. apply (right_id_L ∅ (∪)).
Qed.

Lemma notice_turn notice c :
  is_notice notice → connection_ok c → wp (send_outbound notice;; mret false) (turned c) c.
Proof.
  intros Hn Hc. apply send_wp; intros sends; [by apply ended_same|]. apply wp_ret. split; [done|].
  exists []. split; [|done]. eapply converses_notice; [done|]. constructor.
Qed.

Lemma completed_ok id c reader sends sent service :
  reader_ok reader → connection_ok c →
  connection_ok (set_sends sends sent (set_protocol
    (ServerProtocol_complete_request id (set_pending {[id]} (cn_protocol c)))
    (set_cn_service service (set_reader reader c)))).
Proof.
  intros Hr (_ & Ha & Hp). split_and!; [done..|]. simpl. apply difference_diag_L.
Qed.

(** The turn of a frame. *)
Lemma refused_turn frame e c reader :
  refusal frame = Some e → next_frame (cn_reader c) = (Some (Ok (Some frame)), reader) → reader_ok reader →
  connection_ok c →
  wp (send_outbound (protocol_error_frame (LocalIpcClientFrame_request_id frame) e);; mret false)
     (turned c) (set_reader reader c).
Proof.
  intros Hf Hn Hr Hc. apply send_wp; intros sends.
  - exists [frame]. eexists. split; [eapply receives_frame; [done|by apply receives_last]|].
    right. eexists _, [], frame, 0, (cn_service c). split_and!; [done..|constructor|].
    unfold respond. by rewrite Hf.
  - apply wp_ret. split; [by destruct Hc|]. exists [frame]. split; [|intros; by eapply receives_frame].
    apply converses_request with 0. unfold respond. rewrite Hf. constructor.
Qed.

Lemma accepted_turn frame clock timely c reader :
  refusal frame = None → next_frame (cn_reader c) = (Some (Ok (Some frame)), reader) → reader_ok reader →
  connection_ok c →
  wp (response ← run_request debug_build requested frame clock timely;
      modify (λ c, set_protocol (ServerProtocol_complete_request
        (LocalIpcClientFrame_request_id frame) (cn_protocol c)) c);;
      send_outbound response;; mret false)
     (turned c)
     (set_protocol (set_pending {[LocalIpcClientFrame_request_id frame]} (cn_protocol c)) (set_reader reader c)).
Proof.
  intros Hf Hn Hr Hc.
  assert (∀ now e c', view c' = ((handle_frame debug_build requested frame now (cn_service c)).2, cn_sent c) →
            turned c (Err e) c') as Hlate.
  { intros now e c' Hv. exists [frame]. eexists. split; [eapply receives_frame; [done|by apply receives_last]|].
    right. exists e, [], frame, now, (cn_service c). injection Hv as -> ->.
    split_and!; [done..|constructor|]. unfold respond. by rewrite Hf. }
  apply wp_bind. unfold wp at 1, run_request, clock_reading. destruct clock as [now|]; [|by apply ended_same].
  cbn [cn_service set_protocol set_reader].
  pose proof (Hlate now) as Hl. destruct (handle_frame _ _ _ now (cn_service c)) as [response service] eqn:Hh.
  destruct timely; [|by apply Hl]. cbn [fst snd]. apply wp_modify, send_wp; intros sends; [by apply Hl|].
  apply wp_ret. split; [by apply (completed_ok _ c reader)|].
  exists [frame]. split; [|intros; by eapply receives_frame].
  apply converses_request with now. unfold respond. rewrite Hf, Hh. constructor.
Qed.

Lemma turn_wp turn c :
  connection_ok c → wp (connection_turn debug_build requested turn) (turned c) c.
Proof.
  intros Hc. pose proof Hc as (Hr & Ha & Hp).
  destruct turn as [[]|clock timely|[event| |]|[status| |]]; cbn [connection_turn];
    try (apply wp_ret; by apply ended_same);
    try (apply wp_ret; split; [done|]; exists []; split; [constructor|done]).
  2,3: apply notice_turn; [|done]; unfold is_notice; eauto.
  apply wp_bind. unfold wp at 1, await_frame. destruct (next_frame (cn_reader c)) as [ready reader] eqn:Hn.
  cbn [fst snd]. destruct ready as [[[frame|]|e]|].
  - apply wp_bind. unfold wp at 1. cbn [lift fst snd].
    pose proof (next_frame_ok _ _ _ Hn Hr) as Hro.
    apply wp_bind, wp_try. unfold wp at 1, on_server_protocol, zoom.
    rewrite admitted_begin by done. destruct (refusal frame) as [e|] eqn:Hf; cbn [fst snd].
    + apply (refused_turn frame e c reader); done.
    + by apply (accepted_turn frame clock timely c reader).
  - by apply ended_same.
  - by apply ended_same.
  - apply wp_ret. destruct (next_waits _ _ Hn Hr) as [Hro Hw]. split; [done|].
    exists []. split; [constructor|]. exact Hw.
Qed.

Lemma loop_wp turns c :
  connection_ok c → wp (connection_loop debug_build requested turns) (ended_well c) c.
Proof.
  revert c. induction turns as [|turn turns IH]; intros c Hc; cbn [connection_loop].
  { apply wp_ret. by apply ended_same. }
  apply wp_bind. eapply wp_mono; [by apply turn_wp|]. intros [[]|e] c' Ht; [done| |done].
  destruct Ht as (Hc' & frames & Hv & Hr). eapply wp_mono; [by apply IH|].
  intros r c'' (frames' & last & Hr' & Hl). exists (frames ++ frames'), last.
  split; [by apply Hr|by eapply leaves_trans].
Qed.

(** A connection before anything of it reached the service: nothing was sent, or the challenge,
    or the challenge and the refusal of the first frame. *)
Definition not_admitted (challenge : LocalIpcServerFrame) (sent : list LocalIpcServerFrame) : Prop :=
  sent = [] ∨ sent = [challenge] ∨ ∃ id e, sent = [challenge; protocol_error_frame id e].

(** The first frame of a client that holds the token. *)
Definition authenticates (token instance_id server_nonce : bytes) (frame : LocalIpcClientFrame)
    (a : LocalIpcAuthenticate) : Prop :=
  validate_common_frame frame = Ok () ∧
  LocalIpcClientFrame_payload frame = Some (LocalIpcClientFrame_Payload_Authenticate a) ∧
  len (LocalIpcAuthenticate_client_nonce a) = NONCE_BYTES ∧
  LocalIpcAuthenticate_client_proof a =
    client_proof token instance_id server_nonce (LocalIpcAuthenticate_client_nonce a).

(** The two frames of the handshake. *)
Definition admission (token instance_id server_nonce : bytes) (frame : LocalIpcClientFrame)
    (a : LocalIpcAuthenticate) : list LocalIpcServerFrame :=
  [local_challenge_frame {| LocalIpcChallenge_agent_instance_id := instance_id;
                      LocalIpcChallenge_server_nonce := server_nonce |};
   local_authenticated_frame (LocalIpcClientFrame_request_id frame)
     {| LocalIpcAuthenticated_server_proof :=
          server_proof token instance_id server_nonce (LocalIpcAuthenticate_client_nonce a) |}].

Definition session_outcome (token instance_id server_nonce : bytes) (c : Conn)
    (r : result RuntimeError bool) (c' : Conn) : Prop :=
  (cn_service c' = cn_service c ∧
   not_admitted (local_challenge_frame {| LocalIpcChallenge_agent_instance_id := instance_id;
                                    LocalIpcChallenge_server_nonce := server_nonce |}) (cn_sent c')) ∨
  ∃ first a frames last, authenticates token instance_id server_nonce first a ∧
    receives (cn_reader c) (first :: frames) last ∧
    leaves frames (cn_service c, admission token instance_id server_nonce first a) r (view c').

Lemma unadmitted token instance_id nonce c r c' challenge :
  challenge = local_challenge_frame {| LocalIpcChallenge_agent_instance_id := instance_id;
                                 LocalIpcChallenge_server_nonce := nonce |} →
  cn_service c' = cn_service c → not_admitted challenge (cn_sent c') →
  session_outcome token instance_id nonce c r c'.
Proof. intros ->. by left. Qed.

Lemma session_wp `{!HmacLaws} token instance_id nonce timely turns c :
  reader_ok (cn_reader c) → cn_sent c = [] →
  wp (connection_session debug_build requested token instance_id (Ok nonce) timely turns)
     (session_outcome token instance_id nonce c) c.
Proof.
  intros Hr Hs. unfold connection_session. apply wp_bind. unfold wp at 1. cbn [lift map_err fst snd].
  apply wp_modify, wp_get, send_wp; intros sends.
  { eapply unadmitted; [done..|]. by left. }
  apply wp_bind. unfold wp at 1, await_frame. cbn [cn_reader set_sends set_protocol].
  destruct (next_frame (cn_reader c)) as [ready reader] eqn:Hn. cbn [fst snd].
  assert (∀ r c', cn_service c' = cn_service c → cn_sent c' = cn_sent c ++
    [local_challenge_frame (ServerProtocol_challenge (ServerProtocol_new token instance_id nonce))] →
    session_outcome token instance_id nonce c r c') as Hstop.
  { intros r c' Hv Hsent. eapply unadmitted; [done..|]. right; left. by rewrite Hsent, Hs. }
  apply wp_ok_or; [intros _; by apply Hstop|intros frame Hready]. apply wp_lift; [intros; by apply Hstop|intros o ->].
  apply wp_ok_or; [intros _; by apply Hstop|intros first ->]. destruct timely; [subst ready|done].
  pose proof (next_frame_ok _ _ _ Hn Hr) as Hro.
  apply wp_bind, wp_try. unfold wp at 1, on_server_protocol, zoom. cbn [cn_protocol set_sends set_reader set_protocol].
  destruct (ServerProtocol_authenticate first _) as [authenticated p] eqn:Ha.
  apply authenticate_inv in Ha as [(e & -> & ->)|(a & -> & -> & _ & Hv & Hp & Hl & Hmac)]; cbn [fst snd].
  - apply send_wp; intros sends'; [by apply Hstop|]. apply wp_ret. eapply unadmitted; [done..|].
    right; right. eexists _, _. cbn. by rewrite Hs.
  - apply send_wp; intros sends'; [by apply Hstop|]. eapply wp_mono; [by apply loop_wp|].
    intros r c' (frames & last & Hrec & Hleaves). right. exists first, a, frames, last.
    split_and!; [done|by eapply receives_frame|]. cbn in Hleaves. by rewrite Hs in Hleaves.
Qed.

(** ** A client that is served at once *)

(** The answers to requests that each run at once. *)
Fixpoint answers_to (requests : list (LocalIpcClientFrame * Z)) (st : HS * list LocalIpcServerFrame)
    : HS * list LocalIpcServerFrame :=
  match requests with
  | [] => st
  | (frame, now) :: requests =>
      answers_to requests ((respond frame now st.1).2, st.2 ++ [(respond frame now st.1).1])
  end.

Definition at_once (requests : list (LocalIpcClientFrame * Z)) : list Turn :=
  (λ request, TurnFrame (Some request.2) true) <$> requests.

Lemma answered_turn frame now c reader :
  connection_ok c → cn_sends c = [] → next_frame (cn_reader c) = (Some (Ok (Some frame)), reader) →
  wp (connection_turn debug_build requested (TurnFrame (Some now) true)) (λ r c',
    r = Ok false ∧ connection_ok c' ∧ cn_sends c' = [] ∧ cn_reader c' = reader ∧
    view c' = ((respond frame now (cn_service c)).2, cn_sent c ++ [(respond frame now (cn_service c)).1])) c.
Proof.
  intros (Hr & Ha & Hp) Hs Hn. cbn [connection_turn]. apply wp_bind. unfold wp at 1, await_frame.
  rewrite Hn. cbn [fst snd]. apply wp_lift; [done|intros ? [= <-]].
  apply wp_bind, wp_try. unfold wp at 1, on_server_protocol, zoom.
  pose proof (next_frame_ok _ _ _ Hn Hr) as Hro.
  rewrite admitted_begin by done. unfold respond. destruct (refusal frame) as [e|]; cbn [fst snd].
  - unfold wp, send_outbound. rewrite bind_run. cbn. rewrite Hs. cbn. by split_and!.
  - apply wp_bind. unfold wp at 1, run_request. cbn [clock_reading cn_service set_protocol set_reader].
    destruct (handle_frame _ _ _ _ _) as [response service]. cbn [fst snd]. apply wp_modify.
    unfold wp, send_outbound. rewrite bind_run. cbn. rewrite Hs. cbn. split_and!; try done.
    split_and!; [done..|]. apply difference_diag_L.
Qed.

Lemma answered_loop requests c last :
  connection_ok c → cn_sends c = [] → receives (cn_reader c) (requests.*1) last →
  wp (connection_loop debug_build requested (at_once requests))
     (λ r c', r = Ok false ∧ view c' = answers_to requests (view c)) c.
Proof.
  revert c. induction requests as [|[frame now] requests IH]; intros c Hc Hs Hr.
  { by apply wp_ret. }
  change (at_once ((frame, now) :: requests)) with (TurnFrame (Some now) true :: at_once requests).
  cbn [connection_loop]. inversion Hr as [? reader ? ? ? Hn Hr'|]; subst. apply wp_bind.
  eapply wp_mono; [by eapply answered_turn|]. intros r c' (-> & Hc' & Hs' & <- & Hv). cbn [fst snd].
  eapply wp_mono; [by apply IH|]. intros r c'' [-> Hv']. by rewrite Hv', Hv.
Qed.

Lemma admitted_wp `{!HmacLaws} token instance_id nonce c first a requests last :
  authenticates token instance_id nonce first a → reader_ok (cn_reader c) → cn_sent c = [] → cn_sends c = [] →
  receives (cn_reader c) (first :: requests.*1) last →
  wp (connection_session debug_build requested token instance_id (Ok nonce) true (at_once requests))
     (λ r c', r = Ok false ∧
        view c' = answers_to requests (cn_service c, admission token instance_id nonce first a)) c.
Proof.
  intros (Hv & Hp & Hl & Hmac) Hr Hs Hse Hrec. inversion Hrec as [? reader ? ? ? Hn Hr'|]; subst.
  pose proof (next_frame_ok _ _ _ Hn Hr) as Hro.
  unfold connection_session. apply wp_bind. unfold wp at 1. cbn [lift map_err fst snd]. apply wp_modify, wp_get.
  apply wp_bind. unfold wp at 1, send_outbound. cbn [cn_sends set_protocol]. rewrite Hse. cbn [fst snd].
  apply wp_bind. unfold wp at 1, await_frame. cbn [cn_reader set_sends set_protocol]. rewrite Hn. cbn [fst snd].
  apply wp_ok_or; [done|intros ? [= <-]]. apply wp_lift; [done|intros ? [= <-]].
  apply wp_ok_or; [done|intros ? [= <-]]. apply wp_bind, wp_try. unfold wp at 1, on_server_protocol, zoom.
  rewrite (authenticate_run _ _ a) by done. cbn [fst snd].
  apply wp_bind. unfold wp at 1, send_outbound. cbn [cn_sends set_protocol set_reader set_sends drop fst snd].
  eapply wp_mono; [by eapply answered_loop|]. intros r c' [-> Hv']. split; [done|].
  rewrite Hv'. cbn. by rewrite Hs.
Qed.

(** C3. Only a local client that holds the token reaches the service. Whatever a connection sends,
    however its turns interleave and its sends fail, either the service is as it was and at most the
    challenge and one refusal were sent, or the first frame carried the MAC over this
    connection's challenge, and then the connection is a conversation: each frame of the stream
    is answered once, in order, a refused one without touching the service, with only notices
    in between; a connection that fails leaves at most its last answer unsent. *)
Theorem local_sessions_authenticated `{!HmacLaws} (token instance_id nonce : bytes) (timely : bool)
    (turns : list Turn) (reader : list (result unit bytes)) (service : HS) (sends : list bool) :
  let c := accepted_connection reader service sends in
  let '(r, c') := connection_session debug_build requested token instance_id (Ok nonce) timely turns c in
  session_outcome token instance_id nonce c r c'.
Proof.
  intros c. destruct (connection_session _ _ _ _ _ _ _ c) as [r c'] eqn:Hr.
  refine (wp_run _ _ _ _ _ Hr (session_wp token instance_id nonce timely turns c _ eq_refl)).
  split; apply new_decoder_wf.
Qed.

(** C37. A client that authenticates is served: if its first frame carries the MAC, every frame
    runs in time and the writer keeps up, the session stays open, and what was sent is exactly
    the challenge, the Host's own proof, and one answer for each frame in order, each computed on
    the service the answers before it left. *)
Theorem prompt_clients_served `{!HmacLaws} (token instance_id nonce : bytes)
    (reader : list (result unit bytes)) (service : HS) (first : LocalIpcClientFrame)
    (a : LocalIpcAuthenticate) (requests : list (LocalIpcClientFrame * Z))
    (last : option (result RuntimeError (option LocalIpcClientFrame))) :
  authenticates token instance_id nonce first a →
  receives (IncomingFrameReader_new reader) (first :: requests.*1) last →
  let '(r, c) := connection_session debug_build requested token instance_id (Ok nonce) true
                   (at_once requests) (accepted_connection reader service []) in
  r = Ok false ∧
  (cn_service c, cn_sent c) =
    answers_to requests (service, admission token instance_id nonce first a).
Proof.
  intros Ha Hr. destruct (connection_session _ _ _ _ _ _ _ _) as [r c] eqn:Hrun.
  refine (wp_run _ _ _ _ _ Hrun (admitted_wp token instance_id nonce
    (accepted_connection reader service []) first a requests last Ha _ eq_refl eq_refl Hr)).
  split; apply new_decoder_wf.
Qed.
End Converses.

(** * Starting, as a specification *)

Section Started.
Context `{Sha256Laws, Ed25519Laws} {S G W R P : Type}.
Context `{X25519, HkdfSha256, Aes256Gcm, Message PairingMessage, Message PairingPlaintext}.
Context `{SecretStoreLaws S, RandomLaws G, GrantStoreLaws W, AgentPlatform P}.

(** The [unreachable!] of the pairing coordinator is: the identity a Host loads is one the
    coordinator accepts. *)
Lemma host_coordinator key (name : text) (platform : DevicePlatform) self (random : G) :
  created key name platform self → validate_identity_metadata name platform = Ok () →
  ∃ c, with_random (hi_device_identity self) random = Ok c.
Proof.
  intros Hc Hm. pose proof (created_valid _ _ _ _ Hc Hm) as Hv. destruct Hc as (_ & _ & _ & Hname & Hplat).
  unfold validate_controller in Hv. apply res_seq in Hv as [Hid%res_map_err_iff Hv].
  apply res_ok_or in Hv as (public & Hpub & [_ Hv]%res_seq).
  apply result_bind_Ok in Hv as (derived & Hd%res_map_err_iff & Hv%res_fail_if).
  unfold validate_identity_metadata in Hm. apply res_seq in Hm as [Hn%res_fail_if Hp%res_fail_if]. boolsimpl.
  unfold with_random. eexists. apply res_seq. split; [by rewrite Hid|].
  apply res_ok_or. exists public. split; [done|].
  apply res_seq. split; [apply res_fail_if, bool_decide_eq_false_2; congruence|].
  apply result_bind_Ok. exists derived. split; [by rewrite Hd|].
  apply res_seq. split; [by apply res_fail_if; rewrite bool_decide_eq_true_2|].
  apply res_ok_or. exists platform. split; [rewrite Hplat; apply try_from_to_i32|].
  apply res_seq. split; [|by apply res_ret]. apply res_fail_if. rewrite bool_decide_eq_true_2; naive_solver.
Qed.

(** What a start leaves: the well-formed service of the protected identity, with the grants of its
    file, no session, and a fresh token and instance. *)
Definition started (name : text) (platform : DevicePlatform) (s s' : Startup S G W P) (h : HostService G W R)
    (token instance_id : bytes) : Prop :=
  service_wf h ∧ sr_sessions (hs_sessions h) = ∅ ∧ hs_instance_id h = instance_id ∧
  len token = IPC_TOKEN_BYTES ∧ len instance_id = INSTANCE_ID_BYTES ∧
  created (hi_signing_key (hs_identity h)) name platform (hs_identity h) ∧
  secret_of (su_secrets s') = Some (hi_signing_key (hs_identity h)) ∧
  (∀ seed, secret_of (su_secrets s) = Some seed → hi_signing_key (hs_identity h) = seed) ∧
  ∃ gs, stored (su_grants s') (own_id (hs_identity h)) = Some gs ∧
    stored (su_grants s) (own_id (hs_identity h)) = Some gs ∧
    load_each (own_id (hs_identity h)) gs ∅ ∅ = Ok (ar_grants_by_controller (rs_registry (hs_authorization h))).

(** The failures of a start. *)
Definition start_failure (e : RuntimeError) : bool :=
  bool_decide (e ∈ [RT_PrivatePaths; RT_ProtectedIdentity; RT_AuthorizationData; RT_RandomGeneration;
                    RT_SystemClock; RT_AlreadyRunning; RT_UnsupportedPlatform; RT_LocalTransport]).

Definition start_outcome (name : text) (platform : DevicePlatform) (s : Startup S G W P)
    (r : result RuntimeError (option (HostService G W R) * bytes * bytes)) (s' : Startup S G W P) : Prop :=
  match r with
  | Ok (service, token, instance_id) => ∃ h, service = Some h ∧ started name platform s s' h token instance_id
  | Err e => start_failure e = true
  end.

(** A call on one part, whose errors are mapped. *)
Lemma wp_part {St E T E' A B} (f : E' → E) (proj : St → T) (upd : T → St → St) (m : M T E' A)
    (k : A → M St E B) Q s :
  (∀ r t, m (proj s) = (r, t) →
     match r with Ok a => wp (k a) Q (upd t s) | Err e => Q (Err (f e)) (upd t s) end) →
  wp (map_err_m f (zoom proj upd m) ≫= k) Q s.
Proof.
  intros Hk. apply wp_bind, wp_map_err, wp_zoom. unfold wp at 1.
  destruct (m (proj s)) as [r t]. specialize (Hk r t eq_refl). by destruct r.
Qed.

Lemma start_wp (name : text) (platform : DevicePlatform) pairing registry s :
  wp (start_with_store name platform pairing registry) (start_outcome name platform s) s.
Proof.
  unfold start_with_store, secure_random.
  apply wp_part. intros [[]|e] p1 _; [|done].
  apply wp_part. intros [identity|e] [sec1 g1] Hl; [|done].
  apply load_or_create_spec in Hl as (Hm & Hsec & Hsame & _ & Hc).
  apply wp_part. intros [reg|e] w1 Hreg; [|done].
  apply load_spec in Hreg as (Hkeep & Hhost & Hw & gs & Hgs & _ & Heach).
  apply wp_part. intros [instance_id|e] g2 Hid; [|done]. apply random_len in Hid; [|done].
  apply wp_part. intros [token|e] g3 Htok; [|done]. apply random_len in Htok; [|done].
  apply wp_part. intros [started_at|e] p2 _; [|done].
  apply wp_part. intros [[]|e] p3 _; [|by destruct e].
  apply wp_get, wp_ret. cbn [start_outcome su_grants set_platform set_random set_grants].
  destruct (host_coordinator _ _ _ identity pairing Hc Hm) as [c Hnew].
  unfold HostService_new, from_validated_host. rewrite Hnew. eexists. split; [done|].
  pose proof (proj1 (proj2 Hc)) as Hkey. split_and!; cbn; try done; [|exists gs; exact (conj (eq_trans Hkeep Hgs) (conj Hgs Heach))].
  apply (service_new_wf identity {| rs_registry := reg; rs_store := w1; rs_random := registry |} pairing
    instance_id started_at); [|done..]. unfold HostService_new, from_validated_host. by rewrite Hnew.
Qed.

End Started.

(** * A concrete agent *)

Module Example.
#[local] Existing Instances Pairing.Example.digest Pairing.Example.curve Pairing.Example.expand
  Pairing.Example.cipher Pairing.Example.snapshots Pairing.Example.parser Pairing.Example.messages
  Pairing.Example.plaintexts toy_hmac toy_hmac_laws Service.Example.digest_laws
  Service.Example.signature_laws.

(** Two client frames, of one byte each. *)
Definition status_request : LocalIpcClientFrame :=
  example_frame (lit "s") (LocalIpcClientFrame_Payload_GetHostStatus Build_GetHostStatusRequest).

#[local] Instance client_frames : Message LocalIpcClientFrame := {
  encode_to_vec f := if is_authenticate f then [x01] else [x02];
  decode b := match b with
    | [x01] => Some example_authenticate | [x02] => Some status_request | _ => None end
}.

#[local] Instance server_frames : Message LocalIpcServerFrame := {
  encode_to_vec f := as_bytes (LocalIpcServerFrame_request_id f); decode _ := None
}.

(** Their stream, cut inside the first length and inside the second. *)
Definition reads : list bytes :=
  [[x00; x00]; [x00; x01; x01; x00; x00; x00]; [x01; x02]].

Lemma reads_decode : decodes MAX_LOCAL_IPC_FRAME_BYTES (concat reads) [[x01]; [x02]] (Ok []).
Proof.
  apply (encodes_decodes [[x01]; [x02]] [[x00; x00; x00; x01; x01]; [x00; x00; x00; x01; x02]]).
  repeat constructor.
Qed.

Lemma requests_read_exactly_witness :
  receives (IncomingFrameReader_new ((Ok <$> reads) ++ [Ok []])) [example_authenticate; status_request]
    (Some (stream_end [])).
Proof.
  apply (requests_read_exactly reads [[x01]; [x02]]); [repeat constructor; discriminate|apply reads_decode|].
  repeat constructor.
Defined.

Definition stream : list (result unit bytes) := (Ok <$> reads) ++ [Ok []].

(** The client is admitted, asks for the status, and a notice comes before the end. *)
Abbreviation session := (connection_session false None example_token example_instance (Ok (example_nonce 1)) true
  [TurnFrame (Some 2000) true; TurnPairing (Delivered (host_pairing_status Service.Example.service));
   TurnFrame (Some 2001) true] (accepted_connection stream Service.Example.service [])).

Lemma session_runs : is_ok session.1 = true ∧ length (cn_sent session.2) = 4%nat.
Proof. vm_compute. done. Qed.

Lemma local_sessions_authenticated_witness :
  is_ok session.1 = true ∧
  session_outcome false None example_token example_instance (example_nonce 1)
    (accepted_connection stream Service.Example.service []) session.1 session.2.
Proof.
  split; [exact (proj1 session_runs)|].
  pose proof (local_sessions_authenticated false None example_token example_instance (example_nonce 1) true
    [TurnFrame (Some 2000) true; TurnPairing (Delivered (host_pairing_status Service.Example.service));
     TurnFrame (Some 2001) true] stream Service.Example.service []) as Ho.
  cbv zeta in Ho. destruct session as [r c]. exact Ho.
Defined.

Definition client_proof_of : LocalIpcAuthenticate :=
  {| LocalIpcAuthenticate_client_nonce := example_nonce 2;
     LocalIpcAuthenticate_client_proof :=
       client_proof example_token example_instance (example_nonce 1) (example_nonce 2) |}.

Abbreviation served := (connection_session false None example_token example_instance (Ok (example_nonce 1)) true
  (at_once [(status_request, 2000)]) (accepted_connection stream Service.Example.service [])).

Lemma stream_received :
  receives (IncomingFrameReader_new stream) (example_authenticate :: [(status_request, 2000)].*1)
    (Some (stream_end [])).
Proof.
  apply (receives_stream reads FrameDecoder_new [[x01]; [x02]] [] [example_authenticate; status_request]);
    [apply new_decoder_wf|done|repeat constructor; discriminate|apply reads_decode|repeat constructor].
Qed.

Lemma prompt_clients_served_witness :
  served.1 = Ok false ∧
  (cn_service served.2, cn_sent served.2) =
    answers_to false None [(status_request, 2000)]
      (Service.Example.service,
       admission example_token example_instance (example_nonce 1) example_authenticate client_proof_of).
Proof.
  pose proof (prompt_clients_served false None example_token example_instance (example_nonce 1) stream
    Service.Example.service example_authenticate client_proof_of [(status_request, 2000)] _
    (conj eq_refl (conj eq_refl (conj eq_refl eq_refl))) stream_received) as Hs.
  destruct served as [r c]. exact Hs.
Defined.

(** A platform whose parts all work. *)
#[local] Instance working_platform : AgentPlatform Z := {
  prepare_paths := mret (); clock_unix_ms := λ now, (Ok now, now); bind_listener _ _ := mret ()
}.

Definition machine : Startup MemorySecretStore Z MemoryGrantStore Z :=
  {| su_secrets := Some (be_bytes 32 5); su_random := 7; su_grants := MemoryGrantStore_new; su_platform := 1000 |}.

Abbreviation start := (start_with_store (lit "desk") DevicePlatform_Macos 3 4 machine).

Lemma start_runs : is_ok start.1 = true.
Proof. vm_compute. reflexivity. Qed.

End Example.
