(* ===== verification/RemoteRuntime.v ===== *)
(** The runtime of the remote sessions, crates/host-agent/src/remote_runtime.rs, over the
    transport crates/host-agent/src/signaling/transport.rs: the configuration of the ICE servers,
    the pace of reconnecting, one registered connection to the signaling service, and the loop
    that connects again until the Host stops.

    As in LocalRuntime.v an async task is the list of what its [select!] took.  The coordinator
    and the service are shared: between two turns a request of the local interface may change
    the service ([Elsewhere]).  A WebSocket is the messages it will still deliver and which of its
    sends succeed. *)
From S2P Require Import Prelude Limits Proxy Helper Client Messages Validation Crypto Containers Transcript GrantStore Authorization SessionAuth Identity PairingCrypto Signaling Pairing Sessions Service Webrtc PeerSession RemoteSession Coordinator Engine LocalRuntime.

Local Open Scope Z_scope.

(** * Configuration *)

Definition MAX_ICE_SERVERS : Z := 8.
Definition MAX_ICE_URLS_PER_SERVER : Z := 16.
Definition MAX_ICE_URL_UTF8_BYTES : Z := 2048.
Definition MAX_ICE_CREDENTIAL_UTF8_BYTES : Z := 256.
Definition SIGNALING_RECONNECT_BASE_MS : Z := 2000.
Definition SIGNALING_RECONNECT_MAX_MS : Z := 30000.

(** The rest of what the code asks of a [url::Url]. *)
Class IceUrl (Url : Type) `{UrlParser Url} := {
  url_path : Url → text;
  url_fragment : Url → option text
}.

(** [char::is_whitespace]: the Unicode property White_Space. *)
Definition is_whitespace (c : Z) : bool :=
  (9 <=? c) && (c <=? 13) || (8192 <=? c) && (c <=? 8202)
  || bool_decide (c ∈ [32; 133; 160; 5760; 8232; 8233; 8239; 8287; 12288]).

(** [str::trim]. *)
Fixpoint trim_start (value : text) : text :=
  match value with
  | c :: rest => if is_whitespace c then trim_start rest else value
  | [] => []
  end.

Definition trim (value : text) : text := reverse (trim_start (reverse (trim_start value))).

(** [value.split(',')]. *)
Fixpoint split_commas (value current : text) : list text :=
  match value with
  | [] => [reverse current]
  | c :: value => if c =? 44 then reverse current :: split_commas value []
                  else split_commas value (c :: current)
  end.

Definition split_ice_urls (value : text) : list text := trim <$> split_commas value [].

Record RemoteIceServerConfig := { ri_urls : list text; ri_username : text; ri_password : text }.

Record RemoteRuntimeConfig := {
  rc_endpoint : text;
  rc_ice_transport_policy : IceTransportPolicy;
  rc_ice_servers : list RemoteIceServerConfig
}.

(** What [env::var] finds. *)
Inductive EnvVar := Present (value : text) | NotPresent | NotUnicode.

Record RemoteEnv := {
  env_endpoint : EnvVar;
  env_policy : EnvVar;
  env_stun_urls : EnvVar;
  env_turn_urls : EnvVar;
  env_turn_username : EnvVar;
  env_turn_password : EnvVar
}.

Definition optional_unicode_env (name : EnvVar) : result RuntimeError (option text) :=
  match name with
  | Present value => Ok (Some value)
  | NotPresent => Ok None
  | NotUnicode => Err RT_Environment
  end.

Section Configuration.
Context `{IceUrl Url} (debug_build : bool) (requested : option text).

Definition valid_ice_url (value : text) (schemes : list text) : bool :=
  if bool_decide (value = []) || (MAX_ICE_URL_UTF8_BYTES <? text_len value) ||
     bool_decide (64 ∈ value) || existsb is_whitespace value then false else
  match url_parse value with
  | None => false
  | Some parsed => bool_decide (url_scheme parsed ∈ schemes) &&
      negb (bool_decide (url_path parsed = [])) && negb (is_some (url_fragment parsed))
  end.

Definition valid_turn_url (value : text) : bool := valid_ice_url value [lit "turn"; lit "turns"].

Definition valid_stun_url (value : text) : bool := valid_ice_url value [lit "stun"; lit "stuns"].

Definition RemoteIceServerConfig_new (urls : list text) (username password : text)
    : result RuntimeError RemoteIceServerConfig :=
  let all_stun := forallb valid_stun_url urls in
  let all_turn := forallb valid_turn_url urls in
  let valid_credentials :=
    if all_stun then bool_decide (username = []) && bool_decide (password = [])
    else if all_turn then negb (bool_decide (username = [])) && negb (bool_decide (password = []))
    else false in
  fail_if (bool_decide (urls = []) || (MAX_ICE_URLS_PER_SERVER <? len urls) ||
           (MAX_ICE_CREDENTIAL_UTF8_BYTES <? text_len username) ||
           (MAX_ICE_CREDENTIAL_UTF8_BYTES <? text_len password) || negb valid_credentials)
          RT_RemoteConfiguration;;
  mret {| ri_urls := urls; ri_username := username; ri_password := password |}.

Definition provides_turn (self : RemoteIceServerConfig) : bool := forallb valid_turn_url (ri_urls self).

Definition RemoteRuntimeConfig_new (endpoint : text) (policy : IceTransportPolicy)
    (ice_servers : list RemoteIceServerConfig) : result RuntimeError RemoteRuntimeConfig :=
  map_err (λ _, RT_RemoteConfiguration) (validate_signaling_endpoint debug_build requested endpoint);;
  fail_if ((MAX_ICE_SERVERS <? len ice_servers) ||
           bool_decide (policy = ITP_Relay) && negb (existsb provides_turn ice_servers))
          RT_RemoteConfiguration;;
  mret {| rc_endpoint := endpoint; rc_ice_transport_policy := policy; rc_ice_servers := ice_servers |}.

Definition env_policy_of (policy : option text) : result RuntimeError IceTransportPolicy :=
  let policy := default (lit "all") policy in
  if bool_decide (policy = lit "all") then Ok ITP_All
  else if bool_decide (policy = lit "relay") then Ok ITP_Relay
  else Err RT_RemoteConfiguration.

Definition env_stun_server (stun_urls : option text)
    : result RuntimeError (list RemoteIceServerConfig) :=
  match stun_urls with
  | None => Ok []
  | Some value =>
      server ← RemoteIceServerConfig_new (split_ice_urls value) [] [];
      mret [server]
  end.

Definition env_turn_server (turn_urls turn_username turn_password : option text)
    : result RuntimeError (list RemoteIceServerConfig) :=
  match turn_urls with
  | Some value =>
      username ← ok_or turn_username RT_RemoteConfiguration;
      password ← ok_or turn_password RT_RemoteConfiguration;
      server ← RemoteIceServerConfig_new (split_ice_urls value) username password;
      mret [server]
  | None =>
      fail_if (is_some turn_username || is_some turn_password) RT_RemoteConfiguration;;
      mret []
  end.

(** The remote part of the configuration; [None]: none is set. *)
Definition with_remote_config_from_env (env : RemoteEnv)
    : result RuntimeError (option RemoteRuntimeConfig) :=
  endpoint ← optional_unicode_env (env_endpoint env);
  policy ← optional_unicode_env (env_policy env);
  stun_urls ← optional_unicode_env (env_stun_urls env);
  turn_urls ← optional_unicode_env (env_turn_urls env);
  turn_username ← optional_unicode_env (env_turn_username env);
  turn_password ← optional_unicode_env (env_turn_password env);
  match endpoint with
  | None =>
      fail_if (is_some policy || is_some stun_urls || is_some turn_urls || is_some turn_username ||
               is_some turn_password) RT_RemoteConfiguration;;
      mret None
  | Some endpoint =>
      fail_if (bool_decide (endpoint = [])) RT_RemoteConfiguration;;
      ice_transport_policy ← env_policy_of policy;
      stun ← env_stun_server stun_urls;
      turn ← env_turn_server turn_urls turn_username turn_password;
      config ← RemoteRuntimeConfig_new endpoint ice_transport_policy (stun ++ turn);
      mret (Some config)
  end.
End Configuration.

Record PrivilegedBridgeRuntimeConfig := {
  pb_endpoint : text;
  pb_token : bytes;
  pb_executable_sha256 : bytes;
  pb_os_session_id : Z
}.

(** [PrivilegedBridgeRuntimeConfig::new]; [is_absolute] tells it of the endpoint. *)
Definition PrivilegedBridgeRuntimeConfig_new (is_absolute : text → bool) (endpoint : text)
    (token executable_sha256 : bytes) (os_session_id : Z)
    : result RuntimeError PrivilegedBridgeRuntimeConfig :=
  fail_if (negb (is_absolute endpoint) || bool_decide (token = replicate 32 x00) ||
           bool_decide (executable_sha256 = replicate 32 x00) || (os_session_id =? 0))
          RT_RemoteConfiguration;;
  mret {| pb_endpoint := endpoint; pb_token := token; pb_executable_sha256 := executable_sha256;
          pb_os_session_id := os_session_id |}.

Definition map_bridge_probe_error (error : ProxyError) : RuntimeError :=
  match error with
  | PE_HelperUnavailable => RT_ProtectedSessionAgentUnavailable
  | _ => RT_PrivilegedBridgeUnavailable
  end.

(** The options [prepare_bridge_remote] gives the bridge. *)
Fixpoint bridge_ice_servers (servers : list RemoteIceServerConfig)
    : result RuntimeError (list BridgeIceServer) :=
  match servers with
  | [] => Ok []
  | server :: servers =>
      server ← map_err (λ _, RT_RemoteConfiguration)
        (BridgeIceServer_new (ri_urls server) (ri_username server) (ri_password server));
      servers ← bridge_ice_servers servers;
      mret (server :: servers)
  end.

Definition bridge_options (config : RemoteRuntimeConfig) : result RuntimeError BridgePeerOptions :=
  ice_servers ← bridge_ice_servers (rc_ice_servers config);
  map_err (λ _, RT_RemoteConfiguration) (BridgePeerOptions_new ice_servers).

(** * The pace of reconnecting *)

Record SignalingBackoff := { sb_failures : Z }.

Definition SignalingBackoff_default : SignalingBackoff := {| sb_failures := 0 |}.

(** The longest delay the failures so far allow. *)
Definition backoff_maximum (failures : Z) (retained_session : bool) : Z :=
  let limit := if retained_session then SIGNALING_RECONNECT_BASE_MS else SIGNALING_RECONNECT_MAX_MS in
  Z.min (Z.min (SIGNALING_RECONNECT_BASE_MS * Z.shiftl 1 (Z.min failures 4)) U64_MAX) limit.

Definition delay_with_sample (sample : Z) (retained_session : bool) (self : SignalingBackoff)
    : Z * SignalingBackoff :=
  let maximum := backoff_maximum (sb_failures self) retained_session in
  let minimum := maximum / 2 in
  (minimum + sample mod (maximum - minimum + 1),
   {| sb_failures := saturating_add U32_MAX (sb_failures self) 1 |}).

(** [next_delay]; [random] is what the system gives for eight bytes. *)
Definition next_delay (random : result unit bytes) (retained_session : bool)
    : M SignalingBackoff RuntimeError Z := λ self,
  match random with
  | Err _ => (Err RT_RandomGeneration, self)
  | Ok bytes =>
      let '(delay, self) := delay_with_sample (be_val (reverse bytes)) retained_session self in
      (Ok delay, self)
  end.

Definition backoff_reset (_ : SignalingBackoff) : SignalingBackoff := {| sb_failures := 0 |}.

(** * The transport *)

Definition SIGNALING_WEBSOCKET_SUBPROTOCOL : string := "roammand-signaling.v1.protobuf".
Definition LEGACY_SIGNALING_WEBSOCKET_SUBPROTOCOL : string := "personal-remote-signaling.v1.protobuf".

Inductive WebSocketMessage :=
| WM_Binary (encoded : bytes) | WM_Text | WM_Ping (payload : bytes) | WM_Pong | WM_Close | WM_Frame.

(** What [socket.next()] answers. *)
Inductive WebSocketRead := WR_End | WR_Capacity | WR_Error | WR_Message (message : WebSocketMessage).

(** The reads and the results of the sends that are left (none left: a read waits, a send
    succeeds), and the frames sent. *)
Record WebSocketSignalingTransport := {
  ws_reads : list WebSocketRead;
  ws_sends : list bool;
  ws_sent : list SignalingClientFrame
}.

Abbreviation WS A := (M WebSocketSignalingTransport SignalingClientError A).

Definition set_reads (reads : list WebSocketRead) (t : WebSocketSignalingTransport)
    : WebSocketSignalingTransport :=
  {| ws_reads := reads; ws_sends := ws_sends t; ws_sent := ws_sent t |}.

Definition add_sent (frame : SignalingClientFrame) (t : WebSocketSignalingTransport)
    : WebSocketSignalingTransport :=
  {| ws_reads := ws_reads t; ws_sends := ws_sends t; ws_sent := ws_sent t ++ [frame] |}.

(** [socket.send] within its timeout. *)
Definition socket_send : WS unit := λ t,
  (if default true (head (ws_sends t)) then Ok () else Err SC_Transport,
   {| ws_reads := ws_reads t; ws_sends := tail (ws_sends t); ws_sent := ws_sent t |}).

Definition websocket_send `{Message SignalingClientFrame} (frame : SignalingClientFrame) : WS unit :=
  fail_if (MAX_SIGNALING_SERVICE_FRAME_BYTES <? len (encode_to_vec frame)) SC_FrameTooLarge;;
  socket_send;;
  modify (add_sent frame).

(** [receive_binary]; [None]: it waits. *)
Fixpoint receive_each (reads : list WebSocketRead) : WS (option bytes) :=
  match reads with
  | [] => mret None
  | read :: reads =>
      modify (set_reads reads);;
      match read with
      | WR_End => mthrow SC_Closed
      | WR_Capacity => mthrow SC_FrameTooLarge
      | WR_Error => mthrow SC_Transport
      | WR_Message message =>
          match message with
          | WM_Binary encoded =>
              fail_if (MAX_SIGNALING_SERVICE_FRAME_BYTES <? len encoded) SC_FrameTooLarge;;
              mret (Some encoded)
          | WM_Ping _ => socket_send;; receive_each reads
          | WM_Pong => receive_each reads
          | WM_Close => mthrow SC_Closed
          | WM_Text | WM_Frame => mthrow SC_InvalidFrame
          end
      end
  end.

Definition receive_binary : WS (option bytes) := self ← get; receive_each (ws_reads self).

(** [connect]; [handshake] is what the WebSocket crate and the service answer, with the
    subprotocol selected. *)
Definition websocket_connect `{UrlParser Url} (debug_build : bool) (requested : option text)
    (endpoint : text) (handshake : result SignalingClientError (option text * WebSocketSignalingTransport))
    : result SignalingClientError WebSocketSignalingTransport :=
  validate_signaling_endpoint debug_build requested endpoint;;
  '(selected, socket) ← handshake;
  fail_if (negb (bool_decide (selected = Some (lit SIGNALING_WEBSOCKET_SUBPROTOCOL))) &&
           negb (bool_decide (selected = Some (lit LEGACY_SIGNALING_WEBSOCKET_SUBPROTOCOL))))
          SC_SubprotocolRequired;;
  mret socket.

(** * One connection *)

Record RemoteConnection := {
  rn_transport : WebSocketSignalingTransport;
  rn_protocol : SignalingProtocol;
  rn_request_counter : Z;
  rn_generation : Z
}.

Definition remote_request_id (generation counter : Z) : text :=
  lit "host-" ++ decimal generation ++ lit "-" ++ decimal counter.

(** The controller's own failures, which do not end the connection. *)
Definition tolerated (error : RemoteSessionError) : bool :=
  match error with
  | RSE_InvalidEnvelope | RSE_Authentication | RSE_Authorization | RSE_Replay
  | RSE_PendingIceLimit | RSE_DeviceBusy => true
  | _ => false
  end.

(** What one iteration of the [select!] of a registered connection took, with the readings of
    the clock it makes. *)
Inductive RegisteredTurn :=
| RtShutdown (stopped : bool)
| RtReceived (handled flushed : option Z)
| RtHeartbeat
| RtPairing (flushed : option Z)
| RtPeerPoll (elapsed : nat → bool) (now : option Z)
| RtTermination (event : Received SessionTerminatedEvent) (now : option Z)
| RtElsewhere (op : ServiceOp).

(** What one iteration of the [select!] of [await_offline_operation] took. *)
Inductive OfflineTurn :=
| OtShutdown (stopped : bool)
| OtDeadline (now : option Z)
| OtTermination (event : Received SessionTerminatedEvent) (now : option Z)
| OtElsewhere (op : ServiceOp).

Section Connection.
Context `{Sha256, Ed25519, X25519, HkdfSha256, Aes256Gcm}.
Context `{Message PairingMessage, Message PairingPlaintext, Message HostAuthorizationSnapshot}.
Context `{Message ReliableInputEnvelope, Message PointerFastEnvelope, Message SignalingEnvelope}.
Context `{Message SignalingClientFrame, Message SignalingServerFrame}.
Context `{UrlParser Url} {G : Type} `{RandomSource G} {W R : Type} `{GrantStore W, RandomSource R}.
Context (debug_build : bool) (requested : option text).
Context {V : Type} `{PeerBackend V, RemoteInputSink V, RemoteSessionFactory V}.

Abbreviation CO := (RemoteSessionCoordinator G W R V).

(** The connection and what it shares with the rest of the Host. *)
Record Remote := { rm_connection : RemoteConnection; rm_coordinator : CO }.

Abbreviation RM A := (M Remote RuntimeError A).

Definition set_connection (c : RemoteConnection) (m : Remote) : Remote :=
  {| rm_connection := c; rm_coordinator := rm_coordinator m |}.

Definition set_coordinator (s : CO) (m : Remote) : Remote :=
  {| rm_connection := rm_connection m; rm_coordinator := s |}.

Definition set_transport (t : WebSocketSignalingTransport) (m : Remote) : Remote :=
  set_connection {| rn_transport := t; rn_protocol := rn_protocol (rm_connection m);
                    rn_request_counter := rn_request_counter (rm_connection m);
                    rn_generation := rn_generation (rm_connection m) |} m.

Definition set_signaling (p : SignalingProtocol) (m : Remote) : Remote :=
  set_connection {| rn_transport := rn_transport (rm_connection m); rn_protocol := p;
                    rn_request_counter := rn_request_counter (rm_connection m);
                    rn_generation := rn_generation (rm_connection m) |} m.

Definition set_counter (counter : Z) (m : Remote) : Remote :=
  set_connection {| rn_transport := rn_transport (rm_connection m);
                    rn_protocol := rn_protocol (rm_connection m); rn_request_counter := counter;
                    rn_generation := rn_generation (rm_connection m) |} m.

(** A call on a part, whose error ends the connection. *)
Definition failing {E A} (m : M Remote E A) : RM A := map_err_m (λ _, RT_RemoteSession) m.

Definition over_transport {A} (m : WS A) : RM A :=
  failing (zoom (λ m, rn_transport (rm_connection m)) set_transport m).

Definition on_signaling {A} (m : M SignalingProtocol SignalingClientError A) : RM A :=
  failing (zoom (λ m, rn_protocol (rm_connection m)) set_signaling m).

Definition with_coordinator {E A} (m : M CO E A) : M Remote E A := zoom rm_coordinator set_coordinator m.

Definition next_remote_request_id : RM text :=
  modify (λ m, set_counter (saturating_add U64_MAX (rn_request_counter (rm_connection m)) 1) m);;
  self ← get;
  mret (remote_request_id (rn_generation (rm_connection self)) (rn_request_counter (rm_connection self))).

Definition send_remote_outbound (outbound : list RemoteSessionOutbound) : RM unit :=
  for_each outbound (λ outbound,
    request_id ← next_remote_request_id;
    frame ← on_signaling (relay_session (ro_recipient_device_id outbound)
                            (ro_opaque_envelope outbound) request_id);
    over_transport (websocket_send frame)).

(** The frame of one message of the pairing coordinator. *)
Definition pairing_frame (outbound : PairingOutbound) (request_id : text)
    : M SignalingProtocol SignalingClientError SignalingClientFrame :=
  match outbound with
  | PO_Create rendezvous_id kind pairing_code =>
      create_pairing rendezvous_id kind pairing_code request_id
  | PO_Relay rendezvous_id opaque_envelope => relay_pairing rendezvous_id opaque_envelope request_id
  | PO_Complete rendezvous_id completion => complete_pairing rendezvous_id completion request_id
  end.

Definition send_pairing_outbound (outbound : list PairingOutbound) : RM unit :=
  for_each outbound (λ outbound,
    request_id ← next_remote_request_id;
    frame ← on_signaling (pairing_frame outbound request_id);
    over_transport (websocket_send frame)).

Definition flush_pairing (now : option Z) : RM unit :=
  now ← lift (clock_reading now);
  outbound ← failing (with_coordinator (on_service (poll_pairing_outbound now)));
  send_pairing_outbound outbound.

Definition handle_pairing_server_event (event : SignalingEvent) (now_unix_ms : Z)
    : RM (list RemoteSessionOutbound) :=
  try (with_coordinator (on_service (handle_pairing_signaling_event event now_unix_ms)));;
  mret [].

Definition handle_remote_server_frame (encoded : bytes) (now : option Z)
    : RM (list RemoteSessionOutbound) :=
  event ← on_signaling (handle_binary encoded);
  match event with
  | SE_RoutedSession sender_device_id opaque_envelope =>
      now ← lift (clock_reading now);
      result ← try (with_coordinator (handle_routed sender_device_id opaque_envelope now));
      match result with
      | Ok outbound => mret outbound
      | Err error => if tolerated error then mret [] else mthrow RT_RemoteSession
      end
  | SE_HeartbeatAcknowledged _ _ => mret []
  | SE_Registered _ => mthrow RT_RemoteSession
  | _ =>
      now ← lift (clock_reading now);
      handle_pairing_server_event event now
  end.

(** One iteration of the loop of [run_registered_connection]; [true]: it returns. *)
Definition registered_turn (turn : RegisteredTurn) : RM bool :=
  match turn with
  | RtShutdown stopped => mret stopped
  | RtReceived handled flushed =>
      received ← over_transport receive_binary;
      match received with
      | None => mret false
      | Some encoded =>
          outbound ← handle_remote_server_frame encoded handled;
          flush_pairing flushed;;
          send_remote_outbound outbound;;
          mret false
      end
  | RtHeartbeat =>
      request_id ← next_remote_request_id;
      frame ← on_signaling (heartbeat request_id);
      over_transport (websocket_send frame);;
      mret false
  | RtPairing flushed => flush_pairing flushed;; mret false
  | RtPeerPoll elapsed now =>
      self ← get;
      if negb (has_active_session (rm_coordinator self)) then mret false else
      now ← lift (clock_reading now);
      outbound ← failing (with_coordinator (poll_peer_events_with_budget elapsed now));
      send_remote_outbound outbound;;
      mret false
  | RtTermination (Delivered event) now =>
      now ← lift (clock_reading now);
      outbound ← failing (with_coordinator (handle_termination event now));
      send_remote_outbound outbound;;
      mret false
  | RtTermination _ _ => mthrow RT_RemoteSession
  | RtElsewhere op =>
      modify (λ m, if is_local op
        then set_coordinator (set_service (service_step debug_build requested
               (co_service (rm_coordinator m)) op) (rm_coordinator m)) m
        else m);;
      mret false
  end.

(** [run_registered_connection]; [false]: it still runs. *)
Fixpoint run_registered_connection (turns : list RegisteredTurn) : RM bool :=
  match turns with
  | [] => mret false
  | turn :: turns =>
      returned ← registered_turn turn;
      if returned : bool then mret true else run_registered_connection turns
  end.

(** [connect_remote], on a connection of its own: what the handshake answers, and whether the
    first frame comes within its timeout. *)
Definition connect_remote (config : RemoteRuntimeConfig) (host_device_id : bytes) (generation : Z)
    (handshake : result SignalingClientError (option text * WebSocketSignalingTransport))
    (timely : bool) : result RuntimeError RemoteConnection :=
  transport ← map_err (λ _, RT_RemoteSession)
    (websocket_connect debug_build requested (rc_endpoint config) handshake);
  protocol ← map_err (λ _, RT_RemoteSession) (SignalingProtocol_new host_device_id);
  let registration_id := remote_request_id generation 1 in
  let '(registration, protocol) := registration registration_id protocol in
  registration ← map_err (λ _, RT_RemoteSession) registration;
  let '(sent, transport) := websocket_send registration transport in
  map_err (λ _, RT_RemoteSession) sent;;
  let '(registered, transport) := receive_binary transport in
  registered ← map_err (λ _, RT_RemoteSession) registered;
  registered ← ok_or (if timely then registered else None) RT_RemoteSession;
  let '(event, protocol) := handle_binary registered protocol in
  match event with
  | Ok (SE_Registered _) =>
      Ok {| rn_transport := transport; rn_protocol := protocol; rn_request_counter := 1;
            rn_generation := generation |}
  | _ => Err RT_RemoteSession
  end.

(** * The loop *)

Abbreviation CM A := (M CO RuntimeError A).

(** One iteration of [await_offline_operation]; [true]: it returns [None]. *)
Definition offline_turn (turn : OfflineTurn) : CM bool :=
  match turn with
  | OtShutdown stopped => mret stopped
  | OtDeadline now =>
      self ← get;
      match reconnect_deadline_unix_ms self with
      | None => mret false
      | Some deadline =>
          now ← lift (clock_reading now);
          map_err_m (λ _, RT_RemoteSession) (expire_active_reconnect (Z.max now deadline));;
          mret false
      end
  | OtTermination (Delivered event) now =>
      now ← lift (clock_reading now);
      map_err_m (λ _, RT_RemoteSession) (handle_termination event now);;
      mret false
  | OtTermination _ _ => mthrow RT_RemoteSession
  | OtElsewhere op =>
      modify (λ s, if is_local op
        then set_service (service_step debug_build requested (co_service s) op) s else s);;
      mret false
  end.

Fixpoint offline_loop (turns : list OfflineTurn) : CM bool :=
  match turns with
  | [] => mret false
  | turn :: turns =>
      returned ← offline_turn turn;
      if returned : bool then mret true else offline_loop turns
  end.

(** [await_offline_operation]: the turns before the operation ends, with its result; [None]: the
    Host stops. *)
Definition await_offline_operation {A} (turns : list OfflineTurn) (operation : result RuntimeError A)
    : CM (option A) :=
  returned ← offline_loop turns;
  if returned : bool then mret None else
  value ← lift operation;
  mret (Some value).

(** One iteration of the loop of [run_remote_sessions]: what happens while it connects, on the
    connection, and while it waits. *)
Record Attempt := {
  at_stopped : bool;
  at_connecting : list OfflineTurn;
  at_handshake : result SignalingClientError (option text * WebSocketSignalingTransport);
  at_timely : bool;
  at_turns : list RegisteredTurn;
  at_stable : bool;
  at_stopping : bool;
  at_lost : option Z;
  at_random : result unit bytes;
  at_waiting : list OfflineTurn
}.

Record RemoteLoop := {
  rl_generation : Z;
  rl_backoff : SignalingBackoff;
  rl_coordinator : CO
}.

Abbreviation LM A := (M RemoteLoop RuntimeError A).

Definition set_loop_generation (g : Z) (l : RemoteLoop) : RemoteLoop :=
  {| rl_generation := g; rl_backoff := rl_backoff l; rl_coordinator := rl_coordinator l |}.

Definition set_backoff (b : SignalingBackoff) (l : RemoteLoop) : RemoteLoop :=
  {| rl_generation := rl_generation l; rl_backoff := b; rl_coordinator := rl_coordinator l |}.

Definition set_loop_coordinator (s : CO) (l : RemoteLoop) : RemoteLoop :=
  {| rl_generation := rl_generation l; rl_backoff := rl_backoff l; rl_coordinator := s |}.

Definition in_loop {E A} (m : M CO E A) : M RemoteLoop E A := zoom rl_coordinator set_loop_coordinator m.

Definition in_loop_failing {E A} (m : M CO E A) : LM A := map_err_m (λ _, RT_RemoteSession) (in_loop m).

(** A registered connection, dropped when its run ends. *)
Definition on_registered (connection : RemoteConnection) (turns : list RegisteredTurn) : LM bool := λ l,
  let '(r, m) := run_registered_connection turns
                   {| rm_connection := connection; rm_coordinator := rl_coordinator l |} in
  (r, set_loop_coordinator (rm_coordinator m) l).

(** Where the script of a loop leaves it: still running, out of the loop, or ready to go on. *)
Inductive Progress := Running | Broken | Again.

(** The connection of an attempt: [None], the Host stops; [Some (Ok false)], it still runs. *)
Definition attempt_connection (config : RemoteRuntimeConfig) (a : Attempt)
    : LM (option (result RuntimeError bool)) :=
  self ← get;
  connected ← try (in_loop (await_offline_operation (at_connecting a)
    (connect_remote config (host_device_id (rl_coordinator self)) (rl_generation self)
       (at_handshake a) (at_timely a))));
  match connected with
  | Ok (Some connection) =>
      in_loop_failing (on_service pairing_signaling_connected);;
      result ← try (on_registered connection (at_turns a));
      modify (λ l, if at_stable a then set_backoff (backoff_reset (rl_backoff l)) l else l);;
      mret (Some result)
  | Ok None => mret None
  | Err error => mret (Some (Err error))
  end.

(** After a connection: the freeze of the session, and the wait for the next attempt. *)
Definition after_connection (a : Attempt) : LM Progress :=
  if at_stopping a then mret Broken else
  now ← lift (clock_reading (at_lost a));
  try (in_loop (signaling_lost now));;
  in_loop_failing (on_service pairing_signaling_lost);;
  self ← get;
  zoom rl_backoff set_backoff (next_delay (at_random a) (has_active_session (rl_coordinator self)));;
  waited ← in_loop (await_offline_operation (A:=unit) (at_waiting a) (Ok ()));
  mret (if is_some waited then Again else Broken).

(** One iteration of the loop. *)
Definition run_attempt (config : RemoteRuntimeConfig) (a : Attempt) : LM Progress :=
  if at_stopped a then mret Broken else
  modify (λ l, set_loop_generation (saturating_add U64_MAX (rl_generation l) 1) l);;
  connection_result ← attempt_connection config a;
  match connection_result with
  | None => mret Broken
  | Some (Ok false) => mret Running
  | Some _ => after_connection a
  end.

Fixpoint remote_loop (config : RemoteRuntimeConfig) (attempts : list Attempt) : LM Progress :=
  match attempts with
  | [] => mret Running
  | a :: attempts =>
      progress ← run_attempt config a;
      match progress with Again => remote_loop config attempts | _ => mret progress end
  end.

(** [run_remote_sessions]; [false]: it still runs. *)
Definition run_remote_sessions (config : RemoteRuntimeConfig) (attempts : list Attempt) : LM bool :=
  progress ← remote_loop config attempts;
  match progress with
  | Broken =>
      in_loop_failing shutdown;;
      in_loop_failing (on_service pairing_shutdown);;
      mret true
  | _ => mret false
  end.

(** The task: when it ends, on whichever path, the coordinator is dropped. *)
Definition remote_task (config : RemoteRuntimeConfig) (attempts : list Attempt) : LM bool := λ l,
  match run_remote_sessions config attempts l with
  | (Ok false, l) => (Ok false, l)
  | (r, l) => (r, set_loop_coordinator (RemoteSessionCoordinator_drop (rl_coordinator l)) l)
  end.

(** [prepare_remote] of a coordinator: a loop before its first attempt. *)
Definition prepared (s : CO) : RemoteLoop :=
  {| rl_generation := 0; rl_backoff := SignalingBackoff_default; rl_coordinator := s |}.
End Connection.
Arguments Remote : clear implicits.
Arguments RemoteLoop : clear implicits.

(** * Every turn is a run of the coordinator *)

Section Refines.
Context `{Sha256, Ed25519, X25519, HkdfSha256, Aes256Gcm}.
Context `{Message PairingMessage, Message PairingPlaintext, Message HostAuthorizationSnapshot}.
Context `{Message ReliableInputEnvelope, Message PointerFastEnvelope, Message SignalingEnvelope}.
Context `{Message SignalingClientFrame, Message SignalingServerFrame}.
Context `{UrlParser Url} {G : Type} `{RandomSource G} {W R : Type} `{GrantStore W, RandomSource R}.
Context (debug_build : bool) (requested : option text).
Context {V : Type} `{PeerBackend V, RemoteInputSink V, RemoteSessionFactory V}.
Context (inv : V → Prop) (held : V → gset Held).

Abbreviation CO := (RemoteSessionCoordinator G W R V).
Implicit Types s : CO.
Abbreviation step allowed := (co_step debug_build requested inv held allowed).
Abbreviation any := (λ _ : CoordinatorOp, true).

(** ** The coordinator *)

Section Steps.
Context (allowed : CoordinatorOp → bool) (s0 : CO).

(** What the coordinator can come to from [s0] by its operations and the rest of the Host. *)
Definition comes s : Prop := rtc (step allowed) s0 s.

Lemma comes_exec op s : allowed op = true → comes s → comes (co_exec op s).
Proof. intros Ho Hs. eapply rtc_r; [exact Hs|by constructor]. Qed.

Lemma comes_local op s :
  is_local op = true → comes s → comes (set_service (service_step debug_build requested (co_service s) op) s).
Proof. intros Ho Hs. eapply rtc_r; [exact Hs|by constructor]. Qed.

(** A call on the service that is one of its local operations. *)
Lemma comes_service {E A} (m : M (HostService G W R) E A) (op : HostService G W R → ServiceOp) :
  (∀ x, is_local (op x) = true ∧ (m x).2 = service_step debug_build requested x (op x)) →
  keeps comes (on_service m).
Proof.
  intros Hm s Hs. unfold on_service, zoom. destruct (Hm (co_service s)) as [Hl He].
  destruct (m (co_service s)) as [r x] eqn:Hr. cbn [snd] in *. subst x. by apply comes_local.
Qed.

Lemma comes_elsewhere op :
  keeps comes (modify (λ s, if is_local op
    then set_service (service_step debug_build requested (co_service s) op) s else s) : M CO RuntimeError unit).
Proof. apply keeps_modify. intros s Hs. destruct (is_local op) eqn:Ho; [by apply comes_local|done]. Qed.

Section Offline.
Context (Hoff : ∀ op, offline op = true → allowed op = true).

Lemma comes_expire now : keeps comes (expire_active_reconnect now).
Proof. intros s. apply (comes_exec (CoO_Expire now)). by apply Hoff. Qed.

Lemma comes_termination event now : keeps comes (handle_termination event now).
Proof. intros s. apply (comes_exec (CoO_Termination event now)). by apply Hoff. Qed.

Lemma comes_lost now : keeps comes (signaling_lost now).
Proof. intros s. apply (comes_exec (CoO_SignalingLost now)). by apply Hoff. Qed.

Lemma comes_shutdown : keeps comes shutdown.
Proof. intros s. apply (comes_exec CoO_Shutdown). by apply Hoff. Qed.

Lemma comes_offline_turn turn : keeps comes (offline_turn debug_build requested turn).
Proof.
  destruct turn as [stopped|now|[event| |] now|op]; cbn [offline_turn]; try by keeps.
  - apply keeps_get. intros s _. case_match; [|by keeps]. apply keeps_lift. intros ? _.
    apply keeps_bind; [by apply keeps_map_err, comes_expire|intros; by keeps].
  - apply keeps_lift. intros ? _. apply keeps_bind; [by apply keeps_map_err, comes_termination|intros; by keeps].
  - apply keeps_bind; [apply comes_elsewhere|intros; by keeps].
Qed.

Lemma comes_offline {A} turns (operation : result RuntimeError A) :
  keeps comes (await_offline_operation debug_build requested turns operation).
Proof.
  unfold await_offline_operation. apply keeps_bind.
  - induction turns as [|turn turns IH]; cbn [offline_loop]; [by apply keeps_ret|].
    apply keeps_bind; [by apply comes_offline_turn|intros []; [by apply keeps_ret|done]].
  - intros []; [by apply keeps_ret|]. apply keeps_lift. intros ? _. by apply keeps_ret.
Qed.

(** ** The loop, while it is not connected *)

Definition loop_comes (l : RemoteLoop G W R V) : Prop := comes (rl_coordinator l).

Lemma loop_coordinator {E A} (m : M CO E A) : keeps comes m → keeps loop_comes (in_loop m).
Proof. intros Hm. apply keeps_zoom. intros l Hl. by apply (Hm (rl_coordinator l)). Qed.

Lemma loop_failing {E A} (m : M CO E A) : keeps comes m → keeps loop_comes (in_loop_failing m).
Proof. intros Hm. by apply keeps_map_err, loop_coordinator. Qed.

Lemma loop_pairing_lost : keeps loop_comes (in_loop_failing (on_service pairing_signaling_lost)).
Proof. apply loop_failing, (comes_service _ (λ _, SvO_SignalingLost)). by intros. Qed.

Lemma loop_pairing_shutdown : keeps loop_comes (in_loop_failing (on_service pairing_shutdown)).
Proof. apply loop_failing, (comes_service _ (λ _, SvO_Shutdown)). by intros. Qed.

Lemma loop_pairing_connected : keeps loop_comes (in_loop_failing (on_service pairing_signaling_connected)).
Proof. apply loop_failing, (comes_service _ (λ _, SvO_SignalingConnected)). by intros. Qed.

Lemma loop_after a : keeps loop_comes (after_connection debug_build requested a).
Proof.
  unfold after_connection. case_match; [by apply keeps_ret|]. apply keeps_lift. intros now _.
  apply keeps_bind; [by apply keeps_try, loop_coordinator, comes_lost|intros _].
  apply keeps_bind; [apply loop_pairing_lost|intros _]. apply keeps_get. intros l _.
  apply keeps_bind; [by apply keeps_zoom|intros _].
  apply keeps_bind; [by apply loop_coordinator, comes_offline|intros ?; by apply keeps_ret].
Qed.

(** An operation that fails gives no value. *)
Lemma offline_fails {A} turns (e : RuntimeError) s value :
  (await_offline_operation (A:=A) debug_build requested turns (Err e) s).1 ≠ Ok (Some value).
Proof.
  unfold await_offline_operation. rewrite bind_run. by destruct (offline_loop _ _ _ s) as [[[]|] s'].
Qed.

Definition never_registers config a : Prop :=
  ∀ host generation, is_ok (connect_remote debug_build requested config host generation
                              (at_handshake a) (at_timely a)) = false.

(** A connection that is never registered, or one whose run the coordinator may make. *)
Lemma loop_attempt config a :
  never_registers config a ∨
  (∀ connection, keeps loop_comes (on_registered debug_build requested connection (at_turns a))) →
  keeps loop_comes (run_attempt debug_build requested config a).
Proof.
  intros Hc. unfold run_attempt. case_match; [by apply keeps_ret|]. apply keeps_bind; [by apply keeps_modify|intros _].
  apply keeps_bind; [|intros [[[]|]|]; try apply loop_after; by apply keeps_ret].
  unfold attempt_connection. apply keeps_get. intros l _ l' Hl'. rewrite bind_try.
  set (operation := connect_remote _ _ _ _ _ _ _).
  pose proof (loop_coordinator _ (comes_offline (at_connecting a) operation) l' Hl') as Hk.
  assert (never_registers config a → ∀ connection,
    (in_loop (await_offline_operation debug_build requested (at_connecting a) operation) l').1 ≠ Ok (Some connection)) as Hn.
  { intros Hn connection. unfold in_loop, zoom. specialize (Hn (host_device_id (rl_coordinator l)) (rl_generation l)).
    fold operation in Hn. destruct operation as [|e]; [done|].
    pose proof (offline_fails (at_connecting a) e (rl_coordinator l') connection) as Hf.
    by destruct (await_offline_operation _ _ _ _ _) as [r' t']. }
  destruct (in_loop _ l') as [[[connection|]|e] l'']; cbn [fst snd] in *; [|done..].
  destruct Hc as [Hc|Hc]; [by destruct (Hn Hc connection)|]. revert l'' Hk.
  apply keeps_bind; [apply loop_pairing_connected|intros _].
  apply keeps_bind; [by apply keeps_try|intros r]. apply keeps_bind; [|intros _; by apply keeps_ret].
  apply keeps_modify. intros l'' Hl''. by case_match.
Qed.

Lemma loop_run config attempts :
  (∀ a, a ∈ attempts → never_registers config a ∨
     ∀ connection, keeps loop_comes (on_registered debug_build requested connection (at_turns a))) →
  keeps loop_comes (run_remote_sessions debug_build requested config attempts).
Proof.
  intros Ha. unfold run_remote_sessions. apply keeps_bind.
  - induction attempts as [|a attempts IH]; cbn [remote_loop]; [by apply keeps_ret|].
    apply keeps_bind; [apply loop_attempt, Ha; set_solver|]. intros [| |]; [by apply keeps_ret..|].
    apply IH. intros b Hb. apply Ha. set_solver.
  - intros [| |]; [by apply keeps_ret| |by apply keeps_ret].
    apply keeps_bind; [apply loop_failing, comes_shutdown|intros _].
    apply keeps_bind; [apply loop_pairing_shutdown|intros _; by apply keeps_ret].
Qed.
End Offline.
End Steps.

(** ** A registered connection *)

Section Registered.
Context (s0 : CO).
Abbreviation here := (comes any s0).

Definition remote_comes (m : Remote G W R V) : Prop := here (rm_coordinator m).

Lemma remote_transport {A} (m : WS A) : keeps remote_comes (over_transport m).
Proof. apply keeps_map_err, keeps_zoom. by intros. Qed.

Lemma remote_signaling {A} (m : M SignalingProtocol SignalingClientError A) : keeps remote_comes (on_signaling m).
Proof. apply keeps_map_err, keeps_zoom. by intros. Qed.

Lemma remote_coordinator {E A} (m : M CO E A) : keeps here m → keeps remote_comes (with_coordinator m).
Proof. intros Hm. apply keeps_zoom. intros r Hr. by apply (Hm (rm_coordinator r)). Qed.

Lemma remote_request_id_keeps : keeps remote_comes next_remote_request_id.
Proof.
  apply keeps_bind; [by apply keeps_modify|intros _]. apply keeps_get. intros m _. by apply keeps_ret.
Qed.

Lemma remote_each {A} (l : list A) (body : A → M (Remote G W R V) RuntimeError unit) :
  (∀ x, keeps remote_comes (body x)) → keeps remote_comes (for_each l body).
Proof.
  intros Hb. induction l as [|x l IH]; [by apply keeps_ret|]. apply keeps_bind; [done|by intros].
Qed.

Lemma remote_send outbound : keeps remote_comes (send_remote_outbound outbound).
Proof.
  apply remote_each. intros o. apply keeps_bind; [apply remote_request_id_keeps|intros id].
  apply keeps_bind; [apply remote_signaling|intros frame; apply remote_transport].
Qed.

Lemma remote_flush now : keeps remote_comes (flush_pairing now).
Proof.
  unfold flush_pairing. apply keeps_lift. intros now' _. apply keeps_bind.
  - apply keeps_map_err, remote_coordinator, (comes_service any s0 _ (λ _, SvO_PollPairing now')). by intros.
  - intros outbound. apply remote_each. intros o. apply keeps_bind; [apply remote_request_id_keeps|intros id].
    apply keeps_bind; [apply remote_signaling|intros frame; apply remote_transport].
Qed.

Lemma remote_routed sender envelope now :
  keeps remote_comes (with_coordinator (handle_routed sender envelope now)).
Proof. apply remote_coordinator. intros s. by apply (comes_exec any s0 (CoO_Routed sender envelope now)). Qed.

Lemma remote_pairing_event event now : keeps remote_comes (handle_pairing_server_event event now).
Proof.
  apply keeps_bind; [|intros; by apply keeps_ret]. apply keeps_try, remote_coordinator.
  apply (comes_service any s0 _ (λ _, SvO_PairingEvent event now)). by intros.
Qed.

Lemma remote_frame encoded now : keeps remote_comes (handle_remote_server_frame encoded now).
Proof.
  apply keeps_bind; [apply remote_signaling|]. intros event.
  assert (keeps remote_comes (now ← lift (clock_reading now);
            handle_pairing_server_event event now : M (Remote G W R V) _ _)) as Hp.
  { apply keeps_lift. intros ? _. apply remote_pairing_event. }
  destruct event; try done; try by apply keeps_ret. 1: by apply keeps_throw. apply keeps_lift. intros now' _.
  apply keeps_bind; [by apply keeps_try, remote_routed|]. intros [outbound|e]; [by apply keeps_ret|].
  case_match; [by apply keeps_ret|by apply keeps_throw].
Qed.

Lemma remote_turn turn : keeps remote_comes (registered_turn debug_build requested turn).
Proof.
  destruct turn as [stopped|handled flushed| |flushed|elapsed now|[event| |] now|op]; cbn [registered_turn];
    try (by apply keeps_ret); try (by apply keeps_throw).
  - apply keeps_bind; [apply remote_transport|]. intros [encoded|]; [|by apply keeps_ret].
    apply keeps_bind; [apply remote_frame|intros outbound]. apply keeps_bind; [apply remote_flush|intros _].
    apply keeps_bind; [apply remote_send|intros _; by apply keeps_ret].
  - apply keeps_bind; [apply remote_request_id_keeps|intros id]. apply keeps_bind; [apply remote_signaling|intros frame].
    apply keeps_bind; [apply remote_transport|intros _; by apply keeps_ret].
  - apply keeps_bind; [apply remote_flush|intros _; by apply keeps_ret].
  - apply keeps_get. intros m _. case_match; [by apply keeps_ret|]. apply keeps_lift. intros now' _.
    apply keeps_bind; [|intros outbound; apply keeps_bind; [apply remote_send|intros _; by apply keeps_ret]].
    apply keeps_map_err, remote_coordinator. intros s. by apply (comes_exec any s0 (CoO_PollAll elapsed now')).
  - apply keeps_lift. intros now' _.
    apply keeps_bind; [|intros outbound; apply keeps_bind; [apply remote_send|intros _; by apply keeps_ret]].
    apply keeps_map_err, remote_coordinator. intros s. by apply (comes_exec any s0 (CoO_Termination event now')).
  - apply keeps_bind; [|intros _; by apply keeps_ret]. apply keeps_modify. intros m Hm.
    destruct (is_local op) eqn:Ho; [|done]. by apply (comes_local any s0 op).
Qed.

Lemma registered_keeps connection turns :
  keeps (loop_comes any s0) (on_registered debug_build requested connection turns).
Proof.
  intros l Hl. unfold on_registered.
  assert (keeps remote_comes (run_registered_connection debug_build requested turns)) as Hk.
  { induction turns as [|turn turns IH]; cbn [run_registered_connection]; [by apply keeps_ret|].
    apply keeps_bind; [apply remote_turn|intros []; [by apply keeps_ret|done]]. }
  specialize (Hk {| rm_connection := connection; rm_coordinator := rl_coordinator l |} Hl).
  by destruct (run_registered_connection _ _ _ _) as [r m].
Qed.
End Registered.

(** C12. The runtime drives the coordinator only through its operations. Whatever a connection, its
    transport and its peers do, one turn of a registered connection, and any run of the loop that
    connects again and again until the Host stops, are runs of the coordinator's own operations
    and of the local operations of the service, so everything proved of those runs holds; and
    while no connection is registered they are operations that route nothing and poll no peer. *)
Theorem runtime_refines_engine (config : RemoteRuntimeConfig) (attempts : list Attempt)
    (turns : list OfflineTurn) (turn : RegisteredTurn) s (m : Remote G W R V) (l : RemoteLoop G W R V) :
  rtc (step any) (rm_coordinator m) (rm_coordinator (registered_turn debug_build requested turn m).2) ∧
  rtc (step offline) s (await_offline_operation debug_build requested turns (Ok ()) s).2 ∧
  rtc (step any) (rl_coordinator l)
    (rl_coordinator (run_remote_sessions debug_build requested config attempts l).2).
Proof.
  split_and!.
  - apply (remote_turn (rm_coordinator m) turn m). apply rtc_refl.
  - apply (comes_offline offline s (λ _ Ho, Ho) turns (Ok ()) s). apply rtc_refl.
  - apply (loop_run any (rl_coordinator l) (λ _ _, eq_refl) config attempts); [|apply rtc_refl].
    intros a _. right. intros connection. apply registered_keeps.
Qed.
End Refines.

(** * Nobody else disconnects the Host *)

Section Strangers.
Context `{Sha256, Ed25519, X25519, HkdfSha256, Aes256Gcm}.
Context `{Message PairingMessage, Message PairingPlaintext, Message HostAuthorizationSnapshot}.
Context `{Message ReliableInputEnvelope, Message PointerFastEnvelope, Message SignalingEnvelope}.
Context `{Message SignalingClientFrame, Message SignalingServerFrame}.
Context `{UrlParser Url} {G : Type} `{RandomSource G} {W R : Type} `{GrantStore W, RandomSource R}.
Context {V : Type} `{PeerBackend V, RemoteInputSink V, RemoteSessionFactory V}.

Abbreviation CO := (RemoteSessionCoordinator G W R V).
Implicit Types s : CO.

(** The failures of a call are the controller's own. *)
Definition tame {A} (m : M CO RemoteSessionError A) s : Prop :=
  wp m (λ r _, ∀ e, r = Err e → tolerated e = true) s.

Lemma tame_outbound k id code now s : tame (error_outbound k id code now) s.
Proof. unfold tame, error_outbound, outbound. repeat wp_step; naive_solver. Qed.

Lemma tame_answer k id code now s :
  tame (answer ← error_outbound k id code now; mret [answer]) s.
Proof.
  apply wp_bind. eapply wp_mono; [apply tame_outbound|]. intros [o|e] s' He; [by apply wp_ret|].
  intros e' [= <-]. by apply He.
Qed.

Lemma tame_start now s : tame (try_start_pending now) s.
Proof.
  unfold tame, try_start_pending. wp_step. destruct (co_pending s) as [pending|]; [|by apply wp_ret].
  destruct (is_ready pending); [|by apply wp_ret]. wp_step. apply wp_bind, wp_try. unfold wp at 1.
  destruct (start_pending pending now _) as [[outbound|e] s']; cbn [fst snd]; [by apply wp_ret|].
  wp_step. apply wp_bind. unfold wp at 1, ignored. cbn [fst snd]. apply tame_answer.
Qed.

Lemma tame_collect payload p : wp (collect payload) (λ r _, ∀ e, r = Err e → tolerated e = true) p.
Proof.
  unfold collect, push_candidate. repeat wp_step; unfold wp, fail_if; try case_match; naive_solver.
Qed.

Lemma tame_on_pending {A} pending (m : M PendingSession RemoteSessionError A) (k : A → M CO RemoteSessionError (list RemoteSessionOutbound)) s :
  wp m (λ r _, ∀ e, r = Err e → tolerated e = true) pending →
  (∀ a p, tame (k a) (set_pending (Some p) s)) → tame (on_pending pending m ≫= k) s.
Proof.
  intros Hm Hk. apply wp_bind. unfold wp at 1, on_pending. unfold wp in Hm. destruct (m pending) as [r p].
  rewrite bind_run. unfold modify. cbn [fst snd lift] in *. destruct r as [a|e]; [apply Hk|].
  intros e' [= <-]. by apply Hm.
Qed.

Lemma prepared_pending k id request now s :
  wp (prepare_pending k id request now)
     (λ r s', ∃ b, r = Ok b ∧ (b = true → is_some (co_pending s') = true)) s.
Proof.
  unfold prepare_pending. wp_step. destruct (co_pending s) as [p|]; [case_match|]; repeat wp_step; eexists; split; try done; by intros.
Qed.

Lemma tame_prepared sender session_id request payload now s :
  tame (prepared ← prepare_pending sender session_id request now;
        if negb prepared then
          busy ← error_outbound sender request ErrorCode_DeviceBusy now;
          mret [busy]
        else
        self ← get;
        pending ← ok_or (co_pending self) RSE_Service;
        on_pending pending (collect payload);;
        try_start_pending now) s.
Proof.
  apply wp_bind. eapply wp_mono; [apply prepared_pending|]. intros ? s' ([] & -> & Hp); [|apply tame_answer].
  specialize (Hp eq_refl). cbn [negb]. wp_step. destruct (co_pending s') as [pending|]; [|done].
  cbn [ok_or]. apply tame_on_pending; [apply tame_collect|intros; apply tame_start].
Qed.

Lemma tame_pending envelope now s : tame (handle_pending_envelope envelope now) s.
Proof.
  unfold tame, handle_pending_envelope. wp_step; [naive_solver|]. destruct a;
    try (wp_step; [naive_solver|apply tame_prepared]).
  repeat wp_step; naive_solver.
Qed.

(** What the coordinator cannot do for the sender: it is not closed, and the session it has, if
    any, is another's and not over. *)
Definition not_theirs (sender : bytes) (now : Z) s : Prop :=
  co_closed s = false ∧
  ∀ a, co_active s = Some a → as_controller_device_id a ≠ sender ∧
    ∀ d, as_reconnect_deadline_unix_ms a = Some d → now < d.

Lemma not_over now s :
  (∀ a, co_active s = Some a → ∀ d, as_reconnect_deadline_unix_ms a = Some d → now < d) →
  expire_active_reconnect now s = (Ok false, s).
Proof.
  intros Ha. unfold expire_active_reconnect. rewrite bind_get. destruct (co_active s) as [a|]; [|done].
  cbn [mbind option_bind]. destruct (as_reconnect_deadline_unix_ms a) as [d|] eqn:Hd; [|done].
  by rewrite (proj2 (Z.leb_gt _ _)) by eauto.
Qed.

Lemma tame_routed sender encoded now s :
  not_theirs sender now s → tame (handle_routed sender encoded now) s.
Proof.
  intros [Hc Ha]. unfold tame, handle_routed. wp_step. wp_step; [congruence|]. wp_step.
  { intros e' [= <-]. by destruct (decode_and_validate_signaling_envelope encoded); simplify_eq/=. }
  wp_step; [naive_solver|]. boolsimpl. apply wp_bind, wp_bind. unfold wp at 1. cbn [modify fst snd].
  unfold wp at 1, modify. cbn [fst snd].
  match goal with |- wp _ _ ?t => assert (co_active t = co_active s) as Hact by (by repeat case_match); generalize dependent t end.
  intros t Hact. rewrite <- Hact in Ha. apply wp_bind. unfold wp at 1. rewrite (not_over now t) by naive_solver.
  cbn [fst snd]. wp_step. case_match; [by apply wp_ret|]. destruct (co_active t) as [a'|]; [|apply tame_pending].
  destruct (Ha a' eq_refl) as [Hne _]. rewrite bool_decide_eq_false_2 by congruence. apply tame_answer.
Qed.

End Strangers.

(** * A Host that is offline, and a Host that stops *)

Section Ends.
Context `{Sha256, Ed25519, X25519, HkdfSha256, Aes256Gcm}.
Context `{Message PairingMessage, Message PairingPlaintext, Message HostAuthorizationSnapshot}.
Context `{Message ReliableInputEnvelope, Message PointerFastEnvelope, Message SignalingEnvelope}.
Context `{Message SignalingClientFrame, Message SignalingServerFrame}.
Context `{UrlParser Url} {G : Type} `{RandomSource G} {W R : Type} `{GrantStoreLaws W, RandomSource R}.
Context `{!RandomLaws R} (debug_build : bool) (requested : option text).
Context {V : Type} `{PeerBackend V, RemoteInputSink V, RemoteSessionFactory V}.
Context (inv : V → Prop) (held : V → gset Held).
Context `{!SinkLaws V inv held, !FactoryLaws V inv held}.

Abbreviation CO := (RemoteSessionCoordinator G W R V).
Abbreviation well_formed s := (co_wf inv held s).
Implicit Types s : CO.

Lemma run_retained a d s s' :
  rtc (co_step debug_build requested inv held offline) s s' →
  retained inv held a d s → retained inv held a d s'.
Proof. intros Hrun. by apply (rtc_invariant (co_step debug_build requested inv held offline)); [apply step_retained|]. Qed.

(** The expiry of a session that is offline. *)
Lemma deadline_turn a d now s :
  retained inv held a d s →
  co_active (offline_turn debug_build requested (OtDeadline (Some now)) s).2 = None.
Proof.
  intros Hr. cbn [offline_turn clock_reading]. rewrite bind_get. unfold reconnect_deadline_unix_ms.
  destruct (co_active s) as [a'|] eqn:Ha; [|done]. cbn [mbind option_bind].
  destruct (proj2 Hr a' Ha) as (_ & _ & _ & _ & Hd). rewrite Hd.
  pose proof (expired_at inv held a d (Z.max now d) s Hr (Z.le_max_r _ _)) as [_ He].
  rewrite bind_lift, bind_map_err. by destruct (expire_active_reconnect _ s) as [[b|e] s'].
Qed.

Lemma prepared_coordinator s : rl_coordinator (prepared s) = s.
Proof. done. Qed.

(** C13. A service that cannot be reached keeps no session alive. After the loss of a connection,
    whatever attempts to connect fail, and however long they and the waits between them take, the
    session is frozen with the deadline set at the loss, and when its timer fires the session is
    gone, without another word of the service. *)
Theorem unreachable_service_bounds_session (config : RemoteRuntimeConfig) (attempts : list Attempt)
    (now clock : Z) s a (l : RemoteLoop G W R V) :
  well_formed s → co_active s = Some a → rl_coordinator l = (signaling_lost now s).2 →
  Forall (never_registers debug_build requested config) attempts →
  let l' := (run_remote_sessions debug_build requested config attempts l).2 in
  retained inv held a (reconnect_deadline now a) (rl_coordinator l') ∧
  co_active (offline_turn debug_build requested (OtDeadline (Some clock)) (rl_coordinator l')).2 = None.
Proof.
  intros Hw Ha Hl Hn l'. enough (retained inv held a (reconnect_deadline now a) (rl_coordinator l')) as Hr.
  { split; [done|]. by eapply deadline_turn. }
  apply (run_retained a _ (rl_coordinator l)); [|rewrite Hl; by apply lost_retained].
  apply (loop_run debug_build requested inv held offline (rl_coordinator l) (λ _ Ho, Ho) config attempts); [|apply rtc_refl].
  intros b Hb. left. by apply (proj1 (Forall_forall _ _) Hn).
Qed.

Lemma dropped_idle s :
  well_formed s →
  well_formed (RemoteSessionCoordinator_drop s) ∧ co_active (RemoteSessionCoordinator_drop s) = None.
Proof.
  intros Hs. unfold RemoteSessionCoordinator_drop.
  pose proof (from_failed_attempt inv held true s None _ (from_no_pending inv held true s s (from_refl inv held true s Hs))) as Hf.
  exact (close_active_wf inv held None _ (proj1 Hf) final_none).
Qed.

(** C11. When the task of the remote sessions ends, no remote session is left. However the loop
    ran, and whether the Host was stopped or the task failed (a clock, a random source, a part of
    the service), no session is active or registered, and nothing is held down on the Host if
    releases succeed. *)
Theorem remote_task_leaves_no_session (config : RemoteRuntimeConfig) (attempts : list Attempt) s
    (r : result RuntimeError bool) (l : RemoteLoop G W R V) :
  well_formed s → remote_task debug_build requested config attempts (prepared s) = (r, l) → r ≠ Ok false →
  let s' := rl_coordinator l in
  well_formed s' ∧ co_active s' = None ∧ live (co_service s') = ∅ ∧
  (reliable_release inv → held (co_world s') = ∅).
Proof.
  intros Hs Hr Hne s'. enough (well_formed s' ∧ co_active s' = None) as [Hw Ha].
  { split_and!; [done..|by eapply idle_live|]. intros Hrel. by apply (cw_quiet inv held s'). }
  assert (well_formed (rl_coordinator (run_remote_sessions debug_build requested config attempts (prepared s)).2)) as Hrun.
  { eapply (run_wf debug_build requested inv held (λ _, true)); [|exact Hs].
    apply (loop_run debug_build requested inv held (λ _, true) s (λ _ _, eq_refl) config attempts); [|apply rtc_refl].
    intros b _. right. intros connection. apply registered_keeps. }
  unfold remote_task in Hr. subst s'.
  destruct (run_remote_sessions _ _ _ _ _) as [[[]|e] l']; simplify_eq/=; by apply dropped_idle.
Qed.
End Ends.

(** * The pace of reconnecting, and the configuration *)

(** A Host reconnects neither too fast nor too slowly. The delay drawn after [n] failures in a
    row is at most the maximum (2 s, doubled for each failure up to 32 s, but never over 30 s, and
    never over 2 s while a session waits for its Controller to come back) and at least half of
    it, for every sample; the failures are counted without overflow, and no product of the
    computation leaves 64 bits. *)
Theorem backoff_bounded (self : SignalingBackoff) (sample : Z) (retained_session : bool) :
  is_u32 (sb_failures self) → is_u64 sample →
  let '(delay, self') := delay_with_sample sample retained_session self in
  let maximum := if retained_session then 2000 else Z.min (2000 * 2 ^ Z.min (sb_failures self) 4) 30000 in
  maximum <= 2 * delay <= 2 * maximum ∧ 1000 <= delay <= 30000 ∧
  is_u32 (sb_failures self') ∧ sb_failures self <= sb_failures self' ∧
  (sb_failures self < U32_MAX → sb_failures self' = sb_failures self + 1) ∧
  SIGNALING_RECONNECT_BASE_MS * Z.shiftl 1 (Z.min (sb_failures self) 4) <= U64_MAX.
Proof.
  intros Hf Hs. unfold delay_with_sample, backoff_maximum, SIGNALING_RECONNECT_BASE_MS,
    SIGNALING_RECONNECT_MAX_MS, saturating_add. cbn [sb_failures].
  unfold is_u32, is_u64, U32_MAX, U64_MAX in *. rewrite Z.shiftl_1_l.
  assert (1 <= 2 ^ Z.min (sb_failures self) 4 <= 16) as Hp.
  { split; [apply (Z.pow_le_mono_r 2 0); lia|apply (Z.pow_le_mono_r 2 _ 4); lia]. }
  set (p := 2 ^ Z.min (sb_failures self) 4) in *.
  set (h := if retained_session then 1000 else Z.min (1000 * p) 15000).
  assert (Z.min (Z.min (2000 * p) 18446744073709551615) (if retained_session then 2000 else 30000) = h * 2) as ->
    by (subst h; destruct retained_session; lia).
  assert ((if retained_session then 2000 else Z.min (2000 * p) 30000) = h * 2) as ->
    by (subst h; destruct retained_session; lia).
  assert (1000 <= h <= 15000) as Hh by (subst h; destruct retained_session; lia).
  rewrite Z.div_mul by lia. pose proof (Z.mod_pos_bound sample (h * 2 - h + 1)). split_and!; lia.
Qed.

Section Configured.
Context `{IceUrl Url} (debug_build : bool) (requested : option text).

(** What a server of the configuration is: STUN without credentials, or TURN with them. *)
Definition server_ok (server : RemoteIceServerConfig) : Prop :=
  ri_urls server ≠ [] ∧ len (ri_urls server) <= MAX_ICE_URLS_PER_SERVER ∧
  text_len (ri_username server) <= MAX_ICE_CREDENTIAL_UTF8_BYTES ∧
  text_len (ri_password server) <= MAX_ICE_CREDENTIAL_UTF8_BYTES ∧
  (Forall (λ url, valid_stun_url url = true) (ri_urls server) ∧
     ri_username server = [] ∧ ri_password server = [] ∨
   Forall (λ url, valid_turn_url url = true) (ri_urls server) ∧
     ri_username server ≠ [] ∧ ri_password server ≠ []).

Lemma forallb_Forall {A} (f : A → bool) l : forallb f l = true ↔ Forall (λ x, f x = true) l.
Proof. induction l as [|x l IH]; simpl; [done|]. by rewrite andb_true_iff, IH, Forall_cons. Qed.

Lemma server_created urls username password server :
  RemoteIceServerConfig_new urls username password = Ok server →
  server_ok server ∧ server = {| ri_urls := urls; ri_username := username; ri_password := password |}.
Proof.
  unfold RemoteIceServerConfig_new. intros [Hc%res_fail_if [= <-]]%res_seq.
  split; [|done]. unfold server_ok. cbn [ri_urls ri_username ri_password]. boolsimpl.
  split_and!; [done|lia..|]. repeat case_match; boolsimpl; try done; [left|right]; by rewrite <- forallb_Forall.
Qed.

Lemma valid_url_bound url schemes :
  valid_ice_url url schemes = true → url ≠ [] ∧ text_len url <= MAX_ICE_URL_UTF8_BYTES.
Proof. unfold valid_ice_url. case_match eqn:Hc; [done|]. intros _. boolsimpl. split; [done|lia]. Qed.

(** The bridge takes every server the configuration takes. *)
Lemma server_bridged server : server_ok server →
  ∃ b, BridgeIceServer_new (ri_urls server) (ri_username server) (ri_password server) = Ok b ∧
    b = {| bi_urls := ri_urls server; bi_username := ri_username server; bi_credential := ri_password server |}.
Proof.
  intros (Hne & Hl & Hu & Hp & Hv). eexists. split; [|done]. apply BridgeIceServer_new_ok. split; [|done].
  unfold ice_server_ok. cbn. split_and!; try done.
  destruct Hv as [[Hv _]|[Hv _]]; (eapply Forall_impl; [exact Hv|]); intros url; apply valid_url_bound.
Qed.

Lemma servers_bridged servers : Forall server_ok servers →
  bridge_ice_servers servers =
  Ok ((λ server, {| bi_urls := ri_urls server; bi_username := ri_username server;
                    bi_credential := ri_password server |}) <$> servers).
Proof.
  induction 1 as [|server servers Hs _ IH]; [done|]. cbn [bridge_ice_servers].
  destruct (server_bridged server Hs) as (b & -> & ->). cbn. by rewrite IH.
Qed.

(** The servers the environment asks for. *)
Definition stun_servers (stun : option text) : list RemoteIceServerConfig :=
  match stun with
  | Some value => [{| ri_urls := split_ice_urls value; ri_username := []; ri_password := [] |}]
  | None => []
  end.

Definition turn_servers (turn username password : option text) : list RemoteIceServerConfig :=
  match turn, username, password with
  | Some value, Some username, Some password =>
      [{| ri_urls := split_ice_urls value; ri_username := username; ri_password := password |}]
  | _, _, _ => []
  end.

Definition env_value (x : EnvVar) : option text := match x with Present value => Some value | _ => None end.

Definition env_servers (env : RemoteEnv) : list RemoteIceServerConfig :=
  stun_servers (env_value (env_stun_urls env)) ++
  turn_servers (env_value (env_turn_urls env)) (env_value (env_turn_username env))
    (env_value (env_turn_password env)).

(** The configuration the environment asks for. *)
Definition configured (env : RemoteEnv) (config : RemoteRuntimeConfig) : Prop :=
  env_endpoint env = Present (rc_endpoint config) ∧
  env_policy_of (env_value (env_policy env)) = Ok (rc_ice_transport_policy config) ∧
  rc_ice_servers config = env_servers env ∧
  validate_signaling_endpoint debug_build requested (rc_endpoint config) = Ok () ∧
  Forall server_ok (rc_ice_servers config) ∧ len (rc_ice_servers config) <= 2 ∧
  (rc_ice_transport_policy config = ITP_Relay →
   Exists (λ server, Forall (λ url, valid_turn_url url = true) (ri_urls server)) (rc_ice_servers config)) ∧
  ∃ options, bridge_options config = Ok options ∧
    bo_ice_servers options =
      (λ server, {| bi_urls := ri_urls server; bi_username := ri_username server;
                    bi_credential := ri_password server |}) <$> rc_ice_servers config.

Lemma runtime_config_created endpoint policy servers config :
  RemoteRuntimeConfig_new debug_build requested endpoint policy servers = Ok config →
  Forall server_ok servers → len servers <= 2 →
  ∀ env, env_endpoint env = Present endpoint → env_policy_of (env_value (env_policy env)) = Ok policy →
    servers = env_servers env → configured env config.
Proof.
  unfold RemoteRuntimeConfig_new. intros [He%res_map_err_iff [Hc%res_fail_if [= <-]]%res_seq]%res_seq Hs Hl.
  intros env Henv Hp Hsv. unfold configured. cbn [rc_endpoint rc_ice_servers rc_ice_transport_policy].
  apply orb_false_iff in Hc as [_ Hr]. split_and!; try done.
  - intros ->. cbn in Hr. apply negb_false_iff, existsb_exists in Hr as (server & Hin & Ht).
    apply Exists_exists. exists server. split; [by apply list_elem_of_In|]. by apply forallb_Forall.
  - unfold bridge_options. cbn [rc_ice_servers]. rewrite servers_bridged by done. cbn.
    unfold BridgePeerOptions_new. eexists. split; [apply res_map_err_iff, res_seq; split; [|by apply res_ret]|done].
    apply res_fail_if, Z.ltb_ge. unfold len, MAX_PRIVILEGED_ICE_SERVERS in *. rewrite length_fmap. lia.
Qed.

Lemma env_stun_created stun servers :
  env_stun_server stun = Ok servers →
  Forall server_ok servers ∧ len servers <= 1 ∧ servers = stun_servers stun.
Proof.
  destruct stun as [value|]; cbn [env_stun_server]; [|by intros [= <-]].
  intros (server & Hs & [= <-])%result_bind_Ok. apply server_created in Hs as [Hs Hv].
  split_and!; [by constructor|done|]. cbn. by rewrite Hv.
Qed.

Lemma env_turn_created urls username password servers :
  env_turn_server urls username password = Ok servers →
  Forall server_ok servers ∧ len servers <= 1 ∧ servers = turn_servers urls username password.
Proof.
  destruct urls as [value|]; cbn [env_turn_server].
  - intros (u & -> & (p & -> & (server & Hs & [= <-])%result_bind_Ok)%res_ok_or)%res_ok_or.
    apply server_created in Hs as [Hs Hv]. split_and!; [by constructor|done|]. cbn. by rewrite Hv.
  - intros [_ [= <-]]%res_seq. done.
Qed.

Definition env_set (env : RemoteEnv) : list EnvVar :=
  [env_endpoint env; env_policy env; env_stun_urls env; env_turn_urls env; env_turn_username env;
   env_turn_password env].

Definition env_outcome (env : RemoteEnv) (r : result RuntimeError (option RemoteRuntimeConfig)) : Prop :=
  match r with
  | Ok (Some config) => configured env config
  | Ok None => Forall (λ x, x = NotPresent) (env_set env)
  | Err e => e = RT_RemoteConfiguration ∨ e = RT_Environment ∧ NotUnicode ∈ env_set env
  end.

Lemma env_absent x : optional_unicode_env x = Ok None → x = NotPresent.
Proof. by destruct x. Qed.

Lemma env_read x o : optional_unicode_env x = Ok o → o = env_value x.
Proof. destruct x; by intros [= <-]. Qed.

Lemma env_failed env x e : optional_unicode_env x = Err e → x ∈ env_set env → env_outcome env (Err e).
Proof. destruct x; try done. intros [= <-] Hx. by right. Qed.

(** The only failure of what follows the reading of the environment. *)
Definition misconfigured {A} (r : result RuntimeError A) : Prop := ∀ e, r = Err e → e = RT_RemoteConfiguration.

Lemma misconfigured_bind {A B} (r : result RuntimeError A) (k : A → result RuntimeError B) :
  misconfigured r → (∀ a, misconfigured (k a)) → misconfigured (r ≫= k).
Proof. intros Hr Hk e. destruct r as [a|e']; cbn; [apply Hk|intros [= <-]; by apply Hr]. Qed.

Lemma misconfigured_ok {A} (a : A) : misconfigured (Ok a).
Proof. by intros e. Qed.

Lemma misconfigured_fail (c : bool) : misconfigured (fail_if c RT_RemoteConfiguration).
Proof. intros e. destruct c; [by intros [= <-]|done]. Qed.

Lemma misconfigured_ok_or {A} (o : option A) : misconfigured (ok_or o RT_RemoteConfiguration).
Proof. intros e. destruct o; [done|by intros [= <-]]. Qed.

Lemma misconfigured_server urls username password : misconfigured (RemoteIceServerConfig_new urls username password).
Proof. apply misconfigured_bind; [apply misconfigured_fail|intros; apply misconfigured_ok]. Qed.

Lemma misconfigured_stun stun : misconfigured (env_stun_server stun).
Proof.
  destruct stun; [|apply misconfigured_ok].
  apply misconfigured_bind; [apply misconfigured_server|intros; apply misconfigured_ok].
Qed.

Lemma misconfigured_turn turn username password : misconfigured (env_turn_server turn username password).
Proof.
  destruct turn; cbn [env_turn_server].
  - apply misconfigured_bind; [apply misconfigured_ok_or|intros u].
    apply misconfigured_bind; [apply misconfigured_ok_or|intros p].
    apply misconfigured_bind; [apply misconfigured_server|intros; apply misconfigured_ok].
  - apply misconfigured_bind; [apply misconfigured_fail|intros; apply misconfigured_ok].
Qed.

Lemma misconfigured_runtime endpoint policy servers :
  misconfigured (RemoteRuntimeConfig_new debug_build requested endpoint policy servers).
Proof.
  apply misconfigured_bind; [by intros e; destruct (validate_signaling_endpoint _ _ _); [|intros [= <-]]|intros _].
  apply misconfigured_bind; [apply misconfigured_fail|intros; apply misconfigured_ok].
Qed.

(** The part of [with_remote_config_from_env] after the variables are read. *)
Lemma env_endpoint_outcome env policy stun turn username password endpoint :
  env_endpoint env = Present endpoint → policy = env_value (env_policy env) →
  stun = env_value (env_stun_urls env) → turn = env_value (env_turn_urls env) →
  username = env_value (env_turn_username env) → password = env_value (env_turn_password env) →
  env_outcome env
    (fail_if (bool_decide (endpoint = [])) RT_RemoteConfiguration;;
     ice_transport_policy ← env_policy_of policy;
     stun ← env_stun_server stun;
     turn ← env_turn_server turn username password;
     config ← RemoteRuntimeConfig_new debug_build requested endpoint ice_transport_policy (stun ++ turn);
     mret (Some config)).
Proof.
  intros He -> -> -> -> ->. match goal with |- env_outcome _ ?r => assert (misconfigured r) as Hm; [|destruct r as [o|e] eqn:Hr] end.
  - apply misconfigured_bind; [apply misconfigured_fail|intros _].
    apply misconfigured_bind.
    { unfold env_policy_of. intros e. repeat case_match; try done. by intros [= <-]. }
    intros p. apply misconfigured_bind; [apply misconfigured_stun|intros s1].
    apply misconfigured_bind; [apply misconfigured_turn|intros s2].
    apply misconfigured_bind; [apply misconfigured_runtime|intros; apply misconfigured_ok].
  - apply res_seq in Hr as [_ (p & Hp & (s1 & Hs1 & (s2 & Hs2 & (config & Hc & [= <-])%result_bind_Ok)%result_bind_Ok)%result_bind_Ok)%result_bind_Ok].
    apply env_stun_created in Hs1 as (Hf1 & Hl1 & ->). apply env_turn_created in Hs2 as (Hf2 & Hl2 & ->).
    eapply runtime_config_created; [exact Hc|by apply Forall_app| |done..]. unfold len in *. rewrite length_app. lia.
  - left. by apply Hm.
Qed.

End Configured.

(** * A concrete runtime *)

Module Example.
#[local] Existing Instances Pairing.Example.digest Pairing.Example.curve Pairing.Example.expand
  Pairing.Example.cipher Pairing.Example.snapshots Pairing.Example.parser Pairing.Example.messages
  Pairing.Example.plaintexts Engine.Example.factory Engine.Example.sink_laws Engine.Example.factory_laws
  Engine.Example.envelopes.

Abbreviation peer := Service.Example.peer.
Abbreviation sound := (λ _ : gset Held, True).
Abbreviation keys := (λ w : gset Held, w).
Abbreviation connected := (co_exec (CoO_Routed peer [x01] 1500) (co_exec (CoO_Routed peer [x00] 1500) Engine.Example.idle)).

(** The session of [connected] belongs to another device. *)
Definition stranger : bytes := replicate 32 x07.

#[local] Instance server_frames : Message SignalingServerFrame := {
  encode_to_vec _ := [];
  decode _ := Some (Signaling.Example.sample_frame [] (SignalingServerFrame_Payload_RoutedSession
    {| RoutedSessionEnvelope_sender_device_id := stranger;
       RoutedSessionEnvelope_opaque_envelope := [x01] |}))
}.

#[local] Instance client_frames : Message SignalingClientFrame := {
  encode_to_vec _ := [x00]; decode _ := None
}.

Definition connection : RemoteConnection :=
  {| rn_transport := {| ws_reads := []; ws_sends := []; ws_sent := [] |};
     rn_protocol := with_state SS_Ready Signaling.Example.idle;
     rn_request_counter := 1; rn_generation := 1 |}.

Lemma stranger_not_connected : not_theirs stranger 2000 connected.
Proof.
  assert (co_closed connected = false ∧
    match co_active connected with
    | Some a => bool_decide (as_controller_device_id a ≠ stranger) = true ∧ as_reconnect_deadline_unix_ms a = None
    | None => False
    end) as [Hc Ha] by (vm_compute; done).
  split; [exact Hc|]. intros a Hact. rewrite Hact in Ha. destruct Ha as [Hk Hd].
  split; [exact (bool_decide_eq_true_1 _ Hk)|]. intros d Hd'. congruence.
Qed.


(** An attempt whose handshake fails, and the Host that stops while it waits. *)
Definition refused (waiting : list OfflineTurn) : Attempt :=
  {| at_stopped := false; at_connecting := []; at_handshake := Err SC_Transport; at_timely := true;
     at_turns := []; at_stable := false; at_stopping := false; at_lost := Some 3000;
     at_random := Ok (be_bytes 8 7); at_waiting := waiting |}.

Definition runtime_config : RemoteRuntimeConfig :=
  {| rc_endpoint := lit "wss://example.test/ws"; rc_ice_transport_policy := ITP_All; rc_ice_servers := [] |}.

Lemma refused_never waiting : never_registers false None runtime_config (refused waiting).
Proof. intros host generation. reflexivity. Qed.

Lemma connected_sound : co_wf sound keys connected.
Proof. exact Engine.Example.connected_wf. Qed.

Lemma unreachable_service_bounds_session_witness :
  ∃ a, co_active connected = Some a ∧
    retained sound keys a (reconnect_deadline 2000 a)
      (rl_coordinator (run_remote_sessions false None runtime_config [refused []; refused []]
         (prepared (signaling_lost 2000 connected).2)).2).
Proof.
  pose proof (proj1 Engine.Example.connected_active) as Hact.
  destruct (co_active connected) as [a|] eqn:Ha; [|discriminate Hact]. exists a. split; [reflexivity|].
  exact (proj1 (unreachable_service_bounds_session false None sound keys runtime_config [refused []; refused []]
    2000 0 connected a (prepared (signaling_lost 2000 connected).2) connected_sound Ha (prepared_coordinator _)
    (Forall_cons_2 _ _ _ (refused_never []) (Forall_cons_2 _ _ _ (refused_never []) (Forall_nil_2 _))))).
Defined.

(** The Host is stopped while it waits after a refused attempt. *)
Abbreviation task := (remote_task false None runtime_config [refused [OtShutdown true]] (prepared connected)).

Lemma task_ends : task.1 = Ok true.
Proof. vm_compute. reflexivity. Qed.

Lemma remote_task_leaves_no_session_witness :
  task.1 = Ok true ∧ co_active (rl_coordinator task.2) = None ∧ live (co_service (rl_coordinator task.2)) = ∅.
Proof.
  pose proof task_ends as Ht. split; [exact Ht|].
  pose proof (λ r l Hr, remote_task_leaves_no_session false None sound keys runtime_config
    [refused [OtShutdown true]] connected r l connected_sound Hr) as Hend.
  destruct task as [r l]. cbn [fst snd] in Ht |- *. destruct (Hend r l eq_refl) as (_ & Ha & Hl & _).
  - rewrite Ht. discriminate.
  - exact (conj Ha Hl).
Defined.

Lemma backoff_bounded_witness :
  let '(delay, self') := delay_with_sample 123456789 false {| sb_failures := 3 |} in
  16000 <= 2 * delay <= 2 * 16000.
Proof.
  exact (proj1 (backoff_bounded {| sb_failures := 3 |} 123456789 false
    (conj (Zle_bool_imp_le 0 3 eq_refl) (Zle_bool_imp_le 3 U32_MAX eq_refl))
    (conj (Zle_bool_imp_le 0 123456789 eq_refl) (Zle_bool_imp_le 123456789 U64_MAX eq_refl)))).
Defined.
End Example.
